(* ===== verification/_CoqProject ===== *)
-Q . S2P
Prelude.v
GoStr.v
GoTime.v
GoJson.v
Amount.v
Intent.v
Policy.v
Store.v
Like.v
Events.v
Freeze.v
Budget.v
Approval.v
H3.v
Sidecar.v
Funding.v
Wiring.v
Reconcile.v
Purchasing.v
Decode.v
Indexer.v
Replay.v
Chain.v
Ledger.v
RpcSource.v
Billing.v
Advancing.v
Proc.v
Envelope.v
Worker.v
Brain.v
Accept.v
Milestone.v
Invoices.v
Hub.v
Delivered.v
Revision.v
Restart.v
Log.v
HubScenario.v
Owner.v
Doors.v
Stream.v
Session.v
Ask.v
Git.v
Gallery.v
Incidents.v
OwnerScenario.v
Supervisor.v
Agents.v
ChainClient.v
Circle.v
Signer.v
Setup.v
Daemon.v
Hiring.v
Deployment.v
Scoper.v
Settings.v
Telegram.v
Demoseed.v
Seed.v
Cctp.v
Chainops.v
Testnetops.v
Redeploy.v
Broadcasts.v
Discovery.v
Scenario.v
