(* ===== verification/Prelude.v ===== *)
(** * Snapfall: the verification library of the daemon

    Snapfall is a Go daemon ([src/daemon]) that runs AI workers for an owner and
    lets them spend money under the owner's control, next to a TypeScript
    payment sidecar ([src/sidecar]) and Solidity contracts ([src/contracts]).
    This library is a shallow embedding of the daemon's decision logic: the
    code's functions are Rocq functions, its structs records, its databases and
    files explicit states.  [src/daemon] is left out of the paths below;
    [internal/...] and [cmd/...] are its directories.

    ** How the parts interact

    A worker asks for a purchase ([internal/worker], [internal/purchasing]).
    The purchaser has the seller's quote from the sidecar ([internal/h3]), builds
    a payment intent and submits it to the approval lifecycle
    ([internal/approval]), which asks the policy engine ([internal/policy]),
    reserves the amount against the job's budget ([internal/budget]) and either
    approves it, denies it or waits for the owner ([internal/ownerapi]).  An
    approved intent is executed once by the funding agent ([internal/funding]),
    which is the only holder of the payer and of the chain lanes.  Everything
    that matters is an event in the log of [internal/store], from which every
    component rebuilds itself at boot ([cmd/snapfall]); the kill switch
    ([internal/freeze]) stops executions.  The indexer ([internal/indexer]) turns
    contract logs into tables, which the ledger reconciliation, the billing
    agent, the advance flow and the hub ([internal/brain]) read.  The hub routes
    messages between owner, customer and workers and keeps the jobs' state
    machine; the owner API shows all of it.  Next to the daemon stand the
    operator's commands: the Circle wallet and its setup, the chain commands, the
    demo's seed, the test network's wallets.

    ** Conventions

    - A bounded integer is a [Z] and the wrap-around is written out where the
      code can reach it (policy headroom, ABI words, [int64] amounts).  A
      [*big.Int] is a [Z], with [None] where the code allows nil.
    - A Go string is a [string] of bytes; UTF-8 is walked as Go walks it
      ([GoJson]).  A time is a [Z] of nanoseconds or an argument [now].
    - A Go map is a [gmap]; where the code ranges over one, the order is an
      argument and the theorems hold for every order.
    - [result E A] is a value or an error, [M S E A] a computation over a state
      that survives its errors.  An error's text is kept where code reads it.
    - A statement of SQLite, a file operation or an exchange on the network fails
      whenever an oracle says so: [faults], [cfaults], [disk], [wire], [post], or
      the answers of a party in [Ask].  The theorems quantify over the oracles.
    - JSON is the document a text parses to ([jval]); a member of a decoded
      struct is found by its exact name, at its first occurrence (Go also takes a
      name that differs in case, and the last occurrence).
    - Code that is not in the repository is a parameter: keccak256, HMAC, RSA,
      keys and signatures, ABI packing and addresses of go-ethereum, [net/url],
      YAML, PEM, Unicode's tables outside ASCII, [math.Log].  A hypothesis about
      one states what is documented of it and is used by name.

    ** The files

    Shared ground.
    - [Prelude]: results, the state-and-error monad, lists, fold invariants.
    - [GoStr], [GoTime], [GoJson], [Amount]: decimal and hexadecimal text, RFC
      3339 times, UTF-8 and JSON strings as [encoding/json] writes them, amounts.
    - [Proc]: goroutines as sequences of atomic actions, their interleavings, and
      a logic for invariants under them.
    - [Ask]: programs that ask an outside party, what they promise of every
      question ([guarded]) and of every result ([yields]).

    The money path.
    - [Intent] ([internal/approval/hash.go]), [Policy], [Store], [Like],
      [Events], [Freeze], [Budget]: one file per package (the package
      [internal/events] over [Store]'s outbox; [Like] is SQLite's operator).
    - [Approval] ([lifecycle.go]): submission, decision, the four phases of an
      execution, recovery; over the interface [Hooks] whose laws are [HooksLaws].
    - [H3] (the sidecar's client), [Sidecar] ([sidecar/src]: pay and status),
      [Funding], [Purchasing], [Advancing]: one file per package.
    - [Wiring], [Reconcile], [Daemon], [Hiring], [Signer] ([cmd/snapfall]): the
      hooks implemented by the ledger and the policy snapshot, the reconciliation
      of claimed holds, the boot and the reclaimer, hiring, the treasury signer
      and the two chain lanes.

    The chain.
    - [Decode], [Indexer], [Replay], [Chain]: logs and events, the polling loop
      with its transactional batch, what the tables mean.
    - [Ledger] ([reconcile.go]), [RpcSource] ([rpc.go]), [Billing].
    - [ChainClient] ([internal/chain]): the JSON-RPC client of one key.
    - [Circle], [Setup]: the Circle wallet, its API and the entity secret's setup.

    The hub.
    - [Envelope], [Worker] (with [internal/qa]), [Brain], [Accept], [Milestone],
      [Invoices], [Scoper], [Hub]: messages, workers as programs over their two
      callbacks, the handlers as interleaved processes.
    - [Delivered], [Revision], [Restart], [Log]: what holds of the hub.

    The owner's side and the workforce.
    - [Owner], [Doors], [Stream], [Session]: the routes and handlers, who gets in,
      the event stream and a client that reconnects.
    - [Gallery], [Git], [Incidents]: the read-only workers and their sources.
    - [Supervisor], [Agents]: the goroutines of the workers, their manifests.
    - [Telegram], [Settings] (with [internal/logging]).

    The operator's commands.
    - [Deployment] ([internal/chaincfg], [internal/explorer]), [Demoseed], [Seed]
      ([internal/demoseed], [cmd/seed-demo]), [Cctp], [Chainops] ([internal/cctp],
      [cmd/chainops]), [Testnetops] ([internal/testnetops], [cmd/testnet-ops]),
      [Redeploy] ([redeploy.go], [cmd/redeploy-testnet]) and [Broadcasts] (its
      processes side by side on one disk, with crashes and power failures),
      [Discovery] ([internal/discovery] and the daemon's finder).

    [Scenario], [HubScenario] and [OwnerScenario] are small concrete systems at
    which the theorems of several files are applied.

    ** What the theorems show

    - Spending.  Under any interleaving of submissions, decisions, executions,
      sweeps and restarts, and any failing statement, a job's holds never exceed
      its budget ([Wiring]); an approved intent is executed at most once, also
      across restarts ([Approval]); the sweeper and an execution exclude each
      other ([Wiring]); money moves only through an admitted, unexpired,
      approved intent that names the payee and the amount ([Funding]); the
      purchaser's books agree with what the sidecar reports ([Purchasing]); the
      sidecar signs an intent once ([Sidecar]); a hold is closed only on proof
      ([Reconcile]), the boot accounts for every hold left by a crash, and a hold
      that stays stuck is paged once ([Daemon]).  The policy's outcome is
      characterised on every branch ([Policy]), and atomic and micro amounts
      convert without loss ([H3]).
    - The chain.  The indexer terminates, fails closed on malformed logs and
      installs exactly the replay of the finalised chain ([Decode], [Indexer],
      [Chain]); the reconciliation reports exactly the differences ([Ledger]); a
      client's accepted nonces increase ([ChainClient]).
    - Advances and keys.  An advance is submitted only after its approval, is one
      signed call, and every interrupted one is accounted for at boot
      ([Advancing], [Signer]); the signer is the configured one ([Signer]); the
      setup can be repeated, and what is registered is on disk ([Circle],
      [Setup]).
    - The hub.  What is delivered was reviewed ([Delivered]); the revision loop
      ends ([Revision]); a restart escalates what was running ([Restart]).
    - The owner.  The two principals have disjoint doors, a decision binds the
      hash that was shown ([Doors]); a client of the stream sees every event
      exactly once ([Session]); recorded incidents are reported, and an all-clear
      was observed ([Incidents], [Gallery]); the gallery asks git only to read,
      and a completion is measured ([Git]).
    - The workforce.  Supervision ends, and the end of the essential workers ends
      the run ([Supervisor]); a workforce is activated exactly when its manifests
      are valid ([Agents]).
    - The operator.  A seed that reports ready describes a snap that lands
      ([Seed], [Demoseed]); top-ups leave the reserve untouched ([Testnetops]); two
      broadcasts of a deployment are a cadence apart, whatever crashes between
      them ([Broadcasts]); a payout burns once, after its approval was confirmed
      ([Chainops]).

    ** Fuel and bounds

    No theorem is about a run that merely happens to return.  [sync_loop] is given
    one unit for each chunk between the cursor and the finalised height, and one
    more; [Chain.SyncOnce_terminates] shows that is enough.  The digit loops
    ([udigits], [hex_digits]) are given the logarithm of the number and [cut32]
    and [normalize_loop] the length of the text, which bounds the recursion.
    [Proc.run] and [Proc.play] are used on closed scenarios, where they return;
    the theorems about processes are about the step relation, and
    [Revision.revision_loop_ends] shows the one recursive handler ends.  Waiting
    loops (a receipt, a transaction's hash, an attestation) take the number of
    polls that fit before the deadline; [None] is the deadline's error.

    ** Not modelled, and why

    - Opening databases and files, listeners, signals, flags, printing, log lines
      and English prose: input and output without a decision, but for the
      loopback check of the owner API's listener, which is left out with it.
    - Wall-clock columns of the indexer, the hash column of the outbox, labels of
      invoices and alerts: nothing branches on them.
    - The demonstration programs ([cmd/*-demo] but for [cmd/seed-demo]) and
      [cmd/indexer]: they print runs of the parts modelled here.
    - The sidecar's quote and seller side and its signature bytes, and the
      contracts but for the capital rules in [Demoseed]: other languages, which
      the daemon meets through the answers it is given.
    - [circle-setup]'s read-only check and the state file of the seed: files and
      printing around the modelled parts.
    - A compiler may fuse the multiplications and additions of a score on some
      processors; [Discovery] rounds each operation on its own. *)
From Stdlib Require Export ZArith Lia.
From stdpp Require Export base option gmap strings list fin_maps sorting.

(** ** Scope and notations *)
#[export] Set Warnings "-clear-no-such-hyp".
Declare Scope snap_scope.
Delimit Scope snap_scope with snap.
#[global] Open Scope Z_scope.

(** ** Go results: a value or an error *)
Inductive result (E A : Type) : Type :=
| Ok (a : A)
| Err (e : E).
Arguments Ok {E A} _.
Arguments Err {E A} _.

Definition is_ok {E A} (r : result E A) : bool :=
  match r with Ok _ => true | Err _ => false end.

Definition to_option {E A} (r : result E A) : option A := match r with Ok a => Some a | Err _ => None end.

#[export] Instance result_ret {E} : MRet (result E) := λ A a, Ok a.
#[export] Instance result_bind {E} : MBind (result E) :=
  λ A B f r, match r with Ok a => f a | Err e => Err e end.
#[export] Instance result_fmap {E} : FMap (result E) :=
  λ A B f r, match r with Ok a => Ok (f a) | Err e => Err e end.

(** ** Computations that thread a state and may fail.  The state survives an
    error, as it does in Go: [return nil, err] undoes no earlier write. *)
Definition M (S E A : Type) : Type := S → S * result E A.

Definition retM {S E A} (a : A) : M S E A := λ s, (s, Ok a).
Definition failM {S E A} (e : E) : M S E A := λ s, (s, Err e).
Definition bindM {S E A B} (m : M S E A) (k : A → M S E B) : M S E B := λ s,
  let '(s', r) := m s in
  match r with Ok a => k a s' | Err e => (s', Err e) end.
Definition getM {S E} : M S E S := λ s, (s, Ok s).
Definition modifyM {S E} (f : S → S) : M S E unit := λ s, (f s, Ok tt).
Definition liftM {S E A} (r : result E A) : M S E A := λ s, (s, r).
(** [try m] runs [m] and hands its error back as a value, the Go idiom
    [if err := m(); err != nil]. *)
Definition tryM {S E F A} (m : M S E A) : M S F (result E A) := λ s,
  let '(s', r) := m s in (s', Ok r).
Definition mapErrM {S E F A} (f : E → F) (m : M S E A) : M S F A := λ s,
  let '(s', r) := m s in
  (s', match r with Ok a => Ok a | Err e => Err (f e) end).

Notation "x <-- m ;; k" := (bindM m (λ x, k))
  (at level 100, m at next level, right associativity) : snap_scope.
Notation "m ;;; k" := (bindM m (λ _, k))
  (at level 100, right associativity) : snap_scope.

Lemma bindM_ret {S E A B} (a : A) (k : A → M S E B) s :
  bindM (retM a) k s = k a s.
Proof. reflexivity. Qed.

Lemma bindM_assoc {S E A B C} (m : M S E A) (f : A → M S E B) (g : B → M S E C) s :
  bindM (bindM m f) g s = bindM m (λ a, bindM (f a) g) s.
Proof. unfold bindM. destruct (m s) as [s' [a|e]]; reflexivity. Qed.

Lemma bindM_inv_ok {S E A B} (m : M S E A) (k : A → M S E B) s s' b :
  bindM m k s = (s', Ok b) →
  ∃ s1 a, m s = (s1, Ok a) ∧ k a s1 = (s', Ok b).
Proof.
  unfold bindM. destruct (m s) as [s1 [a|e]]; intros; [eauto|congruence].
Qed.

Lemma bindM_cases {S E A B} (m : M S E A) (k : A → M S E B) s s' r :
  bindM m k s = (s', r) →
  (∃ s1 a, m s = (s1, Ok a) ∧ k a s1 = (s', r)) ∨
  (∃ e, m s = (s', Err e) ∧ r = Err e).
Proof.
  unfold bindM. destruct (m s) as [s1 [a|e]]; intros H; [left; eauto|].
  right. exists e. simplify_eq. done.
Qed.

(** Run the first computation of a sequence: two goals, its success (the
    continuation stays in [H]) and its failure (which is the outcome). *)
Ltac run_bind H Hm :=
  apply bindM_cases in H as [(? & ? & Hm & H)|(? & Hm & ->)].

(** ** Machine integers *)
Definition max_int64 : Z := 9223372036854775807.
Definition min_int64 : Z := -9223372036854775808.
Definition two64 : Z := 18446744073709551616.
Definition int64_range (z : Z) : Prop := min_int64 ≤ z ≤ max_int64.
(** Two's-complement wrap-around of Go's [int64] arithmetic. *)
Definition wrap64 (z : Z) : Z := (z - min_int64) `mod` two64 + min_int64.
Definition add64 (a b : Z) : Z := wrap64 (a + b).
Definition sub64 (a b : Z) : Z := wrap64 (a - b).
(** [uint64(z)] of an [int64]. *)
Definition to_uint64 (z : Z) : Z := z `mod` two64.

#[export] Instance int64_range_dec z : Decision (int64_range z).
Proof. unfold int64_range. apply _. Defined.

(** Unfold every integer constant and hand the goal to [lia]. *)
Ltac int_lia :=
  unfold int64_range, wrap64, add64, sub64, to_uint64, max_int64, min_int64, two64 in *;
  Z.div_mod_to_equations; lia.

Lemma wrap64_id z : int64_range z → wrap64 z = z.
Proof. intros. int_lia. Qed.

Lemma wrap64_range z : int64_range (wrap64 z).
Proof. int_lia. Qed.

Lemma sub64_exact a b : int64_range (a - b) → sub64 a b = a - b.
Proof. apply wrap64_id. Qed.

Lemma add64_exact a b : int64_range (a + b) → add64 a b = a + b.
Proof. apply wrap64_id. Qed.

(** ** Case analysis *)
(** Split every [match]/[if] of the goal and clean up. *)
Ltac split_matches := repeat (case_match; simplify_eq/=; try done).
(** The same on hypotheses of an executed operation. *)
Ltac split_matches_in H := repeat (case_match; simplify_eq/=; try done).

Ltac bool_to_prop :=
  repeat match goal with
  | H : (_ && _)%bool = true |- _ => apply andb_true_iff in H as [? ?]
  | H : (_ || _)%bool = false |- _ => apply orb_false_iff in H as [? ?]
  | H : (_ || _)%bool = true |- _ => apply orb_true_iff in H
  | H : (_ && _)%bool = false |- _ => apply andb_false_iff in H
  | H : negb _ = true |- _ => apply negb_true_iff in H
  | H : negb _ = false |- _ => apply negb_false_iff in H
  | H : (_ <? _) = true |- _ => apply Z.ltb_lt in H
  | H : (_ <? _) = false |- _ => apply Z.ltb_ge in H
  | H : (_ <=? _) = true |- _ => apply Z.leb_le in H
  | H : (_ <=? _) = false |- _ => apply Z.leb_gt in H
  | H : (_ =? _) = true |- _ => apply Z.eqb_eq in H
  | H : (_ =? _) = false |- _ => apply Z.eqb_neq in H
  | H : bool_decide _ = true |- _ => apply bool_decide_eq_true in H
  | H : bool_decide _ = false |- _ => apply bool_decide_eq_false in H
  end.

(** ** Lists *)
Lemma foldl_perm_invariant {A B} (f : B → A → B) (l1 l2 : list A) (b : B) :
  (∀ b x y, f (f b x) y = f (f b y) x) →
  l1 ≡ₚ l2 → foldl f b l1 = foldl f b l2.
Proof.
  intros Hcomm Hp. revert b.
  induction Hp; intros b0; simpl; congruence.
Qed.

Definition sumZ (l : list Z) : Z := foldr Z.add 0 l.

Lemma sumZ_app l1 l2 : sumZ (l1 ++ l2) = sumZ l1 + sumZ l2.
Proof. induction l1; simpl; [done|]. unfold sumZ in *. simpl. lia. Qed.

Lemma sumZ_perm l1 l2 : l1 ≡ₚ l2 → sumZ l1 = sumZ l2.
Proof. induction 1; unfold sumZ in *; simpl in *; lia. Qed.

Lemma sumZ_nonneg l : Forall (λ z, 0 ≤ z) l → 0 ≤ sumZ l.
Proof. induction 1; unfold sumZ in *; simpl in *; lia. Qed.

(** ** Insertion sort, for the comparators of the source that are total orders
    on the values they meet (so that every sorting algorithm gives this list) *)
Section isort.
Context {A : Type} (less : A → A → bool).
Fixpoint sort_insert (x : A) (l : list A) : list A :=
  match l with
  | [] => [x]
  | y :: r => if less x y then x :: l else y :: sort_insert x r
  end.
Definition isort (l : list A) : list A := foldr sort_insert [] l.

Lemma sort_insert_perm x l : sort_insert x l ≡ₚ x :: l.
Proof.
  induction l as [|y l IH]; [done|]. cbn. destruct (less x y); [done|].
  rewrite IH. apply perm_swap.
Qed.
Lemma isort_perm l : isort l ≡ₚ l.
Proof. induction l as [|x l IH]; [done|]. cbn. by rewrite sort_insert_perm, IH. Qed.
Lemma elem_of_isort x l : x ∈ isort l ↔ x ∈ l.
Proof. by rewrite isort_perm. Qed.

Hypothesis less_asym : ∀ x y, less x y = true → less y x = false.
Hypothesis less_trans : ∀ x y z, less y x = false → less z y = false → less z x = false.

Lemma sort_insert_sorted x l :
  Sorted (λ x y, less y x = false) l → Sorted (λ x y, less y x = false) (sort_insert x l).
Proof.
  intros Hs. induction Hs as [|y l Hs IH Hh]; cbn; [repeat constructor|].
  destruct (less x y) eqn:E; [repeat constructor; auto|].
  constructor; [done|]. destruct l as [|z l]; cbn; [by constructor|].
  destruct (less x z) eqn:E2; constructor; [done|]. by inversion Hh.
Qed.
Lemma isort_sorted l : Sorted (λ x y, less y x = false) (isort l).
Proof. induction l as [|x l IH]; [constructor|]. cbn. by apply sort_insert_sorted. Qed.
End isort.

(** ** Stable sort: [sort.SliceStable] *)
Section stable_sort.
Context {A : Type} (less : A → A → bool).
Fixpoint stable_insert (x : A) (l : list A) : list A :=
  match l with
  | [] => [x]
  | y :: r => if less y x then y :: stable_insert x r else x :: l
  end.
Definition SliceStable (l : list A) : list A := foldr stable_insert [] l.

Lemma stable_insert_perm x l : stable_insert x l ≡ₚ x :: l.
Proof.
  induction l as [|y l IH]; [done|]. cbn. destruct (less y x); [|done].
  rewrite IH. apply perm_swap.
Qed.
Lemma SliceStable_perm l : SliceStable l ≡ₚ l.
Proof. induction l as [|x l IH]; [done|]. cbn. by rewrite stable_insert_perm, IH. Qed.

Hypothesis less_asym : ∀ x y, less x y = true → less y x = false.
Hypothesis less_trans : ∀ x y z, less y x = false → less z y = false → less z x = false.
Definition not_after (x y : A) : Prop := less y x = false.

Lemma stable_insert_sorted x l : StronglySorted not_after l → StronglySorted not_after (stable_insert x l).
Proof.
  induction 1 as [|y l Hs IH Hall]; cbn; [repeat constructor|].
  destruct (less y x) eqn:E.
  - constructor; [done|]. rewrite stable_insert_perm. constructor; [|done]. by apply less_asym.
  - constructor; [by constructor|]. constructor; [done|].
    eapply Forall_impl; [exact Hall|]. intros z Hz. exact (less_trans _ _ _ E Hz).
Qed.
Lemma SliceStable_sorted l : StronglySorted not_after (SliceStable l).
Proof. induction l as [|x l IH]; [constructor|]. by apply stable_insert_sorted. Qed.

(** A sorted list is its own sort, and sorting forgets the order of elements
    that the comparator tells apart. *)
Lemma SliceStable_sorted_id l : StronglySorted not_after l → SliceStable l = l.
Proof.
  induction 1 as [|x l Hs IH Hall]; [done|].
  change (SliceStable (x :: l)) with (stable_insert x (SliceStable l)). rewrite IH.
  destruct l as [|y l]; [done|]. cbn. inversion Hall as [|? ? Hxy]; subst. by rewrite Hxy.
Qed.
Lemma sorted_perm_unique l l' :
  (∀ x y, x ∈ l → y ∈ l → less x y = false → less y x = false → x = y) →
  l ≡ₚ l' → StronglySorted not_after l → StronglySorted not_after l' → l = l'.
Proof.
  intros Htot Hp Hs. revert l' Hp. induction Hs as [|x l Hs IH Hall]; intros l' Hp Hs'.
  { by apply Permutation_nil in Hp. }
  destruct Hs' as [|y l' Hs' Hall']; [by apply Permutation_sym, Permutation_nil in Hp|].
  assert (x = y) as <-.
  { assert (Hy : y ∈ x :: l) by (rewrite Hp; left). assert (Hx : x ∈ y :: l') by (rewrite <-Hp; left).
    apply elem_of_cons in Hy as [->|Hy]; [done|]. apply elem_of_cons in Hx as [->|Hx]; [done|].
    rewrite Forall_forall in Hall, Hall'.
    apply Htot; [by left|by right|exact (Hall' x Hx)|exact (Hall y Hy)]. }
  f_equal. apply IH; [|by apply Permutation_cons_inv in Hp|done].
  intros a b Ha Hb. apply Htot; by right.
Qed.
End stable_sort.

(** ** Sums over the values of a map *)
#[global] Arguments sumZ : simpl never.
Section msum.
Context {K : Type} `{Countable K} {A : Type} (f : A → Z).
Definition msum (m : gmap K A) : Z := sumZ ((λ kv, f kv.2) <$> map_to_list m).

Lemma sumZ_cons z l : sumZ (z :: l) = z + sumZ l.
Proof. reflexivity. Qed.
Lemma msum_empty : msum ∅ = 0.
Proof. unfold msum. by rewrite map_to_list_empty. Qed.
Lemma msum_insert_new m k v : m !! k = None → msum (<[k := v]> m) = f v + msum m.
Proof.
  intros Hk. unfold msum. rewrite <-(sumZ_cons (f v)). apply sumZ_perm.
  by rewrite (map_to_list_insert m k v Hk).
Qed.
Lemma msum_insert_old m k u v :
  m !! k = Some u → msum (<[k := v]> m) = f v - f u + msum m.
Proof.
  intros Hk. rewrite <-(insert_id m k u Hk) at 2.
  rewrite <-(insert_delete_eq m k v), <-(insert_delete_eq m k u).
  rewrite !msum_insert_new by apply lookup_delete_eq. lia.
Qed.
Lemma msum_nonneg m : (∀ k v, m !! k = Some v → 0 ≤ f v) → 0 ≤ msum m.
Proof.
  intros Hf. apply sumZ_nonneg, Forall_forall. intros z Hz.
  apply list_elem_of_fmap in Hz as ([k v] & -> & Hkv). cbn.
  apply elem_of_map_to_list in Hkv. eauto.
Qed.
End msum.
Lemma msum_mono {K} `{Countable K} {A} (f g : A → Z) (m : gmap K A) :
  (∀ k v, m !! k = Some v → f v ≤ g v) → msum f m ≤ msum g m.
Proof.
  intros Hfg. unfold msum. assert (Hl : ∀ kv, kv ∈ map_to_list m → f kv.2 ≤ g kv.2).
  { intros [k v] Hkv. apply elem_of_map_to_list in Hkv. eauto. }
  revert Hl. induction (map_to_list m) as [|kv l IH]; intros Hl; [done|].
  cbn. rewrite !sumZ_cons. pose proof (Hl kv (list_elem_of_here _ _)).
  assert (sumZ ((λ kv, f kv.2) <$> l) ≤ sumZ ((λ kv, g kv.2) <$> l)); [|lia].
  apply IH. intros kv' Hkv'. apply Hl. by right.
Qed.
Lemma msum_ext {K} `{Countable K} {A} (f g : A → Z) (m : gmap K A) :
  (∀ k v, m !! k = Some v → f v = g v) → msum f m = msum g m.
Proof.
  intros Hfg. apply Z.le_antisymm; apply msum_mono; intros k v Hk; by rewrite (Hfg k v Hk).
Qed.

(** ** Reflexive transitive closure of a step function's relation *)
Create HintDb snap.
#[export] Hint Resolve wrap64_id wrap64_range : snap.
