(* ===== verification/GoStr.v ===== *)
(** Go's byte strings: the parts of [strconv], [strings], [encoding/hex] and
    [math/big] the daemon uses, executable, with the facts that make the
    printed forms unambiguous.  A Go [string] is a byte sequence, and so is a
    Rocq [string]: each [ascii] is one byte. *)
From S2P Require Import Prelude.
From Stdlib Require Import Ascii String.
#[local] Open Scope Z_scope.

(** ** Bytes *)
Definition byteZ (c : ascii) : Z := Z.of_N (N_of_ascii c).
Definition chrZ (z : Z) : ascii := ascii_of_N (Z.to_N z).

Lemma byteZ_range c : 0 ≤ byteZ c < 256.
Proof. unfold byteZ. pose proof (N_ascii_bounded c). lia. Qed.

Lemma byteZ_chrZ z : 0 ≤ z < 256 → byteZ (chrZ z) = z.
Proof.
  intros. unfold byteZ, chrZ. rewrite N_ascii_embedding by lia. lia.
Qed.

Lemma chrZ_byteZ c : chrZ (byteZ c) = c.
Proof. unfold chrZ, byteZ. rewrite N2Z.id. apply ascii_N_embedding. Qed.

Lemma byteZ_inj c d : byteZ c = byteZ d → c = d.
Proof. intros H. rewrite <-(chrZ_byteZ c), <-(chrZ_byteZ d). congruence. Qed.

(** ** Append *)
#[global] Arguments String.append : simpl nomatch.

Lemma sapp_assoc (a b c : string) : (a +:+ b) +:+ c = a +:+ b +:+ c.
Proof. induction a; simpl; [done|]. cbn. by f_equal. Qed.

Lemma sapp_nil_r (a : string) : a +:+ "" = a.
Proof. induction a; [done|]. cbn. by f_equal. Qed.

Lemma sapp_nil_l (a : string) : "" +:+ a = a.
Proof. reflexivity. Qed.

Lemma sapp_cons c (a b : string) : String c a +:+ b = String c (a +:+ b).
Proof. reflexivity. Qed.

Lemma slength_app (a b : string) :
  String.length (a +:+ b) = (String.length a + String.length b)%nat.
Proof. induction a; [done|]. cbn. by f_equal. Qed.

Lemma sapp_inj_l (a b c : string) : a +:+ b = a +:+ c → b = c.
Proof. induction a; cbn; [done|]. intros [=]. auto. Qed.

Lemma scons_inj c (a b : string) : String c a = String c b → a = b.
Proof. congruence. Qed.

(** Two appends with heads of one length split at the same place. *)
Lemma sapp_inj_len (a a' b b' : string) :
  String.length a = String.length a' → a +:+ b = a' +:+ b' → a = a' ∧ b = b'.
Proof.
  revert a'. induction a as [|c a IH]; intros [|c' a'] Hl H; try done.
  cbn in Hl, H. simplify_eq. destruct (IH a') as [-> ->]; auto.
Qed.

(** All bytes of a string satisfy a boolean predicate. *)
Fixpoint sall (p : ascii → bool) (s : string) : bool :=
  match s with
  | EmptyString => true
  | String c r => p c && sall p r
  end.

Lemma sall_app p a b : sall p (a +:+ b) = sall p a && sall p b.
Proof. induction a; cbn; [done|]. by rewrite IHa, andb_assoc. Qed.

(** A maximal prefix of bytes satisfying [p] is determined by the whole
    string when the next byte does not satisfy it. *)
Lemma sall_span_inj p (a a' b b' : string) (c c' : ascii) :
  sall p a = true → sall p a' = true → p c = false → p c' = false →
  a +:+ String c b = a' +:+ String c' b' → a = a' ∧ String c b = String c' b'.
Proof.
  revert a'. induction a as [|x a IH]; intros [|x' a'] Ha Ha' Hc Hc' H;
    cbn in *; simplify_eq; bool_to_prop; try congruence; [done|].
  edestruct (IH a') as [-> ?]; eauto.
Qed.

(** ** Decimal integers *)
Definition isDigit (c : ascii) : bool := (48 <=? byteZ c) && (byteZ c <=? 57).
Definition digitZ (c : ascii) : Z := byteZ c - 48.
Definition digit (d : Z) : ascii := chrZ (48 + d).

Lemma isDigit_digit d : 0 ≤ d < 10 → isDigit (digit d) = true.
Proof.
  intros. unfold isDigit, digit. rewrite byteZ_chrZ by lia.
  apply andb_true_iff; split; apply Z.leb_le; lia.
Qed.

Lemma digitZ_digit d : 0 ≤ d < 10 → digitZ (digit d) = d.
Proof. intros. unfold digitZ, digit. rewrite byteZ_chrZ; lia. Qed.

Lemma isDigit_range c : isDigit c = true → 0 ≤ digitZ c < 10.
Proof. unfold isDigit, digitZ. intros H. bool_to_prop. lia. Qed.

(** Digits of [n], most significant first, in front of [acc]. *)
Fixpoint udigits (fuel : nat) (n : Z) (acc : string) : string :=
  match fuel with
  | O => acc
  | S k =>
    let acc' := String (digit (n `mod` 10)) acc in
    if n <? 10 then acc' else udigits k (n / 10) acc'
  end.

(** [strconv.FormatUint(n, 10)] and [big.Int.String] of a non-negative [n].
    The binary length bounds the number of decimal digits. *)
Definition FormatUint (n : Z) : string := udigits (S (Z.to_nat (Z.log2 n))) n "".
(** [strconv.FormatInt(n, 10)]. *)
Definition FormatInt (n : Z) : string :=
  if n <? 0 then "-" +:+ FormatUint (- n) else FormatUint n.

(** Value of a digit string after [acc]; [None] on a non-digit. *)
Fixpoint digits_value (acc : Z) (s : string) : option Z :=
  match s with
  | EmptyString => Some acc
  | String c r => if isDigit c then digits_value (10 * acc + digitZ c) r else None
  end.

(** An unsigned decimal literal: at least one digit and nothing else. *)
Definition parse_uint (s : string) : option Z :=
  match s with EmptyString => None | _ => digits_value 0 s end.

(** The integer grammar shared by [strconv.ParseInt(s, 10, _)] and
    [big.Int.SetString(s, 10)]: one optional sign, then digits. *)
Definition parse_int (s : string) : option Z :=
  match s with
  | String c r =>
    if bool_decide (c = "-"%char) then Z.opp <$> parse_uint r
    else if bool_decide (c = "+"%char) then parse_uint r
    else parse_uint s
  | EmptyString => None
  end.

Lemma udigits_acc fuel n acc : udigits fuel n acc = udigits fuel n "" +:+ acc.
Proof.
  revert n acc. induction fuel as [|k IH]; intros n acc; [done|].
  cbn. case_match; [done|]. rewrite IH. rewrite (IH _ (String _ "")).
  by rewrite sapp_assoc.
Qed.

Lemma udigits_sall fuel n acc :
  0 ≤ n → sall isDigit acc = true → sall isDigit (udigits fuel n acc) = true.
Proof.
  revert n acc. induction fuel as [|k IH]; intros n acc Hn Hacc; [done|].
  assert (Hd : sall isDigit (String (digit (n `mod` 10)) acc) = true).
  { cbn. rewrite isDigit_digit, Hacc; [done|]. Z.div_mod_to_equations; lia. }
  cbn. case_match; [done|]. apply IH; [|done]. Z.div_mod_to_equations; lia.
Qed.

Lemma FormatUint_digits n : 0 ≤ n → sall isDigit (FormatUint n) = true.
Proof. intros. by apply udigits_sall. Qed.

Lemma udigits_value fuel n acc a :
  0 ≤ n → n < 2 ^ Z.of_nat fuel →
  sall isDigit acc = true →
  digits_value a (udigits fuel n acc) =
    digits_value (a * 10 ^ Z.of_nat (String.length (udigits fuel n "")) + n) acc.
Proof.
  revert n acc a. induction fuel as [|k IH]; intros n acc a Hn Hlt Hacc.
  { cbn in *. replace n with 0 by lia. f_equal. lia. }
  assert (Hm : 0 ≤ n `mod` 10 < 10) by (Z.div_mod_to_equations; lia).
  assert (Hdig : isDigit (digit (n `mod` 10)) = true) by by apply isDigit_digit.
  cbn [udigits]. destruct (n <? 10) eqn:E; bool_to_prop.
  - cbn. rewrite Hdig, digitZ_digit by done. f_equal.
    rewrite Z.mod_small by lia. lia.
  - rewrite IH.
    + cbn. rewrite Hdig, digitZ_digit by done. f_equal.
      rewrite (udigits_acc k (n / 10) (String _ "")), slength_app. cbn [String.length].
      rewrite Nat2Z.inj_add, Z.pow_add_r by lia.
      change (10 ^ Z.of_nat 1) with 10.
      pose proof (Z.div_mod n 10 ltac:(lia)). lia.
    + Z.div_mod_to_equations; lia.
    + rewrite Nat2Z.inj_succ, Z.pow_succ_r in Hlt by lia.
      Z.div_mod_to_equations; lia.
    + cbn. by rewrite Hdig, Hacc.
Qed.

Lemma FormatUint_fuel n : 0 ≤ n → n < 2 ^ Z.of_nat (S (Z.to_nat (Z.log2 n))).
Proof.
  intros Hn. rewrite Nat2Z.inj_succ, Z2Nat.id by apply Z.log2_nonneg.
  destruct (decide (n = 0)) as [->|]; [reflexivity|].
  apply Z.log2_spec. lia.
Qed.

Lemma digits_value_FormatUint n : 0 ≤ n → digits_value 0 (FormatUint n) = Some n.
Proof.
  intros Hn. unfold FormatUint. rewrite udigits_value; [|done| |done].
  - reflexivity.
  - by apply FormatUint_fuel.
Qed.

Lemma FormatUint_nonempty n : FormatUint n ≠ "".
Proof.
  unfold FormatUint. cbn [udigits]. case_match; [done|].
  rewrite udigits_acc. destruct (udigits _ _ _); done.
Qed.

(** Printing then parsing an unsigned integer gives it back. *)
Lemma parse_uint_FormatUint n : 0 ≤ n → parse_uint (FormatUint n) = Some n.
Proof.
  intros Hn. unfold parse_uint. destruct (FormatUint n) eqn:E.
  - by destruct (FormatUint_nonempty n).
  - rewrite <-E. by apply digits_value_FormatUint.
Qed.

Lemma digits_head_not_sign s c r :
  sall isDigit s = true → s = String c r → c ≠ "-"%char ∧ c ≠ "+"%char.
Proof. intros H ->. cbn in H. bool_to_prop. by split; intros ->. Qed.

(** Printing then parsing any integer gives it back. *)
Lemma parse_int_FormatInt n : parse_int (FormatInt n) = Some n.
Proof.
  unfold FormatInt. case_match; bool_to_prop.
  - change (Z.opp <$> parse_uint (FormatUint (- n)) = Some n).
    rewrite parse_uint_FormatUint by lia. simpl. f_equal. lia.
  - pose proof (FormatUint_digits n ltac:(lia)) as Hd.
    pose proof (parse_uint_FormatUint n ltac:(lia)) as Hp.
    destruct (FormatUint n) as [|c r] eqn:E; [done|].
    destruct (digits_head_not_sign _ c r Hd eq_refl).
    unfold parse_int. by rewrite !bool_decide_eq_false_2.
Qed.

Lemma FormatInt_inj n m : FormatInt n = FormatInt m → n = m.
Proof. intros H. apply (f_equal parse_int) in H. rewrite !parse_int_FormatInt in H. congruence. Qed.

(** [fmt.Sprintf("%0<w>d", n)] of a non-negative [n], and Go's internal
    [appendInt(b, n, w)] used by [time.Format]. *)
Fixpoint zeros (n : nat) : string :=
  match n with O => "" | S k => String "0" (zeros k) end.
Definition pad0 (w : nat) (s : string) : string := zeros (w - String.length s) +:+ s.
Definition FormatPad (w : nat) (n : Z) : string := pad0 w (FormatUint n).

Lemma digits_value_zeros a k s :
  a = 0 → digits_value a (zeros k +:+ s) = digits_value 0 s.
Proof. intros ->. induction k as [|k IH]; [done|]. cbn. exact IH. Qed.

Lemma digits_value_FormatPad w n : 0 ≤ n → digits_value 0 (FormatPad w n) = Some n.
Proof.
  intros. unfold FormatPad, pad0. rewrite digits_value_zeros by done.
  by apply digits_value_FormatUint.
Qed.

Lemma zeros_digits k : sall isDigit (zeros k) = true.
Proof. by induction k. Qed.

Lemma FormatPad_digits w n : 0 ≤ n → sall isDigit (FormatPad w n) = true.
Proof.
  intros. unfold FormatPad, pad0. by rewrite sall_app, zeros_digits, FormatUint_digits.
Qed.

Lemma FormatPad_inj w n m : 0 ≤ n → 0 ≤ m → FormatPad w n = FormatPad w m → n = m.
Proof.
  intros Hn Hm H. apply (f_equal (digits_value 0)) in H.
  rewrite !digits_value_FormatPad in H by done. congruence.
Qed.

(** ** Letters and hexadecimal digits *)
Definition lower1 (c : ascii) : ascii :=
  if (65 <=? byteZ c) && (byteZ c <=? 90) then chrZ (byteZ c + 32) else c.
Fixpoint lower_ascii (s : string) : string :=
  match s with "" => "" | String c r => String (lower1 c) (lower_ascii r) end.
(** The digit values [hex.DecodeString], [strconv.ParseUint(_, 16, _)] and
    [decodeURIComponent] accept. *)
Definition hex_value (c : ascii) : option Z :=
  if isDigit c then Some (byteZ c - 48)
  else if (65 <=? byteZ c) && (byteZ c <=? 70) then Some (byteZ c - 55)
  else if (97 <=? byteZ c) && (byteZ c <=? 102) then Some (byteZ c - 87)
  else None.
(** [hex.DecodeString]. *)
Fixpoint hex_DecodeString (s : string) : option string :=
  match s with
  | "" => Some ""
  | String a (String b r) =>
    x ← hex_value a; y ← hex_value b; t ← hex_DecodeString r; Some (String (chrZ (16 * x + y)) t)
  | _ => None
  end.
(** [strings.CutPrefix]. *)
Fixpoint strip_prefix (p s : string) : option string :=
  match p, s with
  | "", _ => Some s
  | String c p', String d s' => if bool_decide (c = d) then strip_prefix p' s' else None
  | _, "" => None
  end.
Lemma strip_prefix_app p s : strip_prefix p (p +:+ s) = Some s.
Proof.
  induction p as [|c p IH]; [done|]. rewrite sapp_cons. cbn [strip_prefix].
  by rewrite bool_decide_true.
Qed.
Lemma strip_prefix_inv p : ∀ s t, strip_prefix p s = Some t → s = p +:+ t.
Proof.
  induction p as [|c p IH]; intros s t; cbn; [by destruct s; intros [= ->]|].
  destruct s as [|d s]; [done|]. destruct (bool_decide (c = d)) eqn:E; [|done]. apply bool_decide_eq_true in E as ->.
  intros H. rewrite (IH _ _ H). by rewrite <-?sapp_cons.
Qed.
(** A hexadecimal digit in lower case. *)
Definition lower_hex (c : ascii) : bool :=
  isDigit c || (97 <=? byteZ c) && (byteZ c <=? 102).
