(* ===== verification/GoTime.v ===== *)
(** Go's [time] package, as far as the daemon uses it: instants, the UTC
    calendar, RFC 3339 rendering and the daily window built on them.

    A [time.Time] is its instant, in nanoseconds since the Unix epoch; two
    values the daemon compares with [Before], [Equal] or [Sub] are compared as
    instants.  Go's zero [Time] is midnight of 1 January of year 1, UTC. *)
From S2P Require Import Prelude GoStr.
From Stdlib Require Import Ascii.
#[local] Open Scope Z_scope.

Abbreviation time := Z (only parsing).
Abbreviation duration := Z (only parsing).

Definition Microsecond : duration := 1000.
Definition Millisecond : duration := 1000000.
Definition Second : duration := 1000000000.
Definition Minute : duration := 60 * Second.
Definition Hour : duration := 60 * Minute.
Definition day_ns : duration := 86400 * Second.

Definition zeroTime : time := -62135596800 * Second.
Definition IsZero (t : time) : bool := t =? zeroTime.
Definition Before (t u : time) : bool := t <? u.
Definition UnixSec (t : time) : Z := t / Second.
Definition UnixMilli (t : time) : Z := t / Millisecond.
Definition time_Unix (sec : Z) : time := sec * Second.
Definition time_UnixMilli (ms : Z) : time := ms * Millisecond.
(** [t.Sub(u)]: the difference saturates at the bounds of [Duration]. *)
Definition time_Sub (t u : time) : duration :=
  Z.max min_int64 (Z.min max_int64 (t - u)).

Lemma UnixMilli_roundtrip ms : UnixMilli (time_UnixMilli ms) = ms.
Proof. unfold UnixMilli, time_UnixMilli, Millisecond. Z.div_mod_to_equations; lia. Qed.

Lemma UnixSec_roundtrip s : UnixSec (time_Unix s) = s.
Proof. unfold UnixSec, time_Unix, Second. Z.div_mod_to_equations; lia. Qed.

(** ** The proleptic Gregorian calendar *)
Record date := Date { d_year : Z; d_month : Z; d_day : Z }.

Lemma date_ext a b :
  d_year a = d_year b → d_month a = d_month b → d_day a = d_day b → a = b.
Proof. destruct a, b. simpl. congruence. Qed.

(** Day number (days since 1970-01-01) to calendar date, over 400-year eras
    that start on 1 March. *)
Definition yoe_of (doe : Z) : Z := (doe - doe / 1460 + doe / 36524 - doe / 146096) / 365.
Definition doy_of (yoe doe : Z) : Z := doe - (365 * yoe + yoe / 4 - yoe / 100).
Definition mp_of (doy : Z) : Z := (5 * doy + 2) / 153.
Definition dom_of (mp doy : Z) : Z := doy - (153 * mp + 2) / 5 + 1.

Definition civil_from_days (z : Z) : date :=
  let z' := z + 719468 in
  let era := z' / 146097 in
  let doe := z' `mod` 146097 in
  let yoe := yoe_of doe in
  let doy := doy_of yoe doe in
  let mp := mp_of doy in
  let m := if mp <? 10 then mp + 3 else mp - 9 in
  Date (yoe + era * 400 + (if m <=? 2 then 1 else 0)) m (dom_of mp doy).

(** Calendar date to day number. *)
Definition days_from_civil (d : date) : Z :=
  let y := d_year d - (if d_month d <=? 2 then 1 else 0) in
  let era := y / 400 in
  let yoe := y `mod` 400 in
  let mp := if d_month d <=? 2 then d_month d + 9 else d_month d - 3 in
  let doy := (153 * mp + 2) / 5 + d_day d - 1 in
  era * 146097 + (yoe * 365 + yoe / 4 - yoe / 100 + doy) - 719468.

Lemma yoe_doy_bounds doe :
  0 ≤ doe < 146097 →
  0 ≤ yoe_of doe < 400 ∧ 0 ≤ doy_of (yoe_of doe) doe ≤ 365.
Proof. unfold doy_of, yoe_of. intros. Z.div_mod_to_equations. lia. Qed.

Lemma mp_dom_bounds doy :
  0 ≤ doy ≤ 365 →
  0 ≤ mp_of doy ≤ 11 ∧ 1 ≤ dom_of (mp_of doy) doy ≤ 31.
Proof. unfold dom_of, mp_of. intros. Z.div_mod_to_equations. lia. Qed.

Lemma civil_from_days_bounds z :
  1 ≤ d_month (civil_from_days z) ≤ 12 ∧ 1 ≤ d_day (civil_from_days z) ≤ 31.
Proof.
  unfold civil_from_days. cbv zeta. cbn [d_month d_day].
  destruct (yoe_doy_bounds ((z + 719468) `mod` 146097)) as [_ Hdoy].
  { Z.div_mod_to_equations; lia. }
  destruct (mp_dom_bounds _ Hdoy) as [Hmp Hdom].
  split; [|done]. case_match; bool_to_prop; lia.
Qed.

Lemma civil_fields_nonneg z :
  0 ≤ d_month (civil_from_days z) ∧ 0 ≤ d_day (civil_from_days z).
Proof. pose proof (civil_from_days_bounds z). lia. Qed.

(** The calendar is a bijection on its image: the day number of the date of a
    day is that day. *)
Lemma days_from_civil_from_days z : days_from_civil (civil_from_days z) = z.
Proof.
  unfold days_from_civil, civil_from_days. cbv zeta. cbn [d_month d_day d_year].
  pose proof (Z.div_mod (z + 719468) 146097 ltac:(lia)) as Hz.
  pose proof (Z.mod_pos_bound (z + 719468) 146097 ltac:(lia)) as Hb.
  set (era := (z + 719468) / 146097) in *.
  set (doe := (z + 719468) `mod` 146097) in *.
  destruct (yoe_doy_bounds doe Hb) as [Hyoe Hdoy].
  destruct (mp_dom_bounds _ Hdoy) as [Hmp Hdom].
  set (yoe := yoe_of doe) in *.
  assert (Hdef : doy_of yoe doe = doe - (365 * yoe + yoe / 4 - yoe / 100)) by done.
  assert (Hd : dom_of (mp_of (doy_of yoe doe)) (doy_of yoe doe) =
               doy_of yoe doe - (153 * mp_of (doy_of yoe doe) + 2) / 5 + 1) by done.
  set (doy := doy_of yoe doe) in *. set (mp := mp_of doy) in *.
  assert (Hy : ∀ k, (yoe + era * 400 + k - k) / 400 = era ∧
                    (yoe + era * 400 + k - k) `mod` 400 = yoe).
  { intros k. replace (yoe + era * 400 + k - k) with (yoe + era * 400) by lia.
    rewrite Z.div_add, Z.mod_add, Z.div_small, Z.mod_small by lia. lia. }
  destruct (mp <? 10) eqn:E; bool_to_prop.
  - assert ((mp + 3 <=? 2) = false) as -> by (apply Z.leb_gt; lia).
    destruct (Hy 0) as [-> ->]. replace (mp + 3 - 3) with mp by lia. lia.
  - assert ((mp - 9 <=? 2) = true) as -> by (apply Z.leb_le; lia).
    destruct (Hy 1) as [-> ->]. replace (mp - 9 + 9) with mp by lia. lia.
Qed.

(** [t.UTC().Date()] and [time.Date(y, m, d, 0, 0, 0, 0, time.UTC)]. *)
Definition UTC_Date (t : time) : date := civil_from_days (t / day_ns).
Definition Date_UTC (d : date) : time := days_from_civil d * day_ns.

Lemma Date_UTC_of_date t : Date_UTC (UTC_Date t) = t - t `mod` day_ns.
Proof.
  unfold Date_UTC, UTC_Date. rewrite days_from_civil_from_days.
  pose proof (Z.div_mod t day_ns ltac:(by vm_compute)). lia.
Qed.

(** ** RFC 3339 *)
Definition fmt_year (y : Z) : string :=
  if y <? 0 then "-" +:+ FormatPad 4 (- y) else FormatPad 4 y.
Definition fmt_sec (t : time) (rest : string) : string :=
  let d := UTC_Date t in
  let s := (t `mod` day_ns) / Second in
  fmt_year (d_year d) +:+ "-" +:+ FormatPad 2 (d_month d) +:+ "-" +:+
  FormatPad 2 (d_day d) +:+ "T" +:+ FormatPad 2 (s / 3600) +:+ ":" +:+
  FormatPad 2 ((s / 60) `mod` 60) +:+ ":" +:+ FormatPad 2 (s `mod` 60) +:+ rest.

(** Trailing zeros of the fraction are dropped. *)
Fixpoint trim0 (s : string) : string :=
  match s with
  | EmptyString => EmptyString
  | String c r =>
    match trim0 r with
    | EmptyString => if bool_decide (c = "0"%char) then EmptyString else String c EmptyString
    | r' => String c r'
    end
  end.
Definition fmt_nano (ns : Z) : string :=
  if ns =? 0 then "" else "." +:+ trim0 (FormatPad 9 ns).

(** [t.UTC().Format(time.RFC3339)] and [t.UTC().Format(time.RFC3339Nano)]. *)
Definition RFC3339 (t : time) : string := fmt_sec t "Z".
Definition RFC3339Nano (t : time) : string := fmt_sec t (fmt_nano (t `mod` Second) +:+ "Z").

Example RFC3339_epoch : RFC3339 0 = "1970-01-01T00:00:00Z".
Proof. reflexivity. Qed.
Example RFC3339Nano_sample :
  RFC3339Nano (1785542399 * Second + 120 * Millisecond) = "2026-07-31T23:59:59.12Z".
Proof. vm_compute. reflexivity. Qed.
Example RFC3339_zero : RFC3339 zeroTime = "0001-01-01T00:00:00Z".
Proof. vm_compute. reflexivity. Qed.

(** A padded number followed by a non-digit is read back uniquely. *)
Lemma pad_sep_inj w n m c c' r r' :
  0 ≤ n → 0 ≤ m → isDigit c = false → isDigit c' = false →
  FormatPad w n +:+ String c r = FormatPad w m +:+ String c' r' →
  n = m ∧ String c r = String c' r'.
Proof.
  intros Hn Hm Hc Hc' H.
  apply (sall_span_inj isDigit) in H as [H ?]; auto using FormatPad_digits.
  split; [|done]. by eapply FormatPad_inj.
Qed.

Lemma FormatPad_cons w n : 0 ≤ n → ∃ c r, FormatPad w n = String c r ∧ isDigit c = true.
Proof.
  intros Hn. pose proof (FormatPad_digits w n Hn) as Hd.
  destruct (FormatPad w n) as [|c r] eqn:E.
  - unfold FormatPad, pad0 in E. destruct (zeros _); [|done].
    by destruct (FormatUint_nonempty n).
  - cbn in Hd. bool_to_prop. eauto.
Qed.

Lemma fmt_year_inj y y' r r' :
  fmt_year y +:+ String "-" r = fmt_year y' +:+ String "-" r' → y = y' ∧ r = r'.
Proof.
  unfold fmt_year. intros H.
  destruct (y <? 0) eqn:E, (y' <? 0) eqn:E'; bool_to_prop.
  - cbn in H. simplify_eq. apply pad_sep_inj in H as [? [=]]; [|lia|lia|done|done].
    split; [lia|done].
  - destruct (FormatPad_cons 4 y') as (c & q & Hq & Hd); [lia|].
    rewrite Hq in H. cbn in H. by simplify_eq.
  - destruct (FormatPad_cons 4 y) as (c & q & Hq & Hd); [lia|].
    rewrite Hq in H. cbn in H. by simplify_eq.
  - by apply pad_sep_inj in H as [? [=]]; [|lia|lia|done|done].
Qed.

Lemma sec_fields_bounds t :
  let s := (t `mod` day_ns) / Second in
  0 ≤ s < 86400 ∧ 0 ≤ s / 3600 ∧ 0 ≤ (s / 60) `mod` 60 ∧ 0 ≤ s `mod` 60.
Proof. unfold day_ns, Second. cbv zeta. Z.div_mod_to_equations. lia. Qed.

Lemma fmt_sec_inj t t' c c' r r' :
  isDigit c = false → isDigit c' = false →
  fmt_sec t (String c r) = fmt_sec t' (String c' r') →
  t / Second = t' / Second ∧ String c r = String c' r'.
Proof.
  unfold fmt_sec. cbv zeta. rewrite ?sapp_cons, ?sapp_nil_l. intros Hc Hc' H.
  destruct (civil_fields_nonneg (t / day_ns)), (civil_fields_nonneg (t' / day_ns)).
  destruct (sec_fields_bounds t) as (?&?&?&?), (sec_fields_bounds t') as (?&?&?&?).
  apply fmt_year_inj in H as [Hy H].
  unfold UTC_Date in *.
  do 4 (apply pad_sep_inj in H as [? H]; [|done..]; injection H as H).
  apply pad_sep_inj in H as [? H]; [|done..].
  split; [|done].
  assert (civil_from_days (t / day_ns) = civil_from_days (t' / day_ns)) as Hd.
  { by apply date_ext. }
  apply (f_equal days_from_civil) in Hd.
  rewrite !days_from_civil_from_days in Hd.
  unfold day_ns, Second in *. Z.div_mod_to_equations. lia.
Qed.

Lemma udigits_length fuel n k :
  0 ≤ n < 10 ^ Z.of_nat (S k) →
  (String.length (udigits fuel n "") ≤ S k)%nat.
Proof.
  revert n k. induction fuel as [|f IH]; intros n k Hn; [cbn; lia|].
  cbn [udigits]. destruct (n <? 10) eqn:E; bool_to_prop; [cbn; lia|].
  rewrite udigits_acc, slength_app. cbn [String.length].
  destruct k as [|k].
  - change (10 ^ Z.of_nat 1) with 10 in Hn. lia.
  - enough (String.length (udigits f (n / 10) "") ≤ S k)%nat by lia.
    apply IH. rewrite (Nat2Z.inj_succ (S k)), Z.pow_succ_r in Hn by lia.
    split; [apply Z.div_pos; lia|]. apply Z.div_lt_upper_bound; lia.
Qed.

Lemma zeros_length k : String.length (zeros k) = k.
Proof. induction k; cbn; congruence. Qed.

Lemma FormatPad_length w n :
  (0 < w)%nat → 0 ≤ n < 10 ^ Z.of_nat w → String.length (FormatPad w n) = w.
Proof.
  intros Hw Hn. destruct w as [|k]; [lia|].
  unfold FormatPad, pad0. rewrite slength_app, zeros_length.
  pose proof (udigits_length (S (Z.to_nat (Z.log2 n))) n k Hn).
  unfold FormatUint in *. lia.
Qed.

Lemma trim0_spec s :
  s = trim0 s +:+ zeros (String.length s - String.length (trim0 s)).
Proof.
  induction s as [|c r IH]; [done|].
  cbn [trim0]. destruct (trim0 r) as [|c' r'] eqn:E.
  - cbn in IH. rewrite Nat.sub_0_r in IH. case_bool_decide as Hc.
    + subst c. cbn. f_equal. done.
    + cbn. f_equal. by rewrite Nat.sub_0_r.
  - rewrite sapp_cons. f_equal. exact IH.
Qed.

Lemma trim0_inj s s' :
  String.length s = String.length s' → trim0 s = trim0 s' → s = s'.
Proof. intros Hl Ht. rewrite (trim0_spec s), (trim0_spec s'). by rewrite Hl, Ht. Qed.

Lemma trim0_digits s : sall isDigit s = true → sall isDigit (trim0 s) = true.
Proof.
  intros H. rewrite (trim0_spec s), sall_app in H. by apply andb_true_iff in H as [? _].
Qed.

Lemma fmt_nano_head n : ∃ c r, fmt_nano n +:+ "Z" = String c r ∧ isDigit c = false.
Proof. unfold fmt_nano. case_match; cbn; eauto. Qed.

Lemma fmt_nano_inj n m :
  0 ≤ n < Second → 0 ≤ m < Second →
  fmt_nano n +:+ "Z" = fmt_nano m +:+ "Z" → n = m.
Proof.
  unfold fmt_nano. intros Hn Hm H.
  destruct (n =? 0) eqn:E, (m =? 0) eqn:E'; bool_to_prop; [congruence|done|done|].
  cbn in H. simplify_eq.
  assert (∀ k, 0 ≤ k < Second → String.length (FormatPad 9 k) = 9%nat) as Hl.
  { intros k Hk. apply FormatPad_length; [lia|]. exact Hk. }
  apply (sall_span_inj isDigit) in H as [H _]; try done;
    try (apply trim0_digits, FormatPad_digits; lia).
  apply trim0_inj in H; [|by rewrite !Hl].
  apply FormatPad_inj in H; lia.
Qed.

(** The two renderings determine the instant: to the second, and exactly. *)
Lemma RFC3339_inj t t' : RFC3339 t = RFC3339 t' → UnixSec t = UnixSec t'.
Proof. exact (λ H, proj1 (fmt_sec_inj t t' "Z" "Z" "" "" eq_refl eq_refl H)). Qed.

Lemma RFC3339Nano_inj t t' : RFC3339Nano t = RFC3339Nano t' → t = t'.
Proof.
  unfold RFC3339Nano. intros H.
  destruct (fmt_nano_head (t `mod` Second)) as (c & r & Hc & Hd).
  destruct (fmt_nano_head (t' `mod` Second)) as (c' & r' & Hc' & Hd').
  rewrite Hc, Hc' in H. apply fmt_sec_inj in H as [Hs Hf]; [|done..].
  rewrite <-Hc, <-Hc' in Hf.
  assert (0 < Second) by done.
  apply fmt_nano_inj in Hf; [|by apply Z.mod_pos_bound..].
  rewrite (Z.div_mod t Second), (Z.div_mod t' Second) by done. congruence.
Qed.

Lemma RFC3339_of_UnixSec t : RFC3339 t = RFC3339 (time_Unix (UnixSec t)).
Proof.
  unfold RFC3339, fmt_sec. cbv zeta.
  assert (UTC_Date (time_Unix (UnixSec t)) = UTC_Date t) as ->.
  { unfold UTC_Date, time_Unix, UnixSec, day_ns, Second. f_equal.
    Z.div_mod_to_equations. lia. }
  assert ((time_Unix (UnixSec t) `mod` day_ns) / Second = (t `mod` day_ns) / Second) as ->.
  { unfold time_Unix, UnixSec, day_ns, Second. Z.div_mod_to_equations. lia. }
  done.
Qed.
