(* ===== verification/GoJson.v ===== *)
(** UTF-8 and the string half of Go's [encoding/json], byte for byte.

    [chunks] cuts a byte string the way [utf8.DecodeRuneInString] walks it: a
    chunk is a valid sequence of one to four bytes, or one byte that starts no
    valid sequence.  The JSON encoder, [strings.TrimSpace] and the approval
    hash of the daemon are all defined over this walk. *)
From S2P Require Import Prelude GoStr.
From Stdlib Require Import Ascii.
#[local] Open Scope Z_scope.

(** ** UTF-8 *)
Inductive chunk :=
| Raw1 (c : ascii)
| Raw2 (c c1 : ascii)
| Raw3 (c c1 c2 : ascii)
| Raw4 (c c1 c2 c3 : ascii)
| Bad (c : ascii).

Definition inr (lo hi : Z) (c : ascii) : bool := (lo <=? byteZ c) && (byteZ c <=? hi).
Definition cont (c : ascii) : bool := inr 128 191 c.
(** The accept ranges of the Unicode standard, table 3-7. *)
Definition acc1 (c : ascii) : bool := byteZ c <? 128.
Definition acc2 (c c1 : ascii) : bool := inr 194 223 c && cont c1.
Definition acc3 (c c1 c2 : ascii) : bool :=
  inr 224 239 c && cont c2 &&
  (if byteZ c =? 224 then inr 160 191 c1
   else if byteZ c =? 237 then inr 128 159 c1 else cont c1).
Definition acc4 (c c1 c2 c3 : ascii) : bool :=
  inr 240 244 c && cont c2 && cont c3 &&
  (if byteZ c =? 240 then inr 144 191 c1
   else if byteZ c =? 244 then inr 128 143 c1 else cont c1).

Fixpoint chunks (s : string) : list chunk :=
  match s with
  | EmptyString => []
  | String c r =>
    if acc1 c then Raw1 c :: chunks r
    else match r with
    | String c1 r1 =>
      if acc2 c c1 then Raw2 c c1 :: chunks r1
      else match r1 with
      | String c2 r2 =>
        if acc3 c c1 c2 then Raw3 c c1 c2 :: chunks r2
        else match r2 with
        | String c3 r3 =>
          if acc4 c c1 c2 c3 then Raw4 c c1 c2 c3 :: chunks r3 else Bad c :: chunks r
        | EmptyString => Bad c :: chunks r
        end
      | EmptyString => Bad c :: chunks r
      end
    | EmptyString => Bad c :: chunks r
    end
  end.

Definition bytes1 (k : chunk) : string :=
  match k with
  | Raw1 c | Bad c => String c ""
  | Raw2 c c1 => String c (String c1 "")
  | Raw3 c c1 c2 => String c (String c1 (String c2 ""))
  | Raw4 c c1 c2 c3 => String c (String c1 (String c2 (String c3 "")))
  end.
Fixpoint concat_map (f : chunk → string) (ks : list chunk) : string :=
  match ks with [] => "" | k :: r => f k +:+ concat_map f r end.

Definition wf_chunk (k : chunk) : bool :=
  match k with
  | Raw1 c => acc1 c
  | Raw2 c c1 => acc2 c c1
  | Raw3 c c1 c2 => acc3 c c1 c2
  | Raw4 c c1 c2 c3 => acc4 c c1 c2 c3
  | Bad c => true
  end.
Definition is_bad (k : chunk) : bool := match k with Bad _ => true | _ => false end.

(** [utf8.ValidString]. *)
Definition valid_utf8 (s : string) : bool := forallb (λ k, negb (is_bad k)) (chunks s).

(** Strong induction on strings, for recursions that drop several bytes. *)
Lemma string_len_ind (P : string → Prop) :
  (∀ s, (∀ r, (String.length r < String.length s)%nat → P r) → P s) → ∀ s, P s.
Proof.
  intros H s. remember (String.length s) as n eqn:E. revert s E.
  induction n as [n IH] using lt_wf_ind. intros s ->. apply H. eauto.
Qed.

Ltac chunk_cases s IH :=
  destruct s as [|c r]; [done|]; cbn [chunks];
  destruct (acc1 c) eqn:?; [|destruct r as [|c1 r1]; [|destruct (acc2 c c1) eqn:?;
    [|destruct r1 as [|c2 r2]; [|destruct (acc3 c c1 c2) eqn:?;
      [|destruct r2 as [|c3 r3]; [|destruct (acc4 c c1 c2 c3) eqn:?]]]]]].

(** The walk loses nothing, and every chunk it yields is well formed. *)
Lemma chunks_bytes s : concat_map bytes1 (chunks s) = s.
Proof.
  induction s as [s IH] using string_len_ind. revert IH. chunk_cases s IH; intros IH;
    cbn [concat_map bytes1]; rewrite ?sapp_cons, ?sapp_nil_l; repeat f_equal;
    apply IH; cbn; lia.
Qed.

Lemma chunks_wf s : forallb wf_chunk (chunks s) = true.
Proof.
  induction s as [s IH] using string_len_ind. revert IH. chunk_cases s IH; intros IH;
    cbn [forallb wf_chunk]; rewrite ?andb_true_iff; (split; [done|]);
    apply IH; cbn; lia.
Qed.

Lemma chunks_inj s s' : chunks s = chunks s' → s = s'.
Proof. intros H. rewrite <-(chunks_bytes s), <-(chunks_bytes s'). by rewrite H. Qed.

(** ** JSON strings, [Encoder.SetEscapeHTML(false)] *)
Definition hexdigit (d : Z) : ascii := if d <? 10 then chrZ (48 + d) else chrZ (87 + d).

(** One ASCII byte as [encoding/json] writes it inside quotes. *)
Definition esc1 (c : ascii) : string :=
  let b := byteZ c in
  if (b =? 34) || (b =? 92) then String "\" (String c "")
  else if b =? 8 then "\b"
  else if b =? 12 then "\f"
  else if b =? 10 then "\n"
  else if b =? 13 then "\r"
  else if b =? 9 then "\t"
  else if b <? 32 then
    "\u00" +:+ String (hexdigit (b / 16)) (String (hexdigit (b `mod` 16)) "")
  else String c "".

(** U+2028 and U+2029 are E2 80 A8 and E2 80 A9. *)
Definition is_sep (c c1 c2 : ascii) : bool :=
  (byteZ c =? 226) && (byteZ c1 =? 128) && ((byteZ c2 =? 168) || (byteZ c2 =? 169)).
Definition sep_escape (c2 : ascii) : string :=
  if byteZ c2 =? 168 then "\u2028" else "\u2029".

Definition emit_go (k : chunk) : string :=
  match k with
  | Raw1 c => esc1 c
  | Raw3 c c1 c2 => if is_sep c c1 c2 then sep_escape c2 else bytes1 k
  | Bad _ => "\ufffd"
  | _ => bytes1 k
  end.
(** JavaScript's [JSON.stringify] on the same text: the separators verbatim. *)
Definition emit_js (k : chunk) : string :=
  match k with
  | Raw1 c => esc1 c
  | Bad _ => "\ufffd"
  | _ => bytes1 k
  end.

Definition dquote : ascii := chrZ 34.
Definition quoted (body : string) : string := String dquote (body +:+ String dquote "").
(** What [enc.Encode(s)] leaves once its newline is trimmed. *)
Definition json_encode (s : string) : string := quoted (concat_map emit_go (chunks s)).
Definition js_stringify (s : string) : string := quoted (concat_map emit_js (chunks s)).

(** The encoder replaces every byte of an invalid sequence by the same six
    characters: [blur] forgets which byte it was. *)
Definition blur (k : chunk) : chunk := match k with Bad _ => Bad zero | _ => k end.
Definition blurred (s : string) : list chunk := blur <$> chunks s.

(** [esc1] is prefix-free: what one ASCII byte became can be read back. *)
Definition unhex (c : ascii) : Z := if byteZ c <? 58 then byteZ c - 48 else byteZ c - 87.
Definition unesc (s : string) : option (ascii * string) :=
  match s with
  | String "\" (String "u" (String _ (String _ (String h (String l r))))) =>
    Some (chrZ (16 * unhex h + unhex l), r)
  | String "\" (String c r) =>
    Some ((if bool_decide (c = "b"%char) then chrZ 8
           else if bool_decide (c = "f"%char) then chrZ 12
           else if bool_decide (c = "n"%char) then chrZ 10
           else if bool_decide (c = "r"%char) then chrZ 13
           else if bool_decide (c = "t"%char) then chrZ 9 else c), r)
  | String c r => Some (c, r)
  | EmptyString => None
  end.

Lemma unesc_esc1 c x : acc1 c = true → unesc (esc1 c +:+ x) = Some (c, x).
Proof. destruct c as [[] [] [] [] [] [] [] []]; intros H; try done; reflexivity. Qed.

(** The first byte of a chunk's image tells its class. *)
Definition class (c : ascii) : Z :=
  let b := byteZ c in
  if b <? 128 then 1 else if b <? 224 then 2 else if b <? 240 then 3 else 4.
Definition class_of (k : chunk) : Z :=
  match k with Raw1 _ | Bad _ => 1 | Raw2 _ _ => 2 | Raw3 _ _ _ => 3 | Raw4 _ _ _ _ => 4 end.

Lemma esc1_head c : acc1 c = true →
  ∃ d t, esc1 c = String d t ∧ class d = 1 ∧ d ≠ dquote.
Proof.
  destruct c as [[] [] [] [] [] [] [] []]; intros H; try done;
    (eexists _, _; split; [reflexivity|]; split; [reflexivity|done]).
Qed.

Lemma emit_js_head k : wf_chunk k = true →
  ∃ d t, emit_js k = String d t ∧ class d = class_of k ∧ d ≠ dquote.
Proof.
  destruct k as [c|c c1|c c1 c2|c c1 c2 c3|c]; cbn [wf_chunk emit_js bytes1 class_of];
    intros H; [by apply esc1_head|..|by eexists _, _];
    eexists c, _; (split; [reflexivity|]); unfold acc2, acc3, acc4, inr in H;
    bool_to_prop; unfold class;
    (split; [repeat case_match; bool_to_prop; lia|]);
    intros Hq; apply (f_equal byteZ) in Hq;
    change (byteZ dquote) with 34 in Hq; lia.
Qed.

(** Two images followed by anything agree only if the chunks agree, up to the
    byte of an invalid sequence. *)
Lemma emit_js_prefix k k' x x' :
  wf_chunk k = true → wf_chunk k' = true →
  emit_js k +:+ x = emit_js k' +:+ x' → blur k = blur k' ∧ x = x'.
Proof.
  intros Hk Hk' H.
  destruct (emit_js_head k Hk) as (d & t & E & Hc & _).
  destruct (emit_js_head k' Hk') as (d' & t' & E' & Hc' & _).
  assert (class_of k = class_of k') as Hcl.
  { rewrite E, E', !sapp_cons in H. congruence. }
  clear d t E Hc d' t' E' Hc'.
  destruct k as [c|c c1|c c1 c2|c c1 c2 c3|c], k' as [d|d d1|d d1 d2|d d1 d2 d3|d];
    try done; cbn [emit_js bytes1 blur] in *; rewrite ?sapp_cons, ?sapp_nil_l in H;
    try (injection H; clear H; intros; subst; done).
  - apply (f_equal unesc) in H. rewrite !unesc_esc1 in H by done. by simplify_eq.
  - exfalso. revert H Hk. clear. destruct c as [[] [] [] [] [] [] [] []]; done.
  - exfalso. revert H Hk'. clear. destruct d as [[] [] [] [] [] [] [] []]; done.
Qed.

Lemma emit_all_inj ks ks' r r' :
  forallb wf_chunk ks = true → forallb wf_chunk ks' = true →
  concat_map emit_js ks +:+ String dquote r = concat_map emit_js ks' +:+ String dquote r' →
  blur <$> ks = blur <$> ks' ∧ r = r'.
Proof.
  revert ks'. induction ks as [|k ks IH]; intros [|k' ks'] Hk Hk' H;
    cbn [concat_map forallb] in *; rewrite ?sapp_assoc in H; bool_to_prop.
  - rewrite !sapp_nil_l in H. by simplify_eq.
  - destruct (emit_js_head k') as (d & t & E & _ & Hd); [done|].
    rewrite E, sapp_nil_l, !sapp_cons in H. injection H as H _. congruence.
  - destruct (emit_js_head k) as (d & t & E & _ & Hd); [done|].
    rewrite E, sapp_nil_l, !sapp_cons in H. injection H as H _. congruence.
  - apply emit_js_prefix in H as [Hb H]; [|done..].
    destruct (IH ks') as [Hr ->]; [done..|]. cbn. by rewrite Hb, Hr.
Qed.

(** A JSON string literal delimits itself, and names its text up to invalid
    bytes. *)
Lemma js_stringify_inj s s' r r' :
  js_stringify s +:+ r = js_stringify s' +:+ r' → blurred s = blurred s' ∧ r = r'.
Proof.
  unfold js_stringify, quoted. rewrite !sapp_cons, !sapp_assoc, !sapp_cons, !sapp_nil_l.
  intros H. injection H as H. apply emit_all_inj in H; auto using chunks_wf.
Qed.

Lemma blur_no_bad ks ks' :
  forallb (λ k, negb (is_bad k)) ks = true → blur <$> ks = blur <$> ks' →
  forallb (λ k, negb (is_bad k)) ks' = true → ks = ks'.
Proof.
  revert ks'. induction ks as [|k ks IH]; intros [|k' ks'] Hk H Hk'; try done.
  cbn in *. bool_to_prop. injection H as Hb Hr.
  f_equal; [by destruct k, k'|]. by apply IH.
Qed.

Lemma blurred_valid_inj s s' :
  valid_utf8 s = true → valid_utf8 s' = true → blurred s = blurred s' → s = s'.
Proof. intros Hs Hs' H. apply chunks_inj. by apply blur_no_bad. Qed.

Lemma js_stringify_blurred s s' : blurred s = blurred s' → js_stringify s = js_stringify s'.
Proof.
  assert (∀ ks, concat_map emit_js ks = concat_map emit_js (blur <$> ks)) as Hb.
  { induction ks as [|k ks IH]; [done|]. cbn. rewrite IH. f_equal. by destruct k. }
  unfold js_stringify, blurred. intros H. by rewrite (Hb (chunks s)), H, <-Hb.
Qed.

(** ** Re-encoding of text.  A string that went through [json.Marshal] and
    [json.Unmarshal] has every invalid byte replaced by U+FFFD. *)
Definition U_FFFD : string := String (chrZ 239) (String (chrZ 191) (String (chrZ 189) "")).
Definition clean_chunk (k : chunk) : string := match k with Bad _ => U_FFFD | _ => bytes1 k end.
Definition utf8_clean (s : string) : string := concat_map clean_chunk (chunks s).

Lemma utf8_clean_valid s : valid_utf8 s = true → utf8_clean s = s.
Proof.
  unfold valid_utf8, utf8_clean. intros H.
  transitivity (concat_map bytes1 (chunks s)); [|apply chunks_bytes].
  revert H. induction (chunks s) as [|k ks IH]; [done|]. cbn. intros H. bool_to_prop.
  rewrite IH by done. f_equal. by destruct k.
Qed.

Lemma utf8_clean_nonempty s : s ≠ "" → utf8_clean s ≠ "".
Proof.
  intros Hs. unfold utf8_clean. destruct (chunks s) as [|k ks] eqn:E.
  - pose proof (chunks_bytes s) as H. rewrite E in H. by subst s.
  - by destruct k.
Qed.
#[global] Arguments utf8_clean : simpl never.
#[global] Arguments valid_utf8 : simpl never.
Lemma utf8_clean_ascii s : sall acc1 s = true → utf8_clean s = s.
Proof.
  intros Hs. apply utf8_clean_valid. unfold valid_utf8. revert Hs. induction s as [|c r IH]; [done|].
  cbn [sall chunks]. destruct (acc1 c); [|done]. cbn. exact IH.
Qed.

(** ** White space *)
(** [unicode.IsSpace] on one decoded rune. *)
Definition space_chunk (k : chunk) : bool :=
  let s := bytes1 k in
  bool_decide (s ∈
    [ String (chrZ 9) ""; String (chrZ 10) ""; String (chrZ 11) ""; String (chrZ 12) "";
      String (chrZ 13) ""; String (chrZ 32) "";
      String (chrZ 194) (String (chrZ 133) ""); String (chrZ 194) (String (chrZ 160) "");
      String (chrZ 225) (String (chrZ 154) (String (chrZ 128) ""));
      String (chrZ 226) (String (chrZ 128) (String (chrZ 168) ""));
      String (chrZ 226) (String (chrZ 128) (String (chrZ 169) ""));
      String (chrZ 226) (String (chrZ 128) (String (chrZ 175) ""));
      String (chrZ 226) (String (chrZ 129) (String (chrZ 159) ""));
      String (chrZ 227) (String (chrZ 128) (String (chrZ 128) "")) ]) ||
  match k with
  | Raw3 a b c => (byteZ a =? 226) && (byteZ b =? 128) && (128 <=? byteZ c) && (byteZ c <=? 138)
  | _ => false
  end.
(** [strings.TrimSpace(s) == ""]. *)
Definition blank (s : string) : bool := forallb space_chunk (chunks s).

Fixpoint drop_spaces (ks : list chunk) : list chunk :=
  match ks with k :: r => if space_chunk k then drop_spaces r else ks | [] => [] end.
(** [strings.TrimSpace]. *)
Definition TrimSpace (s : string) : string :=
  concat_map bytes1 (rev (drop_spaces (rev (drop_spaces (chunks s))))).
(** [strings.ToLower]: bytewise on ASCII; [unicodeLower] stands for the
    Unicode tables that any other string is mapped with. *)
Definition ToLower (unicodeLower : string → string) (s : string) : string :=
  if sall acc1 s then lower_ascii s else unicodeLower s.
