(* ===== verification/Amount.v ===== *)
(** Decimal text: splitting at a separator, trimming, and the six-place form of
    a number of atomic units, which the components that read amounts share. *)
From Stdlib Require Import Ascii String.
From S2P Require Import Prelude GoStr GoTime GoJson.
#[local] Open Scope Z_scope.
#[local] Set Default Proof Using "Type".

(** [strings.Split(s, c)]. *)
Fixpoint split_on (c : ascii) (s : string) : list string :=
  match s with
  | "" => [""]
  | String d r =>
    if bool_decide (c = d) then "" :: split_on c r
    else match split_on c r with h :: t => String d h :: t | [] => [String d ""] end
  end.
(** [strings.SplitN(s, c, 2)]. *)
Fixpoint cut_at (c : ascii) (s : string) : string * option string :=
  match s with
  | "" => ("", None)
  | String d r => if bool_decide (c = d) then ("", Some r)
                  else let '(a, b) := cut_at c r in (String d a, b)
  end.
(** A number of atomic units as a decimal USDC amount. *)
Definition usdc_text (z : Z) : string := FormatUint (z / 1000000) +:+ "." +:+ FormatPad 6 (z `mod` 1000000).

Definition plain (c : ascii) : bool := isDigit c || bool_decide (c = "."%char).
Lemma plain_chunks s : sall plain s = true → Forall (λ k, space_chunk k = false) (chunks s).
Proof.
  assert (Hc : ∀ c, plain c = true → acc1 c = true ∧ space_chunk (Raw1 c) = false).
  { intros [[] [] [] [] [] [] [] []]; vm_compute; intros; split; congruence. }
  induction s as [|c r IH]; [constructor|]. cbn [sall chunks]. rewrite andb_true_iff.
  intros [Hp Hr]. destruct (Hc c Hp) as [-> Hs]. constructor; auto.
Qed.
Lemma drop_spaces_none ks : Forall (λ k, space_chunk k = false) ks → drop_spaces ks = ks.
Proof. destruct 1 as [|k ks Hk]; [done|]. cbn. by rewrite Hk. Qed.
Lemma TrimSpace_plain s : sall plain s = true → TrimSpace s = s.
Proof.
  intros Hs. pose proof (plain_chunks s Hs) as Hf. unfold TrimSpace.
  rewrite (drop_spaces_none (chunks s)) by done. rewrite drop_spaces_none.
  - rewrite rev_involutive. apply chunks_bytes.
  - rewrite Forall_forall in *. intros k Hk. apply Hf. by apply list_elem_of_In, in_rev, list_elem_of_In.
Qed.
Lemma sall_mono (p q : ascii → bool) s : (∀ c, p c = true → q c = true) → sall p s = true → sall q s = true.
Proof. intros Hpq. induction s as [|c r IH]; [done|]. cbn. rewrite !andb_true_iff. intros [? ?]; auto. Qed.
Lemma isDigit_not_dot c : isDigit c = true → bool_decide ("."%char = c) = false.
Proof. intros Hc. apply bool_decide_eq_false. by intros <-. Qed.
Lemma split_on_digits s : sall isDigit s = true → split_on "." s = [s].
Proof.
  induction s as [|c r IH]; [done|]. cbn [sall split_on]. rewrite andb_true_iff. intros [Hc Hr].
  by rewrite isDigit_not_dot, IH.
Qed.
Lemma split_on_dot a b : sall isDigit a = true → sall isDigit b = true →
  split_on "." (a +:+ "." +:+ b) = [a; b].
Proof.
  intros Ha Hb. induction a as [|c r IH].
  - cbn. by rewrite split_on_digits.
  - cbn [sall] in Ha. apply andb_true_iff in Ha as [Hc Hr]. rewrite sapp_cons. cbn [split_on].
    by rewrite isDigit_not_dot, (IH Hr).
Qed.
Lemma cut_at_dot a b : sall isDigit a = true → cut_at "." (a +:+ "." +:+ b) = (a, Some b).
Proof.
  intros Ha. induction a as [|c r IH]; [done|].
  cbn [sall] in Ha. apply andb_true_iff in Ha as [Hc Hr]. rewrite sapp_cons. cbn [cut_at].
  by rewrite isDigit_not_dot, (IH Hr).
Qed.

(** The parts of the six-place form, as the readers see them. *)
Lemma usdc_text_parts z : 0 ≤ z →
  TrimSpace (usdc_text z) = usdc_text z ∧
  sall isDigit (FormatUint (z / 1000000)) = true ∧ sall isDigit (FormatPad 6 (z `mod` 1000000)) = true ∧
  String.length (FormatPad 6 (z `mod` 1000000)) = 6%nat ∧
  parse_uint (FormatUint (z / 1000000)) = Some (z / 1000000) ∧
  parse_uint (FormatPad 6 (z `mod` 1000000)) = Some (z `mod` 1000000).
Proof.
  intros Hz. assert (Hd : 0 ≤ z / 1000000) by (apply Z.div_pos; lia).
  pose proof (Z.mod_pos_bound z 1000000 ltac:(lia)) as Hm.
  pose proof (FormatUint_digits _ Hd) as Hw. pose proof (FormatPad_digits 6 _ (proj1 Hm)) as Hf.
  split_and!; [|done|done|apply FormatPad_length; lia|by apply parse_uint_FormatUint|].
  - apply TrimSpace_plain. unfold usdc_text. rewrite !sall_app. cbn [sall]. rewrite !andb_true_iff.
    split_and!; [eapply sall_mono; [|exact Hw]|done|done|eapply sall_mono; [|exact Hf]];
      intros c Hc; unfold plain; by rewrite Hc.
  - unfold parse_uint. assert (Hl : String.length (FormatPad 6 (z `mod` 1000000)) = 6%nat) by (apply FormatPad_length; lia).
    destruct (FormatPad 6 _) eqn:E2; [done|]. rewrite <-E2. apply digits_value_FormatPad. lia.
Qed.
(** A digit string is read the same with and without sign handling. *)
Lemma parse_int_digits s : sall isDigit s = true → parse_int s = parse_uint s.
Proof.
  intros Hs. destruct s as [|c r]; [done|]. destruct (digits_head_not_sign _ c r Hs eq_refl).
  unfold parse_int. by rewrite !bool_decide_false.
Qed.
