(* ===== verification/Intent.v ===== *)
(** [internal/approval/hash.go]: the payment intent, its two canonical
    renderings and the hashes over them.

    [keccak256] is [golang.org/x/crypto/sha3], code that is not part of the
    repository: it is a parameter of every definition that hashes. *)
From S2P Require Import Prelude GoStr GoTime GoJson.
From Stdlib Require Import Ascii.
#[local] Open Scope Z_scope.

(** ** The intent *)
Record Intent := MkIntent {
  i_IntentID : string;
  i_OrgID : string;
  i_JobID : string;
  i_TaskID : string;
  i_AgentID : string;
  i_Kind : string;
  i_Merchant : string;
  i_Resource : string;
  i_AmountMicros : Z;
  i_Purpose : string;
  i_Nonce : string;
  i_PolicyVersion : string;
  i_ExpiresAt : time;
  i_ChainRef : string;
  i_AlternativeTo : string;
  i_Asset : string;
  i_Network : string;
  i_MaxAmountMicros : Z;
  i_PayTo : string;
  i_ResourceURL : string;
}.

#[export] Instance Intent_eq_dec : EqDecision Intent.
Proof. solve_decision. Defined.

Definition zeroIntent : Intent :=
  MkIntent "" "" "" "" "" "" "" "" 0 "" "" "" zeroTime "" "" "" "" 0 "" "".

(** [in.PolicyVersion = version]. *)
Definition set_PolicyVersion (v : string) (i : Intent) : Intent :=
  {| i_IntentID := i_IntentID i; i_OrgID := i_OrgID i; i_JobID := i_JobID i;
     i_TaskID := i_TaskID i; i_AgentID := i_AgentID i; i_Kind := i_Kind i;
     i_Merchant := i_Merchant i; i_Resource := i_Resource i;
     i_AmountMicros := i_AmountMicros i; i_Purpose := i_Purpose i;
     i_Nonce := i_Nonce i; i_PolicyVersion := v; i_ExpiresAt := i_ExpiresAt i;
     i_ChainRef := i_ChainRef i; i_AlternativeTo := i_AlternativeTo i;
     i_Asset := i_Asset i; i_Network := i_Network i;
     i_MaxAmountMicros := i_MaxAmountMicros i; i_PayTo := i_PayTo i;
     i_ResourceURL := i_ResourceURL i |}.

(** ** [jsonString] *)
(** The leading run of backslashes and what follows it. *)
Fixpoint span_bs (s : string) : nat * string :=
  match s with
  | String c r =>
    if bool_decide (c = "\"%char) then let '(n, t) := span_bs r in (S n, t) else (O, s)
  | EmptyString => (O, s)
  end.
Fixpoint backslashes (n : nat) : string :=
  match n with O => "" | S k => String "\" (backslashes k) end.
(** The UTF-8 bytes of U+2028 and U+2029. *)
Definition rune_2028 : string := String (chrZ 226) (String (chrZ 128) (String (chrZ 168) "")).
Definition rune_2029 : string := String (chrZ 226) (String (chrZ 128) (String (chrZ 169) "")).

(** [strings.HasPrefix(rest, "u2028")], [... "u2029"], the rune to write and
    what follows the prefix. *)
Definition sep_prefix (rest : string) : option (string * string) :=
  match rest with
  | String "u" (String "2" (String "0" (String "2" (String d t)))) =>
    if bool_decide (d = "8"%char) then Some (rune_2028, t)
    else if bool_decide (d = "9"%char) then Some (rune_2029, t) else None
  | _ => None
  end.

(** The scanning loop of [normalizeLineSeparators]; every iteration consumes a
    byte, so the length of the input is enough fuel. *)
Fixpoint normalize_loop (fuel : nat) (s : string) : string :=
  match fuel with
  | O => ""
  | S k =>
    match s with
    | EmptyString => ""
    | String c r =>
      if negb (bool_decide (c = "\"%char)) then String c (normalize_loop k r)
      else
        let run := fst (span_bs s) in
        let rest := snd (span_bs s) in
        match sep_prefix rest with
        | Some (rune, t) =>
          if Nat.odd run then backslashes (run - 1) +:+ rune +:+ normalize_loop k t
          else backslashes run +:+ normalize_loop k rest
        | None => backslashes run +:+ normalize_loop k rest
        end
    end
  end.
Definition normalizeLineSeparators (s : string) : string :=
  normalize_loop (String.length s) s.

Definition jsonString (s : string) : string := normalizeLineSeparators (json_encode s).

(** ** The canonical renderings *)
(** The field kinds [canonicalValue] accepts. *)
Inductive fvalue := FStr (s : string) | FInt (z : Z) | FTime (t : time).

Definition canonicalValue (v : fvalue) : string :=
  match v with
  | FStr s => jsonString s
  | FInt z => FormatInt z
  | FTime t => jsonString (RFC3339Nano t)
  end.

(** What reflection sees: every field, by name, in declaration order. *)
Definition intent_fields (i : Intent) : list (string * fvalue) :=
  [ ("IntentID", FStr (i_IntentID i)); ("OrgID", FStr (i_OrgID i));
    ("JobID", FStr (i_JobID i)); ("TaskID", FStr (i_TaskID i));
    ("AgentID", FStr (i_AgentID i)); ("Kind", FStr (i_Kind i));
    ("Merchant", FStr (i_Merchant i)); ("Resource", FStr (i_Resource i));
    ("AmountMicros", FInt (i_AmountMicros i)); ("Purpose", FStr (i_Purpose i));
    ("Nonce", FStr (i_Nonce i)); ("PolicyVersion", FStr (i_PolicyVersion i));
    ("ExpiresAt", FTime (i_ExpiresAt i)); ("ChainRef", FStr (i_ChainRef i));
    ("AlternativeTo", FStr (i_AlternativeTo i)); ("Asset", FStr (i_Asset i));
    ("Network", FStr (i_Network i)); ("MaxAmountMicros", FInt (i_MaxAmountMicros i));
    ("PayTo", FStr (i_PayTo i)); ("ResourceURL", FStr (i_ResourceURL i)) ].

Definition insert_sorted (n : string) : list string → list string :=
  fix go l := match l with
  | [] => [n]
  | m :: r => if String.leb n m then n :: m :: r else m :: go r
  end.
(** [sort.Strings]. *)
Definition sort_Strings (l : list string) : list string := foldr insert_sorted [] l.

Fixpoint assoc {A} (k : string) (l : list (string * A)) : option A :=
  match l with
  | [] => None
  | (k', v) :: r => if bool_decide (k = k') then Some v else assoc k r
  end.

(** Members separated by commas, then the closing brace. *)
Fixpoint render_tail (kvs : list (string * string)) : string :=
  match kvs with
  | [] => "}"
  | (k, v) :: r => "," +:+ jsonString k +:+ ":" +:+ v +:+ render_tail r
  end.
Definition render_object (kvs : list (string * string)) : string :=
  match kvs with
  | [] => "{}"
  | (k, v) :: r => "{" +:+ jsonString k +:+ ":" +:+ v +:+ render_tail r
  end.

(** Each field with its rendered value. *)
Definition rendered (kvs : list (string * fvalue)) : list (string * string) :=
  (λ kv, (kv.1, canonicalValue kv.2)) <$> kvs.

(** [CanonicalInternal]: names sorted, each with the value stored under it. *)
Definition CanonicalInternal (i : Intent) : string :=
  let values := rendered (intent_fields i) in
  let names := sort_Strings (values.*1) in
  render_object ((λ n, (n, default "" (assoc n values))) <$> names).

(** The fourteen fields of the H3 wire, in their lexicographic order. *)
Definition wireFields (i : Intent) : list (string * string) :=
  [ ("agentId", jsonString (i_AgentID i));
    ("amount", jsonString (FormatInt (i_AmountMicros i)));
    ("asset", jsonString (i_Asset i));
    ("expiresAt", jsonString (RFC3339 (i_ExpiresAt i)));
    ("intentId", jsonString (i_IntentID i));
    ("jobId", jsonString (i_JobID i));
    ("maxAmount", jsonString (FormatInt (i_MaxAmountMicros i)));
    ("merchant", jsonString (i_PayTo i));
    ("network", jsonString (i_Network i));
    ("nonce", jsonString (i_Nonce i));
    ("policyVersion", jsonString (i_PolicyVersion i));
    ("purpose", jsonString (i_Purpose i));
    ("resource", jsonString (i_ResourceURL i));
    ("taskId", jsonString (i_TaskID i)) ].
Definition CanonicalWire (i : Intent) : string := render_object (wireFields i).

Section Hashes.
  Context (keccak256 : string → string).
Definition InternalHash (i : Intent) : string := keccak256 (CanonicalInternal i).
Definition WireHash (i : Intent) : string := keccak256 (CanonicalWire i).
End Hashes.

(** ** The line-separator pass *)
Lemma span_bs_length s : (String.length (snd (span_bs s)) + fst (span_bs s) = String.length s)%nat.
Proof.
  induction s as [|c r IH]; [done|]. cbn. case_bool_decide; [|done].
  destruct (span_bs r). cbn in *. lia.
Qed.

Lemma span_bs_cons r :
  span_bs (String "\" r) = (S (fst (span_bs r)), snd (span_bs r)).
Proof. cbn. by destruct (span_bs r). Qed.

Lemma sep_prefix_length rest rune t :
  sep_prefix rest = Some (rune, t) → (String.length t < String.length rest)%nat.
Proof.
  unfold sep_prefix. intros H. repeat case_match; simplify_eq; cbn; lia.
Qed.

Lemma normalize_loop_fuel k1 k2 s :
  (String.length s ≤ k1)%nat → (String.length s ≤ k2)%nat →
  normalize_loop k1 s = normalize_loop k2 s.
Proof.
  revert k2 s. induction k1 as [|k1 IH]; intros [|k2] s H1 H2; try done;
    try (destruct s; cbn in *; [done|lia]).
  destruct s as [|c r]; [done|]. cbn [normalize_loop].
  case_bool_decide as Hc; cbn [negb]; [subst c|f_equal; apply IH; cbn in *; lia].
  pose proof (span_bs_length (String "\" r)) as Hl. rewrite span_bs_cons in *.
  cbn [fst snd String.length] in *. cbv zeta.
  set (rest := snd (span_bs r)) in *. clearbody rest.
  assert (normalize_loop k1 rest = normalize_loop k2 rest) as Hr by (apply IH; lia).
  destruct (sep_prefix rest) as [[rune t]|] eqn:E; [|by rewrite Hr].
  apply sep_prefix_length in E. rewrite Hr.
  case_match; [|done]. do 2 f_equal. apply IH; lia.
Qed.

Abbreviation nls := normalizeLineSeparators.

Lemma nls_other c r : c ≠ "\"%char → nls (String c r) = String c (nls r).
Proof.
  intros Hc. unfold nls. cbn [String.length normalize_loop].
  by rewrite bool_decide_eq_false_2.
Qed.

Lemma nls_run r :
  nls (String "\" r) =
    let n := fst (span_bs r) in
    let rest := snd (span_bs r) in
    match sep_prefix rest with
    | Some (rune, t) =>
      if Nat.odd (S n) then backslashes n +:+ rune +:+ nls t
      else backslashes (S n) +:+ nls rest
    | None => backslashes (S n) +:+ nls rest
    end.
Proof.
  unfold nls at 1. cbn [String.length normalize_loop].
  rewrite bool_decide_eq_true_2 by done. cbn [negb]. cbv zeta.
  rewrite span_bs_cons. cbn [fst snd]. rewrite Nat.sub_succ, Nat.sub_0_r.
  pose proof (span_bs_length r) as Hl.
  assert (∀ t, (String.length t ≤ String.length r)%nat →
    normalize_loop (String.length r) t = nls t) as Hf.
  { intros t Ht. by apply normalize_loop_fuel. }
  destruct (sep_prefix _) as [[rune t]|] eqn:E; [apply sep_prefix_length in E|];
    rewrite ?Hf by lia; done.
Qed.

Lemma nls_pair r : nls (String "\" (String "\" r)) = String "\" (String "\" (nls r)).
Proof.
  rewrite nls_run, span_bs_cons. cbv zeta. cbn [fst snd].
  destruct r as [|c r']; [reflexivity|].
  destruct (decide (c = "\"%char)) as [->|Hc].
  - rewrite nls_run, span_bs_cons. cbv zeta. cbn [fst snd].
    rewrite (Nat.odd_succ_succ (S (fst (span_bs r')))).
    repeat case_match; done.
  - cbn [span_bs]. rewrite bool_decide_eq_false_2 by done. cbn [fst snd].
    change (Nat.odd 2) with false. repeat case_match; done.
Qed.

Lemma nls_escape c r :
  c ≠ "\"%char → sep_prefix (String c r) = None →
  nls (String "\" (String c r)) = String "\" (nls (String c r)).
Proof.
  intros Hc Hs. rewrite nls_run. cbn [span_bs].
  rewrite bool_decide_eq_false_2 by done. cbn [fst snd]. cbv zeta. by rewrite Hs.
Qed.

Lemma nls_sep c2 r :
  byteZ c2 = 168 ∨ byteZ c2 = 169 →
  nls (sep_escape c2 +:+ r) =
    String (chrZ 226) (String (chrZ 128) (String c2 (nls r))).
Proof.
  intros H. unfold sep_escape. rewrite <-(chrZ_byteZ c2).
  destruct H as [-> | ->];
    [change (byteZ (chrZ 168) =? 168) with true|change (byteZ (chrZ 169) =? 168) with false];
    cbv iota; rewrite !sapp_cons, sapp_nil_l; exact (nls_run _).
Qed.

Lemma nls_byte c r : 128 ≤ byteZ c → nls (String c r) = String c (nls r).
Proof. intros H. apply nls_other. intros ->. by apply H. Qed.

Lemma nls_esc1 c x : acc1 c = true → nls (esc1 c +:+ x) = esc1 c +:+ nls x.
Proof.
  intros H. destruct c as [[] [] [] [] [] [] [] []]; try done; clear H;
    lazymatch goal with |- nls (esc1 ?c +:+ _) = _ =>
      let e := eval vm_compute in (esc1 c) in change (esc1 c) with e end;
    rewrite !sapp_cons, !sapp_nil_l;
    first [ rewrite nls_pair; done
          | rewrite nls_escape by done; rewrite ?nls_other by done; done
          | rewrite nls_other by done; done ].
Qed.

Lemma nls_emit k x : wf_chunk k = true → nls (emit_go k +:+ x) = emit_js k +:+ nls x.
Proof.
  destruct k as [c|c c1|c c1 c2|c c1 c2 c3|c]; cbn [wf_chunk emit_go emit_js bytes1];
    intros H.
  - by apply nls_esc1.
  - unfold acc2, cont, inr in H. bool_to_prop. rewrite !sapp_cons, !sapp_nil_l.
    by rewrite !nls_byte by lia.
  - unfold is_sep. case_match eqn:E.
    + bool_to_prop.
      assert (byteZ c2 = 168 ∨ byteZ c2 = 169) as Hc2.
      { destruct H1; bool_to_prop; auto. }
      rewrite nls_sep by done.
      replace c with (chrZ 226) by (rewrite <-(chrZ_byteZ c); congruence).
      replace c1 with (chrZ 128) by (rewrite <-(chrZ_byteZ c1); congruence).
      done.
    + clear E. unfold acc3, cont, inr in H. bool_to_prop.
      assert (128 ≤ byteZ c1) by (repeat case_match; bool_to_prop; lia).
      rewrite !sapp_cons, !sapp_nil_l. by rewrite !nls_byte by lia.
  - unfold acc4, cont, inr in H. bool_to_prop.
    assert (128 ≤ byteZ c1) by (repeat case_match; bool_to_prop; lia).
    rewrite !sapp_cons, !sapp_nil_l. by rewrite !nls_byte by lia.
  - rewrite !sapp_cons, !sapp_nil_l. rewrite nls_escape by done.
    by rewrite !nls_other by done.
Qed.

(** The daemon's JSON string is JavaScript's, for every input. *)
Lemma jsonString_js s : jsonString s = js_stringify s.
Proof.
  assert (∀ ks, forallb wf_chunk ks = true →
    nls (concat_map emit_go ks +:+ String dquote "") =
    concat_map emit_js ks +:+ String dquote "") as Hall.
  { induction ks as [|k ks IH]; intros Hk; [reflexivity|].
    cbn [concat_map forallb] in *. bool_to_prop.
    by rewrite !sapp_assoc, nls_emit, IH. }
  unfold jsonString, json_encode, js_stringify, quoted.
  rewrite nls_other by done. by rewrite Hall by apply chunks_wf.
Qed.

(** ** What the renderings determine *)
(** A field value up to the bytes of invalid UTF-8 sequences. *)
Inductive fview := VStr (b : list chunk) | VInt (z : Z) | VTime (t : time).
Definition fview_of (v : fvalue) : fview :=
  match v with FStr s => VStr (blurred s) | FInt z => VInt z | FTime t => VTime t end.
Definition same_kind (v v' : fvalue) : bool :=
  match v, v' with
  | FStr _, FStr _ | FInt _, FInt _ | FTime _, FTime _ => true
  | _, _ => false
  end.

Definition num_char (c : ascii) : bool := isDigit c || bool_decide (c = "-"%char).
Lemma FormatInt_chars z : sall num_char (FormatInt z) = true.
Proof.
  assert (∀ s, sall isDigit s = true → sall num_char s = true) as Hs.
  { induction s as [|c s IH]; [done|]. cbn. unfold num_char. intros H.
    bool_to_prop. rewrite H. auto. }
  unfold FormatInt. case_match; bool_to_prop.
  - cbn. apply Hs, FormatUint_digits. lia.
  - apply Hs, FormatUint_digits. lia.
Qed.

(** A rendered value followed by a delimiter is read back uniquely. *)
Definition delim (c : ascii) : bool := bool_decide (c = ","%char) || bool_decide (c = "}"%char).

Lemma ascii_blurred_inj s s' :
  sall acc1 s = true → sall acc1 s' = true → blurred s = blurred s' → s = s'.
Proof.
  assert (∀ t, sall acc1 t = true → valid_utf8 t = true) as Hv.
  { induction t as [|c t IH]; [done|]. cbn. intros H. bool_to_prop.
    unfold valid_utf8 in *. cbn [chunks]. rewrite H. cbn. auto. }
  intros. by apply blurred_valid_inj; auto.
Qed.

Lemma FormatPad_acc1 w n : 0 ≤ n → sall acc1 (FormatPad w n) = true.
Proof.
  intros Hn. pose proof (FormatPad_digits w n Hn) as H. revert H.
  generalize (FormatPad w n). induction s as [|c s IH]; [done|]. cbn. intros H.
  unfold isDigit, acc1 in *. bool_to_prop. apply andb_true_iff. split; [|auto].
  apply Z.ltb_lt. lia.
Qed.

Lemma trim0_sall p s : sall p s = true → sall p (trim0 s) = true.
Proof. intros H. rewrite (trim0_spec s), sall_app in H. by apply andb_true_iff in H as [? _]. Qed.

Lemma fmt_sec_acc1 t r : sall acc1 r = true → sall acc1 (fmt_sec t r) = true.
Proof.
  intros Hr. unfold fmt_sec. cbv zeta.
  destruct (civil_fields_nonneg (t / day_ns)). destruct (sec_fields_bounds t) as (?&?&?&?).
  rewrite !sall_app, Hr, !FormatPad_acc1 by assumption.
  assert (∀ y, sall acc1 (fmt_year y) = true) as ->.
  { intros y. unfold fmt_year. case_match; bool_to_prop;
      rewrite ?sall_app, FormatPad_acc1 by lia; done. }
  done.
Qed.

Lemma RFC3339Nano_acc1 t : sall acc1 (RFC3339Nano t) = true.
Proof.
  apply fmt_sec_acc1. rewrite sall_app. unfold fmt_nano. case_match; [done|].
  rewrite sall_app, trim0_sall; [done|]. apply FormatPad_acc1.
  apply Z.mod_pos_bound. done.
Qed.

Lemma RFC3339_acc1 t : sall acc1 (RFC3339 t) = true.
Proof. by apply fmt_sec_acc1. Qed.

Lemma canonicalValue_prefix v v' c c' r r' :
  same_kind v v' = true → delim c = true → delim c' = true →
  canonicalValue v +:+ String c r = canonicalValue v' +:+ String c' r' →
  fview_of v = fview_of v' ∧ String c r = String c' r'.
Proof.
  assert (∀ d, delim d = true → num_char d = false) as Hnum.
  { intros d Hd. unfold delim in Hd. bool_to_prop. by destruct Hd as [Hd|Hd];
      bool_to_prop; subst d. }
  destruct v as [s|z|t], v' as [s'|z'|t']; try done; intros _ Hc Hc' H;
    cbn [canonicalValue fview_of] in *; rewrite ?jsonString_js in H.
  - apply js_stringify_inj in H as [-> ?]. done.
  - apply (sall_span_inj num_char) in H as [H ?]; auto using FormatInt_chars.
    by apply FormatInt_inj in H as ->.
  - apply js_stringify_inj in H as [H ?].
    apply ascii_blurred_inj, RFC3339Nano_inj in H; [by subst t'|..];
      apply RFC3339Nano_acc1.
Qed.

Lemma render_tail_cons k v l :
  render_tail (rendered ((k, v) :: l)) =
    String "," (jsonString k +:+ String ":" (canonicalValue v +:+ render_tail (rendered l))).
Proof. reflexivity. Qed.

Lemma render_tail_head kvs : ∃ c r, render_tail kvs = String c r ∧ delim c = true.
Proof. destruct kvs as [|[k v] l]; eexists _, _; split; reflexivity. Qed.

Lemma render_tail_inj kvs kvs' :
  Forall2 (λ a b, a.1 = b.1 ∧ same_kind a.2 b.2 = true) kvs kvs' →
  render_tail (rendered kvs) = render_tail (rendered kvs') →
  Forall2 (λ a b, fview_of a.2 = fview_of b.2) kvs kvs'.
Proof.
  intros HF. induction HF as [|[k v] [k' v'] l l' [Hk Hv] HF IH]; [by constructor|].
  simpl in Hk, Hv. subst k'. rewrite !render_tail_cons. intros H.
  apply scons_inj, sapp_inj_l, scons_inj in H.
  destruct (render_tail_head (rendered l)) as (c & r & E & ?).
  destruct (render_tail_head (rendered l')) as (c' & r' & E' & ?).
  rewrite E, E' in H. apply canonicalValue_prefix in H as [Hview H]; [|done..].
  constructor; [done|]. apply IH. by rewrite E, E'.
Qed.

(** The object is its members with the first comma replaced by the brace. *)
Lemma render_object_tail kvs kvs' :
  render_object kvs = render_object kvs' → kvs ≠ [] → kvs' ≠ [] →
  render_tail kvs = render_tail kvs'.
Proof.
  destruct kvs as [|[k v] l], kvs' as [|[k' v'] l']; intros H ??; try done.
  apply scons_inj in H. exact (f_equal (String ",") H).
Qed.

(** The fields of an intent in the order [CanonicalInternal] writes them. *)
Definition sorted_fields (i : Intent) : list (string * fvalue) :=
  [ ("AgentID", FStr (i_AgentID i)); ("AlternativeTo", FStr (i_AlternativeTo i));
    ("AmountMicros", FInt (i_AmountMicros i)); ("Asset", FStr (i_Asset i));
    ("ChainRef", FStr (i_ChainRef i)); ("ExpiresAt", FTime (i_ExpiresAt i));
    ("IntentID", FStr (i_IntentID i)); ("JobID", FStr (i_JobID i));
    ("Kind", FStr (i_Kind i)); ("MaxAmountMicros", FInt (i_MaxAmountMicros i));
    ("Merchant", FStr (i_Merchant i)); ("Network", FStr (i_Network i));
    ("Nonce", FStr (i_Nonce i)); ("OrgID", FStr (i_OrgID i));
    ("PayTo", FStr (i_PayTo i)); ("PolicyVersion", FStr (i_PolicyVersion i));
    ("Purpose", FStr (i_Purpose i)); ("Resource", FStr (i_Resource i));
    ("ResourceURL", FStr (i_ResourceURL i)); ("TaskID", FStr (i_TaskID i)) ].

Lemma CanonicalInternal_sorted i :
  CanonicalInternal i = render_object (rendered (sorted_fields i)).
Proof.
  unfold CanonicalInternal. cbv zeta. apply f_equal. reflexivity.
Qed.

(** An intent up to invalid UTF-8 bytes: its fields' views. *)
Definition intent_view (i : Intent) : list fview := fview_of ∘ snd <$> sorted_fields i.

Lemma intent_view_of_canonical i j :
  CanonicalInternal i = CanonicalInternal j → intent_view i = intent_view j.
Proof.
  rewrite !CanonicalInternal_sorted. intros H.
  apply render_object_tail in H; [|done..].
  apply render_tail_inj in H; [|repeat constructor].
  unfold intent_view. revert H. generalize (sorted_fields i) (sorted_fields j).
  induction 1 as [|a b l l' Hab _ IH]; [done|]. rewrite !fmap_cons, IH.
  unfold compose. by rewrite Hab.
Qed.

Definition intent_strings (i : Intent) : list string :=
  [ i_AgentID i; i_AlternativeTo i; i_Asset i; i_ChainRef i; i_IntentID i; i_JobID i;
    i_Kind i; i_Merchant i; i_Network i; i_Nonce i; i_OrgID i; i_PayTo i;
    i_PolicyVersion i; i_Purpose i; i_Resource i; i_ResourceURL i; i_TaskID i ].
(** Every text field is valid UTF-8. *)
Definition intent_utf8 (i : Intent) : bool := forallb valid_utf8 (intent_strings i).

Lemma intent_view_inj i j :
  intent_utf8 i = true → intent_utf8 j = true → intent_view i = intent_view j → i = j.
Proof.
  unfold intent_utf8, intent_strings, intent_view, sorted_fields.
  destruct i, j. cbn [forallb i_AgentID i_AlternativeTo i_Asset i_ChainRef i_IntentID
    i_JobID i_Kind i_Merchant i_Network i_Nonce i_OrgID i_PayTo i_PolicyVersion
    i_Purpose i_Resource i_ResourceURL i_TaskID i_AmountMicros i_MaxAmountMicros
    i_ExpiresAt]. intros Hi Hj H. bool_to_prop. cbn in H.
  injection H as ???????? ???????? ????. subst.
  f_equal; by apply blurred_valid_inj.
Qed.

(** ** The approval binding *)
(** AT-05 completeness.  Two intents with the same internal hash are the
    same intent in every one of the twenty fields (to the nanosecond of the
    expiry), unless they exhibit a collision of the hash function itself; the
    intents' text is only assumed to be valid UTF-8. *)
Lemma InternalHash_binds keccak256 i j :
  intent_utf8 i = true → intent_utf8 j = true →
  InternalHash keccak256 i = InternalHash keccak256 j →
  i = j ∨ ∃ x y, x ≠ y ∧ keccak256 x = keccak256 y.
Proof.
  intros Hi Hj H. unfold InternalHash in H.
  destruct (decide (CanonicalInternal i = CanonicalInternal j)) as [Hc|Hc].
  - left. by apply intent_view_inj, intent_view_of_canonical.
  - right. eauto.
Qed.

Definition sampleIntent : Intent :=
  MkIntent "pi_1" "org" "job_1" "" "dd-worker" "" "api.example" "GET /v1/x" 40000
    "profile" "0xabc" "pol_7" (1785542400 * Second) "" "" "0xusdc" "eip155:5042002"
    40000 "0xPayee" "https://api.example/v1/x".

Lemma InternalHash_binds_witness :
  sampleIntent = sampleIntent ∨ ∃ x y : string, x ≠ y ∧ id x = id y.
Proof.
  apply (InternalHash_binds id sampleIntent sampleIntent); vm_compute; reflexivity.
Defined.

(** The terms the wire hash covers. *)
Record wire_terms := MkWireTerms {
  w_agentId : string; w_amount : Z; w_asset : string; w_expiresAt : Z;
  w_intentId : string; w_jobId : string; w_maxAmount : Z; w_merchant : string;
  w_network : string; w_nonce : string; w_policyVersion : string; w_purpose : string;
  w_resource : string; w_taskId : string }.
Definition wire_terms_of (i : Intent) : wire_terms :=
  MkWireTerms (i_AgentID i) (i_AmountMicros i) (i_Asset i) (UnixSec (i_ExpiresAt i))
    (i_IntentID i) (i_JobID i) (i_MaxAmountMicros i) (i_PayTo i) (i_Network i)
    (i_Nonce i) (i_PolicyVersion i) (i_Purpose i) (i_ResourceURL i) (i_TaskID i).

Definition wire_fvalues (i : Intent) : list (string * fvalue) :=
  [ ("agentId", FStr (i_AgentID i)); ("amount", FStr (FormatInt (i_AmountMicros i)));
    ("asset", FStr (i_Asset i)); ("expiresAt", FStr (RFC3339 (i_ExpiresAt i)));
    ("intentId", FStr (i_IntentID i)); ("jobId", FStr (i_JobID i));
    ("maxAmount", FStr (FormatInt (i_MaxAmountMicros i))); ("merchant", FStr (i_PayTo i));
    ("network", FStr (i_Network i)); ("nonce", FStr (i_Nonce i));
    ("policyVersion", FStr (i_PolicyVersion i)); ("purpose", FStr (i_Purpose i));
    ("resource", FStr (i_ResourceURL i)); ("taskId", FStr (i_TaskID i)) ].

Lemma CanonicalWire_rendered i : CanonicalWire i = render_object (rendered (wire_fvalues i)).
Proof. reflexivity. Qed.

Lemma FormatInt_acc1 z : sall acc1 (FormatInt z) = true.
Proof.
  pose proof (FormatInt_chars z) as H. revert H. generalize (FormatInt z).
  induction s as [|c s IH]; [done|]. cbn. intros H. bool_to_prop.
  apply andb_true_iff. split; [|auto]. unfold num_char in H. bool_to_prop.
  unfold acc1. apply Z.ltb_lt. destruct H as [H|H].
  - unfold isDigit in H. bool_to_prop. lia.
  - bool_to_prop. by subst c.
Qed.

(** Scope of the H3 hash.  The wire rendering of two intents is equal
    exactly when the fourteen wire terms are equal, the expiry compared at
    second precision and the payee and URL (not the merchant host and display
    resource) being the ones carried: no more and no less than the terms. *)
Lemma CanonicalWire_scope i j :
  intent_utf8 i = true → intent_utf8 j = true →
  CanonicalWire i = CanonicalWire j ↔ wire_terms_of i = wire_terms_of j.
Proof.
  intros Hi Hj. split.
  - rewrite !CanonicalWire_rendered. intros H.
    apply render_object_tail in H; [|done..].
    apply render_tail_inj in H; [|repeat constructor].
    unfold wire_fvalues in H. unfold intent_utf8, intent_strings in *.
    cbn [forallb] in Hi, Hj. bool_to_prop.
    repeat (apply Forall2_cons_1 in H as [?Hf H]). cbn [snd fview_of] in *.
    repeat match goal with Hf : VStr _ = VStr _ |- _ => injection Hf as Hf end.
    unfold wire_terms_of.
    apply ascii_blurred_inj in Hf0, Hf2, Hf5;
      [|by auto using FormatInt_acc1, RFC3339_acc1..].
    apply FormatInt_inj in Hf0, Hf5. apply RFC3339_inj in Hf2.
    f_equal; first [done | by apply blurred_valid_inj].
  - unfold wire_terms_of. intros [=]. unfold CanonicalWire, wireFields.
    rewrite (RFC3339_of_UnixSec (i_ExpiresAt i)), (RFC3339_of_UnixSec (i_ExpiresAt j)).
    congruence.
Qed.

Lemma CanonicalWire_scope_witness :
  CanonicalWire sampleIntent = CanonicalWire sampleIntent ↔
  wire_terms_of sampleIntent = wire_terms_of sampleIntent.
Proof. apply (CanonicalWire_scope sampleIntent sampleIntent); vm_compute; reflexivity. Defined.

(** Intents that differ only in an invalid byte of their purpose. *)
Definition invalidIntent (b : Z) : Intent :=
  MkIntent "pi_1" "org" "job_1" "" "dd-worker" "" "api.example" "GET /v1/x" 40000
    (String (chrZ b) "") "0xabc" "pol_7" (1785542400 * Second) "" "" "0xusdc"
    "eip155:5042002" 40000 "0xPayee" "https://api.example/v1/x".

(** The limit of the binding.  Outside valid UTF-8 distinct intents share
    one canonical rendering, so they share an internal hash whatever the hash
    function: the encoder writes every invalid byte as the same escape. *)
Lemma InternalHash_invalid_utf8_collides :
  invalidIntent 255 ≠ invalidIntent 254 ∧
  ∀ keccak256, InternalHash keccak256 (invalidIntent 255) =
               InternalHash keccak256 (invalidIntent 254).
Proof.
  split; [done|]. intros keccak256. unfold InternalHash.
  apply f_equal. vm_compute. reflexivity.
Qed.

(** Byte compatibility with the sidecar.  The daemon's JSON string (Go's
    encoder followed by the line-separator pass) is JavaScript's
    [JSON.stringify] of the same text, for every byte string: a literal
    backslash sequence that looks like a separator escape included. *)
Lemma jsonString_is_JSON_stringify s : jsonString s = js_stringify s.
Proof. apply jsonString_js. Qed.
