(* ===== verification/Policy.v ===== *)
(** [internal/policy]: the deterministic payment-policy engine.

    [Evaluate] is the pure function of the source, stage by stage.  Amounts are
    [int64] micro-USDC: the headroom subtractions wrap as Go's do.  The
    human-readable [Message] of a reason is not modelled; nothing branches on
    it. *)
From S2P Require Import Prelude GoStr GoTime.
#[local] Open Scope Z_scope.

Inductive Outcome := AutoApprove | HumanApprovalRequired | Deny.
#[export] Instance Outcome_eq_dec : EqDecision Outcome.
Proof. solve_decision. Defined.

Inductive Rule :=
| RuleIntentValidation | RuleJobBudget | RulePerTxLimit | RuleDailyCap
| RuleMerchantAllowlist | RuleBlockedCategory | RuleApprovalThreshold.
#[export] Instance Rule_eq_dec : EqDecision Rule.
Proof. solve_decision. Defined.

Inductive Code :=
| CodeInvalidAmount | CodeJobBudgetNotConfigured | CodeJobBudgetExceeded
| CodePerTxNotConfigured | CodePerTxLimitExceeded | CodeDailyCapNotConfigured
| CodeDailyCapExceeded | CodeMerchantNotAllowlisted | CodeCategoryBlocked
| CodeAboveApprovalThreshold | CodeInvalidSpendState | CodeUnmodelledKind
| CodeApprovalNotConfigured.
#[export] Instance Code_eq_dec : EqDecision Code.
Proof. solve_decision. Defined.

Definition Outcome_string (o : Outcome) : string :=
  match o with
  | AutoApprove => "AUTO_APPROVE"
  | HumanApprovalRequired => "HUMAN_APPROVAL_REQUIRED"
  | Deny => "DENY"
  end.
Definition Rule_string (r : Rule) : string :=
  match r with
  | RuleIntentValidation => "intent-validation" | RuleJobBudget => "job-budget"
  | RulePerTxLimit => "per-tx-limit" | RuleDailyCap => "daily-cap"
  | RuleMerchantAllowlist => "merchant-allowlist" | RuleBlockedCategory => "blocked-category"
  | RuleApprovalThreshold => "approval-threshold"
  end.
Definition Code_string (c : Code) : string :=
  match c with
  | CodeInvalidAmount => "invalid-amount"
  | CodeJobBudgetNotConfigured => "job-budget-not-configured"
  | CodeJobBudgetExceeded => "job-budget-exceeded"
  | CodePerTxNotConfigured => "per-tx-limit-not-configured"
  | CodePerTxLimitExceeded => "per-tx-limit-exceeded"
  | CodeDailyCapNotConfigured => "daily-cap-not-configured"
  | CodeDailyCapExceeded => "daily-cap-exceeded"
  | CodeMerchantNotAllowlisted => "merchant-not-allowlisted"
  | CodeCategoryBlocked => "category-blocked"
  | CodeAboveApprovalThreshold => "amount-above-approval-threshold"
  | CodeInvalidSpendState => "invalid-spend-state"
  | CodeUnmodelledKind => "unmodelled-intent-kind"
  | CodeApprovalNotConfigured => "approval-threshold-not-configured"
  end.

Definition maxIntentMicros : Z := 100000000000000.
Definition KindPayment : string := "payment".
Definition KindAdvance : string := "advance".

Record PaymentIntent := MkPaymentIntent {
  p_IntentID : string; p_OrgID : string; p_JobID : string; p_TaskID : string;
  p_AgentID : string; p_Kind : string; p_Merchant : string; p_Resource : string;
  p_AmountMicros : Z; p_Purpose : string; p_Nonce : string; p_PolicyVersion : string }.

Record PolicyConfig := MkPolicyConfig {
  JobBudgetMicros : Z;
  PerTxLimitMicros : Z;
  DailyCapMicros : Z;
  ApprovalAboveMicros : Z;
  MerchantAllowlist : list string;
  MerchantCategories : gmap string string;
  BlockedCategories : list string }.

Record SpendState := MkSpendState {
  JobCommittedMicros : Z;
  DailySpentMicros : Z }.

(** ** [PolicyConfig.Validate] *)
Inductive ConfigErr :=
| BadJobBudget | BadPerTx | BadDailyCap | BadApprovalAbove | EmptyAllowlist
| ContradictoryMerchant (m cat : string).

Definition contradiction (c : PolicyConfig) (m : string) : option string :=
  match MerchantCategories c !! m with
  | Some cat => if bool_decide (cat ∈ BlockedCategories c) then Some cat else None
  | None => None
  end.
Fixpoint first_contradiction (c : PolicyConfig) (ms : list string) : option ConfigErr :=
  match ms with
  | [] => None
  | m :: r => match contradiction c m with
              | Some cat => Some (ContradictoryMerchant m cat)
              | None => first_contradiction c r
              end
  end.
Definition Validate (c : PolicyConfig) : option ConfigErr :=
  if JobBudgetMicros c <=? 0 then Some BadJobBudget
  else if PerTxLimitMicros c <=? 0 then Some BadPerTx
  else if DailyCapMicros c <=? 0 then Some BadDailyCap
  else if ApprovalAboveMicros c <? 0 then Some BadApprovalAbove
  else if bool_decide (MerchantAllowlist c = []) then Some EmptyAllowlist
  else first_contradiction c (MerchantAllowlist c).

(** ** The daily window *)
Definition DailyWindowStartUTC (now : time) : time := Date_UTC (UTC_Date now).

(** ** Decisions *)
Record Check := MkCheck { c_Rule : Rule; c_Pass : bool }.
Record Reason := MkReason {
  r_Rule : Rule; r_Code : Code; r_LimitMicros : Z; r_ActualMicros : Z;
  r_Merchant : string; r_Category : string }.
Record Decision := MkDecision {
  d_Outcome : Outcome; d_Reason : option Reason; d_Checks : list Check }.

(** Saturating add, for the reported figures only. *)
Definition satAdd (a b : Z) : Z :=
  if (0 <? a) && (sub64 max_int64 a <? b) then max_int64 else add64 a b.

Definition FormatUSDC (micros : Z) : string :=
  let neg := micros <? 0 in
  let mag := if neg then to_uint64 (to_uint64 (- (micros + 1)) + 1) else to_uint64 micros in
  (if neg then "-" else "") +:+ FormatUint (mag / 1000000) +:+ "." +:+
  FormatPad 6 (mag `mod` 1000000).

(** ** [Evaluate] *)
Definition fail (checks : list Check) (r : Reason) : Decision :=
  MkDecision Deny (Some r) (checks ++ [MkCheck (r_Rule r) false]).
Definition pass (rule : Rule) (checks : list Check) : list Check :=
  checks ++ [MkCheck rule true].
Definition reason (rule : Rule) (code : Code) (limit actual : Z) : Reason :=
  MkReason rule code limit actual "" "".

Definition Evaluate (cfg : PolicyConfig) (state : SpendState) (in_ : PaymentIntent) : Decision :=
  let amt := p_AmountMicros in_ in
  let checks := [] in
  (* 0. intent validation *)
  if bool_decide (p_Kind in_ ≠ "") && bool_decide (p_Kind in_ ≠ KindPayment) then
    fail checks (reason RuleIntentValidation CodeUnmodelledKind 0 0)
  else if (amt <=? 0) || (maxIntentMicros <? amt) then
    fail checks (reason RuleIntentValidation CodeInvalidAmount 0 amt)
  else if (JobCommittedMicros state <? 0) || (DailySpentMicros state <? 0) then
    fail checks (reason RuleIntentValidation CodeInvalidSpendState 0 0)
  (* 1. job budget *)
  else if JobBudgetMicros cfg <=? 0 then
    fail checks (reason RuleJobBudget CodeJobBudgetNotConfigured 0 amt)
  else if sub64 (JobBudgetMicros cfg) (JobCommittedMicros state) <? amt then
    fail checks (reason RuleJobBudget CodeJobBudgetExceeded (JobBudgetMicros cfg)
      (satAdd (JobCommittedMicros state) amt))
  else
  let checks := pass RuleJobBudget checks in
  (* 2. per-transaction limit *)
  if PerTxLimitMicros cfg <=? 0 then
    fail checks (reason RulePerTxLimit CodePerTxNotConfigured 0 amt)
  else if PerTxLimitMicros cfg <? amt then
    fail checks (reason RulePerTxLimit CodePerTxLimitExceeded (PerTxLimitMicros cfg) amt)
  else
  let checks := pass RulePerTxLimit checks in
  (* 3. daily cumulative cap *)
  if DailyCapMicros cfg <=? 0 then
    fail checks (reason RuleDailyCap CodeDailyCapNotConfigured 0 amt)
  else if sub64 (DailyCapMicros cfg) (DailySpentMicros state) <? amt then
    fail checks (reason RuleDailyCap CodeDailyCapExceeded (DailyCapMicros cfg)
      (satAdd (DailySpentMicros state) amt))
  else
  let checks := pass RuleDailyCap checks in
  (* 4. merchant allowlist *)
  if negb (bool_decide (p_Merchant in_ ∈ MerchantAllowlist cfg)) then
    fail checks (MkReason RuleMerchantAllowlist CodeMerchantNotAllowlisted 0 amt
      (p_Merchant in_) "")
  else
  let checks := pass RuleMerchantAllowlist checks in
  (* 5. blocked categories *)
  match contradiction cfg (p_Merchant in_) with
  | Some cat =>
    fail checks (MkReason RuleBlockedCategory CodeCategoryBlocked 0 amt (p_Merchant in_) cat)
  | None =>
  let checks := pass RuleBlockedCategory checks in
  (* 6. approval threshold *)
  if ApprovalAboveMicros cfg <=? 0 then
    MkDecision HumanApprovalRequired
      (Some (reason RuleApprovalThreshold CodeApprovalNotConfigured 0 amt)) checks
  else if ApprovalAboveMicros cfg <? amt then
    MkDecision HumanApprovalRequired
      (Some (reason RuleApprovalThreshold CodeAboveApprovalThreshold
               (ApprovalAboveMicros cfg) amt)) checks
  else MkDecision AutoApprove None checks
  end.

(** ** [DemoPolicy] *)
Definition DemoMerchantProfile : string := "api.research-data.example".
Definition DemoMerchantPremium : string := "api.research-data.example".
Definition DemoMerchantBenchmark : string := "api.benchmarks.example".
Definition DemoPolicy : PolicyConfig :=
  MkPolicyConfig 6000000 5000000 10000000 100000
    [DemoMerchantProfile; DemoMerchantBenchmark]
    {[ DemoMerchantProfile := "business-data"; DemoMerchantBenchmark := "business-data" ]}
    ["token-trading"; "gambling"].

(** ** The specification: the rules over unbounded integers *)
Definition config_int64 (c : PolicyConfig) : Prop :=
  int64_range (JobBudgetMicros c) ∧ int64_range (PerTxLimitMicros c) ∧
  int64_range (DailyCapMicros c) ∧ int64_range (ApprovalAboveMicros c).
Definition state_int64 (s : SpendState) : Prop :=
  int64_range (JobCommittedMicros s) ∧ int64_range (DailySpentMicros s).

(** What the rules mean, with no machine arithmetic in sight. *)
Definition permitted (cfg : PolicyConfig) (state : SpendState) (in_ : PaymentIntent) : Prop :=
  (p_Kind in_ = "" ∨ p_Kind in_ = KindPayment) ∧
  0 < p_AmountMicros in_ ≤ maxIntentMicros ∧
  0 ≤ JobCommittedMicros state ∧ 0 ≤ DailySpentMicros state ∧
  0 < JobBudgetMicros cfg ∧
  JobCommittedMicros state + p_AmountMicros in_ ≤ JobBudgetMicros cfg ∧
  0 < PerTxLimitMicros cfg ∧ p_AmountMicros in_ ≤ PerTxLimitMicros cfg ∧
  0 < DailyCapMicros cfg ∧
  DailySpentMicros state + p_AmountMicros in_ ≤ DailyCapMicros cfg ∧
  p_Merchant in_ ∈ MerchantAllowlist cfg ∧
  contradiction cfg (p_Merchant in_) = None.
#[export] Instance permitted_dec cfg state in_ : base.Decision (permitted cfg state in_).
Proof. unfold permitted. apply _. Defined.

(** The subtraction the source compares never wraps where it is reached. *)
Lemma headroom_exact limit used :
  int64_range limit → int64_range used → 0 < limit → 0 ≤ used →
  sub64 limit used = limit - used.
Proof. intros. apply sub64_exact. int_lia. Qed.

Ltac policy_stage H :=
  let E := fresh "E" in
  match goal with
  | |- context [if ?b then _ else _] => destruct b eqn:E
  end; bool_to_prop.

Lemma evaluate_verdict cfg state in_ :
  config_int64 cfg → state_int64 state →
  d_Outcome (Evaluate cfg state in_) =
    if decide (permitted cfg state in_) then
      if (0 <? ApprovalAboveMicros cfg) &&
         (p_AmountMicros in_ <=? ApprovalAboveMicros cfg)
      then AutoApprove else HumanApprovalRequired
    else Deny.
Proof.
  intros (Hjb & Hpt & Hdc & Haa) (Hjc & Hds). unfold Evaluate.
  assert (Hkind : bool_decide (p_Kind in_ ≠ "") && bool_decide (p_Kind in_ ≠ KindPayment) = true
          ↔ ¬ (p_Kind in_ = "" ∨ p_Kind in_ = KindPayment)).
  { rewrite andb_true_iff, !bool_decide_eq_true. tauto. }
  destruct (_ && bool_decide (p_Kind in_ ≠ KindPayment)) eqn:Ek.
  { rewrite decide_False; [done|unfold permitted]. apply proj1 in Hkind. intuition. }
  assert (Hk : p_Kind in_ = "" ∨ p_Kind in_ = KindPayment).
  { destruct (decide (p_Kind in_ = "" ∨ p_Kind in_ = KindPayment)) as [|Hn]; [done|].
    apply Hkind in Hn. congruence. }
  clear Hkind Ek.
  destruct ((p_AmountMicros in_ <=? 0) || _) eqn:Ea.
  { rewrite decide_False; [done|unfold permitted]. bool_to_prop. destruct Ea; bool_to_prop; lia. }
  destruct ((JobCommittedMicros state <? 0) || _) eqn:Es.
  { rewrite decide_False; [done|unfold permitted]. bool_to_prop. destruct Es; bool_to_prop; lia. }
  bool_to_prop.
  policy_stage E; [rewrite decide_False; [done|unfold permitted; lia]|].
  rewrite headroom_exact by (done || lia).
  policy_stage E; [rewrite decide_False; [done|unfold permitted; lia]|].
  policy_stage E; [rewrite decide_False; [done|unfold permitted; lia]|].
  policy_stage E; [rewrite decide_False; [done|unfold permitted; lia]|].
  policy_stage E; [rewrite decide_False; [done|unfold permitted; lia]|].
  rewrite headroom_exact by (done || lia).
  policy_stage E; [rewrite decide_False; [done|unfold permitted; lia]|].
  policy_stage E; [rewrite decide_False; [done|unfold permitted; tauto]|].
  destruct (contradiction cfg (p_Merchant in_)) as [cat|] eqn:Ec.
  { rewrite decide_False; [done|unfold permitted]. intuition congruence. }
  rewrite decide_True by (unfold permitted; repeat split; done || lia).
  policy_stage E.
  { rewrite (proj2 (Z.ltb_ge 0 _)) by lia. done. }
  rewrite (proj2 (Z.ltb_lt 0 _)) by lia.
  policy_stage E.
  - rewrite (proj2 (Z.leb_gt _ _)) by lia. done.
  - rewrite (proj2 (Z.leb_le _ _)) by lia. done.
Qed.

(** C40: the engine's verdict, exactly.  For configurations and spend states
    that fit [int64], [Evaluate] denies precisely the intents the rules do not
    permit, and of the permitted ones it approves without a human precisely
    those at or below a configured threshold.  The wrapping subtractions agree
    with the unbounded specification on every input. *)
Theorem Evaluate_outcome cfg state in_ :
  config_int64 cfg → state_int64 state →
  d_Outcome (Evaluate cfg state in_) =
    if decide (permitted cfg state in_) then
      if (0 <? ApprovalAboveMicros cfg) &&
         (p_AmountMicros in_ <=? ApprovalAboveMicros cfg)
      then AutoApprove else HumanApprovalRequired
    else Deny.
Proof. apply evaluate_verdict. Qed.

Definition sampleState : SpendState := MkSpendState 1000000 2000000.
Definition samplePayment : PaymentIntent :=
  MkPaymentIntent "pi" "org" "job" "" "ag" "" DemoMerchantProfile "" 40000 "p" "n" "v".

Lemma Evaluate_outcome_witness :
  d_Outcome (Evaluate DemoPolicy sampleState samplePayment) = AutoApprove.
Proof.
  rewrite (Evaluate_outcome DemoPolicy sampleState samplePayment);
    [vm_compute; reflexivity | vm_compute; intuition discriminate..].
Defined.

(** ** Monotonicity in the spend state *)
Definition spend_le (s s' : SpendState) : Prop :=
  JobCommittedMicros s ≤ JobCommittedMicros s' ∧ DailySpentMicros s ≤ DailySpentMicros s'.
#[export] Instance spend_le_preorder : PreOrder spend_le.
Proof. split; unfold spend_le; intros ?; intuition lia. Qed.

Lemma permitted_mono cfg s s' in_ :
  0 ≤ JobCommittedMicros s → 0 ≤ DailySpentMicros s → spend_le s s' →
  permitted cfg s' in_ → permitted cfg s in_.
Proof. unfold permitted, spend_le. intuition lia. Qed.

(** Holding budget can only make the engine deny more, never less: an
    intent refused on a spend state is refused on every state with at least as
    much spent, and a verdict that stays non-denying does not change. *)
Lemma Evaluate_monotone cfg s s' in_ :
  config_int64 cfg → state_int64 s → state_int64 s' →
  0 ≤ JobCommittedMicros s → 0 ≤ DailySpentMicros s → spend_le s s' →
  d_Outcome (Evaluate cfg s' in_) = Deny ∨
  d_Outcome (Evaluate cfg s' in_) = d_Outcome (Evaluate cfg s in_).
Proof.
  intros Hc Hs Hs' ???. rewrite !evaluate_verdict by done.
  destruct (decide (permitted cfg s' in_)) as [Hp|]; [right|by left].
  by rewrite decide_True by eauto using permitted_mono.
Qed.

Lemma Evaluate_monotone_witness :
  d_Outcome (Evaluate DemoPolicy (MkSpendState 5990000 2000000) samplePayment) = Deny ∨
  d_Outcome (Evaluate DemoPolicy (MkSpendState 5990000 2000000) samplePayment) =
  d_Outcome (Evaluate DemoPolicy sampleState samplePayment).
Proof.
  apply (Evaluate_monotone DemoPolicy sampleState (MkSpendState 5990000 2000000) samplePayment);
    vm_compute; intuition discriminate.
Defined.

(** ** The audit trail *)
Definition stages : list Rule :=
  [RuleJobBudget; RulePerTxLimit; RuleDailyCap; RuleMerchantAllowlist; RuleBlockedCategory].
Definition passed (n : nat) : list Check := (λ r, MkCheck r true) <$> take n stages.

(** The decision explains itself.  A denial lists the stages passed in
    pipeline order followed by exactly one failed check, the one its reason
    names, and nothing after it; a verdict that is not a denial lists all five
    stages, with a threshold reason exactly when a human is needed. *)
Lemma Evaluate_trail cfg state in_ :
  let d := Evaluate cfg state in_ in
  match d_Outcome d with
  | Deny => ∃ r n, d_Reason d = Some r ∧
      d_Checks d = passed n ++ [MkCheck (r_Rule r) false] ∧
      (n = 0%nat ∧ r_Rule r = RuleIntentValidation ∨ stages !! n = Some (r_Rule r))
  | HumanApprovalRequired =>
      (∃ r, d_Reason d = Some r ∧ r_Rule r = RuleApprovalThreshold) ∧ d_Checks d = passed 5
  | AutoApprove => d_Reason d = None ∧ d_Checks d = passed 5
  end.
Proof.
  unfold Evaluate, fail, pass.
  repeat case_match; simpl in *; simplify_eq; eauto;
    eexists; first [exists 0%nat; by eauto | exists 1%nat; by eauto
      | exists 2%nat; by eauto | exists 3%nat; by eauto | exists 4%nat; by eauto].
Qed.

(** ** The daily window *)
Lemma DailyWindowStartUTC_eq t : DailyWindowStartUTC t = t - t `mod` day_ns.
Proof. apply Date_UTC_of_date. Qed.

(** The daily window opens at a UTC midnight, contains the instant it was
    computed for, lasts less than a day up to it, and is the same for every
    instant of that day: rule 3 sums exactly one calendar day. *)
Lemma DailyWindow_calendar_day t u :
  DailyWindowStartUTC t `mod` day_ns = 0 ∧
  DailyWindowStartUTC t ≤ t < DailyWindowStartUTC t + day_ns ∧
  (DailyWindowStartUTC t ≤ u < DailyWindowStartUTC t + day_ns ↔
   DailyWindowStartUTC u = DailyWindowStartUTC t).
Proof.
  rewrite !DailyWindowStartUTC_eq.
  assert (0 < day_ns) by (unfold day_ns, Second; lia).
  revert H. generalize day_ns. intros d Hd.
  pose proof (Z.mod_pos_bound t d Hd). pose proof (Z.mod_pos_bound u d Hd).
  pose proof (Z.div_mod t d ltac:(lia)) as Ht. pose proof (Z.div_mod u d ltac:(lia)) as Hu.
  split; [|split; [lia|split; [|lia]]].
  - replace (t - t `mod` d) with (t / d * d) by lia. apply Z_mod_mult.
  - intros Hb. replace (t - t `mod` d) with (d * (t / d)) in * by lia.
    replace (u - u `mod` d) with (d * (u / d)) by lia. f_equal. nia.
Qed.
