(* ===== verification/Store.v ===== *)
(** [internal/store]: the SQLite state of the daemon, as far as the money path
    uses it: the event log, the transactional outbox and the nonce claims.

    A [DB] value is the committed content of the database.  A transaction is a
    working copy of it that [commit] installs.  [faults] is an oracle that
    decides, statement by statement, whether SQLite reports an error: every
    theorem holds for every oracle, so for every pattern of failures.  The
    column [payload_hash] is derived from the payload and not kept. *)
From S2P Require Import Prelude GoStr GoTime GoJson.
#[local] Open Scope Z_scope.
#[local] Open Scope snap_scope.

(** ** JSON documents *)
#[local] Set Warnings "-register-all".
Inductive jval :=
| JNull
| JBool (b : bool)
| JInt (z : Z)
| JStr (s : string)
| JTime (t : time)
| JArr (items : list jval)
| JObj (fields : list (string * jval)).

(** What a reader gets back of a document that [json.Marshal] wrote. *)
Fixpoint json_Marshal (v : jval) : jval :=
  match v with
  | JStr s => JStr (utf8_clean s)
  | JArr l => JArr (json_Marshal <$> l)
  | JObj fs => JObj ((λ kv, (kv.1, json_Marshal kv.2)) <$> fs)
  | _ => v
  end.

Fixpoint jget (k : string) (fs : list (string * jval)) : option jval :=
  match fs with
  | [] => None
  | (k', v) :: r => if bool_decide (k = k') then Some v else jget k r
  end.
(** The members a struct is read from; a document that is neither an object
    nor null cannot be read into a struct. *)
Definition jfields (v : jval) : option (list (string * jval)) :=
  match v with JObj fs => Some fs | JNull => Some [] | _ => None end.

(** [json.Unmarshal] into a struct field: absent and null leave the zero
    value, another type is an error. *)
Definition dec_str (k : string) (v : jval) : option string :=
  fs ← jfields v;
  match jget k fs with
  | None | Some JNull => Some ""
  | Some (JStr s) => Some s
  | Some _ => None
  end.
Definition dec_int (k : string) (v : jval) : option Z :=
  fs ← jfields v;
  match jget k fs with
  | None | Some JNull => Some 0
  | Some (JInt z) => Some z
  | Some _ => None
  end.
Definition dec_time (k : string) (v : jval) : option time :=
  fs ← jfields v;
  match jget k fs with
  | None | Some JNull => Some zeroTime
  | Some (JTime t) => Some t
  | Some _ => None
  end.
(** A nested struct: absent and null leave it at its zero value, which is what
    decoding null yields. *)
Definition dec_obj (k : string) (v : jval) : option jval :=
  fs ← jfields v; Some (default JNull (jget k fs)).
Definition dec_bool (k : string) (v : jval) : option bool :=
  fs ← jfields v;
  match jget k fs with
  | None | Some JNull => Some false
  | Some (JBool b) => Some b
  | Some _ => None
  end.
(** A pointer field: nil when absent or null. *)
Definition dec_ptr {A} (k : string) (dec : jval → option A) (v : jval) : option (option A) :=
  fs ← jfields v;
  match jget k fs with
  | None | Some JNull => Some None
  | Some x => Some <$> dec x
  end.
(** A slice field; a nil slice and an empty one are not told apart. *)
Definition dec_list {A} (k : string) (dec : jval → option A) (v : jval) : option (list A) :=
  fs ← jfields v;
  match jget k fs with
  | None | Some JNull => Some []
  | Some (JArr l) => mapM dec l
  | Some _ => None
  end.
Definition text_of_json (v : jval) : option string := match v with JStr s => Some s | _ => None end.
(** An element of a string slice: null leaves it empty. *)
Definition text_of_element (v : jval) : option string := match v with JNull => Some "" | _ => text_of_json v end.

(** ** Rows *)
Record Event := MkEvent {
  e_TS : time; e_Kind : string; e_EntityID : string; e_Actor : string; e_Payload : jval }.
Record EventRow := MkEventRow {
  ev_seq : Z; ev_ts : Z; ev_kind : string; ev_entity : string; ev_actor : string;
  ev_payload : jval }.
Record OutboxRow := MkOutboxRow {
  ob_ID : Z; ob_Topic : string; ob_Payload : jval; ob_published : bool }.
(** The columns of [payment_intents] with a UNIQUE constraint, and two of the
    others. *)
Record IntentRow := MkIntentRow {
  pi_id : string; pi_nonce : string; pi_amount : string; pi_policy_version : string }.

Record DB := MkDB {
  events : list EventRow;
  outbox : list OutboxRow;
  payment_intents : list IntentRow }.
Record Store := MkStore { db : DB; faults : list bool }.
Definition emptyDB : DB := MkDB [] [] [].

Inductive StoreErr :=
| ErrBegin | ErrInsertEvent | ErrInsertOutbox | ErrCommit | ErrUpdate | ErrQuery
| ErrUnique | ErrInsert | ErrNoRows | ErrEffect.

(** ** Statements *)
(** One statement: the oracle decides whether SQLite reports an error. *)
Definition stmt (e : StoreErr) : M Store StoreErr unit := λ s,
  match faults s with
  | true :: fs => (MkStore (db s) fs, Err e)
  | false :: fs => (MkStore (db s) fs, Ok tt)
  | [] => (s, Ok tt)
  end.
Definition BeginTx : M Store StoreErr DB :=
  stmt ErrBegin ;;; λ s, (s, Ok (db s)).
Definition Commit_tx (tx : DB) : M Store StoreErr unit :=
  stmt ErrCommit ;;; modifyM (λ s, MkStore tx (faults s)).

Definition insert_event (ts : Z) (ev : Event) (tx : DB) : DB * Z :=
  let seq := Z.of_nat (length (events tx)) + 1 in
  (MkDB (events tx ++ [MkEventRow seq ts (e_Kind ev) (e_EntityID ev) (e_Actor ev)
                         (json_Marshal (e_Payload ev))])
     (outbox tx) (payment_intents tx), seq).
Definition insert_outbox (ev : Event) (tx : DB) : DB :=
  MkDB (events tx)
    (outbox tx ++ [MkOutboxRow (Z.of_nat (length (outbox tx)) + 1) (e_Kind ev)
                     (json_Marshal (e_Payload ev)) false])
    (payment_intents tx).

(** [Store.Append].  [wall] is the [time.Now()] that replaces a zero [TS]. *)
Definition Append (wall : time) (ev : Event) : M Store StoreErr Z :=
  let ts := if IsZero (e_TS ev) then wall else e_TS ev in
  tx <-- BeginTx ;;
  stmt ErrInsertEvent ;;;
  (let '(tx1, seq) := insert_event (UnixMilli ts) ev tx in
   stmt ErrInsertOutbox ;;;
   Commit_tx (insert_outbox ev tx1) ;;;
   retM seq).

(** [Store.Unpublished]. *)
Definition Unpublished (limit : nat) : M Store StoreErr (list OutboxRow) :=
  stmt ErrQuery ;;;
  λ s, (s, Ok (take limit (filter (λ r, ob_published r = false) (outbox (db s))))).

Definition set_published (id : Z) (r : OutboxRow) : OutboxRow :=
  if ob_ID r =? id then MkOutboxRow (ob_ID r) (ob_Topic r) (ob_Payload r) true else r.
Definition publish_tx (id : Z) (tx : DB) : DB :=
  MkDB (events tx) (set_published id <$> outbox tx) (payment_intents tx).

(** [Store.MarkPublished]. *)
Definition MarkPublished (id : Z) : M Store StoreErr unit :=
  stmt ErrUpdate ;;; modifyM (λ s, MkStore (publish_tx id (db s)) (faults s)).

(** [Store.ExecuteEffect].  The handler works on the transaction; a handler
    error is the [None] of [fn]. *)
Definition ExecuteEffect (rowID : Z) (fn : DB → option DB) : M Store StoreErr bool :=
  tx <-- BeginTx ;;
  stmt ErrQuery ;;;
  match list_find (λ r, ob_ID r = rowID) (outbox tx) with
  | None => failM ErrNoRows
  | Some (_, r) =>
    if ob_published r then retM false
    else match fn tx with
    | None => failM ErrEffect
    | Some tx1 =>
      stmt ErrUpdate ;;;
      Commit_tx (publish_tx rowID tx1) ;;;
      retM true
    end
  end.

(** [Store.EventCount]. *)
Definition EventCount : M Store StoreErr Z :=
  stmt ErrQuery ;;; λ s, (s, Ok (Z.of_nat (length (events (db s))))).

(** [SELECT ... FROM events WHERE kind IN (...) ORDER BY seq], as every fold
    of the log reads it. *)
Definition QueryEvents (kinds : list string) : M Store StoreErr (list EventRow) :=
  stmt ErrQuery ;;;
  λ s, (s, Ok (filter (λ r, ev_kind r ∈ kinds) (events (db s)))).

(** [INSERT INTO payment_intents], with its two UNIQUE columns. *)
Definition InsertIntent (row : IntentRow) : M Store StoreErr unit :=
  stmt ErrInsert ;;;
  λ s,
    if bool_decide (Exists (λ r, pi_id r = pi_id row ∨ pi_nonce r = pi_nonce row)
                      (payment_intents (db s)))
    then (s, Err ErrUnique)
    else (MkStore (MkDB (events (db s)) (outbox (db s)) (payment_intents (db s) ++ [row]))
            (faults s), Ok tt).

(** ** Lemmas *)
Lemma stmt_cases e s s' r :
  stmt e s = (s', r) → db s' = db s ∧ (r = Ok tt ∨ r = Err e).
Proof. unfold stmt. destruct s as [d [|[] fs]]; intros; simplify_eq/=; auto. Qed.

Lemma stmt_nofault e d : stmt e (MkStore d []) = (MkStore d [], Ok tt).
Proof. reflexivity. Qed.

Lemma BeginTx_cases s s' r :
  BeginTx s = (s', r) → db s' = db s ∧ (r = Ok (db s) ∨ r = Err ErrBegin).
Proof.
  unfold BeginTx. intros H. run_bind H Hm; apply stmt_cases in Hm as [Hd Hr].
  - simplify_eq. rewrite Hd. auto.
  - destruct Hr as [|Hr]; [done|]. injection Hr as ->. auto.
Qed.

Lemma Commit_tx_cases tx s s' r :
  Commit_tx tx s = (s', r) →
  (r = Ok tt ∧ db s' = tx) ∨ (r = Err ErrCommit ∧ db s' = db s).
Proof.
  unfold Commit_tx. intros H. run_bind H Hm; apply stmt_cases in Hm as [Hd Hr].
  - unfold modifyM in H. simplify_eq/=. auto.
  - destruct Hr as [|Hr]; [done|]. injection Hr as ->. auto.
Qed.

(** The row and the outbox message an event turns into. *)
Definition row_of (d : DB) (wall : time) (ev : Event) : EventRow :=
  MkEventRow (Z.of_nat (length (events d)) + 1)
    (UnixMilli (if IsZero (e_TS ev) then wall else e_TS ev))
    (e_Kind ev) (e_EntityID ev) (e_Actor ev) (json_Marshal (e_Payload ev)).
Definition msg_of (d : DB) (ev : Event) : OutboxRow :=
  MkOutboxRow (Z.of_nat (length (outbox d)) + 1) (e_Kind ev) (json_Marshal (e_Payload ev)) false.
Definition appended (d : DB) (wall : time) (ev : Event) : DB :=
  MkDB (events d ++ [row_of d wall ev]) (outbox d ++ [msg_of d ev]) (payment_intents d).

Lemma Append_cases wall ev s s' r :
  Append wall ev s = (s', r) →
  (r = Ok (Z.of_nat (length (events (db s))) + 1) ∧ db s' = appended (db s) wall ev) ∨
  ((∃ e, r = Err e) ∧ db s' = db s).
Proof.
  unfold Append. intros H.
  run_bind H Hm; apply BeginTx_cases in Hm as [Hd0 Hr]; [|eauto].
  destruct Hr as [Hr|Hr]; [injection Hr as ->|done].
  run_bind H Hm; apply stmt_cases in Hm as [Hd1 _]; [|right; eauto using eq_trans].
  unfold insert_event in H.
  run_bind H Hm; apply stmt_cases in Hm as [Hd2 _]; [|right; split; [eauto|congruence]].
  run_bind H Hm; apply Commit_tx_cases in Hm as [[Hr Hd3]|[Hr Hd3]];
    try done; [left|right; split; [eauto|congruence]].
  unfold retM in H. simplify_eq. split; [done|]. by rewrite Hd3.
Qed.

Lemma Append_nofault wall ev d :
  Append wall ev (MkStore d []) =
  (MkStore (appended d wall ev) [], Ok (Z.of_nat (length (events d)) + 1)).
Proof. reflexivity. Qed.

Lemma InsertIntent_cases row s s' r :
  InsertIntent row s = (s', r) →
  (r = Ok tt ∧ Forall (λ q, pi_id q ≠ pi_id row ∧ pi_nonce q ≠ pi_nonce row) (payment_intents (db s)) ∧
   db s' = MkDB (events (db s)) (outbox (db s)) (payment_intents (db s) ++ [row])) ∨
  ((r = Err ErrUnique ∨ r = Err ErrInsert) ∧ db s' = db s).
Proof.
  unfold InsertIntent. intros H. run_bind H Hm; apply stmt_cases in Hm as [Hd Hr].
  - cbn beta in H. destruct (bool_decide _) eqn:E; simplify_eq/=; [auto|].
    left. rewrite <-Hd. split; [done|split; [|done]].
    bool_to_prop. apply not_Exists_Forall in E; [|intros q; apply _].
    eapply Forall_impl; [exact E|]. cbn. intros q Hq. tauto.
  - destruct Hr as [|Hr]; [done|]. injection Hr as ->. auto.
Qed.

Lemma MarkPublished_cases id s s' r :
  MarkPublished id s = (s', r) →
  (r = Ok tt ∧ db s' = publish_tx id (db s)) ∨ (r = Err ErrUpdate ∧ db s' = db s).
Proof.
  unfold MarkPublished. intros H. run_bind H Hm; apply stmt_cases in Hm as [Hd Hr].
  - unfold modifyM in H. simplify_eq/=. rewrite Hd. auto.
  - destruct Hr as [|Hr]; [done|]. injection Hr as ->. auto.
Qed.

Lemma QueryEvents_cases kinds s s' r :
  QueryEvents kinds s = (s', r) →
  db s' = db s ∧
  (r = Ok (filter (λ r, ev_kind r ∈ kinds) (events (db s))) ∨ r = Err ErrQuery).
Proof.
  unfold QueryEvents. intros H. run_bind H Hm; apply stmt_cases in Hm as [Hd Hr].
  - simplify_eq. rewrite Hd. auto.
  - destruct Hr as [|Hr]; [done|]. injection Hr as ->. auto.
Qed.

(** ** Well-formed databases *)
(** Every event has its outbox message (same kind, same payload, same order),
    ids are the row numbers, and no two intents share an id or a nonce. *)
Definition numbered {A} (f : A → Z) (l : list A) : Prop :=
  ∀ (i : nat) x, l !! i = Some x → f x = Z.of_nat i + 1.
Record wf_db (d : DB) : Prop := {
  wf_outbox : (λ o, (ob_Topic o, ob_Payload o)) <$> outbox d =
              (λ e, (ev_kind e, ev_payload e)) <$> events d;
  wf_seq : numbered ev_seq (events d);
  wf_ids : numbered ob_ID (outbox d);
  wf_nonce : NoDup (pi_nonce <$> payment_intents d);
  wf_id : NoDup (pi_id <$> payment_intents d) }.

Lemma numbered_snoc {A} (f : A → Z) l x :
  numbered f l → f x = Z.of_nat (length l) + 1 → numbered f (l ++ [x]).
Proof.
  intros Hl Hx i y. rewrite lookup_app_Some. intros [Hi|[Hi Hy]]; [eauto|].
  apply list_lookup_singleton_Some in Hy as [Hi0 ->]. rewrite Hx. lia.
Qed.

Lemma numbered_fmap {A} (f : A → Z) (g : A → A) l :
  (∀ x, f (g x) = f x) → numbered f l → numbered f (g <$> l).
Proof.
  intros Hg Hl i x Hx. apply list_lookup_fmap_Some in Hx as (y & -> & Hy).
  rewrite Hg. eauto.
Qed.

Lemma wf_empty : wf_db emptyDB.
Proof. split; try (intros i x; cbn; by rewrite lookup_nil); first [done | apply NoDup_nil_2]. Qed.

Lemma wf_appended d wall ev : wf_db d → wf_db (appended d wall ev).
Proof.
  intros []. split; cbn; try done.
  - rewrite !fmap_app. by f_equal.
  - by apply numbered_snoc.
  - by apply numbered_snoc.
Qed.

Lemma wf_publish d id : wf_db d → wf_db (publish_tx id d).
Proof.
  intros []. split; cbn; try done.
  - rewrite <-wf_outbox0, <-list_fmap_compose. apply list_fmap_ext. intros i r _.
    unfold set_published. cbn. by destruct (_ =? _).
  - apply numbered_fmap; [|done]. intros r. unfold set_published. by destruct (_ =? _).
Qed.

Lemma NoDup_fmap_snoc {A B} (f : A → B) l x :
  NoDup (f <$> l) → Forall (λ y, f y ≠ f x) l → NoDup (f <$> (l ++ [x])).
Proof.
  intros Hn Hf. rewrite fmap_app. apply NoDup_app. split; [done|split].
  - intros y Hy Hx. cbn in Hx. apply list_elem_of_singleton in Hx as ->.
    apply list_elem_of_fmap in Hy as (z & Hz & Hzl).
    rewrite Forall_forall in Hf. by apply (Hf z Hzl).
  - apply NoDup_singleton.
Qed.

Lemma wf_insert_intent d row :
  wf_db d →
  Forall (λ q, pi_id q ≠ pi_id row ∧ pi_nonce q ≠ pi_nonce row) (payment_intents d) →
  wf_db (MkDB (events d) (outbox d) (payment_intents d ++ [row])).
Proof.
  intros [] Hf. split; cbn; try done; apply NoDup_fmap_snoc; try done;
    (eapply Forall_impl; [exact Hf|]); cbn; intuition.
Qed.

(** One call of the store, whatever it returns. *)
Inductive store_step : Store → Store → Prop :=
| step_Append wall ev s : store_step s (Append wall ev s).1
| step_MarkPublished id s : store_step s (MarkPublished id s).1
| step_InsertIntent row s : store_step s (InsertIntent row s).1.

(** NFR-001, the transactional outbox.  However many of its statements
    fail, a sequence of store calls keeps the log and the outbox in step (one
    message per event, same kind and payload, same order), the sequence
    numbers dense, and every payment intent's id and nonce unique. *)
Lemma store_wellformed s s' :
  wf_db (db s) → rtc store_step s s' → wf_db (db s').
Proof.
  intros Hw Hs. induction Hs as [|s s1 s2 Hst _ IH]; [done|]. apply IH. clear IH.
  destruct Hst as [wall ev s|id s|row s].
  - destruct (Append wall ev s) as [s1 r] eqn:E.
    apply Append_cases in E; cbn [fst]; destruct E as [[_ ->]|[_ ->]]; auto using wf_appended.
  - destruct (MarkPublished id s) as [s1 r] eqn:E.
    apply MarkPublished_cases in E; cbn [fst]; destruct E as [[_ ->]|[_ ->]]; auto using wf_publish.
  - destruct (InsertIntent row s) as [s1 r] eqn:E.
    apply InsertIntent_cases in E; cbn [fst]; destruct E as [(_ & ? & ->)|[_ ->]]; auto using wf_insert_intent.
Qed.

Definition sampleEvent : Event :=
  MkEvent zeroTime "job.created" "job_1" "brain" (JObj [("request_id", JStr "apr_1")]).
Lemma store_wellformed_witness :
  let s := MkStore emptyDB [false; false; true] in
  wf_db (db (Append 0 sampleEvent (Append 0 sampleEvent s).1).1).
Proof.
  apply (store_wellformed (MkStore emptyDB [false; false; true])); [apply wf_empty|].
  eapply rtc_l; [apply step_Append|]. eapply rtc_l; [apply step_Append|]. apply rtc_refl.
Defined.

(** ** Exactly-once effects *)
Fixpoint attempts (n : nat) (rowID : Z) (fn : DB → option DB) (s : Store) : Store * nat :=
  match n with
  | O => (s, O)
  | S n =>
    let '(s1, r) := ExecuteEffect rowID fn s in
    let '(s2, k) := attempts n rowID fn s1 in
    (s2, match r with Ok true => S k | _ => k end)
  end.

Lemma ExecuteEffect_cases rowID fn s s' r :
  ExecuteEffect rowID fn s = (s', r) →
  (db s' = db s ∧ r ≠ Ok true) ∨
  (r = Ok true ∧ ∃ i row tx1, list_find (λ r, ob_ID r = rowID) (outbox (db s)) = Some (i, row) ∧
     ob_published row = false ∧ fn (db s) = Some tx1 ∧ db s' = publish_tx rowID tx1).
Proof.
  unfold ExecuteEffect. intros H.
  run_bind H Hm; apply BeginTx_cases in Hm as [Hd0 Hr]; [|by left].
  destruct Hr as [Hr|Hr]; [injection Hr as ->|done].
  run_bind H Hm; apply stmt_cases in Hm as [Hd1 _]; [|left; split; congruence].
  destruct (list_find _ _) as [[i row]|] eqn:Ef; [|unfold failM in H; simplify_eq; left; split; congruence].
  destruct (ob_published row) eqn:Ep; [unfold retM in H; simplify_eq; left; split; congruence|].
  destruct (fn (db s)) as [tx1|] eqn:Efn; [|unfold failM in H; simplify_eq; left; split; congruence].
  run_bind H Hm; apply stmt_cases in Hm as [Hd2 _]; [|left; split; congruence].
  run_bind H Hm; apply Commit_tx_cases in Hm as [[Hr Hd3]|[Hr Hd3]]; try done;
    [right|left; split; congruence].
  unfold retM in H. simplify_eq. split; [done|]. eauto 10.
Qed.

Lemma published_after rowID d i row :
  list_find (λ r, ob_ID r = rowID) (outbox d) = Some (i, row) →
  ∃ row', list_find (λ r, ob_ID r = rowID) (outbox (publish_tx rowID d)) = Some (i, row') ∧
          ob_published row' = true.
Proof.
  cbn. intros H. apply list_find_Some in H as (Hi & Hid & Hlt).
  exists (set_published rowID row). split.
  - apply list_find_Some. split; [by rewrite list_lookup_fmap, Hi|].
    unfold set_published at 1. rewrite Hid, Z.eqb_refl. split; [done|].
    intros j y Hy Hj. apply list_lookup_fmap_Some in Hy as (y0 & -> & Hy0).
    specialize (Hlt j y0 Hy0 Hj). unfold set_published. by destruct (_ =? _).
  - unfold set_published. by rewrite Hid, Z.eqb_refl.
Qed.

Lemma attempts_done n rowID fn s i row :
  list_find (λ r, ob_ID r = rowID) (outbox (db s)) = Some (i, row) → ob_published row = true →
  db (attempts n rowID fn s).1 = db s ∧ (attempts n rowID fn s).2 = 0%nat.
Proof.
  revert s. induction n as [|n IH]; intros s Hf Hp; [done|]. cbn.
  destruct (ExecuteEffect rowID fn s) as [s1 r] eqn:E.
  apply ExecuteEffect_cases in E as [[Hd Hr]|(_ & i' & row' & tx & Hf' & Hp' & _)]; [|congruence].
  destruct (attempts n rowID fn s1) as [s2 k] eqn:Ea.
  destruct (IH s1) as [H1 H2]; [by rewrite Hd|done|]. rewrite Ea in *. cbn in *.
  split; [congruence|]. by destruct r as [[]|].
Qed.

(** Exactly-once effects (G2).  For a handler that does not touch the
    outbox, however often an outbox row is executed and whichever statements
    fail on the way, the effect runs at most once in total: either it never
    ran and nothing changed, or it ran exactly once and the row's flag
    committed together with it. *)
Lemma ExecuteEffect_exactly_once n rowID fn s i row :
  list_find (λ r, ob_ID r = rowID) (outbox (db s)) = Some (i, row) →
  ob_published row = false →
  (∀ d d', fn d = Some d' → outbox d' = outbox d) →
  let '(s', k) := attempts n rowID fn s in
  (k = 0%nat ∧ db s' = db s) ∨
  (k = 1%nat ∧ ∃ d, fn (db s) = Some d ∧ db s' = publish_tx rowID d).
Proof.
  intros Hf Hp Hfn. revert s Hf. induction n as [|n IH]; intros s Hf; [by left|]. cbn.
  destruct (ExecuteEffect rowID fn s) as [s1 r] eqn:E.
  apply ExecuteEffect_cases in E as [[Hd Hr]|(-> & i' & row' & tx & Hf' & Hp' & Htx & Hd)].
  - specialize (IH s1 ltac:(by rewrite Hd)). destruct (attempts n rowID fn s1) as [s2 k].
    rewrite Hd in IH. by destruct r as [[]|].
  - pose proof (Hfn _ _ Htx) as Hob. rewrite <-Hob in Hf'.
    apply published_after in Hf' as (row1 & Hf1 & Hp1). rewrite <-Hd in Hf1.
    pose proof (attempts_done n rowID fn s1 _ _ Hf1 Hp1) as [Ha Hk].
    destruct (attempts n rowID fn s1) as [s2 k]. cbn in *. subst k.
    right. split; [done|]. exists tx. split; congruence.
Qed.

Lemma ExecuteEffect_exactly_once_witness :
  let s := MkStore (appended emptyDB 0 sampleEvent) [false; false; true] in
  let fn d := Some (MkDB (events d) (outbox d) (payment_intents d ++ [MkIntentRow "i" "n" "" ""])) in
  (attempts 3 1 fn s).2 = 1%nat.
Proof.
  cbv zeta.
  pose proof (ExecuteEffect_exactly_once 3 1
    (λ d, Some (MkDB (events d) (outbox d) (payment_intents d ++ [MkIntentRow "i" "n" "" ""])))
    (MkStore (appended emptyDB 0 sampleEvent) [false; false; true]) 0
    (msg_of emptyDB sampleEvent) eq_refl eq_refl ltac:(intros; by simplify_eq/=)) as H.
  vm_compute in H. destruct H as [[Hk _]|[Hk _]]; [discriminate Hk | vm_compute; reflexivity].
Defined.
