(* ===== verification/Like.v ===== *)
(** JSON documents as text, and SQLite's [LIKE].

    [json_text] is the text [json.Marshal] writes for a document (the members
    of a map in the order of their keys); [like] is the [LIKE] operator: [%]
    matches any run of characters, [_] any single one, ASCII letters match
    in either case. *)
From Stdlib Require Import Ascii String.
From S2P Require Import Prelude GoStr GoTime GoJson Store.
#[local] Open Scope Z_scope.
#[local] Set Default Proof Using "Type".

(** A string as [json.Marshal] writes it: the HTML characters escaped too. *)
Definition emit_html (k : chunk) : string :=
  match k with
  | Raw1 c => if bool_decide (c = "<"%char) then "\u003c" else if bool_decide (c = ">"%char) then "\u003e"
              else if bool_decide (c = "&"%char) then "\u0026" else esc1 c
  | _ => emit_go k
  end.
Definition json_string (s : string) : string := quoted (concat_map emit_html (chunks s)).

Definition join_with (sep : string) (l : list string) : string :=
  match l with [] => "" | x :: r => foldl (λ acc y, acc +:+ sep +:+ y) x r end.
Definition member_less (a b : string * string) : bool := String.ltb a.1 b.1.
Definition member_text (kv : string * string) : string := json_string kv.1 +:+ ":" +:+ kv.2.
Fixpoint json_text (v : jval) : string :=
  match v with
  | JNull => "null"
  | JBool b => if b then "true" else "false"
  | JInt z => FormatInt z
  | JStr s => json_string s
  | JTime t => quoted (RFC3339Nano t)
  | JArr l => "[" +:+ join_with "," (json_text <$> l) +:+ "]"
  | JObj fs =>
    "{" +:+ join_with "," (member_text <$> isort member_less ((λ kv, (kv.1, json_text kv.2)) <$> fs)) +:+ "}"
  end.

(** Characters are UTF-8 sequences. *)
Definition fold_case (k : chunk) : chunk := match k with Raw1 c => Raw1 (lower1 c) | _ => k end.
#[export] Instance chunk_eq_dec : EqDecision chunk.
Proof. solve_decision. Defined.
Definition like1 (p c : chunk) : bool := bool_decide (p = Raw1 "_"%char) || bool_decide (fold_case p = fold_case c).
Fixpoint like (p : list chunk) : list chunk → bool :=
  match p with
  | [] => λ s, match s with [] => true | _ => false end
  | k :: p' =>
    if bool_decide (k = Raw1 "%"%char) then
      fix skip (s : list chunk) : bool := like p' s || match s with [] => false | _ :: s' => skip s' end
    else λ s, match s with c :: s' => like1 k c && like p' s' | [] => false end
  end.
Definition LIKE (text pattern : string) : bool := like (chunks pattern) (chunks text).
(** [LIKE '%' || s || '%']. *)
Definition contains_like (text s : string) : bool := LIKE text ("%" +:+ s +:+ "%").

(** ** A text that contains the string matches *)
Lemma like1_refl k : like1 k k = true.
Proof. unfold like1. rewrite (bool_decide_true (fold_case k = fold_case k)) by done. apply orb_true_r. Qed.
Lemma like_prefix p q s : like q s = true →
  Forall (λ k, k ≠ Raw1 "%"%char) p → like (p ++ q) (p ++ s) = true.
Proof.
  intros Hq. induction 1 as [|k p Hk Hp IH]; [done|]. cbn. rewrite bool_decide_false by done.
  by rewrite like1_refl, IH.
Qed.
Lemma like_percent_skip p a s : like p s = true → like (Raw1 "%"%char :: p) (a ++ s) = true.
Proof.
  intros Hp. cbn [like]. rewrite bool_decide_true by done.
  induction a as [|c a IH]; cbn; [destruct s; by rewrite Hp|]. rewrite IH. apply orb_true_r.
Qed.
Lemma like_percent_all s : like [Raw1 "%"%char] s = true.
Proof. rewrite <-(app_nil_r s). by apply like_percent_skip. Qed.

Lemma chunks_app_ascii a b : sall acc1 a = true → chunks (a +:+ b) = chunks a ++ chunks b.
Proof.
  induction a as [|c a IH]; [done|]. cbn [sall]. rewrite andb_true_iff. intros [Hc Ha].
  rewrite sapp_cons. cbn [chunks]. rewrite Hc. cbn. by rewrite IH.
Qed.
Definition no_percent (c : ascii) : bool := acc1 c && negb (bool_decide (c = "%"%char)).
Lemma contains_like_app a s b : sall no_percent s = true → sall acc1 a = true →
  contains_like (a +:+ s +:+ b) s = true.
Proof.
  intros Hs Ha.
  assert (Hs1 : sall acc1 s = true ∧ Forall (λ k, k ≠ Raw1 "%"%char) (chunks s)).
  { revert Hs. clear. induction s as [|c s IH]; [by repeat constructor|]. cbn [sall]. rewrite andb_true_iff.
    intros [Hc Hs]. destruct (IH Hs) as [Hs1 Hs2]. unfold no_percent in Hc. apply andb_true_iff in Hc as [Hc Hp].
    rewrite Hc. split; [done|]. cbn [chunks]. rewrite Hc. constructor; [|done]. bool_to_prop. congruence. }
  destruct Hs1 as [Hs1 Hs2]. unfold contains_like, LIKE.
  rewrite (chunks_app_ascii "%") by done. rewrite !chunks_app_ascii by done.
  change (chunks "%") with [Raw1 "%"%char]. cbn [app]. apply like_percent_skip, like_prefix; [|done].
  apply like_percent_all.
Qed.
