(* ===== verification/Events.v ===== *)
(** [internal/events]: the event bus and the outbox publisher.

    A handler is a function of the message and of a world [W], the state of
    whoever subscribed; [false] is a handler's error. *)
From S2P Require Import Prelude GoStr GoTime GoJson Store.
#[local] Open Scope Z_scope.

Record Message := MkMessage { m_Topic : string; m_Payload : jval }.

Section Bus.
Context {W : Type}.
Definition Handler : Type := Message → W → W * bool.

Record Bus := MkBus { subs : gmap string (list Handler); all : list Handler }.
Definition NewBus : Bus := MkBus ∅ [].
Definition handlers_for (b : Bus) (topic : string) : list Handler :=
  default [] (subs b !! topic).

Definition Subscribe (topic : string) (h : Handler) (b : Bus) : Bus :=
  MkBus (<[ topic := handlers_for b topic ++ [h] ]> (subs b)) (all b).
Definition SubscribeAll (h : Handler) (b : Bus) : Bus := MkBus (subs b) (all b ++ [h]).

(** Deliver to each handler in turn and stop at the first error. *)
Fixpoint deliver (hs : list Handler) (m : Message) (w : W) : W * bool :=
  match hs with
  | [] => (w, true)
  | h :: hs => match h m w with
               | (w1, true) => deliver hs m w1
               | (w1, false) => (w1, false)
               end
  end.
Definition dispatch (b : Bus) (m : Message) (w : W) : W * bool :=
  deliver (handlers_for b (m_Topic m) ++ all b) m w.

(** [Publisher.Drain]: the number delivered and the store's error, if any. *)
Fixpoint drain_rows (b : Bus) (rows : list OutboxRow) (n : nat) (s : Store) (w : W) :
    Store * W * nat * option StoreErr :=
  match rows with
  | [] => (s, w, n, None)
  | r :: rows =>
    match dispatch b (MkMessage (ob_Topic r) (ob_Payload r)) w with
    | (w1, false) => (s, w1, n, None)
    | (w1, true) =>
      match MarkPublished (ob_ID r) s with
      | (s1, Err e) => (s1, w1, n, Some e)
      | (s1, Ok _) => drain_rows b rows (S n) s1 w1
      end
    end
  end.
Definition Drain (b : Bus) (batch : nat) (s : Store) (w : W) :
    Store * W * nat * option StoreErr :=
  match Unpublished batch s with
  | (s1, Err e) => (s1, w, O, Some e)
  | (s1, Ok rows) => drain_rows b rows O s1 w
  end.

(** ** Lemmas *)
(** The messages all of [rows] were accepted, in this order. *)
Fixpoint accepted (b : Bus) (rows : list OutboxRow) (w w' : W) : Prop :=
  match rows with
  | [] => w = w'
  | r :: rows => ∃ w1, dispatch b (MkMessage (ob_Topic r) (ob_Payload r)) w = (w1, true) ∧
                       accepted b rows w1 w'
  end.

Definition pending (d : DB) : list OutboxRow :=
  filter (λ r, ob_published r = false) (outbox d).

Lemma set_published_id id r : ob_ID (set_published id r) = ob_ID r.
Proof. unfold set_published. by destruct (_ =? _). Qed.

Lemma numbered_tail_ids {A} (f : A → Z) x l : 
  NoDup (f <$> x :: l) → Forall (λ y, f y ≠ f x) l.
Proof.
  cbn. rewrite NoDup_cons. intros [Hx _]. apply Forall_forall. intros y Hy He.
  apply Hx. rewrite <-He. by apply list_elem_of_fmap_2.
Qed.

Lemma set_published_other id l :
  Forall (λ r, ob_ID r ≠ id) l → set_published id <$> l = l.
Proof.
  induction 1 as [|r l Hr _ IH]; [done|]. cbn. rewrite IH. f_equal.
  unfold set_published. by rewrite (proj2 (Z.eqb_neq _ _) Hr).
Qed.

Lemma set_published_hit id r : ob_ID r = id → ob_published (set_published id r) = true.
Proof. unfold set_published. intros ->. by rewrite Z.eqb_refl. Qed.
Lemma set_published_miss id r : ob_ID r ≠ id → set_published id r = r.
Proof. unfold set_published. intros H. by rewrite (proj2 (Z.eqb_neq _ _) H). Qed.

(** Publishing the first pending row removes it, and only it, from the
    pending rows. *)
Lemma pending_publish d r rows :
  NoDup (ob_ID <$> outbox d) → pending d = r :: rows → pending (publish_tx (ob_ID r) d) = rows.
Proof.
  unfold pending, publish_tx. cbn [outbox]. induction (outbox d) as [|o l IH]; [done|].
  rewrite !fmap_cons. intros Hn. rewrite !filter_cons.
  destruct (decide (ob_published o = false)) as [Hp|Hp]; intros H.
  - injection H as -> <-. rewrite decide_False by (by rewrite set_published_hit).
    apply numbered_tail_ids in Hn. by rewrite set_published_other.
  - assert (ob_ID o ≠ ob_ID r).
    { intros He. apply NoDup_cons in Hn as [Hn _]. apply Hn. rewrite He.
      apply list_elem_of_fmap_2. eapply list_elem_of_filter. rewrite H. by left. }
    rewrite set_published_miss, decide_False by done. apply IH; [|done]. by apply NoDup_cons in Hn as [_ Hn].
Qed.

Lemma publish_ids id d : ob_ID <$> outbox (publish_tx id d) = ob_ID <$> outbox d.
Proof.
  cbn. rewrite <-list_fmap_compose. apply list_fmap_ext. intros i r _. apply set_published_id.
Qed.

Lemma drain_rows_spec b rows n s w s' w' n' oe rest :
  NoDup (ob_ID <$> outbox (db s)) → pending (db s) = rows ++ rest →
  drain_rows b rows n s w = (s', w', n', oe) →
  ∃ k w1, n' = (n + k)%nat ∧ (k ≤ length rows)%nat ∧
    pending (db s') = drop k rows ++ rest ∧ accepted b (take k rows) w w1 ∧
    (oe = None ∧ k = length rows ∧ w' = w1 ∨
     ∃ r, rows !! k = Some r ∧
       let m := MkMessage (ob_Topic r) (ob_Payload r) in
       (oe = None ∧ dispatch b m w1 = (w', false) ∨
        oe = Some ErrUpdate ∧ dispatch b m w1 = (w', true))).
Proof.
  revert n s w. induction rows as [|r rows IH]; intros n s w Hn Hp H; cbn in H.
  { simplify_eq. exists 0%nat, w'. cbn. rewrite Hp, Nat.add_0_r. eauto 10. }
  destruct (dispatch b _ w) as [w1 []] eqn:Ed; cycle 1.
  { simplify_eq. exists 0%nat, w. cbn. rewrite Hp, Nat.add_0_r. split_and!; try done; [lia|].
    right. exists r. eauto. }
  destruct (MarkPublished (ob_ID r) s) as [s1 r1] eqn:Em.
  apply MarkPublished_cases in Em as [[-> Hd]|[-> Hd]].
  - apply IH in H as (k & w2 & -> & Hk & Hpk & Ha & Hend);
      [|by rewrite Hd, publish_ids
       |rewrite Hd; by apply pending_publish].
    exists (S k), w2. cbn. split_and!; try done; [lia..|eauto|].
    destruct Hend as [(-> & -> & ->)|Hend]; [left; eauto|right; done].
  - simplify_eq. exists 0%nat, w. cbn. rewrite Hd, Hp, Nat.add_0_r. split_and!; try done; [lia|].
    right. exists r. eauto.
Qed.
End Bus.
Arguments Bus W : clear implicits.
Arguments Handler W : clear implicits.

Lemma numbered_ids_NoDup d : wf_db d → NoDup (ob_ID <$> outbox d).
Proof.
  intros [_ _ Hi _ _]. apply NoDup_alt. intros i j z Hx Hy.
  apply list_lookup_fmap_Some in Hx as (x & -> & Hx).
  apply list_lookup_fmap_Some in Hy as (y & Hxy & Hy).
  apply Hi in Hx, Hy. lia.
Qed.

(** Ordered at-least-once delivery.  A drain delivers a prefix of the
    unpublished messages in id order: every message of the prefix was accepted
    by all its subscribers and is published, what stays unpublished is exactly
    the rest of the queue in the same order, and the drain stops before the
    batch is done only at a message a subscriber refused or whose flag could
    not be written (that one will be delivered again). *)
Lemma Drain_prefix {W} (b : Bus W) batch s w s' w' n oe :
  wf_db (db s) → Drain b batch s w = (s', w', n, oe) →
  let queue := pending (db s) in
  ∃ w1, (n ≤ batch `min` length queue)%nat ∧
    pending (db s') = drop n queue ∧ accepted b (take n queue) w w1 ∧
    (oe = None ∧ n = (batch `min` length queue)%nat ∧ w' = w1 ∨
     oe = Some ErrQuery ∧ n = 0%nat ∧ w' = w ∨
     ∃ r, queue !! n = Some r ∧
       let m := MkMessage (ob_Topic r) (ob_Payload r) in
       (oe = None ∧ dispatch b m w1 = (w', false) ∨
        oe = Some ErrUpdate ∧ dispatch b m w1 = (w', true))).
Proof.
  intros Hw H. unfold Drain in H. destruct (Unpublished batch s) as [s1 r1] eqn:Eu.
  unfold Unpublished in Eu. cbv zeta. apply bindM_cases in Eu as [(s2 & a & Hm & Eu)|(e & Hm & ->)];
    apply stmt_cases in Hm as [Hd Hr].
  - simplify_eq. cbn in H. rewrite Hd in H. fold (pending (db s)) in H.
    apply drain_rows_spec with (rest := drop batch (pending (db s))) in H
      as (k & w1 & -> & Hk & Hp & Ha & Hend);
      [|rewrite Hd; by apply numbered_ids_NoDup | by rewrite Hd, take_drop].
    rewrite length_take in *. exists w1. cbn [Nat.add]. split_and!; [lia|..].
    + rewrite Hp, skipn_firstn_comm. etransitivity; [|apply (take_drop (batch - k))].
      rewrite drop_drop. by replace (k + (batch - k))%nat with batch by lia.
    + by rewrite take_take, Nat.min_l in Ha by lia.
    + destruct Hend as [?|(r & Hr1 & Hend)]; [by left|]. right; right.
      apply lookup_take_Some in Hr1 as [Hr1 _]. eauto.
  - destruct Hr as [|Hr]; [done|]. injection Hr as ->. simplify_eq.
    exists w'. rewrite drop_0, take_0, Hd. split_and!; [lia|done..|auto].
Qed.

(** A subscriber that refuses a message of another topic than "a". *)
Definition sampleBus : Bus (list string) :=
  SubscribeAll (λ m w, (m_Topic m :: w, bool_decide (m_Topic m = "a"))) NewBus.
Definition sampleQueue : DB :=
  appended (appended emptyDB 0 (MkEvent 0 "a" "" "" JNull)) 0 (MkEvent 0 "b" "" "" JNull).

Lemma Drain_prefix_witness :
  pending (db (Drain sampleBus 64 (MkStore sampleQueue []) []).1.1.1) =
  drop 1 (pending sampleQueue).
Proof.
  destruct (Drain_prefix sampleBus 64 (MkStore sampleQueue []) [] _ _ _ _
    ltac:(repeat apply wf_appended; apply wf_empty) eq_refl) as (_ & _ & Hp & _).
  vm_compute in Hp. vm_compute. exact Hp.
Defined.
