(* ===== verification/Freeze.v ===== *)
(** [internal/freeze]: the kill switch.

    The registry's mutex makes every operation one atomic step; the operations
    are functions on the pair of the store and the registry.  The closure that
    [AdmitExecution] returns is a handle whose [sync.Once] has fired or not:
    [onces] holds the handles that have not.  One reading [now] stands for the
    registry's clock and for the store's [time.Now()]. *)
From S2P Require Import Prelude GoStr GoTime GoJson Store.
#[local] Open Scope Z_scope.

Definition KindOrg : string := "org".
Definition KindJob : string := "job".
Definition KindAgent : string := "agent".

Record Entry := MkEntry {
  en_Kind : string; en_ID : string; en_By : string; en_Reason : string; en_At : time;
  en_InFlightAtEngage : Z }.

Definition key (kind id : string) : string := kind +:+ ":" +:+ id.

Record Registry := MkRegistry {
  active : gmap string Entry;
  inFlight : Z;
  onces : gset nat;
  next_once : nat }.
Definition emptyRegistry : Registry := MkRegistry ∅ 0 ∅ 0.

Inductive FreezeErr :=
| ErrScopeRequired
| ErrFrozen (e : Entry)
| ErrAppend (e : StoreErr)
| ErrReplay (e : StoreErr)
| ErrCorrupt.

(** ** JSON of an entry *)
Definition entry_json (e : Entry) : jval :=
  JObj [("kind", JStr (en_Kind e)); ("id", JStr (en_ID e)); ("by", JStr (en_By e));
        ("reason", JStr (en_Reason e)); ("at", JTime (en_At e));
        ("in_flight_at_engage", JInt (en_InFlightAtEngage e))].
Definition entry_of_json (v : jval) : option Entry :=
  k ← dec_str "kind" v; i ← dec_str "id" v; b ← dec_str "by" v; r ← dec_str "reason" v;
  t ← dec_time "at" v; n ← dec_int "in_flight_at_engage" v;
  Some (MkEntry k i b r t n).

(** [Registry.append]. *)
Definition append_event (now : time) (kind : string) (e : Entry) : M Store StoreErr Z :=
  Append now (MkEvent zeroTime kind (en_ID e) (en_By e) (entry_json e)).

(** ** Operations *)
Definition scopes (org job agent : string) : list string :=
  [key KindOrg org; key KindJob job; key KindAgent agent].
Fixpoint first_hit (m : gmap string Entry) (ks : list string) : option Entry :=
  match ks with
  | [] => None
  | k :: ks => match m !! k with
               | Some e => if bool_decide (en_ID e ≠ "") then Some e else first_hit m ks
               | None => first_hit m ks
               end
  end.
Definition Check (org job agent : string) (r : Registry) : option Entry :=
  first_hit (active r) (scopes org job agent).

Definition AdmitExecution (org job agent : string) (r : Registry) :
    Registry * result FreezeErr nat :=
  match first_hit (active r) (scopes org job agent) with
  | Some e => (r, Err (ErrFrozen e))
  | None => (MkRegistry (active r) (inFlight r + 1) ({[ next_once r ]} ∪ onces r)
               (S (next_once r)), Ok (next_once r))
  end.
(** The returned closure: [once.Do]. *)
Definition release (h : nat) (r : Registry) : Registry :=
  if bool_decide (h ∈ onces r)
  then MkRegistry (active r) (inFlight r - 1) (onces r ∖ {[ h ]}) (next_once r)
  else r.

Definition set_active (m : gmap string Entry) (r : Registry) : Registry :=
  MkRegistry m (inFlight r) (onces r) (next_once r).

Definition Engage (now : time) (kind id by_ reason : string) (s : Store) (r : Registry) :
    Store * Registry * result FreezeErr Entry :=
  if bool_decide (id = "") || bool_decide (by_ = "") then (s, r, Err ErrScopeRequired) else
  match active r !! key kind id with
  | Some existing =>
    ((append_event now "freeze.engaged.duplicate" existing s).1, r, Ok existing)
  | None =>
    let e := MkEntry kind id by_ reason now (inFlight r) in
    match append_event now "freeze.engaged" e s with
    | (s1, Err er) => (s1, r, Err (ErrAppend er))
    | (s1, Ok _) => (s1, set_active (<[ key kind id := e ]> (active r)) r, Ok e)
    end
  end.

Definition Lift (now : time) (kind id by_ reason : string) (s : Store) (r : Registry) :
    Store * Registry * result FreezeErr unit :=
  if bool_decide (id = "") || bool_decide (by_ = "") then (s, r, Err ErrScopeRequired) else
  match active r !! key kind id with
  | None =>
    ((append_event now "freeze.lifted.duplicate" (MkEntry kind id by_ reason now 0) s).1, r, Ok tt)
  | Some e =>
    let e' := MkEntry (en_Kind e) (en_ID e) by_ reason now (en_InFlightAtEngage e) in
    match append_event now "freeze.lifted" e' s with
    | (s1, Err er) => (s1, r, Err (ErrAppend er))
    | (s1, Ok _) => (s1, set_active (delete (key kind id) (active r)) r, Ok tt)
    end
  end.

(** ** Replay *)
Definition replay_row (m : gmap string Entry) (row : EventRow) : option (gmap string Entry) :=
  e ← entry_of_json (ev_payload row);
  Some (if bool_decide (ev_kind row = "freeze.engaged")
        then <[ key (en_Kind e) (en_ID e) := e ]> m
        else delete (key (en_Kind e) (en_ID e)) m).
Fixpoint replay_rows (m : gmap string Entry) (rows : list EventRow) : option (gmap string Entry) :=
  match rows with
  | [] => Some m
  | row :: rows => m' ← replay_row m row; replay_rows m' rows
  end.
Definition freeze_kinds : list string := ["freeze.engaged"; "freeze.lifted"].

(** [NewRegistry], which replays the log into an empty registry. *)
Definition NewRegistry (s : Store) : Store * result FreezeErr Registry :=
  match QueryEvents freeze_kinds s with
  | (s1, Err e) => (s1, Err (ErrReplay e))
  | (s1, Ok rows) =>
    match replay_rows ∅ rows with
    | None => (s1, Err ErrCorrupt)
    | Some m => (s1, Ok (MkRegistry m 0 ∅ 0))
    end
  end.

(** ** The owner's view *)
Record Report := MkReport { rep_Active : list Entry; rep_InFlight : Z }.
(** [rep_InFlight] is the number the note reports; the note is empty at zero. *)
Definition StatusReport (r : Registry) : Report :=
  let es := snd <$> map_to_list (active r) in
  MkReport es (sumZ (en_InFlightAtEngage <$> es)).

(** ** Sequences of operations *)
Inductive fop :=
| FEngage (kind id by_ reason : string)
| FLift (kind id by_ reason : string)
| FAdmit (org job agent : string)
| FRelease (h : nat).
Definition fstep (now : time) (op : fop) (sr : Store * Registry) : Store * Registry :=
  let '(s, r) := sr in
  match op with
  | FEngage k i b re => (Engage now k i b re s r).1
  | FLift k i b re => (Lift now k i b re s r).1
  | FAdmit o j a => (s, (AdmitExecution o j a r).1)
  | FRelease h => (s, release h r)
  end.
Fixpoint fsteps (ops : list (time * fop)) (sr : Store * Registry) : Store * Registry :=
  match ops with [] => sr | (now, op) :: ops => fsteps ops (fstep now op sr) end.

(** ** The in-flight counter *)
Definition counted (r : Registry) : Prop :=
  inFlight r = Z.of_nat (size (onces r)) ∧ (∀ h, h ∈ onces r → (h < next_once r)%nat).

Lemma counted_admit o j a r : counted r → counted (AdmitExecution o j a r).1.
Proof.
  intros [Hc Hn]. unfold AdmitExecution. destruct (first_hit _ _); [done|].
  split; cbn; [|intros h' [->%elem_of_singleton|?%Hn]%elem_of_union; lia].
  assert (next_once r ∉ onces r) by (intros ?%Hn; lia).
  rewrite size_union, size_singleton by set_solver. lia.
Qed.

Lemma counted_release h r : counted r → counted (release h r).
Proof.
  intros [Hc Hn]. unfold release. case_bool_decide as Hh; [|done].
  split; cbn; [|intros h' [?%Hn _]%elem_of_difference; done].
  rewrite size_difference, size_singleton by set_solver.
  assert (size (onces r) ≠ 0%nat) by (apply size_non_empty_iff; set_solver). lia.
Qed.

Lemma Engage_registry now k i b re s r :
  inFlight (Engage now k i b re s r).1.2 = inFlight r ∧
  onces (Engage now k i b re s r).1.2 = onces r ∧
  next_once (Engage now k i b re s r).1.2 = next_once r.
Proof. unfold Engage. destruct (_ || _); [done|]. destruct (active r !! _); [done|].
  destruct (append_event _ _ _ _) as [? []]; done. Qed.

Lemma Lift_registry now k i b re s r :
  inFlight (Lift now k i b re s r).1.2 = inFlight r ∧
  onces (Lift now k i b re s r).1.2 = onces r ∧
  next_once (Lift now k i b re s r).1.2 = next_once r.
Proof. unfold Lift. destruct (_ || _); [done|]. destruct (active r !! _); [|done].
  destruct (append_event _ _ _ _) as [? []]; done. Qed.

Lemma counted_fstep now op sr : counted sr.2 → counted (fstep now op sr).2.
Proof.
  destruct sr as [s r]. cbn. intros Hc. destruct op; cbn.
  - unfold counted. pose proof (Engage_registry now kind id by_ reason s r) as (-> & -> & ->). done.
  - unfold counted. pose proof (Lift_registry now kind id by_ reason s r) as (-> & -> & ->). done.
  - by apply counted_admit.
  - by apply counted_release.
Qed.

Lemma counted_fsteps ops sr : counted sr.2 → counted (fsteps ops sr).2.
Proof.
  revert sr. induction ops as [|[now op] ops IH]; intros sr Hc; [done|].
  cbn. apply IH. by apply counted_fstep.
Qed.

(** An engaged freeze knows what was in flight.  After any history of
    operations, a successful first [Engage] of a scope records as in flight
    exactly the executions admitted and not yet released at that moment,
    whichever releases ran twice. *)
Lemma Engage_counts_in_flight ops s r now kind id by_ reason s' r' e :
  counted r →
  let sr := fsteps ops (s, r) in
  active sr.2 !! key kind id = None →
  Engage now kind id by_ reason sr.1 sr.2 = (s', r', Ok e) →
  en_InFlightAtEngage e = Z.of_nat (size (onces sr.2)) ∧ active r' !! key kind id = Some e.
Proof.
  intros Hc sr Hfree H. subst sr. pose proof (counted_fsteps ops (s, r) Hc) as [Hn _].
  unfold Engage in H. rewrite Hfree in H. destruct (_ || _); [done|].
  destruct (append_event _ _ _ _) as [s1 [z|er]]; [|done].
  simplify_eq/=. split; [done|]. apply lookup_insert_eq.
Qed.

Definition sampleOps : list (time * fop) :=
  [ (1, FAdmit "org" "j1" "a"); (2, FAdmit "org" "j2" "a"); (3, FRelease 0); (4, FRelease 0) ].
Lemma Engage_counts_in_flight_witness :
  let e := MkEntry "org" "org" "owner" "stop" 5 1 in
  en_InFlightAtEngage e = 1.
Proof.
  cbv zeta.
  destruct (Engage_counts_in_flight sampleOps (MkStore emptyDB []) emptyRegistry 5
    "org" "org" "owner" "stop" _ _ (MkEntry "org" "org" "owner" "stop" 5 1)
    ltac:(split; [reflexivity | intros h Hh; by apply not_elem_of_empty in Hh])
    ltac:(vm_compute; reflexivity)
    ltac:(vm_compute; reflexivity)) as [H _].
  vm_compute in H. vm_compute. exact H.
Defined.

(** ** The registry and its log *)
Definition entry_utf8 (e : Entry) : bool :=
  valid_utf8 (en_Kind e) && valid_utf8 (en_ID e) && valid_utf8 (en_By e) &&
  valid_utf8 (en_Reason e).

Lemma entry_json_roundtrip e :
  entry_utf8 e = true → entry_of_json (json_Marshal (entry_json e)) = Some e.
Proof.
  unfold entry_utf8. intros H. bool_to_prop. destruct e as [k i b r t n].
  unfold entry_of_json, dec_str, dec_time, dec_int. cbn in *.
  by rewrite !utf8_clean_valid.
Qed.

(** Entries are filed under their own key, have an id, and can be logged. *)
Definition wf_registry (r : Registry) : Prop :=
  ∀ k e, active r !! k = Some e →
    key (en_Kind e) (en_ID e) = k ∧ en_ID e ≠ "" ∧ entry_utf8 e = true.

Lemma wf_emptyRegistry : wf_registry emptyRegistry.
Proof. intros k e He. cbn in He. by rewrite lookup_empty in He. Qed.

Definition fop_utf8 (op : fop) : bool :=
  match op with
  | FEngage k i b re | FLift k i b re =>
      valid_utf8 k && valid_utf8 i && valid_utf8 b && valid_utf8 re
  | _ => true
  end.

Lemma wf_registry_fstep now op sr :
  fop_utf8 op = true → wf_registry sr.2 → wf_registry (fstep now op sr).2.
Proof.
  destruct sr as [s r]. cbn [snd]. intros Hu Hw. destruct op as [k i b re|k i b re|o j a|h]; cbn.
  - unfold Engage. destruct (_ || _) eqn:Eg; [done|]. destruct (active r !! _); [done|].
    destruct (append_event _ _ _ _) as [s1 [z|er]]; [|done]. cbn.
    bool_to_prop. intros k' e He. cbn in He. apply lookup_insert_Some in He as [[<- <-]|[_ He]];
      [|by apply Hw].
    split; [done|split; [done|]]. unfold entry_utf8. cbn. cbn in Hu. exact Hu.
  - unfold Lift. destruct (_ || _) eqn:Eg; [done|]. destruct (active r !! _); [|done].
    destruct (append_event _ _ _ _) as [s1 [z|er]]; [|done]. cbn.
    intros k' e' He. cbn in He. apply lookup_delete_Some in He as [_ He]. by apply Hw.
  - unfold AdmitExecution. by destruct (first_hit _ _).
  - unfold release. by destruct (bool_decide _).
Qed.

Lemma first_hit_some m ks k e :
  k ∈ ks → m !! k = Some e → en_ID e ≠ "" → ∃ e', first_hit m ks = Some e'.
Proof.
  intros Hk He Hid. induction ks as [|k' ks IH]; [by apply elem_of_nil in Hk|].
  cbn. apply elem_of_cons in Hk as [->|Hk].
  - rewrite He, bool_decide_true by done. eauto.
  - destruct (m !! k') as [e'|]; [|auto]. case_bool_decide; eauto.
Qed.

(** The operation does not lift the scope filed under [k]. *)
Definition not_lifting (k : string) (op : fop) : Prop :=
  match op with FLift kind id _ _ => key kind id ≠ k | _ => True end.

Lemma stays_frozen now op sr k :
  not_lifting k op → is_Some (active sr.2 !! k) → is_Some (active (fstep now op sr).2 !! k).
Proof.
  destruct sr as [s r]. cbn. intros Hn He. destruct op as [k' i b re|k' i b re|o j a|h]; cbn.
  - unfold Engage. destruct (_ || _); [done|]. destruct (active r !! key k' i); [done|].
    destruct (append_event _ _ _ _) as [s1 [z|er]]; [|done]. cbn. apply lookup_insert_is_Some'; auto.
  - unfold Lift. destruct (_ || _); [done|]. destruct (active r !! key k' i); [|done].
    destruct (append_event _ _ _ _) as [s1 [z|er]]; [|done]. cbn.
    by rewrite lookup_delete_ne.
  - unfold AdmitExecution. by destruct (first_hit _ _).
  - unfold release. by destruct (bool_decide _).
Qed.

Lemma fsteps_invariant (P : Store * Registry → Prop) (Q : fop → Prop) ops sr :
  (∀ now op sr, Q op → P sr → P (fstep now op sr)) →
  Forall (λ o, Q o.2) ops → P sr → P (fsteps ops sr).
Proof.
  intros HP HQ. revert sr. induction HQ as [|[now op] ops Hq _ IH]; intros sr Hp; [done|].
  cbn. apply IH. by apply HP.
Qed.

(** The ordering guarantee of the kill switch.  Once [Engage] has returned
    without an error, no execution in the scope is admitted after any further
    history that does not lift that scope, and the refused admission counts
    nothing in flight. *)
Lemma Engage_then_no_admission now kind id by_ reason s r s' r' e ops org job agent :
  wf_registry r → Forall (λ o, fop_utf8 o.2 = true ∧ not_lifting (key kind id) o.2) ops →
  fop_utf8 (FEngage kind id by_ reason) = true →
  Engage now kind id by_ reason s r = (s', r', Ok e) →
  key kind id ∈ scopes org job agent →
  let sr := fsteps ops (s', r') in
  (∃ hit, Check org job agent sr.2 = Some hit ∧
          AdmitExecution org job agent sr.2 = (sr.2, Err (ErrFrozen hit))).
Proof.
  intros Hw Hops Hu He Hk sr.
  assert (Hinv : wf_registry sr.2 ∧ is_Some (active sr.2 !! key kind id)).
  { subst sr. apply (fsteps_invariant (λ sr, wf_registry sr.2 ∧ is_Some (active sr.2 !! key kind id))
      (λ op, fop_utf8 op = true ∧ not_lifting (key kind id) op)); [|done|].
    - intros now' op sr [??] [??]. auto using wf_registry_fstep, stays_frozen.
    - split.
      + pose proof (wf_registry_fstep now (FEngage kind id by_ reason) (s, r) Hu Hw) as H.
        cbn in H. by rewrite He in H.
      + unfold Engage in He. destruct (_ || _); [done|].
        destruct (active r !! key kind id) eqn:Ea; [simplify_eq/=; by rewrite Ea|].
        destruct (append_event _ _ _ _) as [s1 [z|er]]; [|done]. simplify_eq/=.
        rewrite lookup_insert_eq. done. }
  destruct Hinv as [Hw' [e' He']]. destruct (Hw' _ _ He') as (_ & Hid & _).
  destruct (first_hit_some (active sr.2) (scopes org job agent) _ _ Hk He' Hid) as [hit Hh].
  exists hit. unfold Check, AdmitExecution. by rewrite Hh.
Qed.

Lemma Engage_then_no_admission_witness :
  let sr := (Engage 1 "job" "j1" "owner" "stop" (MkStore emptyDB []) emptyRegistry).1 in
  ∃ hit, Check "org" "j1" "a" (fsteps [(2, FLift "job" "j2" "owner" "")] sr).2 = Some hit.
Proof.
  destruct (Engage_then_no_admission 1 "job" "j1" "owner" "stop" (MkStore emptyDB []) emptyRegistry
    _ _ _ [(2, FLift "job" "j2" "owner" "")] "org" "j1" "a"
    wf_emptyRegistry
    ltac:(repeat constructor; discriminate) eq_refl eq_refl
    ltac:(right; left)) as (hit & H & _).
  exists hit. exact H.
Defined.

(** ** Replay *)
Definition log_agrees (sr : Store * Registry) : Prop :=
  replay_rows ∅ (filter (λ row, ev_kind row ∈ freeze_kinds) (events (db sr.1))) =
  Some (active sr.2).

Lemma replay_rows_app m rows rows' :
  replay_rows m (rows ++ rows') = replay_rows m rows ≫= λ m', replay_rows m' rows'.
Proof.
  revert m. induction rows as [|row rows IH]; intros m; [done|].
  cbn. destruct (replay_row m row); [apply IH|done].
Qed.

Lemma append_agrees now kind e s s1 r z m :
  log_agrees (s, r) → kind ∈ freeze_kinds → entry_utf8 e = true →
  append_event now kind e s = (s1, Ok z) →
  m = (if bool_decide (kind = "freeze.engaged")
       then <[ key (en_Kind e) (en_ID e) := e ]> (active r)
       else delete (key (en_Kind e) (en_ID e)) (active r)) →
  log_agrees (s1, set_active m r).
Proof.
  intros Hl Hk Hu Ha ->. apply Append_cases in Ha as [[_ Hd]|[[? ?] _]]; [|done].
  unfold log_agrees in *. cbn [fst snd] in *. rewrite Hd. unfold appended. cbn [events].
  rewrite filter_app, replay_rows_app, Hl. cbn [mbind option_bind].
  rewrite filter_cons_True by done. rewrite filter_nil. cbn [replay_rows].
  unfold replay_row. cbn [ev_payload row_of e_Payload].
  by rewrite entry_json_roundtrip.
Qed.

Lemma append_other now kind e s r :
  log_agrees (s, r) → kind ∉ freeze_kinds → log_agrees ((append_event now kind e s).1, r).
Proof.
  intros Hl Hk. destruct (append_event now kind e s) as [s1 z] eqn:E. cbn.
  apply Append_cases in E as [[_ Hd]|[_ Hd]]; unfold log_agrees in *; cbn in *; rewrite Hd; [|done].
  cbn [events appended]. rewrite filter_app, filter_cons_False, app_nil_r by done. done.
Qed.

Lemma append_failed now kind e s s1 r er :
  log_agrees (s, r) → append_event now kind e s = (s1, Err er) → log_agrees (s1, r).
Proof.
  intros Hl E. apply Append_cases in E as [[? _]|[_ Hd]]; [done|].
  unfold log_agrees in *. cbn in *. by rewrite Hd.
Qed.

Lemma set_active_same r : set_active (active r) r = r.
Proof. by destruct r. Qed.

Lemma log_agrees_fstep now op sr :
  fop_utf8 op = true → wf_registry sr.2 → log_agrees sr → log_agrees (fstep now op sr).
Proof.
  destruct sr as [s r]. cbn [snd]. intros Hu Hw Hl. destruct op as [k i b re|k i b re|o j a|h]; cbn.
  - unfold Engage. destruct (_ || _) eqn:Eg; [done|]. destruct (active r !! key k i) eqn:Ea.
    { cbn. apply append_other; [done|]. by apply (bool_decide_eq_false_1 _). }
    destruct (append_event _ _ _ _) as [s1 [z|er]] eqn:E; cbn; [|by eauto using append_failed].
    eapply append_agrees; [done| | |exact E|done]; [by left|exact Hu].
  - unfold Lift. destruct (_ || _) eqn:Eg; [done|]. destruct (active r !! key k i) as [e|] eqn:Ea.
    2: { cbn. apply append_other; [done|]. by apply (bool_decide_eq_false_1 _). }
    destruct (append_event _ _ _ _) as [s1 [z|er]] eqn:E; cbn; [|by eauto using append_failed].
    destruct (Hw _ _ Ea) as (Hkey & _ & Heu).
    eapply append_agrees; [done| | |exact E|rewrite bool_decide_false by done; cbn [en_Kind en_ID]; by rewrite Hkey]; [by right; left|].
    unfold entry_utf8 in *. cbn in *. bool_to_prop. by rewrite !andb_true_iff.
  - unfold AdmitExecution. by destruct (first_hit _ _).
  - unfold release. by destruct (bool_decide _).
Qed.

(** A freeze survives a restart.  After any history of engages, lifts,
    admissions and releases, with any of the store's writes failing, the
    registry rebuilt from the log by a boot that can read it has exactly the
    active freezes the running registry had, and nothing in flight. *)
Lemma replay_restores ops s r fs :
  wf_registry r → log_agrees (s, r) → Forall (λ o, fop_utf8 o.2 = true) ops →
  let sr := fsteps ops (s, r) in
  faults sr.1 = fs → match fs with true :: _ => False | _ => True end →
  ∃ s', NewRegistry sr.1 = (s', Ok (MkRegistry (active sr.2) 0 ∅ 0)) ∧ db s' = db sr.1.
Proof.
  intros Hw Hl Hu sr Hf Hnf.
  assert (Hinv : wf_registry sr.2 ∧ log_agrees sr).
  { subst sr. apply (fsteps_invariant (λ sr, wf_registry sr.2 ∧ log_agrees sr)
      (λ op, fop_utf8 op = true)); [|done|done].
    intros now op sr Hop [??]. auto using wf_registry_fstep, log_agrees_fstep. }
  destruct Hinv as [_ Hag]. clearbody sr. destruct sr as [[d fs'] r']. cbn in Hf. subst fs'.
  unfold log_agrees in Hag. cbn [fst snd db] in *.
  assert (∃ s', QueryEvents freeze_kinds (MkStore d fs) =
    (s', Ok (filter (λ row, ev_kind row ∈ freeze_kinds) (events d))) ∧ db s' = d) as (s' & Hq & Hd).
  { unfold QueryEvents, bindM, stmt. destruct fs as [|[] fs]; [|done|]; cbn; eauto. }
  exists s'. unfold NewRegistry. by rewrite Hq, Hag.
Qed.

Lemma replay_restores_witness :
  ∃ s', NewRegistry (fsteps [(1, FEngage "job" "j1" "owner" "stop"); (2, FAdmit "org" "j2" "a")]
                       (MkStore emptyDB [true; false; false], emptyRegistry)).1 =
    (s', Ok (MkRegistry ∅ 0 ∅ 0)).
Proof.
  destruct (replay_restores [(1, FEngage "job" "j1" "owner" "stop"); (2, FAdmit "org" "j2" "a")]
    (MkStore emptyDB [true; false; false]) emptyRegistry [false; false]
    wf_emptyRegistry eq_refl
    ltac:(repeat constructor) eq_refl I) as (s' & H & _).
  exists s'. exact H.
Defined.
