(* ===== verification/Budget.v ===== *)
(** [internal/budget]: the reservation ledger.

    A ledger is what the source keeps under [l.mu]: the folded entries, the
    org each job was first reserved under and the stall records.  The store is
    threaded beside it.  [clk] is a reading of the ledger's clock.  The three
    error returns that matter carry the source's sentinel; [ErrAppend] wraps a
    store error, and then nothing changed. *)
From S2P Require Import Prelude GoStr GoTime GoJson Intent Policy Store.
From Stdlib Require Import OrderedTypeEx.
#[local] Open Scope Z_scope.

Definition KindReserved : string := "budget.reserved".
Definition KindCommitted : string := "budget.committed".
Definition KindReleased : string := "budget.released".
Definition KindReconcileStalled : string := "budget.reconcile_stalled".
Definition KindChainDivergence : string := "budget.chain_divergence".
Definition kindPaymentExecuting : string := "payment.executing".
Definition actor : string := "funding".
Definition CodeExpiredUnattempted : string := "EXPIRED_UNATTEMPTED".
Definition sweepReason : string :=
  "expired with no execution claim: the approval window elapsed and no payment.executing exists, so Execute can never run this intent (lifecycle refuses execution past expiry unconditionally)".

Inductive BudgetErr :=
| ErrInvalidHold | ErrNoSuchHold | ErrHoldClosed | ErrCommitAfterRelease
| ErrAppend (e : StoreErr) | ErrRead (e : StoreErr) | ErrCorrupt.

Record Hold := MkHold {
  h_RequestID : string; h_IntentID : string; h_JobID : string; h_OrgID : string;
  h_ReserveMicros : Z; h_PaymentID : string; h_Nonce : string; h_Merchant : string;
  h_PayTo : string; h_ExpiresAt : time; h_ReservedAt : time }.
Definition zeroHold : Hold := MkHold "" "" "" "" 0 "" "" "" "" zeroTime zeroTime.

Record entry := MkEntry {
  hold : Hold; reserved : bool; claimed : bool; closedBy : string; committedMicros : Z }.
Definition zeroEntry : entry := MkEntry zeroHold false false "" 0.
Definition is_open (e : entry) : bool := reserved e && bool_decide (closedBy e = "").
(** The entry Go reads through a possibly nil map slot and then writes. *)
Definition slot (m : gmap string entry) (id : string) : entry := default zeroEntry (m !! id).

Definition set_hold (h : Hold) (e : entry) : entry :=
  MkEntry h true (claimed e) (closedBy e) (committedMicros e).
Definition set_claimed (e : entry) : entry :=
  MkEntry (hold e) (reserved e) true (closedBy e) (committedMicros e).
Definition set_committed (paid : Z) (e : entry) : entry :=
  MkEntry (hold e) (reserved e) (claimed e) KindCommitted paid.
Definition set_released (e : entry) : entry :=
  MkEntry (hold e) (reserved e) (claimed e) KindReleased (committedMicros e).

Record Ledger := MkLedger {
  entries : gmap string entry;
  jobOrg : gmap string string;
  stallNoted : gmap string string }.
Definition New : Ledger := MkLedger ∅ ∅ ∅.
Definition set_entries (m : gmap string entry) (l : Ledger) : Ledger :=
  MkLedger m (jobOrg l) (stallNoted l).

(** ** The fold of the log *)
Record eventPayload := MkPayload {
  ep_RequestID : string; ep_IntentID : string; ep_JobID : string; ep_OrgID : string;
  ep_ReservedMicros : Z; ep_PaymentID : string; ep_Nonce : string; ep_Merchant : string;
  ep_PayTo : string; ep_ExpiresAt : Z; ep_CommittedMicros : Z }.
Definition payload_of_json (v : jval) : option eventPayload :=
  r ← dec_str "request_id" v; i ← dec_str "intent_id" v; j ← dec_str "job_id" v;
  o ← dec_str "org_id" v; m ← dec_int "reserved_micros" v; p ← dec_str "payment_id" v;
  n ← dec_str "nonce" v; me ← dec_str "merchant" v; pt ← dec_str "pay_to" v;
  ex ← dec_int "expires_at" v; c ← dec_int "committed_micros" v;
  Some (MkPayload r i j o m p n me pt ex c).

Definition expiryFromUnix (sec : Z) : time := if sec <=? 0 then zeroTime else time_Unix sec.

(** [jobOrg] learns a job's org from its first reserve that names both. *)
Definition learn_org (job org : string) (jo : gmap string string) : gmap string string :=
  if bool_decide (job ≠ "") && bool_decide (org ≠ "") && bool_decide (jo !! job = None)
  then <[ job := org ]> jo else jo.

Definition hold_of_payload (p : eventPayload) (ts : Z) : Hold :=
  MkHold (ep_RequestID p) (ep_IntentID p) (ep_JobID p) (ep_OrgID p) (ep_ReservedMicros p)
    (ep_PaymentID p) (ep_Nonce p) (ep_Merchant p) (ep_PayTo p) (expiryFromUnix (ep_ExpiresAt p))
    (time_UnixMilli ts).

Definition fold_state : Type := gmap string entry * gmap string string.
Definition fold_row (st : fold_state) (row : EventRow) : option fold_state :=
  p ← payload_of_json (ev_payload row);
  let '(m, jo) := st in
  let id := ep_RequestID p in
  if bool_decide (id = "") then Some st else
  let e := slot m id in
  Some (
    if bool_decide (ev_kind row = KindReserved) then
      (<[ id := set_hold (hold_of_payload p (ev_ts row)) e ]> m,
       learn_org (ep_JobID p) (ep_OrgID p) jo)
    else if bool_decide (ev_kind row = KindCommitted) then
      (<[ id := if bool_decide (closedBy e = "") then set_committed (ep_CommittedMicros p) e
                else e ]> m, jo)
    else if bool_decide (ev_kind row = KindReleased) then
      (<[ id := if bool_decide (closedBy e = "") then set_released e else e ]> m, jo)
    else if bool_decide (ev_kind row = kindPaymentExecuting) then
      (<[ id := set_claimed e ]> m, jo)
    else (<[ id := e ]> m, jo)).
Fixpoint fold_rows (st : fold_state) (rows : list EventRow) : option fold_state :=
  match rows with
  | [] => Some st
  | row :: rows => st' ← fold_row st row; fold_rows st' rows
  end.
Definition ledger_kinds : list string :=
  [KindReserved; KindCommitted; KindReleased; kindPaymentExecuting].
Definition fold (s : Store) : Store * result BudgetErr fold_state :=
  match QueryEvents ledger_kinds s with
  | (s1, Err e) => (s1, Err (ErrRead e))
  | (s1, Ok rows) => (s1, match fold_rows (∅, ∅) rows with
                          | Some st => Ok st
                          | None => Err ErrCorrupt
                          end)
  end.
Definition Recover (s : Store) (l : Ledger) : Store * Ledger * option BudgetErr :=
  match fold s with
  | (s1, Err e) => (s1, l, Some e)
  | (s1, Ok (m, jo)) => (s1, MkLedger m jo (stallNoted l), None)
  end.

(** ** Reserve *)
Definition reserved_json (h : Hold) : jval :=
  JObj [("request_id", JStr (h_RequestID h)); ("intent_id", JStr (h_IntentID h));
        ("job_id", JStr (h_JobID h)); ("org_id", JStr (h_OrgID h));
        ("reserved_micros", JInt (h_ReserveMicros h)); ("payment_id", JStr (h_PaymentID h));
        ("nonce", JStr (h_Nonce h)); ("merchant", JStr (h_Merchant h));
        ("pay_to", JStr (h_PayTo h)); ("expires_at", JInt (UnixSec (h_ExpiresAt h)))].
(** The hold at the precision the log keeps. *)
Definition stamp (ts : time) (h : Hold) : Hold :=
  MkHold (h_RequestID h) (h_IntentID h) (h_JobID h) (h_OrgID h) (h_ReserveMicros h)
    (h_PaymentID h) (h_Nonce h) (h_Merchant h) (h_PayTo h)
    (time_Unix (UnixSec (h_ExpiresAt h))) (time_UnixMilli (UnixMilli ts)).
Definition invalid_hold (h : Hold) : bool :=
  bool_decide (h_RequestID h = "") || bool_decide (h_JobID h = "") ||
  (h_ReserveMicros h <=? 0) || IsZero (h_ExpiresAt h).

Definition Reserve (clk : time) (h : Hold) (s : Store) (l : Ledger) :
    Store * Ledger * option BudgetErr :=
  if invalid_hold h then (s, l, Some ErrInvalidHold) else
  let e := slot (entries l) (h_RequestID h) in
  if bool_decide (closedBy e ≠ "") then (s, l, Some ErrHoldClosed) else
  if reserved e then (s, l, None) else
  let h := stamp clk h in
  match Append clk (MkEvent clk KindReserved (h_JobID h) actor (reserved_json h)) s with
  | (s1, Err er) => (s1, l, Some (ErrAppend er))
  | (s1, Ok _) =>
    (s1, MkLedger (<[ h_RequestID h := set_hold h e ]> (entries l))
           (learn_org (h_JobID h) (h_OrgID h) (jobOrg l)) (stallNoted l), None)
  end.

(** ** Commit and Release *)
Definition committed_json (e : entry) (requestID : string) (paid : Z)
    (paymentID receiptHash state : string) : jval :=
  let released := sub64 (h_ReserveMicros (hold e)) paid in
  JObj [("request_id", JStr requestID); ("job_id", JStr (h_JobID (hold e)));
        ("committed_micros", JInt paid);
        ("released_micros", JInt (if released <? 0 then 0 else released));
        ("payment_id", JStr paymentID); ("receipt_hash", JStr receiptHash);
        ("state", JStr state)].
Definition Commit (clk : time) (requestID : string) (paid : Z)
    (paymentID receiptHash state : string) (s : Store) (l : Ledger) :
    Store * Ledger * option BudgetErr :=
  if bool_decide (requestID = "") || (paid <? 0) then (s, l, Some ErrInvalidHold) else
  let e := slot (entries l) requestID in
  if negb (reserved e) then (s, l, Some ErrNoSuchHold) else
  if bool_decide (closedBy e = KindCommitted) then (s, l, None) else
  if bool_decide (closedBy e = KindReleased) then (s, l, Some ErrCommitAfterRelease) else
  match Append clk (MkEvent clk KindCommitted (h_JobID (hold e)) actor
                      (committed_json e requestID paid paymentID receiptHash state)) s with
  | (s1, Err er) => (s1, l, Some (ErrAppend er))
  | (s1, Ok _) => (s1, set_entries (<[ requestID := set_committed paid e ]> (entries l)) l, None)
  end.

Definition released_json (e : entry) (requestID reason code : string) (preSign : bool) : jval :=
  JObj [("request_id", JStr requestID); ("job_id", JStr (h_JobID (hold e)));
        ("released_micros", JInt (h_ReserveMicros (hold e)));
        ("payment_id", JStr (h_PaymentID (hold e))); ("reason", JStr reason);
        ("code", JStr code); ("pre_sign", JBool preSign)].
Definition Release (clk : time) (requestID reason code : string) (preSign : bool)
    (s : Store) (l : Ledger) : Store * Ledger * option BudgetErr :=
  if bool_decide (requestID = "") then (s, l, Some ErrInvalidHold) else
  let e := slot (entries l) requestID in
  if negb (reserved e) then (s, l, Some ErrNoSuchHold) else
  if bool_decide (closedBy e ≠ "") then (s, l, None) else
  match Append clk (MkEvent clk KindReleased (h_JobID (hold e)) actor
                      (released_json e requestID reason code preSign)) s with
  | (s1, Err er) => (s1, l, Some (ErrAppend er))
  | (s1, Ok _) => (s1, set_entries (<[ requestID := set_released e ]> (entries l)) l, None)
  end.

(** ** Sweep *)
Fixpoint claim_ids (rows : list EventRow) : option (list string) :=
  match rows with
  | [] => Some []
  | row :: rows =>
    p ← payload_of_json (ev_payload row);
    ids ← claim_ids rows;
    Some (if bool_decide (ep_RequestID p = "") then ids else ep_RequestID p :: ids)
  end.
Definition mark_claimed (ids : list string) (m : gmap string entry) : gmap string entry :=
  foldl (λ m id, <[ id := set_claimed (slot m id) ]> m) m ids.
Definition refreshClaims (s : Store) (l : Ledger) : Store * Ledger * option BudgetErr :=
  match QueryEvents [kindPaymentExecuting] s with
  | (s1, Err e) => (s1, l, Some (ErrRead e))
  | (s1, Ok rows) =>
    match claim_ids rows with
    | None => (s1, l, Some ErrCorrupt)
    | Some ids => (s1, set_entries (mark_claimed ids (entries l)) l, None)
    end
  end.

Definition sweepable (now : time) (e : entry) : bool :=
  is_open e && negb (claimed e) && negb (IsZero (h_ExpiresAt (hold e))) &&
  negb (Before now (h_ExpiresAt (hold e))).
Definition dead_ids (now : time) (l : Ledger) : list string :=
  sort_Strings (fst <$> filter (λ kv, sweepable now kv.2 = true) (map_to_list (entries l))).
Fixpoint sweep_release (clk : time) (claimedHook : option (string → bool)) (ids : list string)
    (n : nat) (s : Store) (l : Ledger) : Store * Ledger * (nat * option BudgetErr) :=
  match ids with
  | [] => (s, l, (n, None))
  | id :: ids =>
    if match claimedHook with Some f => f id | None => false end
    then sweep_release clk claimedHook ids n s l
    else match Release clk id sweepReason CodeExpiredUnattempted true s l with
         | (s1, l1, Some e) => (s1, l1, (n, Some e))
         | (s1, l1, None) => sweep_release clk claimedHook ids (S n) s1 l1
         end
  end.
Definition Sweep (now clk : time) (claimedHook : option (string → bool)) (s : Store) (l : Ledger) :
    Store * Ledger * (nat * option BudgetErr) :=
  match refreshClaims s l with
  | (s1, l1, Some e) => (s1, l1, (O, Some e))
  | (s1, l1, None) => sweep_release clk claimedHook (dead_ids now l1) O s1 l1
  end.

(** ** Unresolved and stalled holds *)
Definition hold_before (a b : Hold) : bool :=
  if h_ReservedAt a =? h_ReservedAt b then String.ltb (h_RequestID a) (h_RequestID b)
  else Before (h_ReservedAt a) (h_ReservedAt b).
Definition claimedOpen (olderThan : duration) (now : time) (l : Ledger) : list Hold :=
  isort hold_before
    (hold ∘ snd <$> filter (λ kv, is_open kv.2 && claimed kv.2 &&
        negb ((0 <? olderThan) && (time_Sub now (h_ReservedAt (hold kv.2)) <? olderThan)) = true)
      (map_to_list (entries l))).
Definition Unresolved (l : Ledger) : list Hold := claimedOpen 0 zeroTime l.
Definition StalledSince (d : duration) (now : time) (l : Ledger) : list Hold := claimedOpen d now l.

(** ** Spend *)
Definition satAdd (a b : Z) : Z :=
  if (0 <? b) && (sub64 max_int64 b <? a) then max_int64 else add64 a b.
(** What an entry counts for. *)
Definition amount (e : entry) : Z :=
  if is_open e then h_ReserveMicros (hold e) else committedMicros e.
Definition spend_one (jobID orgID : string) (windowStart : Z) (st : SpendState) (e : entry) :
    SpendState :=
  if negb (reserved e) then st else
  if amount e <=? 0 then st else
  let st := if bool_decide (h_JobID (hold e) = jobID)
            then MkSpendState (satAdd (JobCommittedMicros st) (amount e)) (DailySpentMicros st)
            else st in
  if bool_decide (orgID ≠ "") && bool_decide (h_OrgID (hold e) ≠ orgID) then st else
  if windowStart <=? UnixMilli (h_ReservedAt (hold e))
  then MkSpendState (JobCommittedMicros st) (satAdd (DailySpentMicros st) (amount e))
  else st.
(** The loop over the entries in some order [es] of the map's iteration. *)
Definition spend_over (clk : time) (jobID : string) (l : Ledger) (es : list entry) : SpendState :=
  let windowStart := UnixMilli (DailyWindowStartUTC clk) in
  let orgID := default "" (jobOrg l !! jobID) in
  foldl (spend_one jobID orgID windowStart) (MkSpendState 0 0) es.
Definition Spend (clk : time) (jobID : string) (l : Ledger) : SpendState :=
  spend_over clk jobID l (snd <$> map_to_list (entries l)).

(** ** Records for the owner *)
Definition stalled_json (h : Hold) (state : string) : jval :=
  JObj [("request_id", JStr (h_RequestID h)); ("job_id", JStr (h_JobID h));
        ("held_micros", JInt (h_ReserveMicros h)); ("payment_id", JStr (h_PaymentID h));
        ("state", JStr state); ("held_since", JInt (UnixSec (h_ReservedAt h)))].
Definition NoteReconcileStalled (clk : time) (h : Hold) (state : string) (s : Store) (l : Ledger) :
    Store * Ledger * option BudgetErr :=
  if bool_decide (h_RequestID h = "") then (s, l, Some ErrInvalidHold) else
  if bool_decide (stallNoted l !! h_RequestID h = Some state) then (s, l, None) else
  match Append clk (MkEvent clk KindReconcileStalled (h_JobID h) actor (stalled_json h state)) s with
  | (s1, Err er) => (s1, l, Some (ErrAppend er))
  | (s1, Ok _) =>
    (s1, MkLedger (entries l) (jobOrg l) (<[ h_RequestID h := state ]> (stallNoted l)), None)
  end.
Definition NoteChainDivergence (clk : time) (jobID vaultJobID : string) (chain daemon : Z)
    (s : Store) (l : Ledger) : Store * Ledger * option BudgetErr :=
  if bool_decide (jobID = "") then (s, l, Some ErrInvalidHold) else
  match Append clk (MkEvent clk KindChainDivergence jobID actor
      (JObj [("job_id", JStr jobID); ("vault_job_id", JStr vaultJobID);
             ("chain_budget_micros", JInt chain); ("daemon_budget_micros", JInt daemon)])) s with
  | (s1, Err er) => (s1, l, Some (ErrAppend er))
  | (s1, Ok _) => (s1, l, None)
  end.

(** ** Claims commute with everything else *)
Lemma slot_insert m id e : slot (<[ id := e ]> m) id = e.
Proof. unfold slot. by rewrite lookup_insert_eq. Qed.
Lemma slot_insert_ne m id id' e : id ≠ id' → slot (<[ id := e ]> m) id' = slot m id'.
Proof. intros. unfold slot. by rewrite lookup_insert_ne. Qed.

Lemma mark_claimed_lookup ids m id :
  mark_claimed ids m !! id =
    if bool_decide (id ∈ ids) then Some (set_claimed (slot m id)) else m !! id.
Proof.
  revert m. induction ids as [|i ids IH]; intros m; [done|].
  unfold mark_claimed in *. cbn [foldl]. rewrite IH.
  destruct (decide (i = id)) as [->|Hne].
  - rewrite (bool_decide_true (id ∈ id :: ids)) by (by left).
    rewrite slot_insert, lookup_insert_eq. by case_bool_decide.
  - rewrite slot_insert_ne, lookup_insert_ne by done.
    rewrite (bool_decide_ext (id ∈ ids) (id ∈ i :: ids)) by (rewrite elem_of_cons; split; [by right|intros [->|?]; done]). done.
Qed.

Lemma slot_mark ids m id :
  slot (mark_claimed ids m) id =
    if bool_decide (id ∈ ids) then set_claimed (slot m id) else slot m id.
Proof. unfold slot at 1. rewrite mark_claimed_lookup. by case_bool_decide. Qed.

Lemma mark_claimed_insert ids m id e :
  mark_claimed ids (<[ id := e ]> m) =
    <[ id := if bool_decide (id ∈ ids) then set_claimed e else e ]> (mark_claimed ids m).
Proof.
  apply map_eq. intros j. rewrite mark_claimed_lookup.
  destruct (decide (id = j)) as [->|Hne].
  - rewrite slot_insert, !lookup_insert_eq. by case_bool_decide.
  - rewrite slot_insert_ne, !lookup_insert_ne, mark_claimed_lookup by done. done.
Qed.

(** An update that does not look at the claim commutes with claiming. *)
Lemma mark_claimed_update ids m id (f : entry → entry) :
  (∀ e, f (set_claimed e) = set_claimed (f e)) →
  <[ id := f (slot (mark_claimed ids m) id) ]> (mark_claimed ids m) =
  mark_claimed ids (<[ id := f (slot m id) ]> m).
Proof.
  intros Hf. rewrite mark_claimed_insert, slot_mark. case_bool_decide; [by rewrite Hf|done].
Qed.

Lemma closedBy_mark ids m id : closedBy (slot (mark_claimed ids m) id) = closedBy (slot m id).
Proof. rewrite slot_mark. by case_bool_decide. Qed.

Lemma mark_claimed_snoc ids id m :
  mark_claimed (ids ++ [id]) m =
  <[ id := set_claimed (slot (mark_claimed ids m) id) ]> (mark_claimed ids m).
Proof. unfold mark_claimed. by rewrite foldl_app. Qed.

Lemma claim_ids_app rows rows' :
  claim_ids (rows ++ rows') =
  ids ← claim_ids rows; ids' ← claim_ids rows'; Some (ids ++ ids').
Proof.
  induction rows as [|row rows IH]; cbn; [by destruct (claim_ids rows')|].
  destruct (payload_of_json _) as [p|]; [|done]. cbn. rewrite IH.
  destruct (claim_ids rows) as [ids|]; [|done]. cbn.
  destruct (claim_ids rows') as [ids'|]; [|done]. cbn. by case_bool_decide.
Qed.

Lemma fold_rows_app st rows rows' :
  fold_rows st (rows ++ rows') = fold_rows st rows ≫= λ st', fold_rows st' rows'.
Proof.
  revert st. induction rows as [|row rows IH]; intros st; [done|].
  cbn. destruct (fold_row st row); [apply IH|done].
Qed.

(** ** The ledger and its log *)
(** The log folds to the live ledger with the log's claims merged in. *)
Definition ledger_rows (d : DB) : list EventRow :=
  filter (λ r, ev_kind r ∈ ledger_kinds) (events d).
Definition claim_rows (d : DB) : list EventRow :=
  filter (λ r, ev_kind r ∈ [kindPaymentExecuting]) (events d).
Definition consistent (s : Store) (l : Ledger) : Prop :=
  ∃ ids, claim_ids (claim_rows (db s)) = Some ids ∧
    fold_rows (∅, ∅) (ledger_rows (db s)) = Some (mark_claimed ids (entries l), jobOrg l).
(** Reserved entries are filed under a key that survives JSON, a hold is open
    or closed by one of the two closing kinds, and the figures are [int64]. *)
Definition wf_entry (id : string) (e : entry) : Prop :=
  (reserved e = true → id ≠ "" ∧ valid_utf8 id = true) ∧
  (closedBy e = "" ∨ closedBy e = KindCommitted ∨ closedBy e = KindReleased) ∧
  h_ReserveMicros (hold e) ≤ max_int64 ∧ committedMicros e ≤ max_int64.
Definition wf_ledger (l : Ledger) : Prop := map_Forall wf_entry (entries l).

Definition hold_utf8 (h : Hold) : bool :=
  forallb valid_utf8 [h_RequestID h; h_IntentID h; h_JobID h; h_OrgID h; h_PaymentID h;
                      h_Nonce h; h_Merchant h; h_PayTo h].

Lemma reserved_json_decode h :
  hold_utf8 h = true →
  payload_of_json (json_Marshal (reserved_json h)) =
  Some (MkPayload (h_RequestID h) (h_IntentID h) (h_JobID h) (h_OrgID h) (h_ReserveMicros h)
          (h_PaymentID h) (h_Nonce h) (h_Merchant h) (h_PayTo h) (UnixSec (h_ExpiresAt h)) 0).
Proof.
  unfold hold_utf8. cbn [forallb]. intros H. bool_to_prop.
  unfold payload_of_json, dec_str, dec_int. cbn. by rewrite !utf8_clean_valid.
Qed.

Lemma committed_json_decode e id paid pid rh st :
  valid_utf8 id = true →
  ∃ p, payload_of_json (json_Marshal (committed_json e id paid pid rh st)) = Some p ∧
       ep_RequestID p = id ∧ ep_CommittedMicros p = paid.
Proof.
  intros Hv. unfold committed_json, payload_of_json, dec_str, dec_int. cbn.
  rewrite (utf8_clean_valid id) by done. eauto.
Qed.

Lemma released_json_decode e id re code pre :
  valid_utf8 id = true →
  ∃ p, payload_of_json (json_Marshal (released_json e id re code pre)) = Some p ∧
       ep_RequestID p = id.
Proof.
  intros Hv. unfold released_json, payload_of_json, dec_str, dec_int. cbn.
  rewrite (utf8_clean_valid id) by done. eauto.
Qed.

Lemma stamp_hold ts h :
  0 < UnixSec (h_ExpiresAt h) →
  hold_of_payload (MkPayload (h_RequestID h) (h_IntentID h) (h_JobID h) (h_OrgID h)
    (h_ReserveMicros h) (h_PaymentID h) (h_Nonce h) (h_Merchant h) (h_PayTo h)
    (UnixSec (h_ExpiresAt (stamp ts h))) 0) (UnixMilli ts) = stamp ts h.
Proof.
  intros Hx. unfold hold_of_payload, stamp, expiryFromUnix. cbn.
  rewrite UnixSec_roundtrip. by rewrite (proj2 (Z.leb_gt _ _)).
Qed.

Lemma ledger_rows_append d clk ev :
  ledger_rows (appended d clk ev) =
  ledger_rows d ++ (if bool_decide (e_Kind ev ∈ ledger_kinds) then [row_of d clk ev] else []).
Proof.
  unfold ledger_rows, appended. cbn [events]. rewrite filter_app. f_equal.
  case_bool_decide; [by rewrite filter_cons_True | by rewrite filter_cons_False].
Qed.
Lemma claim_rows_append d clk ev :
  claim_rows (appended d clk ev) =
  claim_rows d ++ (if bool_decide (e_Kind ev = kindPaymentExecuting) then [row_of d clk ev] else []).
Proof.
  unfold claim_rows, appended. cbn [events]. rewrite filter_app. f_equal.
  case_bool_decide as H; [rewrite filter_cons_True | rewrite filter_cons_False]; try done;
    cbn; rewrite list_elem_of_singleton; done.
Qed.

(** A ledger write keeps log and ledger consistent when its row folds to the
    new entries. *)
Lemma consistent_write s s1 l m' jo' sn clk ev :
  consistent s l → db s1 = appended (db s) clk ev →
  e_Kind ev ∈ ledger_kinds → e_Kind ev ≠ kindPaymentExecuting →
  (∀ ids, fold_row (mark_claimed ids (entries l), jobOrg l) (row_of (db s) clk ev) =
          Some (mark_claimed ids m', jo')) →
  consistent s1 (MkLedger m' jo' sn).
Proof.
  intros (ids & Hc & Hf) Hd Hk Hne Hrow. exists ids. rewrite Hd, claim_rows_append, ledger_rows_append.
  rewrite (bool_decide_false (e_Kind ev = _)), app_nil_r by done. split; [done|].
  rewrite (bool_decide_true (e_Kind ev ∈ _)) by done. rewrite fold_rows_app, Hf.
  cbn [mbind option_bind fold_rows]. by rewrite Hrow.
Qed.

Lemma consistent_same_db s s1 l : consistent s l → db s1 = db s → consistent s1 l.
Proof. intros Hc Hd. unfold consistent in *. by rewrite Hd. Qed.

Lemma consistent_other s s1 l clk ev :
  consistent s l → db s1 = appended (db s) clk ev → e_Kind ev ∉ ledger_kinds → consistent s1 l.
Proof.
  intros (ids & Hc & Hf) Hd Hk. exists ids. rewrite Hd, claim_rows_append, ledger_rows_append.
  rewrite (bool_decide_false (e_Kind ev ∈ _)) by done.
  rewrite bool_decide_false, !app_nil_r; [done|]. intros He. apply Hk. rewrite He. set_solver.
Qed.

Lemma consistent_claim s s1 l clk ev p :
  consistent s l → db s1 = appended (db s) clk ev → e_Kind ev = kindPaymentExecuting →
  payload_of_json (json_Marshal (e_Payload ev)) = Some p → consistent s1 l.
Proof.
  intros (ids & Hc & Hf) Hd Hk Hp.
  exists (ids ++ (if bool_decide (ep_RequestID p = "") then [] else [ep_RequestID p])).
  rewrite Hd, claim_rows_append, ledger_rows_append.
  rewrite (bool_decide_true (e_Kind ev = _)) by done.
  rewrite (bool_decide_true (e_Kind ev ∈ _)) by (rewrite Hk; set_solver).
  rewrite claim_ids_app, Hc, fold_rows_app, Hf.
  cbn [mbind option_bind claim_ids fold_rows].
  unfold fold_row. cbn [ev_payload ev_kind row_of]. rewrite Hp, Hk.
  cbn [mbind option_bind].
  case_bool_decide; cbn; [by rewrite app_nil_r|]. split; [done|]. by rewrite mark_claimed_snoc.
Qed.

(** ** Each operation keeps the log and the ledger consistent *)
Lemma Reserve_cases clk h s l s' l' r :
  Reserve clk h s l = (s', l', r) →
  (l' = l ∧ db s' = db s) ∨
  (invalid_hold h = false ∧ closedBy (slot (entries l) (h_RequestID h)) = "" ∧
   reserved (slot (entries l) (h_RequestID h)) = false ∧ r = None ∧
   db s' = appended (db s) clk
             (MkEvent clk KindReserved (h_JobID h) actor (reserved_json (stamp clk h))) ∧
   l' = MkLedger (<[ h_RequestID h := set_hold (stamp clk h) (slot (entries l) (h_RequestID h)) ]>
                    (entries l))
          (learn_org (h_JobID h) (h_OrgID h) (jobOrg l)) (stallNoted l)).
Proof.
  unfold Reserve. destruct (invalid_hold h) eqn:Ei; [intros; simplify_eq; auto|].
  case_bool_decide as Hcl; [intros; simplify_eq; auto|].
  destruct (reserved _) eqn:Er; [intros; simplify_eq; auto|].
  destruct (Append _ _ _) as [s1 [z|er]] eqn:Ea; apply Append_cases in Ea as [[? Hd]|[[? ?] Hd]];
    try done; intros; simplify_eq/=; [right|left; auto].
  auto 10.
Qed.

Lemma Commit_cases clk id paid pid rh st s l s' l' r :
  Commit clk id paid pid rh st s l = (s', l', r) →
  let e := slot (entries l) id in
  (l' = l ∧ db s' = db s) ∨
  (id ≠ "" ∧ 0 ≤ paid ∧ reserved e = true ∧ closedBy e ≠ KindCommitted ∧ closedBy e ≠ KindReleased ∧
   r = None ∧
   db s' = appended (db s) clk
     (MkEvent clk KindCommitted (h_JobID (hold e)) actor (committed_json e id paid pid rh st)) ∧
   l' = set_entries (<[ id := set_committed paid e ]> (entries l)) l).
Proof.
  unfold Commit. cbv zeta. destruct (_ || _) eqn:Eg; [intros; simplify_eq; auto|].
  bool_to_prop. destruct (reserved _) eqn:Er; cbn [negb]; [|intros; simplify_eq; auto].
  case_bool_decide as H1; [intros; simplify_eq; auto|].
  case_bool_decide as H2; [intros; simplify_eq; auto|].
  destruct (Append _ _ _) as [s1 [z|er]] eqn:Ea; apply Append_cases in Ea as [[? Hd]|[[? ?] Hd]];
    try done; intros; simplify_eq/=; [right|left; auto].
  split_and!; done.
Qed.

Lemma Release_cases clk id re code pre s l s' l' r :
  Release clk id re code pre s l = (s', l', r) →
  let e := slot (entries l) id in
  (l' = l ∧ db s' = db s ∧ (r = None → reserved e = true ∧ closedBy e ≠ "")) ∨
  (id ≠ "" ∧ reserved e = true ∧ closedBy e = "" ∧ r = None ∧
   db s' = appended (db s) clk
     (MkEvent clk KindReleased (h_JobID (hold e)) actor (released_json e id re code pre)) ∧
   l' = set_entries (<[ id := set_released e ]> (entries l)) l).
Proof.
  unfold Release. cbv zeta. destruct (bool_decide (id = "")) eqn:Hid; bool_to_prop;
    [intros; simplify_eq; left; repeat split; done|].
  destruct (reserved _) eqn:Er; cbn [negb]; [|intros; simplify_eq; left; repeat split; done].
  destruct (bool_decide (_ ≠ "")) eqn:H1; bool_to_prop; [intros; simplify_eq; auto|].
  destruct (Append _ _ _) as [s1 [z|er]] eqn:Ea; apply Append_cases in Ea as [[? Hd]|[[? ?] Hd]];
    try done; intros; simplify_eq/=; [right|left; repeat split; done].
  apply dec_stable in H1. split_and!; done.
Qed.

Lemma learn_org_job job org jo : job ≠ "" →
  learn_org job org jo =
  if bool_decide (org ≠ "") && bool_decide (jo !! job = None) then <[ job := org ]> jo else jo.
Proof. intros. unfold learn_org. by rewrite (bool_decide_true (job ≠ "")). Qed.

Definition hold_loggable (h : Hold) : Prop :=
  hold_utf8 h = true ∧ 0 < UnixSec (h_ExpiresAt h) ∧ h_ReserveMicros h ≤ max_int64.

Lemma Reserve_consistent clk h s l s' l' r :
  hold_loggable h → consistent s l → Reserve clk h s l = (s', l', r) → consistent s' l'.
Proof.
  intros (Hu & Hx & _) Hc H. apply Reserve_cases in H as [[-> Hd]|(Hi & Hcl & Hr & -> & Hd & ->)];
    [by eapply consistent_same_db|].
  eapply consistent_write; [done|exact Hd|cbn; set_solver|done|]. intros ids.
  unfold fold_row. cbn [ev_payload row_of e_Payload ev_kind e_Kind ev_ts e_TS].
  rewrite reserved_json_decode by done. cbn [mbind option_bind ep_RequestID].
  unfold invalid_hold in Hi. bool_to_prop. cbn [stamp h_RequestID] in *.
  rewrite bool_decide_false by done. rewrite bool_decide_true by done.
  replace (if IsZero clk then clk else clk) with clk by (by destruct (IsZero clk)).
  replace (hold_of_payload _ _) with (stamp clk h) by (symmetry; exact (stamp_hold clk h Hx)).
  cbn [ep_JobID ep_OrgID].
  by rewrite (mark_claimed_update ids (entries l) (h_RequestID h) (set_hold (stamp clk h))).
Qed.

Lemma reserved_key l id : wf_ledger l → reserved (slot (entries l) id) = true →
  id ≠ "" ∧ valid_utf8 id = true.
Proof.
  intros Hw. unfold slot. destruct (entries l !! id) as [e|] eqn:E; [|done].
  apply Hw in E as [E _]. exact E.
Qed.

Lemma slot_closedBy l id : wf_ledger l →
  let c := closedBy (slot (entries l) id) in c = "" ∨ c = KindCommitted ∨ c = KindReleased.
Proof.
  intros Hw. unfold slot. destruct (entries l !! id) as [e|] eqn:E; [|by left].
  apply Hw in E as (_ & E & _). exact E.
Qed.

Lemma Commit_consistent clk id paid pid rh st s l s' l' r :
  wf_ledger l → consistent s l → Commit clk id paid pid rh st s l = (s', l', r) →
  consistent s' l'.
Proof.
  intros Hw Hc H. apply Commit_cases in H as [[-> Hd]|(Hi & Hp & Hr & H1 & H2 & -> & Hd & ->)];
    [by eapply consistent_same_db|].
  destruct (reserved_key _ _ Hw Hr) as [_ Hv].
  assert (Hopen : closedBy (slot (entries l) id) = "")
    by (destruct (slot_closedBy l id Hw) as [?|[?|?]]; done).
  unfold set_entries. eapply consistent_write; [done|exact Hd|cbn; set_solver|done|]. intros ids.
  unfold fold_row. cbn [ev_payload row_of e_Payload ev_kind e_Kind ev_ts e_TS].
  destruct (committed_json_decode (slot (entries l) id) id paid pid rh st Hv) as (p & -> & Hpid & Hpc).
  cbn [mbind option_bind]. rewrite Hpid, Hpc.
  rewrite bool_decide_false by done. rewrite bool_decide_false, bool_decide_true by done.
  rewrite (bool_decide_true (closedBy _ = "")) by (by rewrite closedBy_mark).
  by rewrite (mark_claimed_update ids (entries l) id (set_committed paid)).
Qed.

Lemma Release_consistent clk id re code pre s l s' l' r :
  wf_ledger l → consistent s l → Release clk id re code pre s l = (s', l', r) → consistent s' l'.
Proof.
  intros Hw Hc H. apply Release_cases in H as [(-> & Hd & _)|(Hi & Hr & Hopen & -> & Hd & ->)];
    [by eapply consistent_same_db|].
  destruct (reserved_key _ _ Hw Hr) as [_ Hv].
  unfold set_entries. eapply consistent_write; [done|exact Hd|cbn; set_solver|done|]. intros ids.
  unfold fold_row. cbn [ev_payload row_of e_Payload ev_kind e_Kind ev_ts e_TS].
  destruct (released_json_decode (slot (entries l) id) id re code pre Hv) as (p & -> & Hpid).
  cbn [mbind option_bind]. rewrite Hpid.
  rewrite bool_decide_false by done.
  rewrite (bool_decide_false (KindReleased = KindReserved)), (bool_decide_false (KindReleased = KindCommitted)),
    (bool_decide_true (KindReleased = KindReleased)) by done.
  rewrite (bool_decide_true (closedBy _ = "")) by (by rewrite closedBy_mark).
  by rewrite (mark_claimed_update ids (entries l) id set_released).
Qed.

Lemma refreshClaims_cases s l s' l' r :
  refreshClaims s l = (s', l', r) →
  db s' = db s ∧
  (l' = l ∧ r ≠ None ∨
   ∃ ids, claim_ids (claim_rows (db s)) = Some ids ∧ r = None ∧
          l' = set_entries (mark_claimed ids (entries l)) l).
Proof.
  unfold refreshClaims. destruct (QueryEvents _ s) as [s1 q] eqn:Eq.
  apply QueryEvents_cases in Eq as [Hd [-> | ->]]; [|intros; simplify_eq; auto].
  fold (claim_rows (db s)). destruct (claim_ids _); intros; simplify_eq; eauto 10.
Qed.

Lemma mark_claimed_idemp ids m : mark_claimed ids (mark_claimed ids m) = mark_claimed ids m.
Proof.
  apply map_eq. intros id. rewrite !mark_claimed_lookup, slot_mark. by case_bool_decide.
Qed.

Lemma refreshClaims_consistent s l s' l' r :
  consistent s l → refreshClaims s l = (s', l', r) → consistent s' l'.
Proof.
  intros Hc H. apply refreshClaims_cases in H as (Hd & [(-> & _)|(ids & Hi & -> & ->)]);
    eapply consistent_same_db; eauto.
  destruct Hc as (ids' & Hi' & Hf). exists ids. split; [done|].
  rewrite Hi in Hi'. simplify_eq. cbn. by rewrite mark_claimed_idemp.
Qed.

(** ** Well-formedness *)
Lemma wf_insert l id e jo sn :
  wf_ledger l → wf_entry id e → wf_ledger (MkLedger (<[ id := e ]> (entries l)) jo sn).
Proof. intros. by apply map_Forall_insert_2. Qed.
Lemma wf_slot l id : wf_ledger l → wf_entry id (slot (entries l) id).
Proof.
  intros Hw. unfold slot. destruct (entries l !! id) eqn:E; [by apply Hw|].
  split_and!; [done|by left|done..].
Qed.
Lemma wf_mark ids l : wf_ledger l → wf_ledger (set_entries (mark_claimed ids (entries l)) l).
Proof.
  intros Hw id e. cbn. rewrite mark_claimed_lookup. case_bool_decide; intros; simplify_eq.
  - by apply (wf_slot l id).
  - by apply Hw.
Qed.
Lemma Reserve_wf clk h s l s' l' r :
  hold_loggable h → wf_ledger l → Reserve clk h s l = (s', l', r) → wf_ledger l'.
Proof.
  intros (Hu & _ & Hm) Hw H. apply Reserve_cases in H as [[-> _]|(Hi & Hcl & _ & _ & _ & ->)]; [done|].
  apply wf_insert; [done|]. destruct (wf_slot l (h_RequestID h) Hw) as (_ & Hc & _ & Hp).
  split_and!; try done. intros _.
  unfold invalid_hold in Hi. unfold hold_utf8 in Hu. cbn [forallb] in Hu. bool_to_prop. done.
Qed.
Lemma Commit_wf clk id paid pid rh st s l s' l' r :
  paid ≤ max_int64 → wf_ledger l → Commit clk id paid pid rh st s l = (s', l', r) → wf_ledger l'.
Proof.
  intros Hp Hw H. apply Commit_cases in H as [[-> _]|(_ & _ & Hr & _ & _ & _ & _ & ->)]; [done|].
  apply wf_insert; [done|]. destruct (wf_slot l id Hw) as (_ & Hc & Hh & _).
  split_and!; try done; [|by right; left]. intros _. by apply (reserved_key l).
Qed.
Lemma Release_wf clk id re code pre s l s' l' r :
  wf_ledger l → Release clk id re code pre s l = (s', l', r) → wf_ledger l'.
Proof.
  intros Hw H. apply Release_cases in H as [(-> & _)|(_ & Hr & _ & _ & _ & ->)]; [done|].
  apply wf_insert; [done|]. destruct (wf_slot l id Hw) as (_ & Hc & Hh & Hp).
  split_and!; try done; [|by right; right]. intros _. by apply (reserved_key l).
Qed.

(** What a sweep does is a claim refresh followed by some releases. *)
Lemma sweep_release_invariant (P : Store → Ledger → Prop) clk hook ids n s l s' l' r :
  (∀ id s l s' l' r, In id ids → P s l →
     match hook with Some f => f id = false | None => True end →
     Release clk id sweepReason CodeExpiredUnattempted true s l = (s', l', r) → P s' l') →
  P s l → sweep_release clk hook ids n s l = (s', l', r) → P s' l'.
Proof.
  intros HP. revert n s l. induction ids as [|id ids IH]; intros n s l Hp H; cbn in H;
    [by simplify_eq|].
  destruct (match hook with Some f => f id | None => false end) eqn:Eh.
  { eapply IH; [|exact Hp|exact H]. intros; eapply HP; eauto. by right. }
  assert (Hh : match hook with Some f => f id = false | None => True end) by by destruct hook.
  destruct (Release _ _ _ _ _ s l) as [[s1 l1] [e|]] eqn:Er.
  - simplify_eq. eapply HP; [| | |exact Er]; eauto. by left.
  - eapply IH; [|eapply HP; [| | |exact Er]; eauto; by left|exact H].
    intros; eapply HP; eauto. by right.
Qed.

Lemma Sweep_invariant (P : Store → Ledger → Prop) now clk hook s l s' l' r :
  (∀ s l s' l' r, P s l → refreshClaims s l = (s', l', r) → P s' l') →
  (∀ id s l s' l' r, P s l →
     Release clk id sweepReason CodeExpiredUnattempted true s l = (s', l', r) → P s' l') →
  P s l → Sweep now clk hook s l = (s', l', r) → P s' l'.
Proof.
  intros Href Hrel Hp H. unfold Sweep in H.
  destruct (refreshClaims s l) as [[s1 l1] [e|]] eqn:E; [simplify_eq; by eapply Href|].
  eapply sweep_release_invariant; [|by eapply Href|exact H]. intros; by eapply Hrel.
Qed.

(** ** Histories *)
Inductive lop :=
| LReserve (clk : time) (h : Hold)
| LCommit (clk : time) (id : string) (paid : Z) (pid rh st : string)
| LRelease (clk : time) (id reason code : string) (pre : bool)
| LSweep (now clk : time) (hook : option (string → bool))
| LNoteStalled (clk : time) (h : Hold) (state : string)
| LNoteDivergence (clk : time) (job vault : string) (chain daemon : Z)
| LForeign (wall : time) (ev : Event)
| LRestart.
(** [LForeign] is an append by another component.  [LRestart] is a boot: the
    ledger is folded from the log alone; a boot that cannot read the log does
    not serve, which is no step at all. *)
Definition restart (s : Store) (l : Ledger) : Store * Ledger :=
  match Recover s New with
  | (s1, l1, None) => (s1, l1)
  | (s1, _, Some _) => (s1, l)
  end.
Definition lstep (op : lop) (s : Store) (l : Ledger) : Store * Ledger :=
  match op with
  | LReserve clk h => (Reserve clk h s l).1
  | LCommit clk id paid pid rh st => (Commit clk id paid pid rh st s l).1
  | LRelease clk id re code pre => (Release clk id re code pre s l).1
  | LSweep now clk hook => (Sweep now clk hook s l).1
  | LNoteStalled clk h st => (NoteReconcileStalled clk h st s l).1
  | LNoteDivergence clk j v c d => (NoteChainDivergence clk j v c d s l).1
  | LForeign wall ev => ((Append wall ev s).1, l)
  | LRestart => restart s l
  end.
Fixpoint lsteps (ops : list lop) (s : Store) (l : Ledger) : Store * Ledger :=
  match ops with
  | [] => (s, l)
  | op :: ops => let '(s1, l1) := lstep op s l in lsteps ops s1 l1
  end.
(** Reserved holds are text and expire after 1970; no other component writes
    the ledger's own kinds, and an execution claim is a JSON object whose
    [request_id] is a string. *)
Definition lop_ok (op : lop) : Prop :=
  match op with
  | LReserve _ h => hold_loggable h
  | LCommit _ _ paid _ _ _ => paid ≤ max_int64
  | LForeign _ ev =>
    (e_Kind ev ∉ [KindReserved; KindCommitted; KindReleased]) ∧
    (e_Kind ev = kindPaymentExecuting → is_Some (payload_of_json (json_Marshal (e_Payload ev))))
  | _ => True
  end.
Definition sound (s : Store) (l : Ledger) : Prop := consistent s l ∧ wf_ledger l.

Lemma Note_cases clk h st s l s' l' r :
  NoteReconcileStalled clk h st s l = (s', l', r) →
  entries l' = entries l ∧ jobOrg l' = jobOrg l ∧
  (db s' = db s ∨ db s' = appended (db s) clk
     (MkEvent clk KindReconcileStalled (h_JobID h) actor (stalled_json h st))).
Proof.
  unfold NoteReconcileStalled. destruct (bool_decide (_ = "")); [intros; simplify_eq; auto|].
  destruct (bool_decide _); [intros; simplify_eq; auto|].
  destruct (Append _ _ _) as [s1 [z|er]] eqn:Ea; apply Append_cases in Ea as [[? Hd]|[[? ?] Hd]];
    try done; intros; simplify_eq/=; auto.
Qed.

Lemma consistent_ext s l l' :
  entries l' = entries l → jobOrg l' = jobOrg l → consistent s l → consistent s l'.
Proof. unfold consistent. by intros -> ->. Qed.

Lemma Recover_sound s l s' l' :
  sound s l → Recover s New = (s', l', None) →
  sound s' l' ∧ db s' = db s ∧ jobOrg l' = jobOrg l ∧
  ∃ ids, claim_ids (claim_rows (db s)) = Some ids ∧ entries l' = mark_claimed ids (entries l).
Proof.
  intros [(ids & Hi & Hf) Hw]. unfold Recover, fold.
  destruct (QueryEvents _ s) as [s1 q] eqn:Eq.
  apply QueryEvents_cases in Eq as [Hd [-> | ->]]; [|done].
  fold (ledger_rows (db s)). rewrite Hf. intros. simplify_eq.
  split_and!; [|done..|eauto]. split; [|exact (wf_mark ids l Hw)].
  exists ids. rewrite Hd. split; [done|]. cbn. by rewrite mark_claimed_idemp.
Qed.

Lemma sound_lstep op s l :
  lop_ok op → sound s l → sound (lstep op s l).1 (lstep op s l).2.
Proof.
  intros Hok [Hc Hw]. destruct op as [clk h|clk id paid pid rh st|clk id re code pre
    |now clk hook|clk h st|clk j v c d|wall ev|]; cbn in *.
  - destruct (Reserve clk h s l) as [[s' l'] r] eqn:E. split; [by eapply Reserve_consistent|by eapply Reserve_wf].
  - destruct (Commit _ _ _ _ _ _ _ _) as [[s' l'] r] eqn:E.
    split; [by eapply Commit_consistent|by eapply Commit_wf].
  - destruct (Release _ _ _ _ _ _ _) as [[s' l'] r] eqn:E.
    split; [by eapply Release_consistent|by eapply Release_wf].
  - destruct (Sweep _ _ _ _ _) as [[s' l'] r] eqn:E.
    eapply (Sweep_invariant sound); [| |by split|exact E].
    + intros s0 l0 s1 l1 r1 [??] Hx. split; [by eapply refreshClaims_consistent|].
      apply refreshClaims_cases in Hx as (_ & [(-> & _)|(ids & _ & _ & ->)]); [done|by apply wf_mark].
    + intros id s0 l0 s1 l1 r1 [??] Hx. split; [by eapply Release_consistent|by eapply Release_wf].
  - destruct (NoteReconcileStalled _ _ _ _ _) as [[s' l'] r] eqn:E. cbn.
    apply Note_cases in E as (He & Hj & Hd). split; [|unfold wf_ledger; by rewrite He].
    apply (consistent_ext s' l); [done..|].
    destruct Hd as [Hd|Hd]; [by eapply consistent_same_db|]. eapply consistent_other; [exact Hc|exact Hd|].
    by apply (bool_decide_eq_false_1 _).
  - unfold NoteChainDivergence. destruct (bool_decide (j = "")); [done|].
    destruct (Append _ _ _) as [s1 [z|er]] eqn:Ea; apply Append_cases in Ea as [[? Hd]|[[? ?] Hd]];
      try done; cbn; (split; [|done]); [|by eapply consistent_same_db].
    eapply consistent_other; [exact Hc|exact Hd|]. by apply (bool_decide_eq_false_1 _).
  - split; [|done]. destruct (Append wall ev s) as [s1 r] eqn:Ea. cbn.
    apply Append_cases in Ea as [[_ Hd]|[_ Hd]]; [|by eapply consistent_same_db].
    destruct Hok as [Hk Hp]. destruct (decide (e_Kind ev = kindPaymentExecuting)) as [He|He].
    + destruct (Hp He) as [p Hpp]. by eapply consistent_claim.
    + eapply consistent_other; [exact Hc|exact Hd|]. intros Hin. apply Hk.
      unfold ledger_kinds in Hin. rewrite !elem_of_cons in *. naive_solver.
  - unfold restart. destruct (Recover s New) as [[s1 l1] [e|]] eqn:E; cbn.
    + split; [|done]. eapply consistent_same_db; [done|].
      unfold Recover, fold in E. destruct (QueryEvents _ s) as [s2 q] eqn:Eq.
      apply QueryEvents_cases in Eq as [Hd [-> | ->]]; [|by simplify_eq].
      destruct (fold_rows _ _) as [[??]|]; by simplify_eq.
    + by eapply Recover_sound; [split|].
Qed.

Lemma sound_lsteps ops s l :
  Forall lop_ok ops → sound s l → sound (lsteps ops s l).1 (lsteps ops s l).2.
Proof.
  intros Hok. revert s l. induction Hok as [|op ops Ho _ IH]; intros s l Hs; [done|].
  cbn. pose proof (sound_lstep op s l Ho Hs) as H1. destruct (lstep op s l) as [s1 l1].
  by apply IH.
Qed.

(** ** Spend in closed form *)
(** What an entry adds to its job's figure and to the daily figure. *)
Definition counts (e : entry) : Z := if reserved e && (0 <? amount e) then amount e else 0.
Definition job_part (jobID : string) (e : entry) : Z :=
  if bool_decide (h_JobID (hold e) = jobID) then counts e else 0.
Definition day_part (orgID : string) (windowStart : Z) (e : entry) : Z :=
  if bool_decide (orgID = "" ∨ h_OrgID (hold e) = orgID) &&
     (windowStart <=? UnixMilli (h_ReservedAt (hold e)))
  then counts e else 0.
(** The exact (unbounded) totals. *)
Definition job_total (jobID : string) (l : Ledger) : Z := msum (job_part jobID) (entries l).
Definition day_total (clk : time) (jobID : string) (l : Ledger) : Z :=
  msum (day_part (default "" (jobOrg l !! jobID)) (UnixMilli (DailyWindowStartUTC clk))) (entries l).
Definition saturate (z : Z) : Z := Z.min max_int64 z.

Lemma satAdd_exact a b : 0 ≤ a ≤ max_int64 → 0 < b ≤ max_int64 → satAdd a b = saturate (a + b).
Proof.
  intros Ha Hb. unfold satAdd, saturate. rewrite (proj2 (Z.ltb_lt 0 b)) by lia. cbn [andb].
  rewrite sub64_exact by int_lia.
  destruct (max_int64 - b <? a) eqn:E; bool_to_prop; [lia|].
  rewrite add64_exact by int_lia. lia.
Qed.

Lemma saturate_assoc a b : 0 ≤ b → saturate (saturate a + b) = saturate (a + b).
Proof. unfold saturate. unfold max_int64. lia. Qed.

Lemma counts_range e : amount e ≤ max_int64 → 0 ≤ counts e ≤ max_int64.
Proof.
  unfold counts. intros. destruct (_ && _) eqn:E; [|unfold max_int64; lia]. bool_to_prop. lia.
Qed.

Lemma spend_one_exact jobID orgID ws j d e :
  0 ≤ j ≤ max_int64 → 0 ≤ d ≤ max_int64 → amount e ≤ max_int64 →
  spend_one jobID orgID ws (MkSpendState j d) e =
  MkSpendState (saturate (j + job_part jobID e)) (saturate (d + day_part orgID ws e)).
Proof.
  intros Hj Hd Ha. unfold spend_one, job_part, day_part, counts. cbn [JobCommittedMicros DailySpentMicros].
  assert (Hs : ∀ z, 0 ≤ z ≤ max_int64 → saturate (z + 0) = z) by (unfold saturate; lia).
  assert (H0 : ∀ b : bool, (if b then 0 else 0) = 0) by by intros [].
  destruct (reserved e); cbn [negb andb]; [|by rewrite !H0, !Hs].
  rewrite Z.ltb_antisym. destruct (amount e <=? 0) eqn:Ep; cbn [negb]; [by rewrite !H0, !Hs|].
  bool_to_prop.
  assert (Hda : satAdd d (amount e) = saturate (d + amount e)) by (apply satAdd_exact; lia).
  assert (Hja : satAdd j (amount e) = saturate (j + amount e)) by (apply satAdd_exact; lia).
  assert (Hor : bool_decide (orgID = "" ∨ h_OrgID (hold e) = orgID) =
    negb (bool_decide (orgID ≠ "") && bool_decide (h_OrgID (hold e) ≠ orgID))).
  { case_bool_decide as Ho; symmetry; [apply negb_true_iff, andb_false_iff
                                      |apply negb_false_iff, andb_true_iff].
    - rewrite !bool_decide_eq_false. tauto.
    - rewrite !bool_decide_eq_true. tauto. }
  rewrite Hor. destruct (bool_decide (orgID ≠ "") && _); cbn [negb andb];
    destruct (bool_decide (h_JobID _ = jobID)); cbn [JobCommittedMicros DailySpentMicros];
    rewrite ?Hja, ?Hda, ?(Hs d), ?(Hs j) by done; try done;
    destruct (ws <=? _); cbn [JobCommittedMicros DailySpentMicros];
    rewrite ?Hja, ?Hda, ?(Hs d), ?(Hs j) by done; done.
Qed.

Lemma spend_over_exact jobID orgID ws j d es :
  0 ≤ j → 0 ≤ d → Forall (λ e, amount e ≤ max_int64) es →
  foldl (spend_one jobID orgID ws) (MkSpendState (saturate j) (saturate d)) es =
  MkSpendState (saturate (j + sumZ (job_part jobID <$> es)))
               (saturate (d + sumZ (day_part orgID ws <$> es))).
Proof.
  intros Hj Hd Hes. revert j d Hj Hd. induction Hes as [|e es He _ IH]; intros j d Hj Hd.
  { cbn. unfold sumZ. cbn. by rewrite !Z.add_0_r. }
  cbn [foldl]. rewrite !fmap_cons, !sumZ_cons.
  pose proof (counts_range e He) as Hc.
  assert (0 ≤ job_part jobID e) by (unfold job_part; case_bool_decide; lia).
  assert (0 ≤ day_part orgID ws e) by (unfold day_part; destruct (_ && _); lia).
  rewrite spend_one_exact by (done || (unfold saturate, max_int64; lia)).
  rewrite !saturate_assoc, IH by lia. do 2 f_equal; lia.
Qed.

Lemma wf_amounts l : wf_ledger l →
  Forall (λ e, amount e ≤ max_int64) (snd <$> map_to_list (entries l)).
Proof.
  intros Hw. apply Forall_forall. intros e He. apply list_elem_of_fmap in He as ([id e'] & -> & He).
  apply elem_of_map_to_list in He. apply Hw in He as (_ & _ & ? & ?).
  cbn. unfold amount. by destruct (is_open e').
Qed.

Lemma spend_closed_form clk jobID l es :
  wf_ledger l → es ≡ₚ snd <$> map_to_list (entries l) →
  spend_over clk jobID l es =
  MkSpendState (saturate (job_total jobID l)) (saturate (day_total clk jobID l)).
Proof.
  intros Hw Hes. unfold spend_over. cbv zeta.
  change (MkSpendState 0 0) with (MkSpendState (saturate 0) (saturate 0)).
  rewrite spend_over_exact; [|done..|rewrite Hes; by apply wf_amounts].
  unfold job_total, day_total, msum.
  rewrite !(sumZ_perm (_ <$> es) (_ <$> (snd <$> map_to_list (entries l)))) by by rewrite Hes.
  by rewrite <-!list_fmap_compose.
Qed.

(** The spend figures do not depend on Go's map iteration order.  Over any
    order of the entries, on a well-formed ledger, the loop computes the exact
    sums of the open holds and the committed spend (org-scoped and restricted
    to today's window for the daily one), cut off at the largest [int64]
    instead of wrapping. *)
Lemma Spend_closed_form clk jobID l es :
  wf_ledger l → es ≡ₚ snd <$> map_to_list (entries l) →
  spend_over clk jobID l es =
  MkSpendState (Z.min max_int64 (job_total jobID l)) (Z.min max_int64 (day_total clk jobID l)).
Proof. apply spend_closed_form. Qed.

Definition sampleHold (id : string) (micros : Z) : Hold :=
  MkHold id "pi" "job" "org" micros "pay" "n" "m" "0x" (2000 * Second) zeroTime.
Lemma wf_New : wf_ledger New.
Proof. apply map_Forall_empty. Qed.
Lemma sound_New : sound (MkStore emptyDB []) New.
Proof. split; [|apply wf_New]. exists []. done. Qed.
Lemma sample_loggable id micros : valid_utf8 id = true → micros ≤ max_int64 →
  hold_loggable (sampleHold id micros).
Proof.
  intros Hv Hm. split_and!; [|by vm_compute|done]. unfold hold_utf8. cbn [forallb sampleHold h_RequestID].
  by rewrite Hv.
Qed.
Definition sampleHistory : list lop :=
  [ LReserve (1000 * Second) (sampleHold "a" 9223372036854775807);
    LReserve (1000 * Second) (sampleHold "b" 5) ].
Lemma sampleHistory_ok : Forall lop_ok sampleHistory.
Proof. repeat constructor; by vm_compute. Qed.

Lemma Spend_closed_form_witness :
  let l := (lsteps sampleHistory (MkStore emptyDB []) New).2 in
  Spend (1500 * Second) "job" l = MkSpendState max_int64 max_int64.
Proof.
  cbv zeta. unfold Spend.
  rewrite (Spend_closed_form _ _ _ (snd <$> map_to_list _));
    [vm_compute; reflexivity | | reflexivity].
  apply (sound_lsteps sampleHistory _ _ sampleHistory_ok sound_New).
Defined.

(** ** Recovery *)
Lemma msum_mark (f : entry → Z) ids m :
  (∀ e, f (set_claimed e) = f e) → f zeroEntry = 0 → msum f (mark_claimed ids m) = msum f m.
Proof.
  intros Hf H0. revert m. induction ids as [|id ids IH]; intros m; [done|].
  unfold mark_claimed in *. cbn [foldl]. rewrite IH. unfold slot.
  destruct (m !! id) as [e|] eqn:E; cbn.
  - rewrite (msum_insert_old f m id e _ E), Hf. lia.
  - rewrite msum_insert_new, Hf, H0 by done. lia.
Qed.

Lemma job_part_zero job : job_part job zeroEntry = 0.
Proof. unfold job_part. by case_bool_decide. Qed.
Lemma day_part_zero org ws : day_part org ws zeroEntry = 0.
Proof. unfold day_part. by destruct (_ && _). Qed.

Lemma Spend_mark clk job ids l l' :
  wf_ledger l → entries l' = mark_claimed ids (entries l) → jobOrg l' = jobOrg l →
  Spend clk job l' = Spend clk job l.
Proof.
  intros Hw He Hj. assert (Hw' : wf_ledger l').
  { unfold wf_ledger. rewrite He. exact (wf_mark ids l Hw). }
  unfold Spend. rewrite !spend_closed_form by done.
  unfold job_total, day_total. rewrite He, Hj. by rewrite !msum_mark by auto using job_part_zero, day_part_zero.
Qed.

(** No read fails next. *)
Definition readable (s : Store) : Prop := match faults s with true :: _ => False | _ => True end.
Lemma QueryEvents_readable kinds s :
  readable s → ∃ s', QueryEvents kinds s = (s', Ok (filter (λ r, ev_kind r ∈ kinds) (events (db s)))) ∧
                     db s' = db s.
Proof.
  unfold readable, QueryEvents, bindM, stmt.
  destruct s as [d [|[] fs]]; intros Hr; [eauto|done|eauto].
Qed.

(** The fold is the ledger.  After any history of reservations, commits,
    releases, sweeps, owner records, foreign events (execution claims
    included), restarts and failing writes, a boot that can read the log folds
    it to exactly the ledger the running process has once it has looked at the
    log's claims, and every spend figure the policy engine would have read is
    unchanged by the restart. *)
Lemma Recover_restores ops s l :
  Forall lop_ok ops → sound s l →
  let '(s', l') := lsteps ops s l in
  readable s' →
  ∃ s'' m, Recover s' New = (s'', MkLedger m (jobOrg l') ∅, None) ∧
    (∃ s3, refreshClaims s' l' = (s3, set_entries m l', None)) ∧
    ∀ clk job, Spend clk job (MkLedger m (jobOrg l') ∅) = Spend clk job l'.
Proof.
  intros Hok Hs. pose proof (sound_lsteps ops s l Hok Hs) as Hs'.
  destruct (lsteps ops s l) as [s' l']. cbn [fst snd] in Hs'. intros Hr. destruct Hs' as [(ids & Hi & Hf) Hw].
  destruct (QueryEvents_readable ledger_kinds s' Hr) as (s1 & H1 & _).
  destruct (QueryEvents_readable [kindPaymentExecuting] s' Hr) as (s2 & H2 & _).
  exists s1, (mark_claimed ids (entries l')). split_and!.
  - unfold Recover, fold. rewrite H1. fold (ledger_rows (db s')). by rewrite Hf.
  - exists s2. unfold refreshClaims. rewrite H2. fold (claim_rows (db s')). by rewrite Hi.
  - intros clk job. by apply (Spend_mark clk job ids l').
Qed.

Lemma Recover_restores_witness :
  let '(s', l') := lsteps sampleHistory (MkStore emptyDB [false; true]) New in
  ∃ s'' l'', Recover s' New = (s'', l'', None) ∧
    Spend (1500 * Second) "job" l'' = Spend (1500 * Second) "job" l'.
Proof.
  destruct (lsteps sampleHistory (MkStore emptyDB [false; true]) New) as [s' l'] eqn:E.
  assert (Hr : readable s') by (vm_compute in E; by simplify_eq).
  assert (Hs : sound (MkStore emptyDB [false; true]) New)
    by (split; [exists []; done | apply wf_New]).
  pose proof (Recover_restores sampleHistory (MkStore emptyDB [false; true]) New
    sampleHistory_ok Hs) as H.
  rewrite E in H. destruct (H Hr) as (s'' & m & H1 & _ & H2). eauto.
Defined.

(** ** A closed hold stays closed *)
Definition closed_at (id : string) (st : fold_state) : option (string * Z) :=
  let e := slot st.1 id in
  if bool_decide (closedBy e = "") then None else Some (closedBy e, committedMicros e).

(** A row leaves how an entry was closed alone, unless it closes it now. *)
Lemma fold_row_slot st row st' id :
  fold_row st row = Some st' → closedBy (slot st.1 id) ≠ "" →
  closedBy (slot st'.1 id) = closedBy (slot st.1 id) ∧
  committedMicros (slot st'.1 id) = committedMicros (slot st.1 id).
Proof.
  unfold fold_row. destruct (payload_of_json (ev_payload row)) as [p|]; [|done].
  cbn [mbind option_bind]. destruct st as [m jo]. cbn [fst]. intros H Hcl.
  destruct (bool_decide (ep_RequestID p = "")); [by simplify_eq|]. injection H as <-.
  destruct (decide (ep_RequestID p = id)) as [->|Hne].
  - rewrite (bool_decide_false (closedBy (slot m id) = "")) by done.
    repeat case_bool_decide; cbn [fst]; rewrite slot_insert; done.
  - repeat case_bool_decide; cbn [fst]; rewrite slot_insert_ne by done; done.
Qed.

Lemma fold_row_closed id st row st' c :
  fold_row st row = Some st' → closed_at id st = Some c → closed_at id st' = Some c.
Proof.
  intros Hf Hc. unfold closed_at in *.
  destruct (bool_decide (closedBy (slot st.1 id) = "")) eqn:E; [done|]. bool_to_prop.
  destruct (fold_row_slot _ _ _ id Hf E) as [H1 H2].
  rewrite H1, H2. by rewrite bool_decide_false.
Qed.

(** The first close wins, for good.  In any log that folds at all (the
    daemon's own or a corrupted one), once a request's hold is closed no
    suffix of events, duplicate releases and contradicting commits included,
    changes how it was closed or the figure it settled at: a duplicate release
    cannot refund the budget twice. *)
Lemma fold_first_close_wins rows rows' st st' id c :
  fold_rows (∅, ∅) rows = Some st → closed_at id st = Some c →
  fold_rows (∅, ∅) (rows ++ rows') = Some st' → closed_at id st' = Some c.
Proof.
  intros Hf Hc H. rewrite fold_rows_app, Hf in H. cbn [mbind option_bind] in H. clear Hf.
  revert st Hc H. induction rows' as [|row rows' IH]; intros st Hc H; cbn in H; [by simplify_eq|].
  destruct (fold_row st row) as [st1|] eqn:E; [|done]. cbn in H.
  by eapply IH; [eapply fold_row_closed|].
Qed.

Definition closeRow (kind : string) (paid : Z) : EventRow :=
  MkEventRow 1 0 kind "job" "funding"
    (JObj [("request_id", JStr "apr_1"); ("committed_micros", JInt paid)]).
Definition sampleRows : list EventRow := [closeRow KindReleased 0; closeRow KindCommitted 7].
Definition sampleFold (n : nat) : fold_state :=
  default (∅, ∅) (fold_rows (∅, ∅) (take n sampleRows)).
Lemma fold_first_close_wins_witness : closed_at "apr_1" (sampleFold 2) = Some (KindReleased, 0).
Proof.
  apply (fold_first_close_wins [closeRow KindReleased 0] [closeRow KindCommitted 7]
           (sampleFold 1) (sampleFold 2)); vm_compute; reflexivity.
Defined.

(** ** Conservation *)
Lemma job_total_update l id e jo sn job :
  job_total job (MkLedger (<[ id := e ]> (entries l)) jo sn) =
  job_total job l + job_part job e - job_part job (slot (entries l) id).
Proof.
  unfold job_total, slot. cbn [entries]. destruct (entries l !! id) as [e0|] eqn:E; cbn [default].
  - rewrite (msum_insert_old _ _ _ _ _ E). cbn. lia.
  - rewrite msum_insert_new by done. cbn.
    rewrite job_part_zero. lia.
Qed.

(** What an entry counts for, by its state. *)
Lemma counts_unreserved e : reserved e = false → counts e = 0.
Proof. unfold counts. by intros ->. Qed.
Lemma counts_open e :
  reserved e = true → closedBy e = "" → 0 < h_ReserveMicros (hold e) →
  counts e = h_ReserveMicros (hold e).
Proof.
  unfold counts, amount, is_open. intros -> -> H. cbn [andb].
  rewrite bool_decide_true by done. by rewrite (proj2 (Z.ltb_lt 0 _)).
Qed.
Lemma counts_closed e :
  reserved e = true → closedBy e ≠ "" → 0 ≤ committedMicros e → counts e = committedMicros e.
Proof.
  unfold counts, amount, is_open. intros -> Hc H. cbn [andb]. rewrite bool_decide_false by done.
  destruct (0 <? committedMicros e) eqn:E; bool_to_prop; lia.
Qed.

Definition delta (job : string) (h : Hold) (z : Z) : Z :=
  if bool_decide (h_JobID h = job) then z else 0.

Lemma Reserve_total clk h s l s' l' r job :
  Reserve clk h s l = (s', l', r) →
  l' = l ∨ r = None ∧ job_total job l' = job_total job l + delta job h (h_ReserveMicros h).
Proof.
  intros H. apply Reserve_cases in H as [[-> _]|(Hi & Hcl & Hr & -> & _ & ->)]; [by left|].
  right. split; [done|]. rewrite job_total_update. unfold job_part, delta.
  unfold invalid_hold in Hi. bool_to_prop. rewrite (counts_unreserved (slot _ _)) by done.
  rewrite counts_open by done. cbn. repeat case_bool_decide; lia.
Qed.
Lemma Commit_total clk id paid pid rh st s l s' l' r job :
  wf_ledger l → Commit clk id paid pid rh st s l = (s', l', r) →
  let h := hold (slot (entries l) id) in
  0 < h_ReserveMicros h →
  l' = l ∨ r = None ∧ job_total job l' = job_total job l + delta job h (paid - h_ReserveMicros h).
Proof.
  intros Hw H h Hpos. subst h.
  apply Commit_cases in H as [[-> _]|(Hi & Hp & Hr & H1 & H2 & -> & _ & ->)]; [by left|].
  right. split; [done|]. unfold set_entries. rewrite job_total_update. unfold job_part, delta.
  assert (Hcl : closedBy (slot (entries l) id) = "")
    by (destruct (slot_closedBy l id Hw) as [?|[?|?]]; done).
  rewrite (counts_open (slot _ _)), counts_closed by done. cbn. case_bool_decide; lia.
Qed.
Lemma Release_total clk id re code pre s l s' l' r job :
  Release clk id re code pre s l = (s', l', r) →
  let e := slot (entries l) id in
  0 < h_ReserveMicros (hold e) → committedMicros e = 0 →
  l' = l ∨ r = None ∧ is_open e = true ∧
    job_total job l' = job_total job l - delta job (hold e) (h_ReserveMicros (hold e)).
Proof.
  intros H e Hpos H0. subst e.
  apply Release_cases in H as [(-> & _)|(Hi & Hr & Hcl & -> & _ & ->)]; [by left|].
  right. unfold is_open. rewrite Hr, Hcl. split_and!; [done..|].
  unfold set_entries. rewrite job_total_update. unfold job_part, delta.
  rewrite (counts_open (slot _ _)), counts_closed by (done || (cbn; lia)). cbn. rewrite H0.
  case_bool_decide; lia.
Qed.

(** Conservation of the budget.  A reservation that opens a hold raises
    the job's exact total by the reserved figure; a commit at no more than the
    reserve gives back exactly the difference; a release gives back the whole
    reserve; and an operation that returns without doing so (a duplicate, a
    refusal, a failed write) changes no job's total. *)
Lemma ledger_conservation s l job :
  wf_ledger l →
  (∀ clk h s' l' r, Reserve clk h s l = (s', l', r) →
     job_total job l' = job_total job l ∨
     r = None ∧ job_total job l' = job_total job l + delta job h (h_ReserveMicros h)) ∧
  (∀ clk id paid pid rh st s' l' r, Commit clk id paid pid rh st s l = (s', l', r) →
     let h := hold (slot (entries l) id) in
     0 < h_ReserveMicros h →
     job_total job l' = job_total job l ∨
     r = None ∧ job_total job l' = job_total job l + delta job h (paid - h_ReserveMicros h)) ∧
  (∀ clk id re code pre s' l' r, Release clk id re code pre s l = (s', l', r) →
     let e := slot (entries l) id in
     0 < h_ReserveMicros (hold e) → committedMicros e = 0 →
     job_total job l' = job_total job l ∨
     r = None ∧ is_open e = true ∧
     job_total job l' = job_total job l - delta job (hold e) (h_ReserveMicros (hold e))).
Proof.
  intros Hw. split_and!.
  - intros clk h s' l' r Hx. destruct (Reserve_total _ _ _ _ _ _ _ job Hx) as [->|?]; auto.
  - intros clk id paid pid rh st s' l' r Hx h Hpos.
    destruct (Commit_total _ _ _ _ _ _ _ _ _ _ _ job Hw Hx Hpos) as [->|?]; auto.
  - intros clk id re code pre s' l' r Hx e Hpos H0.
    destruct (Release_total _ _ _ _ _ _ _ _ _ _ job Hx Hpos H0) as [->|?]; auto.
Qed.

Lemma ledger_conservation_witness :
  let l := (lsteps sampleHistory (MkStore emptyDB []) New).2 in
  job_total "job" (Release 0 "b" "" "" true (MkStore emptyDB []) l).1.2 = max_int64 + 5 - 5.
Proof.
  cbv zeta. set (l := (lsteps sampleHistory (MkStore emptyDB []) New).2).
  destruct (Release 0 "b" "" "" true (MkStore emptyDB []) l) as [[s' l'] r] eqn:E.
  destruct (ledger_conservation (MkStore emptyDB []) l "job"
    (proj2 (sound_lsteps sampleHistory _ _ sampleHistory_ok sound_New))) as (_ & _ & H).
  destruct (H _ _ _ _ _ _ _ _ E ltac:(vm_compute; reflexivity) ltac:(vm_compute; reflexivity))
    as [H1|(_ & _ & H1)]; cbn [fst snd].
  - exfalso. vm_compute in E. injection E as _ <- _. vm_compute in H1. discriminate H1.
  - rewrite H1. vm_compute. reflexivity.
Defined.

(** ** Sweep *)
Lemma insert_sorted_perm n l : insert_sorted n l ≡ₚ n :: l.
Proof.
  induction l as [|m l IH]; [done|]. cbn. destruct (String.leb n m); [done|].
  rewrite IH. apply perm_swap.
Qed.
Lemma sort_Strings_perm l : sort_Strings l ≡ₚ l.
Proof. induction l as [|x l IH]; [done|]. cbn. by rewrite insert_sorted_perm, IH. Qed.

Lemma dead_ids_spec now l id : id ∈ dead_ids now l ↔ sweepable now (slot (entries l) id) = true.
Proof.
  unfold dead_ids, slot. rewrite sort_Strings_perm, list_elem_of_fmap. split.
  - intros ([id' e] & -> & H). apply list_elem_of_filter in H as [H He].
    apply elem_of_map_to_list in He. cbn in *. by rewrite He.
  - destruct (entries l !! id) as [e|] eqn:E; cbn; [|done]. intros H.
    exists (id, e). split; [done|]. apply list_elem_of_filter. split; [done|].
    by apply elem_of_map_to_list.
Qed.

Lemma dead_ids_NoDup now l : NoDup (dead_ids now l).
Proof.
  unfold dead_ids. rewrite sort_Strings_perm.
  eapply sublist_NoDup; [apply (NoDup_fst_map_to_list (entries l))|].
  apply fmap_sublist, sublist_filter.
Qed.

Definition unhooked (hook : option (string → bool)) (id : string) : bool :=
  match hook with Some f => negb (f id) | None => true end.

Lemma sweep_release_spec now clk hook ids n s l s' l' k oe :
  wf_ledger l → NoDup ids → Forall (λ id, sweepable now (slot (entries l) id) = true) ids →
  sweep_release clk hook ids n s l = (s', l', (k, oe)) →
  ∃ rel, rel ⊆ filter (λ id, unhooked hook id = true) ids ∧ k = (n + length rel)%nat ∧
    (oe = None → rel = filter (λ id, unhooked hook id = true) ids) ∧
    ∀ id, slot (entries l') id =
          if bool_decide (id ∈ rel) then set_released (slot (entries l) id)
          else slot (entries l) id.
Proof.
  revert n s l. induction ids as [|id ids IH]; intros n s l Hw Hn Hd H; cbn in H.
  { simplify_eq. exists []. cbn. rewrite Nat.add_0_r. split_and!; done. }
  apply NoDup_cons in Hn as [Hid Hn]. apply Forall_cons in Hd as [Hsw Hd].
  assert (Hh : (match hook with Some f => f id | None => false end) = negb (unhooked hook id))
    by (unfold unhooked; destruct hook; [by rewrite negb_involutive|done]).
  rewrite Hh in H. clear Hh. destruct (unhooked hook id) eqn:Eu; cbn [negb] in H;
    [rewrite filter_cons_True by done|rewrite filter_cons_False by (by rewrite Eu); by eapply IH].
  destruct (Release clk id sweepReason CodeExpiredUnattempted true s l) as [[s1 l1] r1] eqn:Er.
  apply Release_cases in Er as [(-> & Hdb & Hr)|(Hne & Hres & Hcl & -> & Hdb & ->)].
  - destruct r1 as [e|].
    + simplify_eq. exists []. cbn. rewrite Nat.add_0_r. split_and!; [set_solver|done..].
    + destruct (Hr eq_refl) as [_ Hc]. unfold sweepable, is_open in Hsw. bool_to_prop. done.
  - apply IH in H as (rel & Hsub & -> & Hall & Hslot); [| |done|].
    + exists (id :: rel). cbn [length]. split_and!; [set_solver|lia|intros Hoe; by rewrite (Hall Hoe)|].
      intros id'. rewrite Hslot. cbn [entries set_entries].
      assert (id ∉ rel).
      { intros Hin. apply Hid. apply Hsub in Hin. by apply list_elem_of_filter in Hin as [_ Hin]. }
      destruct (decide (id = id')) as [<-|Hne'].
      * rewrite slot_insert, bool_decide_false, bool_decide_true by (done || by left). done.
      * rewrite slot_insert_ne by done. do 2 case_bool_decide; try done; set_solver.
    + apply wf_insert; [done|]. destruct (wf_slot l id Hw) as (? & ? & ? & ?).
      split_and!; try done. by right; right.
    + rewrite Forall_forall in *. intros id' Hin. cbn [entries set_entries].
      rewrite slot_insert_ne; [by apply Hd|]. by intros <-.
Qed.

Lemma Sweep_result now clk hook s l s' l' k oe ids :
  wf_ledger l → claim_ids (claim_rows (db s)) = Some ids →
  Sweep now clk hook s l = (s', l', (k, oe)) →
  let dead id := sweepable now (slot (entries l) id) && negb (bool_decide (id ∈ ids)) &&
                 unhooked hook id in
  ∃ rel, k = length rel ∧ (∀ id, id ∈ rel → dead id = true) ∧
    (oe = None → ∀ id, dead id = true → id ∈ rel) ∧
    (∀ id, let e := slot (entries l) id in let e' := slot (entries l') id in
       hold e' = hold e ∧ reserved e' = reserved e ∧ committedMicros e' = committedMicros e ∧
       closedBy e' = if bool_decide (id ∈ rel) then KindReleased else closedBy e).
Proof.
  intros Hw Hi H dead. unfold Sweep in H.
  destruct (refreshClaims s l) as [[s1 l1] [e|]] eqn:Er; apply refreshClaims_cases in Er as [_ Er].
  - destruct Er as [[-> _]|(? & _ & ? & _)]; [|done]. simplify_eq. exists [].
    split_and!; try done. intros id Hid. by apply elem_of_nil in Hid.
  - destruct Er as [[_ ?]|(ids' & Hi' & _ & ->)]; [done|]. rewrite Hi in Hi'. injection Hi' as <-.
    set (l1 := set_entries _ l) in *.
    assert (Hsw : ∀ id, sweepable now (slot (entries l1) id) =
                        sweepable now (slot (entries l) id) && negb (bool_decide (id ∈ ids))).
    { intros id. subst l1. cbn. rewrite slot_mark. case_bool_decide; cbn [negb];
        [|by rewrite andb_true_r]. unfold sweepable. cbn [claimed set_claimed negb]. by rewrite !andb_false_r. }
    apply (sweep_release_spec now) in H as (rel & Hsub & -> & Hall & Hslot);
      [|exact (wf_mark ids l Hw)|apply dead_ids_NoDup
       |apply Forall_forall; intros id; apply dead_ids_spec].
    exists rel. split_and!; [done|..].
    + intros id Hid. apply Hsub in Hid. apply list_elem_of_filter in Hid as [Hu Hid]. apply dead_ids_spec in Hid.
      unfold dead. rewrite <-Hsw, Hid, Hu. done.
    + intros Hoe id Hid. rewrite (Hall Hoe). unfold dead in Hid. rewrite <-Hsw in Hid.
      apply andb_true_iff in Hid as [Hid Hu]. apply list_elem_of_filter. split; [done|].
      by apply dead_ids_spec.
    + intros id e e'. subst e e' l1. rewrite Hslot. cbn [entries set_entries].
      rewrite slot_mark. by do 2 case_bool_decide.
Qed.

(** A sweep releases the provably dead holds and nothing else.  Whatever
    fails on the way, an entry changes only if its hold was open, its expiry
    set and passed, no execution claim for it is in the log or in memory, and
    the in-process hook denies one; then its hold is released and counted.  A
    sweep that reports no error has released all of these. *)
Lemma Sweep_spec now clk hook s l s' l' k oe ids :
  wf_ledger l → claim_ids (claim_rows (db s)) = Some ids →
  Sweep now clk hook s l = (s', l', (k, oe)) →
  let dead id := sweepable now (slot (entries l) id) && negb (bool_decide (id ∈ ids)) &&
                 unhooked hook id in
  ∃ rel, k = length rel ∧ (∀ id, id ∈ rel → dead id = true) ∧
    (oe = None → ∀ id, dead id = true → id ∈ rel) ∧
    (∀ id, let e := slot (entries l) id in let e' := slot (entries l') id in
       hold e' = hold e ∧ reserved e' = reserved e ∧ committedMicros e' = committedMicros e ∧
       closedBy e' = if bool_decide (id ∈ rel) then KindReleased else closedBy e).
Proof. exact (Sweep_result now clk hook s l s' l' k oe ids). Qed.

Definition claimEvent (id : string) : Event :=
  MkEvent 0 kindPaymentExecuting "job" "approval" (JObj [("request_id", JStr id)]).
Definition sweepHistory : list lop :=
  [ LReserve (1000 * Second) (sampleHold "a" 7); LReserve (1000 * Second) (sampleHold "b" 5);
    LForeign (1500 * Second) (claimEvent "b") ].
Lemma sweepHistory_ok : Forall lop_ok sweepHistory.
Proof.
  repeat apply Forall_cons_2; try apply Forall_nil_2; [by apply sample_loggable..|].
  split; [by apply (bool_decide_eq_false_1 _)|]. intros _. by eexists.
Qed.

Definition sweepStore : Store := (lsteps sweepHistory (MkStore emptyDB []) New).1.
Definition sweepLedger : Ledger := (lsteps sweepHistory (MkStore emptyDB []) New).2.
Definition swept : Store * Ledger * (nat * option BudgetErr) :=
  Sweep (3000 * Second) (3000 * Second) None sweepStore sweepLedger.

Lemma Sweep_spec_witness :
  closedBy (slot (entries swept.1.2) "a") = KindReleased ∧
  closedBy (slot (entries swept.1.2) "b") = "".
Proof.
  destruct (Sweep_spec (3000 * Second) (3000 * Second) None sweepStore sweepLedger
    swept.1.1 swept.1.2 swept.2.1 swept.2.2 ["b"]
    (proj2 (sound_lsteps sweepHistory _ _ sweepHistory_ok sound_New))
    ltac:(vm_compute; reflexivity) ltac:(vm_compute; reflexivity))
    as (rel & _ & Hsub & Hall & Hslot).
  split.
  - destruct (Hslot "a") as (_ & _ & _ & ->). rewrite bool_decide_true; [reflexivity|].
    apply Hall; vm_compute; reflexivity.
  - destruct (Hslot "b") as (_ & _ & _ & ->). rewrite bool_decide_false; [reflexivity|].
    intros Hb. apply Hsub in Hb. vm_compute in Hb. discriminate Hb.
Defined.

(** ** Unresolved holds *)
Lemma string_ltb_lt a b : String.ltb a b = true ↔ String_as_OT.lt a b.
Proof.
  rewrite <-String_as_OT.cmp_lt. unfold String.ltb, String_as_OT.cmp.
  by destruct (String.compare a b).
Qed.
Lemma string_ltb_trans_neg x y z :
  String.ltb y x = false → String.ltb z y = false → String.ltb z x = false.
Proof.
  intros H1 H2. apply not_true_iff_false. intros H3. apply string_ltb_lt in H3.
  destruct (String_as_OT.compare y z) as [H|H|H].
  - assert (String.ltb y x = true) by (apply string_ltb_lt; by eapply String_as_OT.lt_trans). congruence.
  - red in H. subst. apply string_ltb_lt in H3. congruence.
  - apply string_ltb_lt in H. congruence.
Qed.
Lemma string_ltb_asym x y : String.ltb x y = true → String.ltb y x = false.
Proof.
  intros H. apply not_true_iff_false. intros H2. apply string_ltb_lt in H, H2.
  by apply (String_as_OT.lt_not_eq x x); [eapply String_as_OT.lt_trans|].
Qed.

Lemma hold_before_asym a b : hold_before a b = true → hold_before b a = false.
Proof.
  unfold hold_before, Before. rewrite (Z.eqb_sym (h_ReservedAt b)).
  destruct (_ =? _); [apply string_ltb_asym|]. intros H. bool_to_prop. apply Z.ltb_ge. lia.
Qed.
Lemma hold_before_trans_neg x y z :
  hold_before y x = false → hold_before z y = false → hold_before z x = false.
Proof.
  unfold hold_before, Before. intros H1 H2.
  destruct (h_ReservedAt z =? h_ReservedAt x) eqn:E1, (h_ReservedAt y =? h_ReservedAt x) eqn:E2,
    (h_ReservedAt z =? h_ReservedAt y) eqn:E3; bool_to_prop; try lia.
  by eapply string_ltb_trans_neg.
Qed.

(** What the reconciler polls.  [StalledSince d now] is exactly the open,
    claimed holds reserved at least [d] ago ([Unresolved], with [d] zero, all
    of them), each once, oldest first. *)
Lemma StalledSince_spec d now l :
  let stalled e := is_open e = true ∧ claimed e = true ∧
                   (0 < d → d ≤ time_Sub now (h_ReservedAt (hold e))) in
  Sorted (λ a b, hold_before b a = false) (StalledSince d now l) ∧
  (∀ h, h ∈ StalledSince d now l ↔ ∃ id e, entries l !! id = Some e ∧ stalled e ∧ h = hold e) ∧
  StalledSince d now l ≡ₚ
    hold ∘ snd <$> filter (λ kv, is_open kv.2 && claimed kv.2 &&
      negb ((0 <? d) && (time_Sub now (h_ReservedAt (hold kv.2)) <? d)) = true)
      (map_to_list (entries l)).
Proof.
  intros stalled. unfold StalledSince, claimedOpen. split_and!.
  - apply isort_sorted; [apply hold_before_asym].
  - intros h. rewrite elem_of_isort, list_elem_of_fmap. split.
    + intros ([id e] & -> & H). apply list_elem_of_filter in H as [H He].
      apply elem_of_map_to_list in He. exists id, e. split_and!; [done| |done].
      cbn in H. bool_to_prop. split_and!; try done. intros Hd.
      match goal with Ho : _ ∨ _ |- _ => destruct Ho end; bool_to_prop; lia.
    + intros (id & e & He & (Ho & Hc & Hd) & ->). exists (id, e). split; [done|].
      apply list_elem_of_filter. split; [|by apply elem_of_map_to_list].
      cbn. rewrite Ho, Hc. cbn. destruct (0 <? d) eqn:E; [|done]. bool_to_prop. cbn.
      apply negb_true_iff, Z.ltb_ge. auto.
  - apply isort_perm.
Qed.

(** ** The log closes a hold at most once *)
Definition row_id (row : EventRow) : option string :=
  ep_RequestID <$> payload_of_json (ev_payload row).
Definition log_count (kinds : list string) (id : string) (d : DB) : nat :=
  length (filter (λ r, ev_kind r ∈ kinds ∧ row_id r = Some id) (events d)).
Definition closing_kinds : list string := [KindCommitted; KindReleased].
Definition audited (s : Store) (l : Ledger) : Prop :=
  ∀ id, id ≠ "" →
    log_count [KindReserved] id (db s) = (if reserved (slot (entries l) id) then 1 else 0)%nat ∧
    log_count closing_kinds id (db s) =
      (if bool_decide (closedBy (slot (entries l) id) = "") then 0 else 1)%nat.

Lemma log_count_append kinds id d clk ev :
  log_count kinds id (appended d clk ev) =
  (log_count kinds id d +
   if bool_decide (e_Kind ev ∈ kinds ∧ row_id (row_of d clk ev) = Some id) then 1 else 0)%nat.
Proof.
  unfold log_count, appended. cbn [events]. rewrite filter_app, length_app. f_equal.
  case_bool_decide; [by rewrite filter_cons_True|by rewrite filter_cons_False].
Qed.

(** A foreign row changes no count. *)
Lemma audited_foreign s s1 l clk ev :
  audited s l → db s1 = appended (db s) clk ev →
  e_Kind ev ∉ [KindReserved; KindCommitted; KindReleased] → audited s1 l.
Proof.
  intros Ha Hd Hk id Hid. rewrite Hd, !log_count_append. rewrite !elem_of_cons in Hk.
  rewrite !bool_decide_false by (unfold closing_kinds; rewrite !elem_of_cons; tauto).
  rewrite !Nat.add_0_r. by apply Ha.
Qed.

(** A row for [id] under [kind] with the entry updated accordingly. *)
Lemma audited_row s s1 l m' jo' sn clk ev id e' :
  audited s l → db s1 = appended (db s) clk ev →
  row_id (row_of (db s) clk ev) = Some id →
  m' = <[ id := e' ]> (entries l) →
  (if reserved e' then 1 else 0)%nat =
    ((if reserved (slot (entries l) id) then 1 else 0) +
     if bool_decide (e_Kind ev ∈ [KindReserved]) then 1 else 0)%nat →
  (if bool_decide (closedBy e' = "") then 0 else 1)%nat =
    ((if bool_decide (closedBy (slot (entries l) id) = "") then 0 else 1) +
     if bool_decide (e_Kind ev ∈ closing_kinds) then 1 else 0)%nat →
  audited s1 (MkLedger m' jo' sn).
Proof.
  intros Ha Hd Hr -> H1 H2 id' Hid'. rewrite Hd, !log_count_append, Hr. cbn [entries].
  destruct (Ha id' Hid') as [Ha1 Ha2]. destruct (decide (id = id')) as [<-|Hne].
  - rewrite slot_insert, Ha1, Ha2, H1, H2.
    rewrite (bool_decide_ext (e_Kind ev ∈ [KindReserved] ∧ Some id = Some id) (e_Kind ev ∈ [KindReserved])) by naive_solver.
    by rewrite (bool_decide_ext (e_Kind ev ∈ closing_kinds ∧ Some id = Some id) (e_Kind ev ∈ closing_kinds)) by naive_solver.
  - rewrite slot_insert_ne, Ha1, Ha2 by done.
    rewrite !(bool_decide_false (_ ∧ Some id = Some id')) by naive_solver.
    by rewrite !Nat.add_0_r.
Qed.

Lemma audited_same s s1 l l1 :
  audited s l → db s1 = db s →
  (∀ id, reserved (slot (entries l1) id) = reserved (slot (entries l) id) ∧
         closedBy (slot (entries l1) id) = closedBy (slot (entries l) id)) → audited s1 l1.
Proof. intros Ha Hd He id Hid. rewrite Hd. destruct (He id) as [-> ->]. by apply Ha. Qed.

Lemma mark_same ids m id :
  reserved (slot (mark_claimed ids m) id) = reserved (slot m id) ∧
  closedBy (slot (mark_claimed ids m) id) = closedBy (slot m id).
Proof. rewrite slot_mark. by case_bool_decide. Qed.

Lemma Release_audited clk id re code pre s l s' l' r :
  wf_ledger l → audited s l → Release clk id re code pre s l = (s', l', r) → audited s' l'.
Proof.
  intros Hw Ha H. apply Release_cases in H as [(-> & Hd & _)|(Hi & Hr & Hcl & -> & Hd & ->)];
    [by eapply audited_same|].
  destruct (reserved_key _ _ Hw Hr) as [_ Hv].
  eapply audited_row; [done|exact Hd| |reflexivity|cbn; by rewrite Hr|cbn; by rewrite Hcl].
  unfold row_id. cbn [ev_payload row_of e_Payload].
  destruct (released_json_decode (slot (entries l) id) id re code pre Hv) as (p & -> & <-). done.
Qed.

Lemma audited_lstep op s l :
  lop_ok op → sound s l → audited s l → audited (lstep op s l).1 (lstep op s l).2.
Proof.
  intros Hok Hs Ha. pose proof Hs as [_ Hw]. destruct op as [clk h|clk id paid pid rh st|clk id re code pre
    |now clk hook|clk h st|clk j v c d|wall ev|]; cbn in *.
  - destruct (Reserve clk h s l) as [[s' l'] r] eqn:E.
    apply Reserve_cases in E as [[-> Hd]|(Hi & Hcl & Hr & -> & Hd & ->)]; [by eapply audited_same|].
    eapply audited_row; [done|exact Hd| |reflexivity|cbn; by rewrite Hr|cbn; by rewrite Hcl].
    unfold row_id. cbn [ev_payload row_of e_Payload]. by rewrite reserved_json_decode by apply Hok.
  - destruct (Commit _ _ _ _ _ _ _ _) as [[s' l'] r] eqn:E.
    apply Commit_cases in E as [[-> Hd]|(Hi & Hp & Hr & H1 & H2 & -> & Hd & ->)]; [by eapply audited_same|].
    assert (Hcl : closedBy (slot (entries l) id) = "")
      by (destruct (slot_closedBy l id Hw) as [?|[?|?]]; done).
    destruct (reserved_key _ _ Hw Hr) as [_ Hv].
    eapply audited_row; [done|exact Hd| |reflexivity|cbn; by rewrite Hr|cbn; by rewrite Hcl].
    unfold row_id. cbn [ev_payload row_of e_Payload].
    destruct (committed_json_decode (slot (entries l) id) id paid pid rh st Hv) as (p & -> & <- & _). done.
  - destruct (Release _ _ _ _ _ _ _) as [[s' l'] r] eqn:E. by eapply Release_audited.
  - destruct (Sweep _ _ _ _ _) as [[s' l'] r] eqn:E.
    eapply (Sweep_invariant (λ s l, wf_ledger l ∧ audited s l)); [| |by split|exact E].
    + intros s0 l0 s1 l1 r1 [Hw0 Ha0] Hx.
      apply refreshClaims_cases in Hx as (Hd & [(-> & _)|(ids & _ & _ & ->)]).
      * split; [done|]. by eapply audited_same.
      * split; [by apply wf_mark|]. eapply audited_same; [done..|]. intros id. apply mark_same.
    + intros id s0 l0 s1 l1 r1 [Hw0 Ha0] Hx. split; [by eapply Release_wf|by eapply Release_audited].
  - destruct (NoteReconcileStalled _ _ _ _ _) as [[s' l'] r] eqn:E. cbn.
    apply Note_cases in E as (He & Hj & Hd). 
    apply (audited_same s' s' l); [|done|intros; by rewrite He].
    destruct Hd as [Hd|Hd]; [by eapply audited_same|]. eapply audited_foreign; [exact Ha|exact Hd|].
    by apply (bool_decide_eq_false_1 _).
  - unfold NoteChainDivergence. destruct (bool_decide (j = "")); [done|].
    destruct (Append _ _ _) as [s1 [z|er]] eqn:Ea; apply Append_cases in Ea as [[? Hd]|[[? ?] Hd]];
      try done; cbn; [|by eapply audited_same].
    eapply audited_foreign; [exact Ha|exact Hd|]. by apply (bool_decide_eq_false_1 _).
  - destruct (Append wall ev s) as [s1 r] eqn:Ea. cbn.
    apply Append_cases in Ea as [[_ Hd]|[_ Hd]]; [|by eapply audited_same].
    destruct Hok as [Hk _]. by eapply audited_foreign.
  - unfold restart. destruct (Recover s New) as [[s1 l1] [e|]] eqn:E; cbn.
    + eapply audited_same; [done| |done].
      unfold Recover, fold in E. destruct (QueryEvents _ s) as [s2 q] eqn:Eq.
      apply QueryEvents_cases in Eq as [Hd [-> | ->]]; [|by simplify_eq].
      destruct (fold_rows _ _) as [[??]|]; by simplify_eq.
    + apply Recover_sound with (l := l) in E as (_ & Hd & _ & ids & _ & He); [|done].
      eapply audited_same; [done..|]. intros id. rewrite He. apply mark_same.
Qed.

(** One hold per request, closed at most once, in the durable record.
    After any history from an empty store (restarts and failing writes
    included) the log holds at most one reservation and at most one closing
    event for a request, a closing event only after a reservation of it
    exists in the ledger, and none of them disagrees with the live ledger. *)
Lemma log_closes_once ops id :
  Forall lop_ok ops → id ≠ "" →
  let '(s, l) := lsteps ops (MkStore emptyDB []) New in
  (log_count [KindReserved] id (db s) ≤ 1)%nat ∧ (log_count closing_kinds id (db s) ≤ 1)%nat ∧
  (log_count [KindReserved] id (db s) = 1%nat ↔ reserved (slot (entries l) id) = true) ∧
  (log_count closing_kinds id (db s) = 1%nat ↔ closedBy (slot (entries l) id) ≠ "").
Proof.
  intros Hok Hid.
  assert (∀ s l, sound s l → audited s l → audited (lsteps ops s l).1 (lsteps ops s l).2) as H.
  { induction Hok as [|op ops Ho _ IH]; intros s l Hs Ha; [done|]. cbn.
    pose proof (sound_lstep op s l Ho Hs) as H1. pose proof (audited_lstep op s l Ho Hs Ha) as H2.
    destruct (lstep op s l) as [s1 l1]. by apply IH. }
  specialize (H (MkStore emptyDB []) New sound_New ltac:(done)).
  destruct (lsteps ops (MkStore emptyDB []) New) as [s l].
  destruct (H id Hid) as [H1 H2]. cbn [fst snd] in H1, H2. rewrite H1, H2.
  destruct (reserved _); case_bool_decide; split_and!; (lia || naive_solver).
Qed.

Lemma log_closes_once_witness :
  (log_count closing_kinds "a" (db (lsteps
     (sweepHistory ++ [LRelease 0 "a" "" "" true; LRestart; LRelease 0 "a" "" "" true])
     (MkStore emptyDB []) New).1) ≤ 1)%nat.
Proof.
  pose proof (log_closes_once
    (sweepHistory ++ [LRelease 0 "a" "" "" true; LRestart; LRelease 0 "a" "" "" true]) "a"
    ltac:(apply Forall_app_2; [apply sweepHistory_ok|repeat constructor]) ltac:(done)) as H.
  destruct (lsteps _ _ _) as [s l]. destruct H as (_ & H & _). exact H.
Defined.
