(* ===== verification/Approval.v ===== *)
(** [internal/approval/lifecycle.go]: request, decision, execution.

    The lifecycle is wired to the rest of the daemon through hooks; [Hooks] is
    that interface, over the type [W] of the state behind the hooks, and every
    theorem here holds for every implementation of it (the wiring provides
    one).  An operation reads one instant [now] for the lifecycle's clock and
    the store's.  [Execute] is split where the source unlocks: admission, the
    durable claim, the executor, the closing record; [inflight] holds the
    executions between two of these phases. *)
From S2P Require Import Prelude GoStr GoTime GoJson Intent Policy Store.
From S2P Require Freeze.
#[local] Open Scope Z_scope.
#[local] Open Scope snap_scope.

(** ** States and decisions *)
Definition StatePending : string := "pending".
Definition StateApproved : string := "approved".
Definition StateRejected : string := "rejected".
Definition StateAlternativeRequested : string := "alternative_requested".
Definition StateExpired : string := "expired".
Definition terminal (s : string) : bool := bool_decide (s ≠ StatePending).

Definition DecideApprove : string := "approve".
Definition DecideReject : string := "reject".
Definition DecideRequestAlternative : string := "request_alternative".
Definition target_of (kind : string) : option string :=
  if bool_decide (kind = DecideApprove) then Some StateApproved
  else if bool_decide (kind = DecideRequestAlternative) then Some StateAlternativeRequested
  else if bool_decide (kind = DecideReject) then Some StateRejected
  else None.

Record Request := MkRequest {
  r_ID : string; r_JobID : string; r_IntentHash : string; r_Intent : Intent;
  r_State : string; r_DecidedBy : string; r_Reason : string;
  r_CreatedAt : time; r_DecidedAt : time; r_ExpiresAt : time;
  r_Executed : bool; r_ExecutedAt : time;
  r_decided : bool }.
(** [r_decided]: the decision channel exists and is open. *)
Definition set_state (st by_ re : string) (at_ : time) (r : Request) : Request :=
  MkRequest (r_ID r) (r_JobID r) (r_IntentHash r) (r_Intent r) st by_ re (r_CreatedAt r) at_
    (r_ExpiresAt r) (r_Executed r) (r_ExecutedAt r) false.
Definition set_executed (b : bool) (at_ : time) (r : Request) : Request :=
  MkRequest (r_ID r) (r_JobID r) (r_IntentHash r) (r_Intent r) (r_State r) (r_DecidedBy r)
    (r_Reason r) (r_CreatedAt r) (r_DecidedAt r) (r_ExpiresAt r) b at_ (r_decided r).

Record Grant := MkGrant { g_intent : Intent; g_requestID : string; g_grantedAt : time }.
Definition zeroGrant : Grant := MkGrant zeroIntent "" zeroTime.
Definition Empty (g : Grant) : bool := bool_decide (g_requestID g = "").

Inductive ApErr :=
| ErrFrozen (e : Freeze.Entry)
| ErrNonceReplayed
| ErrClaimNonce (e : StoreErr)
| ErrBadAlternativeLink
| ErrAudit (e : StoreErr)
| ErrDenied (d : Decision)
| ErrReserve
| ErrWrongKind
| ErrUnknownRequest
| ErrNoDecider
| ErrUnknownDecision
| ErrAlreadyDecided (s : string)
| ErrExpired
| ErrHashMismatch
| ErrNotApproved (s : string)
| ErrPolicyChanged
| ErrAlreadyExecuted
| ErrNoDurableClaim (e : StoreErr)
| ErrExecutionFailed
| ErrAuditGap (e : StoreErr)
| ErrQueryLog (e : StoreErr)
| ErrCorruptLog.

(** ** The interface to the daemon *)
Class Hooks (W : Type) := {
  hook_Policy : W → PolicyConfig * string;
  hook_Spend : time → string → W → SpendState;
  hook_Reserve : time → Intent → string → Store → W → Store * W * bool }.
(** [hook_Reserve] returns [true] when the hold is durable. *)

Inductive Phase := Gated | Running.
Record Exec := MkExec { x_ID : string; x_Job : string; x_Hash : string; x_Grant : Grant;
                        x_Handle : option nat; x_Phase : Phase }.

Record World (W : Type) := MkWorld {
  st : Store;
  requests : gmap string Request;
  fz : option Freeze.Registry;
  ext : W;
  notified : list Request;
  inflight : list Exec }.
Arguments MkWorld {W}. Arguments st {W}. Arguments requests {W}. Arguments fz {W}.
Arguments ext {W}. Arguments notified {W}. Arguments inflight {W}.

Section Lifecycle.
Context {W : Type} `{Hooks W}.
Context (keccak256 : string → string).
Abbreviation World := (World W).

Definition with_st (s : Store) (w : World) : World :=
  MkWorld s (requests w) (fz w) (ext w) (notified w) (inflight w).
Definition with_requests (m : gmap string Request) (w : World) : World :=
  MkWorld (st w) m (fz w) (ext w) (notified w) (inflight w).
Definition with_fz (f : option Freeze.Registry) (w : World) : World :=
  MkWorld (st w) (requests w) f (ext w) (notified w) (inflight w).
Definition with_ext (e : W) (w : World) : World :=
  MkWorld (st w) (requests w) (fz w) e (notified w) (inflight w).
Definition with_notified (n : list Request) (w : World) : World :=
  MkWorld (st w) (requests w) (fz w) (ext w) n (inflight w).
Definition with_inflight (xs : list Exec) (w : World) : World :=
  MkWorld (st w) (requests w) (fz w) (ext w) (notified w) xs.
Definition put_request (r : Request) (w : World) : World :=
  with_requests (<[ r_ID r := r ]> (requests w)) w.

(** Run a store call inside the world. *)
Definition storeM {A} (wrap : StoreErr → ApErr) (m : M Store StoreErr A) : M World ApErr A := λ w,
  let '(s, r) := m (st w) in
  (with_st s w, match r with Ok a => Ok a | Err e => Err (wrap e) end).

(** [Lifecycle.appendEvent]. *)
Definition appendEvent (now : time) (jobID kind : string) (fields : list (string * jval)) :
    M World ApErr unit :=
  storeM ErrAudit (Append now (MkEvent zeroTime kind jobID "approval" (JObj fields))) ;;; retM tt.

Definition frozenErr (in_ : Intent) (w : World) : option Freeze.Entry :=
  match fz w with
  | None => None
  | Some r => Freeze.Check (i_OrgID in_) (i_JobID in_) (i_AgentID in_) r
  end.
Definition admitExecution (in_ : Intent) : M World ApErr (option nat) := λ w,
  match fz w with
  | None => (w, Ok None)
  | Some r =>
    match Freeze.AdmitExecution (i_OrgID in_) (i_JobID in_) (i_AgentID in_) r with
    | (r', Ok h) => (with_fz (Some r') w, Ok (Some h))
    | (r', Err (Freeze.ErrFrozen e)) => (with_fz (Some r') w, Err (ErrFrozen e))
    | (r', Err _) => (with_fz (Some r') w, Err ErrUnknownRequest)
    end
  end.
Definition release_admission (h : option nat) (w : World) : World :=
  match h, fz w with
  | Some h, Some r => with_fz (Some (Freeze.release h r)) w
  | _, _ => w
  end.

(** [Lifecycle.claimNonce]. *)
Definition intent_row (in_ : Intent) : IntentRow :=
  MkIntentRow (i_IntentID in_) (i_Nonce in_) (FormatUSDC (i_AmountMicros in_)) (i_PolicyVersion in_).
Definition claimNonce (in_ : Intent) : M World ApErr unit :=
  storeM (λ e, match e with ErrUnique => ErrNonceReplayed | _ => ErrClaimNonce e end)
    (InsertIntent (intent_row in_)).

(** ** Intake *)
Definition payment_of (version : string) (in_ : Intent) : PaymentIntent :=
  MkPaymentIntent (i_IntentID in_) (i_OrgID in_) (i_JobID in_) (i_TaskID in_) (i_AgentID in_)
    (i_Kind in_) (i_Merchant in_) (i_Resource in_) (i_AmountMicros in_) (i_Purpose in_)
    (i_Nonce in_) version.

Definition intent_json (i : Intent) : jval :=
  JObj [ ("IntentID", JStr (i_IntentID i)); ("OrgID", JStr (i_OrgID i));
    ("JobID", JStr (i_JobID i)); ("TaskID", JStr (i_TaskID i)); ("AgentID", JStr (i_AgentID i));
    ("Kind", JStr (i_Kind i)); ("Merchant", JStr (i_Merchant i));
    ("Resource", JStr (i_Resource i)); ("AmountMicros", JInt (i_AmountMicros i));
    ("Purpose", JStr (i_Purpose i)); ("Nonce", JStr (i_Nonce i));
    ("PolicyVersion", JStr (i_PolicyVersion i)); ("ExpiresAt", JTime (i_ExpiresAt i));
    ("ChainRef", JStr (i_ChainRef i)); ("AlternativeTo", JStr (i_AlternativeTo i));
    ("Asset", JStr (i_Asset i)); ("Network", JStr (i_Network i));
    ("MaxAmountMicros", JInt (i_MaxAmountMicros i)); ("PayTo", JStr (i_PayTo i));
    ("ResourceURL", JStr (i_ResourceURL i)) ].
Definition intent_of_json (v : jval) : option Intent :=
  a ← dec_str "IntentID" v; b ← dec_str "OrgID" v; c ← dec_str "JobID" v;
  d ← dec_str "TaskID" v; e ← dec_str "AgentID" v; f ← dec_str "Kind" v;
  g ← dec_str "Merchant" v; h ← dec_str "Resource" v; i ← dec_int "AmountMicros" v;
  j ← dec_str "Purpose" v; k ← dec_str "Nonce" v; l ← dec_str "PolicyVersion" v;
  m ← dec_time "ExpiresAt" v; n ← dec_str "ChainRef" v; o ← dec_str "AlternativeTo" v;
  p ← dec_str "Asset" v; q ← dec_str "Network" v; r ← dec_int "MaxAmountMicros" v;
  s ← dec_str "PayTo" v; t ← dec_str "ResourceURL" v;
  Some (MkIntent a b c d e f g h i j k l m n o p q r s t).

Definition reason_json (r : option Reason) : jval :=
  match r with
  | None => JNull
  | Some r => JObj [("rule", JStr (Rule_string (r_Rule r))); ("code", JStr (Code_string (r_Code r)));
                    ("limit_micros", JInt (r_LimitMicros r)); ("actual_micros", JInt (r_ActualMicros r));
                    ("merchant", JStr (r_Merchant r)); ("category", JStr (r_Category r))]
  end.
Definition requested_fields (r : Request) : list (string * jval) :=
  [ ("request_id", JStr (r_ID r)); ("intent_hash", JStr (r_IntentHash r));
    ("state", JStr (r_State r)); ("intent", intent_json (r_Intent r));
    ("decided_by", JStr (r_DecidedBy r)) ].

(** ["apr_" + hash[2:14]]. *)
Definition request_id (in_ : Intent) : string :=
  "apr_" +:+ String.substring 2 12 (InternalHash keccak256 in_).
Definition new_request (now : time) (auto : bool) (in_ : Intent) : Request :=
  MkRequest (request_id in_) (i_JobID in_) (InternalHash keccak256 in_) in_
    (if auto then StateApproved else StatePending) (if auto then "policy-engine" else "") ""
    now (if auto then now else zeroTime) (i_ExpiresAt in_) false zeroTime (negb auto).

Record SubmitResult := MkSubmitResult { sr_Decision : option Decision; sr_Request : Request }.

Definition alternative_ok (in_ : Intent) (w : World) : bool :=
  if bool_decide (i_AlternativeTo in_ = "") then true
  else match requests w !! i_AlternativeTo in_ with
       | Some orig => bool_decide (r_State orig = StateAlternativeRequested) &&
                      bool_decide (r_JobID orig = i_JobID in_)
       | None => false
       end.
Definition reserveM (now : time) (in_ : Intent) (id : string) : M World ApErr unit := λ w,
  let '(s, e, ok) := hook_Reserve now in_ id (st w) (ext w) in
  (with_ext e (with_st s w), if ok : bool then Ok tt else Err ErrReserve).
Definition notify (r : Request) (w : World) : World :=
  if bool_decide (r_State r = StatePending) then with_notified (notified w ++ [r]) w else w.

(** The section the org and job gates make one critical section: the spend
    read, the evaluation, the hold, the durable request and its visibility. *)
Definition intake (now : time) (cfg : PolicyConfig) (version : string) (in_ : Intent) :
    M World ApErr SubmitResult :=
  w <-- getM ;;
  let d := Evaluate cfg (hook_Spend now (i_JobID in_) (ext w)) (payment_of version in_) in
  appendEvent now (i_JobID in_) "policy.evaluated"
    [("intent_id", JStr (i_IntentID in_)); ("outcome", JStr (Outcome_string (d_Outcome d)));
     ("reason", reason_json (d_Reason d))] ;;;
  if bool_decide (d_Outcome d = Deny) then failM (ErrDenied d) else
  let req := new_request now (bool_decide (d_Outcome d = AutoApprove)) in_ in
  reserveM now in_ (r_ID req) ;;;
  appendEvent now (i_JobID in_) "approval.requested" (requested_fields req) ;;;
  modifyM (put_request req) ;;;
  modifyM (notify req) ;;;
  retM (MkSubmitResult (Some d) req).

Definition Submit (now : time) (in0 : Intent) : M World ApErr SubmitResult :=
  w <-- getM ;;
  match frozenErr in0 w with
  | Some e => failM (ErrFrozen e)
  | None =>
    let '(cfg, version) := hook_Policy (ext w) in
    let in_ := set_PolicyVersion version in0 in
    claimNonce in_ ;;;
    w1 <-- getM ;;
    if alternative_ok in_ w1 then intake now cfg version in_
    else failM ErrBadAlternativeLink
  end.

Definition SubmitAdvance (now : time) (in0 : Intent) : M World ApErr SubmitResult :=
  w <-- getM ;;
  if bool_decide (i_Kind in0 ≠ KindAdvance) then failM ErrWrongKind else
  match frozenErr in0 w with
  | Some e => failM (ErrFrozen e)
  | None =>
    let in_ := set_PolicyVersion (hook_Policy (ext w)).2 in0 in
    claimNonce in_ ;;;
    let req := new_request now false in_ in
    appendEvent now (i_JobID in_) "approval.requested" (requested_fields req) ;;;
    modifyM (put_request req) ;;;
    modifyM (notify req) ;;;
    retM (MkSubmitResult None req)
  end.

(** ** Decision *)
Definition Decide (now : time) (requestID kind by_ reason : string) : M World ApErr Request :=
  if bool_decide (by_ = "") then failM ErrNoDecider else
  w <-- getM ;;
  match requests w !! requestID with
  | None => failM ErrUnknownRequest
  | Some req =>
    match target_of kind with
    | None => failM ErrUnknownDecision
    | Some target =>
      if bool_decide (r_State req = target) && bool_decide (r_DecidedBy req = by_) then retM req
      else if terminal (r_State req) then failM (ErrAlreadyDecided (r_State req))
      else if negb (Before now (r_ExpiresAt req)) then
        let req' := set_state StateExpired (r_DecidedBy req) "expired before decision" now req in
        modifyM (put_request req') ;;;
        appendEvent now (r_JobID req) "approval.expired" [("request_id", JStr (r_ID req))] ;;;
        failM ErrExpired
      else
        let req' := set_state target by_ reason now req in
        modifyM (put_request req') ;;;
        appendEvent now (r_JobID req) ("approval." +:+ kind)
          [("request_id", JStr (r_ID req)); ("by", JStr by_); ("reason", JStr reason)] ;;;
        retM req'
    end
  end.

(** ** Execution *)
(** The critical section of [Execute]: every gate, then the admission and the
    in-memory claim. *)
Definition execute_admit (now : time) (in_ : Intent) (requestID : string) : M World ApErr Exec :=
  w <-- getM ;;
  match requests w !! requestID with
  | None => failM ErrUnknownRequest
  | Some req =>
    match frozenErr (r_Intent req) w with
    | Some e => failM (ErrFrozen e)
    | None =>
      if bool_decide (InternalHash keccak256 in_ ≠ r_IntentHash req) then failM ErrHashMismatch
      else if bool_decide (r_State req = StatePending) then failM (ErrNotApproved StatePending)
      else if bool_decide (r_State req = StateExpired) then failM ErrExpired
      else if bool_decide (r_State req ≠ StateApproved) then failM (ErrNotApproved (r_State req))
      else if negb (Before now (r_ExpiresAt req)) then
        modifyM (put_request (set_state StateExpired (r_DecidedBy req) (r_Reason req)
                                (r_DecidedAt req) req)) ;;;
        failM ErrExpired
      else if bool_decide (i_PolicyVersion (r_Intent req) ≠ (hook_Policy (ext w)).2) then
        failM ErrPolicyChanged
      else if r_Executed req then failM ErrAlreadyExecuted
      else
        h <-- admitExecution (r_Intent req) ;;
        let x := MkExec (r_ID req) (r_JobID req) (r_IntentHash req)
                   (MkGrant in_ (r_ID req) now) h Gated in
        modifyM (put_request (set_executed true now req)) ;;;
        modifyM (λ w, with_inflight (inflight w ++ [x]) w) ;;;
        retM x
    end
  end.

Definition drop_exec (x : Exec) (w : World) : World :=
  with_inflight (filter (λ y, x_ID y ≠ x_ID x) (inflight w)) w.
Definition set_running (x : Exec) : Exec :=
  MkExec (x_ID x) (x_Job x) (x_Hash x) (x_Grant x) (x_Handle x) Running.
Definition unclaim (id : string) (w : World) : World :=
  match requests w !! id with
  | Some req => with_requests (<[ id := set_executed false zeroTime req ]> (requests w)) w
  | None => w
  end.

(** The durable claim; without it nothing runs and the admission is undone. *)
Definition execute_claim (now : time) (x : Exec) : M World ApErr Exec := λ w,
  match appendEvent now (x_Job x) "payment.executing"
          [("request_id", JStr (x_ID x)); ("intent_hash", JStr (x_Hash x))] w with
  | (w1, Err e) =>
    (release_admission (x_Handle x) (drop_exec x (unclaim (x_ID x) w1)),
     Err (match e with ErrAudit e => ErrNoDurableClaim e | _ => e end))
  | (w1, Ok _) =>
    let x' := set_running x in
    (with_inflight (inflight (drop_exec x w1) ++ [x']) w1, Ok x')
  end.

(** After the executor ([failure] is its error text): the closing record and
    the deferred release. *)
Definition execute_finish (now : time) (x : Exec) (failure : option string) :
    M World ApErr unit := λ w,
  let '(w1, r) :=
    match failure with
    | None => appendEvent now (x_Job x) "payment.executed"
        [("request_id", JStr (x_ID x)); ("intent_hash", JStr (x_Hash x))] w
    | Some msg => appendEvent now (x_Job x) "payment.failed"
        [("request_id", JStr (x_ID x)); ("error", JStr msg)] w
    end in
  (release_admission (x_Handle x) (drop_exec x w1),
   match failure, r with
   | Some _, _ => Err ErrExecutionFailed
   | None, Ok _ => Ok tt
   | None, Err (ErrAudit e) => Err (ErrAuditGap e)
   | None, Err e => Err e
   end).

(** [Lifecycle.Execute].  The executor is the closure Go is handed; [X] is what
    it captures and may change next to the daemon's world. *)
Definition Execute {X} (now : time) (in_ : Intent) (requestID : string)
    (exec : Grant → World → X → World * X * option string) (w : World) (c : X) :
    World * X * result ApErr unit :=
  match execute_admit now in_ requestID w with
  | (w, Err e) => (w, c, Err e)
  | (w, Ok x) =>
    match execute_claim now x w with
    | (w, Err e) => (w, c, Err e)
    | (w, Ok x) =>
      let '(w, c, failure) := exec (x_Grant x) w c in
      let '(w, r) := execute_finish now x failure w in (w, c, r)
    end
  end.

(** ** Recovery *)
Record recPayload := MkRec {
  q_RequestID : string; q_IntentHash : string; q_State : string; q_Intent : Intent;
  q_DecidedBy : string; q_By : string; q_Reason : string }.
Definition rec_of_json (v : jval) : option recPayload :=
  a ← dec_str "request_id" v; b ← dec_str "intent_hash" v; c ← dec_str "state" v;
  iv ← dec_obj "intent" v; i ← intent_of_json iv;
  d ← dec_str "decided_by" v; e ← dec_str "by" v; f ← dec_str "reason" v;
  Some (MkRec a b c i d e f).

Definition decided_request (st : string) (p : recPayload) (r : Request) : Request :=
  MkRequest (r_ID r) (r_JobID r) (r_IntentHash r) (r_Intent r) st (q_By p) (q_Reason p)
    (r_CreatedAt r) (r_DecidedAt r) (r_ExpiresAt r) (r_Executed r) (r_ExecutedAt r) (r_decided r).
Definition expired_request (r : Request) : Request :=
  MkRequest (r_ID r) (r_JobID r) (r_IntentHash r) (r_Intent r) StateExpired (r_DecidedBy r)
    (r_Reason r) (r_CreatedAt r) (r_DecidedAt r) (r_ExpiresAt r) (r_Executed r) (r_ExecutedAt r)
    (r_decided r).
Definition executed_request (r : Request) : Request :=
  set_executed true (r_ExecutedAt r) r.
Definition recovered_request (p : recPayload) : Request :=
  MkRequest (q_RequestID p) (i_JobID (q_Intent p)) (q_IntentHash p) (q_Intent p) (q_State p)
    (q_DecidedBy p) "" zeroTime zeroTime (i_ExpiresAt (q_Intent p)) false zeroTime false.
Definition upd (f : Request → Request) (id : string) (m : gmap string Request) :
    gmap string Request :=
  match m !! id with Some r => <[ id := f r ]> m | None => m end.
Definition decision_kinds : list (string * string) :=
  [("approval.approve", StateApproved); ("approval.reject", StateRejected);
   ("approval.request_alternative", StateAlternativeRequested)].

Definition recover_row (m : gmap string Request) (row : EventRow) : option (gmap string Request) :=
  p ← rec_of_json (ev_payload row);
  let id := q_RequestID p in
  Some (
    if bool_decide (id = "") then m
    else if bool_decide (ev_kind row = "approval.requested") then
      <[ id := recovered_request p ]> m
    else match assoc (ev_kind row) decision_kinds with
    | Some st => upd (decided_request st p) id m
    | None =>
      if bool_decide (ev_kind row = "approval.expired") then upd expired_request id m
      else if bool_decide (ev_kind row = "payment.executing") then upd executed_request id m
      else m
    end).
(** The rows in order; a corrupt row stops the replay where it stands. *)
Fixpoint recover_rows (m : gmap string Request) (rows : list EventRow) :
    gmap string Request * bool :=
  match rows with
  | [] => (m, true)
  | row :: rows => match recover_row m row with
                   | Some m' => recover_rows m' rows
                   | None => (m, false)
                   end
  end.
Definition recover_kinds : list string :=
  ["approval.requested"; "approval.approve"; "approval.reject";
   "approval.request_alternative"; "approval.expired"; "payment.executing"].
Definition Recover : M World ApErr unit :=
  rows <-- storeM ErrQueryLog (QueryEvents recover_kinds) ;;
  (λ w, let '(m, ok) := recover_rows (requests w) rows in
        (with_requests m w, if ok then Ok tt else Err ErrCorruptLog)).

(** ** Views *)
Definition Snapshot (id : string) (w : World) : option Request := requests w !! id.
Definition PendingRequests (w : World) : list Request :=
  isort (λ a b, Before (r_CreatedAt a) (r_CreatedAt b))
    (filter (λ r, r_State r = StatePending) (snd <$> map_to_list (requests w))).
(** Whether a waiter on the request's decision blocks. *)
Definition DecisionSignal_blocks (id : string) (w : World) : bool :=
  match requests w !! id with
  | Some r => r_decided r && bool_decide (r_State r = StatePending)
  | None => false
  end.
End Lifecycle.

(** ** What one call leaves alone *)
(** Rows of other kinds than the lifecycle's own were appended, and maybe
    nonces claimed. *)
Definition quiet (d d' : DB) : Prop :=
  (∃ rows, events d' = events d ++ rows ∧ Forall (λ r, ev_kind r ∉ recover_kinds) rows) ∧
  (∃ more, payment_intents d' = payment_intents d ++ more).
#[export] Instance quiet_preorder : PreOrder quiet.
Proof.
  split.
  - intros d. split; exists []; rewrite app_nil_r; auto.
  - intros d1 d2 d3 [(r1 & H1 & F1) (m1 & M1)] [(r2 & H2 & F2) (m2 & M2)]. split.
    + exists (r1 ++ r2). rewrite H2, H1, app_assoc. split; [done|by apply Forall_app_2].
    + exists (m1 ++ m2). by rewrite M2, M1, app_assoc.
Qed.

Lemma quiet_same d d' : d' = d → quiet d d'.
Proof. by intros ->. Qed.

Lemma quiet_appended d now ev : e_Kind ev ∉ recover_kinds → quiet d (appended d now ev).
Proof.
  intros Hk. split; [|exists []; cbn; by rewrite app_nil_r].
  eexists. split; [reflexivity|]. by repeat constructor.
Qed.

(** The promises of a reservation hook: once it accepts, the request's hold is
    open ([hook_held]); it writes no lifecycle event and claims no nonce. *)
Class HooksLaws (W : Type) `{Hooks W} := {
  hook_held : string → W → Prop;
  hook_Reserve_quiet now in_ id s e s' e' ok :
    hook_Reserve now in_ id s e = (s', e', ok) →
    quiet (db s) (db s') ∧ payment_intents (db s') = payment_intents (db s);
  hook_Reserve_held now in_ id s e s' e' :
    hook_Reserve now in_ id s e = (s', e', true) → hook_held id e' }.

Section Specs.
Context {W : Type} `{HooksLaws W} (keccak256 : string → string).
Abbreviation World := (World W).
Implicit Types w : World.

Lemma appendEvent_cases now job kind fields w w' r :
  appendEvent now job kind fields w = (w', r) →
  ∃ s', w' = with_st s' w ∧
    (r = Ok tt ∧ db s' = appended (db (st w)) now (MkEvent zeroTime kind job "approval" (JObj fields)) ∨
     (∃ e, r = Err (ErrAudit e)) ∧ db s' = db (st w)).
Proof.
  unfold appendEvent, bindM, storeM, retM. destruct (Append _ _ _) as [s' q] eqn:E.
  apply Append_cases in E as [[-> Hd]|[[e ->] Hd]]; intros; simplify_eq; eauto 10.
Qed.

Lemma claimNonce_cases in_ w w' r :
  claimNonce in_ w = (w', r) →
  ∃ s', w' = with_st s' w ∧
    (r = Ok tt ∧ Forall (λ q, pi_id q ≠ i_IntentID in_ ∧ pi_nonce q ≠ i_Nonce in_)
                   (payment_intents (db (st w))) ∧
     db s' = MkDB (events (db (st w))) (outbox (db (st w)))
               (payment_intents (db (st w)) ++ [intent_row in_]) ∨
     (∃ e, r = Err e) ∧ db s' = db (st w)).
Proof.
  unfold claimNonce, storeM. destruct (InsertIntent _ _) as [s' q] eqn:E.
  apply InsertIntent_cases in E as [(-> & Hf & Hd)|[Hq Hd]]; intros; simplify_eq; eexists; (split; [done|]).
  - left. auto.
  - right. split; [|done]. destruct q; [by destruct Hq|eauto].
Qed.

(** The event row of a request. *)
Definition requested_event (now : time) (req : Request) : Event :=
  MkEvent zeroTime "approval.requested" (i_JobID (r_Intent req)) "approval" (JObj (requested_fields req)).

(** What a submission did: nothing the lifecycle keeps, or one new request. *)
Definition opened (now : time) (in_ : Intent) (auto : bool) (d d' : DB) (w w' : World) : Prop :=
  let req := new_request keccak256 now auto in_ in
  Forall (λ q, pi_nonce q ≠ i_Nonce in_) (payment_intents d) ∧
  i_Nonce in_ ∈ pi_nonce <$> payment_intents d' ∧
  requests w' = <[ r_ID req := req ]> (requests w) ∧
  (i_Kind in_ ≠ KindAdvance → hook_held (r_ID req) (ext w')) ∧
  ∃ d1, quiet d d1 ∧
        d' = appended d1 now (requested_event now req).

Lemma intake_cases now cfg version in_ w w' r :
  intake keccak256 now cfg version in_ w = (w', r) →
  inflight w' = inflight w ∧ fz w' = fz w ∧
  ((∃ e, r = Err e) ∧ requests w' = requests w ∧ quiet (db (st w)) (db (st w')) ∧
     payment_intents (db (st w')) = payment_intents (db (st w)) ∨
   ∃ res auto d1, r = Ok res ∧ 
     let req := new_request keccak256 now auto in_ in
     requests w' = <[ r_ID req := req ]> (requests w) ∧
     quiet (db (st w)) d1 ∧ payment_intents d1 = payment_intents (db (st w)) ∧
     hook_held (r_ID req) (ext w') ∧ db (st w') = appended d1 now (requested_event now req) ∧
     d_Outcome (Evaluate cfg (hook_Spend now (i_JobID in_) (ext w)) (payment_of version in_)) ≠ Deny).
Proof.
  intros Hi. unfold intake in Hi. unfold bindM at 1, getM in Hi. cbv zeta in Hi.
  set (d := Evaluate cfg _ _) in *.
  run_bind Hi Hm; apply appendEvent_cases in Hm as (s1 & -> & Hs1).
  2: { destruct Hs1 as [[? _]|[_ Hd]]; [done|]. cbn. rewrite Hd. split_and!; try done. left.
       split_and!; eauto. reflexivity. }
  destruct Hs1 as [[_ Hd1]|[[? ?] _]]; [|done].
  assert (Hq1 : quiet (db (st w)) (db s1)).
  { rewrite Hd1. apply quiet_appended. by apply (bool_decide_eq_false_1 _). }
  assert (Hp1 : payment_intents (db s1) = payment_intents (db (st w))) by by rewrite Hd1.
  destruct (bool_decide (d_Outcome d = Deny)) eqn:Eo.
  { unfold failM in Hi. simplify_eq. cbn. eauto 10. }
  apply bool_decide_eq_false in Eo.
  set (req := new_request _ _ _ _) in *.
  run_bind Hi Hm; unfold reserveM in Hm; destruct (hook_Reserve _ _ _ _ _) as [[s2 e2] ok] eqn:Er;
    pose proof (hook_Reserve_quiet _ _ _ _ _ _ _ _ Er) as [Hq2 Hp2]; cbn in Hq2, Hp2.
  2: { simplify_eq. cbn. split_and!; try done. left.
       split_and!; [eauto|done|by etrans|congruence]. }
  destruct ok; [|done]. apply hook_Reserve_held in Er. simplify_eq.
  run_bind Hi Hm; apply appendEvent_cases in Hm as (s3 & -> & Hs3).
  2: { destruct Hs3 as [[? _]|[_ Hd]]; [done|]. cbn in *. rewrite Hd. split_and!; try done. left.
       split_and!; [eauto|done|by etrans|congruence]. }
  destruct Hs3 as [[_ Hd3]|[[? ?] _]]; [|done].
  unfold bindM, modifyM, retM in Hi. simplify_eq. cbn [st with_st with_ext] in Hd3.
  assert (Hn : ∀ w0, inflight (notify req w0) = inflight w0 ∧ fz (notify req w0) = fz w0 ∧
     requests (notify req w0) = requests w0 ∧ st (notify req w0) = st w0 ∧
     ext (notify req w0) = ext w0).
  { intros w0. unfold notify. by case_bool_decide. }
  destruct (Hn (put_request req (with_st s3 (with_ext e2 (with_st s2 (with_st s1 w)))))) as (-> & -> & -> & -> & ->).
  cbn. split_and!; try done. right.
  eexists _, (bool_decide (d_Outcome d = AutoApprove)), (db s2).
  split_and!; [reflexivity|reflexivity|by etrans|congruence|done|exact Hd3|done].
Qed.

Lemma claimed_nonce d in_ :
  i_Nonce in_ ∈ pi_nonce <$> payment_intents d ++ [intent_row in_].
Proof. rewrite fmap_app. apply elem_of_app. right. by left. Qed.

Lemma Submit_cases now in0 w w' r :
  Submit keccak256 now in0 w = (w', r) →
  let in_ := set_PolicyVersion (hook_Policy (ext w)).2 in0 in
  inflight w' = inflight w ∧ fz w' = fz w ∧
  ((∃ e, r = Err e) ∧ requests w' = requests w ∧ quiet (db (st w)) (db (st w')) ∨
   (∃ res, r = Ok res) ∧ ∃ auto, opened now in_ auto (db (st w)) (db (st w')) w w').
Proof.
  intros Hs in_. unfold Submit in Hs. unfold bindM at 1, getM in Hs.
  destruct (frozenErr in0 w) as [e|] eqn:Ef.
  { unfold failM in Hs. simplify_eq. split_and!; try done. left. split_and!; eauto. reflexivity. }
  destruct (hook_Policy (ext w)) as [cfg version] eqn:Ep. cbn [snd] in in_. fold in_ in Hs.
  run_bind Hs Hm; apply claimNonce_cases in Hm as (s1 & -> & Hs1).
  2: { destruct Hs1 as [[? _]|[_ Hd]]; [done|]. cbn. rewrite Hd. split_and!; try done. left.
       split_and!; eauto. reflexivity. }
  destruct Hs1 as [(_ & Hfr & Hd1)|[[? ?] _]]; [|done].
  assert (Hq1 : quiet (db (st w)) (db s1)).
  { rewrite Hd1. split; [exists []; by rewrite app_nil_r|]. eexists. reflexivity. }
  unfold bindM, getM in Hs. destruct (alternative_ok in_ _) eqn:Ea.
  2: { unfold failM in Hs. simplify_eq. cbn. split_and!; try done. left. eauto. }
  apply intake_cases in Hs as (Hif & Hfz & Hcase). cbn [inflight fz with_st] in Hif, Hfz.
  split_and!; [done..|].
  destruct Hcase as [(He & Hrq & Hq & _)|(res & auto & d1 & -> & Hrq & Hq & Hp & Hh & Hd & _)];
    cbn [st with_st requests] in *.
  - left. split_and!; [done|done|by etrans].
  - right. split; [eauto|]. exists auto. unfold opened. cbv zeta. split_and!.
    + eapply Forall_impl; [exact Hfr|]. by intros q [_ ?].
    + rewrite Hd. cbn [payment_intents appended]. rewrite Hp, Hd1. apply claimed_nonce.
    + done.
    + intros _. exact Hh.
    + exists d1. split; [by etrans|done].
Qed.

Lemma SubmitAdvance_cases now in0 w w' r :
  SubmitAdvance keccak256 now in0 w = (w', r) →
  let in_ := set_PolicyVersion (hook_Policy (ext w)).2 in0 in
  inflight w' = inflight w ∧ fz w' = fz w ∧
  ((∃ e, r = Err e) ∧ requests w' = requests w ∧ quiet (db (st w)) (db (st w')) ∨
   (∃ res, r = Ok res) ∧ opened now in_ false (db (st w)) (db (st w')) w w').
Proof.
  intros Hs in_. unfold SubmitAdvance in Hs. unfold bindM at 1, getM in Hs.
  destruct (bool_decide (i_Kind in0 ≠ KindAdvance)) eqn:Ek.
  { unfold failM in Hs. simplify_eq. split_and!; try done. left. split_and!; eauto. reflexivity. }
  apply bool_decide_eq_false, dec_stable in Ek.
  destruct (frozenErr in0 w) as [e|] eqn:Ef.
  { unfold failM in Hs. simplify_eq. split_and!; try done. left. split_and!; eauto. reflexivity. }
  fold in_ in Hs. cbv zeta in Hs. set (req := new_request _ _ _ _) in *.
  run_bind Hs Hm; apply claimNonce_cases in Hm as (s1 & -> & Hs1).
  2: { destruct Hs1 as [[? _]|[_ Hd]]; [done|]. cbn. rewrite Hd. split_and!; try done. left.
       split_and!; eauto. reflexivity. }
  destruct Hs1 as [(_ & Hfr & Hd1)|[[? ?] _]]; [|done].
  assert (Hq1 : quiet (db (st w)) (db s1)).
  { rewrite Hd1. split; [exists []; by rewrite app_nil_r|]. eexists. reflexivity. }
  run_bind Hs Hm; apply appendEvent_cases in Hm as (s3 & -> & Hs3); cbn [st with_st] in Hs3.
  2: { destruct Hs3 as [[? _]|[_ Hd]]; [done|]. cbn in *. rewrite Hd. split_and!; try done. left. eauto. }
  destruct Hs3 as [[_ Hd3]|[[? ?] _]]; [|done].
  unfold bindM, modifyM, retM in Hs. simplify_eq.
  assert (Hn : ∀ w0, inflight (notify req w0) = inflight w0 ∧ fz (notify req w0) = fz w0 ∧
     requests (notify req w0) = requests w0 ∧ st (notify req w0) = st w0 ∧
     ext (notify req w0) = ext w0).
  { intros w0. unfold notify. by case_bool_decide. }
  destruct (Hn (put_request req (with_st s3 (with_st s1 w)))) as (-> & -> & -> & -> & _).
  cbn. split_and!; try done. right. split; [eauto|]. unfold opened. cbv zeta. split_and!.
  - eapply Forall_impl; [exact Hfr|]. by intros q [_ ?].
  - rewrite Hd3. cbn [payment_intents appended]. rewrite Hd1. apply claimed_nonce.
  - done.
  - by intros ?.
  - exists (db s1). split; [done|exact Hd3].
Qed.

(** ** Intake under a freeze, and replayed nonces *)
(** A frozen scope burns nothing.  A submission refused by the kill switch
    leaves the whole world as it was (no nonce claimed, nothing logged, no
    hold), so the same intent can be submitted once the freeze is lifted. *)
Lemma Submit_frozen_unchanged now in0 w e :
  frozenErr in0 w = Some e →
  Submit keccak256 now in0 w = (w, Err (ErrFrozen e)) ∧
  (i_Kind in0 = KindAdvance → SubmitAdvance keccak256 now in0 w = (w, Err (ErrFrozen e))).
Proof.
  intros Hf. unfold Submit, SubmitAdvance, bindM, getM. rewrite Hf. split; [done|].
  intros Hk. by rewrite bool_decide_false by (by intros ?).
Qed.

(** Nonce replay is closed durably.  Once an intent's nonce is in the
    store, every submission that carries it (by either door, whatever else it
    says) opens no request, takes no hold and logs nothing. *)
Lemma nonce_replay_refused now in0 w w' r :
  i_Nonce in0 ∈ pi_nonce <$> payment_intents (db (st w)) →
  Submit keccak256 now in0 w = (w', r) ∨ SubmitAdvance keccak256 now in0 w = (w', r) →
  (∃ e, r = Err e) ∧ requests w' = requests w ∧ ext w' = ext w ∧ inflight w' = inflight w ∧
  notified w' = notified w ∧ db (st w') = db (st w).
Proof.
  intros Hn Hs.
  assert (Hclaim : ∀ v w1 q, claimNonce (set_PolicyVersion v in0) w = (w1, q) →
    ∃ s', w1 = with_st s' w ∧ (∃ e, q = Err e) ∧ db s' = db (st w)).
  { intros v w1 q Hc. apply claimNonce_cases in Hc as (s' & -> & [(_ & Hf & _)|[He Hd]]); [|eauto].
    exfalso. apply list_elem_of_fmap in Hn as (row & Hn & Hin).
    rewrite Forall_forall in Hf. destruct (Hf _ Hin) as [_ Hne]. by apply Hne. }
  destruct Hs as [Hs|Hs]; unfold Submit, SubmitAdvance in Hs; unfold bindM at 1, getM in Hs.
  - destruct (frozenErr in0 w) as [e|]; [unfold failM in Hs; simplify_eq; eauto 10|].
    destruct (hook_Policy (ext w)) as [cfg v].
    run_bind Hs Hm; destruct (Hclaim _ _ _ Hm) as (s' & -> & [e He] & Hd); [done|].
    cbn. rewrite Hd. eauto 10.
  - destruct (bool_decide _); [unfold failM in Hs; simplify_eq; eauto 10|].
    destruct (frozenErr in0 w) as [e|]; [unfold failM in Hs; simplify_eq; eauto 10|].
    run_bind Hs Hm; destruct (Hclaim _ _ _ Hm) as (s' & -> & [e He] & Hd); [done|].
    cbn. rewrite Hd. eauto 10.
Qed.

(** ** The execution gate *)
(** All of [Execute]'s conditions on a request. *)
Definition executable (now : time) (in_ : Intent) (req : Request) (w : World) : Prop :=
  frozenErr (r_Intent req) w = None ∧ InternalHash keccak256 in_ = r_IntentHash req ∧
  r_State req = StateApproved ∧ now < r_ExpiresAt req ∧
  i_PolicyVersion (r_Intent req) = (hook_Policy (ext w)).2 ∧ r_Executed req = false.

Lemma admitExecution_cases in_ w w' r :
  frozenErr in_ w = None → admitExecution in_ w = (w', r) →
  ∃ h f, r = Ok h ∧ w' = with_fz f w.
Proof.
  unfold frozenErr, admitExecution, Freeze.AdmitExecution, Freeze.Check.
  destruct (fz w) as [reg|] eqn:Ef; intros Hf Ha.
  - rewrite Hf in Ha. simplify_eq. eauto.
  - simplify_eq. exists None, None. split; [done|]. destruct w'; cbn in *. by subst.
Qed.

Lemma execute_admit_cases now in_ id w w' r :
  execute_admit keccak256 now in_ id w = (w', r) →
  st w' = st w ∧ ext w' = ext w ∧ notified w' = notified w ∧
  ((∃ e, r = Err e) ∧ inflight w' = inflight w ∧ fz w' = fz w ∧
   (requests w' = requests w ∨
    ∃ req, requests w !! id = Some req ∧ r_State req = StateApproved ∧
      requests w' = <[ r_ID req := set_state StateExpired (r_DecidedBy req) (r_Reason req)
                                     (r_DecidedAt req) req ]> (requests w)) ∧
   (∀ req, requests w !! id = Some req → ¬ executable now in_ req w) ∨
   ∃ req h, requests w !! id = Some req ∧ executable now in_ req w ∧
     let x := MkExec (r_ID req) (r_JobID req) (r_IntentHash req) (MkGrant in_ (r_ID req) now) h Gated in
     r = Ok x ∧ inflight w' = inflight w ++ [x] ∧
     requests w' = <[ r_ID req := set_executed true now req ]> (requests w)).
Proof.
  intros Ha. unfold execute_admit in Ha. unfold bindM at 1, getM in Ha. unfold failM in Ha.
  destruct (requests w !! id) as [req|] eqn:Er.
  2: { simplify_eq. split_and!; try done. left. split_and!; eauto. by intros ? [=]. }
  assert (Hone : ∀ (P : World → Prop), (¬ executable now in_ req w) →
     (∀ req0, Some req = Some req0 → ¬ executable now in_ req0 w)) by (intros _ ?? [= <-]; done).
  unfold executable in *.
  destruct (frozenErr (r_Intent req) w) as [e|] eqn:Ef.
  { simplify_eq. split_and!; try done. left. split_and!; eauto. apply (Hone (λ _, True)). naive_solver. }
  destruct (bool_decide (InternalHash keccak256 in_ ≠ r_IntentHash req)) eqn:E1; bool_to_prop.
  { simplify_eq. split_and!; try done. left. split_and!; eauto. apply (Hone (λ _, True)). naive_solver. }
  apply dec_stable in E1.
  destruct (bool_decide (r_State req = StatePending)) eqn:E2; bool_to_prop.
  { simplify_eq. split_and!; try done. left. split_and!; eauto. apply (Hone (λ _, True)).
    intros (_ & _ & Hst & _). by rewrite Hst in E2. }
  destruct (bool_decide (r_State req = StateExpired)) eqn:E3; bool_to_prop.
  { simplify_eq. split_and!; try done. left. split_and!; eauto. apply (Hone (λ _, True)).
    intros (_ & _ & Hst & _). by rewrite Hst in E3. }
  destruct (bool_decide (r_State req ≠ StateApproved)) eqn:E4; bool_to_prop.
  { simplify_eq. split_and!; try done. left. split_and!; eauto. apply (Hone (λ _, True)). naive_solver. }
  apply dec_stable in E4. unfold Before in Ha.
  destruct (now <? r_ExpiresAt req) eqn:E5; cbn [negb] in Ha; bool_to_prop.
  2: { unfold bindM, modifyM in Ha. simplify_eq. split_and!; try done. left.
       split_and!; [eauto|done|done|right; eauto|]. apply (Hone (λ _, True)). intros (_&_&_&?&_). lia. }
  destruct (bool_decide (i_PolicyVersion (r_Intent req) ≠ (hook_Policy (ext w)).2)) eqn:E6; bool_to_prop.
  { simplify_eq. split_and!; try done. left. split_and!; eauto. apply (Hone (λ _, True)). naive_solver. }
  apply dec_stable in E6. destruct (r_Executed req) eqn:E7.
  { simplify_eq. split_and!; try done. left. split_and!; eauto. apply (Hone (λ _, True)). naive_solver. }
  apply bindM_cases in Ha as [(w1 & h & Hm & Ha)|(e & Hm & ->)];
    apply (admitExecution_cases _ _ _ _ Ef) in Hm as (h' & f & Hh & ->); [|done].
  injection Hh as <-. unfold bindM, modifyM, retM in Ha. simplify_eq. cbn.
  split_and!; try done. right. exists req, h. split_and!; done.
Qed.

(** The execution gate, exactly.  An execution is admitted if and only if
    the request exists and every gate holds at that instant: its scope is not
    frozen, the presented intent's hash is the approved one, the state is
    approved, the approval has not expired, the policy version is still the
    active one, and it was never executed. *)
Lemma execute_admit_iff now in_ id w :
  (∃ x, (execute_admit keccak256 now in_ id w).2 = Ok x) ↔
  ∃ req, requests w !! id = Some req ∧ executable now in_ req w.
Proof.
  destruct (execute_admit keccak256 now in_ id w) as [w' r] eqn:E.
  apply execute_admit_cases in E as (_ & _ & _ & [([e ->] & _ & _ & _ & Hno)|(req & h & Hr & Hx & -> & _)]).
  - split; [intros [x ?]; done|]. intros (req & Hr & Hx). by destruct (Hno req Hr).
  - split; [eauto|]. eauto.
Qed.

(** No gate, no money.  When any gate refuses, [Execute] returns an error,
    the executor is not run (what it captures is untouched), nothing is written
    to the store or the ledger, nothing is in flight that was not before, and
    the request is not claimed (at most it is marked expired). *)
Lemma Execute_refused_inert {X} now in_ id exec w (c : X) w' c' r :
  (∀ req, requests w !! id = Some req → ¬ executable now in_ req w) →
  Execute keccak256 now in_ id exec w c = (w', c', r) →
  (∃ e, r = Err e) ∧ c' = c ∧ st w' = st w ∧ ext w' = ext w ∧ inflight w' = inflight w ∧ fz w' = fz w ∧
  ∀ i req', requests w' !! i = Some req' → requests w !! i = Some req' ∨
    (r_State req' = StateExpired ∧ ∃ req, requests w !! id = Some req ∧ r_Executed req' = r_Executed req).
Proof.
  intros Hno He. unfold Execute in He.
  destruct (execute_admit keccak256 now in_ id w) as [w1 [x|e]] eqn:Hm;
    apply execute_admit_cases in Hm as (Hst & Hext & _ & [([? ?] & Hif & Hfz & Hrq & _)|(req & h & Hr & Hx & Hrx & _)]);
    try done; try by destruct (Hno req Hr).
  - simplify_eq. split_and!; eauto. intros i req' Hi. destruct Hrq as [Hrq|(req & Hr & _ & Hrq)]; rewrite Hrq in Hi; [auto|].
    apply lookup_insert_Some in Hi as [[<- <-]|[_ Hi]]; [|auto]. right. eauto.
Qed.

(** ** The other transitions *)
Definition claim_event (x : Exec) : Event :=
  MkEvent zeroTime "payment.executing" (x_Job x) "approval"
    (JObj [("request_id", JStr (x_ID x)); ("intent_hash", JStr (x_Hash x))]).

Lemma release_admission_same h w :
  st (release_admission h w) = st w ∧ requests (release_admission h w) = requests w ∧
  inflight (release_admission h w) = inflight w ∧ ext (release_admission h w) = ext w.
Proof. unfold release_admission. by destruct h, (fz w). Qed.

Lemma unclaim_same id w :
  st (unclaim id w) = st w ∧ inflight (unclaim id w) = inflight w ∧ ext (unclaim id w) = ext w.
Proof. unfold unclaim. by destruct (requests w !! id). Qed.

Lemma execute_claim_cases now x w w' r :
  execute_claim now x w = (w', r) →
  ext w' = ext w ∧
  (r = Ok (set_running x) ∧ requests w' = requests w ∧
   inflight w' = filter (λ y, x_ID y ≠ x_ID x) (inflight w) ++ [set_running x] ∧
   db (st w') = appended (db (st w)) now (claim_event x) ∨
   (∃ e, r = Err e) ∧ requests w' = upd (set_executed false zeroTime) (x_ID x) (requests w) ∧
   inflight w' = filter (λ y, x_ID y ≠ x_ID x) (inflight w) ∧ db (st w') = db (st w)).
Proof.
  unfold execute_claim. destruct (appendEvent _ _ _ _ w) as [w1 q] eqn:E.
  apply appendEvent_cases in E as (s' & -> & [[-> Hd]|[[e ->] Hd]]); intros; simplify_eq.
  - cbn. split; [done|]. left. done.
  - destruct (release_admission_same (x_Handle x) (drop_exec x (unclaim (x_ID x) (with_st s' w))))
      as (-> & -> & -> & ->). cbn.
    destruct (unclaim_same (x_ID x) (with_st s' w)) as (-> & -> & ->). cbn. split; [done|].
    right. split_and!; [eauto| |done|done]. unfold unclaim, upd. cbn.
    by destruct (requests w !! x_ID x).
Qed.

Lemma execute_finish_cases now x failure w w' r :
  execute_finish now x failure w = (w', r) →
  requests w' = requests w ∧ ext w' = ext w ∧
  inflight w' = filter (λ y, x_ID y ≠ x_ID x) (inflight w) ∧ quiet (db (st w)) (db (st w')).
Proof.
  assert (Hgen : ∀ kind fields w1 (q : result ApErr ()), kind ∉ recover_kinds →
    appendEvent now (x_Job x) kind fields w = (w1, q) →
    let w2 := release_admission (x_Handle x) (drop_exec x w1) in
    requests w2 = requests w ∧ ext w2 = ext w ∧
    inflight w2 = filter (λ y, x_ID y ≠ x_ID x) (inflight w) ∧ quiet (db (st w)) (db (st w2))).
  { intros kind fields w1 q Hk E. cbv zeta.
    destruct (release_admission_same (x_Handle x) (drop_exec x w1)) as (-> & -> & -> & ->).
    apply appendEvent_cases in E as (s' & -> & [[_ Hd]|[_ Hd]]); cbn;
      split_and!; try done; rewrite Hd; [by apply quiet_appended|reflexivity]. }
  unfold execute_finish. destruct failure as [msg|];
    destruct (appendEvent _ _ _ _ w) as [w1 q] eqn:E; intros [= <- _];
    (eapply Hgen; [|exact E]); by apply (bool_decide_eq_false_1 _).
Qed.

Definition decision_event (req : Request) (kind : string) (more : list (string * jval)) : Event :=
  MkEvent zeroTime kind (r_JobID req) "approval" (JObj (("request_id", JStr (r_ID req)) :: more)).

(** Which row a decision writes, and the state it announces. *)
Definition decision_row_ok (kind st : string) : Prop :=
  assoc kind decision_kinds = Some st ∨ kind = "approval.expired" ∧ st = StateExpired.

Lemma Decide_cases now id kind by_ reason w w' r :
  Decide now id kind by_ reason w = (w', r) →
  inflight w' = inflight w ∧ ext w' = ext w ∧ fz w' = fz w ∧
  (requests w' = requests w ∧ st w' = st w ∨
   ∃ req st' by' re', requests w !! id = Some req ∧ r_State req = StatePending ∧ st' ≠ StatePending ∧
     requests w' = <[ r_ID req := set_state st' by' re' now req ]> (requests w) ∧
     (db (st w') = db (st w) ∨
      ∃ k more, decision_row_ok k st' ∧
        (more = [] ∨ ∃ b e, more = [("by", JStr b); ("reason", JStr e)]) ∧
        db (st w') = appended (db (st w)) now (decision_event req k more))).
Proof.
  intros Hx. unfold Decide in Hx.
  destruct (bool_decide (by_ = "")); [unfold failM in Hx; simplify_eq; auto 6|].
  unfold bindM at 1, getM in Hx. unfold failM, retM in Hx.
  destruct (requests w !! id) as [req|] eqn:Er; [|simplify_eq; auto 6].
  destruct (target_of kind) as [target|] eqn:Et; [|simplify_eq; auto 6].
  destruct (_ && _) in Hx; [simplify_eq; auto 6|].
  unfold terminal in Hx.
  destruct (bool_decide (r_State req ≠ StatePending)) eqn:Ep; [simplify_eq; auto 6|].
  apply bool_decide_eq_false, dec_stable in Ep.
  destruct (negb (Before now (r_ExpiresAt req))) eqn:Ee.
  - unfold bindM at 1, modifyM in Hx. unfold bindM in Hx.
    destruct (appendEvent _ _ _ _ _) as [w1 q] eqn:E.
    apply appendEvent_cases in E as (s' & -> & Hq). cbn [st put_request with_requests] in Hq.
    assert (w' = with_st s' (put_request (set_state StateExpired (r_DecidedBy req) "expired before decision" now req) w))
      as -> by (destruct q; by simplify_eq).
    cbn. split_and!; try done. right. exists req, StateExpired, (r_DecidedBy req), "expired before decision".
    split_and!; try done. destruct Hq as [[_ Hd]|[_ Hd]]; [right|by left].
    exists "approval.expired", []. split_and!; [by right|by left|exact Hd].
  - unfold bindM at 1, modifyM in Hx. unfold bindM in Hx.
    destruct (appendEvent _ _ _ _ _) as [w1 q] eqn:E.
    apply appendEvent_cases in E as (s' & -> & Hq). cbn [st put_request with_requests] in Hq.
    assert (w' = with_st s' (put_request (set_state target by_ reason now req) w))
      as -> by (destruct q; by simplify_eq).
    cbn. split_and!; try done. right. exists req, target, by_, reason.
    assert (Ht : decision_row_ok ("approval." +:+ kind) target ∧ target ≠ StatePending).
    { unfold target_of in Et. repeat case_bool_decide; simplify_eq; split; try done; by left. }
    destruct Ht as [Hrow Hne]. split_and!; try done.
    destruct Hq as [[_ Hd]|[_ Hd]]; [right|by left].
    eexists _, _. split_and!; [exact Hrow|right; eauto|exact Hd].
Qed.
End Specs.

(** ** What recovery reads back *)
Lemma intent_json_decode i :
  intent_utf8 i = true → intent_of_json (json_Marshal (intent_json i)) = Some i.
Proof.
  unfold intent_utf8, intent_strings. cbn [forallb]. intros H. bool_to_prop.
  unfold intent_of_json, dec_str, dec_int, dec_time. cbn. rewrite !utf8_clean_valid by done.
  by destruct i.
Qed.

Lemma ascii_valid s : sall acc1 s = true → valid_utf8 s = true.
Proof.
  unfold valid_utf8. induction s as [|c s IH]; [done|]. cbn. intros H. bool_to_prop.
  rewrite H. cbn. auto.
Qed.
Lemma sall_substring p n m s : sall p s = true → sall p (String.substring n m s) = true.
Proof.
  revert n m. induction s as [|c s IH]; intros n m; [by destruct n, m|]. cbn. intros H. bool_to_prop.
  destruct n as [|n], m as [|m]; cbn; try done; rewrite ?andb_true_iff; auto.
Qed.

Lemma opened_decode r :
  valid_utf8 (r_ID r) = true → valid_utf8 (r_IntentHash r) = true →
  valid_utf8 (r_State r) = true → valid_utf8 (r_DecidedBy r) = true →
  intent_utf8 (r_Intent r) = true →
  rec_of_json (json_Marshal (JObj (requested_fields r))) =
  Some (MkRec (r_ID r) (r_IntentHash r) (r_State r) (r_Intent r) (r_DecidedBy r) "" "").
Proof.
  intros H1 H2 H3 H4 Hi. apply intent_json_decode in Hi. revert Hi.
  unfold requested_fields, rec_of_json, dec_obj, dec_str.
  generalize (intent_json (r_Intent r)). generalize intent_of_json. intros f J Hf.
  cbn. rewrite !utf8_clean_valid by done. lazy -[json_Marshal]. by rewrite Hf.
Qed.

Lemma zero_intent_decode : intent_of_json JNull = Some zeroIntent.
Proof. reflexivity. Qed.

Lemma rec_request_id id more :
  valid_utf8 id = true →
  (more = [] ∨ (∃ h, more = [("intent_hash", JStr h)]) ∨
   (∃ b e, more = [("by", JStr b); ("reason", JStr e)])) →
  ∃ p, rec_of_json (json_Marshal (JObj (("request_id", JStr id) :: more))) = Some p ∧
       q_RequestID p = id.
Proof.
  intros Hv Hm. unfold rec_of_json, dec_obj, dec_str.
  destruct Hm as [->|[(h & ->)|(b & e & ->)]]; cbn; rewrite (utf8_clean_valid id) by done; eauto.
Qed.

(** ** Histories *)
Definition life_rows (d : DB) : list EventRow := filter (λ r, ev_kind r ∈ recover_kinds) (events d).
Definition rec_id (row : EventRow) : option string := q_RequestID <$> rec_of_json (ev_payload row).
(** The durable execution claims of a request. *)
Definition exec_count (id : string) (d : DB) : nat :=
  length (filter (λ r, ev_kind r = "payment.executing" ∧ rec_id r = Some id) (events d)).

Section Histories.
Context {W : Type} `{HooksLaws W} (keccak256 : string → string).
Hypothesis keccak_ascii : ∀ s, sall acc1 (keccak256 s) = true.
Abbreviation World := (World W).
Implicit Types w : World.

(** Intents are text, and the truncated request id does not collide with a
    request that carries another nonce. *)
Definition submission_ok (in0 : Intent) (w : World) : Prop :=
  let in_ := set_PolicyVersion (hook_Policy (ext w)).2 in0 in
  intent_utf8 in_ = true ∧
  ∀ r, requests w !! request_id keccak256 in_ = Some r → i_Nonce (r_Intent r) = i_Nonce in_.

(** One step of the daemon as the lifecycle sees it.  [a_Other] is any step of
    another component: the ledger, the kill switch, a policy change, the
    executor at work.  [a_Restart] keeps the database and nothing else. *)
Inductive astep : World → World → Prop :=
| a_Submit now in0 w : submission_ok in0 w → astep w (Submit keccak256 now in0 w).1
| a_SubmitAdvance now in0 w : submission_ok in0 w → astep w (SubmitAdvance keccak256 now in0 w).1
| a_Decide now id kind by_ reason w : astep w (Decide now id kind by_ reason w).1
| a_Admit now in_ id w : astep w (execute_admit keccak256 now in_ id w).1
| a_Claim now x w : x ∈ inflight w → x_Phase x = Gated → astep w (execute_claim now x w).1
| a_Finish now x failure w :
    x ∈ inflight w → x_Phase x = Running → astep w (execute_finish now x failure w).1
| a_Other w w' :
    requests w' = requests w → inflight w' = inflight w → quiet (db (st w)) (db (st w')) →
    astep w w'
| a_Restart w w0 w' :
    db (st w0) = db (st w) → requests w0 = ∅ → inflight w0 = [] →
    Recover w0 = (w', Ok tt) → astep w w'.

Definition durable (id : string) (w : World) : Prop := exec_count id (db (st w)) = 1%nat.

(** How a recovered request relates to the live one. *)
Definition recovered_as (w : World) (live rec : Request) : Prop :=
  r_ID rec = r_ID live ∧ r_JobID rec = r_JobID live ∧ r_IntentHash rec = r_IntentHash live ∧
  r_Intent rec = r_Intent live ∧ r_ExpiresAt rec = r_ExpiresAt live ∧
  (r_Executed rec = true ↔ durable (r_ID live) w) ∧
  (r_State rec = r_State live ∨
   r_State live ≠ StatePending ∧
   (r_State rec = StatePending ∨ r_State live = StateExpired ∧ r_State rec = StateApproved)).

Definition keyed (d : DB) (id : string) (r : Request) : Prop :=
  r_ID r = id ∧ id ≠ "" ∧ valid_utf8 id = true ∧
  i_Nonce (r_Intent r) ∈ pi_nonce <$> payment_intents d.

Record Inv (w : World) : Prop := {
  inv_keyed : map_Forall (keyed (db (st w))) (requests w);
  inv_rec : ∃ m, recover_rows ∅ (life_rows (db (st w))) = (m, true) ∧
    ∀ id, match requests w !! id, m !! id with
          | Some r, Some r' => recovered_as w r r'
          | None, None => True
          | _, _ => False
          end;
  inv_flight : NoDup (x_ID <$> inflight w) ∧
    ∀ x, x ∈ inflight w → ∃ r, requests w !! x_ID x = Some r ∧ r_Executed r = true ∧
      exec_count (x_ID x) (db (st w)) = match x_Phase x with Gated => 0 | Running => 1 end%nat;
  inv_once : ∀ id, (exec_count id (db (st w)) ≤ 1)%nat ∧
    (durable id w → ∃ r, requests w !! id = Some r ∧ r_Executed r = true) }.

Lemma life_rows_quiet d d' : quiet d d' → life_rows d' = life_rows d.
Proof.
  intros [(rows & He & Hf) _]. unfold life_rows. rewrite He, filter_app.
  rewrite <-(app_nil_r (filter _ (events d))) at 2. f_equal.
  clear He. induction Hf as [|r rows Hr _ IH]; [done|]. by rewrite filter_cons_False.
Qed.
Lemma exec_count_quiet id d d' : quiet d d' → exec_count id d' = exec_count id d.
Proof.
  intros [(rows & He & Hf) _]. unfold exec_count. rewrite He, filter_app, length_app.
  enough (length (filter (λ r, ev_kind r = "payment.executing" ∧ rec_id r = Some id) rows) = 0%nat) by lia.
  clear He. induction Hf as [|r rows Hr _ IH]; [done|]. rewrite filter_cons_False; [done|].
  intros [Hk _]. apply Hr. rewrite Hk. by apply (bool_decide_eq_true_1 _).
Qed.
Lemma keyed_quiet d d' id r : quiet d d' → keyed d id r → keyed d' id r.
Proof.
  intros [_ (more & Hm)] (? & ? & ? & Hn). split_and!; try done. rewrite Hm, fmap_app.
  by apply elem_of_app; left.
Qed.

Lemma life_rows_appended d now ev :
  e_Kind ev ∈ recover_kinds → life_rows (appended d now ev) = life_rows d ++ [row_of d now ev].
Proof.
  intros Hk. unfold life_rows, appended. cbn [events]. by rewrite filter_app, filter_cons_True.
Qed.
Lemma exec_count_appended id d now ev :
  exec_count id (appended d now ev) =
  (exec_count id d + if bool_decide (e_Kind ev = "payment.executing" ∧
                                     rec_id (row_of d now ev) = Some id) then 1 else 0)%nat.
Proof.
  unfold exec_count, appended. cbn [events]. rewrite filter_app, length_app. f_equal.
  case_bool_decide; [by rewrite filter_cons_True|by rewrite filter_cons_False].
Qed.

Lemma recover_rows_snoc m rows row m1 m2 :
  recover_rows m rows = (m1, true) → recover_row m1 row = Some m2 →
  recover_rows m (rows ++ [row]) = (m2, true).
Proof.
  revert m. induction rows as [|r rows IH]; intros m Hm Hr; cbn in *.
  - simplify_eq. by rewrite Hr.
  - destruct (recover_row m r); [by apply IH|done].
Qed.

(** ** Steps that leave the lifecycle alone *)
Lemma Inv_quiet w w' :
  requests w' = requests w → inflight w' = inflight w → quiet (db (st w)) (db (st w')) →
  Inv w → Inv w'.
Proof.
  intros Hr Hi Hq [Hk (m & Hm & Hrec) (Hn & Hf) Ho].
  assert (Hc : ∀ id, exec_count id (db (st w')) = exec_count id (db (st w)))
    by (intros; by apply exec_count_quiet).
  split.
  - rewrite Hr. intros id r Hid. eapply keyed_quiet; [done|by apply Hk].
  - exists m. rewrite (life_rows_quiet _ _ Hq). split; [done|]. intros id. specialize (Hrec id).
    rewrite Hr. destruct (requests w !! id), (m !! id); try done.
    unfold recovered_as, durable in *. by rewrite Hc.
  - rewrite Hi, Hr. split; [done|]. intros x Hx. destruct (Hf x Hx) as (r & ? & ? & ?).
    exists r. by rewrite Hc.
  - intros id. unfold durable. rewrite Hc, Hr. apply Ho.
Qed.

(** Requests may change in their state only. *)
Lemma recovered_state w w' live live' rec :
  recovered_as w live rec → exec_count (r_ID live) (db (st w')) = exec_count (r_ID live) (db (st w)) →
  r_ID live' = r_ID live → r_JobID live' = r_JobID live → r_IntentHash live' = r_IntentHash live →
  r_Intent live' = r_Intent live → r_ExpiresAt live' = r_ExpiresAt live →
  (r_State rec = r_State live' ∨
   r_State live' ≠ StatePending ∧
   (r_State rec = StatePending ∨ r_State live' = StateExpired ∧ r_State rec = StateApproved)) →
  recovered_as w' live' rec.
Proof.
  unfold recovered_as, durable. intros (?&?&?&?&?&?&?) Hc Hid. rewrite Hid, Hc. intros.
  split_and!; congruence || tauto.
Qed.

(** ** Preservation, step by step *)
Lemma request_id_ok in_ :
  valid_utf8 (request_id keccak256 in_) = true ∧ request_id keccak256 in_ ≠ "".
Proof.
  split; [|done]. unfold request_id. apply ascii_valid. rewrite sall_app. cbn [sall].
  rewrite sall_substring; [by vm_compute|]. apply keccak_ascii.
Qed.

Lemma live_row w id r :
  Inv w → requests w !! id = Some r →
  keyed (db (st w)) id r ∧ ∃ m r', recover_rows ∅ (life_rows (db (st w))) = (m, true) ∧
    m !! id = Some r' ∧ recovered_as w r r'.
Proof.
  intros [Hk (m & Hm & Hrec) _ _] Hr. split; [by apply Hk|]. specialize (Hrec id). rewrite Hr in Hrec.
  destruct (m !! id) as [r'|] eqn:E; [eauto|done].
Qed.

Lemma not_durable_zero id w : Inv w → ¬ durable id w → exec_count id (db (st w)) = 0%nat.
Proof. intros HI Hn. destruct (inv_once w HI id) as [Ho _]. unfold durable in Hn. lia. Qed.

Lemma Inv_opened now in_ auto w w' :
  Inv w → intent_utf8 in_ = true →
  (∀ r, requests w !! request_id keccak256 in_ = Some r → i_Nonce (r_Intent r) = i_Nonce in_) →
  inflight w' = inflight w →
  opened keccak256 now in_ auto (db (st w)) (db (st w')) w w' → Inv w'.
Proof.
  intros HI Hu Hcol Hif (Hfr & Hnn & Hrq & _ & d1 & Hq & Hd).
  set (req := new_request keccak256 now auto in_) in *. set (id := request_id keccak256 in_) in *.
  change (r_ID req) with id in *. destruct (request_id_ok in_) as [Hidv Hid0]. fold id in Hidv, Hid0.
  assert (Hnone : requests w !! id = None).
  { destruct (requests w !! id) as [r|] eqn:Er; [|done]. exfalso.
    destruct (live_row w id r HI Er) as [(_ & _ & _ & Hn) _]. rewrite (Hcol r eq_refl) in Hn.
    apply list_elem_of_fmap in Hn as (row & Hn & Hin). rewrite Forall_forall in Hfr.
    by apply (Hfr row Hin). }
  assert (Hnd : ¬ durable id w).
  { intros Hdu. destruct (inv_once w HI id) as [_ Ho]. destruct (Ho Hdu) as (r & Hr & _). congruence. }
  assert (Hq' : quiet (db (st w)) d1) by done.
  assert (Hc : ∀ i, exec_count i (db (st w')) = exec_count i (db (st w))).
  { intros i. rewrite Hd, exec_count_appended, (exec_count_quiet i _ _ Hq').
    rewrite bool_decide_false; [lia|]. by intros [? _]. }
  assert (Hp : payment_intents (db (st w')) = payment_intents d1) by by rewrite Hd.
  destruct HI as [Hk (m & Hm & Hrec) (Hn & Hf) Ho]. split.
  - rewrite Hrq. apply map_Forall_insert_2; [by split_and!|].
    intros i r Hr. destruct (keyed_quiet _ _ _ _ Hq' (Hk i r Hr)) as (? & ? & ? & ?).
    split_and!; try done. by rewrite Hp.
  - exists (<[ id := recovered_request
      (MkRec (r_ID req) (r_IntentHash req) (r_State req) (r_Intent req) (r_DecidedBy req) "" "") ]> m).
    split.
    + rewrite Hd, life_rows_appended by (unfold recover_kinds; rewrite elem_of_cons; by left).
      rewrite (life_rows_quiet _ _ Hq'). eapply recover_rows_snoc; [exact Hm|].
      unfold recover_row. cbn [ev_payload row_of e_Payload requested_event].
      rewrite opened_decode; [|done|by apply ascii_valid, keccak_ascii|by destruct auto|by destruct auto|done].
      cbn [mbind option_bind q_RequestID]. change (r_ID req) with id.
      rewrite bool_decide_false by done. by rewrite bool_decide_true by done.
    + intros i. rewrite Hrq. destruct (decide (id = i)) as [<-|Hne].
      * rewrite !lookup_insert_eq. unfold recovered_as, durable. cbn.
        change (request_id keccak256 in_) with id. rewrite Hc. split_and!; try done.
        by left.
      * rewrite !lookup_insert_ne by done. specialize (Hrec i).
        destruct (requests w !! i), (m !! i); try done.
        unfold recovered_as, durable in *. by rewrite Hc.
  - rewrite Hif. split; [done|]. intros x Hx. destruct (Hf x Hx) as (r & Hr & ? & ?).
    exists r. rewrite Hrq, Hc. split_and!; try done. rewrite lookup_insert_ne; [done|]. intros He.
    rewrite <-He in Hr. congruence.
  - intros i. unfold durable. rewrite Hc, Hrq. destruct (Ho i) as [? Hdu]. split; [done|].
    intros Hx1. destruct (Hdu Hx1) as (r & Hr & ?). exists r. split; [|done].
    rewrite lookup_insert_ne; [done|]. intros He. rewrite <-He in Hr. congruence.
Qed.

(** Updating a live request in place, with the log as it was. *)
Lemma Inv_update w w' id live live' :
  Inv w → requests w !! id = Some live → db (st w') = db (st w) →
  requests w' = <[ id := live' ]> (requests w) →
  r_ID live' = r_ID live → r_JobID live' = r_JobID live → r_IntentHash live' = r_IntentHash live →
  r_Intent live' = r_Intent live → r_ExpiresAt live' = r_ExpiresAt live →
  (∀ rec, recovered_as w live rec → r_State rec = r_State live' ∨
     r_State live' ≠ StatePending ∧
     (r_State rec = StatePending ∨ r_State live' = StateExpired ∧ r_State rec = StateApproved)) →
  (durable id w → r_Executed live' = true) →
  NoDup (x_ID <$> inflight w') →
  (∀ x, x ∈ inflight w' → (x_ID x = id → r_Executed live' = true) ∧
     (x ∈ inflight w ∨ x_ID x = id ∧ x_Phase x = Gated ∧ ¬ durable id w)) →
  Inv w'.
Proof.
  intros HI Hr Hd Hrq H1 H2 H3 H4 H5 Hstate Hex Hnd Hfl.
  destruct (live_row w id live HI Hr) as [(Hid & Hkey) _].
  assert (Hnz := not_durable_zero id w HI).
  destruct HI as [Hk (m & Hm & Hrec) (Hn & Hf) Ho]. split.
  - rewrite Hrq, Hd. apply map_Forall_insert_2; [|done]. split; [congruence|]. by rewrite H4.
  - exists m. rewrite Hd. split; [done|]. intros i. rewrite Hrq. specialize (Hrec i).
    destruct (decide (id = i)) as [<-|Hne].
    + rewrite lookup_insert_eq. rewrite Hr in Hrec. destruct (m !! id) as [rec|]; [|done].
      eapply recovered_state; [exact Hrec|by rewrite Hd|done..|by apply Hstate].
    + rewrite lookup_insert_ne by done. destruct (requests w !! i), (m !! i); try done.
      unfold recovered_as, durable in *. by rewrite Hd.
  - split; [done|]. intros x Hx. destruct (Hfl x Hx) as [Hxe [Hold|(Hxi & Hxp & Hxd)]]; rewrite Hrq, Hd.
    + destruct (Hf x Hold) as (r & Hxr & ? & ?). destruct (decide (id = x_ID x)) as [He|Hne].
      * rewrite <-He, lookup_insert_eq. exists live'. split_and!; [done|by apply Hxe|congruence].
      * rewrite lookup_insert_ne by done. eauto.
    + rewrite Hxi, lookup_insert_eq, Hxp. exists live'. split_and!; [done|by apply Hxe|auto].
  - intros i. unfold durable. rewrite Hd, Hrq. destruct (Ho i) as [? Hdu]. split; [done|].
    intros Hc. destruct (Hdu Hc) as (r & ? & ?). destruct (decide (id = i)) as [<-|Hne].
    + rewrite lookup_insert_eq. eauto.
    + rewrite lookup_insert_ne by done. eauto.
Qed.

(** The log gains one row of [id] that the replay applies to the recovered
    request as the step does to the live one. *)
Lemma Inv_row w w' id live live' now ev (g : Request → Request) :
  Inv w → requests w !! id = Some live → requests w' = <[ id := live' ]> (requests w) →
  db (st w') = appended (db (st w)) now ev → e_Kind ev ∈ recover_kinds →
  rec_id (row_of (db (st w)) now ev) = Some id →
  (∀ m rec, m !! id = Some rec →
     recover_row m (row_of (db (st w)) now ev) = Some (<[ id := g rec ]> m)) →
  r_ID live' = r_ID live → i_Nonce (r_Intent live') = i_Nonce (r_Intent live) →
  (∀ rec, recovered_as w live rec → recovered_as w' live' (g rec)) →
  NoDup (x_ID <$> inflight w') →
  (∀ x, x ∈ inflight w' → x_ID x ≠ id → x ∈ inflight w) →
  (∀ x, x ∈ inflight w' → x_ID x = id → r_Executed live' = true ∧
     exec_count id (db (st w')) = match x_Phase x with Gated => 0 | Running => 1 end%nat) →
  (exec_count id (db (st w')) ≤ 1)%nat → (durable id w' → r_Executed live' = true) →
  Inv w'.
Proof.
  intros HI Hr Hrq Hd Hk Hrow Hrec' Hid' Hnon Hg Hnd Hother Hself Hle Hdu.
  destruct (live_row w id live HI Hr) as [(Hid & Hkey) _].
  assert (Hc : ∀ i, i ≠ id → exec_count i (db (st w')) = exec_count i (db (st w))).
  { intros i Hne. rewrite Hd, exec_count_appended, bool_decide_false; [lia|]. rewrite Hrow. naive_solver. }
  destruct HI as [Hkd (m & Hm & Hrec) (Hn & Hf) Ho]. split.
  - rewrite Hrq, Hd. apply map_Forall_insert_2; [|exact Hkd]. unfold keyed. by rewrite Hid', Hnon.
  - pose proof (Hrec id) as Hri. rewrite Hr in Hri. destruct (m !! id) as [rec|] eqn:Em; [|done].
    exists (<[ id := g rec ]> m). split.
    + rewrite Hd, life_rows_appended by done. eapply recover_rows_snoc; [exact Hm|by apply Hrec'].
    + intros i. rewrite Hrq. destruct (decide (id = i)) as [<-|Hne].
      * rewrite !lookup_insert_eq. by apply Hg.
      * rewrite !lookup_insert_ne by done. specialize (Hrec i).
        destruct (requests w !! i) as [ri|] eqn:Ei, (m !! i); try done.
        unfold recovered_as, durable in *. destruct (Hkd i ri Ei) as [-> _]. rewrite Hc by done.
        by destruct (Hkd i ri Ei) as [<- _].
  - split; [done|]. intros x Hx. destruct (decide (x_ID x = id)) as [He|Hne].
    + destruct (Hself x Hx He) as [Hxe Hxc]. rewrite He, Hrq, lookup_insert_eq. eauto.
    + destruct (Hf x (Hother x Hx Hne)) as (r & ? & ? & ?). exists r.
      rewrite Hrq, lookup_insert_ne, Hc by done. done.
  - intros i. destruct (decide (i = id)) as [->|Hne].
    + split; [done|]. rewrite Hrq, lookup_insert_eq. eauto.
    + unfold durable. rewrite Hrq, lookup_insert_ne, Hc by done. apply Ho.
Qed.

Lemma flight_entry w x : Inv w → x ∈ inflight w → ∃ r, requests w !! x_ID x = Some r ∧
  r_Executed r = true ∧ exec_count (x_ID x) (db (st w)) = match x_Phase x with Gated => 0 | Running => 1 end%nat.
Proof. intros HI. apply (inv_flight w HI). Qed.

Lemma NoDup_others w x :
  NoDup (x_ID <$> inflight w) → NoDup (x_ID <$> filter (λ y, x_ID y ≠ x_ID x) (inflight w)).
Proof. intros Hn. eapply sublist_NoDup; [exact Hn|]. apply fmap_sublist, sublist_filter. Qed.
Lemma NoDup_replace w x x' : x_ID x' = x_ID x →
  NoDup (x_ID <$> inflight w) → NoDup (x_ID <$> filter (λ y, x_ID y ≠ x_ID x) (inflight w) ++ [x']).
Proof.
  intros Hid Hn. rewrite fmap_app. apply NoDup_app. split; [by apply NoDup_others|split].
  - intros i Hi He. apply list_elem_of_singleton in He as ->.
    apply list_elem_of_fmap in Hi as (y & Hy & Hin). apply list_elem_of_filter in Hin as [Hne _]. congruence.
  - apply NoDup_singleton.
Qed.

Lemma Inv_decide now id kind by_ reason w : Inv w → Inv (Decide now id kind by_ reason w).1.
Proof.
  intros HI. destruct (Decide _ _ _ _ _ w) as [w' r] eqn:E. cbn.
  apply Decide_cases in E as (Hif & _ & _ & [[Hrq Hst]|(req & st' & by' & re' & Hr & Hpend & Hne & Hrq & Hdb)]).
  { apply (Inv_quiet w w'); try done. by rewrite Hst. }
  destruct (live_row w id req HI Hr) as [(Hid & Hid0 & Hv & _) _]. rewrite Hid in Hrq.
  pose proof (inv_flight w HI) as [Hn Hf]. pose proof (inv_once w HI id) as [Hle Hdur].
  assert (Hdu : durable id w → r_Executed req = true).
  { intros Hdu. destruct (Hdur Hdu) as (r0 & Hr0 & ?). congruence. }
  destruct Hdb as [Hd|(k & more & Hk & Hmore & Hd)].
  - eapply (Inv_update w w' id req); try done.
    + intros rec (_ & _ & _ & _ & _ & _ & Hs). right. split; [done|left].
      destruct Hs as [->|[? _]]; congruence.
    + by rewrite Hif.
    + rewrite Hif. intros x Hx. split; [|by left]. intros He. destruct (Hf x Hx) as (r0 & Hr0 & ? & _).
      rewrite He, Hr in Hr0. by simplify_eq/=.
  - assert (Hkk : k ∈ recover_kinds ∧ k ≠ "approval.requested" ∧ k ≠ "payment.executing").
    { destruct Hk as [Hk|[-> _]]; [|split_and!; [unfold recover_kinds; rewrite !elem_of_cons; tauto|done..]].
      unfold decision_kinds, assoc in Hk. repeat case_bool_decide; simplify_eq;
        (split_and!; [unfold recover_kinds; rewrite !elem_of_cons; tauto|done..]). }
    destruct Hkk as (Hkin & Hk1 & Hk2).
    destruct (rec_request_id (r_ID req) more) as (p & Hp & Hpid);
      [by rewrite Hid|destruct Hmore as [->|(b & e & ->)]; eauto 10|].
    assert (Hc : exec_count id (db (st w')) = exec_count id (db (st w))).
    { rewrite Hd, exec_count_appended, bool_decide_false; [lia|]. by intros [? _]. }
    eapply (Inv_row w w' id req _ now _ (λ rec, if bool_decide (k = "approval.expired")
        then expired_request rec else decided_request st' p rec)); try done.
    + unfold rec_id. cbn [ev_payload row_of e_Payload decision_event]. rewrite Hp. cbn. congruence.
    + intros m rec Hm. unfold recover_row. cbn [ev_payload row_of e_Payload decision_event ev_kind e_Kind].
      rewrite Hp. cbn [mbind option_bind]. rewrite Hpid, Hid.
      rewrite (bool_decide_false (id = "")), (bool_decide_false (k = "approval.requested")) by done.
      unfold upd. rewrite Hm. destruct Hk as [Hk|[-> ->]].
      * rewrite Hk. rewrite bool_decide_false; [done|]. intros ->. by vm_compute in Hk.
      * done.
    + intros rec (H1 & H2 & H3 & H4 & H5 & H6 & H7). unfold recovered_as, durable in *.
      cbn [set_state r_ID r_JobID r_IntentHash r_Intent r_ExpiresAt r_State]. rewrite Hid in *. rewrite Hc.
      destruct Hk as [Hk|[-> ->]].
      * rewrite bool_decide_false by (intros ->; by vm_compute in Hk). cbn. split_and!; first [done|congruence|by left|tauto].
      * rewrite bool_decide_true by done. cbn. split_and!; first [done|congruence|by left|tauto].
    + by rewrite Hif.
    + by rewrite Hif.
    + rewrite Hif. intros x Hx He. destruct (Hf x Hx) as (r0 & Hr0 & ? & Hxc). rewrite Hc.
      rewrite He in *. rewrite Hr in Hr0. simplify_eq/=. done.
    + by rewrite Hc.
    + unfold durable. rewrite Hc. exact Hdu.
Qed.

Lemma Inv_admit now in_ id w : Inv w → Inv (execute_admit keccak256 now in_ id w).1.
Proof.
  intros HI. destruct (execute_admit _ _ _ _ w) as [w' r] eqn:E. cbn.
  apply execute_admit_cases in E as (Hst & _ & _ & [(_ & Hif & _ & Hrq & _)|(req & h & Hr & Hx & _ & Hif & Hrq)]).
  - destruct Hrq as [Hrq|(req & Hr & Happ & Hrq)].
    { apply (Inv_quiet w w'); try done. by rewrite Hst. }
    destruct (live_row w id req HI Hr) as [(Hid & _) _]. rewrite Hid in Hrq.
    pose proof (inv_flight w HI) as [Hn Hf]. pose proof (inv_once w HI id) as [Hle Hdur].
    eapply (Inv_update w w' id req); try done.
    + by rewrite Hst.
    + intros rec (_ & _ & _ & _ & _ & _ & Hs). right. split; [done|].
      rewrite Happ in Hs. cbn. destruct Hs as [->|[_ [->|[? _]]]]; [by right|by left|done].
    + intros Hdu. destruct (Hdur Hdu) as (r0 & Hr0 & ?). simplify_eq. done.
    + by rewrite Hif.
    + rewrite Hif. intros x Hx. split; [|by left]. intros He. destruct (Hf x Hx) as (r0 & Hr0 & ? & _).
      rewrite He, Hr in Hr0. by simplify_eq/=.
  - destruct (live_row w id req HI Hr) as [(Hid & _) _]. rewrite Hid in *.
    pose proof (inv_flight w HI) as [Hn Hf]. pose proof (inv_once w HI id) as [Hle Hdur].
    destruct Hx as (_ & _ & _ & _ & _ & Hne).
    assert (Hnd : ¬ durable id w).
    { intros Hdu. destruct (Hdur Hdu) as (r0 & Hr0 & ?). congruence. }
    eapply (Inv_update w w' id req); try done.
    + by rewrite Hst.
    + by intros rec (_ & _ & _ & _ & _ & _ & Hs).
    + rewrite Hif, fmap_app. apply NoDup_app. split; [done|split; [|apply NoDup_singleton]].
      intros i Hi He. apply list_elem_of_singleton in He as ->.
      apply list_elem_of_fmap in Hi as (y & Hy & Hin). cbn in Hy.
      destruct (Hf y Hin) as (r0 & Hr0 & ? & _). congruence.
    + rewrite Hif. intros x Hx. split; [done|]. apply elem_of_app in Hx as [Hx|Hx]; [by left|].
      apply list_elem_of_singleton in Hx as ->. by right.
Qed.

Lemma Inv_finish now x failure w : Inv w → Inv (execute_finish now x failure w).1.
Proof.
  intros HI. destruct (execute_finish _ _ _ w) as [w' r] eqn:E. cbn.
  apply execute_finish_cases in E as (Hrq & _ & Hif & Hq).
  apply (Inv_quiet (with_inflight (inflight w') w) w'); try done.
  destruct HI as [Hk Hm (Hn & Hf) Ho]. split; cbn; try done. rewrite Hif.
  split; [by apply NoDup_others|]. intros y Hy. apply list_elem_of_filter in Hy as [_ Hy]. auto.
Qed.

Lemma Inv_claim now x w :
  x ∈ inflight w → x_Phase x = Gated → Inv w → Inv (execute_claim now x w).1.
Proof.
  intros Hx Hph HI. destruct (execute_claim now x w) as [w' r] eqn:E. cbn.
  pose proof (inv_flight w HI) as [Hn Hf]. destruct (Hf x Hx) as (req & Hr & Hex & Hc0).
  rewrite Hph in Hc0. destruct (live_row w _ req HI Hr) as [(Hid & Hid0 & Hv & _) _].
  apply execute_claim_cases in E as (_ & [(_ & Hrq & Hif & Hd)|(_ & Hrq & Hif & Hd)]).
  - destruct (rec_request_id (x_ID x) [("intent_hash", JStr (x_Hash x))] Hv) as (p & Hp & Hpid); [eauto|].
    assert (Hrow : rec_id (row_of (db (st w)) now (claim_event x)) = Some (x_ID x)).
    { unfold rec_id. cbn [ev_payload row_of e_Payload claim_event]. rewrite Hp. cbn. congruence. }
    assert (Hc : exec_count (x_ID x) (db (st w')) = 1%nat).
    { by rewrite Hd, exec_count_appended, Hrow, bool_decide_true, Hc0. }
    eapply (Inv_row w w' (x_ID x) req req now (claim_event x) executed_request); try done.
    + by rewrite Hrq, insert_id.
    + unfold recover_kinds. cbn. rewrite !elem_of_cons. tauto.
    + intros m rec Hm. unfold recover_row. cbn [ev_payload row_of e_Payload claim_event ev_kind e_Kind].
      rewrite Hp. cbn [mbind option_bind]. rewrite Hpid, bool_decide_false by done.
      cbn. unfold upd. by rewrite Hm.
    + intros rec (H1 & H2 & H3 & H4 & H5 & _ & H7). unfold recovered_as, durable. rewrite Hid, Hc.
      cbn. split_and!; first [done|congruence|tauto].
    + rewrite Hif. by apply NoDup_replace.
    + rewrite Hif. intros y Hy Hne. apply elem_of_app in Hy as [Hy|Hy].
      * by apply list_elem_of_filter in Hy as [_ Hy].
      * apply list_elem_of_singleton in Hy as ->. done.
    + rewrite Hif. intros y Hy He. split; [done|]. rewrite Hc. apply elem_of_app in Hy as [Hy|Hy].
      * apply list_elem_of_filter in Hy as [Hne _]. done.
      * by apply list_elem_of_singleton in Hy as ->.
    + by rewrite Hc.
  - assert (Hnd : ¬ durable (x_ID x) w) by (unfold durable; rewrite Hc0; done).
    eapply (Inv_update w w' (x_ID x) req (set_executed false zeroTime req)); try done.
    + rewrite Hrq. unfold upd. by rewrite Hr.
    + by intros rec (_ & _ & _ & _ & _ & _ & Hs).
    + rewrite Hif. by apply NoDup_others.
    + rewrite Hif. intros y Hy. apply list_elem_of_filter in Hy as [Hne Hy]. split; [done|by left].
Qed.

Lemma recovered_self w live rec :
  recovered_as w live rec → recovered_as w rec rec.
Proof.
  unfold recovered_as. intros (H1 & _ & _ & _ & _ & H6 & _). rewrite H1. split_and!; try done. by left.
Qed.

Lemma Recover_cases w0 w' r :
  Recover w0 = (w', r) →
  db (st w') = db (st w0) ∧ inflight w' = inflight w0 ∧
  (r = Ok tt → recover_rows (requests w0) (life_rows (db (st w0))) = (requests w', true)).
Proof.
  unfold Recover. intros Hx. unfold bindM, storeM in Hx.
  destruct (QueryEvents _ _) as [s' q] eqn:Eq. apply QueryEvents_cases in Eq as [Hd [-> | ->]].
  - fold (life_rows (db (st w0))) in Hx. cbn [requests with_st] in Hx.
    destruct (recover_rows _ _) as [m []] eqn:Er; simplify_eq; by split_and!.
  - simplify_eq. by split_and!.
Qed.

Lemma Inv_restart w w0 w' :
  db (st w0) = db (st w) → requests w0 = ∅ → inflight w0 = [] →
  Recover w0 = (w', Ok tt) → Inv w → Inv w'.
Proof.
  intros Hd0 Hr0 Hi0 HR [Hk (m & Hm & Hrec) (Hn & Hf) Ho].
  apply Recover_cases in HR as (Hd & Hif & Hrr). specialize (Hrr eq_refl).
  rewrite Hr0, Hd0, Hm in Hrr. injection Hrr as Hrq. rewrite Hd0 in Hd. rewrite Hi0 in Hif.
  assert (Hboth : ∀ id rec, m !! id = Some rec → ∃ r, requests w !! id = Some r ∧ recovered_as w r rec).
  { intros id rec Hid. specialize (Hrec id). rewrite Hid in Hrec.
    destruct (requests w !! id) as [r|]; [eauto|done]. }
  split.
  - rewrite <-Hrq, Hd. intros id rec Hid. destruct (Hboth id rec Hid) as (r & Hr & H1 & _ & _ & H4 & _).
    destruct (Hk id r Hr) as (? & ? & ? & ?). unfold keyed. by rewrite H1, H4.
  - exists m. rewrite Hd. split; [done|]. intros id. rewrite <-Hrq.
    destruct (m !! id) as [rec|] eqn:E; [|done]. destruct (Hboth id rec E) as (r & Hr & Hrel).
    apply recovered_self in Hrel. unfold recovered_as, durable in *. by rewrite Hd.
  - rewrite Hif. split; [apply NoDup_nil_2|]. intros x Hx. by apply elem_of_nil in Hx.
  - intros id. unfold durable. rewrite Hd, <-Hrq. destruct (Ho id) as [? Hdu]. split; [done|].
    intros Hx. destruct (Hdu Hx) as (r & Hr & Hex). specialize (Hrec id). rewrite Hr in Hrec.
    destruct (m !! id) as [rec|]; [|done]. exists rec. split; [done|].
    destruct Hrec as (Hq1 & _ & _ & _ & _ & Hq6 & _). apply Hq6. by destruct (Hk id r Hr) as [-> _].
Qed.

Lemma Inv_step w w' : astep w w' → Inv w → Inv w'.
Proof.
  intros Hs HI. destruct Hs as [now in0 w Hok|now in0 w Hok|now id kind by_ reason w|now in_ id w
    |now x w Hx Hp|now x failure w Hx Hp|w w' Hr Hi Hq|w w0 w' Hd Hr Hi HR].
  - destruct (Submit keccak256 now in0 w) as [w' r] eqn:E. cbn. destruct Hok as [Hu Hcol].
    apply Submit_cases in E as (Hif & _ & [(_ & Hrq & Hq)|(_ & auto & Ho)]).
    + by apply (Inv_quiet w w').
    + by eapply Inv_opened.
  - destruct (SubmitAdvance keccak256 now in0 w) as [w' r] eqn:E. cbn. destruct Hok as [Hu Hcol].
    apply SubmitAdvance_cases in E as (Hif & _ & [(_ & Hrq & Hq)|(_ & Ho)]).
    + by apply (Inv_quiet w w').
    + by eapply Inv_opened.
  - by apply Inv_decide.
  - by apply Inv_admit.
  - by apply Inv_claim.
  - by apply Inv_finish.
  - by apply (Inv_quiet w w').
  - by apply (Inv_restart w w0 w').
Qed.

Definition start (w : World) : Prop := db (st w) = emptyDB ∧ requests w = ∅ ∧ inflight w = [].
Lemma Inv_start w : start w → Inv w.
Proof.
  intros (Hd & Hr & Hi). split.
  - rewrite Hr. apply map_Forall_empty.
  - exists ∅. rewrite Hd, Hr. split; [done|]. intros id. by rewrite !lookup_empty.
  - rewrite Hi. split; [apply NoDup_nil_2|]. intros x Hx. by apply elem_of_nil in Hx.
  - intros id. unfold durable. rewrite Hd. split; [cbn; lia|done].
Qed.
Lemma Inv_reachable w w' : start w → rtc astep w w' → Inv w'.
Proof.
  intros Hs Hr. apply Inv_start in Hs. induction Hr as [|? ? ? Hst _ IH]; [done|].
  apply IH. by eapply Inv_step.
Qed.

(** C2: exactly-once execution.  Over every history of submissions, decisions,
    executions interleaved phase by phase, other components' steps, failing
    writes and restarts from the log: a request has at most one durable
    execution claim ever, an executor runs only while its request's claim is
    the one in the log, no two executions of a request are in flight, and a
    request whose claim is durable can never be admitted again. *)
Theorem execution_exactly_once w w' id :
  start w → rtc astep w w' →
  (exec_count id (db (st w')) ≤ 1)%nat ∧
  NoDup (x_ID <$> inflight w') ∧
  (∀ x, x ∈ inflight w' → x_Phase x = Running → exec_count (x_ID x) (db (st w')) = 1%nat) ∧
  (exec_count id (db (st w')) = 1%nat →
   ∀ now in_ e, (execute_admit keccak256 now in_ id w').2 ≠ Ok e).
Proof.
  intros Hs Hr. pose proof (Inv_reachable w w' Hs Hr) as HI.
  pose proof (inv_flight w' HI) as [Hn Hf]. pose proof (inv_once w' HI id) as [Hle Hdu].
  split_and!; [done|done| |].
  - intros x Hx Hp. destruct (Hf x Hx) as (r & _ & _ & Hc). by rewrite Hp in Hc.
  - intros Hc now in_ e He. destruct (Hdu Hc) as (req & Hreq & Hex).
    destruct (execute_admit keccak256 now in_ id w') as [w'' r] eqn:E. cbn in He. subst r.
    apply execute_admit_cases in E as (_ & _ & _ & [([? ?] & _)|(req' & h & Hr' & Hx & _)]); [done|].
    destruct Hx as (_ & _ & _ & _ & _ & Hne). congruence.
Qed.

(** C10: what a restart keeps.  After any such history, replaying the log gives
    back exactly the requests the process had, each bound to the same intent,
    hash, job and expiry; executed exactly when its claim is durable; and in
    the same state, except that a decision whose record was lost comes back as
    pending and an approval already refused for its expiry comes back as the
    (expired) approval.  No rejected or pending request comes back approved. *)
Theorem Recover_restores_requests w w1 w0 w' r :
  start w → rtc astep w w1 → db (st w0) = db (st w1) → requests w0 = ∅ →
  Recover w0 = (w', r) → r = Err (ErrQueryLog ErrQuery) ∨
  (r = Ok tt ∧ ∀ id, match requests w1 !! id, requests w' !! id with
        | Some live, Some rec => recovered_as w1 live rec ∧
            (r_State rec = StateApproved → r_State live = StateApproved ∨ r_State live = StateExpired)
        | None, None => True
        | _, _ => False
        end).
Proof.
  intros Hs Hr Hd Hr0 HR. pose proof (Inv_reachable w w1 Hs Hr) as [_ (m & Hm & Hrec) _ _].
  unfold Recover in HR. apply bindM_cases in HR as [(w2 & rows & Hq & HR)|(e & Hq & ->)];
    unfold storeM in Hq; destruct (QueryEvents _ _) as [s' q] eqn:Eq;
    apply QueryEvents_cases in Eq as [_ [-> | ->]]; simplify_eq; [right|by left].
  fold (life_rows (db (st w0))) in HR. cbn [requests with_st] in HR. rewrite Hr0, Hd, Hm in HR.
  simplify_eq. split; [done|]. intros id. specialize (Hrec id). cbn.
  destruct (requests w1 !! id) as [live|], (m !! id) as [rec|]; try done. split; [done|].
  destruct Hrec as (_ & _ & _ & _ & _ & _ & Hst). intros Ha. rewrite Ha in Hst.
  destruct Hst as [<-|[_ [?|[? _]]]]; [by left|done|by right].
Qed.
End Histories.

(** ** A decision whose record is lost *)
(** The in-memory decision outruns its record.  When the audit append of an
    approval fails, [Decide] reports an error and the log holds nothing, but
    the request stands approved, the waiter is woken, and repeating the same
    decision is then a success that still writes nothing: the approval can be
    executed without any record of it. *)
Lemma Decide_failed_append_stands {W} now id by_ reason (w : World W) req fs :
  requests w !! id = Some req → r_ID req = id → r_State req = StatePending →
  now < r_ExpiresAt req → by_ ≠ "" → faults (st w) = true :: fs →
  let '(w1, r) := Decide now id DecideApprove by_ reason w in
  r = Err (ErrAudit ErrBegin) ∧ db (st w1) = db (st w) ∧ DecisionSignal_blocks id w1 = false ∧
  (∃ req1, requests w1 !! id = Some req1 ∧ r_State req1 = StateApproved ∧ r_Executed req1 = r_Executed req) ∧
  ∀ now', ∃ req1, Decide now' id DecideApprove by_ reason w1 = (w1, Ok req1).
Proof.
  intros Hr Hid Hp Ht Hby Hf. destruct w as [[d fs'] rq f e n xs]. cbn in *. subst fs'.
  unfold Decide at 1. rewrite bool_decide_false by done.
  unfold bindM at 1, getM. cbn [requests]. rewrite Hr.
  change (target_of DecideApprove) with (Some StateApproved). cbv iota beta.
  rewrite Hp. rewrite (bool_decide_false (StatePending = StateApproved)) by done. cbn [andb].
  unfold terminal. rewrite (bool_decide_false (StatePending ≠ StatePending)) by (by intros ?).
  unfold Before. rewrite (proj2 (Z.ltb_lt _ _) Ht). cbn [negb].
  unfold bindM at 1, modifyM.
  unfold bindM, appendEvent, storeM, Append, BeginTx, stmt. cbn.
  split_and!; try done.
  - unfold DecisionSignal_blocks. cbn. by rewrite Hid, lookup_insert_eq.
  - eexists. rewrite Hid, lookup_insert_eq. done.
  - intros now'. unfold Decide. rewrite bool_decide_false by done. unfold bindM, getM.
    cbn [requests with_st put_request with_requests r_ID set_state]. rewrite Hid, lookup_insert_eq.
    change (target_of DecideApprove) with (Some StateApproved). cbn [r_State r_DecidedBy set_state].
    rewrite !bool_decide_true by done. cbn. eauto.
Qed.
