(* ===== verification/H3.v ===== *)
(** [internal/h3]: the client of the payment sidecar.

    The wire types, the state and error classification that the budget-release
    rule reads, the derivations, the atomic-amount conversion, the pre-flight
    validation ([h3.go]) and the calls ([client.go]).  Error messages are left
    out.  [wire] is the loopback HTTP exchange: it changes the remote state and
    yields a transport failure, an unreadable response, or a status with a body
    (None: not JSON); [urlParse] is [net/url.Parse] as far as it is read (scheme
    and host), [Hostname], [EqualFold] and [ParseIP_loopback] the other library
    functions [New] reads.  keccak256 and HMAC-SHA256, both in lowercase hex,
    are parameters. *)

From Stdlib Require Import Ascii String.
From S2P Require Import Prelude GoStr GoTime GoJson Intent Store.
#[local] Open Scope Z_scope.
#[local] Open Scope snap_scope.
#[local] Set Default Proof Using "Type".

(** ** Vocabulary *)
Definition StateSigned : string := "SIGNED".
Definition StateSubmitted : string := "SUBMITTED".
Definition StateDelivered : string := "DELIVERED".
Definition StateReconciling : string := "RECONCILING".
Definition StateSettled : string := "SETTLED".
Definition StateFailed : string := "FAILED".
Definition StateExpired : string := "EXPIRED".
Definition payment_states : list string :=
  [StateSigned; StateSubmitted; StateDelivered; StateReconciling; StateSettled;
   StateFailed; StateExpired].

Definition DecisionAutoApprove : string := "AUTO_APPROVE".
Definition DecisionHumanApproved : string := "HUMAN_APPROVED".

Definition CodeUnauthenticated : string := "UNAUTHENTICATED".
Definition CodeBadRequest : string := "BAD_REQUEST".
Definition CodeResourceNotFound : string := "RESOURCE_NOT_FOUND".
Definition CodeNoMatchingNetwork : string := "NO_MATCHING_NETWORK".
Definition CodeChallengeUnavailable : string := "CHALLENGE_UNAVAILABLE".
Definition CodeUpstreamUnreachable : string := "UPSTREAM_UNREACHABLE".
Definition CodePaymentInProgress : string := "PAYMENT_IN_PROGRESS".
Definition CodeApprovalTokenInvalid : string := "APPROVAL_TOKEN_INVALID".
Definition CodeIntentHashMismatch : string := "INTENT_HASH_MISMATCH".
Definition CodeIntentNotApproved : string := "INTENT_NOT_APPROVED".
Definition CodeApprovalExpired : string := "APPROVAL_EXPIRED".
Definition CodeApprovedAmountMismatch : string := "APPROVED_AMOUNT_MISMATCH".
Definition CodeMerchantChanged : string := "MERCHANT_CHANGED".
Definition CodeAssetChanged : string := "ASSET_CHANGED".
Definition CodePriceChanged : string := "PRICE_CHANGED".
Definition CodePriceExceedsReserved : string := "PRICE_EXCEEDS_RESERVED".
Definition CodePaymentRejected : string := "PAYMENT_REJECTED".
Definition CodeFacilitatorError : string := "FACILITATOR_ERROR".
Definition CodePaymentNotFound : string := "PAYMENT_NOT_FOUND".
Definition CodeInternal : string := "INTERNAL".

(** ** Wire types *)
Record WireIntent := MkWireIntent {
  w_IntentID : string; w_JobID : string; w_TaskID : string; w_AgentID : string;
  w_Resource : string; w_Network : string; w_Asset : string; w_Merchant : string;
  w_Amount : string; w_MaxAmount : string; w_Purpose : string; w_Nonce : string;
  w_Decision : string; w_PolicyVersion : string; w_CreatedAt : string; w_ExpiresAt : string }.
Record ApprovalToken := MkApprovalToken {
  t_IntentHash : string; t_Decision : string; t_ApprovedAmount : string; t_Approver : string;
  t_PolicyVersion : string; t_IssuedAt : string; t_ExpiresAt : string; t_Signature : string }.
Record AcceptExtra := MkAcceptExtra { ex_Name : string; ex_Version : string }.
Record AcceptOption := MkAcceptOption {
  a_Scheme : string; a_Network : string; a_Amount : string; a_Asset : string; a_PayTo : string;
  a_MaxTimeoutSeconds : Z; a_Description : string; a_Extra : option AcceptExtra }.
Record Quote := MkQuote {
  qu_Resource : string; qu_Network : string; qu_Accept : AcceptOption; qu_Price : string;
  qu_PriceDisplay : string; qu_QuotedAt : string; qu_QuoteExpiresAt : string }.
Record Receipt := MkReceipt {
  rc_Resource : string; rc_Amount : string; rc_Asset : string; rc_Network : string;
  rc_Payer : string; rc_Payee : string; rc_AuthNonce : string; rc_Settlement : string }.
Record PayResult := MkPayResult {
  p_PaymentID : string; p_State : string; p_IdempotentReplay : bool; p_AmountPaid : string;
  p_Receipt : option Receipt; p_AuthorizationSignature : string; p_Data : jval;
  p_IntentHash : string; p_ExecutedAt : string }.
Record StatusResult := MkStatusResult {
  s_PaymentID : string; s_State : string; s_IntentHash : string; s_IdempotencyNonce : string;
  s_AmountReserved : string; s_AmountPaid : string; s_Receipt : option Receipt;
  s_Reason : string; s_CreatedAt : string; s_UpdatedAt : string }.
Definition zeroAccept : AcceptOption := MkAcceptOption "" "" "" "" "" 0 "" None.
Definition zeroQuote : Quote := MkQuote "" "" zeroAccept "" "" "" "".

(** ** Classification *)
Definition Committed (state : string) : bool :=
  bool_decide (state = StateDelivered) || bool_decide (state = StateSettled).
Definition Unresolved (state : string) : bool :=
  bool_decide (state = StateSigned) || bool_decide (state = StateSubmitted) ||
  bool_decide (state = StateReconciling).

Record Error := MkError { he_HTTPStatus : Z; he_Code : string; he_Retriable : bool }.
(** A Go [error]: an [*h3.Error], or any other, which [errors.As] does not
    match. *)
Inductive GoErr := H3Err (e : Error) | Plain.
Definition postSign (code : string) : bool :=
  bool_decide (code = CodePaymentRejected) || bool_decide (code = CodeFacilitatorError).
Definition PreSign (e : Error) : bool :=
  if bool_decide (he_Code e = CodeInternal) then false
  else if bool_decide (he_Code e = CodePaymentInProgress) then false
  else negb (postSign (he_Code e)).
(** What a caller concludes from an error: [errors.As], then [PreSign]. *)
Definition provably_unsigned (e : GoErr) : bool :=
  match e with H3Err e => PreSign e | Plain => false end.
Definition refuse (code : string) : Error := MkError 0 code false.

(** ** Derivations *)
Section Derivations.
Context (keccak256 : string → string) (hmac_sha256 : string → string → string).
Definition PaymentID (intentHash nonce : string) : string :=
  "pay_" +:+ String.substring 2 16 (keccak256 (intentHash +:+ "|" +:+ nonce)).
Definition AuthNonce (intentHash : string) : string := keccak256 (intentHash +:+ "|auth").
Definition approval_message (t : ApprovalToken) : string :=
  t_IntentHash t +:+ "|" +:+ t_Decision t +:+ "|" +:+ t_ApprovedAmount t +:+ "|" +:+ t_ExpiresAt t.
Definition SignApproval (secret : string) (t : ApprovalToken) : ApprovalToken :=
  MkApprovalToken (t_IntentHash t) (t_Decision t) (t_ApprovedAmount t) (t_Approver t)
    (t_PolicyVersion t) (t_IssuedAt t) (t_ExpiresAt t) (hmac_sha256 secret (approval_message t)).
End Derivations.

(** ** Atomic amounts *)
Definition isCanonicalAtomic (v : string) : bool :=
  match v with
  | "" => false
  | String c r =>
    if bool_decide (v = "0") then true
    else if bool_decide (c = "0"%char) then false
    else sall isDigit v
  end.
Definition ParseAtomicMicros (atomic : string) : result GoErr Z :=
  if negb (isCanonicalAtomic atomic) then Err Plain else
  match parse_int atomic with
  | Some micros => if bool_decide (int64_range micros) then Ok micros else Err Plain
  | None => Err Plain
  end.
Definition FormatAtomicMicros (micros : Z) : result GoErr string :=
  if micros <? 0 then Err Plain else Ok (FormatInt micros).

(** ** Shapes of strings *)
(** [strings.TrimRight(s, "/")]. *)
Fixpoint TrimRight_slash (s : string) : string :=
  match s with
  | "" => ""
  | String c r => match TrimRight_slash r with
                  | "" => if bool_decide (c = "/"%char) then "" else String c ""
                  | r' => String c r'
                  end
  end.

(** Lowercase, and accepted by [hex.DecodeString] (even lengths only). *)
Definition is_lower_hex (s : string) : bool := Nat.even (String.length s) && sall lower_hex s.
Definition isHex32 (s : string) : bool :=
  match s with
  | String a (String b r) =>
    bool_decide (a = "0"%char) && bool_decide (b = "x"%char) &&
    bool_decide (String.length s = 66%nat) && is_lower_hex r
  | _ => false
  end.
Fixpoint contains_char (c : ascii) (s : string) : bool :=
  match s with "" => false | String d r => bool_decide (c = d) || contains_char c r end.

(** ** [time.Parse(time.RFC3339, s)], as far as whether it succeeds *)
Definition num2 (s : string) : option (Z * string) :=
  match s with
  | String a (String b r) =>
    if isDigit a && isDigit b then Some (10 * digitZ a + digitZ b, r) else None
  | _ => None
  end.
(** One digit is enough for the hour. *)
Definition num12 (s : string) : option (Z * string) :=
  match num2 s with
  | Some p => Some p
  | None => match s with
            | String a r => if isDigit a then Some (digitZ a, r) else None
            | "" => None
            end
  end.
Definition skip (c : ascii) (s : string) : option string :=
  match s with String d r => if bool_decide (c = d) then Some r else None | "" => None end.
Fixpoint drop_digits (s : string) : string :=
  match s with String c r => if isDigit c then drop_digits r else s | "" => "" end.
(** After the seconds a fraction may follow, after a period or a comma. *)
Definition skip_fraction (s : string) : string :=
  match s with
  | String p (String d r) =>
    if (bool_decide (p = "."%char) || bool_decide (p = ","%char)) && isDigit d then drop_digits r else s
  | _ => s
  end.
Definition parse_zone (s : string) : option string :=
  match s with
  | String "Z" r => Some r
  | String sg r =>
    '(hh, r) ← num2 r; r ← skip ":" r; '(mm, r) ← num2 r;
    if (bool_decide (sg = "+"%char) || bool_decide (sg = "-"%char)) && (hh <=? 24) && (mm <=? 60)
    then Some r else None
  | "" => None
  end.
Definition isLeap (y : Z) : bool :=
  (y mod 4 =? 0) && (negb (y mod 100 =? 0) || (y mod 400 =? 0)).
Definition daysIn (m y : Z) : Z :=
  if m =? 2 then (if isLeap y then 29 else 28)
  else if (m =? 4) || (m =? 6) || (m =? 9) || (m =? 11) then 30 else 31.
Definition valid_RFC3339 (s : string) : bool :=
  match
    '(y1, r) ← num2 s; '(y2, r) ← num2 r; r ← skip "-" r;
    '(mo, r) ← num2 r; r ← skip "-" r;
    '(dd, r) ← num2 r; r ← skip "T" r;
    '(hh, r) ← num12 r; r ← skip ":" r;
    '(mi, r) ← num2 r; r ← skip ":" r;
    '(ss, r) ← num2 r;
    r ← parse_zone (skip_fraction r);
    Some (bool_decide (r = "") && (1 <=? mo) && (mo <=? 12) && (1 <=? dd) &&
          (dd <=? daysIn mo (100 * y1 + y2)) && (hh <? 24) && (mi <? 60) && (ss <? 60))
  with Some b => b | None => false end.

(** ** Pre-flight validation *)
Definition validatePayable (in_ : WireIntent) (tok : ApprovalToken) : option Error :=
  if existsb blank [w_Nonce in_; w_Resource in_; w_Merchant in_; w_Asset in_; w_Network in_;
                    w_ExpiresAt in_; t_IntentHash tok; t_Signature tok]
  then Some (refuse CodeBadRequest)
  else if negb (forallb isCanonicalAtomic [w_Amount in_; w_MaxAmount in_; t_ApprovedAmount tok])
  then Some (refuse CodeBadRequest)
  else if contains_char "." (w_ExpiresAt in_) then Some (refuse CodeBadRequest)
  else if negb (valid_RFC3339 (w_ExpiresAt in_)) then Some (refuse CodeBadRequest)
  else if bool_decide (t_Decision tok ≠ w_Decision in_) then Some (refuse CodeApprovalTokenInvalid)
  else if bool_decide (t_ExpiresAt tok ≠ w_ExpiresAt in_) then Some (refuse CodeApprovalTokenInvalid)
  else if bool_decide (t_ApprovedAmount tok ≠ w_Amount in_) then Some (refuse CodeApprovedAmountMismatch)
  else if bool_decide (w_Decision in_ ≠ DecisionAutoApprove) &&
          bool_decide (w_Decision in_ ≠ DecisionHumanApproved)
  then Some (refuse CodeIntentNotApproved)
  else if negb (isHex32 (t_IntentHash tok)) then Some (refuse CodeBadRequest)
  else if bool_decide (String.length (t_Signature tok) ≠ 64%nat) || negb (is_lower_hex (t_Signature tok))
  then Some (refuse CodeBadRequest)
  else None.

(** ** JSON documents of the wire *)
Definition wire_intent_json (i : WireIntent) : jval :=
  JObj [ ("intentId", JStr (w_IntentID i)); ("jobId", JStr (w_JobID i));
    ("taskId", JStr (w_TaskID i)); ("agentId", JStr (w_AgentID i));
    ("resource", JStr (w_Resource i)); ("network", JStr (w_Network i));
    ("asset", JStr (w_Asset i)); ("merchant", JStr (w_Merchant i));
    ("amount", JStr (w_Amount i)); ("maxAmount", JStr (w_MaxAmount i));
    ("purpose", JStr (w_Purpose i)); ("nonce", JStr (w_Nonce i));
    ("decision", JStr (w_Decision i)); ("policyVersion", JStr (w_PolicyVersion i));
    ("createdAt", JStr (w_CreatedAt i)); ("expiresAt", JStr (w_ExpiresAt i)) ].
Definition token_json (t : ApprovalToken) : jval :=
  JObj [ ("intentHash", JStr (t_IntentHash t)); ("decision", JStr (t_Decision t));
    ("approvedAmount", JStr (t_ApprovedAmount t)); ("approver", JStr (t_Approver t));
    ("policyVersion", JStr (t_PolicyVersion t)); ("issuedAt", JStr (t_IssuedAt t));
    ("expiresAt", JStr (t_ExpiresAt t)); ("signature", JStr (t_Signature t)) ].
Definition pay_body (i : WireIntent) (t : ApprovalToken) : jval :=
  JObj [("intent", wire_intent_json i); ("approvalToken", token_json t)].
Definition quote_body (resource : string) (chainID : Z) : jval :=
  JObj [("resource", JStr resource); ("chainId", JInt chainID)].

Definition receipt_of_json (v : jval) : option Receipt :=
  a ← dec_str "resource" v; b ← dec_str "amount" v; c ← dec_str "asset" v;
  d ← dec_str "network" v; e ← dec_str "payer" v; f ← dec_str "payee" v;
  g ← dec_str "authNonce" v; h ← dec_str "settlement" v;
  Some (MkReceipt a b c d e f g h).
Definition pay_result_of_json (v : jval) : option PayResult :=
  a ← dec_str "paymentId" v; b ← dec_str "state" v; c ← dec_bool "idempotentReplay" v;
  d ← dec_str "amountPaid" v; e ← dec_ptr "receipt" receipt_of_json v;
  f ← dec_str "authorizationSignature" v; g ← dec_obj "data" v;
  h ← dec_str "intentHash" v; i ← dec_str "executedAt" v;
  Some (MkPayResult a b c d e f g h i).
Definition status_result_of_json (v : jval) : option StatusResult :=
  a ← dec_str "paymentId" v; b ← dec_str "state" v; c ← dec_str "intentHash" v;
  d ← dec_str "idempotencyNonce" v; e ← dec_str "amountReserved" v;
  f ← dec_str "amountPaid" v; g ← dec_ptr "receipt" receipt_of_json v;
  h ← dec_str "reason" v; i ← dec_str "createdAt" v; j ← dec_str "updatedAt" v;
  Some (MkStatusResult a b c d e f g h i j).
Definition extra_of_json (v : jval) : option AcceptExtra :=
  a ← dec_str "name" v; b ← dec_str "version" v; Some (MkAcceptExtra a b).
Definition accept_of_json (v : jval) : option AcceptOption :=
  a ← dec_str "scheme" v; b ← dec_str "network" v; c ← dec_str "amount" v;
  d ← dec_str "asset" v; e ← dec_str "payTo" v; f ← dec_int "maxTimeoutSeconds" v;
  g ← dec_str "description" v; h ← dec_ptr "extra" extra_of_json v;
  Some (MkAcceptOption a b c d e f g h).
Definition quote_of_json (v : jval) : option Quote :=
  a ← dec_str "resource" v; b ← dec_str "network" v;
  av ← dec_obj "accept" v; c ← accept_of_json av; d ← dec_str "price" v;
  e ← dec_str "priceDisplay" v; f ← dec_str "quotedAt" v; g ← dec_str "quoteExpiresAt" v;
  Some (MkQuote a b c d e f g).
(** The error envelope: [code] and [retriable]. *)
Definition envelope_of_json (v : jval) : option (string * bool) :=
  ev ← dec_obj "error" v; c ← dec_str "code" ev; _ ← dec_str "message" ev;
  r ← dec_bool "retriable" ev; Some (c, r).

(** ** The client *)
Record Client := MkClient { c_baseURL : string; c_token : string; c_cfgErr : option Error }.
Record HttpRequest := MkHttpRequest {
  rq_Method : string; rq_URL : string; rq_Body : option jval; rq_Authorization : option string }.
Inductive HttpOutcome :=
| TransportError
| UnreadableBody (status : Z)
| Response (status : Z) (body : option jval).

Definition DefaultBaseURL : string := "http://127.0.0.1:4020".
Section New.
Context (urlParse : string → option (string * string)) (Hostname : string → string).
Context (EqualFold : string → string → bool) (ParseIP_loopback : string → bool).
Definition isLoopbackHost (host : string) : bool :=
  EqualFold host "localhost" || ParseIP_loopback host.
Definition New (baseURL token : string) : Client :=
  let raw0 := TrimRight_slash (TrimSpace baseURL) in
  let raw := if bool_decide (raw0 = "") then DefaultBaseURL else raw0 in
  MkClient raw token
    (match urlParse raw with
     | None => Some (refuse CodeBadRequest)
     | Some (scheme, host) =>
       if bool_decide (scheme ≠ "http") && bool_decide (scheme ≠ "https")
       then Some (refuse CodeBadRequest)
       else if bool_decide (host = "") then Some (refuse CodeBadRequest)
       else if negb (isLoopbackHost (Hostname host)) then Some (refuse CodeBadRequest)
       else None
     end).
End New.

Definition decodeEnvelope (status : Z) (raw : option jval) : GoErr :=
  match raw ≫= envelope_of_json with
  | None => Plain
  | Some (code, retriable) =>
    if bool_decide (code = "") then Plain
    else if bool_decide (code = CodeInternal) then Plain
    else H3Err (MkError status code retriable)
  end.

(** [url.PathEscape]. *)
Definition upper_hexdigit (d : Z) : ascii := if d <? 10 then chrZ (48 + d) else chrZ (55 + d).
Definition path_safe (c : ascii) : bool :=
  isDigit c || (65 <=? byteZ c) && (byteZ c <=? 90) || (97 <=? byteZ c) && (byteZ c <=? 122) ||
  bool_decide (c ∈ ["-"; "_"; "."; "~"; "$"; "&"; "+"; ":"; "="; "@"]%char).
Fixpoint PathEscape (s : string) : string :=
  match s with
  | "" => ""
  | String c r =>
    if path_safe c then String c (PathEscape r)
    else String "%" (String (upper_hexdigit (byteZ c / 16))
                       (String (upper_hexdigit (byteZ c `mod` 16)) (PathEscape r)))
  end.
(** [url.QueryEscape]. *)
Definition query_safe (c : ascii) : bool :=
  isDigit c || (65 <=? byteZ c) && (byteZ c <=? 90) || (97 <=? byteZ c) && (byteZ c <=? 122) ||
  bool_decide (c ∈ ["-"; "_"; "."; "~"]%char).
Fixpoint QueryEscape (s : string) : string :=
  match s with
  | "" => ""
  | String c r =>
    if query_safe c then String c (QueryEscape r)
    else if bool_decide (c = " "%char) then String "+" (QueryEscape r)
    else String "%" (String (upper_hexdigit (byteZ c / 16)) (String (upper_hexdigit (byteZ c `mod` 16)) (QueryEscape r)))
  end.

Section Calls.
Context {S : Type} (wire : HttpRequest → S → S * HttpOutcome).
Context (urlParse : string → option (string * string)).

Definition do (c : Client) (method path : string) (body : option jval) (auth : bool) :
    M S GoErr (option jval) :=
  match c_cfgErr c with
  | Some e => failM (H3Err e)
  | None =>
    match urlParse (c_baseURL c +:+ path) with
    | None => failM (H3Err (refuse CodeBadRequest))
    | Some _ =>
      if auth && bool_decide (c_token c = "") then failM (H3Err (refuse CodeUnauthenticated))
      else λ s,
        let rq := MkHttpRequest method (c_baseURL c +:+ path) (json_Marshal <$> body)
                    (if auth then Some ("Bearer " +:+ c_token c) else None) in
        match wire rq s with
        | (s', TransportError) | (s', UnreadableBody _) => (s', Err Plain)
        | (s', Response status raw) =>
          (s', if status =? 200 then Ok raw else Err (decodeEnvelope status raw))
        end
    end
  end.
(** [json.Unmarshal] of a 200 body. *)
Definition decode {A} (dec : jval → option A) (raw : option jval) : M S GoErr A :=
  match raw ≫= dec with Some a => retM a | None => failM Plain end.

Definition Health (c : Client) : M S GoErr unit :=
  raw <-- do c "GET" "/health" None false ;;
  ok <-- decode (λ v, ok ← dec_bool "ok" v; _ ← dec_str "service" v; Some ok) raw ;;
  if ok : bool then retM tt else failM Plain.

Definition absolute_http (resource : string) : bool :=
  match urlParse resource with
  | Some (scheme, host) =>
    (bool_decide (scheme = "http") || bool_decide (scheme = "https")) && bool_decide (host ≠ "")
  | None => false
  end.
Definition Client_Quote (c : Client) (resource : string) (chainID : Z) : M S GoErr Quote :=
  if negb (absolute_http resource) then failM (H3Err (refuse CodeBadRequest)) else
  raw <-- do c "POST" "/v1/quote" (Some (quote_body resource chainID)) true ;;
  out <-- decode quote_of_json raw ;;
  let a := qu_Accept out in
  if existsb blank [a_Amount a; a_Asset a; a_PayTo a; a_Network a] ||
     negb (isCanonicalAtomic (a_Amount a))
  then failM (H3Err (MkError 0 CodeChallengeUnavailable true))
  else retM out.

Definition Pay (c : Client) (in_ : WireIntent) (tok : ApprovalToken) : M S GoErr PayResult :=
  match validatePayable in_ tok with
  | Some bad => failM (H3Err bad)
  | None =>
    raw <-- do c "POST" "/v1/pay" (Some (pay_body in_ tok)) true ;;
    out <-- decode pay_result_of_json raw ;;
    if bool_decide (p_State out = "") then failM Plain else retM out
  end.

Definition Status (c : Client) (paymentID : string) : M S GoErr StatusResult :=
  if blank paymentID then failM (H3Err (refuse CodeBadRequest)) else
  raw <-- do c "GET" ("/v1/status/" +:+ PathEscape paymentID) None true ;;
  out <-- decode status_result_of_json raw ;;
  if bool_decide (s_State out = "") then failM Plain else retM out.
End Calls.

(** ** Atomic amounts and micros are the same numbers *)
Lemma digit_chr d : 0 ≤ d < 10 → byteZ (digit d) = 48 + d.
Proof. intros. unfold digit. rewrite byteZ_chrZ; lia. Qed.

(** The leading digit of a positive number is not zero. *)
Lemma udigits_head fuel n acc :
  0 < n → n < 2 ^ Z.of_nat fuel →
  ∃ c r, udigits fuel n acc = String c r ∧ c ≠ "0"%char ∧ isDigit c = true.
Proof.
  revert n acc. induction fuel as [|k IH]; intros n acc Hn Hf; [cbn in Hf; lia|].
  cbn [udigits]. destruct (n <? 10) eqn:E; bool_to_prop.
  - eexists _, _. split; [done|]. rewrite Z.mod_small by lia. split.
    + intros Hc. apply (f_equal byteZ) in Hc. rewrite digit_chr in Hc by lia.
      change (byteZ "0"%char) with 48 in Hc. lia.
    + apply isDigit_digit. lia.
  - apply IH; [Z.div_mod_to_equations; lia|].
    rewrite Nat2Z.inj_succ, Z.pow_succ_r in Hf by lia. Z.div_mod_to_equations; lia.
Qed.

Lemma FormatUint_canonical n : 0 ≤ n → isCanonicalAtomic (FormatUint n) = true.
Proof.
  intros Hn. destruct (decide (n = 0)) as [->|Hz]; [reflexivity|].
  pose proof (FormatUint_digits n Hn) as Hd. unfold FormatUint in *.
  destruct (udigits_head (S (Z.to_nat (Z.log2 n))) n "") as (c & r & E & Hc & _);
    [lia|by apply FormatUint_fuel|].
  rewrite E in *. unfold isCanonicalAtomic. destruct (bool_decide _); [done|].
  by rewrite bool_decide_false.
Qed.

Lemma digits_value_lower a s z : 0 ≤ a → digits_value a s = Some z → a ≤ z.
Proof.
  revert a. induction s as [|c s IH]; intros a Ha; cbn; [intros [= ->]; lia|].
  destruct (isDigit c) eqn:E; [|done]. intros Hz. apply isDigit_range in E.
  apply IH in Hz; lia.
Qed.

(** A digit string of length [n] after a prefix worth [a]. *)
Lemma digits_value_bounds s a z :
  0 ≤ a → digits_value a s = Some z →
  a * 10 ^ Z.of_nat (String.length s) ≤ z < (a + 1) * 10 ^ Z.of_nat (String.length s).
Proof.
  revert a. induction s as [|c s IH]; intros a Ha Hz.
  - cbn in *. simplify_eq. lia.
  - cbn [digits_value] in Hz. destruct (isDigit c) eqn:E; [|done]. apply isDigit_range in E.
    apply IH in Hz; [|lia]. cbn [String.length]. rewrite Nat2Z.inj_succ, Z.pow_succ_r by lia.
    pose proof (Z.pow_pos_nonneg 10 (Z.of_nat (String.length s))). nia.
Qed.
Lemma digits_value_inj_len s s' a z :
  0 ≤ a → String.length s = String.length s' →
  digits_value a s = Some z → digits_value a s' = Some z → s = s'.
Proof.
  revert a s'. induction s as [|c s IH]; intros a [|c' s'] Ha Hl Hz Hz'; try done.
  injection Hl as Hl. cbn [digits_value] in *.
  destruct (isDigit c) eqn:E; [|done]. destruct (isDigit c') eqn:E'; [|done].
  apply isDigit_range in E, E'.
  pose proof (digits_value_bounds s (10 * a + digitZ c) z ltac:(lia) Hz) as B.
  pose proof (digits_value_bounds s' (10 * a + digitZ c') z ltac:(lia) Hz') as B'. rewrite <-Hl in B'.
  pose proof (Z.pow_pos_nonneg 10 (Z.of_nat (String.length s)) ltac:(lia) ltac:(lia)).
  assert (digitZ c = digitZ c') as Hd.
  { destruct (Z.lt_trichotomy (digitZ c) (digitZ c')) as [?|[?|?]]; [exfalso; nia|done|exfalso; nia]. }
  rewrite <-Hd in Hz'.
  rewrite (IH (10 * a + digitZ c) s' ltac:(lia) Hl Hz Hz'). f_equal. apply byteZ_inj. unfold digitZ in Hd. lia.
Qed.
(** A canonical numeral above zero has as many digits as its value needs. *)
Lemma canonical_bounds s z :
  isCanonicalAtomic s = true → s ≠ "0" → digits_value 0 s = Some z →
  10 ^ (Z.of_nat (String.length s) - 1) ≤ z < 10 ^ Z.of_nat (String.length s).
Proof.
  unfold isCanonicalAtomic. destruct s as [|c r]; [done|]. intros Hc H0 Hz.
  rewrite bool_decide_false in Hc by done. destruct (bool_decide (c = "0"%char)) eqn:E0; [done|].
  bool_to_prop. cbn [digits_value] in Hz. destruct (isDigit c) eqn:E; [|done].
  apply isDigit_range in E as Hr. assert (digitZ c ≠ 0).
  { intros Hd. apply E0, byteZ_inj. unfold digitZ in Hd. change (byteZ "0"%char) with 48. lia. }
  apply digits_value_bounds in Hz; [|lia]. cbn [String.length].
  rewrite Nat2Z.inj_succ, Z.pow_succ_r by lia.
  replace (Z.succ (Z.of_nat (String.length r)) - 1) with (Z.of_nat (String.length r)) by lia.
  pose proof (Z.pow_pos_nonneg 10 (Z.of_nat (String.length r)) ltac:(lia) ltac:(lia)). nia.
Qed.
Lemma canonical_inj s s' z :
  isCanonicalAtomic s = true → isCanonicalAtomic s' = true →
  digits_value 0 s = Some z → digits_value 0 s' = Some z → s = s'.
Proof.
  intros Hc Hc' Hz Hz'.
  assert (Hzero : ∀ u, isCanonicalAtomic u = true → u ≠ "0" → digits_value 0 u = Some 0 → False).
  { intros u Hu Hu0 Hv. destruct (canonical_bounds u 0 Hu Hu0 Hv) as [B _]. destruct u; [done|].
    pose proof (Z.pow_pos_nonneg 10 (Z.of_nat (String.length (String a u)) - 1)). cbn in *. lia. }
  destruct (decide (s = "0")) as [->|H0], (decide (s' = "0")) as [->|H0']; [done| | |].
  - change (digits_value 0 "0") with (Some 0) in Hz. simplify_eq. by destruct (Hzero s' Hc' H0' Hz').
  - change (digits_value 0 "0") with (Some 0) in Hz'. simplify_eq. by destruct (Hzero s Hc H0 Hz).
  - destruct (canonical_bounds s z Hc H0 Hz) as [B1 B2].
    destruct (canonical_bounds s' z Hc' H0' Hz') as [B3 B4].
    eapply digits_value_inj_len; [reflexivity| |done|done].
    pose proof (Z.pow_lt_mono_r_iff 10 (Z.of_nat (String.length s) - 1) (Z.of_nat (String.length s'))).
    pose proof (Z.pow_lt_mono_r_iff 10 (Z.of_nat (String.length s') - 1) (Z.of_nat (String.length s))).
    lia.
Qed.

Lemma canonical_head s : isCanonicalAtomic s = true → sall isDigit s = true ∧ s ≠ "".
Proof.
  unfold isCanonicalAtomic. destruct s as [|c r]; [done|].
  destruct (bool_decide (String c r = "0")) eqn:E; bool_to_prop; [by rewrite E|].
  by destruct (bool_decide (c = "0"%char)).
Qed.
Lemma parse_int_canonical s : isCanonicalAtomic s = true → parse_int s = digits_value 0 s.
Proof.
  intros Hc. apply canonical_head in Hc as [Hd Hn]. destruct s as [|c r]; [done|].
  cbn [sall] in Hd. apply andb_true_iff in Hd as [Hd _]. cbn [parse_int].
  rewrite !bool_decide_false; [done|..]; by intros ->.
Qed.

Lemma FormatAtomic_ok z : 0 ≤ z → FormatAtomicMicros z = Ok (FormatInt z) ∧ FormatInt z = FormatUint z.
Proof. intros Hz. unfold FormatAtomicMicros, FormatInt. by rewrite (proj2 (Z.ltb_ge z 0) Hz). Qed.
Lemma Parse_of_Format z :
  int64_range z → 0 ≤ z →
  isCanonicalAtomic (FormatInt z) = true ∧ ParseAtomicMicros (FormatInt z) = Ok z.
Proof.
  intros Hr Hz. destruct (FormatAtomic_ok z Hz) as [_ ->].
  pose proof (FormatUint_canonical z Hz) as Hc. split; [done|].
  unfold ParseAtomicMicros. rewrite Hc. cbn [negb].
  rewrite parse_int_canonical, digits_value_FormatUint by done. by rewrite bool_decide_true.
Qed.

(** C17: one unit, two notations.  Formatting accepts exactly the non-negative
    amounts and parsing exactly the canonical strings whose value fits int64,
    and on those they are inverse to each other: no amount is truncated,
    rescaled, or readable in two ways. *)
Theorem atomic_micros_bijection :
  (∀ z, int64_range z → 0 ≤ z →
     ∃ s, FormatAtomicMicros z = Ok s ∧ isCanonicalAtomic s = true ∧ ParseAtomicMicros s = Ok z) ∧
  (∀ s z, ParseAtomicMicros s = Ok z → FormatAtomicMicros z = Ok s ∧ int64_range z) ∧
  (∀ z, z < 0 → FormatAtomicMicros z = Err Plain) ∧
  (∀ s, isCanonicalAtomic s = false → ParseAtomicMicros s = Err Plain).
Proof.
  split_and!.
  - intros z Hr Hz. exists (FormatInt z). destruct (Parse_of_Format z Hr Hz). split_and!; [|done|done].
    by apply FormatAtomic_ok.
  - intros s z. unfold ParseAtomicMicros. destruct (isCanonicalAtomic s) eqn:Hc; [|done]. cbn [negb].
    rewrite parse_int_canonical by done. destruct (digits_value 0 s) as [m|] eqn:Hm; [|done].
    destruct (bool_decide (int64_range m)) eqn:Hr; [|done]. intros [= <-]. bool_to_prop.
    assert (0 ≤ m) by by apply digits_value_lower in Hm. destruct (FormatAtomic_ok m) as [-> ->]; [done|].
    split; [|done]. f_equal.
    by apply (canonical_inj _ _ m); [apply FormatUint_canonical| |apply digits_value_FormatUint|].
  - intros z Hz. unfold FormatAtomicMicros. by rewrite (proj2 (Z.ltb_lt z 0) Hz).
  - intros s Hc. unfold ParseAtomicMicros. by rewrite Hc.
Qed.

(** ** The daemon's own timestamps parse *)
(** Length of a month counted from March. *)
Lemma mp_dom_length doy :
  0 ≤ doy ≤ 365 → mp_of doy < 11 →
  dom_of (mp_of doy) doy ≤ (153 * (mp_of doy + 1) + 2) / 5 - (153 * mp_of doy + 2) / 5.
Proof. unfold dom_of, mp_of. intros. Z.div_mod_to_equations. lia. Qed.
Lemma month_length_days mp y :
  0 ≤ mp < 11 →
  (153 * (mp + 1) + 2) / 5 - (153 * mp + 2) / 5 ≤ daysIn (if mp <? 10 then mp + 3 else mp - 9) y.
Proof.
  intros Hm. assert (Hc : mp = 0 ∨ mp = 1 ∨ mp = 2 ∨ mp = 3 ∨ mp = 4 ∨ mp = 5 ∨ mp = 6 ∨ mp = 7 ∨
    mp = 8 ∨ mp = 9 ∨ mp = 10) by lia. clear Hm.
  destruct_or! Hc; subst mp; vm_compute; discriminate.
Qed.
Lemma mp_dom_february doy :
  0 ≤ doy ≤ 365 → mp_of doy = 11 → dom_of (mp_of doy) doy = doy - 336.
Proof. unfold dom_of, mp_of. intros. Z.div_mod_to_equations. lia. Qed.
Lemma doy_leap doe :
  0 ≤ doe < 146097 → doy_of (yoe_of doe) doe = 365 →
  (yoe_of doe + 1) `mod` 4 = 0 ∧ ((yoe_of doe + 1) `mod` 100 ≠ 0 ∨ yoe_of doe = 399).
Proof. unfold doy_of, yoe_of. intros. Z.div_mod_to_equations. lia. Qed.

Lemma civil_day_in_month z :
  d_day (civil_from_days z) ≤ daysIn (d_month (civil_from_days z)) (d_year (civil_from_days z)).
Proof.
  unfold civil_from_days. cbv zeta. cbn [d_month d_day d_year].
  pose proof (Z.mod_pos_bound (z + 719468) 146097 ltac:(lia)) as Hb.
  set (era := (z + 719468) / 146097). set (doe := (z + 719468) `mod` 146097) in *.
  destruct (yoe_doy_bounds doe Hb) as [Hyoe Hdoy]. destruct (mp_dom_bounds _ Hdoy) as [Hmp Hdom].
  pose proof (doy_leap doe Hb) as Hleap. set (yoe := yoe_of doe) in *.
  set (doy := doy_of yoe doe) in *. pose proof (mp_dom_length doy Hdoy) as Hlen.
  pose proof (mp_dom_february doy Hdoy) as Hfeb. set (mp := mp_of doy) in *.
  destruct (decide (mp = 11)) as [E|E].
  - specialize (Hfeb E). rewrite Hfeb, E. cbn [Z.ltb Z.compare]. change (11 - 9) with 2.
    change (11 <? 10) with false. cbv iota. change (2 <=? 2) with true. cbv iota.
    unfold daysIn. cbn [Z.eqb Pos.eqb]. unfold isLeap.
    destruct (decide (doy = 365)) as [E2|E2]; [|case_match; lia].
    destruct (Hleap E2) as [H4 H100].
    assert ((yoe + era * 400 + 1) `mod` 4 = 0) as -> by (Z.div_mod_to_equations; lia).
    cbn [Z.eqb andb]. destruct H100 as [H100|H100].
    + assert ((yoe + era * 400 + 1) `mod` 100 ≠ 0) as Hn by (Z.div_mod_to_equations; lia).
      rewrite (proj2 (Z.eqb_neq _ _) Hn). cbn [negb orb]. lia.
    + assert ((yoe + era * 400 + 1) `mod` 400 = 0) as -> by (Z.div_mod_to_equations; lia).
      rewrite orb_true_r. lia.
  - assert (Hlt : mp < 11) by lia. specialize (Hlen Hlt).
    pose proof (month_length_days mp (yoe + era * 400 + (if (if mp <? 10 then mp + 3 else mp - 9) <=? 2
      then 1 else 0)) ltac:(lia)). lia.
Qed.

Lemma num2_pad2 n r : 0 ≤ n < 100 → num2 (FormatPad 2 n +:+ r) = Some (n, r).
Proof.
  intros Hn. pose proof (FormatPad_length 2 n ltac:(lia) ltac:(cbn; lia)) as Hl.
  pose proof (digits_value_FormatPad 2 n ltac:(lia)) as Hv.
  destruct (FormatPad 2 n) as [|a [|b [|? ?]]]; try done. cbn [digits_value] in Hv.
  destruct (isDigit a) eqn:Ea; [|done]. destruct (isDigit b) eqn:Eb; [|done].
  rewrite !sapp_cons, sapp_nil_l. unfold num2. rewrite Ea, Eb. cbn [andb].
  injection Hv as Hv. do 2 f_equal. lia.
Qed.
Lemma num2_pad4 y r : 0 ≤ y ≤ 9999 → ∃ y1 y2 r1,
  num2 (FormatPad 4 y +:+ r) = Some (y1, r1) ∧ num2 r1 = Some (y2, r) ∧ 100 * y1 + y2 = y.
Proof.
  intros Hn. pose proof (FormatPad_length 4 y ltac:(lia) ltac:(cbn; lia)) as Hl.
  pose proof (digits_value_FormatPad 4 y ltac:(lia)) as Hv.
  destruct (FormatPad 4 y) as [|a [|b [|c [|d [|? ?]]]]]; try done. cbn [digits_value] in Hv.
  destruct (isDigit a) eqn:Ea; [|done]. destruct (isDigit b) eqn:Eb; [|done].
  destruct (isDigit c) eqn:Ec; [|done]. destruct (isDigit d) eqn:Ed; [|done].
  rewrite !sapp_cons, sapp_nil_l. unfold num2. rewrite Ea, Eb. cbn [andb].
  do 3 eexists. split; [done|]. cbv beta iota. rewrite Ec, Ed. cbn [andb]. split; [done|].
  injection Hv as Hv. lia.
Qed.

Lemma skip_hit c r : skip c (String c r) = Some r.
Proof. unfold skip. by rewrite bool_decide_true. Qed.
Lemma RFC3339_valid t : 0 ≤ d_year (UTC_Date t) ≤ 9999 → valid_RFC3339 (RFC3339 t) = true.
Proof.
  intros Hy. unfold RFC3339, fmt_sec. cbv zeta. unfold fmt_year.
  rewrite (proj2 (Z.ltb_ge _ _) (proj1 Hy)).
  pose proof (civil_from_days_bounds (t / day_ns)) as [Hm Hd].
  pose proof (civil_day_in_month (t / day_ns)) as Hdim.
  fold (UTC_Date t) in Hm, Hd, Hdim. set (d := UTC_Date t) in *.
  destruct (sec_fields_bounds t) as (Hs & _). set (s := (t `mod` day_ns) / Second) in *.
  unfold valid_RFC3339.
  assert (Hh : 0 ≤ s / 3600 < 24) by (Z.div_mod_to_equations; lia).
  assert (Hi : 0 ≤ (s / 60) `mod` 60 < 60) by (apply Z.mod_pos_bound; lia).
  assert (Hsec : 0 ≤ s `mod` 60 < 60) by (apply Z.mod_pos_bound; lia).
  match goal with |- context [num2 (FormatPad 4 (d_year d) +:+ ?r)] =>
    destruct (num2_pad4 (d_year d) r Hy) as (y1 & y2 & r1 & E1 & E2 & Hsum) end.
  rewrite E1. cbn [mbind option_bind]. rewrite E2. cbn [mbind option_bind].
  rewrite !sapp_cons, !sapp_nil_l.
  repeat (rewrite skip_hit || (rewrite num2_pad2 by lia) || cbn [mbind option_bind]).
  unfold num12. repeat (rewrite skip_hit || (rewrite num2_pad2 by lia) || cbn [mbind option_bind]).
  cbn [skip_fraction parse_zone mbind option_bind]. rewrite Hsum.
  rewrite bool_decide_true by done. cbn [andb].
  rewrite !andb_true_iff, !Z.leb_le, !Z.ltb_lt. lia.
Qed.

Lemma contains_char_app c a b :
  contains_char c (a +:+ b) = contains_char c a || contains_char c b.
Proof. induction a as [|d a IH]; [done|]. cbn. by rewrite IH, orb_assoc. Qed.
Lemma digits_no_char c s : isDigit c = false → sall isDigit s = true → contains_char c s = false.
Proof.
  intros Hc. induction s as [|d s IH]; [done|]. cbn. rewrite andb_true_iff. intros [Hd Hs].
  rewrite IH by done. rewrite bool_decide_false; [done|]. intros ->. congruence.
Qed.
Lemma RFC3339_no_period t : contains_char "." (RFC3339 t) = false.
Proof.
  unfold RFC3339, fmt_sec, fmt_year. cbv zeta.
  destruct (civil_fields_nonneg (t / day_ns)). destruct (sec_fields_bounds t) as (?&?&?&?).
  unfold UTC_Date. set (d := civil_from_days _) in *. set (s := _ / Second) in *.
  assert (Hp : ∀ w n, 0 ≤ n → contains_char "." (FormatPad w n) = false).
  { intros. apply digits_no_char; [done|]. by apply FormatPad_digits. }
  destruct (d_year d <? 0) eqn:E; bool_to_prop; rewrite !contains_char_app, !Hp by lia; done.
Qed.

(** ** What passes the pre-flight validation *)
Definition well_formed_payable (in_ : WireIntent) (tok : ApprovalToken) : Prop :=
  Forall (λ s, blank s = false)
    [w_Nonce in_; w_Resource in_; w_Merchant in_; w_Asset in_; w_Network in_] ∧
  isCanonicalAtomic (w_Amount in_) = true ∧ isCanonicalAtomic (w_MaxAmount in_) = true ∧
  contains_char "." (w_ExpiresAt in_) = false ∧ valid_RFC3339 (w_ExpiresAt in_) = true ∧
  t_Decision tok = w_Decision in_ ∧ t_ExpiresAt tok = w_ExpiresAt in_ ∧
  t_ApprovedAmount tok = w_Amount in_ ∧
  w_Decision in_ ∈ [DecisionAutoApprove; DecisionHumanApproved] ∧
  isHex32 (t_IntentHash tok) = true ∧
  String.length (t_Signature tok) = 64%nat ∧ is_lower_hex (t_Signature tok) = true.

Lemma blank_digit c r : acc1 c = true → space_chunk (Raw1 c) = false → blank (String c r) = false.
Proof. intros Hc Hs. unfold blank. cbn [chunks]. rewrite Hc. cbn [forallb]. by rewrite Hs. Qed.
Lemma digit_not_space c : isDigit c = true → acc1 c = true ∧ space_chunk (Raw1 c) = false.
Proof. destruct c as [[] [] [] [] [] [] [] []]; vm_compute; intros; split; congruence. Qed.
Lemma lower_hex_not_space c : lower_hex c = true → acc1 c = true ∧ space_chunk (Raw1 c) = false.
Proof. destruct c as [[] [] [] [] [] [] [] []]; vm_compute; intros; split; congruence. Qed.

Lemma valid_RFC3339_not_blank s : valid_RFC3339 s = true → blank s = false.
Proof.
  unfold valid_RFC3339. destruct s as [|a [|b r]]; [discriminate|discriminate|].
  destruct (num2 (String a (String b r))) as [p|] eqn:E; [intros _|discriminate].
  unfold num2 in E. destruct (isDigit a) eqn:Ea; [|discriminate]. apply digit_not_space in Ea as [? ?].
  by apply blank_digit.
Qed.
Lemma isHex32_not_blank s : isHex32 s = true → blank s = false.
Proof.
  destruct s as [|a [|b r]]; [discriminate|discriminate|]. cbn [isHex32]. intros Hb. bool_to_prop.
  match goal with E : a = _ |- _ => rewrite E end. apply blank_digit; vm_compute; reflexivity.
Qed.

Lemma validatePayable_refusals in_ tok e :
  validatePayable in_ tok = Some e → he_HTTPStatus e = 0 ∧ PreSign e = true.
Proof. intros He. unfold validatePayable in He. repeat case_match; simplify_eq; done. Qed.

Lemma well_formed_payable_accepted in_ tok :
  well_formed_payable in_ tok → validatePayable in_ tok = None.
Proof.
  unfold validatePayable, well_formed_payable. cbn [existsb forallb].
  rewrite !Forall_cons, Forall_nil. intros ((?&?&?&?&?&_)&?&?&?&Ht&?&?&Ha&Hd&Hh&Hl&Hx).
  assert (blank (w_ExpiresAt in_) = false) as -> by by apply valid_RFC3339_not_blank.
  assert (blank (t_IntentHash tok) = false) as -> by by apply isHex32_not_blank.
  assert (blank (t_Signature tok) = false) as ->.
  { unfold is_lower_hex in Hx. destruct (t_Signature tok) as [|c r]; [done|].
    apply andb_true_iff in Hx as [_ Hx]. cbn [sall] in Hx.
    apply andb_true_iff in Hx as [Hx _]. apply lower_hex_not_space in Hx as [? ?].
    by apply blank_digit. }
  rewrite Ha. repeat match goal with E : _ = false |- _ => rewrite E; clear E
                     | E : _ = true |- _ => rewrite E; clear E end.
  cbn [orb andb negb]. rewrite !bool_decide_false by (by intros ?). cbn [orb].
  rewrite !elem_of_cons, elem_of_nil in Hd.
  destruct Hd as [Hd|[Hd|[]]]; rewrite Hd, Hl; reflexivity.
Qed.

(** What the client is willing to send.  The pre-flight check accepts a pay
    body exactly when it is well formed (named fields not blank, canonical
    amounts, a second-precision RFC 3339 expiry, a token that states the same
    decision, window and amount as the intent, an approving decision, a
    well-shaped hash and signature); every refusal is raised with status 0 and
    a code the release rule reads as "nothing was signed". *)
Lemma validatePayable_iff in_ tok :
  (validatePayable in_ tok = None ↔ well_formed_payable in_ tok) ∧
  ∀ e, validatePayable in_ tok = Some e → he_HTTPStatus e = 0 ∧ PreSign e = true.
Proof.
  split.
  - split.
    + unfold validatePayable, well_formed_payable. cbn [existsb forallb].
      rewrite !Forall_cons, Forall_nil. intros Hv. repeat (case_match; [done|]). bool_to_prop.
      repeat match goal with E : ¬ (_ ≠ _) |- _ => apply dec_stable in E end.
      split_and!; try done.
      rewrite !elem_of_cons.
      match goal with E : _ ∨ _ |- _ => destruct E as [E|E]; bool_to_prop; apply dec_stable in E end;
        tauto.
    + apply well_formed_payable_accepted.
  - apply validatePayable_refusals.
Qed.

(** ** What a call makes of an exchange *)
Definition outcome_of {A} (dec : jval → option A) (state_of : A → string) (out : HttpOutcome) :
    result GoErr A :=
  match out with
  | TransportError | UnreadableBody _ => Err Plain
  | Response status raw =>
    if status =? 200 then
      match raw ≫= dec with
      | Some a => if bool_decide (state_of a = "") then Err Plain else Ok a
      | None => Err Plain
      end
    else Err (decodeEnvelope status raw)
  end.

Section CallSpecs.
Context {S : Type} (wire : HttpRequest → S → S * HttpOutcome).
Context (urlParse : string → option (string * string)).

Lemma do_cases c method path body (s s' : S) r :
  do wire urlParse c method path body true s = (s', r) →
  (s' = s ∧ ∃ e, r = Err (H3Err e) ∧ (c_cfgErr c = None → he_HTTPStatus e = 0 ∧
     he_Code e ∈ [CodeBadRequest; CodeUnauthenticated])) ∨
  c_cfgErr c = None ∧ ∃ out,
    wire (MkHttpRequest method (c_baseURL c +:+ path) (json_Marshal <$> body)
            (Some ("Bearer " +:+ c_token c))) s = (s', out) ∧
    r = match out with
        | TransportError | UnreadableBody _ => Err Plain
        | Response status raw => if status =? 200 then Ok raw else Err (decodeEnvelope status raw)
        end.
Proof.
  intros Hd. unfold do, failM in Hd. destruct (c_cfgErr c) as [e|];
    [simplify_eq; left; split; [done|eexists; split; done]|].
  assert (Hloc : ∀ code, code ∈ [CodeBadRequest; CodeUnauthenticated] → (s, Err (H3Err (refuse code))) = (s', r) →
    s' = s ∧ ∃ e, r = Err (H3Err e) ∧ (@None Error = None → he_HTTPStatus e = 0 ∧
     he_Code e ∈ [CodeBadRequest; CodeUnauthenticated])).
  { intros code Hc Heq. simplify_eq. split; [done|]. by eexists. }
  destruct (urlParse (c_baseURL c +:+ path)); [|left; eapply Hloc; [|exact Hd]; set_solver].
  destruct (bool_decide (c_token c = "")); cbn [andb] in Hd;
    [left; eapply Hloc; [|exact Hd]; set_solver|].
  right. split; [done|]. destruct (wire _ s) as [s1 out]. exists out.
  destruct out; simplify_eq; done.
Qed.

Lemma Pay_cases c i t (s s' : S) r :
  Pay wire urlParse c i t s = (s', r) →
  (s' = s ∧ ∃ e, r = Err (H3Err e) ∧ (c_cfgErr c = None → he_HTTPStatus e = 0 ∧ PreSign e = true)) ∨
  validatePayable i t = None ∧ ∃ out,
    wire (MkHttpRequest "POST" (c_baseURL c +:+ "/v1/pay") (Some (json_Marshal (pay_body i t)))
            (Some ("Bearer " +:+ c_token c))) s = (s', out) ∧
    r = outcome_of pay_result_of_json p_State out.
Proof.
  unfold Pay. destruct (validatePayable i t) as [e|] eqn:Ev.
  { intros Hp. unfold failM in Hp. simplify_eq. left. split; [done|]. eexists. split; [done|].
    intros _. by eapply validatePayable_refusals. }
  intros Hp. unfold bindM at 1 in Hp. destruct (do _ _ _ _ _ _ _ s) as [s1 q] eqn:Ed.
  apply do_cases in Ed as [(-> & e & -> & He)|(_ & out & Hw & ->)].
  { simplify_eq. left. split; [done|]. eexists. split; [done|]. intros Hc. destruct (He Hc) as [-> Hcode].
    split; [done|]. rewrite !elem_of_cons, elem_of_nil in Hcode. destruct e as [? co ?]. cbn in Hcode.
    by destruct Hcode as [-> |[-> |[]]]. }
  right. split; [done|]. exists out.
  destruct out as [|st|st raw]; [by simplify_eq..|]. cbn [outcome_of]. destruct (st =? 200); [|by simplify_eq].
  unfold bindM, decode in Hp. destruct (raw ≫= pay_result_of_json) as [p|]; unfold retM, failM in Hp;
    [|by simplify_eq]. destruct (bool_decide _); by simplify_eq.
Qed.

Lemma Status_cases c id (s s' : S) r :
  Status wire urlParse c id s = (s', r) →
  (s' = s ∧ ∃ e, r = Err (H3Err e) ∧ (c_cfgErr c = None → he_Code e ∈ [CodeBadRequest; CodeUnauthenticated])) ∨
  ∃ out,
    wire (MkHttpRequest "GET" (c_baseURL c +:+ "/v1/status/" +:+ PathEscape id) None
            (Some ("Bearer " +:+ c_token c))) s = (s', out) ∧
    r = outcome_of status_result_of_json s_State out.
Proof.
  unfold Status. destruct (blank id).
  { intros Hp. unfold failM in Hp. simplify_eq. left. split; [done|]. eexists. split; [done|]. set_solver. }
  intros Hp. unfold bindM at 1 in Hp. destruct (do _ _ _ _ _ _ _ s) as [s1 q] eqn:Ed.
  apply do_cases in Ed as [(-> & e & -> & Hc)|(_ & out & Hw & ->)].
  { simplify_eq. left. split; [done|]. eexists. split; [done|]. intros Hx. by destruct (Hc Hx). }
  right. exists out.
  destruct out as [|st|st raw]; [by simplify_eq..|]. cbn [outcome_of]. destruct (st =? 200); [|by simplify_eq].
  unfold bindM, decode in Hp. destruct (raw ≫= status_result_of_json) as [p|]; unfold retM, failM in Hp;
    [|by simplify_eq]. destruct (bool_decide _); by simplify_eq.
Qed.
End CallSpecs.

Lemma unsigned_envelope status raw :
  provably_unsigned (decodeEnvelope status raw) = true →
  ∃ code retriable, raw ≫= envelope_of_json = Some (code, retriable) ∧
    code ∉ [""; CodeInternal; CodePaymentInProgress; CodePaymentRejected; CodeFacilitatorError].
Proof.
  unfold decodeEnvelope. destruct (raw ≫= envelope_of_json) as [[code re]|]; [|done].
  destruct (bool_decide (code = "")) eqn:E1; [done|].
  destruct (bool_decide (code = CodeInternal)) eqn:E2; [done|].
  unfold provably_unsigned, PreSign, postSign. cbn [he_Code]. rewrite E2.
  destruct (bool_decide (code = CodePaymentInProgress)) eqn:E3; [done|].
  rewrite negb_true_iff. intros E4. bool_to_prop. eexists _, _. split; [done|].
  rewrite !not_elem_of_cons. set_solver.
Qed.

(** The release rule trusts only what it can prove.  An error reads as
    "nothing was signed" only if it is an envelope with a code outside the two
    post-signature codes, PAYMENT_IN_PROGRESS and INTERNAL; a transport error, a
    body that cannot be read or parsed, a missing code and INTERNAL never do. *)
Lemma provably_unsigned_iff status raw :
  provably_unsigned (decodeEnvelope status raw) = true ↔
  ∃ code retriable, raw ≫= envelope_of_json = Some (code, retriable) ∧
    code ∉ [""; CodeInternal; CodePaymentInProgress; CodePaymentRejected; CodeFacilitatorError].
Proof.
  split; [apply unsigned_envelope|]. intros (code & re & He & Hn). unfold decodeEnvelope. rewrite He.
  rewrite !not_elem_of_cons in Hn. destruct Hn as (H1 & H2 & H3 & H4 & H5 & _).
  unfold provably_unsigned. rewrite !bool_decide_false by done.
  unfold PreSign, postSign. cbn [he_Code]. by rewrite !bool_decide_false.
Qed.

(** The states are classified without a gap or an overlap: a state is
    committed, unresolved, or one of the two that release the hold. *)
Lemma state_partition s :
  s ∈ payment_states →
  (Committed s = true ∧ Unresolved s = false ∧ s ∈ [StateDelivered; StateSettled]) ∨
  (Committed s = false ∧ Unresolved s = true ∧ s ∈ [StateSigned; StateSubmitted; StateReconciling]) ∨
  (Committed s = false ∧ Unresolved s = false ∧ s ∈ [StateFailed; StateExpired]).
Proof.
  unfold payment_states. rewrite !elem_of_cons, elem_of_nil.
  intros Hs; destruct_or! Hs; try done; subst s;
    first [left; split_and!; [reflexivity|reflexivity|set_solver]
          |right; left; split_and!; [reflexivity|reflexivity|set_solver]
          |right; right; split_and!; [reflexivity|reflexivity|set_solver]].
Qed.
