(* ===== verification/Sidecar.v ===== *)
(** [sidecar/src]: the payment sidecar at the other end of the H3 lane, as far
    as [/v1/pay] and [/v1/status] go ([service.ts], [h3.ts], [store.ts] and the
    checks of [buyer.ts]).

    What the sidecar asks the outside for is an oracle, one [Env] per request:
    whether another call holds the nonce's lock, whether an expiry has elapsed
    ([Date.parse], [Date.now]), what the probe of the seller yields, how signing
    and submitting end, and whether the HTTP exchange survives.  [signed] is a
    ghost: for each use of the key, the intent's nonce and the authorization nonce.  The theorems relate
    this service to the client of [H3]. *)
From Stdlib Require Import Ascii String.
From S2P Require Import Prelude GoStr GoTime GoJson Intent Store H3.
#[local] Open Scope Z_scope.
#[local] Open Scope snap_scope.

(** ** [h3.ts]: the shared derivations *)
Section H3ts.
Context (keccak256 : string → string) (hmac_sha256 : string → string → string).
(** [JSON.stringify] of the literal whose keys are written in sorted order. *)
Definition canonicalIntent (i : WireIntent) : string :=
  render_object [ ("agentId", js_stringify (w_AgentID i)); ("amount", js_stringify (w_Amount i));
    ("asset", js_stringify (w_Asset i)); ("expiresAt", js_stringify (w_ExpiresAt i));
    ("intentId", js_stringify (w_IntentID i)); ("jobId", js_stringify (w_JobID i));
    ("maxAmount", js_stringify (w_MaxAmount i)); ("merchant", js_stringify (w_Merchant i));
    ("network", js_stringify (w_Network i)); ("nonce", js_stringify (w_Nonce i));
    ("policyVersion", js_stringify (w_PolicyVersion i)); ("purpose", js_stringify (w_Purpose i));
    ("resource", js_stringify (w_Resource i)); ("taskId", js_stringify (w_TaskID i)) ].
Definition computeIntentHash (i : WireIntent) : string := keccak256 (canonicalIntent i).
Definition computePaymentId (intentHash nonce : string) : string :=
  "pay_" +:+ String.substring 2 16 (keccak256 (intentHash +:+ "|" +:+ nonce)).
Definition computeAuthNonce (intentHash : string) : string := keccak256 (intentHash +:+ "|auth").
Definition js_signApproval (secret : string) (t : ApprovalToken) : string :=
  hmac_sha256 secret (t_IntentHash t +:+ "|" +:+ t_Decision t +:+ "|" +:+
                      t_ApprovedAmount t +:+ "|" +:+ t_ExpiresAt t).
Definition verifyApproval (secret : string) (t : ApprovalToken) : bool :=
  bool_decide (js_signApproval secret t = lower_ascii (t_Signature t)).
End H3ts.

(** ** [store.ts]: the durable records, by nonce *)
Record PaymentRecord := MkPaymentRecord {
  pr_paymentId : string; pr_nonce : string; pr_intentHash : string; pr_state : string;
  pr_amountReserved : string; pr_amountPaid : option string; pr_receipt : option Receipt;
  pr_reason : option string }.
Definition set_outcome (state : string) (paid : option string) (r : option Receipt)
    (reason : option string) (p : PaymentRecord) : PaymentRecord :=
  MkPaymentRecord (pr_paymentId p) (pr_nonce p) (pr_intentHash p) state (pr_amountReserved p)
    paid r reason.

(** ** The outside *)
Record Challenge := MkChallenge {
  ch_network : string; ch_payTo : string; ch_asset : string;
  ch_amount : option Z }.
(** [ch_amount]: what [BigInt] makes of the advertised amount (None: it throws). *)
Inductive ProbeOut :=
| ProbeOk (accept : Challenge)
| ProbeNotFound | ProbeUnreachable | ProbeUnusable | ProbeNoNetwork.
(** [SubmitThrew]: an exception that is no [PaymentFailed], before
    ([signTypedData] failing) or after the key was used and the header sent (a
    200 whose JSON has no receipt).  [SubmitCrashed]: the process dies after the
    write-ahead; the records survive it. *)
Inductive SubmitOut :=
| SubmitDelivered (payer payee settlement receiptAmount : string)
| SubmitRejected
| SubmitUnknown
| SubmitThrew (key_used : bool)
| SubmitCrashed (key_used : bool).
Inductive Lost := NotLost | LostRequest | LostReply | TornReply.
Record Env := MkEnv {
  en_locked : bool; en_elapsed : string → bool; en_probe : ProbeOut; en_submit : SubmitOut;
  en_http : Lost }.
Definition idleEnv : Env := MkEnv false (λ _, false) ProbeUnreachable SubmitUnknown NotLost.

Record Sidecar := MkSidecar {
  records : gmap string PaymentRecord; signed : list (string * string); envs : list Env }.
Definition next_env (s : Sidecar) : Env * Sidecar :=
  match envs s with
  | e :: es => (e, MkSidecar (records s) (signed s) es)
  | [] => (idleEnv, s)
  end.
Definition upsert (p : PaymentRecord) (s : Sidecar) : Sidecar :=
  MkSidecar (<[ pr_nonce p := p ]> (records s)) (signed s) (envs s).
Definition use_key (n : string * string) (s : Sidecar) : Sidecar :=
  MkSidecar (records s) (signed s ++ [n]) (envs s).

(** ** Replies *)
Definition errorReply (status : Z) (code : string) (paymentId : option string) (retriable : bool) :
    Z * jval :=
  (status, JObj [("error", JObj [ ("code", JStr code); ("message", JStr "");
     ("paymentId", match paymentId with Some p => JStr p | None => JNull end);
     ("retriable", JBool retriable) ])]).
Definition opt_json (o : option string) : jval := match o with Some s => JStr s | None => JNull end.
Definition receipt_json (r : option Receipt) : jval :=
  match r with
  | None => JNull
  | Some r => JObj [ ("resource", JStr (rc_Resource r)); ("amount", JStr (rc_Amount r));
      ("asset", JStr (rc_Asset r)); ("network", JStr (rc_Network r)); ("payer", JStr (rc_Payer r));
      ("payee", JStr (rc_Payee r)); ("authNonce", JStr (rc_AuthNonce r));
      ("settlement", JStr (rc_Settlement r)) ]
  end.
Definition payResponse (p : PaymentRecord) (replay : bool) : Z * jval :=
  (200, JObj [ ("paymentId", JStr (pr_paymentId p)); ("state", JStr (pr_state p));
    ("idempotentReplay", JBool replay); ("amountPaid", opt_json (pr_amountPaid p));
    ("receipt", receipt_json (pr_receipt p)); ("authorizationSignature", JNull); ("data", JNull);
    ("intentHash", JStr (pr_intentHash p)); ("executedAt", JStr "") ]).
Definition statusResponse (p : PaymentRecord) : Z * jval :=
  (200, JObj [ ("paymentId", JStr (pr_paymentId p)); ("state", JStr (pr_state p));
    ("terminal", JBool (bool_decide (pr_state p ∈ [StateSettled; StateFailed; StateExpired])));
    ("intentHash", JStr (pr_intentHash p)); ("idempotencyNonce", JStr (pr_nonce p));
    ("amountReserved", JStr (pr_amountReserved p)); ("amountPaid", opt_json (pr_amountPaid p));
    ("receipt", receipt_json (pr_receipt p)); ("reason", opt_json (pr_reason p));
    ("createdAt", JStr ""); ("updatedAt", JStr "") ]).

(** ** The request bodies: every field a string *)
Definition all_str (k : string) (v : jval) : option string :=
  match v with JObj fs => match jget k fs with Some (JStr s) => Some s | _ => None end | _ => None end.
Definition member (k : string) (v : jval) : jval :=
  match v with JObj fs => default JNull (jget k fs) | _ => JNull end.
Definition isWireIntent (v : jval) : option WireIntent :=
  a ← all_str "intentId" v; b ← all_str "jobId" v; c ← all_str "taskId" v; d ← all_str "agentId" v;
  e ← all_str "resource" v; f ← all_str "network" v; g ← all_str "asset" v;
  h ← all_str "merchant" v; i ← all_str "amount" v; j ← all_str "maxAmount" v;
  k ← all_str "purpose" v; l ← all_str "nonce" v; m ← all_str "decision" v;
  n ← all_str "policyVersion" v; o ← all_str "createdAt" v; p ← all_str "expiresAt" v;
  Some (MkWireIntent a b c d e f g h i j k l m n o p).
Definition isApprovalToken (v : jval) : option ApprovalToken :=
  a ← all_str "intentHash" v; b ← all_str "decision" v; c ← all_str "approvedAmount" v;
  d ← all_str "approver" v; e ← all_str "policyVersion" v; f ← all_str "issuedAt" v;
  g ← all_str "expiresAt" v; h ← all_str "signature" v;
  Some (MkApprovalToken a b c d e f g h).

(** [assertAcceptMatchesIntent]: the violated term's code and HTTP status. *)
Definition assertAcceptMatchesIntent (toLower : string → string) (a : Challenge) (i : WireIntent) :
    option (string * Z) :=
  let approved := parse_int (w_Amount i) in
  let ceiling := parse_int (w_MaxAmount i) in
  if bool_decide (ch_network a ≠ w_Network i) then Some (CodeNoMatchingNetwork, 422)
  else if bool_decide (toLower (ch_payTo a) ≠ toLower (w_Merchant i)) then Some (CodeMerchantChanged, 409)
  else if bool_decide (toLower (ch_asset a) ≠ toLower (w_Asset i)) then Some (CodeAssetChanged, 409)
  else match ch_amount a, approved, ceiling with
  | Some price, Some amount, Some ceil =>
    if bool_decide (price ≠ amount) then Some (CodePriceChanged, 409)
    else if ceil <? price then Some (CodePriceExceedsReserved, 402)
    else None
  | _, _, _ => Some (CodeInternal, 500)
  end.

Section Service.
Context (keccak256 : string → string) (hmac_sha256 : string → string → string).
Context (toLower : string → string).
Context (AUTH_TOKEN H2_SECRET : string).

(** From the write-ahead record on. *)
Definition sign_and_record (env : Env) (i : WireIntent) (hash : string) (price : Z) (s : Sidecar) :
    Sidecar * option (Z * jval) :=
  let id := computePaymentId keccak256 hash (w_Nonce i) in
  let auth := computeAuthNonce keccak256 hash in
  let key := (w_Nonce i, auth) in
  let rec := MkPaymentRecord id (w_Nonce i) hash StateSigned (w_MaxAmount i) None None None in
  let s := upsert rec s in
  match en_submit env with
  | SubmitDelivered payer payee settlement amt =>
    let r := MkReceipt (w_Resource i) amt (w_Asset i) (w_Network i) payer payee auth settlement in
    let rec := set_outcome StateDelivered (Some (FormatInt price)) (Some r) None rec in
    (upsert rec (use_key key s), Some (payResponse rec false))
  | SubmitRejected =>
    (upsert (set_outcome StateReconciling None None (Some "") rec) (use_key key s),
     Some (errorReply 402 CodePaymentRejected (Some id) false))
  | SubmitUnknown =>
    (upsert (set_outcome StateReconciling None None (Some "") rec) (use_key key s),
     Some (errorReply 502 CodeFacilitatorError (Some id) true))
  | SubmitThrew key_used =>
    (upsert (set_outcome StateFailed None None (Some "") rec)
       (if key_used : bool then use_key key s else s),
     Some (errorReply 500 CodeInternal (Some id) false))
  | SubmitCrashed key_used => (if key_used : bool then use_key key s else s, None)
  end.

Definition handlePay (env : Env) (body : jval) (s : Sidecar) : Sidecar * option (Z * jval) :=
  match isWireIntent (member "intent" body), isApprovalToken (member "approvalToken" body) with
  | Some i, Some t =>
    if negb (forallb isCanonicalAtomic [w_Amount i; w_MaxAmount i; t_ApprovedAmount t])
    then (s, Some (errorReply 400 CodeBadRequest None false)) else
    let hash := computeIntentHash keccak256 i in
    match records s !! w_Nonce i with
    | Some p =>
      if bool_decide (pr_intentHash p ≠ hash)
      then (s, Some (errorReply 409 CodeIntentHashMismatch (Some (pr_paymentId p)) false))
      else if bool_decide (pr_state p = StateDelivered) ||
              bool_decide (pr_state p ∈ [StateSettled; StateFailed; StateExpired])
      then (s, Some (payResponse p true))
      else (s, Some (errorReply 409 CodePaymentInProgress (Some (pr_paymentId p)) true))
    | None =>
      if en_locked env then (s, Some (errorReply 409 CodePaymentInProgress None true))
      else if negb (verifyApproval hmac_sha256 H2_SECRET t)
      then (s, Some (errorReply 401 CodeApprovalTokenInvalid None false))
      else if bool_decide (t_IntentHash t ≠ hash)
      then (s, Some (errorReply 409 CodeIntentHashMismatch None false))
      else if bool_decide (t_Decision t ≠ w_Decision i) || bool_decide (t_ExpiresAt t ≠ w_ExpiresAt i)
      then (s, Some (errorReply 401 CodeApprovalTokenInvalid None false))
      else if bool_decide (t_ApprovedAmount t ≠ w_Amount i)
      then (s, Some (errorReply 409 CodeApprovedAmountMismatch None false))
      else if en_elapsed env (w_ExpiresAt i) then (s, Some (errorReply 410 CodeApprovalExpired None false))
      else if bool_decide (w_Decision i ≠ DecisionAutoApprove) &&
              bool_decide (w_Decision i ≠ DecisionHumanApproved)
      then (s, Some (errorReply 403 CodeIntentNotApproved None false))
      else match en_probe env with
      | ProbeNotFound => (s, Some (errorReply 404 CodeResourceNotFound None false))
      | ProbeUnreachable => (s, Some (errorReply 502 CodeUpstreamUnreachable None true))
      | ProbeUnusable => (s, Some (errorReply 502 CodeChallengeUnavailable None true))
      | ProbeNoNetwork => (s, Some (errorReply 422 CodeNoMatchingNetwork None false))
      | ProbeOk accept =>
        match assertAcceptMatchesIntent toLower accept i with
        | Some (code, status) => (s, Some (errorReply status code None false))
        | None => sign_and_record env i hash (default 0 (ch_amount accept)) s
        end
      end
    end
  | _, _ => (s, Some (errorReply 400 CodeBadRequest None false))
  end.

(** [store.getById] scans the records. *)
Definition getById (id : string) (m : gmap string PaymentRecord) : option PaymentRecord :=
  head (filter (λ p, pr_paymentId p = id) (snd <$> map_to_list m)).
Definition handleStatus (id : string) (s : Sidecar) : Z * jval :=
  match getById id (records s) with
  | None => errorReply 404 CodePaymentNotFound None false
  | Some p => statusResponse p
  end.

(** [decodeURIComponent]. *)
Fixpoint percent_decode (s : string) : option string :=
  match s with
  | "" => Some ""
  | String c r =>
    if bool_decide (c = "%"%char) then
      match r with
      | String a (String b r') =>
        x ← hex_value a; y ← hex_value b; t ← percent_decode r'; Some (String (chrZ (16 * x + y)) t)
      | _ => None
      end
    else t ← percent_decode r; Some (String c t)
  end.
Definition decodeURIComponent (s : string) : option string :=
  t ← percent_decode s; if valid_utf8 t then Some t else None.

(** The server, for the paths the daemon pays and polls on. *)
Definition serve (env : Env) (method path : string) (body : option jval) (auth : option string)
    (s : Sidecar) : Sidecar * option (Z * jval) :=
  if bool_decide (auth ≠ Some ("Bearer " +:+ AUTH_TOKEN))
  then (s, Some (errorReply 401 CodeUnauthenticated None false))
  else if bool_decide (method = "POST") && bool_decide (path = "/v1/pay")
  then handlePay env (default (JObj []) body) s
  else match strip_prefix "/v1/status/" path with
  | Some esc =>
    if bool_decide (method = "GET") then
      match decodeURIComponent esc with
      | None => (s, Some (errorReply 400 CodeBadRequest None false))
      | Some id => (s, Some (handleStatus id s))
      end
    else (s, Some (errorReply 404 CodeBadRequest None false))
  | None => (s, Some (errorReply 404 CodeBadRequest None false))
  end.

(** One HTTP exchange with the origin [base]. *)
Definition exchange (base : string) (rq : HttpRequest) (s : Sidecar) : Sidecar * HttpOutcome :=
  let '(env, s) := next_env s in
  match en_http env, strip_prefix base (rq_URL rq) with
  | LostRequest, _ | _, None => (s, TransportError)
  | lost, Some path =>
    let '(s', reply) := serve env (rq_Method rq) path (rq_Body rq) (rq_Authorization rq) s in
    (s', match lost, reply with
         | NotLost, Some (status, json) => Response status (Some (json_Marshal json))
         | TornReply, Some (status, _) => UnreadableBody status
         | _, _ => TransportError
         end)
  end.
End Service.

(** ** What a handled payment does *)
(** The fields a record's hash covers agree with one intent. *)
Section Facts.
Context (keccak256 : string → string) (hmac_sha256 : string → string → string).
Context (toLower : string → string) (AUTH_TOKEN H2_SECRET base : string).
Abbreviation exchange := (exchange keccak256 hmac_sha256 toLower AUTH_TOKEN H2_SECRET base).
Abbreviation handlePay := (handlePay keccak256 hmac_sha256 toLower H2_SECRET).
Abbreviation hash_of := (computeIntentHash keccak256).

(** A payable body: what every signature requires. *)
Definition authorised (i : WireIntent) (t : ApprovalToken) : Prop :=
  verifyApproval hmac_sha256 H2_SECRET t = true ∧ t_IntentHash t = hash_of i ∧
  t_Decision t = w_Decision i ∧ t_ExpiresAt t = w_ExpiresAt i ∧ t_ApprovedAmount t = w_Amount i ∧
  w_Decision i ∈ [DecisionAutoApprove; DecisionHumanApproved] ∧ isCanonicalAtomic (w_Amount i) = true.
(** A price both equal to the amount and within the ceiling. *)
Definition price_ok (i : WireIntent) (price : Z) : Prop :=
  parse_int (w_Amount i) = Some price ∧ ∃ ceil, parse_int (w_MaxAmount i) = Some ceil ∧ price ≤ ceil.

Lemma assertAccept_none a i :
  assertAcceptMatchesIntent toLower a i = None →
  ch_network a = w_Network i ∧ toLower (ch_payTo a) = toLower (w_Merchant i) ∧
  toLower (ch_asset a) = toLower (w_Asset i) ∧
  ∃ price, ch_amount a = Some price ∧ price_ok i price.
Proof.
  unfold assertAcceptMatchesIntent, price_ok. intros Hc.
  repeat (case_match; [done|]). destruct (ch_amount a) as [p|]; [|done].
  destruct (parse_int (w_Amount i)) as [am|]; [|done].
  destruct (parse_int (w_MaxAmount i)) as [ce|]; [|done].
  destruct (bool_decide (p ≠ am)) eqn:E1; [done|]. destruct (ce <? p) eqn:E2; [done|].
  bool_to_prop. repeat match goal with E : ¬ (_ ≠ _) |- _ => apply dec_stable in E end.
  subst am. split_and!; try done. exists p. split_and!; try done. exists ce. done.
Qed.

Lemma handlePay_cases env body s s' reply :
  handlePay env body s = (s', reply) →
  (s' = s ∧ ((∃ st code pid re, reply = Some (errorReply st code pid re) ∧
                 code ∉ [CodePaymentRejected; CodeFacilitatorError]) ∨
            ∃ p i, isWireIntent (member "intent" body) = Some i ∧ records s !! w_Nonce i = Some p ∧
              pr_intentHash p = hash_of i ∧ reply = Some (payResponse p true) ∧
              pr_state p ∈ [StateDelivered; StateSettled; StateFailed; StateExpired])) ∨
  ∃ i t price, isWireIntent (member "intent" body) = Some i ∧
    isApprovalToken (member "approvalToken" body) = Some t ∧
    records s !! w_Nonce i = None ∧ authorised i t ∧ price_ok i price ∧
    sign_and_record keccak256 env i (hash_of i) price s = (s', reply).
Proof.
  intros Hp. unfold Sidecar.handlePay in Hp.
  assert (Herr : ∀ st code pid re, (s, Some (errorReply st code pid re)) = (s', reply) →
    code ∉ [CodePaymentRejected; CodeFacilitatorError] →
    (s' = s ∧ ((∃ st code pid re, reply = Some (errorReply st code pid re) ∧
                 code ∉ [CodePaymentRejected; CodeFacilitatorError]) ∨
            ∃ p i, isWireIntent (member "intent" body) = Some i ∧ records s !! w_Nonce i = Some p ∧
              pr_intentHash p = hash_of i ∧ reply = Some (payResponse p true) ∧
              pr_state p ∈ [StateDelivered; StateSettled; StateFailed; StateExpired]))).
  { intros st code pid re He Hc. simplify_eq. split; [done|]. left. by eexists _, _, _, _. }
  destruct (isWireIntent _) as [i|] eqn:Ei.
  2: { left. eapply Herr; [exact Hp|by apply (bool_decide_eq_false_1 _)]. }
  destruct (isApprovalToken _) as [t|] eqn:Et.
  2: { left. eapply Herr; [exact Hp|by apply (bool_decide_eq_false_1 _)]. }
  cbn [forallb] in Hp. destruct (isCanonicalAtomic (w_Amount i)) eqn:Ea.
  2: { left. eapply Herr; [exact Hp|by apply (bool_decide_eq_false_1 _)]. }
  destruct (negb _) in Hp.
  { left. eapply Herr; [exact Hp|by apply (bool_decide_eq_false_1 _)]. }
  destruct (records s !! w_Nonce i) as [p|] eqn:Er.
  { left. destruct (bool_decide (pr_intentHash p ≠ _)) eqn:Eh.
    { eapply Herr; [exact Hp|by apply (bool_decide_eq_false_1 _)]. }
    bool_to_prop. apply dec_stable in Eh. destruct (_ || _) eqn:Est in Hp.
    - simplify_eq. split; [done|]. right. exists p, i. split_and!; try done.
      rewrite !elem_of_cons. apply orb_true_iff in Est as [Est|Est]; bool_to_prop; [by left|right].
      by rewrite !elem_of_cons in Est.
    - eapply Herr; [exact Hp|by apply (bool_decide_eq_false_1 _)]. }
  destruct (en_locked env).
  { left. eapply Herr; [exact Hp|by apply (bool_decide_eq_false_1 _)]. }
  destruct (verifyApproval _ _ _) eqn:Ev.
  2: { left. eapply Herr; [exact Hp|by apply (bool_decide_eq_false_1 _)]. }
  cbn [negb] in Hp. destruct (bool_decide (t_IntentHash t ≠ _)) eqn:Eh.
  { left. eapply Herr; [exact Hp|by apply (bool_decide_eq_false_1 _)]. }
  destruct (bool_decide (t_Decision t ≠ _) || _) eqn:Ed.
  { left. eapply Herr; [exact Hp|by apply (bool_decide_eq_false_1 _)]. }
  destruct (bool_decide (t_ApprovedAmount t ≠ _)) eqn:Eam.
  { left. eapply Herr; [exact Hp|by apply (bool_decide_eq_false_1 _)]. }
  destruct (en_elapsed _ _).
  { left. eapply Herr; [exact Hp|by apply (bool_decide_eq_false_1 _)]. }
  destruct (_ && _) eqn:Edec in Hp.
  { left. eapply Herr; [exact Hp|by apply (bool_decide_eq_false_1 _)]. }
  destruct (en_probe env) as [acc| | | |];
    try (left; eapply Herr; [exact Hp|by apply (bool_decide_eq_false_1 _)]).
  destruct (assertAcceptMatchesIntent toLower acc i) as [[code st]|] eqn:Eacc.
  { left. eapply Herr; [exact Hp|]. clear Hp Herr. unfold assertAcceptMatchesIntent in Eacc.
    repeat case_match; simplify_eq; by apply (bool_decide_eq_false_1 _). }
  right. apply assertAccept_none in Eacc as (_ & _ & _ & price & Hprice & Hok).
  rewrite Hprice in Hp. cbn [default] in Hp. exists i, t, price. split_and!; try done.
  unfold authorised. bool_to_prop.
  repeat match goal with E : ¬ (_ ≠ _) |- _ => apply dec_stable in E end. split_and!; try done.
  rewrite !elem_of_cons. destruct Edec; bool_to_prop;
    repeat match goal with E : ¬ (_ ≠ _) |- _ => apply dec_stable in E end; tauto.
Qed.

(** ** The service's invariant *)
Record sinv (s : Sidecar) : Prop := {
  sinv_keyed n p : records s !! n = Some p →
    pr_nonce p = n ∧ pr_paymentId p = computePaymentId keccak256 (pr_intentHash p) n ∧
    pr_state p ∈ [StateSigned; StateDelivered; StateReconciling; StateFailed] ∧
    (pr_state p = StateDelivered → ∃ i, hash_of i = pr_intentHash p ∧ w_Nonce i = n ∧
       isCanonicalAtomic (w_Amount i) = true ∧ pr_amountPaid p = Some (w_Amount i) ∧
       (n, computeAuthNonce keccak256 (pr_intentHash p)) ∈ signed s);
  sinv_signed n a : (n, a) ∈ signed s →
    ∃ p, records s !! n = Some p ∧ a = computeAuthNonce keccak256 (pr_intentHash p);
  sinv_once : NoDup (signed s).*1 }.

Lemma sinv_unused s n : sinv s → records s !! n = None → n ∉ (signed s).*1.
Proof.
  intros Hs Hn Hin. apply list_elem_of_fmap in Hin as ([n' a] & -> & Hin).
  destruct (sinv_signed s Hs n' a Hin) as (p & Hp & _). cbn in Hn. congruence.
Qed.

Lemma canonical_format s z : isCanonicalAtomic s = true → parse_int s = Some z → FormatInt z = s.
Proof.
  intros Hc Hp. rewrite parse_int_canonical in Hp by done.
  pose proof (digits_value_lower _ _ _ (Z.le_refl 0) Hp) as Hz. unfold FormatInt.
  rewrite (proj2 (Z.ltb_ge _ _) Hz). eapply canonical_inj; [by apply FormatUint_canonical|done| |done].
  by apply digits_value_FormatUint.
Qed.

(** Writing a fresh record, with or without a use of the key. *)
Lemma sinv_fresh s n p ks :
  sinv s → records s !! n = None → pr_nonce p = n →
  pr_paymentId p = computePaymentId keccak256 (pr_intentHash p) n →
  pr_state p ∈ [StateSigned; StateDelivered; StateReconciling; StateFailed] →
  ks = [] ∨ ks = [(n, computeAuthNonce keccak256 (pr_intentHash p))] →
  (pr_state p = StateDelivered → ks ≠ [] ∧ ∃ i, hash_of i = pr_intentHash p ∧ w_Nonce i = n ∧
     isCanonicalAtomic (w_Amount i) = true ∧ pr_amountPaid p = Some (w_Amount i)) →
  ∀ es, sinv (MkSidecar (<[ n := p ]> (records s)) (signed s ++ ks) es).
Proof.
  intros Hs Hn Hnp Hid Hst Hks Hd es. constructor; cbn [records signed].
  - intros m q. rewrite lookup_insert_Some. intros [[<- <-]|[Hm Hq]].
    + split_and!; try done. intros Hdel. destruct (Hd Hdel) as [Hne (i & ? & ? & ? & ?)].
      exists i. split_and!; try done. apply elem_of_app. right.
      destruct Hks as [->| ->]; [done|by left].
    + destruct (sinv_keyed s Hs m q Hq) as (? & ? & ? & Hdd). split_and!; try done.
      intros Hdel. destruct (Hdd Hdel) as (i & ? & ? & ? & ? & ?). exists i. split_and!; try done.
      apply elem_of_app. by left.
  - intros m a. rewrite elem_of_app. intros [Hin|Hin].
    + destruct (sinv_signed s Hs m a Hin) as (q & Hq & ->). exists q.
      rewrite lookup_insert_ne; [done|]. intros <-. congruence.
    + destruct Hks as [->| ->]; [by apply elem_of_nil in Hin|].
      apply list_elem_of_singleton in Hin. simplify_eq. exists p. by rewrite lookup_insert_eq.
  - rewrite fmap_app. apply NoDup_app. split_and!; [apply (sinv_once s Hs)| |].
    + intros m Hm Hin. destruct Hks as [->| ->]; [by apply elem_of_nil in Hin|].
      apply list_elem_of_singleton in Hin. cbn in Hin. subst m. by apply (sinv_unused s n Hs Hn).
    + destruct Hks as [->| ->]; cbn; [constructor|apply NoDup_singleton].
Qed.

Lemma sign_and_record_spec env i price s s' reply :
  sinv s → records s !! w_Nonce i = None → isCanonicalAtomic (w_Amount i) = true → price_ok i price →
  sign_and_record keccak256 env i (hash_of i) price s = (s', reply) →
  sinv s' ∧ (∃ p, records s' = <[ w_Nonce i := p ]> (records s) ∧ pr_intentHash p = hash_of i ∧
    ∀ st json, reply = Some (st, json) →
      (st = 200 ∧ ∃ r, pr_state p = StateDelivered ∧ pr_amountPaid p = Some (w_Amount i) ∧
         json = (payResponse p r).2) ∨
      (st ≠ 200 ∧ ∃ code pid re, code ∈ [CodePaymentRejected; CodeFacilitatorError; CodeInternal] ∧
         json = (errorReply st code pid re).2)).
Proof.
  intros Hs Hn Hc [Hpr _] Hsr. apply (canonical_format _ _ Hc) in Hpr.
  unfold sign_and_record, upsert, use_key in Hsr. cbv zeta in Hsr. cbn [records signed envs pr_nonce set_outcome] in Hsr.
  assert (Hfresh : ∀ p ks es, pr_nonce p = w_Nonce i →
    pr_paymentId p = computePaymentId keccak256 (pr_intentHash p) (w_Nonce i) →
    pr_intentHash p = hash_of i →
    pr_state p ∈ [StateSigned; StateDelivered; StateReconciling; StateFailed] →
    ks = [] ∨ ks = [(w_Nonce i, computeAuthNonce keccak256 (hash_of i))] →
    (pr_state p = StateDelivered → ks ≠ [] ∧ pr_amountPaid p = Some (w_Amount i)) →
    sinv (MkSidecar (<[ w_Nonce i := p ]> (records s)) (signed s ++ ks) es)).
  { intros p ks es H1 H2 H3 H4 H5 H6. apply sinv_fresh; try done; [by rewrite H3|].
    intros Hd. destruct (H6 Hd). split; [done|]. exists i. by rewrite H3. }
  destruct (en_submit env) as [payer payee stl amt| | |k|k]; simplify_eq; cbn [records];
    rewrite ?insert_insert_eq.
  - split.
    + apply Hfresh; try done; [set_solver|by right|]. intros _. split; [done|]. cbn. by rewrite Hpr.
    + eexists. split; [reflexivity|]. split; [done|]. intros st json [= <- <-].
      left. split; [done|]. eexists. split_and!; [done|cbn; by rewrite Hpr|reflexivity].
  - split; [apply Hfresh; try done; [set_solver|by right]|].
    eexists. split; [reflexivity|]. split; [done|]. intros st json [= <- <-].
    right. split; [done|]. eexists _, (Some _), _. split; [|reflexivity]. set_solver.
  - split; [apply Hfresh; try done; [set_solver|by right]|].
    eexists. split; [reflexivity|]. split; [done|]. intros st json [= <- <-].
    right. split; [done|]. eexists _, (Some _), _. split; [|reflexivity]. set_solver.
  - split.
    + destruct k; cbn [records signed envs]; rewrite ?insert_insert_eq; [|rewrite <-(app_nil_r (signed s))];
        apply Hfresh; try done; first [set_solver|by right|by left].
    + eexists. split; [by destruct k; cbn; rewrite ?insert_insert_eq|]. split; [done|]. intros st json [= <- <-].
      right. split; [done|]. eexists _, (Some _), _. split; [|reflexivity]. set_solver.
  - split.
    + destruct k; cbn [records signed envs]; rewrite ?insert_insert_eq; [|rewrite <-(app_nil_r (signed s))];
        apply Hfresh; try done; first [set_solver|by right|by left].
    + eexists. split; [by destruct k; cbn; rewrite ?insert_insert_eq|done].
Qed.

Lemma exchange_cases rq s s' out :
  exchange rq s = (s', out) →
  (records s' = records s ∧ signed s' = signed s ∧
     ∀ body, rq_Method rq = "POST" → rq_URL rq = base +:+ "/v1/pay" → rq_Body rq = Some body →
     rq_Authorization rq = Some ("Bearer " +:+ AUTH_TOKEN) →
     match out with
     | Response st raw =>
       (∃ code pid re, (code ∉ [CodePaymentRejected; CodeFacilitatorError]) ∧
          raw = Some (json_Marshal (errorReply st code pid re).2)) ∨
       (∃ p i, isWireIntent (member "intent" body) = Some i ∧ records s !! w_Nonce i = Some p ∧
              pr_intentHash p = hash_of i ∧ st = 200 ∧ raw = Some (json_Marshal (payResponse p true).2) ∧
              pr_state p ∈ [StateDelivered; StateSettled; StateFailed; StateExpired])
     | _ => True
     end) ∨
  ∃ env i t price reply es body, rq_Method rq = "POST" ∧ rq_Body rq = Some body ∧
    isWireIntent (member "intent" body) = Some i ∧ isApprovalToken (member "approvalToken" body) = Some t ∧
    records s !! w_Nonce i = None ∧ authorised i t ∧ price_ok i price ∧
    sign_and_record keccak256 env i (hash_of i) price (MkSidecar (records s) (signed s) es) = (s', reply) ∧
    match out with
    | Response st raw => ∃ json, reply = Some (st, json) ∧ raw = Some (json_Marshal json)
    | _ => True
    end.
Proof.
  unfold Sidecar.exchange, next_env. intros Hx.
  set (env := match envs s with e :: _ => e | [] => idleEnv end).
  set (s1 := MkSidecar (records s) (signed s) (tail (envs s))).
  assert (Hs1 : (let '(e, s0) := match envs s with
            | [] => (idleEnv, s)
            | e :: es => (e, MkSidecar (records s) (signed s) es) end in (e, s0)) = (env, s1)).
  { subst env s1. destruct s as [? ? []]; done. }
  destruct (match envs s with [] => _ | _ :: _ => _ end) as [e0 s0]. simplify_eq.
  destruct (strip_prefix base (rq_URL rq)) as [path|] eqn:Epath.
  2: { destruct (en_http env); simplify_eq; left; split_and!; try done. }
  assert (Hlost : en_http env = LostRequest ∨ en_http env ≠ LostRequest)
    by (destruct (en_http env); [right|left|right|right]; done).
  destruct Hlost as [E|E].
  { rewrite E in Hx. simplify_eq. left. split_and!; done. }
  destruct (serve _ _ _ _ _ _ _ _ _ _ _) as [s2 reply] eqn:Es.
  assert (Hout : s' = s2 ∧ (match out with
      | Response st raw => ∃ json, reply = Some (st, json) ∧ raw = Some (json_Marshal json)
      | _ => True
      end)).
  { destruct (en_http env); [|done|..]; destruct reply as [[st json]|]; simplify_eq; eauto. }
  clear Hx. destruct Hout as [-> Hout]. unfold serve in Es.
  destruct (bool_decide (rq_Authorization rq ≠ _)) eqn:Eauth.
  { simplify_eq. left. split_and!; try done. intros body _ _ _ Ha. by bool_to_prop. }
  destruct (bool_decide (rq_Method rq = "POST") && bool_decide (path = "/v1/pay")) eqn:Epay.
  - bool_to_prop. subst path.
    apply handlePay_cases in Es as [[-> Hrep]|(i & t & price & Hi & Ht & Hn & Ha & Hp & Hsr)].
    + left. split_and!; try done. intros body _ _ Hb _. rewrite Hb in Hrep. cbn [default] in Hrep.
      destruct out as [|?|st raw]; try done. destruct Hout as (json & Hr & ->).
      destruct Hrep as [(st' & code & pid & re & Hr' & Hc)|(p & i & Hi & Hrec & Hh & Hr' & Hst)].
      * left. rewrite Hr in Hr'. injection Hr' as -> ->. by eexists _, _, _.
      * right. rewrite Hr in Hr'. injection Hr' as -> ->. by exists p, i.
    + right. destruct (rq_Body rq) as [body|] eqn:Eb; [|by vm_compute in Hi].
      exists env, i, t, price, reply, (tail (envs s)), body. split_and!; done.
  - assert (Hs2 : s2 = s1).
    { destruct (strip_prefix "/v1/status/" path); [|by simplify_eq].
      destruct (bool_decide (rq_Method rq = "GET")); [|by simplify_eq].
      destruct (decodeURIComponent _); by simplify_eq. }
    subst s2. left. split_and!; try done. intros body Hm Hu. exfalso.
    rewrite Hu in Epath. rewrite bool_decide_true in Epay by done. cbn [andb] in Epay. bool_to_prop.
    apply Epay. clear -Epath. revert Epath. induction base as [|c b IH]; [by intros [= <-]|].
    rewrite sapp_cons. cbn [strip_prefix]. rewrite bool_decide_true by done. exact IH.
Qed.

(** ** Reading the replies back *)
Lemma digits_ascii s : sall isDigit s = true → sall acc1 s = true.
Proof.
  induction s as [|c r IH]; [done|]. cbn. rewrite !andb_true_iff. intros [Hc Hr]. split; [|by apply IH].
  by apply digit_not_space in Hc as [? _].
Qed.

Lemma envelope_roundtrip st code pid re :
  sall acc1 code = true →
  envelope_of_json (json_Marshal (errorReply st code pid re).2) = Some (code, re).
Proof. intros Hc. rewrite <-(utf8_clean_ascii code Hc) at 2. by destruct pid. Qed.

Lemma pay_response_roundtrip p replay :
  ∃ res, pay_result_of_json (json_Marshal (payResponse p replay).2) = Some res ∧
    p_State res = utf8_clean (pr_state p) ∧
    p_AmountPaid res = utf8_clean (default "" (pr_amountPaid p)) ∧
    p_IntentHash res = utf8_clean (pr_intentHash p).
Proof.
  destruct p as [? ? ? ? ? [paid|] [[]|] ?]; eexists; split; reflexivity || (split; [|split]; reflexivity).
Qed.

(** The intent the service reads out of a body the client marshalled. *)
Definition received (i : WireIntent) : WireIntent :=
  MkWireIntent (utf8_clean (w_IntentID i)) (utf8_clean (w_JobID i)) (utf8_clean (w_TaskID i))
    (utf8_clean (w_AgentID i)) (utf8_clean (w_Resource i)) (utf8_clean (w_Network i))
    (utf8_clean (w_Asset i)) (utf8_clean (w_Merchant i)) (utf8_clean (w_Amount i))
    (utf8_clean (w_MaxAmount i)) (utf8_clean (w_Purpose i)) (utf8_clean (w_Nonce i))
    (utf8_clean (w_Decision i)) (utf8_clean (w_PolicyVersion i)) (utf8_clean (w_CreatedAt i))
    (utf8_clean (w_ExpiresAt i)).
Lemma received_body i t :
  isWireIntent (member "intent" (json_Marshal (pay_body i t))) = Some (received i).
Proof. reflexivity. Qed.

Definition sstep (s s' : Sidecar) : Prop := ∃ rq out, exchange rq s = (s', out).
Definition fresh (s : Sidecar) : Prop := records s = ∅ ∧ signed s = [].

Lemma sinv_step s s' : sinv s → sstep s s' → sinv s'.
Proof.
  intros Hs (rq & out & Hx). apply exchange_cases in Hx as [(Hr & Hg & _)|
    (env & i & t & price & reply & es & body & _ & _ & _ & _ & Hn & Ha & Hp & Hsr & _)].
  - destruct Hs. by constructor; rewrite ?Hr, ?Hg.
  - eapply (sign_and_record_spec _ _ _ (MkSidecar (records s) (signed s) es)); [|done|apply Ha|done|exact Hsr].
    by destruct Hs.
Qed.
Lemma sinv_reachable s0 s : fresh s0 → rtc sstep s0 s → sinv s.
Proof.
  intros [Hr Hg] Hst. assert (H0 : sinv s0).
  { constructor; rewrite ?Hr, ?Hg; [done| |constructor]. intros ? ? Hin. by apply elem_of_nil in Hin. }
  clear Hr Hg. induction Hst; eauto using sinv_step.
Qed.


(** Against this sidecar, a payment call whose error reads as provably unsigned
    left the service as it was: no record, no use of the key.  A call that
    reports a committed state has a durable record and a signature for the sent
    intent, and reports the amount of an intent with that hash. *)
Lemma Pay_sound urlParse c i t s s' r :
  sinv s → c_baseURL c = base → c_token c = AUTH_TOKEN →
  Pay exchange urlParse c i t s = (s', r) →
  (∀ e, r = Err e → provably_unsigned e = true → records s' = records s ∧ signed s' = signed s) ∧
  (∀ res, r = Ok res → Committed (p_State res) = true →
     ∃ p j, records s' !! utf8_clean (w_Nonce i) = Some p ∧ pr_intentHash p = hash_of (received i) ∧
       (pr_nonce p, AuthNonce keccak256 (pr_intentHash p)) ∈ signed s' ∧
       hash_of j = hash_of (received i) ∧ p_AmountPaid res = w_Amount j).
Proof.
  intros Hs Hbase Htok HP. apply Pay_cases in HP as [(-> & e & -> & _)|(_ & out & Hx & ->)].
  { split; [done|]. by intros ? [=]. }
  pose proof (sinv_step s s' Hs (ex_intro _ _ (ex_intro _ _ Hx))) as Hs'.
  apply exchange_cases in Hx as [(Hr & Hg & Hout)|
    (env & i' & t' & price & reply & es & body & _ & [= <-] & Hi & _ & Hn & Ha & Hp & Hsr & Hout)].
  - split; [done|]. specialize (Hout (json_Marshal (pay_body i t)) eq_refl).
    cbn [rq_URL rq_Body rq_Authorization] in Hout.
    rewrite Hbase, Htok in Hout. specialize (Hout eq_refl eq_refl eq_refl).
    intros res Hres Hcm. destruct out as [|?|st raw]; try done. cbn [outcome_of] in Hres.
    destruct Hout as [(code & pid & re & _ & ->)|(p & i' & Hi & Hrec & Hh & -> & -> & Hst)].
    + exfalso. destruct (st =? 200); [|done]. cbn in Hres. destruct pid; cbn in Hres; by case_bool_decide.
    + rewrite received_body in Hi. injection Hi as <-. cbn [Z.eqb Pos.eqb mbind option_bind] in Hres.
      destruct (pay_response_roundtrip p true) as (res' & Hd & Hps & Hpa & _).
      change (Some (json_Marshal (payResponse p true).2) ≫= pay_result_of_json)
        with (pay_result_of_json (json_Marshal (payResponse p true).2)) in Hres.
      rewrite Hd in Hres. destruct (bool_decide (p_State res' = "")); [done|]. injection Hres as <-.
      destruct (sinv_keyed s Hs _ p Hrec) as (Hnp & _ & Hstates & Hdel).
      rewrite utf8_clean_ascii in Hps
        by (rewrite !elem_of_cons, elem_of_nil in Hstates; destruct_or! Hstates; try done; by rewrite Hstates).
      assert (Hd' : pr_state p = StateDelivered).
      { rewrite Hps in Hcm. rewrite !elem_of_cons, elem_of_nil in Hstates.
        destruct_or! Hstates; rewrite ?Hstates in Hcm |- *; done. }
      destruct (Hdel Hd') as (j & Hj & _ & Hcan & Hpaid & Hsig).
      exists p, j. rewrite Hr, Hg. split_and!; [done|done|by rewrite Hnp|congruence|].
      rewrite Hpa, Hpaid. apply utf8_clean_ascii, digits_ascii. by apply canonical_head.
  - change (isWireIntent (member "intent" (json_Marshal (pay_body i t))) = Some i') in Hi.
    rewrite received_body in Hi. injection Hi as <-.
    destruct (sign_and_record_spec env (received i) price (MkSidecar (records s) (signed s) es) s' reply) as
      (_ & p & Hrec & Hh & Hrep); [by destruct Hs|done|apply Ha|done|done|]. cbn [records] in Hrec.
    destruct out as [|?|st raw]; [by split; [intros ? [= <-]|intros ? [=]]..|].
    destruct Hout as (json & -> & ->). cbn [outcome_of].
    destruct (Hrep st json eq_refl) as [(-> & rp & Hst & Hpaid & ->)|(Hne & code & pid & re & Hc & ->)].
    + cbn [Z.eqb Pos.eqb].
      destruct (pay_response_roundtrip p rp) as (res' & Hd & Hps & Hpa & _).
      change (Some (json_Marshal (payResponse p rp).2) ≫= pay_result_of_json)
        with (pay_result_of_json (json_Marshal (payResponse p rp).2)).
      rewrite Hd. destruct (bool_decide (p_State res' = "")); [by split; [intros ? [= <-]|intros ? [=]]|].
      split; [done|]. intros res [= <-] _. exists p, (received i).
      assert (Hl : records s' !! utf8_clean (w_Nonce i) = Some p) by (rewrite Hrec; apply lookup_insert_eq).
      destruct (sinv_keyed s' Hs' _ p Hl) as (Hnp & _ & _ & Hdel).
      destruct (Hdel Hst) as (_ & _ & _ & _ & _ & Hsig).
      split_and!; [done|done|by rewrite Hnp|done|]. rewrite Hpa, Hpaid.
      apply utf8_clean_ascii, digits_ascii, canonical_head. apply Ha.
    + rewrite (proj2 (Z.eqb_neq _ _) Hne). split; [|by intros ? [=]]. intros e [= <-] Hpu. exfalso.
      apply unsigned_envelope in Hpu as (code' & re' & He & Hno).
      assert (Hcode : sall acc1 code = true).
      { rewrite !elem_of_cons, elem_of_nil in Hc. destruct Hc as [-> |[-> |[-> |[]]]]; done. }
      apply (envelope_roundtrip st _ pid re) in Hcode.
      pose proof (eq_trans (eq_sym He) Hcode) as Heq. injection Heq as -> ->. rewrite !not_elem_of_cons in Hno. rewrite !elem_of_cons, elem_of_nil in Hc. tauto.
Qed.

(** ** Status *)
Lemma hex_value_upper d : 0 ≤ d < 16 → hex_value (upper_hexdigit d) = Some d.
Proof.
  intros Hd. assert (Hc : d = 0 ∨ d = 1 ∨ d = 2 ∨ d = 3 ∨ d = 4 ∨ d = 5 ∨ d = 6 ∨ d = 7 ∨ d = 8 ∨
    d = 9 ∨ d = 10 ∨ d = 11 ∨ d = 12 ∨ d = 13 ∨ d = 14 ∨ d = 15) by lia.
  clear Hd. destruct_or! Hc; subst d; reflexivity.
Qed.
Lemma percent_roundtrip s : percent_decode (PathEscape s) = Some s.
Proof.
  induction s as [|c r IH]; [done|]. cbn [PathEscape]. destruct (path_safe c) eqn:E.
  - cbn [percent_decode]. rewrite IH. destruct (bool_decide (c = "%"%char)) eqn:Ec; [|done].
    bool_to_prop. subst c. by vm_compute in E.
  - cbn [percent_decode]. rewrite bool_decide_true by done. pose proof (byteZ_range c).
    rewrite !hex_value_upper by (Z.div_mod_to_equations; lia). cbn [mbind option_bind]. rewrite IH.
    cbn [mbind option_bind]. do 2 f_equal. apply byteZ_inj. rewrite byteZ_chrZ; Z.div_mod_to_equations; lia.
Qed.

Lemma getById_none id m n p : getById id m = None → m !! n = Some p → pr_paymentId p ≠ id.
Proof.
  unfold getById. intros Hg Hp Hid.
  assert (Hin : p ∈ filter (λ p, pr_paymentId p = id) (snd <$> map_to_list m)).
  { apply list_elem_of_filter. split; [done|]. apply list_elem_of_fmap. exists (n, p). split; [done|].
    by apply elem_of_map_to_list. }
  destruct (filter _ _); [by apply elem_of_nil in Hin|done].
Qed.

Lemma status_exchange id s s' out :
  valid_utf8 id = true →
  exchange (MkHttpRequest "GET" (base +:+ "/v1/status/" +:+ PathEscape id) None
              (Some ("Bearer " +:+ AUTH_TOKEN))) s = (s', out) →
  records s' = records s ∧ signed s' = signed s ∧
  match out with
  | Response st raw => st = (handleStatus id s').1 ∧ raw = Some (json_Marshal (handleStatus id s').2)
  | _ => True
  end.
Proof.
  intros Hv Hx. unfold Sidecar.exchange in Hx.
  assert (Hn : ∃ env s1, next_env s = (env, s1) ∧ records s1 = records s ∧ signed s1 = signed s).
  { unfold next_env. destruct (envs s); eauto. }
  destruct Hn as (env & s1 & Hn & Hr & Hg). rewrite Hn in Hx. cbn [rq_URL rq_Method rq_Body rq_Authorization] in Hx.
  rewrite strip_prefix_app in Hx.
  assert (Hserve : serve keccak256 hmac_sha256 toLower AUTH_TOKEN H2_SECRET env "GET"
     ("/v1/status/" +:+ PathEscape id) None (Some ("Bearer " +:+ AUTH_TOKEN)) s1 =
     (s1, Some (handleStatus id s1))).
  { unfold serve. rewrite bool_decide_false by (by intros ?). cbn [andb].
    rewrite (bool_decide_false ("GET" = "POST")) by done. cbn [andb].
    rewrite strip_prefix_app. rewrite bool_decide_true by done. unfold decodeURIComponent.
    rewrite percent_roundtrip. cbn [mbind option_bind]. by rewrite Hv. }
  rewrite Hserve in Hx. destruct (handleStatus id s1) as [st json] eqn:Eh.
  destruct (en_http env); simplify_eq; rewrite ?Eh; split_and!; done.
Qed.

(** PAYMENT_NOT_FOUND is a proof that nothing was signed.  If the status
    poll on the precomputed id answers it, the service has no record with that
    id, and the key was never used for that hash under that nonce. *)
Lemma not_found_means_unsigned urlParse c hash nonce s s' e :
  sinv s → c_baseURL c = base → c_token c = AUTH_TOKEN → c_cfgErr c = None →
  valid_utf8 (PaymentID keccak256 hash nonce) = true →
  Status exchange urlParse c (PaymentID keccak256 hash nonce) s = (s', Err (H3Err e)) →
  he_Code e = CodePaymentNotFound →
  (∀ n p, records s' !! n = Some p → pr_paymentId p ≠ PaymentID keccak256 hash nonce) ∧
  (∀ p, records s' !! nonce = Some p → pr_intentHash p ≠ hash) ∧
  ((nonce, AuthNonce keccak256 hash) ∈ signed s' →
     ∃ p, records s' !! nonce = Some p ∧ pr_intentHash p ≠ hash ∧
          AuthNonce keccak256 (pr_intentHash p) = AuthNonce keccak256 hash).
Proof.
  intros Hs Hb Ht Hcfg Hv HS Hcode. apply Status_cases in HS as [(-> & e' & [= <-] & Hc)|(out & Hx & Hout)].
  { exfalso. specialize (Hc Hcfg). rewrite !elem_of_cons, elem_of_nil, Hcode in Hc.
    by destruct Hc as [?|[?|[]]]. }
  pose proof (sinv_step s s' Hs (ex_intro _ _ (ex_intro _ _ Hx))) as Hs'.
  rewrite Hb, Ht in Hx. apply status_exchange in Hx as (_ & _ & Ho); [|done].
  assert (Hnone : getById (PaymentID keccak256 hash nonce) (records s') = None).
  { destruct out as [|?|st raw]; try done. destruct Ho as [-> ->]. unfold handleStatus in Hout.
    destruct (getById _ _) as [p|]; [|done]. cbn [statusResponse fst outcome_of Z.eqb Pos.eqb] in Hout.
    exfalso. destruct (_ ≫= _); [case_bool_decide|]; done. }
  assert (Hids : ∀ n p, records s' !! n = Some p → pr_paymentId p ≠ PaymentID keccak256 hash nonce)
    by (intros n p; by apply getById_none).
  assert (Hh : ∀ p, records s' !! nonce = Some p → pr_intentHash p ≠ hash).
  { intros p Hp Hph. apply (Hids _ _ Hp). destruct (sinv_keyed s' Hs' _ _ Hp) as (_ & -> & _).
    by rewrite Hph. }
  split_and!; [done|done|]. intros Hin. destruct (sinv_signed s' Hs' _ _ Hin) as (p & Hp & Ha).
  exists p. split_and!; [done|by apply Hh|done].
Qed.

(** FAILED does not mean unsigned.  When the seller takes the signed
    header and answers with a document that has no receipt, the exception is no
    [PaymentFailed]: the record ends FAILED, a state that the daemon counts as
    neither committed nor unresolved, while the key was used. *)
Lemma failed_record_after_signature env i price s s' reply :
  en_submit env = SubmitThrew true →
  sign_and_record keccak256 env i (hash_of i) price s = (s', reply) →
  (∃ p, records s' !! w_Nonce i = Some p ∧ pr_state p = StateFailed ∧
     Committed (pr_state p) = false ∧ Unresolved (pr_state p) = false) ∧
  (w_Nonce i, AuthNonce keccak256 (hash_of i)) ∈ signed s'.
Proof.
  intros He Hsr. unfold sign_and_record in Hsr. rewrite He in Hsr. cbv zeta in Hsr. simplify_eq.
  unfold upsert, use_key. cbn [records signed set_outcome pr_nonce]. split.
  - eexists. rewrite lookup_insert_eq. split_and!; [done|reflexivity..].
  - apply elem_of_app. right. by left.
Qed.
End Facts.
