(* ===== verification/Funding.v ===== *)
(** [internal/funding]: the money boundary.

    [Agent] is the funding agent; the remote side a lane moves is a state [S].
    [Payer] is the interface of the same name, which [client_payer] implements
    with the [H3] client; [Submitter] is a chain lane.  [ExecutePayment] returns
    its outcome next to its error, as the source does.  Each call is one step
    (the agent's mutex makes the replay check and its record atomic). *)
From Stdlib Require Import Ascii String.
From S2P Require Import Prelude GoStr GoTime GoJson Intent Store H3 Sidecar Approval.
#[local] Open Scope Z_scope.
#[local] Open Scope snap_scope.

(** ** [internal/chain/bindings.go], as far as the two lanes use it *)
Section Bindings.
Context (selector : string → string).
Definition JobID32 (hexID : string) : option string :=
  let h := TrimSpace hexID in
  let h := default h (strip_prefix "0x" h) in
  if bool_decide (String.length h ≠ 64%nat) then None else hex_DecodeString h.
Definition pack (sig : string) (words : list string) : string :=
  foldl String.append (selector sig) words.
Definition CalldataRequestAdvance (id : string) : string := pack "requestAdvance(bytes32)" [id].
Definition CalldataAcceptDelivery (id : string) : string := pack "acceptDelivery(bytes32)" [id].
End Bindings.

(** ** The agent *)
Record Instruction := MkInstruction {
  in_JobID : string; in_Kind : string; in_AmountMicros : Z; in_Merchant : string;
  in_RequestID : string; in_ApprovedAt : time }.
Record ChainOutcome := MkChainOutcome {
  co_Submitted : bool; co_TxHash : string; co_Block : Z; co_GasUsed : Z; co_Reverted : bool }.
Definition unsubmitted : ChainOutcome := MkChainOutcome false "" 0 0 false.

Inductive FErr :=
| FEmptyGrant
| FReplay
| FChainRef
| FSubmit
| FH3 (e : GoErr)
| FUnreadableAmount.
(** [errors.As] to [*h3.Error]. *)
Definition as_h3 (e : FErr) : option Error := match e with FH3 (H3Err e) => Some e | _ => None end.
(** The release rule's reading of a funding error. *)
Definition releasable (e : FErr) : bool :=
  match as_h3 e with Some e => PreSign e | None => false end.

Definition Submitter (S : Type) : Type := string → M S unit ChainOutcome.
Record Payer (S : Type) := MkPayer {
  payer_Quote : string → Z → M S GoErr Quote;
  payer_Pay : WireIntent → ApprovalToken → M S GoErr PayResult;
  payer_Status : string → M S GoErr StatusResult }.
Arguments MkPayer {S}. Arguments payer_Quote {S}. Arguments payer_Pay {S}. Arguments payer_Status {S}.
Definition client_payer {S} (wire : HttpRequest → S → S * HttpOutcome)
    (urlParse : string → option (string * string)) (c : Client) : Payer S :=
  MkPayer (Client_Quote wire urlParse c) (Pay wire urlParse c) (Status wire urlParse c).

Record Agent (S : Type) := MkAgent {
  executed : list Instruction;
  seen : gset string;
  advanceLane : option (Submitter S);
  settleLane : option (Submitter S);
  payer : option (Payer S);
  approvalSecret : string;
  chainID : Z }.
Arguments MkAgent {S}. Arguments executed {S}. Arguments seen {S}. Arguments advanceLane {S}.
Arguments settleLane {S}. Arguments payer {S}. Arguments approvalSecret {S}. Arguments chainID {S}.
Record Fund (S : Type) := MkFund { agent : Agent S; remote : S }.
Arguments MkFund {S}. Arguments agent {S}. Arguments remote {S}.

Record PaymentOutcome := MkPaymentOutcome {
  po_Submitted : bool; po_PaymentID : string; po_State : string; po_PaidMicros : Z;
  po_ReceiptHash : string; po_AuthNonce : string; po_Payee : string; po_PayeeDiverged : bool;
  po_Code : string; po_PreSign : bool; po_Retriable : bool }.
Definition noPayment : PaymentOutcome := MkPaymentOutcome false "" "" 0 "" "" "" false "" false false.

Definition wireDecision : string := DecisionAutoApprove.
Definition wireApprover : string := "policy-engine".

Section Funding.
Context {S : Type}.
Context (keccak256 : string → string) (hmac_sha256 : string → string → string).
Context (EqualFold : string → string → bool) (selector : string → string).
Abbreviation Fund := (Fund S).
Abbreviation Agent := (Agent S).

Definition with_agent (a : Agent) (f : Fund) : Fund := MkFund a (remote f).
Definition with_remote (s : S) (f : Fund) : Fund := MkFund (agent f) s.
Definition New_agent : Agent := MkAgent [] ∅ None None None "" 0.
Definition SetChain (treasuryAdvance customerSettle : option (Submitter S)) (a : Agent) : Agent :=
  MkAgent (executed a) (seen a) treasuryAdvance customerSettle (payer a) (approvalSecret a) (chainID a).
Definition SetPayer (p : option (Payer S)) (secret : string) (id : Z) (a : Agent) : Agent :=
  MkAgent (executed a) (seen a) (advanceLane a) (settleLane a) p secret id.

(** [Agent.Execute]. *)
Definition instruction_of (g : Grant) : Instruction :=
  let in_ := g_intent g in
  let kind := if bool_decide (i_Kind in_ ≠ "") && bool_decide (i_Kind in_ ≠ "payment")
              then "request_" +:+ i_Kind in_ else "pay_intent" in
  MkInstruction (i_JobID in_) kind (i_AmountMicros in_) (i_Merchant in_) (g_requestID g) (g_grantedAt g).
Definition Fund_Execute (g : Grant) : M Fund FErr unit := λ f,
  if Empty g then (f, Err FEmptyGrant)
  else if bool_decide (g_requestID g ∈ seen (agent f)) then (f, Err FReplay)
  else
    let a := agent f in
    (with_agent (MkAgent (executed a ++ [instruction_of g]) ({[ g_requestID g ]} ∪ seen a)
       (advanceLane a) (settleLane a) (payer a) (approvalSecret a) (chainID a)) f, Ok tt).

(** A lane's submission. *)
Definition submitM (lane : Submitter S) (calldata : string) : M Fund FErr ChainOutcome := λ f,
  let '(s, r) := lane calldata (remote f) in
  (with_remote s f, match r with Ok o => Ok o | Err _ => Err FSubmit end).

Definition ExecuteAdvance (g : Grant) : M Fund FErr ChainOutcome :=
  Fund_Execute g ;;;
  f <-- getM ;;
  match advanceLane (agent f) with
  | None => retM unsubmitted
  | Some lane =>
    if bool_decide (i_ChainRef (g_intent g) = "") then retM unsubmitted else
    match JobID32 (i_ChainRef (g_intent g)) with
    | None => failM FChainRef
    | Some id => submitM lane (CalldataRequestAdvance selector id)
    end
  end.

Definition SettleOnChain (vaultJobID : string) : M Fund FErr ChainOutcome :=
  f <-- getM ;;
  match settleLane (agent f) with
  | None => retM unsubmitted
  | Some lane =>
    if bool_decide (vaultJobID = "") then retM unsubmitted else
    match JobID32 vaultJobID with
    | None => failM FChainRef
    | Some id => submitM lane (CalldataAcceptDelivery selector id)
    end
  end.

Definition Fund_Quote (resource : string) : M Fund FErr Quote := λ f,
  match payer (agent f) with
  | None => (f, Ok zeroQuote)
  | Some lane =>
    if chainID (agent f) <=? 0 then (f, Err (FH3 (H3Err (refuse CodeBadRequest)))) else
    let '(s, r) := payer_Quote lane resource (chainID (agent f)) (remote f) in
    (with_remote s f, match r with Ok q => Ok q | Err e => Err (FH3 e) end)
  end.

(** ** The pay body, from the grant alone *)
Definition payableFromGrant (g : Grant) (secret : string) : result Error (WireIntent * ApprovalToken) :=
  let in_ := g_intent g in
  if bool_decide (i_Kind in_ ≠ "") && bool_decide (i_Kind in_ ≠ "payment")
  then Err (refuse CodeBadRequest)
  else if i_AmountMicros in_ <=? 0 then Err (refuse CodeBadRequest)
  else if bool_decide (i_MaxAmountMicros in_ ≠ i_AmountMicros in_) then Err (refuse CodeBadRequest)
  else match FormatAtomicMicros (i_AmountMicros in_), FormatAtomicMicros (i_MaxAmountMicros in_) with
  | Ok amount, Ok maxAmount =>
    if existsb blank [i_PayTo in_; i_ResourceURL in_; i_Asset in_; i_Network in_]
    then Err (refuse CodeBadRequest)
    else
      let expiresAt := RFC3339 (i_ExpiresAt in_) in
      let intentHash := WireHash keccak256 in_ in
      let wire := MkWireIntent (i_IntentID in_) (i_JobID in_) (i_TaskID in_) (i_AgentID in_)
        (i_ResourceURL in_) (i_Network in_) (i_Asset in_) (i_PayTo in_) amount maxAmount
        (i_Purpose in_) (i_Nonce in_) wireDecision (i_PolicyVersion in_)
        (RFC3339 (g_grantedAt g)) expiresAt in
      let tok := MkApprovalToken intentHash wireDecision amount wireApprover (i_PolicyVersion in_)
        (RFC3339 (g_grantedAt g)) expiresAt "" in
      Ok (wire, SignApproval hmac_sha256 secret tok)
  | _, _ => Err (refuse CodeBadRequest)
  end.

Definition ExecutePayment (g : Grant) (f : Fund) : Fund * (PaymentOutcome * option FErr) :=
  match Fund_Execute g f with
  | (f, Err e) => (f, (noPayment, Some e))
  | (f, Ok _) =>
    match payer (agent f) with
    | None => (f, (noPayment, None))
    | Some lane =>
      if bool_decide (approvalSecret (agent f) = "")
      then (f, (noPayment, Some (FH3 (H3Err (refuse CodeApprovalTokenInvalid)))))
      else match payableFromGrant g (approvalSecret (agent f)) with
      | Err bad => (f, (noPayment, Some (FH3 (H3Err bad))))
      | Ok (wire, tok) =>
        let paymentID := PaymentID keccak256 (t_IntentHash tok) (w_Nonce wire) in
        let authNonce := AuthNonce keccak256 (t_IntentHash tok) in
        let out state paid payee div code pre retriable :=
          MkPaymentOutcome true paymentID state paid authNonce authNonce payee div code pre retriable in
        let '(s, r) := payer_Pay lane wire tok (remote f) in
        let f := with_remote s f in
        match r with
        | Err (H3Err he) =>
          (f, (out "" 0 "" false (he_Code he) (PreSign he) (he_Retriable he), Some (FH3 (H3Err he))))
        | Err Plain => (f, (out "" 0 "" false "" false false, Some (FH3 Plain)))
        | Ok res =>
          let payee := match p_Receipt res with Some rc => rc_Payee rc | None => "" end in
          let div := match p_Receipt res with
                     | Some rc => negb (EqualFold (TrimSpace (rc_Payee rc)) (TrimSpace (w_Merchant wire)))
                     | None => false
                     end in
          if Committed (p_State res) then
            match ParseAtomicMicros (p_AmountPaid res) with
            | Ok micros => (f, (out (p_State res) micros payee div "" false false, None))
            | Err _ => (f, (out (p_State res) 0 payee div "" false false, Some FUnreadableAmount))
            end
          else (f, (out (p_State res) 0 payee div "" false false, None))
        end
      end
    end
  end.
End Funding.

(** ** The pay body *)
Section Facts.
Context {S : Type}.
Context (keccak256 : string → string) (hmac_sha256 : string → string → string).
Context (EqualFold : string → string → bool) (selector : string → string).
Abbreviation Fund := (Fund S).
Abbreviation payableFromGrant := (payableFromGrant keccak256 hmac_sha256).
Abbreviation ExecutePayment := (ExecutePayment (S := S) keccak256 hmac_sha256 EqualFold).

(** What a grant must be for the door to open. *)
Definition payable (in_ : Intent) : Prop :=
  (i_Kind in_ = "" ∨ i_Kind in_ = "payment") ∧ 0 < i_AmountMicros in_ ∧
  i_MaxAmountMicros in_ = i_AmountMicros in_ ∧
  Forall (λ s, blank s = false) [i_PayTo in_; i_ResourceURL in_; i_Asset in_; i_Network in_].
Definition wire_of (g : Grant) : WireIntent :=
  let in_ := g_intent g in
  MkWireIntent (i_IntentID in_) (i_JobID in_) (i_TaskID in_) (i_AgentID in_)
    (i_ResourceURL in_) (i_Network in_) (i_Asset in_) (i_PayTo in_) (FormatInt (i_AmountMicros in_))
    (FormatInt (i_AmountMicros in_)) (i_Purpose in_) (i_Nonce in_) wireDecision (i_PolicyVersion in_)
    (RFC3339 (g_grantedAt g)) (RFC3339 (i_ExpiresAt in_)).
Definition token_of (g : Grant) (secret : string) : ApprovalToken :=
  let in_ := g_intent g in
  SignApproval hmac_sha256 secret
    (MkApprovalToken (WireHash keccak256 in_) wireDecision (FormatInt (i_AmountMicros in_))
       wireApprover (i_PolicyVersion in_) (RFC3339 (g_grantedAt g)) (RFC3339 (i_ExpiresAt in_)) "").

Lemma payableFromGrant_cases g secret :
  (payable (g_intent g) ∧ payableFromGrant g secret = Ok (wire_of g, token_of g secret)) ∨
  (¬ payable (g_intent g) ∧ payableFromGrant g secret = Err (refuse CodeBadRequest)).
Proof.
  clear EqualFold selector.
  unfold Funding.payableFromGrant, payable. destruct g as [in_ id at_]. cbn [g_intent]. cbv zeta.
  destruct (bool_decide (i_Kind in_ ≠ "") && bool_decide (i_Kind in_ ≠ "payment")) eqn:E1.
  { right. split; [|done]. bool_to_prop. tauto. }
  destruct (i_AmountMicros in_ <=? 0) eqn:E2; [right; split; [|done]; bool_to_prop; lia|].
  destruct (bool_decide (i_MaxAmountMicros in_ ≠ i_AmountMicros in_)) eqn:E3.
  { right. split; [|done]. bool_to_prop. tauto. }
  bool_to_prop. apply dec_stable in E3. rewrite E3. unfold FormatAtomicMicros.
  rewrite (proj2 (Z.ltb_ge (i_AmountMicros in_) 0)) by lia.
  destruct (existsb blank _) eqn:E4.
  - right. split; [|done]. intros (_ & _ & _ & Hb). rewrite !Forall_cons in Hb.
    destruct Hb as (H1 & H2 & H3 & H4 & _). cbn [existsb] in E4. by rewrite H1, H2, H3, H4 in E4.
  - left. split; [|done]. cbn [existsb] in E4. rewrite !orb_false_iff in E4.
    destruct E4 as (? & ? & ? & ? & _). split_and!; [|done|done|by rewrite !Forall_cons].
    destruct E1 as [E1|E1]; bool_to_prop; apply dec_stable in E1; tauto.
Qed.

(** ** One movement per approval *)
(** The calls that reach the agent, in the order its mutex serves them. *)
Inductive fop :=
| OExecute (g : Grant) | OAdvance (g : Grant) | OPayment (g : Grant)
| OSettle (id : string) | OQuote (resource : string).
Definition fstep (o : fop) (f : Fund) : Fund :=
  match o with
  | OExecute g => (Fund_Execute g f).1
  | OAdvance g => (ExecuteAdvance selector g f).1
  | OPayment g => (ExecutePayment g f).1
  | OSettle id => (SettleOnChain selector id f).1
  | OQuote r => (Fund_Quote r f).1
  end.

Lemma Fund_Execute_cases g (f f' : Fund) r :
  Fund_Execute g f = (f', r) →
  (f' = f ∧ ∃ e, r = Err e ∧ as_h3 e = None ∧ (Empty g = true ∨ g_requestID g ∈ seen (agent f))) ∨
  (r = Ok tt ∧ Empty g = false ∧ (g_requestID g ∉ seen (agent f)) ∧ remote f' = remote f ∧
   executed (agent f') = executed (agent f) ++ [instruction_of g] ∧
   seen (agent f') = {[ g_requestID g ]} ∪ seen (agent f) ∧
   payer (agent f') = payer (agent f) ∧ approvalSecret (agent f') = approvalSecret (agent f)).
Proof.
  unfold Fund_Execute. destruct (Empty g); [intros; simplify_eq; left; eauto 6|].
  destruct (bool_decide _) eqn:E; bool_to_prop; intros; simplify_eq; [left; eauto 6|right].
  split_and!; done.
Qed.

Lemma submitM_agent lane cd (f : Fund) : agent (submitM lane cd f).1 = agent f.
Proof. unfold submitM. by destruct (lane cd (remote f)). Qed.
(** Only the first part of a door writes the record of movements. *)
Lemma ExecuteAdvance_agent g (f : Fund) :
  agent (ExecuteAdvance selector g f).1 = agent (Fund_Execute g f).1.
Proof.
  unfold ExecuteAdvance, bindM, getM. destruct (Fund_Execute g f) as [f' [u|e]]; [|done].
  destruct (advanceLane (agent f')); [|done]. destruct (bool_decide _); [done|].
  destruct (JobID32 _); [|done]. apply submitM_agent.
Qed.
Lemma ExecutePayment_agent g (f : Fund) :
  agent (ExecutePayment g f).1 = agent (Fund_Execute g f).1.
Proof.
  unfold Funding.ExecutePayment. destruct (Fund_Execute g f) as [f' [u|e]]; [|done].
  destruct (payer (agent f')); [|done]. destruct (bool_decide _); [done|].
  destruct (payableFromGrant g _) as [[w t]|]; [|done].
  destruct (payer_Pay _ w t (remote f')) as [s' [res|[he|]]]; [|done|done].
  destruct (Committed _); [by destruct (ParseAtomicMicros _)|done].
Qed.
Lemma fstep_other_agent o (f : Fund) :
  match o with OSettle _ | OQuote _ => agent (fstep o f) = agent f | _ => True end.
Proof.
  destruct o as [| | |id|res]; try done; cbn [fstep].
  - unfold SettleOnChain, bindM, getM. destruct (settleLane (agent f)); [|done].
    destruct (bool_decide _); [done|]. destruct (JobID32 id); [|done]. apply submitM_agent.
  - unfold Fund_Quote. destruct (payer (agent f)); [|done]. destruct (_ <=? 0); [done|].
    by destruct (payer_Quote _ _ _ _).
Qed.

(** What one operation does to the record of movements. *)
Lemma fstep_cases o (f : Fund) :
  (executed (agent (fstep o f)) = executed (agent f) ∧ seen (agent (fstep o f)) = seen (agent f)) ∨
  ∃ g, (o = OExecute g ∨ o = OAdvance g ∨ o = OPayment g) ∧
    (g_requestID g ∉ seen (agent f)) ∧ g_requestID g ≠ "" ∧
    executed (agent (fstep o f)) = executed (agent f) ++ [instruction_of g] ∧
    seen (agent (fstep o f)) = {[ g_requestID g ]} ∪ seen (agent f).
Proof.
  pose proof (fstep_other_agent o f) as Hother.
  assert (HE : ∀ g, o = OExecute g ∨ o = OAdvance g ∨ o = OPayment g →
     agent (fstep o f) = agent (Fund_Execute g f).1).
  { intros g [-> |[-> | ->]]; [done|apply ExecuteAdvance_agent|apply ExecutePayment_agent]. }
  assert (Hg : (∃ g, o = OExecute g ∨ o = OAdvance g ∨ o = OPayment g) ∨ agent (fstep o f) = agent f)
    by (destruct o; eauto 6).
  destruct Hg as [[g Ho]| ->]; [|by left]. rewrite (HE g Ho).
  destruct (Fund_Execute g f) as [f' r] eqn:E. cbn [fst].
  apply Fund_Execute_cases in E as [(-> & _)|(_ & Hemp & Hns & _ & Hex & Hse & _)]; [by left|right].
  exists g. unfold Empty in Hemp. by bool_to_prop.
Qed.

(** One movement per approval.  Whatever sequence of calls reaches the
    agent, in whatever order and however often a grant is presented, each
    request id is recorded as executed at most once and never without a grant;
    and once it is recorded, presenting the grant again by any of the three
    doors is refused with nothing changed on either side. *)
Lemma one_movement_per_grant ops (f0 : Fund) :
  executed (agent f0) = [] → seen (agent f0) = ∅ →
  let f := foldl (λ f o, fstep o f) f0 ops in
  NoDup (in_RequestID <$> executed (agent f)) ∧
  (∀ id, id ∈ seen (agent f) ↔ id ∈ in_RequestID <$> executed (agent f)) ∧
  (∀ ins, ins ∈ executed (agent f) → ∃ g, ins = instruction_of g ∧ g_requestID g ≠ "" ∧
     (OExecute g ∈ ops ∨ OAdvance g ∈ ops ∨ OPayment g ∈ ops)) ∧
  ∀ g, g_requestID g ∈ seen (agent f) ∨ Empty g = true →
    fstep (OExecute g) f = f ∧ fstep (OAdvance g) f = f ∧ fstep (OPayment g) f = f ∧
    ∃ e, ExecutePayment g f = (f, (noPayment, Some e)).
Proof.
  intros Hex0 Hs0 f.
  assert (Hrefuse : ∀ g (f : Fund), g_requestID g ∈ seen (agent f) ∨ Empty g = true →
    ∃ e, Fund_Execute g f = (f, Err e)).
  { intros g f1 Hg. unfold Fund_Execute. destruct (Empty g); [eauto|]. destruct Hg as [Hg|]; [|done].
    rewrite bool_decide_true by done. eauto. }
  assert (Hinv : NoDup (in_RequestID <$> executed (agent f)) ∧
    (∀ id, id ∈ seen (agent f) ↔ id ∈ in_RequestID <$> executed (agent f)) ∧
    (∀ ins, ins ∈ executed (agent f) → ∃ g, ins = instruction_of g ∧ g_requestID g ≠ "" ∧
     (OExecute g ∈ ops ∨ OAdvance g ∈ ops ∨ OPayment g ∈ ops))).
  { subst f. induction ops as [|o ops IH] using rev_ind.
    - cbn. rewrite Hex0, Hs0. split_and!; [constructor|set_solver|]. intros ? Hin. by apply elem_of_nil in Hin.
    - rewrite foldl_app. cbn [foldl]. set (f := foldl _ f0 ops) in *. destruct IH as (Hnd & Hiff & Hg).
      destruct (fstep_cases o f) as [[-> ->]|(g & Ho & Hns & Hne & -> & ->)].
      + split_and!; [done|done|]. intros ins Hin. destruct (Hg ins Hin) as (g & ? & ? & Hops).
        exists g. split_and!; [done|done|]. rewrite !elem_of_app. tauto.
      + rewrite fmap_app. cbn [fmap list_fmap]. split_and!.
        * apply NoDup_app. split_and!; [done| |apply NoDup_singleton].
          intros x Hx Hx'. apply list_elem_of_singleton in Hx'. subst x. apply Hns. by apply Hiff.
        * intros id. rewrite elem_of_union, elem_of_singleton, elem_of_app, Hiff, list_elem_of_singleton.
          cbn. tauto.
        * intros ins. rewrite elem_of_app, list_elem_of_singleton. intros [Hin| ->].
          -- destruct (Hg ins Hin) as (g' & ? & ? & Hops). exists g'. split_and!; [done|done|].
             rewrite !elem_of_app. tauto.
          -- exists g. split_and!; [done|done|]. rewrite !elem_of_app, !list_elem_of_singleton.
             destruct Ho as [-> |[-> | ->]]; tauto. }
  destruct Hinv as (? & ? & ?). split_and!; try done.
  intros g Hg. destruct (Hrefuse g f Hg) as [e He]. unfold fstep, ExecuteAdvance, Funding.ExecutePayment, bindM.
  rewrite He. cbn. eauto.
Qed.

(** ** The two sides agree on the bytes *)
Lemma num_chars_ascii z : utf8_clean (FormatInt z) = FormatInt z.
Proof. apply utf8_clean_ascii, FormatInt_acc1. Qed.
Lemma RFC3339_clean t : utf8_clean (RFC3339 t) = RFC3339 t.
Proof. apply utf8_clean_ascii, RFC3339_acc1. Qed.

Lemma received_hash g :
  intent_utf8 (g_intent g) = true → i_MaxAmountMicros (g_intent g) = i_AmountMicros (g_intent g) →
  canonicalIntent (received (wire_of g)) = CanonicalWire (g_intent g).
Proof.
  destruct g as [in_ id at_]. cbn [g_intent]. unfold intent_utf8, intent_strings. cbn [forallb].
  intros Hu Hmax. rewrite !andb_true_iff in Hu.
  destruct Hu as (?&?&?&?&?&?&?&?&?&?&?&?&?&?&?&?&?&_).
  unfold canonicalIntent, CanonicalWire, wireFields, received, wire_of. cbn [g_intent g_grantedAt
    w_IntentID w_JobID w_TaskID w_AgentID w_Resource w_Network w_Asset w_Merchant w_Amount w_MaxAmount
    w_Purpose w_Nonce w_Decision w_PolicyVersion w_CreatedAt w_ExpiresAt].
  rewrite !jsonString_js, !num_chars_ascii, !RFC3339_clean.
  rewrite Hmax. by repeat rewrite utf8_clean_valid by done.
Qed.

Lemma canonical_amount z : 0 ≤ z → isCanonicalAtomic (FormatInt z) = true.
Proof.
  intros Hz. unfold FormatInt. rewrite (proj2 (Z.ltb_ge z 0) Hz). by apply FormatUint_canonical.
Qed.

(** Documented shapes of the two digests: lowercase hex of 32 bytes. *)
Definition digests_hex : Prop :=
  (∀ s, isHex32 (keccak256 s) = true) ∧
  ∀ k m, String.length (hmac_sha256 k m) = 64%nat ∧ is_lower_hex (hmac_sha256 k m) = true.

Lemma lower_hex_ascii s : sall lower_hex s = true → sall acc1 s = true ∧ lower_ascii s = s.
Proof.
  assert (Hc : ∀ c, lower_hex c = true → acc1 c = true ∧ lower1 c = c).
  { intros [[] [] [] [] [] [] [] []]; vm_compute; intros; split; congruence. }
  induction s as [|c s IH]; [done|]. cbn [sall lower_ascii]. rewrite !andb_true_iff.
  intros [Hh Hs]. destruct (Hc c Hh) as [? ->]. destruct (IH Hs) as [? ->]. done.
Qed.
Lemma isHex32_ascii s : isHex32 s = true → sall acc1 s = true.
Proof.
  destruct s as [|a [|b r]]; [discriminate..|]. cbn [isHex32]. intros Hb. bool_to_prop. subst a b.
  match goal with E : is_lower_hex r = true |- _ => apply andb_true_iff in E as [_ E];
    apply lower_hex_ascii in E as [E _] end. cbn. done.
Qed.

(** The amount is a term of the canonical form. *)
Lemma canonicalIntent_amount i j :
  canonicalIntent i = canonicalIntent j →
  sall acc1 (w_Amount i) = true → sall acc1 (w_Amount j) = true → w_Amount i = w_Amount j.
Proof.
  intros Hc Hi Hj. unfold canonicalIntent in Hc. rewrite <-!jsonString_js in Hc.
  apply render_object_tail in Hc; [|done..].
  set (fv := λ i, [ ("agentId", FStr (w_AgentID i)); ("amount", FStr (w_Amount i));
    ("asset", FStr (w_Asset i)); ("expiresAt", FStr (w_ExpiresAt i)); ("intentId", FStr (w_IntentID i));
    ("jobId", FStr (w_JobID i)); ("maxAmount", FStr (w_MaxAmount i)); ("merchant", FStr (w_Merchant i));
    ("network", FStr (w_Network i)); ("nonce", FStr (w_Nonce i));
    ("policyVersion", FStr (w_PolicyVersion i)); ("purpose", FStr (w_Purpose i));
    ("resource", FStr (w_Resource i)); ("taskId", FStr (w_TaskID i)) ]).
  change (render_tail (rendered (fv i)) = render_tail (rendered (fv j))) in Hc.
  apply render_tail_inj in Hc; [|repeat constructor]. subst fv. cbv beta in Hc.
  apply Forall2_cons_1 in Hc as [_ Hc]. apply Forall2_cons_1 in Hc as [Hc _]. cbn [snd fview_of] in Hc.
  injection Hc as Hc. by apply ascii_blurred_inj.
Qed.

(** The door's body passes the service's checks.  For an intent whose text
    is valid UTF-8, what the sidecar decodes from a minted pay body hashes to
    the daemon's own wire hash, and it satisfies every condition the sidecar
    requires before it probes and signs: the HMAC verifies, and hash, decision,
    window and amount of token and intent agree. *)
Lemma minted_body_authorised g secret wire tok :
  digests_hex → intent_utf8 (g_intent g) = true →
  payableFromGrant g secret = Ok (wire, tok) →
  ∃ tok', isWireIntent (member "intent" (json_Marshal (pay_body wire tok))) = Some (received wire) ∧
    isApprovalToken (member "approvalToken" (json_Marshal (pay_body wire tok))) = Some tok' ∧
    computeIntentHash keccak256 (received wire) = WireHash keccak256 (g_intent g) ∧
    authorised keccak256 hmac_sha256 secret (received wire) tok'.
Proof.
  clear EqualFold selector.
  intros [Hk Hh] Hu Hp. destruct (payableFromGrant_cases g secret) as [[Hpay Hok]|[_ He]]; [|congruence].
  rewrite Hok in Hp. injection Hp as <- <-. eexists. split; [reflexivity|]. split; [reflexivity|].
  assert (Hhash : computeIntentHash keccak256 (received (wire_of g)) = WireHash keccak256 (g_intent g)).
  { unfold computeIntentHash, WireHash. rewrite received_hash; [done|done|apply Hpay]. }
  split; [done|]. unfold authorised. rewrite Hhash.
  assert (Hkc : utf8_clean (WireHash keccak256 (g_intent g)) = WireHash keccak256 (g_intent g))
    by apply utf8_clean_ascii, isHex32_ascii, Hk.
  destruct (Hh secret (approval_message (token_of g secret))) as [_ Hhex].
  apply andb_true_iff in Hhex as [_ Hhex]. apply lower_hex_ascii in Hhex as [Hha Hhl].
  destruct Hpay as (_ & Hpos & _).
  split_and!.
  - unfold verifyApproval, js_signApproval. apply bool_decide_eq_true.
    cbn [t_IntentHash t_Decision t_ApprovedAmount t_ExpiresAt t_Signature token_of SignApproval].
    rewrite num_chars_ascii, RFC3339_clean, Hkc.
    change (utf8_clean wireDecision) with wireDecision.
    change (hmac_sha256 secret (approval_message _)) with
      (hmac_sha256 secret (approval_message (token_of g secret))).
    rewrite (utf8_clean_ascii _ Hha), Hhl. reflexivity.
  - exact Hkc.
  - reflexivity.
  - reflexivity.
  - reflexivity.
  - cbn. by left.
  - cbn. rewrite num_chars_ascii. apply canonical_amount. lia.
Qed.

(** The door never trips its own pre-flight check.  A body minted from a
    grant is accepted by the client's validation whenever the nonce is not
    blank and the expiry has a four-digit year. *)
Lemma minted_body_validates g secret wire tok :
  digests_hex → blank (i_Nonce (g_intent g)) = false →
  0 ≤ d_year (UTC_Date (i_ExpiresAt (g_intent g))) ≤ 9999 →
  payableFromGrant g secret = Ok (wire, tok) → validatePayable wire tok = None.
Proof.
  clear EqualFold selector.
  intros [Hk Hh] Hn Hy Hp. destruct (payableFromGrant_cases g secret) as [[Hpay Hok]|[_ He]]; [|congruence].
  rewrite Hok in Hp. injection Hp as <- <-. destruct Hpay as (_ & Hpos & _ & Hb).
  rewrite !Forall_cons in Hb. destruct Hb as (? & ? & ? & ? & _).
  apply well_formed_payable_accepted. unfold well_formed_payable, wire_of, token_of, SignApproval.
  cbn [w_Nonce w_Resource w_Merchant w_Asset w_Network w_Amount w_MaxAmount w_ExpiresAt w_Decision
       t_Decision t_ExpiresAt t_ApprovedAmount t_IntentHash t_Signature].
  rewrite !Forall_cons. split_and!; try done; try apply Hh.
  - by apply canonical_amount, Z.lt_le_incl.
  - by apply canonical_amount, Z.lt_le_incl.
  - apply RFC3339_no_period.
  - by apply RFC3339_valid.
  - by left.
  - apply Hk.
Qed.
End Facts.

(** ** The door over the real client and the real service *)
Section EndToEnd.
Context (keccak256 : string → string) (hmac_sha256 : string → string → string).
Context (EqualFold : string → string → bool) (toLower : string → string).
Context (AUTH_TOKEN H2_SECRET base : string).
Context (urlParse : string → option (string * string)) (c : Client).
Context (Hbase : c_baseURL c = base) (Htoken : c_token c = AUTH_TOKEN).
Abbreviation lane :=
  (client_payer (exchange keccak256 hmac_sha256 toLower AUTH_TOKEN H2_SECRET base) urlParse c).
Abbreviation pay := (ExecutePayment (S := Sidecar) keccak256 hmac_sha256 EqualFold).

Lemma ExecutePayment_sent g (f f' : Fund Sidecar) out err :
  payer (agent f) = Some lane → pay g f = (f', (out, err)) →
  (po_Submitted out = false ∧ remote f' = remote f ∧ (∀ e, err = Some e → as_h3 e = None ∨ releasable e = true)) ∨
  po_Submitted out = true ∧ (g_requestID g ∉ seen (agent f)) ∧ payable (g_intent g) ∧
  po_PaymentID out = PaymentID keccak256 (WireHash keccak256 (g_intent g)) (i_Nonce (g_intent g)) ∧
  po_ReceiptHash out = AuthNonce keccak256 (WireHash keccak256 (g_intent g)) ∧
  ∃ r, Pay (exchange keccak256 hmac_sha256 toLower AUTH_TOKEN H2_SECRET base) urlParse c
         (wire_of g) (token_of keccak256 hmac_sha256 g (approvalSecret (agent f))) (remote f) = (remote f', r) ∧
    match r with
    | Err e => err = Some (FH3 e) ∧ po_State out = ""
    | Ok res => po_State out = p_State res ∧
        (Committed (p_State res) = true →
           match ParseAtomicMicros (p_AmountPaid res) with
           | Ok m => err = None ∧ po_PaidMicros out = m
           | Err _ => err = Some FUnreadableAmount
           end) ∧
        (Committed (p_State res) = false → err = None)
    end.
Proof.
  intros Hlane Hp. unfold ExecutePayment in Hp.
  destruct (Fund_Execute g f) as [f1 r1] eqn:E. apply Fund_Execute_cases in E as
    [(-> & e & -> & He & _)|(-> & Hemp & Hns & Hrem & _ & _ & Hpay & Hsec)].
  { simplify_eq. left. split_and!; try done. intros ? [= <-]. by left. }
  rewrite Hpay, Hlane in Hp. destruct (bool_decide (approvalSecret (agent f1) = "")).
  { simplify_eq. left. split_and!; try done. intros ? [= <-]. by right. }
  destruct (payableFromGrant_cases keccak256 hmac_sha256 g (approvalSecret (agent f1))) as [[Hpb Hok]|[_ He]].
  2: { rewrite He in Hp. simplify_eq. left. split_and!; try done. intros ? [= <-]. by right. }
  rewrite Hok in Hp. cbn [payer_Pay client_payer] in Hp. rewrite Hrem, Hsec in Hp.
  destruct (Pay _ _ _ _ _ (remote f)) as [s' r] eqn:EP. right.
  assert (Hcommon : ∀ st paid payee dv code pre ret e,
    (with_remote s' f1, (MkPaymentOutcome true
       (PaymentID keccak256 (t_IntentHash (token_of keccak256 hmac_sha256 g (approvalSecret (agent f)))) (w_Nonce (wire_of g)))
       st paid (AuthNonce keccak256 (t_IntentHash (token_of keccak256 hmac_sha256 g (approvalSecret (agent f)))))
       (AuthNonce keccak256 (t_IntentHash (token_of keccak256 hmac_sha256 g (approvalSecret (agent f)))))
       payee dv code pre ret, e)) = (f', (out, err)) →
    po_Submitted out = true ∧
    po_PaymentID out = PaymentID keccak256 (WireHash keccak256 (g_intent g)) (i_Nonce (g_intent g)) ∧
    po_ReceiptHash out = AuthNonce keccak256 (WireHash keccak256 (g_intent g)) ∧
    remote f' = s' ∧ po_State out = st ∧ po_PaidMicros out = paid ∧ err = e).
  { intros. by simplify_eq. }
  destruct r as [res|[he|]].
  - destruct (Committed (p_State res)) eqn:Ec.
    + destruct (ParseAtomicMicros (p_AmountPaid res)) as [m|e] eqn:Em;
        apply Hcommon in Hp as (-> & -> & -> & -> & Hst & Hpaid & Her); split_and!; try done;
        exists (Ok res); rewrite Ec, Em, Hst; done.
    + apply Hcommon in Hp as (-> & -> & -> & -> & Hst & _ & ->). split_and!; try done.
      exists (Ok res). rewrite Ec. done.
  - apply Hcommon in Hp as (-> & -> & -> & -> & Hst & _ & ->). split_and!; try done.
    by exists (Err (H3Err he)).
  - apply Hcommon in Hp as (-> & -> & -> & -> & Hst & _ & ->). split_and!; try done.
    by exists (Err Plain).
Qed.

Lemma door_sound g (f f' : Fund Sidecar) out err :
  sinv keccak256 (remote f) → digests_hex keccak256 hmac_sha256 →
  intent_utf8 (g_intent g) = true → int64_range (i_AmountMicros (g_intent g)) →
  payer (agent f) = Some lane → pay g f = (f', (out, err)) →
  ((∃ e, err = Some e ∧ releasable e = true) ∨ po_Submitted out = false →
     records (remote f') = records (remote f) ∧ signed (remote f') = signed (remote f)) ∧
  (err = None → po_Submitted out = true → Committed (po_State out) = true →
     ∃ p, records (remote f') !! i_Nonce (g_intent g) = Some p ∧
       pr_intentHash p = WireHash keccak256 (g_intent g) ∧
       (i_Nonce (g_intent g), po_ReceiptHash out) ∈ signed (remote f') ∧
       (po_PaidMicros out = i_AmountMicros (g_intent g) ∨
        ∃ x y, x ≠ y ∧ keccak256 x = keccak256 y)).
Proof.
  intros Hs [Hk _] Hu Hr Hlane Hp. pose proof (ExecutePayment_sent g f f' out err Hlane Hp) as Hsent.
  destruct Hsent as [(Hns & Hrem & _)|(Hsub & _ & Hpay & Hid & Hrh & r & HP & Hres)].
  { split; [by rewrite Hrem|]. intros _ Hsub. congruence. }
  pose proof (Pay_sound _ _ _ _ _ _ _ _ _ _ _ _ _ Hs Hbase Htoken HP) as [Hun Hcm]. split.
  - intros [(e & -> & He)|?]; [|congruence]. destruct r as [res|e'].
    + destruct Hres as (_ & H1 & H2). exfalso. destruct (Committed (p_State res)).
      * specialize (H1 eq_refl). destruct (ParseAtomicMicros _); [by destruct H1|]. by injection H1 as ->.
      * by specialize (H2 eq_refl).
    + destruct Hres as [[= ->] _]. apply (Hun _ eq_refl). unfold releasable in He. cbn in He.
      destruct e'; done.
  - intros -> _ Hcomm. destruct r as [res|e']; [|by destruct Hres].
    destruct Hres as (Hst & Hpaid & _). rewrite Hst in Hcomm. specialize (Hpaid Hcomm).
    destruct (ParseAtomicMicros (p_AmountPaid res)) as [m|] eqn:Em; [|done]. destruct Hpaid as [_ ->].
    destruct (Hcm _ eq_refl Hcomm) as (p & j & Hrec & Hph & Hsig & Hj & Ham).
    assert (Hhash : computeIntentHash keccak256 (received (wire_of g)) = WireHash keccak256 (g_intent g)).
    { unfold computeIntentHash, WireHash. rewrite received_hash; [done|done|apply Hpay]. }
    assert (Hn : utf8_clean (w_Nonce (wire_of g)) = i_Nonce (g_intent g)).
    { cbn. apply utf8_clean_valid. unfold intent_utf8, intent_strings in Hu. cbn [forallb] in Hu.
      rewrite !andb_true_iff in Hu. tauto. }
    rewrite Hn in Hrec. exists p.
    assert (Hs' : sinv keccak256 (remote f')).
    { apply Pay_cases in HP as [(-> & _)|(_ & o & Hx & _)]; [done|]. eapply sinv_step; [done|]. by eexists _, _. }
    destruct (sinv_keyed _ _ Hs' _ _ Hrec) as (Hpn & _). rewrite Hpn, Hph, Hhash in Hsig.
    split_and!; [done|by rewrite Hph|by rewrite Hrh|].
    destruct (decide (canonicalIntent j = canonicalIntent (received (wire_of g)))) as [Hc|Hc].
    2: { right. unfold computeIntentHash in Hj. eauto. }
    left. assert (Hcan : isCanonicalAtomic (w_Amount j) = true).
    { unfold ParseAtomicMicros in Em. rewrite Ham in Em. by destruct (isCanonicalAtomic (w_Amount j)). }
    destruct Hpay as (_ & Hpos & _). destruct (Parse_of_Format _ Hr (Z.lt_le_incl _ _ Hpos)) as [Hc2 Hparse].
    apply canonicalIntent_amount in Hc.
    + rewrite Ham, Hc in Em. cbn in Em. rewrite num_chars_ascii in Em. congruence.
    + apply digits_ascii. by apply canonical_head.
    + cbn. rewrite num_chars_ascii. apply FormatInt_acc1.
Qed.

End EndToEnd.
