(* ===== verification/Wiring.v ===== *)
(** [cmd/snapfall/main.go]: the ledger wired into the approval lifecycle.

    [Daemon] is the state behind the lifecycle's hooks: the reservation ledger
    and the policy snapshot.  [daemon_hooks] is the wiring ([life.Spend],
    [life.Reserve], [life.Policy]) and [daemon_laws] discharges the promises the
    lifecycle relies on.  On top: the claim oracle of the sweeper, the status
    reconciler, the step relation of the whole money path and its safety. *)
From Stdlib Require Import Ascii String.
From S2P Require Import Prelude GoStr GoTime GoJson Intent Policy Store H3 Approval.
From S2P Require Budget Freeze.
#[local] Open Scope Z_scope.
#[local] Open Scope snap_scope.

Record Daemon := MkDaemon {
  dm_ledger : Budget.Ledger; dm_policy : PolicyConfig; dm_version : string }.
Definition with_ledger (l : Budget.Ledger) (d : Daemon) : Daemon :=
  MkDaemon l (dm_policy d) (dm_version d).

(** ** The hooks *)
Definition reserveMicros (in_ : Intent) : option Z :=
  if i_AmountMicros in_ <=? 0 then None
  else if i_AmountMicros in_ <? i_MaxAmountMicros in_ then None
  else Some (i_AmountMicros in_).

Section Hooks.
Context (keccak256 : string → string).

Definition hold_of (in_ : Intent) (requestID : string) (micros : Z) : Budget.Hold :=
  Budget.MkHold requestID (i_IntentID in_) (i_JobID in_) (i_OrgID in_) micros
    (PaymentID keccak256 (WireHash keccak256 in_) (i_Nonce in_)) (i_Nonce in_) (i_Merchant in_)
    (i_PayTo in_) (i_ExpiresAt in_) zeroTime.
Definition reserveHook (now : time) (in_ : Intent) (requestID : string) (s : Store) (d : Daemon) :
    Store * Daemon * bool :=
  match reserveMicros in_ with
  | None => (s, d, false)
  | Some micros =>
    let '(s', l', r) := Budget.Reserve now (hold_of in_ requestID micros) s (dm_ledger d) in
    (s', with_ledger l' d, match r with None => true | Some _ => false end)
  end.
#[export] Instance daemon_hooks : Hooks Daemon := {
  hook_Policy d := (dm_policy d, dm_version d);
  hook_Spend now job d := Budget.Spend now job (dm_ledger d);
  hook_Reserve := reserveHook }.

Definition held (id : string) (d : Daemon) : Prop :=
  Budget.is_open (Budget.slot (Budget.entries (dm_ledger d)) id) = true.

Lemma Reserve_ok_open clk h s l s' l' :
  Budget.Reserve clk h s l = (s', l', None) →
  Budget.is_open (Budget.slot (Budget.entries l') (Budget.h_RequestID h)) = true.
Proof.
  unfold Budget.Reserve. destruct (Budget.invalid_hold h); [done|].
  destruct (bool_decide (Budget.closedBy _ ≠ "")) eqn:Ec; [done|]. bool_to_prop. apply dec_stable in Ec.
  destruct (Budget.reserved _) eqn:Er.
  - intros Hx. simplify_eq. unfold Budget.is_open. by rewrite Er, Ec.
  - destruct (Append _ _ _) as [s1 [z|e]]; [|done]. intros Hx. simplify_eq. cbn [Budget.entries].
    change (Budget.h_RequestID (Budget.stamp clk h)) with (Budget.h_RequestID h).
    rewrite Budget.slot_insert. unfold Budget.is_open. cbn. by rewrite Ec.
Qed.

#[export] Instance daemon_laws : HooksLaws Daemon.
Proof.
  refine {| hook_held := held |}.
  - intros now in_ id s e s' e' ok Hx. cbn in Hx. unfold reserveHook in Hx.
    destruct (reserveMicros in_) as [m|]; [|by simplify_eq].
    destruct (Budget.Reserve _ _ _ _) as [[s1 l1] r] eqn:E. simplify_eq.
    apply Budget.Reserve_cases in E as [[-> Hd]|(_ & _ & _ & _ & Hd & _)]; rewrite Hd; [done|].
    split; [|done]. apply quiet_appended. by apply (bool_decide_eq_false_1 _).
  - intros now in_ id s e s' e' Hx. cbn in Hx. unfold reserveHook in Hx.
    destruct (reserveMicros in_) as [m|]; [|by simplify_eq].
    destruct (Budget.Reserve _ _ _ _) as [[s1 l1] [r|]] eqn:E; simplify_eq.
    unfold held. cbn. by apply Reserve_ok_open in E.
Defined.

(** [executionClaimed]: the sweeper's in-process claim oracle. *)
Definition executionClaimed (w : World Daemon) (requestID : string) : bool :=
  match Snapshot requestID w with Some req => r_Executed req | None => false end.

(** A ledger call inside the daemon's world. *)
Definition ledgerM {A} (f : Store → Budget.Ledger → Store * Budget.Ledger * A) (w : World Daemon) :
    World Daemon * A :=
  let '(s, l, a) := f (st w) (dm_ledger (ext w)) in
  (with_ext (with_ledger l (ext w)) (with_st s w), a).
Definition sweep_tick (now clk : time) (w : World Daemon) :
    World Daemon * (nat * option Budget.BudgetErr) :=
  ledgerM (Budget.Sweep now clk (Some (executionClaimed w))) w.

(** ** The job budget *)
(** Every hold is for a positive figure, and only a closed one has a committed
    figure. *)
Definition regular (l : Budget.Ledger) : Prop := ∀ id,
  let e := Budget.slot (Budget.entries l) id in
  (Budget.reserved e = true → 0 < Budget.h_ReserveMicros (Budget.hold e)) ∧
  (Budget.closedBy e = "" → Budget.committedMicros e = 0).
Definition capped (B : Z) (s : Store) (l : Budget.Ledger) : Prop :=
  Budget.sound s l ∧ regular l ∧ ∀ job, Budget.job_total job l ≤ B.

Lemma regular_insert l id e jo sn :
  regular l →
  (Budget.reserved e = true → 0 < Budget.h_ReserveMicros (Budget.hold e)) →
  (Budget.closedBy e = "" → Budget.committedMicros e = 0) →
  regular (Budget.MkLedger (<[ id := e ]> (Budget.entries l)) jo sn).
Proof.
  intros Hr H1 H2 id'. cbn [Budget.entries]. destruct (decide (id = id')) as [<-|Hne].
  - rewrite Budget.slot_insert. done.
  - rewrite Budget.slot_insert_ne by done. apply Hr.
Qed.
Lemma capped_mark B s s' l ids :
  Budget.sound s' (Budget.set_entries (Budget.mark_claimed ids (Budget.entries l)) l) →
  capped B s l → capped B s' (Budget.set_entries (Budget.mark_claimed ids (Budget.entries l)) l).
Proof.
  intros Hs (_ & Hr & Ht). split_and!; [done| |].
  - intros id. cbn [Budget.entries Budget.set_entries]. rewrite Budget.slot_mark.
    destruct (Hr id). case_bool_decide; done.
  - intros job. unfold Budget.job_total. cbn [Budget.entries Budget.set_entries].
    rewrite Budget.msum_mark; [apply Ht|done|apply Budget.job_part_zero].
Qed.
Lemma capped_release B clk id re code pre s l s' l' r :
  0 ≤ B → capped B s l → Budget.Release clk id re code pre s l = (s', l', r) → capped B s' l'.
Proof.
  intros HB (Hs & Hr & Ht) Hx.
  assert (Hs' : Budget.sound s' l').
  { destruct Hs. split; [by eapply Budget.Release_consistent|by eapply Budget.Release_wf]. }
  destruct (Hr id) as [Hpos Hzero]. split_and!; [done| |].
  - apply Budget.Release_cases in Hx as [(-> & _)|(_ & Hre & _ & _ & _ & ->)]; [done|].
    unfold Budget.set_entries. apply regular_insert; [done|apply Hpos|done].
  - intros job. pose proof Hx as Hx'.
    apply Budget.Release_cases in Hx' as [(-> & _)|(_ & Hre & Hcl & _ & _ & _)]; [apply Ht|].
    specialize (Hpos Hre). specialize (Hzero Hcl).
    destruct (Budget.Release_total _ _ _ _ _ _ _ _ _ _ job Hx Hpos Hzero) as [->|(_ & _ & ->)]; [apply Ht|].
    specialize (Ht job). unfold Budget.delta. case_bool_decide; lia.
Qed.

(** A ledger operation of the running daemon other than a reservation, which
    only the intake makes; a commit at no more than what was held. *)
Definition op_ok (l : Budget.Ledger) (op : Budget.lop) : Prop :=
  Budget.lop_ok op ∧
  match op with
  | Budget.LReserve _ _ => False
  | Budget.LCommit _ id paid _ _ _ =>
      paid ≤ Budget.h_ReserveMicros (Budget.hold (Budget.slot (Budget.entries l) id))
  | _ => True
  end.

Lemma capped_lstep B op s l :
  0 ≤ B → op_ok l op → capped B s l → capped B (Budget.lstep op s l).1 (Budget.lstep op s l).2.
Proof.
  intros HB [Hok Hop] Hc. pose proof (Budget.sound_lstep op s l Hok (proj1 Hc)) as Hs'.
  destruct op as [clk h|clk id paid pid rh st0|clk id re code pre|now clk hook|clk h st0
                 |clk j v c d|wall ev|]; try done; cbn [Budget.lstep] in *.
  - destruct (Budget.Commit _ _ _ _ _ _ s l) as [[s' l'] r] eqn:E. cbn [fst snd] in *.
    destruct Hc as (Hs & Hr & Ht). destruct (Hr id) as [Hpos Hzero]. split_and!; [done| |].
    + apply Budget.Commit_cases in E as [(-> & _)|(_ & _ & Hre & _ & _ & _ & _ & ->)]; [done|].
      unfold Budget.set_entries. apply regular_insert; [done|apply Hpos|done].
    + intros job. pose proof E as E'.
      apply Budget.Commit_cases in E' as [(-> & _)|(_ & _ & Hre & _)]; [apply Ht|].
      destruct (Budget.Commit_total _ _ _ _ _ _ _ _ _ _ _ job (proj2 Hs) E (Hpos Hre)) as [->|(_ & ->)];
        [apply Ht|]. specialize (Ht job). unfold Budget.delta. case_bool_decide; lia.
  - destruct (Budget.Release _ _ _ _ _ s l) as [[s' l'] r] eqn:E. by eapply capped_release.
  - destruct (Budget.Sweep _ _ _ s l) as [[s' l'] r] eqn:E. cbn [fst snd].
    eapply (Budget.Sweep_invariant (capped B)); [| |exact Hc|exact E].
    + intros s0 l0 s1 l1 r1 H0 Hx. pose proof (proj1 H0) as [Hcons Hwf].
      pose proof (Budget.refreshClaims_consistent _ _ _ _ _ Hcons Hx) as Hcons1.
      apply Budget.refreshClaims_cases in Hx as (_ & [(-> & _)|(ids & _ & _ & ->)]).
      * destruct H0 as (_ & ? & ?). split_and!; [by split|done|done].
      * eapply capped_mark; [|exact H0]. split; [done|]. by apply Budget.wf_mark.
    + intros id s0 l0 s1 l1 r1 H0 Hx. by eapply capped_release.
  - destruct (Budget.NoteReconcileStalled _ _ _ s l) as [[s' l'] r] eqn:E. cbn [fst snd] in *.
    apply Budget.Note_cases in E as (He & _ & _). destruct Hc as (_ & Hr & Ht).
    unfold capped, regular, Budget.job_total in *. rewrite He. done.
  - unfold Budget.NoteChainDivergence in *. destruct Hc as (_ & Hr & Ht).
    destruct (bool_decide (j = "")); [done|]. destruct (Append _ _ s) as [s1 [z|e]]; done.
  - destruct Hc as (_ & Hr & Ht). done.
  - unfold Budget.restart in *. destruct (Budget.Recover s Budget.New) as [[s1 l1] [e|]] eqn:E; cbn [fst snd] in *.
    + destruct Hc as (_ & Hr & Ht). done.
    + destruct Hc as (Hs & Hr & Ht). destruct (Budget.Recover_sound _ _ _ _ Hs E) as (_ & _ & _ & ids & _ & He).
      split_and!; [done| |].
      * intros id. rewrite He, Budget.slot_mark. destruct (Hr id). case_bool_decide; done.
      * intros job. unfold Budget.job_total. rewrite He, Budget.msum_mark; [apply Ht|done|apply Budget.job_part_zero].
Qed.

(** ** The lifecycle's own writes leave the ledger's fold alone *)
Section Money.
Context (B : Z) (cfg : PolicyConfig).
Definition money (w : World Daemon) : Prop :=
  capped B (st w) (dm_ledger (ext w)) ∧ dm_policy (ext w) = cfg.
(** An operation that keeps the money invariant, and possibly more. *)
Definition keeps {A} (m : M (World Daemon) ApErr A) : Prop := ∀ w, money w → money (m w).1.

Lemma keeps_bind {A C} (m : M (World Daemon) ApErr A) (k : A → M (World Daemon) ApErr C) :
  keeps m → (∀ a, keeps (k a)) → keeps (bindM m k).
Proof.
  intros Hm Hk w Hw. unfold bindM. specialize (Hm w Hw). destruct (m w) as [w1 [a|e]]; [|done].
  by apply Hk.
Qed.
Lemma keeps_ret {A} (a : A) : keeps (retM a). Proof. by intros w. Qed.
Lemma keeps_fail {A} e : keeps (A := A) (failM e). Proof. by intros w. Qed.
Lemma keeps_get : keeps getM. Proof. by intros w. Qed.
Lemma keeps_modify f : (∀ w, st (f w) = st w ∧ ext (f w) = ext w) → keeps (modifyM f).
Proof. intros Hf w Hw. unfold modifyM, money. cbn. by destruct (Hf w) as [-> ->]. Qed.
(** The read of the state a guard depends on. *)
Lemma keeps_read {A} (k : World Daemon → M (World Daemon) ApErr A) :
  (∀ w, keeps (k w)) → keeps (bindM getM k).
Proof. intros Hk. apply keeps_bind; [apply keeps_get|done]. Qed.

Lemma sound_same_log s s1 l : Budget.sound s l → events (db s1) = events (db s) → Budget.sound s1 l.
Proof.
  intros [(ids & Hc & Hf) Hw] He. split; [|done]. exists ids.
  unfold Budget.claim_rows, Budget.ledger_rows in *. by rewrite He.
Qed.
Lemma sound_append s s1 l now ev :
  Budget.sound s l → db s1 = appended (db s) now ev →
  (e_Kind ev ∉ Budget.ledger_kinds) ∨
  e_Kind ev = Budget.kindPaymentExecuting ∧ is_Some (Budget.payload_of_json (json_Marshal (e_Payload ev))) →
  Budget.sound s1 l.
Proof.
  intros [Hc Hw] Hd Hk. split; [|done]. destruct Hk as [Hk|[Hk [p Hp]]].
  - by eapply Budget.consistent_other.
  - by eapply Budget.consistent_claim.
Qed.

Lemma keeps_append now job kind fields :
  (kind ∉ Budget.ledger_kinds) ∨
  kind = Budget.kindPaymentExecuting ∧ is_Some (Budget.payload_of_json (json_Marshal (JObj fields))) →
  keeps (appendEvent now job kind fields).
Proof.
  intros Hk w [(Hs & Hr & Ht) Hp]. destruct (appendEvent now job kind fields w) as [w1 r] eqn:E.
  apply appendEvent_cases in E as (s' & -> & Hd). cbn. split; [|done]. split_and!; [|done|done].
  cbn [st ext with_st]. destruct Hd as [[_ Hd]|[_ Hd]].
  - eapply sound_append; [exact Hs|exact Hd|exact Hk].
  - apply (sound_same_log _ _ _ Hs). by rewrite Hd.
Qed.
Lemma keeps_claimNonce in_ : keeps (claimNonce in_).
Proof.
  intros w [(Hs & Hr & Ht) Hp]. destruct (claimNonce in_ w) as [w1 r] eqn:E.
  apply claimNonce_cases in E as (s' & -> & Hd). cbn. split; [|done]. split_and!; [|done|done].
  apply (sound_same_log _ _ _ Hs). cbn [st with_st]. destruct Hd as [(_ & _ & ->)|[_ ->]]; done.
Qed.
Lemma notify_same req w : st (notify req w) = st w ∧ ext (notify (W := Daemon) req w) = ext w.
Proof. unfold notify. by case_bool_decide. Qed.

Ltac keeps_tac :=
  repeat match goal with
  | |- keeps (retM _) => apply keeps_ret
  | |- keeps (failM _) => apply keeps_fail
  | |- keeps (claimNonce _) => apply keeps_claimNonce
  | |- keeps (appendEvent _ _ _ _) =>
      apply keeps_append; left; by apply (bool_decide_eq_false_1 _)
  | |- keeps (modifyM (notify _)) => apply keeps_modify, notify_same
  | |- keeps (modifyM _) => apply keeps_modify; intros ?; split; reflexivity
  | |- keeps (bindM getM _) => apply keeps_read; intros ?
  | |- keeps (bindM _ _) => apply keeps_bind; [|intros ?]
  | |- keeps (match ?x with _ => _ end) => destruct x eqn:?
  end.

Lemma keeps_SubmitAdvance now in0 : keeps (SubmitAdvance keccak256 now in0).
Proof.
  unfold SubmitAdvance. cbv zeta. keeps_tac.
Qed.
Lemma keeps_Decide now id kind by_ reason : keeps (Decide now id kind by_ reason).
Proof.
  unfold Decide. cbv zeta. keeps_tac.
Qed.
Lemma keeps_admit now in_ id : keeps (execute_admit keccak256 now in_ id).
Proof.
  intros w [Hc Hp]. destruct (execute_admit keccak256 now in_ id w) as [w1 r] eqn:E.
  apply execute_admit_cases in E as (Hst & Hext & _). unfold money. cbn. by rewrite Hst, Hext.
Qed.
Lemma keeps_finish now x failure : keeps (execute_finish now x failure).
Proof.
  intros w Hw. unfold execute_finish.
  assert (Hrel : ∀ h w1, money w1 → money (release_admission h (drop_exec x w1))).
  { intros h w1 [Hc Hp]. destruct (release_admission_same h (drop_exec x w1)) as (Hs & _ & _ & He).
    unfold money. by rewrite Hs, He. }
  destruct failure as [msg|];
    (destruct (appendEvent _ _ _ _ w) as [w1 r] eqn:E; cbn; apply Hrel;
     change w1 with (w1, r).1; rewrite <-E; apply keeps_append; [|exact Hw]; left;
     by apply (bool_decide_eq_false_1 _)).
Qed.
Lemma keeps_claim now x : keeps (execute_claim now x).
Proof.
  intros w Hw. unfold execute_claim. destruct (appendEvent _ _ _ _ w) as [w1 r] eqn:E.
  assert (Hw1 : money w1).
  { change w1 with (w1, r).1. rewrite <-E. apply keeps_append; [|exact Hw]. right. split; [done|].
    eexists. reflexivity. }
  destruct r as [u|e]; [exact Hw1|]. cbn.
  destruct (release_admission_same (x_Handle x) (drop_exec x (unclaim (x_ID x) w1))) as (Hs & _ & _ & He).
  destruct (unclaim_same (x_ID x) w1) as (Hs1 & _ & He1).
  destruct Hw1. unfold money. rewrite Hs, He. cbn. by rewrite Hs1, He1.
Qed.

(** The intake: the evaluated figure is the one that is held. *)
Definition intent_ok (in_ : Intent) : Prop :=
  intent_utf8 in_ = true ∧ 0 < UnixSec (i_ExpiresAt in_).
Context (keccak_ascii : ∀ s, sall acc1 (keccak256 s) = true).
Context (HB : 0 ≤ B) (HcfgB : JobBudgetMicros cfg ≤ B) (Hcfg : config_int64 cfg).

Lemma hold_loggable_of in_ m now auto :
  intent_ok in_ → m ≤ max_int64 →
  Budget.hold_loggable (hold_of in_ (r_ID (new_request keccak256 now auto in_)) m).
Proof.
  intros [Hu Hx] Hm. unfold Budget.hold_loggable. split_and!; [|done|done].
  assert (Hpid : valid_utf8 (PaymentID keccak256 (WireHash keccak256 in_) (i_Nonce in_)) = true).
  { apply ascii_valid. unfold PaymentID. rewrite sall_app.
    rewrite (sall_substring acc1); [done|]. apply keccak_ascii. }
  destruct (request_id_ok keccak256 keccak_ascii in_) as [Hid _].
  unfold Budget.hold_utf8, hold_of. cbn [forallb Budget.h_RequestID Budget.h_IntentID Budget.h_JobID
    Budget.h_OrgID Budget.h_PaymentID Budget.h_Nonce Budget.h_Merchant Budget.h_PayTo r_ID new_request].
  unfold intent_utf8, intent_strings in Hu. cbn [forallb] in Hu. rewrite !andb_true_iff in Hu.
  rewrite !andb_true_iff. tauto.
Qed.

Lemma reserve_capped now in_ id auto (s s' : Store) (d d' : Daemon) ok :
  intent_ok in_ → capped B s (dm_ledger d) → id = r_ID (new_request keccak256 now auto in_) →
  Budget.job_total (i_JobID in_) (dm_ledger d) + i_AmountMicros in_ ≤ B →
  i_AmountMicros in_ ≤ max_int64 →
  reserveHook now in_ id s d = (s', d', ok) →
  capped B s' (dm_ledger d') ∧ dm_policy d' = dm_policy d.
Proof.
  intros Hok (Hs & Hr & Ht) -> Hcap Hmax Hx. unfold reserveHook, reserveMicros in Hx.
  destruct (i_AmountMicros in_ <=? 0) eqn:E1; [by simplify_eq|].
  destruct (i_AmountMicros in_ <? i_MaxAmountMicros in_); [by simplify_eq|]. bool_to_prop.
  set (h := hold_of in_ _ _) in *. destruct (Budget.Reserve now h s (dm_ledger d)) as [[s1 l1] r] eqn:E.
  simplify_eq. cbn [dm_ledger with_ledger dm_policy]. split; [|done].
  pose proof (hold_loggable_of in_ (i_AmountMicros in_) now auto Hok Hmax) as Hl. fold h in Hl.
  split_and!.
  - destruct Hs. split; [by eapply Budget.Reserve_consistent|by eapply Budget.Reserve_wf].
  - apply Budget.Reserve_cases in E as [[-> _]|(Hi & _ & _ & _ & _ & ->)]; [done|].
    apply regular_insert; [done| |].
    + intros _. cbn. lia.
    + intros Hcl. cbn in *. by apply (Hr _).
  - intros job. destruct (Budget.Reserve_total _ _ _ _ _ _ _ job E) as [->|(_ & ->)]; [apply Ht|].
    unfold Budget.delta. specialize (Ht job). case_bool_decide as Hj; [|lia]. subst job. cbn. cbn in Hcap. lia.
Qed.

Lemma totals_nonneg job clk l :
  0 ≤ Budget.job_total job l ∧ 0 ≤ Budget.day_total clk job l.
Proof.
  assert (Hc : ∀ e, 0 ≤ Budget.counts e).
  { intros e. unfold Budget.counts. destruct (Budget.reserved e); [|done]. cbn.
    destruct (0 <? Budget.amount e) eqn:E; bool_to_prop; lia. }
  split; apply msum_nonneg; intros k e _.
  - unfold Budget.job_part. case_bool_decide; [apply Hc|lia].
  - unfold Budget.day_part. destruct (_ && _); [apply Hc|lia].
Qed.

(** The figure the policy engine reads, and what a non-denial says of it. *)
Lemma spend_exact now job l :
  Budget.wf_ledger l →
  Budget.Spend now job l =
  MkSpendState (Budget.saturate (Budget.job_total job l)) (Budget.saturate (Budget.day_total now job l)).
Proof. intros Hw. unfold Budget.Spend. by apply Budget.spend_closed_form. Qed.
Lemma permitted_job_room now version in_ l :
  Budget.wf_ledger l →
  d_Outcome (Evaluate cfg (Budget.Spend now (i_JobID in_) l) (payment_of version in_)) ≠ Deny →
  0 < i_AmountMicros in_ ≤ maxIntentMicros ∧
  Budget.job_total (i_JobID in_) l + i_AmountMicros in_ ≤ JobBudgetMicros cfg.
Proof.
  intros Hw Hne. destruct (totals_nonneg (i_JobID in_) now l).
  rewrite spend_exact in Hne by done. rewrite evaluate_verdict in Hne; [|done|].
  2: { split; cbn; unfold Budget.saturate, int64_range, min_int64, max_int64; lia. }
  destruct (decide (permitted _ _ _)) as [Hperm|]; [|done]. destruct Hperm as (_ & Ham & _ & _ & _ & Hjob & _).
  cbn [JobCommittedMicros p_AmountMicros payment_of] in *. split; [done|].
  destruct Hcfg as [[_ Hmax] _]. unfold Budget.saturate in Hjob. lia.
Qed.

Lemma keeps_intake now version in_ : intent_ok in_ → keeps (intake keccak256 now cfg version in_).
Proof.
  intros Hok w Hw. unfold intake. unfold bindM at 1, getM. cbv zeta.
  set (d := Evaluate cfg _ _).
  assert (Hd : d_Outcome d ≠ Deny → 0 < i_AmountMicros in_ ≤ maxIntentMicros ∧
     Budget.job_total (i_JobID in_) (dm_ledger (ext w)) + i_AmountMicros in_ ≤ JobBudgetMicros cfg).
  { apply permitted_job_room. apply (proj1 Hw). }
  unfold bindM at 1. destruct (appendEvent _ _ _ _ w) as [w1 r1] eqn:E1.
  assert (Hw1 : money w1).
  { change w1 with (w1, r1).1. rewrite <-E1. apply keeps_append; [|done]. left.
    by apply (bool_decide_eq_false_1 _). }
  apply appendEvent_cases in E1 as (s1 & -> & _). destruct r1 as [u|e]; [|exact Hw1].
  destruct (bool_decide (d_Outcome d = Deny)) eqn:Eo; [exact Hw1|]. bool_to_prop. destruct (Hd Eo) as [Ham Hroom].
  set (auto := bool_decide (d_Outcome d = AutoApprove)) in *.
  unfold bindM at 1, reserveM.
  destruct (hook_Reserve _ _ _ _ _) as [[s2 e2] ok] eqn:E2. cbn in E2.
  destruct Hw1 as [Hc1 Hp1]. cbn [st ext with_st] in *.
  destruct (reserve_capped _ _ _ auto _ _ _ _ _ Hok Hc1 eq_refl ltac:(lia) ltac:(unfold maxIntentMicros, max_int64 in *; lia) E2)
    as [Hc2 Hp2].
  assert (Hw2 : money (with_ext e2 (with_st s2 (with_st s1 w)))) by (split; [exact Hc2|cbn; congruence]).
  destruct ok; [|exact Hw2]. revert Hw2. generalize (with_ext e2 (with_st s2 (with_st s1 w))).
  intros w2 Hw2. match goal with |- money (?m w2).1 => assert (Hk : keeps m); [|exact (Hk w2 Hw2)] end.
  keeps_tac.
Qed.

Lemma keeps_Submit now in0 w :
  intent_ok (set_PolicyVersion (dm_version (ext w)) in0) → money w →
  money (Submit keccak256 now in0 w).1.
Proof.
  intros Hok Hw. unfold Submit. unfold bindM at 1, getM. cbn [hook_Policy daemon_hooks].
  destruct (frozenErr in0 w); [exact Hw|]. cbv iota beta.
  rewrite (proj2 Hw). match goal with |- money (?m w).1 => assert (Hk : keeps m); [|exact (Hk w Hw)] end.
  keeps_tac; [apply keeps_get|by apply keeps_intake].
Qed.

(** ** The money path as a whole *)
(** One step of the daemon: the lifecycle's operations, phase by phase for an
    execution; a ledger call other than the intake's reservation (the executor's
    commit, a release, a sweep, the reconciler); a row of another component; a
    change of anything the ledger and the log do not depend on; and a restart,
    which keeps the database and replays both ledger and lifecycle. *)
Inductive sysstep : World Daemon → World Daemon → Prop :=
| s_Submit now in0 w :
    intent_ok (set_PolicyVersion (dm_version (ext w)) in0) → sysstep w (Submit keccak256 now in0 w).1
| s_SubmitAdvance now in0 w : sysstep w (SubmitAdvance keccak256 now in0 w).1
| s_Decide now id kind by_ reason w : sysstep w (Decide now id kind by_ reason w).1
| s_Admit now in_ id w : sysstep w (execute_admit keccak256 now in_ id w).1
| s_Claim now x w : sysstep w (execute_claim now x w).1
| s_Finish now x failure w : sysstep w (execute_finish now x failure w).1
| s_Ledger op w :
    op_ok (dm_ledger (ext w)) op →
    sysstep w (ledgerM (λ s l, (Budget.lstep op s l, tt)) w).1
| s_Other w w' :
    db (st w') = db (st w) → ext w' = ext w → sysstep w w'
| s_Reboot s0 fz0 w w' l' e :
    Budget.lstep Budget.LRestart (st w) (dm_ledger (ext w)) = (s0, l') →
    Recover (MkWorld s0 ∅ fz0 (with_ledger l' (ext w)) [] []) = (w', e) →
    sysstep w w'.

Lemma money_Recover w w' e : money w → Recover w = (w', e) → money w'.
Proof.
  intros [(Hs & Hr & Ht) Hp] Hx.
  assert (Hext : ext w' = ext w).
  { unfold Recover, bindM, storeM in Hx. destruct (QueryEvents _ _) as [s' [rows|q]].
    - cbn in Hx. destruct (recover_rows _ _). by simplify_eq.
    - by simplify_eq. }
  apply Recover_cases in Hx as (Hd & _). unfold money. rewrite Hext. split; [|done].
  split_and!; [|done|done]. apply (sound_same_log _ _ _ Hs). by rewrite Hd.
Qed.

Lemma money_step w w' : sysstep w w' → money w → money w'.
Proof.
  intros Hs Hw. destruct Hs as [now in0 w Hok|now in0 w|now id kind by_ reason w|now in_ id w
    |now x w|now x failure w|op w Hop|w w' Hd He|s0 fz0 w w' l' e Hl HR].
  - by apply keeps_Submit.
  - by apply keeps_SubmitAdvance.
  - by apply keeps_Decide.
  - by apply keeps_admit.
  - by apply keeps_claim.
  - by apply keeps_finish.
  - destruct Hw as [Hc Hp]. unfold ledgerM. pose proof (capped_lstep B op _ _ HB Hop Hc) as Hc'.
    destruct (Budget.lstep _ _ _) as [s' l']. exact (conj Hc' Hp).
  - destruct Hw as [(Hs & Hr & Ht) Hp]. unfold money. rewrite He. split; [|done].
    split_and!; [|done|done]. apply (sound_same_log _ _ _ Hs). by rewrite Hd.
  - eapply money_Recover; [|exact HR]. destruct Hw as [Hc Hp].
    pose proof (capped_lstep B Budget.LRestart _ _ HB (conj I I) Hc) as Hc'. rewrite Hl in Hc'.
    exact (conj Hc' Hp).
Qed.

(** The daemon before its first request: nothing reserved, nothing logged. *)
Definition pristine (w : World Daemon) : Prop :=
  events (db (st w)) = [] ∧ dm_ledger (ext w) = Budget.New ∧ dm_policy (ext w) = cfg.
Lemma money_reachable w w' : rtc sysstep w w' → money w → money w'.
Proof. induction 1 as [|w w1 w' Hs _ IH]; [done|]. intros Hw. apply IH. by eapply money_step. Qed.
Lemma pristine_money w : pristine w → money w.
Proof.
  intros (He & Hl & Hp). split; [|done]. rewrite Hl. split_and!.
  - split; [|apply Budget.wf_New]. exists []. unfold Budget.claim_rows, Budget.ledger_rows. by rewrite He.
  - intros id. by destruct (Budget.slot _ id) eqn:E; injection E as <- <- <- <- <-.
  - intros j. change (0 ≤ B). done.
Qed.
End Money.


(** ** The sweeper against an execution *)
(** The expiry the ledger keeps is the request's, to the second. *)
Definition expiry_linked (id : string) (req : Request) (w : World Daemon) : Prop :=
  Budget.h_ExpiresAt (Budget.hold (Budget.slot (Budget.entries (dm_ledger (ext w))) id)) =
  time_Unix (UnixSec (r_ExpiresAt req)).
Definition whole_second (t : time) : Prop := time_Unix (UnixSec t) = t.

Lemma sweepable_before now e : Budget.sweepable now e = true → Budget.h_ExpiresAt (Budget.hold e) ≤ now.
Proof. unfold Budget.sweepable, Before. intros. bool_to_prop. lia. Qed.

Lemma sweep_tick_closes now clk w w' k oe ids id :
  Budget.wf_ledger (dm_ledger (ext w)) → Budget.claim_ids (Budget.claim_rows (db (st w))) = Some ids →
  sweep_tick now clk w = (w', (k, oe)) →
  requests w' = requests w ∧
  ((Budget.closedBy (Budget.slot (Budget.entries (dm_ledger (ext w'))) id) =
    Budget.closedBy (Budget.slot (Budget.entries (dm_ledger (ext w))) id)) ∨
   executionClaimed w id = false ∧ (id ∉ ids) ∧
   Budget.h_ExpiresAt (Budget.hold (Budget.slot (Budget.entries (dm_ledger (ext w))) id)) ≤ now).
Proof.
  intros Hw Hi Hx. unfold sweep_tick, ledgerM in Hx.
  destruct (Budget.Sweep _ _ _ _ _) as [[s l] [k0 oe0]] eqn:E. simplify_eq. split; [done|].
  cbn [ext with_ext dm_ledger with_ledger].
  destruct (Budget.Sweep_result _ _ _ _ _ _ _ _ _ _ Hw Hi E) as (rel & _ & Hsub & _ & Hslot).
  destruct (Hslot id) as (_ & _ & _ & Hcl). rewrite Hcl. case_bool_decide as Hin; [right|by left].
  specialize (Hsub id Hin). cbv zeta in Hsub. unfold Budget.unhooked in Hsub.
  rewrite !andb_true_iff in Hsub. destruct Hsub as [[Hs Hn] Hh].
  split_and!; [by destruct (executionClaimed w id)| |by apply sweepable_before].
  by destruct (bool_decide (id ∈ ids)) eqn:Eb; bool_to_prop.
Qed.

(** C8: a sweep and an execution exclude each other, at whole seconds.  When the
    request's expiry is a whole second, a hold the sweep closes belongs to a
    request no execution has claimed, in memory or in the log, and no execution
    of that request is admitted at that instant or later, in whatever state the
    daemon is by then. *)
Theorem sweep_excludes_execution now clk w w' k oe ids id req :
  Budget.wf_ledger (dm_ledger (ext w)) → Budget.claim_ids (Budget.claim_rows (db (st w))) = Some ids →
  requests w !! id = Some req → expiry_linked id req w → whole_second (r_ExpiresAt req) →
  sweep_tick now clk w = (w', (k, oe)) →
  Budget.closedBy (Budget.slot (Budget.entries (dm_ledger (ext w'))) id) ≠
  Budget.closedBy (Budget.slot (Budget.entries (dm_ledger (ext w))) id) →
  (r_Executed req = false ∧ id ∉ ids) ∧
  ∀ now' w2 req2 in_ x, now ≤ now' → (requests w2 !! id = Some req2) →
    r_ExpiresAt req2 = r_ExpiresAt req →
    (execute_admit keccak256 now' in_ id w2).2 ≠ Ok x.
Proof.
  intros Hw Hi Hr Hl Hws Hx Hcl.
  destruct (sweep_tick_closes _ _ _ _ _ _ _ id Hw Hi Hx) as (_ & [He|(Hc & Hn & Hle)]); [done|].
  unfold executionClaimed, Snapshot in Hc. rewrite Hr in Hc. split; [by split|].
  intros now' w2 req2 in_ x Hnow Hr2 Hexp Hok. rewrite Hl, Hws in Hle.
  destruct (execute_admit keccak256 now' in_ id w2) as [w3 r] eqn:E. cbn in Hok. subst r.
  apply execute_admit_cases in E as (_ & _ & _ & [([? ?] & _)|(req3 & h & Hr3 & Hex & _)]); [done|].
  destruct Hex as (_ & _ & _ & Hlt & _). simplify_eq. lia.
Qed.
End Hooks.

(** ** A concrete daemon *)
Definition sample_keccak (s : string) : string :=
  "0x1111111111111111111111111111111111111111111111111111111111111111".
Lemma sample_keccak_ascii s : sall acc1 (sample_keccak s) = true.
Proof. reflexivity. Qed.
Definition fresh_daemon : World Daemon :=
  MkWorld (MkStore emptyDB []) ∅ None (MkDaemon Budget.New DemoPolicy "pol_7") [] [].
Definition sample_purchase (expiry : time) : Intent :=
  MkIntent "pi_1" "org" "job_1" "" "dd-worker" KindPayment DemoMerchantProfile "GET /v1/x" 40000
    "profile" "0xabc" "pol_7" expiry "" "" "0xusdc" "eip155:5042002"
    40000 "0xPayee" "https://api.example/v1/x".
Definition submitted (expiry : time) : World Daemon :=
  (Submit (H := daemon_hooks sample_keccak) sample_keccak (10 * Second) (sample_purchase expiry) fresh_daemon).1.

Definition sample_id : string := "apr_111111111111".

Lemma sample_step expiry :
  intent_ok (sample_purchase expiry) → rtc (sysstep sample_keccak) fresh_daemon (submitted expiry).
Proof. intros Hok. apply rtc_once. by apply (s_Submit sample_keccak _ (sample_purchase expiry)). Qed.

Definition swept_daemon (expiry now : time) : World Daemon * (nat * option Budget.BudgetErr) :=
  sweep_tick now now (submitted expiry).
Lemma submitted_wf expiry :
  intent_ok (sample_purchase expiry) → Budget.wf_ledger (dm_ledger (ext (submitted expiry))).
Proof.
  intros Hok. assert (Hm : money (JobBudgetMicros DemoPolicy) DemoPolicy (submitted expiry)); [|apply Hm].
  assert (Hb : 0 ≤ JobBudgetMicros DemoPolicy) by (cbn; lia).
  assert (Hc : config_int64 DemoPolicy) by (vm_compute; intuition discriminate).
  refine (keeps_Submit sample_keccak _ DemoPolicy sample_keccak_ascii (Z.le_refl _) Hc
    (10 * Second) (sample_purchase expiry) fresh_daemon Hok _).
  apply pristine_money; [exact Hb|]. repeat split; vm_compute; reflexivity.
Qed.
Lemma sweep_excludes_execution_witness :
  (swept_daemon (100 * Second) (100 * Second)).2 = (1%nat, None) ∧
  ∀ now' in_ x, 100 * Second ≤ now' →
    (execute_admit (H := daemon_hooks sample_keccak) sample_keccak now' in_ sample_id
       (swept_daemon (100 * Second) (100 * Second)).1).2 ≠ Ok x.
Proof.
  split; [vm_compute; reflexivity|]. intros now' in_ x Hnow.
  set (req := new_request sample_keccak (10 * Second) true (sample_purchase (100 * Second))).
  destruct (sweep_excludes_execution sample_keccak (100 * Second) (100 * Second)
    (submitted (100 * Second)) (swept_daemon (100 * Second) (100 * Second)).1 1 None [] sample_id req)
    as [_ Hno].
  - apply submitted_wf. by vm_compute.
  - vm_compute; reflexivity.
  - vm_compute; reflexivity.
  - vm_compute; reflexivity.
  - vm_compute; reflexivity.
  - vm_compute; reflexivity.
  - vm_compute; discriminate.
  - apply (Hno now' _ req); [exact Hnow|vm_compute; reflexivity|reflexivity].
Defined.

(** ** The lost half second *)
Definition half_past (s : Z) : time := s * Second + 500 * Millisecond.
Definition after_sweep : World Daemon :=
  (swept_daemon (half_past 100) (100 * Second + 200 * Millisecond)).1.
Definition late_claim : World Daemon * result ApErr Exec :=
  (x <-- execute_admit (H := daemon_hooks sample_keccak) sample_keccak
     (100 * Second + 300 * Millisecond) (sample_purchase (half_past 100)) sample_id ;;
   execute_claim (100 * Second + 300 * Millisecond) x) after_sweep.
Definition late_commit : Store * Budget.Ledger * option Budget.BudgetErr :=
  Budget.Commit (101 * Second) sample_id 40000 "pay_1" "0x1" "DELIVERED"
    (st late_claim.1) (dm_ledger (ext late_claim.1)).

(** Whole seconds are needed: the lost half second.  The ledger keeps the
    expiry cut to the second while the lifecycle compares it to the nanosecond.
    A purchase expiring at 100.5 s is approved; a sweep at 100.2 s releases its
    hold; at 100.3 s its execution is admitted and claimed durably and its
    executor runs; the payment then cannot be committed against the budget,
    where the job counts as having spent nothing. *)
Lemma subsecond_release_then_pay :
  (swept_daemon (half_past 100) (100 * Second + 200 * Millisecond)).2 = (1%nat, None) ∧
  (∃ x, late_claim.2 = Ok x ∧ x_Phase x = Running ∧ x ∈ inflight late_claim.1) ∧
  late_commit.2 = Some Budget.ErrCommitAfterRelease ∧
  Budget.job_total "job_1" late_commit.1.2 = 0.
Proof.
  split; [vm_compute; reflexivity|]. split; [|split; vm_compute; reflexivity].
  eexists. split; [vm_compute; reflexivity|]. split; [reflexivity|].
  assert (Hi : inflight late_claim.1 = [match late_claim.2 with Ok x => x | Err _ => MkExec "" "" "" zeroGrant None Gated end])
    by (vm_compute; reflexivity).
  rewrite Hi. apply list_elem_of_singleton. vm_compute. reflexivity.
Qed.
