(* ===== verification/Reconcile.v ===== *)
(** [cmd/snapfall/main.go], [reconcileUnresolved]: recovery of claimed holds.

    For every hold with an execution claim the daemon asks the sidecar what
    became of the payment, and closes the hold only on an answer that proves
    it.  The poller is the model's parameter, with a state of its own. *)
From Stdlib Require Import Ascii String.
From S2P Require Import Prelude GoStr GoTime GoJson Intent Store H3 Budget.
#[local] Open Scope Z_scope.
#[local] Open Scope snap_scope.

Section Reconcile.
Context (keccak256 : string → string).
(** Go's [%q] rendering of the sidecar's reason; only the release record's
    free text depends on it. *)
Context (quote_q : string → string).
Context {Q : Type} (poll : string → M Q GoErr StatusResult).

Definition receiptHashOf (res : StatusResult) : string :=
  match s_Receipt res with
  | Some r => if bool_decide (rc_AuthNonce r ≠ "") then rc_AuthNonce r
              else if bool_decide (s_IntentHash res ≠ "") then AuthNonce keccak256 (s_IntentHash res)
              else ""
  | None => if bool_decide (s_IntentHash res ≠ "") then AuthNonce keccak256 (s_IntentHash res) else ""
  end.

Definition unsigned_reason : string :=
  "the sidecar holds no record of this payment, so nothing was ever signed (its pre-sign checks run before the write-ahead record)".
Definition not_settled_reason (res : StatusResult) : string :=
  "the sidecar's durable record reports " +:+ s_State res +:+ ", so nothing settled (reason: " +:+
  quote_q (s_Reason res) +:+ ")".

(** One hold: the new state, and the state it is still open in, if it is. *)
Definition reconcile_hold (clk : time) (h : Hold) (s : Store) (l : Ledger) (q : Q) :
    Store * Ledger * Q * option string :=
  let id := h_RequestID h in
  match poll (h_PaymentID h) q with
  | (q1, Err (H3Err he)) =>
    if bool_decide (he_Code he = CodePaymentNotFound) then
      let '(s1, l1, r) := Release clk id unsigned_reason (he_Code he) true s l in
      (s1, l1, q1, match r with Some _ => Some "" | None => None end)
    else (s, l, q1, Some "")
  | (q1, Err Plain) => (s, l, q1, Some "")
  | (q1, Ok res) =>
    if Committed (s_State res) then
      match ParseAtomicMicros (s_AmountPaid res) with
      | Err _ => (s, l, q1, Some (s_State res))
      | Ok paid =>
        let '(s1, l1, r) := Commit clk id paid (h_PaymentID h) (receiptHashOf res) (s_State res) s l in
        (s1, l1, q1, match r with Some _ => Some (s_State res) | None => None end)
      end
    else if H3.Unresolved (s_State res) then (s, l, q1, Some (s_State res))
    else if bool_decide (s_State res = StateFailed) || bool_decide (s_State res = StateExpired) then
      let '(s1, l1, r) := Release clk id (not_settled_reason res) (s_State res) false s l in
      (s1, l1, q1, match r with Some _ => Some (s_State res) | None => None end)
    else
      let state := if bool_decide (s_State res = "") then "UNKNOWN" else s_State res in
      let '(s1, l1, _) := NoteReconcileStalled clk h state s l in
      (s1, l1, q1, Some (s_State res))
  end.
Fixpoint reconcile_holds (clk : time) (holds : list Hold) (open_ : gmap string string)
    (s : Store) (l : Ledger) (q : Q) : Store * Ledger * Q * gmap string string :=
  match holds with
  | [] => (s, l, q, open_)
  | h :: holds =>
    let '(s1, l1, q1, o) := reconcile_hold clk h s l q in
    reconcile_holds clk holds (match o with Some st => <[ h_RequestID h := st ]> open_ | None => open_ end)
      s1 l1 q1
  end.
(** [wired]: a poller is wired. *)
Definition reconcileUnresolved (wired : bool) (clk : time) (s : Store) (l : Ledger) (q : Q) :
    Store * Ledger * Q * gmap string string :=
  let holds := Unresolved l in
  if wired then reconcile_holds clk holds ∅ s l q
  else (s, l, q, foldl (λ m h, <[ h_RequestID h := "" ]> m) ∅ holds).

(** ** What proves a closing *)
(** The answers that license closing a hold, and the closed entry each gives. *)
Definition proves (res : result GoErr StatusResult) (e e' : entry) : Prop :=
  (∃ r paid, res = Ok r ∧ (s_State r = StateDelivered ∨ s_State r = StateSettled) ∧
     ParseAtomicMicros (s_AmountPaid r) = Ok paid ∧ e' = set_committed paid e) ∨
  ((∃ he, res = Err (H3Err he) ∧ he_Code he = CodePaymentNotFound) ∨
   (∃ r, res = Ok r ∧ (s_State r = StateFailed ∨ s_State r = StateExpired))) ∧ e' = set_released e.

Lemma Commit_none clk id paid pid rh st s l s' l' :
  Commit clk id paid pid rh st s l = (s', l', None) →
  closedBy (slot (entries l') id) = KindCommitted.
Proof.
  unfold Commit. destruct (_ || _); [done|]. destruct (negb _); [done|].
  case_bool_decide; [intros; by simplify_eq|]. case_bool_decide; [done|].
  destruct (Append _ _ _) as [s1 [z|e]]; [|done]. intros. simplify_eq. cbn. by rewrite slot_insert.
Qed.
Lemma Release_none clk id re code pre s l s' l' :
  Release clk id re code pre s l = (s', l', None) →
  closedBy (slot (entries l') id) ≠ "".
Proof.
  intros Hx. apply Release_cases in Hx as [(-> & _ & Hc)|(_ & _ & _ & _ & _ & ->)]; [by apply Hc|].
  cbn. by rewrite slot_insert.
Qed.
Lemma Commit_some_same clk id paid pid rh st s l s' l' e :
  Commit clk id paid pid rh st s l = (s', l', Some e) → l' = l.
Proof. intros Hx. by apply Commit_cases in Hx as [[-> _]|(_ & _ & _ & _ & _ & ? & _)]. Qed.
Lemma Release_some_same clk id re code pre s l s' l' e :
  Release clk id re code pre s l = (s', l', Some e) → l' = l.
Proof. intros Hx. by apply Release_cases in Hx as [(-> & _)|(_ & _ & _ & ? & _)]. Qed.

Lemma reconcile_hold_cases clk h s l q s' l' q' o :
  is_open (slot (entries l) (h_RequestID h)) = true →
  reconcile_hold clk h s l q = (s', l', q', o) →
  ∃ res, poll (h_PaymentID h) q = (q', res) ∧
  ((∃ st, o = Some st) ∧ entries l' = entries l ∨
   o = None ∧ ∃ e', proves res (slot (entries l) (h_RequestID h)) e' ∧
     entries l' = <[ h_RequestID h := e' ]> (entries l)).
Proof.
  intros Ho Hx. unfold is_open in Ho. rewrite andb_true_iff in Ho.
  destruct Ho as [Hre Hcl]. apply bool_decide_eq_true_1 in Hcl.
  unfold reconcile_hold in Hx. destruct (poll _ q) as [q1 res] eqn:Ep.
  assert (Hq : q' = q1).
  { repeat case_match; by simplify_eq. }
  subst q1. exists res. split; [done|].
  destruct res as [res|[he|]]; [|case_bool_decide as Hc|by simplify_eq; left; eauto].
  - destruct (Committed (s_State res)) eqn:Ec.
    + destruct (ParseAtomicMicros _) as [paid|] eqn:Epaid; [|simplify_eq; left; eauto].
      destruct (Budget.Commit _ _ _ _ _ _ _ _) as [[s1 l1] [e|]] eqn:E; simplify_eq.
      * left. split; [eauto|]. by rewrite (Commit_some_same _ _ _ _ _ _ _ _ _ _ _ E).
      * right. split; [done|]. pose proof (Commit_none _ _ _ _ _ _ _ _ _ _ E) as Hcc.
        apply Commit_cases in E as [[-> _]|(_ & _ & _ & _ & _ & _ & _ & ->)]; [by rewrite Hcl in Hcc|].
        eexists. split; [|done]. left. exists res, paid. unfold Committed in Ec. split_and!; try done.
        rewrite orb_true_iff in Ec. destruct Ec as [Ec|Ec]; apply bool_decide_eq_true_1 in Ec; auto.
    + destruct (H3.Unresolved _); [simplify_eq; left; eauto|].
      destruct (bool_decide (s_State res = StateFailed) || bool_decide (s_State res = StateExpired)) eqn:Ef.
      * destruct (Release _ _ _ _ _ _ _) as [[s1 l1] [e|]] eqn:E; simplify_eq.
        -- left. split; [eauto|]. by rewrite (Release_some_same _ _ _ _ _ _ _ _ _ _ E).
        -- right. split; [done|].
           apply Release_cases in E as [(-> & _ & Hx)|(_ & _ & _ & _ & _ & ->)]; [by destruct (Hx eq_refl)|].
           eexists. split; [|done]. right. split; [|done]. right. exists res. split; [done|].
           apply orb_true_iff in Ef as [Ef|Ef]; bool_to_prop; auto.
      * destruct (NoteReconcileStalled _ _ _ _ _) as [[s1 l1] r] eqn:E. simplify_eq. left.
        split; [eauto|]. by apply Note_cases in E as (He & _ & _).
  - destruct (Release _ _ _ _ _ _ _) as [[s1 l1] [e|]] eqn:E; simplify_eq.
    + left. split; [eauto|]. by rewrite (Release_some_same _ _ _ _ _ _ _ _ _ _ E).
    + right. split; [done|].
      apply Release_cases in E as [(-> & _ & Hx)|(_ & _ & _ & _ & _ & ->)]; [by destruct (Hx eq_refl)|].
      eexists. split; [|done]. right. split; [|done]. left. eauto.
  - simplify_eq. left. eauto.
Qed.

Lemma proves_closes res e e' : proves res e e' → closedBy e' ≠ "".
Proof. intros [(? & ? & _ & _ & _ & ->)|[_ ->]]; done. Qed.

Lemma reconcile_holds_spec clk holds open_ s l q s' l' q' m :
  NoDup (h_RequestID <$> holds) →
  (∀ h, h ∈ holds → is_open (slot (entries l) (h_RequestID h)) = true) →
  reconcile_holds clk holds open_ s l q = (s', l', q', m) →
  (∀ id, id ∉ (h_RequestID <$> holds) →
     slot (entries l') id = slot (entries l) id ∧ m !! id = open_ !! id) ∧
  (∀ h, h ∈ holds → let id := h_RequestID h in
     slot (entries l') id = slot (entries l) id ∧ is_Some (m !! id) ∨
     m !! id = open_ !! id ∧ ∃ q0 q1 res, poll (h_PaymentID h) q0 = (q1, res) ∧
       proves res (slot (entries l) id) (slot (entries l') id)).
Proof.
  revert open_ s l q. induction holds as [|h holds IH]; intros open_ s l q Hn Ho Hx.
  { cbn in Hx. simplify_eq. split; [done|]. intros h Hh. by apply elem_of_nil in Hh. }
  cbn [fmap list_fmap] in Hn. apply NoDup_cons in Hn as [Hni Hn]. cbn [reconcile_holds] in Hx.
  destruct (reconcile_hold _ _ _ _ _) as [[[s1 l1] q1] o] eqn:E.
  apply reconcile_hold_cases in E as (res & Hp & Hc); [|apply Ho; by left].
  assert (Hne : ∀ id, id ≠ h_RequestID h → slot (entries l1) id = slot (entries l) id).
  { intros id Hid. destruct Hc as [[_ ->]|(_ & e' & _ & ->)]; [done|]. by apply slot_insert_ne. }
  apply IH in Hx as [Hout Hin]; [|done|].
  2: { intros g Hg. rewrite Hne; [apply Ho; by right|]. intros He. apply Hni. rewrite <-He.
       apply list_elem_of_fmap. eauto. }
  set (open1 := match o with Some st => <[ h_RequestID h := st ]> open_ | None => open_ end) in *.
  assert (Hopen : ∀ id, id ≠ h_RequestID h → open1 !! id = open_ !! id).
  { intros id Hid. subst open1. destruct o; [by rewrite lookup_insert_ne|done]. }
  split.
  - intros id Hid. cbn [fmap list_fmap] in Hid. apply not_elem_of_cons in Hid as [Hid1 Hid2].
    destruct (Hout id Hid2) as [-> ->]. by rewrite Hne, Hopen.
  - intros g Hg. cbv zeta. apply elem_of_cons in Hg as [-> | Hg].
    + destruct (Hout _ Hni) as [-> ->]. destruct Hc as [[[st ->] ->]|(-> & e' & Hpr & ->)].
      * left. split; [done|]. subst open1. rewrite lookup_insert_eq. eauto.
      * right. split; [done|]. exists q, q1, res. by rewrite slot_insert.
    + assert (Hgh : h_RequestID g ≠ h_RequestID h).
      { intros He. apply Hni. rewrite <-He. apply list_elem_of_fmap. eauto. }
      destruct (Hin g Hg) as [[H1 H2]|[H1 H2]]; cbv zeta in H1, H2; rewrite ?Hne, ?Hopen in * by done; [left|right]; done.
Qed.

(** Every entry is filed under its hold's request id. *)
Definition filed (l : Ledger) : Prop := ∀ id, let e := slot (entries l) id in
  reserved e = true → h_RequestID (hold e) = id.

Lemma elem_of_Unresolved l h :
  h ∈ Unresolved l ↔ ∃ id e, entries l !! id = Some e ∧ is_open e = true ∧ claimed e = true ∧ h = hold e.
Proof.
  unfold Unresolved, claimedOpen. rewrite elem_of_isort, list_elem_of_fmap. split.
  - intros ([id e] & -> & Hx). apply list_elem_of_filter in Hx as [Hx He].
    apply elem_of_map_to_list in He. cbn in Hx. rewrite !andb_true_iff in Hx. exists id, e. tauto.
  - intros (id & e & He & Ho & Hc & ->). exists (id, e). split; [done|].
    apply list_elem_of_filter. split; [|by apply elem_of_map_to_list]. cbn. by rewrite Ho, Hc.
Qed.
Lemma slot_lookup_some m id e : m !! id = Some e → slot m id = e.
Proof. unfold slot. by intros ->. Qed.
Lemma slot_open_some m id : is_open (slot m id) = true → m !! id = Some (slot m id).
Proof. unfold slot. by destruct (m !! id). Qed.

Lemma Unresolved_NoDup l : filed l → NoDup (h_RequestID <$> Unresolved l).
Proof.
  intros Hf. unfold Unresolved, claimedOpen. rewrite isort_perm, <-list_fmap_compose.
  rewrite (list_fmap_ext _ fst).
  - eapply sublist_NoDup; [apply (NoDup_fst_map_to_list (entries l))|]. apply fmap_sublist, sublist_filter.
  - intros i [id e] Hi. apply list_elem_of_lookup_2, list_elem_of_filter in Hi as [Hx He].
    apply elem_of_map_to_list in He. cbn in *. rewrite !andb_true_iff in Hx. destruct Hx as [[Ho _] _].
    unfold is_open in Ho. rewrite andb_true_iff in Ho. destruct Ho as [Hr _].
    specialize (Hf id). cbv zeta in Hf. rewrite (slot_lookup_some _ _ _ He) in Hf. by apply Hf.
Qed.

(** The whole pass, entry by entry. *)
Lemma reconcileUnresolved_spec wired clk s l q s' l' q' m :
  filed l → reconcileUnresolved wired clk s l q = (s', l', q', m) →
  ∀ id, let e := slot (entries l) id in let e' := slot (entries l') id in
    e' = e ∧ (is_open e && claimed e = true → is_Some (m !! id)) ∨
    wired = true ∧ is_open e = true ∧ claimed e = true ∧ closedBy e' ≠ "" ∧ m !! id = None ∧
    ∃ q0 q1 res, poll (h_PaymentID (hold e)) q0 = (q1, res) ∧ proves res e e'.
Proof.
  intros Hf Hx id e e'. unfold reconcileUnresolved in Hx.
  assert (Hin : is_open e && claimed e = true → hold e ∈ Unresolved l ∧ h_RequestID (hold e) = id).
  { intros Hoc. rewrite andb_true_iff in Hoc. destruct Hoc as [Ho Hc]. split.
    - apply elem_of_Unresolved. exists id, e. by split_and!; [apply slot_open_some| | |].
    - apply Hf. unfold is_open in Ho. rewrite andb_true_iff in Ho. apply Ho. }
  destruct wired.
  - apply reconcile_holds_spec in Hx as [Hout Hh]; [|by apply Unresolved_NoDup|].
    + destruct (is_open e && claimed e) eqn:Eoc.
      * destruct (Hin eq_refl) as [Hel Hid]. destruct (Hh _ Hel) as [[H1 H2]|[H1 (q0 & q1 & res & Hp & Hpr)]];
          cbv zeta in H1; rewrite Hid in *; [by left|right]. rewrite andb_true_iff in Eoc. destruct Eoc.
        split_and!; try done; [by eapply proves_closes|eauto].
      * left. split; [|done]. apply Hout. intros Hel. apply list_elem_of_fmap in Hel as (h & -> & Hel).
        apply elem_of_Unresolved in Hel as (id' & e0 & He0 & Ho & Hc & ->).
        assert (Hfi : h_RequestID (hold e0) = id').
        { specialize (Hf id'). cbv zeta in Hf. rewrite (slot_lookup_some _ _ _ He0) in Hf. apply Hf.
          unfold is_open in Ho. rewrite andb_true_iff in Ho. apply Ho. }
        subst e. rewrite Hfi, (slot_lookup_some _ _ _ He0), Ho, Hc in Eoc. done.
    + intros h Hel. apply elem_of_Unresolved in Hel as (id' & e0 & He0 & Ho & Hc & ->).
      specialize (Hf id'). cbv zeta in Hf. rewrite (slot_lookup_some _ _ _ He0) in Hf.
      rewrite Hf; [by rewrite (slot_lookup_some _ _ _ He0)|].
      unfold is_open in Ho. rewrite andb_true_iff in Ho. apply Ho.
  - simplify_eq. left. split; [done|]. intros Hoc. destruct (Hin Hoc) as [Hel Hid].
    assert (Hg : ∀ hs (m0 : gmap string string), is_Some (m0 !! id) ∨ hold e ∈ hs →
       is_Some (foldl (λ m h, <[ h_RequestID h := "" ]> m) m0 hs !! id)).
    { intros hs. induction hs as [|h hs IH]; intros m0 [Hs|Hs]; cbn; try done; try by apply elem_of_nil in Hs.
      - apply IH. left. destruct (decide (h_RequestID h = id)) as [-> |]; [rewrite lookup_insert_eq; eauto|].
        by rewrite lookup_insert_ne.
      - apply elem_of_cons in Hs as [<- | Hs]; apply IH; [left|by right].
        rewrite Hid, lookup_insert_eq. eauto. }
    apply Hg. by right.
Qed.

(** C7: the reconciler closes a hold only on proof, and leaves no claimed hold
    unaccounted.  After a pass, every entry is unchanged unless it was an open
    claimed hold for whose payment the sidecar gave a proving answer: delivered
    or settled, and then it is committed at exactly the amount the sidecar
    reports paid; no record, failed or expired, and then it is released.  Every
    open claimed hold that is not closed this way is in the returned report.
    Without a poller nothing is closed and every such hold is reported. *)
Theorem reconcile_only_on_proof wired clk s l q s' l' q' m :
  filed l → reconcileUnresolved wired clk s l q = (s', l', q', m) →
  ∀ id, let e := slot (entries l) id in let e' := slot (entries l') id in
    e' = e ∧ (is_open e && claimed e = true → is_Some (m !! id)) ∨
    wired = true ∧ is_open e = true ∧ claimed e = true ∧ closedBy e' ≠ "" ∧ m !! id = None ∧
    ∃ q0 q1 res, poll (h_PaymentID (hold e)) q0 = (q1, res) ∧ proves res e e'.
Proof. exact (reconcileUnresolved_spec wired clk s l q s' l' q' m). Qed.
End Reconcile.

(** ** The ledger's entries are filed *)
Lemma filed_entry l id e' :
  filed l → (reserved e' = true → h_RequestID (hold e') = id) →
  ∀ jo sn, filed (MkLedger (<[ id := e' ]> (entries l)) jo sn).
Proof.
  intros Hf He jo sn id'. cbn [entries]. destruct (decide (id = id')) as [<-|Hne].
  - by rewrite slot_insert.
  - rewrite slot_insert_ne by done. apply Hf.
Qed.
Lemma filed_mark ids l l' : entries l' = mark_claimed ids (entries l) → filed l → filed l'.
Proof. intros He Hf id. rewrite He, slot_mark. specialize (Hf id). case_bool_decide; done. Qed.
Lemma filed_Release clk id re code pre s l s' l' r :
  filed l → Release clk id re code pre s l = (s', l', r) → filed l'.
Proof.
  intros Hf Hx. apply Release_cases in Hx as [(-> & _)|(_ & _ & _ & _ & _ & ->)]; [done|].
  apply filed_entry; [done|]. apply Hf.
Qed.
Lemma filed_lstep op s l : lop_ok op → sound s l → filed l → filed (lstep op s l).2.
Proof.
  intros Hok Hs Hf. destruct op as [clk h|clk id paid pid rh st0|clk id re code pre|now clk hook|clk h st0
                 |clk j v c d|wall ev|]; try done; cbn [lstep] in *.
  - destruct (Reserve _ _ _ _) as [[s' l'] r] eqn:E. cbn.
    apply Reserve_cases in E as [[-> _]|(_ & _ & _ & _ & _ & ->)]; [done|]. by apply filed_entry.
  - destruct (Budget.Commit _ _ _ _ _ _ _ _) as [[s' l'] r] eqn:E. cbn.
    apply Commit_cases in E as [[-> _]|(_ & _ & _ & _ & _ & _ & _ & ->)]; [done|].
    apply filed_entry; [done|]. apply Hf.
  - destruct (Release _ _ _ _ _ _ _) as [[s' l'] r] eqn:E. by eapply filed_Release.
  - destruct (Sweep _ _ _ _ _) as [[s' l'] r] eqn:E.
    eapply (Sweep_invariant (λ _ l, filed l)); [| |exact Hf|exact E].
    + intros s0 l0 s1 l1 r1 H0 Hx. apply refreshClaims_cases in Hx as (_ & [(-> & _)|(ids & _ & _ & ->)]); [done|].
      by apply (filed_mark ids l0).
    + intros id s0 l0 s1 l1 r1 H0 Hx. by eapply filed_Release.
  - destruct (NoteReconcileStalled _ _ _ _ _) as [[s' l'] r] eqn:E.
    apply Note_cases in E as (He & _ & _). unfold filed. cbn. by rewrite He.
  - unfold NoteChainDivergence. destruct (bool_decide _); [done|]. by destruct (Append _ _ _) as [s1 [z|e]].
  - unfold restart. destruct (Recover s New) as [[s1 l1] [e|]] eqn:E; [done|].
    destruct (Recover_sound _ _ _ _ Hs E) as (_ & _ & _ & ids & _ & He).
    by apply (filed_mark ids l).
Qed.
Lemma filed_lsteps ops s l :
  Forall lop_ok ops → sound s l → filed l → filed (lsteps ops s l).2.
Proof.
  intros Hok. revert s l. induction Hok as [|op ops Ho _ IH]; intros s l Hs Hf; [done|].
  pose proof (sound_lstep op s l Ho Hs) as H1. pose proof (filed_lstep op s l Ho Hs Hf) as H2.
  cbn. destruct (lstep op s l) as [s1 l1]. by apply IH.
Qed.

(** Two claimed holds; the sidecar delivered the first for 3 micros and is busy
    with the second. *)
Definition reconcileHistory : list lop :=
  [ LReserve (1000 * Second) (sampleHold "a" 7); LReserve (1000 * Second) (sampleHold "b" 5);
    LForeign (1500 * Second) (claimEvent "a"); LForeign (1500 * Second) (claimEvent "b");
    LSweep (3000 * Second) (3000 * Second) None ].
Lemma reconcileHistory_ok : Forall lop_ok reconcileHistory.
Proof.
  repeat apply Forall_cons_2; try apply Forall_nil_2; try done; try (by apply sample_loggable);
    (split; [by apply (bool_decide_eq_false_1 _)|]; intros _; by eexists).
Qed.
Definition samplePoll (pid : string) : M nat GoErr StatusResult := λ n,
  (S n, if bool_decide (n = 0%nat)
        then Ok (MkStatusResult pid StateDelivered "" "" "" "3" None "" "" "")
        else Ok (MkStatusResult pid StateReconciling "" "" "" "" None "" "" "")).
Definition reconciled : Store * Ledger * nat * gmap string string :=
  let '(s, l) := lsteps reconcileHistory (MkStore emptyDB []) New in
  reconcileUnresolved id id samplePoll true (4000 * Second) s l O.
Lemma reconcile_only_on_proof_witness :
  let l := (lsteps reconcileHistory (MkStore emptyDB []) New).2 in
  let l' := reconciled.1.1.2 in
  slot (entries l') "a" = set_committed 3 (slot (entries l) "a") ∧
  slot (entries l') "b" = slot (entries l) "b" ∧ is_Some (reconciled.2 !! "b").
Proof.
  cbv zeta. pose proof (filed_lsteps reconcileHistory (MkStore emptyDB []) New reconcileHistory_ok sound_New) as Hf.
  set (l := (lsteps reconcileHistory (MkStore emptyDB []) New).2) in *.
  set (s := (lsteps reconcileHistory (MkStore emptyDB []) New).1).
  assert (Hfl : filed l).
  { apply Hf. intros i e Hx. change (reserved zeroEntry = true) in Hx. discriminate Hx. }
  pose proof (reconcile_only_on_proof id id samplePoll true (4000 * Second) s l O reconciled.1.1.1
    reconciled.1.1.2 reconciled.1.2 reconciled.2 Hfl ltac:(vm_compute; reflexivity)) as Hp.
  split; [vm_compute; reflexivity|].
  destruct (Hp "b") as [[He Hm]|(_ & _ & _ & Hc & _)].
  - split; [exact He|]. apply Hm. vm_compute. reflexivity.
  - exfalso. apply Hc. vm_compute. reflexivity.
Defined.
