(* ===== verification/Purchasing.v ===== *)
(** [internal/purchasing]: one purchase, from the seller's quote to the report.

    The purchaser drives the approval lifecycle, the funding agent and the
    ledger.  [PW] is the daemon's world next to the agent and its remote side
    [S].  The wait for the owner is an environment: [meanwhile] is whatever
    happened to the world while the purchase was blocked, and whether the wait
    ended by cancellation.  The clock is read once per phase.  English prose is
    left out of the reports ([Prose] keeps whether it ends in an audit gap). *)
From Stdlib Require Import Ascii String.
From S2P Require Import Prelude GoStr GoTime GoJson Intent Policy Store H3 Sidecar Approval Funding Wiring.
From S2P Require Budget.
#[local] Open Scope Z_scope.
#[local] Open Scope snap_scope.

Definition kindPendingSettlement : string := "purchase.pending_settlement".
Definition kindDelivered : string := "purchase.delivered".
Definition kindUnresolved : string := "purchase.unresolved".
Definition kindPayeeDivergence : string := "purchase.payee_divergence".
Definition actorPurchaser : string := "purchaser".
Definition codeOwnerDeclined : string := "OWNER_DECLINED".
Definition codeNoPayerWired : string := "NO_PAYER_WIRED".

(** [brain.PurchaseIntent], [worker.PurchaseReceipt], [worker.PurchaseOutcome]. *)
Record PurchaseIntent := MkPurchaseIntent {
  b_JobID : string; b_AgentKind : string; b_Merchant : string; b_Resource : string;
  b_AmountMicros : Z; b_MaxAmountMicros : Z; b_Purpose : string; b_AlternativeTo : string }.
Record PurchaseReceipt := MkPurchaseReceipt {
  pr_Merchant : string; pr_AmountAtomic : string; pr_ReceiptHash : string; pr_PaymentID : string }.
Inductive ReasonText := Verbatim (s : string) | Prose (gap : bool).
Record PurchaseOutcome := MkPurchaseOutcome {
  o_Decision : string; o_Status : string; o_Code : string; o_Reason : ReasonText;
  o_RequestID : string; o_Receipt : option PurchaseReceipt }.

Inductive PurErr :=
| EInterrupted
| ENonce
| EUnknownOutcome
| EUnexpectedState (s : string)
| EApproval (e : ApErr).

Record Purchaser := MkPurchaser {
  pu_fund : bool; pu_led : bool; pu_orgID : string; pu_window : duration }.
(** [pu_fund], [pu_led]: a funding agent, a ledger is wired. *)

Definition nonEmpty (s fallback : string) : string := if bool_decide (s = "") then fallback else s.

(** What the quote makes of an intent: the bound intent, or a refusal's code. *)
Inductive Quoted := Bound (i : Intent) | Refused (code : string).

(** ** The reports *)
Definition settledKnown (out : PaymentOutcome) : bool :=
  po_Submitted out && Committed (po_State out) && (0 <? po_PaidMicros out).
Definition deliveredOutcome (intent : Intent) (reqID : string) (d : Outcome) (out : PaymentOutcome)
    (gap : bool) : PurchaseOutcome :=
  MkPurchaseOutcome (Outcome_string d) "delivered" "" (Prose gap) reqID
    (Some (MkPurchaseReceipt (i_Merchant intent) (FormatInt (po_PaidMicros out))
             (po_ReceiptHash out) (po_PaymentID out))).
Definition refusedOutcome (code : string) : PurchaseOutcome :=
  MkPurchaseOutcome (Outcome_string Deny) "denied" code (Prose false) "" None.
Definition denyOutcome (d : Decision) : PurchaseOutcome :=
  MkPurchaseOutcome (Outcome_string Deny) "denied"
    (match d_Reason d with Some r => Code_string (r_Code r) | None => "" end) (Prose false) "" None.
Definition expiredOutcome : PurchaseOutcome :=
  MkPurchaseOutcome (Outcome_string HumanApprovalRequired) "expired" "approval-expired"
    (Prose false) "" None.
Definition pendingOutcome (d : Outcome) (code : string) (gap : bool) (reqID : string) : PurchaseOutcome :=
  MkPurchaseOutcome (Outcome_string d) "approved-pending-integration" code (Prose gap) reqID None.

(** ** The resource *)
(** [strings.ToUpper] as far as its result can be an ASCII word: of the runes
    beyond ASCII only U+017F and U+0131 have an ASCII upper case. *)
Definition upper1 (c : ascii) : ascii :=
  if (97 <=? byteZ c) && (byteZ c <=? 122) then chrZ (byteZ c - 32) else c.
Definition upper_chunk (k : chunk) : string :=
  match k with
  | Raw1 c => String (upper1 c) ""
  | Raw2 c c1 => if (byteZ c =? 197) && (byteZ c1 =? 191) then "S"
                 else if (byteZ c =? 196) && (byteZ c1 =? 177) then "I" else bytes1 k
  | _ => bytes1 k
  end.
Definition ToUpper (s : string) : string := concat_map upper_chunk (chunks s).
Definition httpMethods : list string := ["GET"; "POST"; "PUT"; "PATCH"; "DELETE"; "HEAD"; "OPTIONS"].
(** The parts before and after the first space. *)
Fixpoint cut_space (s : string) : option (string * string) :=
  match s with
  | "" => None
  | String c r => if bool_decide (c = " "%char) then Some ("", r)
                  else '(a, b) ← cut_space r; Some (String c a, b)
  end.
Definition strip_method (raw : string) : string :=
  match cut_space raw with
  | Some (m, rest) => if bool_decide (m ≠ "") && bool_decide (ToUpper m ∈ httpMethods)
                      then TrimSpace rest else raw
  | None => raw
  end.

Section Purchasing.
Context {S : Type}.
Context (keccak256 : string → string) (hmac_sha256 : string → string → string).
Context (EqualFold : string → string → bool) (urlParse : string → option (string * string)).
(** The message of an [*h3.Error] and of an executor's failure, prose both. *)
Context (h3_message : Error → string) (failure_text : string).
Abbreviation World := (World Daemon).
Abbreviation Fund := (Fund S).
#[local] Existing Instance daemon_hooks.

Definition resolveURL (resource merchant : string) : string :=
  let raw := strip_method (TrimSpace resource) in
  if absolute_http urlParse raw then raw
  else if bool_decide (String.substring 0 1 raw = "/") && bool_decide (merchant ≠ "") &&
          negb (contains_char " "%char merchant || contains_char "/"%char merchant)
  then "https://" +:+ merchant +:+ raw
  else "".

(** ** The quote *)
Definition bind_quote (url : string) (q : Quote) (priced : Z) (in_ : Intent) : Intent :=
  MkIntent (i_IntentID in_) (i_OrgID in_) (i_JobID in_) (i_TaskID in_) (i_AgentID in_) (i_Kind in_)
    (i_Merchant in_) (i_Resource in_) priced (i_Purpose in_) (i_Nonce in_) (i_PolicyVersion in_)
    (i_ExpiresAt in_) (i_ChainRef in_) (i_AlternativeTo in_) (a_Asset (qu_Accept q))
    (a_Network (qu_Accept q)) priced (a_PayTo (qu_Accept q)) url.
Definition quoteIntoIntent (p : Purchaser) (in_ : Intent) (f : Fund) : Fund * Quoted :=
  if negb (pu_fund p) then (f, Bound in_) else
  let url := resolveURL (i_Resource in_) (i_Merchant in_) in
  match Fund_Quote url f with
  | (f, Err _) => (f, Refused "quote-unavailable")
  | (f, Ok q) =>
    let a := qu_Accept q in
    if bool_decide (a_PayTo a = "") then (f, Bound in_)
    else if bool_decide (a_Asset a = "") || bool_decide (a_Network a = "") then (f, Refused "quote-unusable")
    else match ParseAtomicMicros (a_Amount a) with
    | Err _ => (f, Refused "quote-unusable")
    | Ok priced =>
      if priced <=? 0 then (f, Refused "quote-unusable")
      else if (0 <? i_MaxAmountMicros in_) && (i_MaxAmountMicros in_ <? priced)
      then (f, Refused "price-above-requested-cap")
      else (f, Bound (bind_quote url q priced in_))
    end
  end.

(** ** Releasing and settling *)
Definition release (p : Purchaser) (now : time) (requestID reason code : string) (preSign : bool)
    (w : World) : World * option Budget.BudgetErr :=
  if negb (pu_led p) then (w, None) else
  let '(w, r) := ledgerM (Budget.Release now requestID reason code preSign) w in
  (w, match r with Some Budget.ErrNoSuchHold => None | r => r end).
Definition append_purchase (now : time) (kind entity : string) (fields : list (string * jval))
    (w : World) : World * option StoreErr :=
  let '(s, r) := Append now (MkEvent zeroTime kind entity actorPurchaser (JObj fields)) (st w) in
  (with_st s w, match r with Ok _ => None | Err e => Some e end).
Definition is_err {A} (o : option A) : bool := match o with Some _ => true | None => false end.

(** The second part is whether the hold could not be released; the third is the
    executor's error. *)
Definition pendingSettlement (p : Purchaser) (now : time) (g : Grant) (intent : Intent) (w : World) :
    World * bool * option StoreErr :=
  match append_purchase now kindPendingSettlement (g_requestID g)
          [("job_id", JStr (i_JobID intent)); ("merchant", JStr (i_Merchant intent));
           ("amount_micros", JInt (i_AmountMicros intent));
           ("note", JStr "approved; money movement pending F2 sidecar client")] w with
  | (w, Some e) => (w, false, Some e)
  | (w, None) =>
    let '(w, r) := release p now (g_requestID g)
      "no payment lane is wired: the approval was consumed but nothing was sent" codeNoPayerWired true w in
    (w, is_err r, None)
  end.

(** Whether any of the durable records failed. *)
Definition settle (p : Purchaser) (now : time) (g : Grant) (intent : Intent) (out : PaymentOutcome)
    (w : World) : World * bool :=
  if negb (settledKnown out) then
    let '(w, r) := append_purchase now kindUnresolved (i_JobID intent)
      [("request_id", JStr (g_requestID g)); ("job_id", JStr (i_JobID intent));
       ("intent_id", JStr (i_IntentID intent)); ("payment_id", JStr (po_PaymentID out));
       ("state", JStr (po_State out)); ("held_micros", JInt (i_MaxAmountMicros intent));
       ("note", JStr "the payment left the daemon and its outcome is not yet known; the budget hold stands")] w in
    (w, is_err r)
  else
    let '(w, r1) := if pu_led p
      then ledgerM (Budget.Commit now (g_requestID g) (po_PaidMicros out) (po_PaymentID out)
                      (po_ReceiptHash out) (po_State out)) w
      else (w, None) in
    let '(w, r2) := if po_PayeeDiverged out
      then append_purchase now kindPayeeDivergence (i_JobID intent)
        [("request_id", JStr (g_requestID g)); ("job_id", JStr (i_JobID intent));
         ("payment_id", JStr (po_PaymentID out)); ("approved_pay_to", JStr (i_PayTo intent));
         ("receipt_payee", JStr (po_Payee out)); ("amount_micros", JInt (po_PaidMicros out));
         ("receipt_hash", JStr (po_ReceiptHash out))] w
      else (w, None) in
    let '(w, r3) := append_purchase now kindDelivered (i_JobID intent)
      [("request_id", JStr (g_requestID g)); ("job_id", JStr (i_JobID intent));
       ("intent_id", JStr (i_IntentID intent)); ("merchant", JStr (i_Merchant intent));
       ("pay_to", JStr (i_PayTo intent)); ("resource", JStr (i_ResourceURL intent));
       ("amount_micros", JInt (po_PaidMicros out)); ("payment_id", JStr (po_PaymentID out));
       ("receipt_hash", JStr (po_ReceiptHash out)); ("auth_nonce", JStr (po_AuthNonce out));
       ("state", JStr (po_State out)); ("payee", JStr (po_Payee out))] w in
    (w, is_err r1 || is_err r2 || is_err r3).

(** ** The executor and the switch behind it *)
Inductive ExecErr := XFund (e : FErr) | XStore (e : StoreErr).
(** What the closure captures: the agent, [paid], [bookkeeping], and the error
    it returned. *)
Record Captured := MkCaptured {
  cp_fund : Fund; cp_paid : PaymentOutcome; cp_gap : bool; cp_err : option ExecErr }.

Definition executor (p : Purchaser) (now : time) (intent : Intent) (g : Grant) (w : World) (c : Captured) :
    World * Captured * option string :=
  let failed (e : option StoreErr) := match e with Some _ => Some failure_text | None => None end in
  if negb (pu_fund p) then
    let '(w, unreleased, e) := pendingSettlement p now g intent w in
    (w, MkCaptured (cp_fund c) (cp_paid c) unreleased (XStore <$> e), failed e)
  else
  let '(f, (out, err)) := ExecutePayment keccak256 hmac_sha256 EqualFold g (cp_fund c) in
  match err with
  | Some e =>
    let w := match as_h3 e with
             | Some he => if PreSign he
                          then (release p now (g_requestID g) (h3_message he) (he_Code he) true w).1
                          else w
             | None => w
             end in
    (w, MkCaptured f out (cp_gap c) (Some (XFund e)), Some failure_text)
  | None =>
    if negb (po_Submitted out) then
      let '(w, unreleased, e) := pendingSettlement p now g intent w in
      (w, MkCaptured f out unreleased (XStore <$> e), failed e)
    else
      let '(w, gap) := settle p now g intent out w in
      (w, MkCaptured f out gap None, None)
  end.

(** The switch after [Execute]. *)
Definition report (intent : Intent) (reqID : string) (d : Outcome) (c : Captured)
    (r : result ApErr unit) : PurchaseOutcome :=
  let paid := cp_paid c in
  let failed := match r with Ok _ => false | Err _ => true end in
  if settledKnown paid then deliveredOutcome intent reqID d paid (failed || cp_gap c)
  else if po_Submitted paid && (negb failed || Committed (po_State paid))
  then pendingOutcome d "payment-unresolved" (failed || cp_gap c) reqID
  else match r with
  | Ok _ => pendingOutcome d "" (cp_gap c) reqID
  | Err ErrExpired => expiredOutcome
  | Err e =>
    let code := match e, cp_err c with
                | ErrExecutionFailed, Some (XFund (FH3 (H3Err _))) => "payment-failed"
                | _, _ => if po_Submitted paid then "payment-failed" else "execution-refused"
                end in
    MkPurchaseOutcome (Outcome_string Deny) "denied" code (Prose false) reqID None
  end.

Definition execute (p : Purchaser) (now : time) (cancelled : bool) (intent : Intent) (reqID : string)
    (d : Outcome) (w : World) (f : Fund) : World * Fund * result PurErr PurchaseOutcome :=
  if cancelled then (w, f, Err EInterrupted) else
  let '(w, c, r) := Execute (H := daemon_hooks keccak256) keccak256 now intent reqID
    (executor p now intent) w (MkCaptured f noPayment false None) in
  (w, cp_fund c, Ok (report intent reqID d c r)).

(** ** Waiting for the owner *)
Definition awaitAndExecute (p : Purchaser) (now : time) (stopping : bool) (meanwhile : World → Fund → World * Fund * bool)
    (intent : Intent) (req : Request) (w : World) (f : Fund) :
    World * Fund * result PurErr PurchaseOutcome :=
  let '(w, f, cancelled) := meanwhile w f in
  if cancelled then (w, f, Err EInterrupted) else
  match Snapshot (r_ID req) w with
  | None => (w, f, Err (EApproval ErrUnknownRequest))
  | Some snap =>
    if bool_decide (r_State snap = StateApproved)
    then execute p now stopping intent (r_ID req) HumanApprovalRequired w f
    else if bool_decide (r_State snap = Approval.StateExpired) then (w, f, Ok expiredOutcome)
    else if bool_decide (r_State snap = StateRejected) ||
            bool_decide (r_State snap = StateAlternativeRequested) then
      let '(w, _) := release p now (r_ID req)
        (nonEmpty (r_Reason snap) "the owner declined the purchase") codeOwnerDeclined true w in
      (w, f, Ok (MkPurchaseOutcome (Outcome_string Deny) "denied" ("owner-" +:+ r_State snap)
                   (Verbatim (nonEmpty (r_Reason snap) "owner declined the purchase")) (r_ID req) None))
    else if bool_decide (r_State snap = StatePending) then (w, f, Ok expiredOutcome)
    else (w, f, Err (EUnexpectedState (r_State snap)))
  end.

(** ** One purchase *)
Definition new_intent (p : Purchaser) (now : time) (nonce : string) (in_ : PurchaseIntent) : Intent :=
  MkIntent ("pi_" +:+ String.substring 2 12 nonce) (pu_orgID p) (b_JobID in_) "" (b_AgentKind in_) ""
    (b_Merchant in_) (b_Resource in_) (b_AmountMicros in_) (b_Purpose in_) nonce ""
    (now + pu_window p) "" (b_AlternativeTo in_) "" ""
    (if b_MaxAmountMicros in_ =? 0 then b_AmountMicros in_ else b_MaxAmountMicros in_) "" "".

(** [nonce] is [freshNonce]'s (None: no randomness); [now], [now_submit] and
    [now_exec] the instants of the three phases; [stopping] whether shutdown
    has begun when the execution would start. *)
Definition Decide (p : Purchaser) (nonce : option string) (now now_submit now_exec : time)
    (stopping : bool) (meanwhile : World → Fund → World * Fund * bool) (in_ : PurchaseIntent)
    (w : World) (f : Fund) : World * Fund * result PurErr PurchaseOutcome :=
  match nonce with
  | None => (w, f, Err ENonce)
  | Some nonce =>
    match quoteIntoIntent p (new_intent p now nonce in_) f with
    | (f, Refused code) => (w, f, Ok (refusedOutcome code))
    | (f, Bound intent) =>
      match Submit (H := daemon_hooks keccak256) keccak256 now_submit intent w with
      | (w, Err (ErrDenied d)) => (w, f, Ok (denyOutcome d))
      | (w, Err e) => (w, f, Err (EApproval e))
      | (w, Ok res) =>
        let req := sr_Request res in
        match sr_Decision res with
        | None => (w, f, Err EUnknownOutcome)
        | Some d =>
          match d_Outcome d with
          | Deny => (w, f, Ok (denyOutcome d))
          | AutoApprove => execute p now_exec stopping (r_Intent req) (r_ID req) AutoApprove w f
          | HumanApprovalRequired => awaitAndExecute p now_exec stopping meanwhile (r_Intent req) req w f
          end
        end
      end
    end
  end.
End Purchasing.

(** ** What each part does to the books *)
Abbreviation ents w := (Budget.entries (dm_ledger (ext w))).

Lemma release_cases p now id re code pre (w w' : World Daemon) r :
  release p now id re code pre w = (w', r) →
  ents w' = ents w ∨ ents w' = <[ id := Budget.set_released (Budget.slot (ents w) id) ]> (ents w).
Proof.
  unfold release, ledgerM. destruct (pu_led p); cbn [negb]; [|intros; simplify_eq; by left].
  destruct (Budget.Release _ _ _ _ _ _ _) as [[s l] q] eqn:E. intros Hx. simplify_eq. cbn.
  apply Budget.Release_cases in E as [(-> & _)|(_ & _ & _ & _ & _ & ->)]; [by left|by right].
Qed.
Lemma append_purchase_ext now kind entity fields (w w' : World Daemon) r :
  append_purchase now kind entity fields w = (w', r) → ext w' = ext w.
Proof. unfold append_purchase. destruct (Append _ _ _) as [s q]. intros. by simplify_eq. Qed.
Lemma pendingSettlement_cases p now g intent (w w' : World Daemon) b e :
  pendingSettlement p now g intent w = (w', b, e) →
  ents w' = ents w ∨
  ents w' = <[ g_requestID g := Budget.set_released (Budget.slot (ents w) (g_requestID g)) ]> (ents w).
Proof.
  unfold pendingSettlement. destruct (append_purchase _ _ _ _ w) as [w1 [e1|]] eqn:E;
    apply append_purchase_ext in E; [intros; simplify_eq; left; by rewrite E|].
  destruct (release _ _ _ _ _ _ _) as [w2 q] eqn:E2. intros. simplify_eq.
  apply release_cases in E2. by rewrite E in E2.
Qed.
Lemma settle_cases p now g intent out (w w' : World Daemon) b :
  settle p now g intent out w = (w', b) →
  ents w' = ents w ∨ settledKnown out = true ∧
  ents w' = <[ g_requestID g := Budget.set_committed (po_PaidMicros out)
                                  (Budget.slot (ents w) (g_requestID g)) ]> (ents w).
Proof.
  unfold settle. destruct (settledKnown out); cbn [negb].
  - destruct (if pu_led p then _ else (w, None)) as [w1 r1] eqn:E1.
    destruct (if po_PayeeDiverged out then _ else (w1, None)) as [w2 r2] eqn:E2.
    destruct (append_purchase _ _ _ _ w2) as [w3 r3] eqn:E3. intros. simplify_eq.
    apply append_purchase_ext in E3. assert (H2 : ext w2 = ext w1).
    { destruct (po_PayeeDiverged out); [by apply append_purchase_ext in E2|by simplify_eq]. }
    rewrite E3, H2. destruct (pu_led p); [|simplify_eq; by left].
    unfold ledgerM in E1. destruct (Budget.Commit _ _ _ _ _ _ _ _) as [[s l] q] eqn:E. simplify_eq. cbn.
    apply Budget.Commit_cases in E as [(-> & _)|(_ & _ & _ & _ & _ & _ & _ & ->)]; [by left|by right].
  - destruct (append_purchase _ _ _ _ w) as [w1 r] eqn:E. intros. simplify_eq. left.
    apply append_purchase_ext in E. by rewrite E.
Qed.

(** A refusal before intake touches nothing: no nonce, no request, no hold, no
    record. *)
Section Facts.
Context {S : Type}.
Context (keccak256 : string → string) (hmac_sha256 : string → string → string).
Context (EqualFold : string → string → bool) (urlParse : string → option (string * string)).
Context (h3_message : Error → string) (failure_text : string).
Abbreviation Fund := (Fund S).
Abbreviation executor := (executor (S := S) keccak256 hmac_sha256 EqualFold h3_message failure_text).
Abbreviation pay := (ExecutePayment (S := S) keccak256 hmac_sha256 EqualFold).

(** The payment behind an executor's run: the answer of the door, when there is
    one. *)
Definition executed_payment (p : Purchaser) (g : Grant) (c c' : Captured (S := S)) (out : PaymentOutcome)
    (err : option FErr) : Prop :=
  if pu_fund p then pay g (cp_fund c) = (cp_fund c', (out, err)) ∧ cp_paid c' = out
  else cp_fund c' = cp_fund c ∧ cp_paid c' = cp_paid c ∧ out = noPayment ∧ err = None.

Lemma executor_cases p now intent g w c w' c' failure :
  executor p now intent g w c = (w', c', failure) →
  ∃ out err, executed_payment p g c c' out err ∧
    (ents w' = ents w ∨
     (pu_fund p = true ∧ err = None ∧ settledKnown out = true ∧
      ents w' = <[ g_requestID g := Budget.set_committed (po_PaidMicros out)
                                      (Budget.slot (ents w) (g_requestID g)) ]> (ents w)) ∨
     ((err = None ∧ po_Submitted out = false ∨ ∃ e, err = Some e ∧ releasable e = true) ∧
      ents w' = <[ g_requestID g := Budget.set_released (Budget.slot (ents w) (g_requestID g)) ]> (ents w))).
Proof.
  unfold Purchasing.executor, executed_payment. destruct (pu_fund p); cbn [negb].
  - destruct (pay g (cp_fund c)) as [f [out err]] eqn:Ep. destruct err as [e|].
    + intros. simplify_eq. exists out, (Some e). split; [done|].
      unfold releasable. destruct (as_h3 e) as [he|] eqn:Ee; [|by left].
      destruct (PreSign he) eqn:Epre; [|by left].
      destruct (release _ _ _ _ _ _ w) as [w1 q] eqn:Er. cbn [fst].
      apply release_cases in Er as [Er|Er]; [by left|]. right; right. split; [|done].
      right. exists e. by rewrite Ee.
    + destruct (po_Submitted out) eqn:Es; cbn [negb].
      * destruct (settle _ _ _ _ _ w) as [w1 gap] eqn:E. intros. simplify_eq. exists out, None.
        split; [done|]. apply settle_cases in E as [E|[E1 E2]]; [by left|by right; left].
      * destruct (pendingSettlement _ _ _ _ w) as [[w1 b] e] eqn:E. intros. simplify_eq. exists out, None.
        split; [done|]. apply pendingSettlement_cases in E as [E|E]; [by left|right; right]. eauto.
  - destruct (pendingSettlement _ _ _ _ w) as [[w1 b] e] eqn:E. intros. simplify_eq. exists noPayment, None.
    split; [done|]. apply pendingSettlement_cases in E as [E|E]; [by left|right; right]. eauto.
Qed.

(** [Execute] around the executor: it ran on the world's own ledger, or the
    world's ledger and what it captures are untouched. *)
Lemma Execute_cases {X} now in_ id exec w (c : X) w' c' r :
  Execute (H := daemon_hooks keccak256) keccak256 now in_ id exec w c = (w', c', r) →
  (ext w' = ext w ∧ c' = c ∧ ∃ e, r = Err e) ∨
  ∃ req w1 w2 failure, requests w !! id = Some req ∧ ext w1 = ext w ∧
    exec (MkGrant in_ (r_ID req) now) w1 c = (w2, c', failure) ∧ ext w' = ext w2 ∧
    (failure = None → ∀ e, r = Err e → ∃ g, e = ErrAuditGap g) ∧
    (failure ≠ None → r = Err ErrExecutionFailed).
Proof.
  unfold Execute. destruct (execute_admit _ _ _ _ w) as [w1 [x|e]] eqn:Ea; apply (execute_admit_cases (H := daemon_hooks keccak256)) in Ea
    as (_ & Hext & _ & Ha).
  2: { intros. simplify_eq. left. split_and!; eauto. }
  destruct Ha as [([? ?] & _)|(req & h & Hr & _ & Hx & _)]; [done|]. injection Hx as ->.
  destruct (execute_claim now _ w1) as [w2 [x2|e]] eqn:Ec; apply execute_claim_cases in Ec as (Hext2 & Hc).
  2: { intros. simplify_eq. left. rewrite Hext2. split_and!; eauto. }
  destruct Hc as [([= ->] & _)|([? ?] & _)]; [|done]. cbn [x_Grant set_running].
  destruct (exec _ w2 c) as [[w3 c3] failure] eqn:Ex.
  destruct (execute_finish now _ failure w3) as [w4 r4] eqn:Ef. intros. simplify_eq. right.
  pose proof Ef as Ef'. apply execute_finish_cases in Ef' as (_ & Hext4 & _).
  exists req, w2, w3, failure. split_and!; try done; [by rewrite Hext2| |].
  - intros -> e He. subst. unfold execute_finish in Ef. destruct (appendEvent _ _ _ _ w3) as [w5 q] eqn:Eq.
    apply appendEvent_cases in Eq as (s' & -> & [[-> _]|[[e2 ->] _]]); simplify_eq. eauto.
  - intros Hf. unfold execute_finish in Ef. destruct failure as [msg|]; [|done].
    destruct (appendEvent _ _ _ _ w3) as [w5 q]. by simplify_eq.
Qed.
End Facts.

(** ** The books against the sidecar *)
Section Honest.
Context (keccak256 : string → string) (hmac_sha256 : string → string → string).
Context (EqualFold : string → string → bool) (toLower : string → string).
Context (AUTH_TOKEN H2_SECRET base : string).
Context (urlParse : string → option (string * string)) (cl : Client).
Context (Hbase : c_baseURL cl = base) (Htoken : c_token cl = AUTH_TOKEN).
Context (h3_message : Error → string) (failure_text : string).
Abbreviation lane :=
  (client_payer (exchange keccak256 hmac_sha256 toLower AUTH_TOKEN H2_SECRET base) urlParse cl).
Abbreviation execute := (execute (S := Sidecar) keccak256 hmac_sha256 EqualFold h3_message failure_text).
Abbreviation Decide :=
  (Decide (S := Sidecar) keccak256 hmac_sha256 EqualFold urlParse h3_message failure_text).

(** The sidecar has a record of this intent, and its key signed for it. *)
Definition paid_for (in_ : Intent) (s : Sidecar) : Prop :=
  ∃ p, records s !! i_Nonce in_ = Some p ∧ pr_intentHash p = WireHash keccak256 in_ ∧
    (i_Nonce in_, AuthNonce keccak256 (WireHash keccak256 in_)) ∈ signed s.
Definition untouched (s s' : Sidecar) : Prop := records s' = records s ∧ signed s' = signed s.
Definition collision : Prop := ∃ x y, x ≠ y ∧ keccak256 x = keccak256 y.

(** The door, with a lane or without one. *)
Lemma door_outcome g (f f' : Fund Sidecar) out err :
  sinv keccak256 (remote f) → digests_hex keccak256 hmac_sha256 →
  intent_utf8 (g_intent g) = true → int64_range (i_AmountMicros (g_intent g)) →
  payer (agent f) = Some lane ∨ payer (agent f) = None →
  ExecutePayment keccak256 hmac_sha256 EqualFold g f = (f', (out, err)) →
  ((∃ e, err = Some e ∧ releasable e = true) ∨ po_Submitted out = false → untouched (remote f) (remote f')) ∧
  (settledKnown out = true → err = None ∧ paid_for (g_intent g) (remote f') ∧
     (po_PaidMicros out = i_AmountMicros (g_intent g) ∨ collision)).
Proof.
  intros Hs Hd Hu Hr [Hl|Hl] Hp.
  - destruct (door_sound _ _ _ _ _ _ _ _ _ Hbase Htoken g f f' out err Hs Hd Hu Hr Hl Hp) as [H1 H2].
    split; [exact H1|]. unfold settledKnown. rewrite !andb_true_iff. intros [[Hsub Hc] Hpos].
    apply Z.ltb_lt in Hpos. pose proof (ExecutePayment_sent _ _ _ _ _ _ _ _ _ Hbase Htoken g f f' out err Hl Hp) as Hsent.
    destruct Hsent as [(Hns & _)|(_ & _ & _ & _ & Hrh & r & HP & Hres)]; [congruence|].
    assert (He : err = None).
    { destruct r as [res|e].
      - destruct Hres as (Hst & Hy & _). rewrite Hst in Hc. specialize (Hy Hc).
        destruct (ParseAtomicMicros (p_AmountPaid res)) eqn:Epa; [by destruct Hy|].
        exfalso. unfold ExecutePayment in Hp. clear -Hp Hy Hpos.
        subst err. repeat (case_match; simplify_eq; try done).
      - destruct Hres as [_ Hst]. by rewrite Hst in Hc. }
    split; [done|]. destruct (H2 He Hsub Hc) as (p & Hp1 & Hp2 & Hp3 & Hp4). split; [|exact Hp4].
    exists p. by rewrite Hrh in Hp3.
  - unfold ExecutePayment in Hp. destruct (Fund_Execute g f) as [f1 [u|e]] eqn:E;
      apply Fund_Execute_cases in E as [(-> & e' & He & Hh & _)|(He & _ & _ & Hrem & _ & _ & Hpay & _)]; try done.
    + rewrite Hpay, Hl in Hp. simplify_eq. split; [|done]. unfold untouched. by rewrite Hrem.
    + simplify_eq. split; [|done]. done.
Qed.

(** What one execution did to its hold and to the sidecar. *)
Definition honest_books (in_ : Intent) (reqID : string) (w w' : World Daemon) (f f' : Fund Sidecar) : Prop :=
  let e := Budget.slot (ents w) reqID in let e' := Budget.slot (ents w') reqID in
  (∀ id, id ≠ reqID → Budget.slot (ents w') id = Budget.slot (ents w) id) ∧
  (e' = e ∨
   (e' = Budget.set_released e ∧ untouched (remote f) (remote f')) ∨
   (paid_for in_ (remote f') ∧ ∃ m, e' = Budget.set_committed m e ∧ (m = i_AmountMicros in_ ∨ collision))).
(** What a report claims. *)
Definition honest_report (in_ : Intent) (f f' : Fund Sidecar) (o : PurchaseOutcome) : Prop :=
  (o_Status o = "delivered" → paid_for in_ (remote f') ∧
     ∃ rc, o_Receipt o = Some rc ∧ (pr_AmountAtomic rc = FormatInt (i_AmountMicros in_) ∨ collision)) ∧
  (o_Receipt o ≠ None → o_Status o = "delivered") ∧
  (o_Code o = "execution-refused" → untouched (remote f) (remote f')).

Lemma report_cases in_ reqID d c r :
  let o := report (S := Sidecar) in_ reqID d c r in
  (settledKnown (cp_paid c) = true ∧ o_Status o = "delivered" ∧
   o_Receipt o = Some (MkPurchaseReceipt (i_Merchant in_) (FormatInt (po_PaidMicros (cp_paid c)))
                         (po_ReceiptHash (cp_paid c)) (po_PaymentID (cp_paid c))) ∧
   o_Code o = "") ∨
  (settledKnown (cp_paid c) = false ∧ o_Status o ≠ "delivered" ∧ o_Receipt o = None ∧
   (o_Code o = "execution-refused" → po_Submitted (cp_paid c) = false)).
Proof.
  unfold report. destruct (settledKnown (cp_paid c)); [left; by split_and!|right]. split; [done|].
  destruct (po_Submitted (cp_paid c)) eqn:Es; cbn [andb].
  - destruct (_ || _) eqn:Eo; [by split_and!|]. destruct r as [u|e]; [by split_and!|].
    destruct e; repeat case_match; by split_and!.
  - destruct r as [u|e]; [by split_and!|]. destruct e; by split_and!.
Qed.

Lemma untouched_refl s : untouched s s.
Proof. done. Qed.

Lemma execute_honest p now stopping in_ reqID d w f w' f' res :
  sinv keccak256 (remote f) → digests_hex keccak256 hmac_sha256 →
  intent_utf8 in_ = true → int64_range (i_AmountMicros in_) →
  payer (agent f) = Some lane ∨ payer (agent f) = None →
  (∀ req, requests w !! reqID = Some req → r_ID req = reqID) →
  execute p now stopping in_ reqID d w f = (w', f', res) →
  honest_books in_ reqID w w' f f' ∧ ∀ o, res = Ok o → honest_report in_ f f' o.
Proof.
  intros Hs Hd Hu Hr Hl Hkey Hx. unfold Purchasing.execute in Hx. destruct stopping.
  { injection Hx as <- <- <-. split; [|done]. split; [done|by left]. }
  destruct (Execute _ _ _ _ _ _ _) as [[w1 c1] r] eqn:E. injection Hx as <- <- <-.
  apply Execute_cases in E as [(Hext & -> & e & ->)|(req & w2 & w3 & failure & Hreq & Hext & Hexec & Hext3 & _)].
  { split; [unfold honest_books; cbv zeta; rewrite Hext; split; [done|by left]|].
    intros o [= <-]. cbn [cp_fund]. set (c0 := MkCaptured f noPayment false None).
    destruct (report_cases in_ reqID d c0 (Err e)) as [(? & _)|(_ & Hst & Hrc & _)]; [done|].
    split_and!; [done|intros Hn; by rewrite Hrc in Hn|intros _; apply untouched_refl]. }
  apply executor_cases in Hexec as (out & err & Hpay & Hbooks). cbn [g_requestID] in Hbooks.
  rewrite (Hkey req Hreq) in Hbooks. unfold executed_payment in Hpay. cbn [cp_fund cp_paid] in Hpay.
  assert (Hdoor : ((∃ e, err = Some e ∧ releasable e = true) ∨ po_Submitted out = false →
      untouched (remote f) (remote (cp_fund c1))) ∧
     (settledKnown out = true → err = None ∧ paid_for in_ (remote (cp_fund c1)) ∧
        (po_PaidMicros out = i_AmountMicros in_ ∨ collision)) ∧ cp_paid c1 = out).
  { destruct (pu_fund p).
    - destruct Hpay as [Hpay ->]. 
      destruct (door_outcome (MkGrant in_ (r_ID req) now) f _ out err Hs Hd Hu Hr Hl Hpay) as [Hd1 Hd2].
      exact (conj Hd1 (conj Hd2 eq_refl)).
    - destruct Hpay as (-> & -> & -> & ->). by split_and!. }
  destruct Hdoor as (Hun & Hset & Hcp). split.
  - unfold honest_books. cbv zeta. rewrite Hext3. rewrite Hext in Hbooks.
    destruct Hbooks as [->|[(_ & _ & Hk & ->)|[Hk ->]]]; [split; [done|by left]| |].
    + split; [intros id Hne; by apply Budget.slot_insert_ne|]. right; right.
      destruct (Hset Hk) as (_ & Hp & Hm). split; [done|]. rewrite Budget.slot_insert. eauto.
    + split; [intros id Hne; by apply Budget.slot_insert_ne|]. right; left.
      rewrite Budget.slot_insert. split; [done|]. apply Hun. destruct Hk as [[_ ?]|?]; auto.
  - intros o [= <-]. destruct (report_cases in_ reqID d c1 r) as [(Hk & Hst & Hrc & Hco)|(Hk & Hst & Hrc & Hco)];
      rewrite Hcp in *.
    + destruct (Hset Hk) as (_ & Hp & Hm). split_and!; [|done|by rewrite Hco].
      intros _. split; [done|]. eexists. split; [exact Hrc|]. cbn. destruct Hm as [->|?]; auto.
    + split_and!; [done|intros Hn; by rewrite Hrc in Hn|]. intros Hc. apply Hun. right. by apply Hco.
Qed.

End Honest.

(** ** The quote binds what the door pays *)
Section Quotes.
Context {S : Type} (wire : HttpRequest → S → S * HttpOutcome).
Context (urlParse : string → option (string * string)) (cl : Client).
Abbreviation quoteIntoIntent := (quoteIntoIntent (S := S) urlParse).

Lemma Client_Quote_ok resource chain (s s' : S) q :
  Client_Quote wire urlParse cl resource chain s = (s', Ok q) →
  absolute_http urlParse resource = true ∧
  Forall (λ x, blank x = false)
    [a_Amount (qu_Accept q); a_Asset (qu_Accept q); a_PayTo (qu_Accept q); a_Network (qu_Accept q)].
Proof.
  unfold Client_Quote. destruct (absolute_http urlParse resource); cbn [negb]; [|done].
  unfold bindM. destruct (do _ _ _ _ _ _ _ s) as [s1 [raw|e]]; [|done].
  destruct (decode quote_of_json raw s1) as [s2 [out|e]]; [|done].
  destruct (_ || _) eqn:E; [done|]. unfold retM. intros [= _ <-]. split; [done|].
  rewrite orb_false_iff in E. destruct E as [E _]. cbn [existsb] in E. rewrite !orb_false_iff in E.
  destruct E as (? & ? & ? & ? & _). by rewrite !Forall_cons.
Qed.

(** The quote binds what the door pays.  Over a wired lane, an intent that
    comes back bound carries the challenge's payee, asset and network and the
    resolved resource verbatim, differs from the request in nothing else but
    its amount and ceiling, which are the quoted price and within the requested
    cap, and has everything the payment door asks for. *)
Lemma quote_binds_payable p in_ f f' i :
  (∀ s, blank s = true → absolute_http urlParse s = false) →
  pu_fund p = true → payer (agent f) = Some (client_payer wire urlParse cl) → i_Kind in_ = "" →
  quoteIntoIntent p in_ f = (f', Bound i) →
  ∃ q priced, i = bind_quote (resolveURL urlParse (i_Resource in_) (i_Merchant in_)) q priced in_ ∧
    ParseAtomicMicros (a_Amount (qu_Accept q)) = Ok priced ∧
    (0 < i_MaxAmountMicros in_ → priced ≤ i_MaxAmountMicros in_) ∧
    payable i ∧ agent f' = agent f.
Proof.
  intros Hblank Hp Hl Hkind Hx. unfold Purchasing.quoteIntoIntent in Hx. rewrite Hp in Hx. cbn [negb] in Hx.
  unfold Fund_Quote in Hx. rewrite Hl in Hx. destruct (chainID (agent f) <=? 0); [done|].
  set (url := resolveURL urlParse (i_Resource in_) (i_Merchant in_)) in *. cbn [payer_Quote client_payer] in Hx.
  destruct (Client_Quote wire urlParse cl url _ (remote f)) as [s1 [q|e]] eqn:Eq; [|done].
  apply Client_Quote_ok in Eq as [Habs Hb]. rewrite !Forall_cons in Hb. destruct Hb as (_ & Ha & Hpt & Hn & _).
  assert (Hne : ∀ x, blank x = false → x ≠ "") by (intros x Hb ->; by vm_compute in Hb).
  rewrite (bool_decide_false (a_PayTo _ = "")) in Hx by auto.
  rewrite (bool_decide_false (a_Asset _ = "")), (bool_decide_false (a_Network _ = "")) in Hx by auto.
  cbn [orb] in Hx. destruct (ParseAtomicMicros _) as [m|] eqn:Em; [|done].
  destruct (m <=? 0) eqn:E1; [done|]. destruct (_ && _) eqn:E2; [done|]. injection Hx as <- <-.
  apply Z.leb_gt in E1. exists q, m. split_and!; try done.
  - intros Hpos. rewrite andb_false_iff in E2. destruct E2 as [E2|E2]; [apply Z.ltb_ge in E2; lia|].
    by apply Z.ltb_ge in E2.
  - unfold payable. cbn [bind_quote i_Kind i_AmountMicros i_MaxAmountMicros i_PayTo i_ResourceURL i_Asset i_Network].
    split_and!; [by left|done|done|]. rewrite !Forall_cons. split_and!; try done.
    destruct (blank url) eqn:Eb; [|done]. by rewrite (Hblank _ Eb) in Habs.
Qed.
End Quotes.

(** ** Holds come back *)
Lemma Append_healthy wall ev s : faults s = [] → ∃ s' z, Append wall ev s = (s', Ok z) ∧ faults s' = [].
Proof. destruct s as [d fs]. cbn. intros ->. by eexists _, _. Qed.
Lemma append_purchase_healthy now kind entity fields (w : World Daemon) :
  faults (st w) = [] → ∃ s, append_purchase now kind entity fields w = (with_st s w, None) ∧ faults s = [].
Proof.
  intros Hf. unfold append_purchase.
  destruct (Append_healthy now (MkEvent zeroTime kind entity actorPurchaser (JObj fields)) _ Hf) as (s & z & -> & Hs).
  eauto.
Qed.
Lemma release_healthy p now id re code pre (w : World Daemon) :
  pu_led p = true → id ≠ "" → Budget.is_open (Budget.slot (ents w) id) = true → faults (st w) = [] →
  ∃ w', release p now id re code pre w = (w', None) ∧
    ents w' = <[ id := Budget.set_released (Budget.slot (ents w) id) ]> (ents w) ∧ faults (st w') = [].
Proof.
  intros Hp Hid Ho Hf. unfold Budget.is_open in Ho. rewrite andb_true_iff in Ho. destruct Ho as [Hre Hcl].
  apply bool_decide_eq_true_1 in Hcl. unfold release, ledgerM. rewrite Hp. cbn [negb].
  unfold Budget.Release. rewrite bool_decide_false by done. rewrite Hre. cbn [negb].
  rewrite bool_decide_false by (rewrite Hcl; by intros ?).
  match goal with |- context [Append now ?ev _] =>
    destruct (Append_healthy now ev _ Hf) as (s & z & -> & Hs) end. eauto.
Qed.

Section Returned.
Context {S : Type}.
Context (keccak256 : string → string) (hmac_sha256 : string → string → string).
Context (EqualFold : string → string → bool).
Context (h3_message : Error → string) (failure_text : string).
Abbreviation Fund := (Fund S).
Abbreviation await := (awaitAndExecute (S := S) keccak256 hmac_sha256 EqualFold h3_message failure_text).

(** The owner's refusal gives the budget back.  When the wait ends with the
    request rejected or an alternative asked for, the hold is released at once,
    nothing is sent, and the worker gets the owner's reason verbatim with the
    request to link an alternative to. *)
Lemma owner_decline_gives_back p now stopping meanwhile in_ req w0 f0 w f snap :
  meanwhile w0 f0 = (w, f, false) → pu_led p = true → r_ID req ≠ "" →
  requests w !! r_ID req = Some snap → r_State snap ∈ [StateRejected; StateAlternativeRequested] →
  Budget.is_open (Budget.slot (ents w) (r_ID req)) = true → faults (st w) = [] →
  ∃ w' o, await p now stopping meanwhile in_ req w0 f0 = (w', f, Ok o) ∧
    ents w' = <[ r_ID req := Budget.set_released (Budget.slot (ents w) (r_ID req)) ]> (ents w) ∧
    o_Status o = "denied" ∧ o_Code o = "owner-" +:+ r_State snap ∧ o_RequestID o = r_ID req ∧
    (r_Reason snap ≠ "" → o_Reason o = Verbatim (r_Reason snap)).
Proof.
  intros Hm Hp Hid Hs Hst Ho Hf. unfold awaitAndExecute. rewrite Hm. unfold Snapshot. rewrite Hs.
  rewrite !elem_of_cons, elem_of_nil in Hst.
  assert (Hne : r_State snap ≠ StateApproved ∧ r_State snap ≠ Approval.StateExpired).
  { split; destruct Hst as [->|[->|[]]]; done. }
  rewrite !(bool_decide_false (r_State snap = _)) by tauto.
  assert (Hor : bool_decide (r_State snap = StateRejected) ||
                bool_decide (r_State snap = StateAlternativeRequested) = true).
  { apply orb_true_iff. rewrite !bool_decide_eq_true. tauto. }
  rewrite Hor.
  destruct (release_healthy p now (r_ID req) (nonEmpty (r_Reason snap) "the owner declined the purchase")
    codeOwnerDeclined true w Hp Hid Ho Hf) as (w' & Hr & He & _).
  rewrite Hr. eexists _, _. split; [reflexivity|]. cbn. split_and!; try done.
  intros Hre. unfold nonEmpty. by rewrite bool_decide_false.
Qed.

Lemma appendEvent_healthy now job kind fields (w : World Daemon) :
  faults (st w) = [] →
  ∃ s, appendEvent now job kind fields w = (with_st s w, Ok tt) ∧ faults s = [].
Proof.
  intros Hf. unfold appendEvent, bindM, storeM, retM.
  destruct (Append_healthy now (MkEvent zeroTime kind job "approval" (JObj fields)) _ Hf) as (s & z & -> & Hs).
  eauto.
Qed.
Lemma claim_healthy now x (w : World Daemon) :
  faults (st w) = [] →
  ∃ w', execute_claim now x w = (w', Ok (set_running x)) ∧ ext w' = ext w ∧ faults (st w') = [].
Proof.
  intros Hf. unfold execute_claim.
  destruct (appendEvent_healthy now (x_Job x) "payment.executing"
    [("request_id", JStr (x_ID x)); ("intent_hash", JStr (x_Hash x))] w Hf) as (s & -> & Hs).
  by eexists.
Qed.
Lemma finish_healthy now x (w : World Daemon) :
  faults (st w) = [] → ∃ w', execute_finish now x None w = (w', Ok tt) ∧ ext w' = ext w.
Proof.
  intros Hf. unfold execute_finish.
  destruct (appendEvent_healthy now (x_Job x) "payment.executed"
    [("request_id", JStr (x_ID x)); ("intent_hash", JStr (x_Hash x))] w Hf) as (s & -> & Hs).
  eexists. split; [reflexivity|].
  by destruct (release_admission_same (x_Handle x) (drop_exec x (with_st s w))) as (_ & _ & _ & ->).
Qed.
(** The executor's honest stop. *)
Lemma executor_stops p now in_ g w (c : Captured (S := S)) :
  pu_fund p = false ∨ payer (agent (cp_fund c)) = None →
  Empty g = false → (g_requestID g ∉ seen (agent (cp_fund c))) → cp_paid c = noPayment →
  pu_led p = true → Budget.is_open (Budget.slot (ents w) (g_requestID g)) = true → faults (st w) = [] →
  ∃ w' c', executor keccak256 hmac_sha256 EqualFold h3_message failure_text p now in_ g w c = (w', c', None) ∧
    cp_paid c' = noPayment ∧ cp_gap c' = false ∧ remote (cp_fund c') = remote (cp_fund c) ∧
    ents w' = <[ g_requestID g := Budget.set_released (Budget.slot (ents w) (g_requestID g)) ]> (ents w) ∧
    faults (st w') = [].
Proof.
  intros Hlane Hemp Hseen Hpaid Hled Hopen Hf.
  assert (Hid : g_requestID g ≠ "") by (unfold Empty in Hemp; by apply bool_decide_eq_false_1 in Hemp).
  assert (Hstop : ∃ w', pendingSettlement p now g in_ w = (w', false, None) ∧
    ents w' = <[ g_requestID g := Budget.set_released (Budget.slot (ents w) (g_requestID g)) ]> (ents w) ∧
    faults (st w') = []).
  { unfold pendingSettlement. match goal with |- context [append_purchase now ?k ?e ?fs w] =>
      destruct (append_purchase_healthy now k e fs w Hf) as (s & -> & Hs) end.
    destruct (release_healthy p now (g_requestID g)
      "no payment lane is wired: the approval was consumed but nothing was sent" codeNoPayerWired true
      (with_st s w) Hled Hid Hopen Hs) as (w' & -> & He & Hf'). eauto. }
  destruct Hstop as (w' & Hstop & He & Hf'). unfold executor. destruct (pu_fund p); cbn [negb].
  - destruct Hlane as [?|Hnone]; [done|]. unfold ExecutePayment, Fund_Execute. rewrite Hemp.
    rewrite bool_decide_false by done. cbn [agent with_agent payer]. rewrite Hnone.
    cbn [po_Submitted noPayment negb]. rewrite Hstop. eexists _, _. split; [reflexivity|]. done.
  - rewrite Hstop. eexists _, _. split; [reflexivity|]. done.
Qed.

(** Without a lane nothing is pinned.  When no payment lane is wired and the
    store is healthy, an approved purchase that passes the gates ends as an
    approval pending integration, its hold is given back in the same run, and
    the remote side is untouched. *)
Lemma honest_stop_gives_back p now in_ reqID d w (f : Fund) req :
  pu_fund p = false ∨ payer (agent f) = None →
  pu_led p = true → requests w !! reqID = Some req → r_ID req = reqID → reqID ≠ "" →
  executable (H := daemon_hooks keccak256) keccak256 now in_ req w →
  (reqID ∉ seen (agent f)) →
  Budget.is_open (Budget.slot (ents w) reqID) = true → faults (st w) = [] →
  ∃ w' (f' : Fund), execute keccak256 hmac_sha256 EqualFold h3_message failure_text p now false in_ reqID d w f =
      (w', f', Ok (pendingOutcome d "" false reqID)) ∧
    ents w' = <[ reqID := Budget.set_released (Budget.slot (ents w) reqID) ]> (ents w) ∧
    remote f' = remote f.
Proof.
  intros Hlane Hled Hreq Hid Hne Hex Hseen Hopen Hf. unfold execute, Execute.
  destruct (execute_admit _ _ _ _ w) as [w1 r] eqn:Ea.
  apply (execute_admit_cases (H := daemon_hooks keccak256)) in Ea as (Hst & Hext & _ & Ha).
  destruct Ha as [(_ & _ & _ & _ & Hno)|(req' & h & Hreq' & _ & -> & _)]; [by destruct (Hno req Hreq)|].
  rewrite Hreq in Hreq'. injection Hreq' as <-.
  match goal with |- context [execute_claim now ?x w1] =>
    destruct (claim_healthy now x w1 ltac:(by rewrite Hst)) as (w2 & -> & Hext2 & Hf2) end.
  cbn [x_Grant set_running]. rewrite Hid.
  destruct (executor_stops p now in_ (MkGrant in_ reqID now) w2 (MkCaptured f noPayment false None))
    as (w3 & c3 & -> & Hp3 & Hg3 & Hr3 & He3 & Hf3); try done.
  { unfold Empty. by apply bool_decide_eq_false_2. }
  { cbn. by rewrite Hext2, Hext. }
  match goal with |- context [execute_finish now ?x None w3] =>
    destruct (finish_healthy now x w3 Hf3) as (w4 & -> & Hext4) end.
  eexists _, _. split; [|split; [|exact Hr3]].
  - unfold report. rewrite Hp3, Hg3. reflexivity.
  - rewrite Hext4. cbn in He3. by rewrite He3, Hext2, Hext.
Qed.
End Returned.
