(* ===== verification/Decode.v ===== *)
(** [internal/indexer/types.go] and [decode.go]: contract logs and the eight
    events they decode to.

    [Log] is an EVM log as the RPC layer hands it on, [normalize*] the checks on
    its text fields, [decode] the ABI decoding.  An event's payload is a list of
    members in the order of the composite literal.  Error texts are left out,
    and so is the kind of shape error.  [unicodeLower] is [strings.ToLower]
    outside ASCII. *)
From Stdlib Require Import Ascii String.
From S2P Require Import Prelude GoStr GoTime GoJson Store.
#[local] Open Scope Z_scope.
#[local] Open Scope snap_scope.
#[local] Set Default Proof Using "Type".

(** ** [types.go] *)
Record Filter := MkFilter { fl_FromBlock : Z; fl_ToBlock : Z; fl_Addresses : list string }.
Record Log := MkLog {
  l_Address : string; l_Topics : list string; l_Data : string; l_BlockNumber : Z;
  l_BlockHash : string; l_TransactionHash : string; l_LogIndex : Z; l_Removed : bool }.

Inductive IdxErr :=
| ErrConfig | ErrAddress | ErrHash32 | ErrData
| ErrABI (name : string) | ErrRate (name : string)
| ErrNoTopic0 | ErrPosition | ErrCursorRange | ErrCursorNegative
| ErrAtomic | ErrKind | ErrDuplicate | ErrSQL
| ErrRPC | ErrChainID | ErrOutsideRange | ErrUnconfigured | ErrRemoved.

Section Normalize.
Context (unicodeLower : string → string).
Abbreviation ToLower := (ToLower unicodeLower).

Definition normalizeAddress (v : string) : result IdxErr string :=
  let v := ToLower (TrimSpace v) in
  match strip_prefix "0x" v with
  | Some r =>
    if bool_decide (String.length v = 42%nat) && sall lower_hex r then Ok v else Err ErrAddress
  | None => Err ErrAddress
  end.
Definition normalizeHash32 (v : string) : result IdxErr string :=
  let v := ToLower (TrimSpace v) in
  match strip_prefix "0x" v with
  | Some r =>
    if bool_decide (String.length v = 66%nat) && bool_decide (is_Some (hex_DecodeString r))
    then Ok v else Err ErrHash32
  | None => Err ErrHash32
  end.
Definition normalizeData (v : string) : result IdxErr string :=
  let v := ToLower (TrimSpace v) in
  match strip_prefix "0x" v with
  | Some r =>
    if Nat.even (String.length v) && bool_decide (is_Some (hex_DecodeString r)) then Ok v else Err ErrData
  | None => Err ErrData
  end.

(** ** [decode.go] *)
Definition topicJobFunded : string :=
  "0x8220b978cac568b980751c54df59af3be6c1d3bd9874232210cc1cf89740142b".
Definition topicAdvanceIssued : string :=
  "0x4e000615bb000c437ff360e4f54ea1722dc46e202857ff124e0668f955301da7".
Definition topicExpenseRecorded : string :=
  "0x016b8b2be22dbb474f61e8f543dbe04e2df3bd99a078612b73b1c553063a92de".
Definition topicDeliverySubmitted : string :=
  "0xad8578136a5b42ae9e2a5cbc2743365e76b284462cd7273c9b8afa548b62a68a".
Definition topicJobSettled : string :=
  "0xd279a21adfe210809eb47e25b172b6b8c49f3c909ca3fe860c28ad1670ed6680".
Definition topicAdvanceRepaid : string :=
  "0xb1a154c78bda0dfbf33f2c572b5d8ce519a400aa92b38315e90daa26e44f1b4c".
Definition topicAdvanceWrittenOff : string :=
  "0x6a6428d29409279a788a4399a8204370bd90228631e24511ba87073e9f65a48f".
Definition topicRateChanged : string :=
  "0xec739c9af710a6df2b3e3656f38b5d59af57d3022cd5a88ca4516db96a4ca5c7".

Record decodedEvent := MkDecoded {
  d_Kind : string; d_EntityID : string; d_Actor : string; d_Payload : list (string * string) }.

(** A read of a [map[string]string]: the zero value when the key is absent. *)
Fixpoint payload_get (k : string) (p : list (string * string)) : string :=
  match p with
  | [] => ""
  | (k', v) :: r => if String.eqb k k' then v else payload_get k r
  end.
(** [json.Marshal] of a map writes its members in the order of the keys. *)
Definition key_less (a b : string * string) : bool := String.ltb a.1 b.1.
Definition payloadJSON (e : decodedEvent) : jval :=
  json_Marshal (JObj ((λ kv, (kv.1, JStr kv.2)) <$> isort key_less (d_Payload e))).

Definition isH1Topic (topic : string) : bool :=
  bool_decide (topic ∈ [ topicJobFunded; topicAdvanceIssued; topicExpenseRecorded;
    topicDeliverySubmitted; topicJobSettled; topicAdvanceRepaid; topicAdvanceWrittenOff;
    topicRateChanged ]).

(** Cut a byte string into 32-byte words. *)
Fixpoint cut32 (fuel : nat) (raw : string) : list string :=
  match fuel, raw with
  | O, _ | _, "" => []
  | S k, _ => String.substring 0 32 raw :: cut32 k (String.substring 32 (String.length raw) raw)
  end.
Definition dataWords (data : string) : option (list string) :=
  let v := ToLower (TrimSpace data) in
  let d := default v (strip_prefix "0x" v) in
  if negb (Nat.eqb (String.length d `mod` 64) 0) then None
  else raw ← hex_DecodeString d; Some (cut32 (String.length raw) raw).

Definition indexedBytes32 (topics : list string) (index : nat) : option string :=
  t ← topics !! index;
  let value := ToLower t in
  r ← strip_prefix "0x" value;
  if bool_decide (String.length value = 66%nat) && bool_decide (is_Some (hex_DecodeString r))
  then Some value else None.
Definition indexedAddress (topics : list string) (index : nat) : option string :=
  word ← indexedBytes32 topics index;
  match normalizeAddress ("0x" +:+ String.substring (String.length word - 40) 40 word) with
  | Ok a => Some a
  | Err _ => None
  end.

(** [big.Int.SetBytes], big-endian. *)
Fixpoint SetBytes (acc : Z) (word : string) : Z :=
  match word with "" => acc | String c r => SetBytes (256 * acc + byteZ c) r end.
Definition uintWord (word : string) : string := FormatUint (SetBytes 0 word).
Definition uint64Word (word : string) : option Z :=
  let n := SetBytes 0 word in if n <? two64 then Some n else None.
Fixpoint hex_EncodeToString (s : string) : string :=
  match s with
  | "" => ""
  | String c r =>
    String (hexdigit (byteZ c / 16)) (String (hexdigit (byteZ c `mod` 16)) (hex_EncodeToString r))
  end.
Definition bytes32Word (word : string) : string := "0x" +:+ hex_EncodeToString word.

(** One member per word, in order. *)
Definition shaped (name : string) (id : option string) (n : nat) (words : list string)
    (k : string → result IdxErr (option decodedEvent)) : result IdxErr (option decodedEvent) :=
  match id with
  | None => Err (ErrABI name)
  | Some id => if bool_decide (length words = n) then k id else Err (ErrABI name)
  end.
Definition word (n : nat) (words : list string) : string := default "" (words !! n).
Definition rated (name : string) (w : string) (k : Z → result IdxErr (option decodedEvent)) :
    result IdxErr (option decodedEvent) :=
  match uint64Word w with
  | Some rate => if rate <=? 10000 then k rate else Err (ErrRate name)
  | None => Err (ErrRate name)
  end.

Definition decode (log : Log) : result IdxErr (option decodedEvent) :=
  match l_Topics log with
  | [] => Ok None
  | t0 :: _ =>
    let topic0 := ToLower t0 in
    match dataWords (l_Data log) with
    | None => if isH1Topic topic0 then Err (ErrABI topic0) else Ok None
    | Some ws =>
      let jobID := indexedBytes32 (l_Topics log) 1 in
      if bool_decide (topic0 = topicJobFunded) then
        shaped "JobFunded" jobID 1 ws (λ id,
          Ok (Some (MkDecoded "JobFunded" id "" [("amountAtomic", uintWord (word 0 ws))])))
      else if bool_decide (topic0 = topicAdvanceIssued) then
        match jobID with
        | None => Err (ErrABI "AdvanceIssued")
        | Some id =>
          shaped "AdvanceIssued" (indexedAddress (l_Topics log) 2) 3 ws (λ org,
            rated "AdvanceIssued" (word 2 ws) (λ rate,
              Ok (Some (MkDecoded "AdvanceIssued" id org
                [("org", org); ("principalAtomic", uintWord (word 0 ws));
                 ("feeAtomic", uintWord (word 1 ws)); ("rateBps", FormatUint rate)]))))
        end
      else if bool_decide (topic0 = topicExpenseRecorded) then
        shaped "ExpenseRecorded" jobID 2 ws (λ id,
          Ok (Some (MkDecoded "ExpenseRecorded" id ""
            [("amountAtomic", uintWord (word 0 ws)); ("receiptHash", bytes32Word (word 1 ws))])))
      else if bool_decide (topic0 = topicDeliverySubmitted) then
        shaped "DeliverySubmitted" jobID 1 ws (λ id,
          Ok (Some (MkDecoded "DeliverySubmitted" id "" [("deliveryHash", bytes32Word (word 0 ws))])))
      else if bool_decide (topic0 = topicJobSettled) then
        shaped "JobSettled" jobID 2 ws (λ id,
          Ok (Some (MkDecoded "JobSettled" id ""
            [("advanceRepaidAtomic", uintWord (word 0 ws)); ("operatorNetAtomic", uintWord (word 1 ws))])))
      else if bool_decide (topic0 = topicAdvanceRepaid) then
        shaped "AdvanceRepaid" jobID 3 ws (λ id,
          Ok (Some (MkDecoded "AdvanceRepaid" id ""
            [("principalAtomic", uintWord (word 0 ws)); ("feeAtomic", uintWord (word 1 ws));
             ("toReserveAtomic", uintWord (word 2 ws))])))
      else if bool_decide (topic0 = topicAdvanceWrittenOff) then
        shaped "AdvanceWrittenOff" jobID 3 ws (λ id,
          Ok (Some (MkDecoded "AdvanceWrittenOff" id ""
            [("bondSlashedAtomic", uintWord (word 0 ws)); ("reserveUsedAtomic", uintWord (word 1 ws));
             ("socializedAtomic", uintWord (word 2 ws))])))
      else if bool_decide (topic0 = topicRateChanged) then
        shaped "RateChanged" (indexedAddress (l_Topics log) 1) 1 ws (λ org,
          rated "RateChanged" (word 0 ws) (λ rate,
            Ok (Some (MkDecoded "RateChanged" org org [("org", org); ("rateBps", FormatUint rate)]))))
      else Ok None
    end
  end.
End Normalize.

(** ** What decoding promises *)
Lemma SetBytes_bounds w acc : 0 ≤ acc →
  0 ≤ SetBytes acc w < (acc + 1) * 256 ^ Z.of_nat (String.length w).
Proof.
  revert acc. induction w as [|c r IH]; intros acc Ha; [cbn; lia|]. cbn [SetBytes String.length].
  pose proof (byteZ_range c). destruct (IH (256 * acc + byteZ c) ltac:(lia)) as [? Hlt].
  split; [done|]. eapply Z.lt_le_trans; [exact Hlt|].
  rewrite Nat2Z.inj_succ, Z.pow_succ_r by lia.
  assert (0 ≤ 256 ^ Z.of_nat (String.length r)) by (apply Z.pow_nonneg; lia). nia.
Qed.
Lemma substring_length n m s : (String.length (String.substring n m s) ≤ m)%nat.
Proof.
  revert n m. induction s as [|c r IH]; intros [|n] [|m]; cbn; try lia; [specialize (IH 0%nat m)|apply IH|apply IH]; lia.
Qed.
Lemma cut32_length fuel raw : Forall (λ w, String.length w ≤ 32)%nat (cut32 fuel raw).
Proof.
  revert raw. induction fuel as [|k IH]; intros raw; [constructor|]. cbn [cut32].
  destruct raw as [|c r]; constructor; [apply substring_length|apply IH].
Qed.

(** A decimal rendering of an unsigned 256-bit integer. *)
Definition is_uint256 (v : string) : Prop := ∃ z, 0 ≤ z < 2 ^ 256 ∧ v = FormatUint z.
Lemma uintWord_uint256 ws n : Forall (λ w, String.length w ≤ 32)%nat ws → is_uint256 (uintWord (word n ws)).
Proof.
  intros Hws. eexists. split; [|reflexivity].
  assert (Hl : (String.length (word n ws) ≤ 32)%nat).
  { unfold word. destruct (ws !! n) as [w|] eqn:E; cbn; [|lia]. rewrite Forall_lookup in Hws. eauto. }
  destruct (SetBytes_bounds (word n ws) 0 ltac:(lia)) as [? Hlt]. split; [done|].
  eapply Z.lt_le_trans; [exact Hlt|]. rewrite Z.mul_1_l.
  change (2 ^ 256) with (256 ^ 32). apply Z.pow_le_mono_r; lia.
Qed.

Section Promises.
Context (unicodeLower : string → string).
Abbreviation decode := (decode unicodeLower).
Abbreviation dataWords := (dataWords unicodeLower).

Lemma dataWords_length data ws : dataWords data = Some ws → Forall (λ w, String.length w ≤ 32)%nat ws.
Proof.
  unfold Decode.dataWords. destruct (negb _); [done|].
  destruct (hex_DecodeString _); [|done]. intros [= <-]. apply cut32_length.
Qed.

(** The amounts and the rate of a decoded event, and no key twice. *)
Definition well_typed (e : decodedEvent) : Prop :=
  let p := d_Payload e in
  NoDup p.*1 ∧
  match d_Kind e with
  | "JobFunded" => is_uint256 (payload_get "amountAtomic" p)
  | "AdvanceIssued" =>
    is_uint256 (payload_get "principalAtomic" p) ∧ is_uint256 (payload_get "feeAtomic" p) ∧
    ∃ r, 0 ≤ r ≤ 10000 ∧ payload_get "rateBps" p = FormatUint r
  | "ExpenseRecorded" => is_uint256 (payload_get "amountAtomic" p)
  | "DeliverySubmitted" => True
  | "JobSettled" =>
    is_uint256 (payload_get "advanceRepaidAtomic" p) ∧ is_uint256 (payload_get "operatorNetAtomic" p)
  | "AdvanceRepaid" =>
    is_uint256 (payload_get "principalAtomic" p) ∧ is_uint256 (payload_get "feeAtomic" p) ∧
    is_uint256 (payload_get "toReserveAtomic" p)
  | "AdvanceWrittenOff" =>
    is_uint256 (payload_get "bondSlashedAtomic" p) ∧ is_uint256 (payload_get "reserveUsedAtomic" p) ∧
    is_uint256 (payload_get "socializedAtomic" p)
  | "RateChanged" => ∃ r, 0 ≤ r ≤ 10000 ∧ payload_get "rateBps" p = FormatUint r
  | _ => False
  end.

Lemma shaped_cases name id n ws k (P : result IdxErr (option decodedEvent) → Prop) :
  (∀ i, id = Some i → length ws = n → P (k i)) → (∀ e, P (Err e)) → P (shaped name id n ws k).
Proof. intros Hk He. unfold shaped. destruct id; [case_bool_decide|]; auto. Qed.
Lemma rated_cases name w k (P : result IdxErr (option decodedEvent) → Prop) :
  (∀ r, 0 ≤ r ≤ 10000 → P (k r)) → (∀ e, P (Err e)) → P (rated name w k).
Proof.
  intros Hk He. unfold rated, uint64Word. destruct (SetBytes 0 w <? two64); [|auto].
  destruct (SetBytes 0 w <=? 10000) eqn:E; [|auto]. apply Hk. bool_to_prop.
  pose proof (SetBytes_bounds w 0 ltac:(lia)). lia.
Qed.

Lemma decode_cases log :
  match decode log with
  | Err _ => ∃ t r, l_Topics log = t :: r ∧ isH1Topic (ToLower unicodeLower t) = true
  | Ok None => ∀ t r, l_Topics log = t :: r → isH1Topic (ToLower unicodeLower t) = false
  | Ok (Some e) =>
    (∃ t r, l_Topics log = t :: r ∧ isH1Topic (ToLower unicodeLower t) = true) ∧ well_typed e
  end.
Proof.
  unfold Decode.decode. destruct (l_Topics log) as [|t r] eqn:Et; [done|].
  destruct (dataWords (l_Data log)) as [ws|] eqn:Ew; [apply dataWords_length in Ew|].
  2: { destruct (isH1Topic _) eqn:E; [eauto|]. intros ?? [= <- <-]. done. }
  set (t0 := ToLower unicodeLower t).
  assert (Hh : ∀ x, t0 = x → isH1Topic x = true → ∃ t' r', t :: r = t' :: r' ∧ isH1Topic (ToLower unicodeLower t') = true).
  { intros x <- Hx. eauto. }
  pose proof (λ n, uintWord_uint256 ws n Ew) as Hu.
  repeat match goal with |- context [bool_decide (t0 = ?x)] =>
    destruct (decide (t0 = x)) as [Hk|?];
    [ rewrite (bool_decide_true (t0 = x)) by exact Hk; specialize (Hh _ Hk eq_refl);
      repeat lazymatch goal with
      | |- context [shaped ?a ?b ?c ?d ?e] => pattern (shaped a b c d e); apply shaped_cases; [intros|by intros]
      | |- context [rated ?a ?b ?c] => pattern (rated a b c); apply rated_cases; [intros|by intros]
      | |- context [match ?o with Some _ => _ | None => Err _ end] => destruct o
      end; try (exact Hh); (split; [exact Hh|]);
      unfold well_typed; cbn [d_Kind d_Payload payload_get String.eqb Ascii.eqb Bool.eqb];
      (split; [apply (bool_decide_eq_true_1 _); reflexivity|]); rewrite ?and_True; split_and?; try (apply Hu); eauto
    | rewrite (bool_decide_false (t0 = x)) by done ] end.
  intros t' r' [= <- <-]. unfold isH1Topic. apply bool_decide_eq_false. fold t0.
  rewrite !elem_of_cons, elem_of_nil. tauto.
Qed.

(** C13: decoding fails closed.  A log is passed over (kept raw, no event) in
    exactly the case that its first topic is none of the eight H1 topics: a log
    with an H1 topic either decodes or is an error.  What decodes is typed:
    every amount is the decimal form of an unsigned 256-bit integer and every
    rate is at most 10000 basis points. *)
Theorem decode_fails_closed log :
  (decode log = Ok None ↔ ∀ t r, l_Topics log = t :: r → isH1Topic (ToLower unicodeLower t) = false) ∧
  ∀ e, decode log = Ok (Some e) → well_typed e.
Proof.
  pose proof (decode_cases log) as Hc. destruct (decode log) as [[e|]|e].
  - destruct Hc as [(t & r & Ht & Hh) Hw]. split; [|by intros e' [= <-]].
    split; [done|]. intros Ha. specialize (Ha t r Ht). congruence.
  - done.
  - destruct Hc as (t & r & Ht & Hh). split; [|done]. split; [done|].
    intros Ha. specialize (Ha t r Ht). congruence.
Qed.
End Promises.

(** An [ExpenseRecorded] log of 1.5 USDC, as the RPC returns it. *)
Definition zeros64 : string := zeros 64.
Definition sample_expense : Log :=
  MkLog "0x00000000000000000000000000000000000000aa"
    [topicExpenseRecorded; "0x" +:+ zeros64]
    ("0x" +:+ zeros 58 +:+ "16e360" +:+ zeros64) 11 ("0x" +:+ zeros64) ("0x" +:+ zeros64) 3 false.
Lemma decode_fails_closed_witness :
  ∃ e, decode (λ s, s) sample_expense = Ok (Some e) ∧ well_typed e ∧
    payload_get "amountAtomic" (d_Payload e) = "1500000".
Proof.
  eexists. split; [vm_compute; reflexivity|]. split; [|vm_compute; reflexivity].
  apply (proj2 (decode_fails_closed (λ s, s) sample_expense)). vm_compute; reflexivity.
Defined.
