(* ===== verification/Indexer.v ===== *)
(** [internal/indexer/project.go] and [indexer.go]: contract logs become the
    [chain_*] tables.

    A [ChainDB] holds the rows of the configured chain id: every statement of
    the source carries [chain_id = ?] with that one id.  The wall-clock columns
    [observed_at] and [updated_at] are not kept.  [cfaults] decides, statement
    by statement, whether SQLite reports an error.  [Source] is the interface
    of the same name: what the indexer asks of an RPC node. *)
From Stdlib Require Import Ascii String.
From S2P Require Import Prelude GoStr GoTime GoJson Store Decode.
#[local] Open Scope Z_scope.
#[local] Open Scope snap_scope.
#[local] Set Default Proof Using "Type".

(** ** Tables *)
Record LogRow := MkLogRow {
  lr_block : Z; lr_block_hash : string; lr_address : string; lr_topics : list string;
  lr_data : string; lr_decoded : bool }.
Record ChainEvent := MkChainEvent {
  ce_tx : string; ce_index : Z; ce_block : Z; ce_address : string; ce_kind : string;
  ce_entity : string; ce_actor : option string; ce_payload : jval }.
Record Financials := MkFinancials {
  fi_funded : option string; fi_principal : option string; fi_fee : option string;
  fi_status : option string; fi_expense : string; fi_delivery : option string;
  fi_repaid : option string; fi_net : option string; fi_slashed : option string;
  fi_reserve : option string; fi_socialized : option string; fi_last : Z * Z }.
Record ChainDB := MkChainDB {
  chain_logs : gmap (string * Z) LogRow;
  chain_events : list ChainEvent;
  chain_job_financials : gmap string Financials;
  chain_org_rates : gmap string (Z * (Z * Z));
  chain_cursor : option Z }.
Definition emptyChain : ChainDB := MkChainDB ∅ [] ∅ ∅ None.

Definition set_logs (f : gmap (string * Z) LogRow → gmap (string * Z) LogRow) (d : ChainDB) : ChainDB :=
  MkChainDB (f (chain_logs d)) (chain_events d) (chain_job_financials d) (chain_org_rates d) (chain_cursor d).
Definition add_event (e : ChainEvent) (d : ChainDB) : ChainDB :=
  MkChainDB (chain_logs d) (chain_events d ++ [e]) (chain_job_financials d) (chain_org_rates d) (chain_cursor d).
Definition set_jobs (f : gmap string Financials → gmap string Financials) (d : ChainDB) : ChainDB :=
  MkChainDB (chain_logs d) (chain_events d) (f (chain_job_financials d)) (chain_org_rates d) (chain_cursor d).
Definition set_rates (f : gmap string (Z * (Z * Z)) → gmap string (Z * (Z * Z))) (d : ChainDB) : ChainDB :=
  MkChainDB (chain_logs d) (chain_events d) (chain_job_financials d) (f (chain_org_rates d)) (chain_cursor d).
Definition set_cursor (n : Z) (d : ChainDB) : ChainDB :=
  MkChainDB (chain_logs d) (chain_events d) (chain_job_financials d) (chain_org_rates d) (Some n).

(** ** Statements and transactions *)
Record ChainStore := MkChainStore { cdb : ChainDB; cfaults : list bool }.
Abbreviation SQL := (M ChainStore IdxErr).

Definition sql : SQL unit := λ s,
  match cfaults s with
  | true :: fs => (MkChainStore (cdb s) fs, Err ErrSQL)
  | false :: fs => (MkChainStore (cdb s) fs, Ok tt)
  | [] => (s, Ok tt)
  end.
(** A statement that updates the working copy. *)
Definition exec (f : ChainDB → ChainDB) : SQL unit :=
  sql ;;; modifyM (λ s, MkChainStore (f (cdb s)) (cfaults s)).
(** [BeginTx ... defer tx.Rollback() ... Commit]: the body runs on a working
    copy that only a successful commit installs. *)
Definition transaction {A} (body : SQL A) : SQL A := λ s,
  match (sql ;;; a <-- body ;; sql ;;; retM a) s with
  | (s', Ok a) => (s', Ok a)
  | (s', Err e) => (MkChainStore (cdb s) (cfaults s'), Err e)
  end.

(** ** [project.go] *)
Definition addAtomic (a b : string) : result IdxErr string :=
  match parse_int a, parse_int b with
  | Some l, Some r => if (l <? 0) || (r <? 0) then Err ErrAtomic else Ok (FormatInt (l + r))
  | _, _ => Err ErrAtomic
  end.
(** [strconv.ParseUint(s, 10, 16)]. *)
Definition ParseUint16 (s : string) : option Z :=
  n ← parse_uint s; if n <? 65536 then Some n else None.

Definition freshFinancials (pos : Z * Z) : Financials :=
  MkFinancials None None None None "0" None None None None None None pos.

(** The [UPDATE] of one event kind: the columns it sets. *)
Definition update_row (kind : string) (p : list (string * string)) (pos : Z * Z) (f : Financials) :
    result IdxErr Financials :=
  let get k := Some (payload_get k p) in
  if bool_decide (kind = "JobFunded") then
    Ok (MkFinancials (get "amountAtomic") (fi_principal f) (fi_fee f) (fi_status f) (fi_expense f)
      (fi_delivery f) (fi_repaid f) (fi_net f) (fi_slashed f) (fi_reserve f) (fi_socialized f) pos)
  else if bool_decide (kind = "AdvanceIssued") then
    Ok (MkFinancials (fi_funded f) (get "principalAtomic") (get "feeAtomic") (Some "Issued") (fi_expense f)
      (fi_delivery f) (fi_repaid f) (fi_net f) (fi_slashed f) (fi_reserve f) (fi_socialized f) pos)
  else if bool_decide (kind = "ExpenseRecorded") then
    match addAtomic (fi_expense f) (payload_get "amountAtomic" p) with
    | Ok total =>
      Ok (MkFinancials (fi_funded f) (fi_principal f) (fi_fee f) (fi_status f) total
        (fi_delivery f) (fi_repaid f) (fi_net f) (fi_slashed f) (fi_reserve f) (fi_socialized f) pos)
    | Err e => Err e
    end
  else if bool_decide (kind = "DeliverySubmitted") then
    Ok (MkFinancials (fi_funded f) (fi_principal f) (fi_fee f) (fi_status f) (fi_expense f)
      (get "deliveryHash") (fi_repaid f) (fi_net f) (fi_slashed f) (fi_reserve f) (fi_socialized f) pos)
  else if bool_decide (kind = "AdvanceRepaid") then
    Ok (MkFinancials (fi_funded f) (fi_principal f) (fi_fee f) (Some "Repaid") (fi_expense f)
      (fi_delivery f) (fi_repaid f) (fi_net f) (fi_slashed f) (fi_reserve f) (fi_socialized f) pos)
  else if bool_decide (kind = "JobSettled") then
    Ok (MkFinancials (fi_funded f) (fi_principal f) (fi_fee f) (fi_status f) (fi_expense f)
      (fi_delivery f) (get "advanceRepaidAtomic") (get "operatorNetAtomic") (fi_slashed f)
      (fi_reserve f) (fi_socialized f) pos)
  else if bool_decide (kind = "AdvanceWrittenOff") then
    Ok (MkFinancials (fi_funded f) (fi_principal f) (fi_fee f) (Some "WrittenOff") (fi_expense f)
      (fi_delivery f) (fi_repaid f) (fi_net f) (get "bondSlashedAtomic") (get "reserveUsedAtomic")
      (get "socializedAtomic") pos)
  else Err ErrKind.

Definition project (log : Log) (event : decodedEvent) : SQL unit :=
  let pos := (l_BlockNumber log, l_LogIndex log) in
  let job := d_EntityID event in
  if bool_decide (d_Kind event = "RateChanged") then
    match ParseUint16 (payload_get "rateBps" (d_Payload event)) with
    | None => failM (ErrRate "RateChanged")
    | Some rate => exec (set_rates (<[job := (rate, pos)]>))
    end
  else
    exec (set_jobs (λ m, <[job := default (freshFinancials pos) (m !! job)]> m)) ;;;
    (if bool_decide (d_Kind event = "ExpenseRecorded") then sql else retM tt) ;;;
    s <-- getM ;;
    match update_row (d_Kind event) (d_Payload event) pos
            (default (freshFinancials pos) (chain_job_financials (cdb s) !! job)) with
    | Err e => failM e
    | Ok row => exec (set_jobs (<[job := row]>))
    end.

(** ** [indexer.go]: one batch *)
Record Config := MkConfig {
  cf_ChainID : Z; cf_Addresses : list string; cf_StartBlock : Z; cf_ConfirmationDepth : Z;
  cf_ChunkSize : Z }.

Section Apply.
Context (unicodeLower : string → string).
Abbreviation normalizeAddress := (normalizeAddress unicodeLower).
Abbreviation normalizeHash32 := (normalizeHash32 unicodeLower).
Abbreviation normalizeData := (normalizeData unicodeLower).
Abbreviation decode := (decode unicodeLower).

(** [New], which also normalises the addresses and fills in the chunk size. *)
Fixpoint normalizeAll (seen : list string) (l : list string) : result IdxErr (list string) :=
  match l with
  | [] => Ok (rev seen)
  | a :: r =>
    match normalizeAddress a with
    | Err e => Err e
    | Ok n => if bool_decide (n ∈ seen) then Err ErrConfig else normalizeAll (n :: seen) r
    end
  end.
Definition New (cfg : Config) : result IdxErr Config :=
  if cf_ChainID cfg =? 0 then Err ErrConfig
  else if bool_decide (cf_Addresses cfg = []) then Err ErrConfig
  else match normalizeAll [] (cf_Addresses cfg) with
  | Err e => Err e
  | Ok addresses =>
    Ok (MkConfig (cf_ChainID cfg) addresses (cf_StartBlock cfg) (cf_ConfirmationDepth cfg)
          (if cf_ChunkSize cfg =? 0 then 2000 else cf_ChunkSize cfg))
  end.

Definition nullable (v : string) : option string := if bool_decide (v = "") then None else Some v.
Definition mark_decoded (r : LogRow) : LogRow :=
  MkLogRow (lr_block r) (lr_block_hash r) (lr_address r) (lr_topics r) (lr_data r) true.

(** The text columns of one log, normalised in the order of the source. *)
Definition normalizeLog (log : Log) : result IdxErr (string * LogRow) :=
  match normalizeAddress (l_Address log) with
  | Err e => Err e
  | Ok address =>
    if bool_decide (l_Topics log = []) then Err ErrNoTopic0
    else tx ← normalizeHash32 (l_TransactionHash log);
         bh ← normalizeHash32 (l_BlockHash log);
         topics ← mapM normalizeHash32 (l_Topics log);
         data ← normalizeData (l_Data log);
         Ok (tx, MkLogRow (l_BlockNumber log) bh address topics data false)
  end.
Definition event_row (tx : string) (log : Log) (row : LogRow) (e : decodedEvent) : ChainEvent :=
  MkChainEvent tx (l_LogIndex log) (l_BlockNumber log) (lr_address row) (d_Kind e) (d_EntityID e)
    (nullable (d_Actor e)) (payloadJSON e).

(** One turn of the loop of [applyBatch]; the counts are raw logs and events. *)
Definition applyLog (log : Log) (counts : Z * Z) : SQL (Z * Z) :=
  if (max_int64 <? l_BlockNumber log) || (max_int64 <? l_LogIndex log) then failM ErrPosition
  else
    n <-- liftM (normalizeLog log) ;;
    (let '(tx, row) := n in
     let key := (tx, l_LogIndex log) in
     sql ;;;
     s <-- getM ;;
     if bool_decide (is_Some (chain_logs (cdb s) !! key)) then retM counts
     else
       modifyM (λ s, MkChainStore (set_logs (<[key := row]>) (cdb s)) (cfaults s)) ;;;
       d <-- liftM (decode log) ;;
       match d with
       | None => retM (counts.1 + 1, counts.2)
       | Some event =>
         sql ;;;
         s <-- getM ;;
         (if bool_decide (Exists (λ e, (ce_tx e, ce_index e) = key) (chain_events (cdb s)))
          then failM ErrDuplicate
          else modifyM (λ s, MkChainStore (add_event (event_row tx log row event) (cdb s)) (cfaults s))) ;;;
         project log event ;;;
         exec (set_logs (alter mark_decoded key)) ;;;
         retM (counts.1 + 1, counts.2 + 1)
       end).
Fixpoint applyLogs (logs : list Log) (counts : Z * Z) : SQL (Z * Z) :=
  match logs with
  | [] => retM counts
  | log :: r => c <-- applyLog log counts ;; applyLogs r c
  end.
Definition applyBatch (logs : list Log) (nextBlock : Z) : SQL (Z * Z) :=
  if max_int64 <? nextBlock then failM ErrCursorRange
  else transaction (c <-- applyLogs logs (0, 0) ;; exec (set_cursor nextBlock) ;;; retM c).

(** ** [SyncOnce] *)
Definition max_uint64 : Z := two64 - 1.
Record Result := MkResult {
  rs_FromBlock : Z; rs_ThroughBlock : Z; rs_NextBlock : Z; rs_RawLogs : Z; rs_Events : Z }.
Record IndexerState (W : Type) := MkIndexer { ix_store : ChainStore; ix_verified : bool; ix_world : W }.
Arguments MkIndexer {W}. Arguments ix_store {W}. Arguments ix_verified {W}. Arguments ix_world {W}.

(** The [Source] interface; [None] is a Go error. *)
Class Source (W : Type) := {
  source_ChainID : W → W * option Z;
  source_Head : W → W * option Z;
  source_Logs : Filter → W → W * option (list Log) }.

Definition log_less (a b : Log) : bool :=
  if l_BlockNumber a =? l_BlockNumber b then l_LogIndex a <? l_LogIndex b
  else l_BlockNumber a <? l_BlockNumber b.
(** The checks on what the node returned, log by log. *)
Fixpoint checkLogs (cfg : Config) (from to : Z) (logs : list Log) : option IdxErr :=
  match logs with
  | [] => None
  | log :: r =>
    if (l_BlockNumber log <? from) || (to <? l_BlockNumber log) then Some ErrOutsideRange
    else match normalizeAddress (l_Address log) with
    | Err e => Some e
    | Ok address =>
      if negb (bool_decide (address ∈ cf_Addresses cfg)) then Some ErrUnconfigured
      else if l_Removed log then Some ErrRemoved
      else checkLogs cfg from to r
    end
  end.
Definition nextBlock (cfg : Config) : SQL Z :=
  sql ;;; λ s,
    match chain_cursor (cdb s) with
    | None => (s, Ok (cf_StartBlock cfg))
    | Some n => if n <? 0 then (s, Err ErrCursorNegative) else (s, Ok n)
    end.
Definition chunk_end (cfg : Config) (from finalized : Z) : Z :=
  let to := (from + cf_ChunkSize cfg - 1) `mod` two64 in
  if (to <? from) || (finalized <? to) then finalized else to.

Section Sync.
Context {W : Type} `{Source W} (cfg : Config).

(** What [SyncOnce] returns: a result and possibly an error. *)
Definition outcome : Type := Result * option IdxErr.
Definition with_store (s : IndexerState W) (st : ChainStore) : IndexerState W :=
  MkIndexer st (ix_verified s) (ix_world s).
Definition with_world (s : IndexerState W) (w : W) : IndexerState W :=
  MkIndexer (ix_store s) (ix_verified s) w.

(** The loop; [None] is running out of fuel. *)
Fixpoint sync_loop (fuel : nat) (finalized from : Z) (res : Result) (s : IndexerState W) :
    option (IndexerState W * outcome) :=
  if finalized <? from then Some (s, (res, None))
  else match fuel with
  | O => None
  | S k =>
    let to := chunk_end cfg from finalized in
    let '(w, ologs) := source_Logs (MkFilter from to (cf_Addresses cfg)) (ix_world s) in
    let s := with_world s w in
    match ologs with
    | None => Some (s, (res, Some ErrRPC))
    | Some logs =>
      let logs := SliceStable log_less logs in
      match checkLogs cfg from to logs with
      | Some e => Some (s, (res, Some e))
      | None =>
        let '(st, r) := applyBatch logs ((to + 1) `mod` two64) (ix_store s) in
        let s := with_store s st in
        match r with
        | Err e => Some (s, (res, Some e))
        | Ok (raw, ev) =>
          let res := MkResult (rs_FromBlock res) to ((to + 1) `mod` two64)
                       (rs_RawLogs res + raw) (rs_Events res + ev) in
          if to =? max_uint64 then Some (s, (res, None))
          else sync_loop k finalized (to + 1) res s
        end
      end
    end
  end.

Definition emptyResult : Result := MkResult 0 0 0 0 0.
Definition verify_chain (s : IndexerState W) : IndexerState W * option IdxErr :=
  if ix_verified s then (s, None)
  else let '(w, oid) := source_ChainID (ix_world s) in
       let s := with_world s w in
       match oid with
       | None => (s, Some ErrRPC)
       | Some id => if id =? cf_ChainID cfg then (MkIndexer (ix_store s) true (ix_world s), None)
                    else (s, Some ErrChainID)
       end.
(** One iteration per chunk, and one more for the remainder. *)
Definition sync_fuel (next finalized : Z) : nat := S (Z.to_nat ((finalized - next) / cf_ChunkSize cfg)).

Definition SyncOnce (s : IndexerState W) : option (IndexerState W * outcome) :=
  let '(s, oe) := verify_chain s in
  match oe with
  | Some e => Some (s, (emptyResult, Some e))
  | None =>
    let '(w, ohead) := source_Head (ix_world s) in
    let s := with_world s w in
    match ohead with
    | None => Some (s, (emptyResult, Some ErrRPC))
    | Some head =>
      if head <? cf_ConfirmationDepth cfg then Some (s, (emptyResult, None))
      else
        let finalized := head - cf_ConfirmationDepth cfg in
        let '(st, r) := nextBlock cfg (ix_store s) in
        let s := with_store s st in
        match r with
        | Err e => Some (s, (emptyResult, Some e))
        | Ok next =>
          let result := MkResult next 0 next 0 0 in
          if finalized <? next then Some (s, (result, None))
          else sync_loop (sync_fuel next finalized) finalized next result s
        end
    end
  end.
End Sync.
End Apply.
Arguments MkIndexer {W}. Arguments ix_store {W}. Arguments ix_verified {W}. Arguments ix_world {W}.
