(* ===== verification/Chain.v ===== *)
(** The indexer's tables, for any node and for a truthful one.

    [tables_ok]: for any node, [chain_events] is what some decoded logs turn
    into, in the order of the chain, and [chain_job_financials] is the fold of
    those events.  [truthful chain]: the node answers every range query with
    the logs of one fixed list; then the tables are the replay of exactly the
    logs of [chain] below the cursor, and the expense column of a job is the
    sum of its expenses on chain. *)
From Stdlib Require Import Ascii String.
From stdpp Require Import relations.
From S2P Require Import Prelude GoStr GoTime GoJson Store Decode Indexer Replay.
#[local] Open Scope Z_scope.
#[local] Open Scope snap_scope.
#[local] Set Default Proof Using "Type".

(** ** Order *)
Definition pos_of (l : Log) : Z * Z := (l_BlockNumber l, l_LogIndex l).
Lemma log_less_spec a b : log_less a b = true ↔
  l_BlockNumber a < l_BlockNumber b ∨ (l_BlockNumber a = l_BlockNumber b ∧ l_LogIndex a < l_LogIndex b).
Proof.
  unfold log_less. destruct (_ =? _) eqn:E; bool_to_prop; rewrite Z.ltb_lt; lia.
Qed.
Lemma log_less_false a b : log_less a b = false ↔
  l_BlockNumber b < l_BlockNumber a ∨ (l_BlockNumber b = l_BlockNumber a ∧ l_LogIndex b ≤ l_LogIndex a).
Proof. rewrite <-not_true_iff_false, log_less_spec. lia. Qed.
Lemma log_less_asym a b : log_less a b = true → log_less b a = false.
Proof. rewrite log_less_spec, log_less_false. lia. Qed.
Lemma log_less_trans a b c : log_less b a = false → log_less c b = false → log_less c a = false.
Proof. rewrite !log_less_false. lia. Qed.
Abbreviation in_order := (StronglySorted (not_after log_less)).
Lemma SliceStable_in_order l : in_order (SliceStable log_less l).
Proof. apply SliceStable_sorted; [apply log_less_asym|apply log_less_trans]. Qed.

Lemma sorted_remove {A} (R : A → A → Prop) a x b :
  StronglySorted R (a ++ x :: b) → StronglySorted R (a ++ b).
Proof.
  induction a as [|y a IH]; cbn; intros Hs; inversion Hs as [|? ? Hs' Hall]; subst; [done|].
  constructor; [auto|]. rewrite Forall_app, Forall_cons in Hall. rewrite Forall_app. tauto.
Qed.
Lemma sorted_join {A} (R : A → A → Prop) a b :
  StronglySorted R a → StronglySorted R b → (∀ x y, x ∈ a → y ∈ b → R x y) → StronglySorted R (a ++ b).
Proof.
  induction 1 as [|x a Hs IH Hall]; intros Hb Hab; [done|]. cbn. constructor.
  - apply IH; [done|]. intros. apply Hab; [by right|done].
  - rewrite Forall_app. split; [done|]. apply Forall_forall. intros y Hy. apply Hab; [by left|done].
Qed.

Section Chain.
Context (unicodeLower : string → string).
Abbreviation decode := (decode unicodeLower).
Abbreviation normalizeLog := (normalizeLog unicodeLower).
Abbreviation replay := (replay unicodeLower).
Abbreviation apply1 := (apply1 unicodeLower).

(** ** The effect of one log *)
Inductive effect (log : Log) (d : ChainDB) : ChainDB → Prop :=
| effect_known tx row :
    normalizeLog log = Ok (tx, row) → is_Some (chain_logs d !! (tx, l_LogIndex log)) → effect log d d
| effect_raw tx row :
    normalizeLog log = Ok (tx, row) → chain_logs d !! (tx, l_LogIndex log) = None →
    decode log = Ok None → effect log d (set_logs (<[(tx, l_LogIndex log) := row]>) d)
| effect_event tx row e d1 :
    normalizeLog log = Ok (tx, row) → chain_logs d !! (tx, l_LogIndex log) = None →
    decode log = Ok (Some e) →
    project1 (pos_of log) e
      (add_event (event_row tx log row e) (set_logs (<[(tx, l_LogIndex log) := row]>) d)) = Ok d1 →
    effect log d (set_logs (alter mark_decoded (tx, l_LogIndex log)) d1).
Lemma apply1_effect d log d' : apply1 d log = Ok d' → effect log d d'.
Proof.
  unfold Replay.apply1. destruct (fits log); [|done].
  destruct (normalizeLog log) as [[tx row]|] eqn:En; [|done]. cbn.
  case_bool_decide as Hk; [intros [= <-]; by eapply effect_known|].
  apply eq_None_not_Some in Hk. destruct (decode log) as [[e|]|] eqn:Ed; [| |done].
  - cbn. case_bool_decide; [done|]. destruct (project1 _ _ _) as [d1|] eqn:Ep; [|done].
    intros [= <-]. by eapply effect_event.
  - intros [= <-]. by eapply effect_raw.
Qed.

(** The financials, event by event. *)
Definition project_jobs (pos : Z * Z) (e : decodedEvent) (m : gmap string Financials) :
    result IdxErr (gmap string Financials) :=
  if bool_decide (d_Kind e = "RateChanged") then Ok m
  else row ← update_row (d_Kind e) (d_Payload e) pos (default (freshFinancials pos) (m !! d_EntityID e));
       Ok (<[d_EntityID e := row]> m).
Lemma project1_jobs pos e d d1 :
  project1 pos e d = Ok d1 →
  project_jobs pos e (chain_job_financials d) = Ok (chain_job_financials d1) ∧
  chain_events d1 = chain_events d ∧ chain_logs d1 = chain_logs d.
Proof.
  unfold project1, project_jobs. case_bool_decide.
  - destruct (ParseUint16 _); [|done]. by intros [= <-].
  - destruct (update_row _ _ _ _); [|done]. by intros [= <-].
Qed.
Fixpoint jobs_fold (m : gmap string Financials) (l : list (Log * decodedEvent)) :
    result IdxErr (gmap string Financials) :=
  match l with
  | [] => Ok m
  | (log, e) :: r => m ← project_jobs (pos_of log) e m; jobs_fold m r
  end.
Lemma jobs_fold_app m l l' : jobs_fold m (l ++ l') = (m ← jobs_fold m l; jobs_fold m l').
Proof.
  revert m. induction l as [|[log e] l IH]; intros m; [done|]. cbn.
  destruct (project_jobs _ _ _); [|done]. cbn. apply IH.
Qed.

(** ** The tables of any node *)
Definition decoded_as (p : Log * decodedEvent) (c : ChainEvent) : Prop :=
  decode p.1 = Ok (Some p.2) ∧ ∃ tx row, normalizeLog p.1 = Ok (tx, row) ∧ c = event_row tx p.1 row p.2.
Definition explained (l : list (Log * decodedEvent)) (d : ChainDB) : Prop :=
  Forall2 decoded_as l (chain_events d) ∧ jobs_fold ∅ l = Ok (chain_job_financials d).

Lemma explained_step l d log d' :
  explained l d → apply1 d log = Ok d' → explained l d' ∨ ∃ e, explained (l ++ [(log, e)]) d'.
Proof.
  intros [Hev Hj] Ha. apply apply1_effect in Ha as [|tx row ? ? ?|tx row e d1 Hn Hk Hd Hp]; [by left|by left|right].
  exists e. apply project1_jobs in Hp as (Hpj & Hpe & _). split; cbn.
  - rewrite Hpe. cbn. apply Forall2_app; [done|]. constructor; [|done]. split; eauto.
  - rewrite jobs_fold_app, Hj. cbn. cbn in Hpj. by rewrite Hpj.
Qed.
Lemma explained_replay (P : Log → Prop) logs l d d' :
  explained l d → replay d logs = Ok d' → in_order ((fst <$> l) ++ logs) → Forall P ((fst <$> l) ++ logs) →
  ∃ l', explained l' d' ∧ in_order (fst <$> l') ∧ Forall P (fst <$> l').
Proof.
  revert l d. induction logs as [|log logs IH]; intros l d Hx Hr Hs Hp; cbn in Hr.
  { simplify_eq. rewrite app_nil_r in Hs, Hp. eauto. }
  destruct (apply1 d log) as [d1|] eqn:Ea; [|done]. cbn in Hr.
  destruct (explained_step _ _ _ _ Hx Ea) as [Hx1|[e Hx1]].
  - apply (IH _ _ Hx1 Hr); [by apply sorted_remove in Hs|].
    rewrite Forall_app, Forall_cons in Hp. rewrite Forall_app. tauto.
  - apply (IH _ _ Hx1 Hr); rewrite fmap_app, <-app_assoc; done.
Qed.

Definition tables_ok (cfg : Config) (d : ChainDB) : Prop :=
  ∃ l, explained l d ∧ in_order (fst <$> l) ∧
       Forall (λ log, l_BlockNumber log < next_of cfg d) (fst <$> l).

Lemma checkLogs_none cfg from to logs :
  checkLogs unicodeLower cfg from to logs = None → Forall (λ l, from ≤ l_BlockNumber l ≤ to) logs.
Proof.
  induction logs as [|log logs IH]; [constructor|]. cbn. destruct (_ || _) eqn:E; [done|].
  destruct (normalizeAddress _ _); [|done]. destruct (negb _); [done|]. destruct (l_Removed log); [done|].
  bool_to_prop. constructor; [lia|auto].
Qed.

Context {W : Type} `{Source W} (cfg : Config).

Lemma tables_ok_inductive : batch_inductive unicodeLower cfg (tables_ok cfg).
Proof.
  intros d to w w' logs d' (l & Hx & Hs & Hb) [Hn Hle] _ _ Hc Hr. apply checkLogs_none in Hc.
  destruct (explained_replay (λ log, l_BlockNumber log < to + 1) _ _ _ _ Hx Hr) as (l' & Hx' & Hs' & Hb').
  - apply sorted_join; [done|apply SliceStable_in_order|]. intros x y Hx1 Hy.
    rewrite Forall_forall in Hb, Hc. specialize (Hb x Hx1). specialize (Hc y Hy).
    apply log_less_false. lia.
  - rewrite Forall_app. split; eapply Forall_impl; try done; cbn; intros; lia.
  - exists l'. done.
Qed.
Lemma tables_ok_empty : tables_ok cfg emptyChain.
Proof. exists []. repeat constructor. Qed.
End Chain.

(** ** A truthful node *)
Section Truth.
Context (unicodeLower : string → string).
Abbreviation decode := (decode unicodeLower).
Abbreviation normalizeLog := (normalizeLog unicodeLower).
Abbreviation replay := (replay unicodeLower).
Context {W : Type} `{Source W} (cfg : Config) (chain : list Log).

(** [eth_getLogs] answers a range with the logs of that range, in some order. *)
Definition truthful : Prop :=
  ∀ f w w' logs, source_Logs f w = (w', Some logs) →
    logs ≡ₚ filter (λ l, fl_FromBlock f ≤ l_BlockNumber l ≤ fl_ToBlock f) chain.
(** A position of the chain holds one log. *)
Definition one_position : Prop := ∀ a b, a ∈ chain → b ∈ chain → pos_of a = pos_of b → a = b.
(** So does a transaction hash with a log index. *)
Definition key_of (log : Log) : option (string * Z) :=
  match normalizeLog log with Ok (tx, _) => Some (tx, l_LogIndex log) | Err _ => None end.
Definition one_key : Prop :=
  NoDup chain ∧ ∀ a b, a ∈ chain → b ∈ chain → is_Some (key_of a) → key_of a = key_of b → a = b.

(** The logs of the chain from the start block up to the cursor. *)
Definition below (cur : Z) : list Log :=
  filter (λ l, cf_StartBlock cfg ≤ l_BlockNumber l < cur) chain.
Definition window (cur : Z) : list Log := SliceStable log_less (below cur).

Definition is_replay (d : ChainDB) : Prop :=
  match chain_cursor d with
  | None => d = emptyChain
  | Some cur => cf_StartBlock cfg ≤ cur ∧ ∃ d0, replay emptyChain (window cur) = Ok d0 ∧ d = set_cursor cur d0
  end.

Lemma project1_set_cursor pos e n d :
  project1 pos e (set_cursor n d) = set_cursor n <$> project1 pos e d.
Proof.
  unfold project1. case_bool_decide; [by destruct (ParseUint16 _)|]. cbn [set_cursor chain_job_financials].
  by destruct (update_row _ _ _ _).
Qed.
Lemma replay_set_cursor n logs d :
  replay (set_cursor n d) logs = set_cursor n <$> replay d logs.
Proof.
  revert d. induction logs as [|log logs IH]; intros d; [done|]. cbn.
  assert (Hone : apply1 unicodeLower (set_cursor n d) log = set_cursor n <$> apply1 unicodeLower d log).
  { unfold apply1. destruct (fits log); [|done]. destruct (normalizeLog log) as [[tx row]|]; [|done]. cbn.
    case_bool_decide; [done|]. destruct (decode log) as [[e|]|]; [|done..]. cbn.
    case_bool_decide; [done|].
    change (add_event ?r (set_logs ?f (set_cursor n d))) with (set_cursor n (add_event r (set_logs f d))).
    rewrite project1_set_cursor. by destruct (project1 _ _ _). }
  rewrite Hone. destruct (apply1 _ d log) as [d1|]; [|done]. cbn. apply IH.
Qed.

Lemma one_order a b : one_position → a ∈ chain → b ∈ chain →
  log_less a b = false → log_less b a = false → a = b.
Proof.
  rewrite !log_less_false. intros Ho Ha Hb H1 H2. apply Ho; [done..|]. unfold pos_of. f_equal; lia.
Qed.
Lemma same_sort l l' : one_position → (∀ x, x ∈ l → x ∈ chain) → l ≡ₚ l' → in_order l → in_order l' → l = l'.
Proof.
  intros Ho Hl Hp Hs Hs'. apply (sorted_perm_unique log_less); [|done..].
  intros x y Hx Hy. apply one_order; auto.
Qed.
Lemma window_split cur to : one_position → cf_StartBlock cfg ≤ cur ≤ to →
  window (to + 1) = window cur ++ SliceStable log_less (filter (λ l, cur ≤ l_BlockNumber l ≤ to) chain).
Proof.
  intros Ho Hle. unfold window. apply same_sort; [done| | |apply SliceStable_in_order|].
  - intros x. rewrite SliceStable_perm. unfold below. rewrite list_elem_of_filter. tauto.
  - rewrite !SliceStable_perm. unfold below. clear Ho. induction chain as [|x l IH]; [done|].
    rewrite !filter_cons. repeat case_decide; try lia; cbn; [by rewrite IH| |done].
    rewrite IH. by rewrite Permutation_middle.
  - apply sorted_join; [apply SliceStable_in_order..|]. intros x y. rewrite !SliceStable_perm.
    unfold below. rewrite !list_elem_of_filter. intros [? _] [? _]. apply log_less_false. lia.
Qed.

Lemma is_replay_inductive : truthful → one_position → batch_inductive unicodeLower cfg is_replay.
Proof.
  intros Ht Ho d to w w' logs d' Hi [Hn Hle] _ Hl _ Hr. apply Ht in Hl. cbn in Hl.
  assert (Hw : ∃ d0, cf_StartBlock cfg ≤ next_of cfg d ∧ replay emptyChain (window (next_of cfg d)) = Ok d0 ∧
             (d = d0 ∨ d = set_cursor (next_of cfg d) d0)).
  { unfold is_replay in Hi. unfold next_of in *. destruct (chain_cursor d) as [cur|]; cbn in *.
    - destruct Hi as (? & d0 & Hd0 & ->). eauto.
    - exists emptyChain. split; [lia|]. subst d. split; [|by left]. unfold window, below.
      assert (Hnone : filter (λ l, cf_StartBlock cfg ≤ l_BlockNumber l < cf_StartBlock cfg) chain = []).
      { clear. induction chain as [|x l IH]; [done|]. rewrite filter_cons, decide_False by lia. done. }
      by rewrite Hnone. }
  destruct Hw as (d0 & Hst & Hd0 & Hd).
  assert (Hsort : SliceStable log_less logs =
    SliceStable log_less (filter (λ l, next_of cfg d ≤ l_BlockNumber l ≤ to) chain)).
  { apply same_sort; [done| |by rewrite !SliceStable_perm|apply SliceStable_in_order..].
    intros x. rewrite SliceStable_perm, Hl, list_elem_of_filter. tauto. }
  rewrite Hsort in Hr. unfold is_replay. cbn [set_cursor chain_cursor].
  split; [lia|]. rewrite (window_split (next_of cfg d) to) by (done || lia).
  destruct (replay d0 (SliceStable log_less (filter (λ l, next_of cfg d ≤ l_BlockNumber l ≤ to) chain)))
    as [d1|] eqn:E.
  - exists d1. rewrite replay_app, Hd0. cbn. split; [done|].
    destruct Hd as [Hd|Hd]; rewrite Hd in Hr at 1; rewrite ?replay_set_cursor, E in Hr; by injection Hr as <-.
  - exfalso. destruct Hd as [Hd|Hd]; rewrite Hd in Hr at 1; rewrite ?replay_set_cursor, E in Hr; done.
Qed.

(** ** Expenses *)
Definition expense (job : string) (e : decodedEvent) : Z :=
  if bool_decide (d_Kind e = "ExpenseRecorded") && bool_decide (d_EntityID e = job)
  then default 0 (parse_int (payload_get "amountAtomic" (d_Payload e))) else 0.
Definition expense_of (job : string) (log : Log) : Z :=
  match decode log with Ok (Some e) => expense job e | _ => 0 end.
Definition expense_column (m : gmap string Financials) (job : string) : string :=
  default "0" (fi_expense <$> m !! job).

Lemma update_row_expense kind p pos f row x :
  update_row kind p pos f = Ok row → fi_expense f = FormatInt x →
  fi_expense row =
    FormatInt (x + if bool_decide (kind = "ExpenseRecorded")
                   then default 0 (parse_int (payload_get "amountAtomic" p)) else 0).
Proof.
  unfold update_row. intros Hu Hx.
  case_bool_decide as K1; [subst kind; injection Hu as <-; cbn; by rewrite Z.add_0_r|].
  case_bool_decide as K2; [subst kind; injection Hu as <-; cbn; by rewrite Z.add_0_r|].
  case_bool_decide as K3.
  { unfold addAtomic in Hu. rewrite Hx, parse_int_FormatInt in Hu.
    destruct (parse_int _) as [y|]; [|done]. destruct (_ || _); [done|]. by injection Hu as <-. }
  rewrite Z.add_0_r. repeat case_bool_decide; simplify_eq/=; done.
Qed.
Lemma project_jobs_expense pos e m m' job x :
  project_jobs pos e m = Ok m' → expense_column m job = FormatInt x →
  expense_column m' job = FormatInt (x + expense job e).
Proof.
  unfold project_jobs, expense. case_bool_decide as Hk.
  { intros [= <-] ->. rewrite Hk. cbn. by rewrite Z.add_0_r. }
  destruct (update_row _ _ _ _) as [row|] eqn:E; [|done]. intros [= <-] Hx. unfold expense_column in *.
  destruct (decide (d_EntityID e = job)) as [<-|Hne].
  - rewrite lookup_insert_eq. cbn. rewrite (bool_decide_true (d_EntityID e = d_EntityID e)) by done. rewrite andb_true_r.
    eapply update_row_expense; [exact E|]. rewrite <-Hx. by destruct (m !! _).
  - rewrite lookup_insert_ne by done. rewrite Hx. rewrite (bool_decide_false (_ = job)) by done.
    rewrite andb_false_r. by rewrite Z.add_0_r.
Qed.

Lemma replay_expenses ls d : replay emptyChain ls = Ok d → NoDup ls →
  (∀ a b, a ∈ ls → b ∈ ls → is_Some (key_of a) → key_of a = key_of b → a = b) →
  (∀ key, is_Some (chain_logs d !! key) → ∃ l, l ∈ ls ∧ key_of l = Some key) ∧
  ∀ job, expense_column (chain_job_financials d) job = FormatInt (sumZ (expense_of job <$> ls)).
Proof.
  revert d. induction ls as [|log ls IH] using rev_ind; intros d Hr Hnd Hk.
  { cbn in Hr. injection Hr as <-. split; [|done]. intros key [? Hs]. cbn in Hs. by rewrite lookup_empty in Hs. }
  rewrite replay_app in Hr. destruct (replay emptyChain ls) as [d0|]; [|done]. cbn in Hr.
  destruct (apply1 _ d0 log) as [d1|] eqn:Ea; [|done]. cbn in Hr. injection Hr as <-.
  apply NoDup_app in Hnd as (Hnd & Hno & _).
  destruct (IH d0) as [Hkeys Hexp]; [done|done|intros; apply Hk; rewrite ?elem_of_app; auto|].
  assert (Hsub : ∀ key, (∃ l, l ∈ ls ∧ key_of l = Some key) → ∃ l, l ∈ ls ++ [log] ∧ key_of l = Some key).
  { intros key (l & ? & ?). exists l. rewrite elem_of_app. auto. }
  assert (Hsum : ∀ job, sumZ (expense_of job <$> ls ++ [log]) = sumZ (expense_of job <$> ls) + expense_of job log).
  { intros job. rewrite fmap_app, sumZ_app. cbn. rewrite sumZ_cons. change (sumZ []) with 0. lia. }
  assert (Hkey : ∀ tx row, normalizeLog log = Ok (tx, row) → key_of log = Some (tx, l_LogIndex log)).
  { intros tx row Hn. unfold key_of. by rewrite Hn. }
  apply apply1_effect in Ea as [tx row Hn Hin|tx row Hn Hin Hd|tx row e d2 Hn Hin Hd Hp].
  - exfalso. apply Hkeys in Hin as (l & Hl & Hlk). apply (Hno l Hl). rewrite list_elem_of_singleton.
    apply Hk; rewrite ?elem_of_app, ?list_elem_of_singleton; [by left|by right|by rewrite Hlk|].
    rewrite Hlk. symmetry. eauto.
  - split.
    + intros key. cbn. destruct (decide (key = (tx, l_LogIndex log))) as [->|Hne].
      * intros _. exists log. rewrite elem_of_app, list_elem_of_singleton. eauto.
      * rewrite lookup_insert_ne by done. eauto.
    + intros job. rewrite Hsum. unfold expense_of at 2. rewrite Hd, Z.add_0_r. apply Hexp.
  - apply project1_jobs in Hp as (Hpj & _ & Hpl). cbn in Hpj, Hpl. split.
    + intros key. cbn. rewrite Hpl. destruct (decide (key = (tx, l_LogIndex log))) as [->|Hne].
      * intros _. exists log. rewrite elem_of_app, list_elem_of_singleton. eauto.
      * rewrite lookup_alter_ne, lookup_insert_ne by done. eauto.
    + intros job. rewrite Hsum. cbn. unfold expense_of at 2. rewrite Hd.
      eapply project_jobs_expense; [exact Hpj|apply Hexp].
Qed.
End Truth.

(** ** Properties *)
Definition uint64_config (cfg : Config) : Prop :=
  0 ≤ cf_ChunkSize cfg < two64 ∧ 0 ≤ cf_StartBlock cfg < two64 ∧ 0 ≤ cf_ConfirmationDepth cfg < two64.
Lemma New_config_ok unicodeLower cfg0 cfg :
  uint64_config cfg0 → New unicodeLower cfg0 = Ok cfg → config_ok cfg.
Proof.
  unfold uint64_config, New, config_ok. intros Hu. destruct (_ =? 0); [done|].
  case_bool_decide; [done|]. destruct (normalizeAll _ _ _); [|done]. intros [= <-]. cbn.
  destruct (cf_ChunkSize cfg0 =? 0) eqn:E; bool_to_prop; unfold two64 in *; lia.
Qed.

Section Properties.
Context (unicodeLower : string → string) {W : Type} `{Source W}.

(** C12: a poll of the chain always returns.  Whatever the node answers and
    whichever statements fail, [SyncOnce] comes back after at most one request
    per chunk of the unfinished range and one more: the chunk arithmetic, its
    64-bit wrap-around included, always moves past the head. *)
Theorem SyncOnce_terminates cfg0 cfg :
  uint64_config cfg0 → New unicodeLower cfg0 = Ok cfg → heads_below two64 →
  ∀ s, is_Some (SyncOnce unicodeLower cfg s).
Proof. intros Hu Hn Hh s. apply SyncOnce_returns; [by eapply New_config_ok|done]. Qed.

(** A poll that reports no error has indexed everything finalised.  When
    [SyncOnce] returns without an error and the node's head is [head], the
    durable cursor is past [head - ConfirmationDepth] (or stayed where it was,
    if it already was there): an incomplete poll is never reported as done. *)
Lemma SyncOnce_catches_up cfg0 cfg head s s' res :
  uint64_config cfg0 → New unicodeLower cfg0 = Ok cfg →
  cf_ConfirmationDepth cfg ≤ head < max_uint64 → (∀ w, (source_Head w).2 = Some head) →
  SyncOnce unicodeLower cfg s = Some (s', (res, None)) →
  next_of cfg (cdb (ix_store s')) =
    Z.max (next_of cfg (cdb (ix_store s))) (head - cf_ConfirmationDepth cfg + 1).
Proof.
  intros Hu Hn Hb Hh. pose proof (New_config_ok _ _ _ Hu Hn) as Hc. unfold SyncOnce.
  destruct (verify_chain cfg s) as [s1 oe] eqn:Ev. apply verify_chain_store in Ev. rewrite <-Ev.
  destruct oe as [e|]; [by intros ?; simplify_eq|].
  specialize (Hh (ix_world s1)). destruct (source_Head (ix_world s1)) as [w oh]. cbn in Hh. subst oh.
  destruct (head <? _) eqn:Ehd; bool_to_prop; [lia|]. cbn [with_world ix_store].
  destruct (nextBlock cfg (ix_store s1)) as [st r] eqn:En.
  apply nextBlock_cases in En as [Hd [[-> Hp]|[e ->]]]; [|by intros ?; simplify_eq].
  destruct Hc as [? [? ?]].
  destruct (_ <? next_of _ _) eqn:E; bool_to_prop; [intros ?; simplify_eq; cbn; rewrite Hd; lia|].
  intros Hq. eapply sync_loop_reaches in Hq; [exact Hq|done|lia|apply Hp; lia|]. cbn. by rewrite Hd.
Qed.


(** The expense column is the chain's own total.  At any moment of any run
    against a truthful node, the expense total of a job is the decimal form of
    the sum of the amounts of the [ExpenseRecorded] logs of that job between
    the start block and the cursor: exact, whatever the size of the sum. *)
Lemma expenses_match_chain cfg0 cfg chain :
  uint64_config cfg0 → New unicodeLower cfg0 = Ok cfg → heads_below max_uint64 →
  truthful chain → one_position chain → one_key unicodeLower chain →
  ∀ s job, indexed unicodeLower cfg s →
  let d := cdb (ix_store s) in
  expense_column (chain_job_financials d) job =
    FormatInt (sumZ (expense_of unicodeLower job <$> below cfg chain (next_of cfg d))).
Proof.
  intros Hu Hn Hh Ht Ho [Hnd Hk] s job Hs d.
  assert (Hr : is_replay unicodeLower cfg chain d).
  { apply (indexed_inv unicodeLower cfg); [by eapply New_config_ok|done|by apply is_replay_inductive|done|done]. }
  unfold is_replay, next_of in *. destruct (chain_cursor d) as [cur|]; cbn.
  - destruct Hr as (_ & d0 & Hd0 & Hd). rewrite Hd. cbn.
    assert (Hin : ∀ x, x ∈ window cfg chain cur → x ∈ chain).
    { intros x. unfold window. rewrite SliceStable_perm. unfold below. rewrite list_elem_of_filter. tauto. }
    destruct (replay_expenses _ _ _ Hd0) as [_ He].
    + unfold window. rewrite SliceStable_perm. by apply NoDup_filter.
    + auto.
    + rewrite He. f_equal. apply sumZ_perm. unfold window. by rewrite SliceStable_perm.
  - rewrite Hr. assert (Hnone : below cfg chain (cf_StartBlock cfg) = []).
    { unfold below. clear. induction chain as [|x l IH]; [done|]. rewrite filter_cons, decide_False by lia. done. }
    by rewrite Hnone.
Qed.
End Properties.

(** ** A chain of three logs *)
Definition sample_log (topic data : string) (block index : Z) (tx : string) : Log :=
  MkLog "0x00000000000000000000000000000000000000aa" [topic; "0x" +:+ zeros64] data block
    ("0x" +:+ zeros64) ("0x" +:+ zeros 63 +:+ tx) index false.
Definition sample_amount (hex6 : string) : string := "0x" +:+ zeros 58 +:+ hex6.
Definition sample_chain : list Log :=
  [ sample_log topicExpenseRecorded (sample_amount "0f4240" +:+ zeros64) 13 0 "2";
    sample_expense;
    sample_log topicJobFunded (sample_amount "4c4b40") 10 1 "1" ].
Definition sample_source : Source unit :=
  {| source_ChainID := λ w, (w, Some 7);
     source_Head := λ w, (w, Some 14);
     source_Logs := λ f w, (w, Some (filter (λ l, fl_FromBlock f ≤ l_BlockNumber l ≤ fl_ToBlock f) sample_chain)) |}.
Definition sample_config : Config :=
  MkConfig 7 ["0x00000000000000000000000000000000000000AA"] 9 1 2.
Definition sample_deployed : Config :=
  MkConfig 7 ["0x00000000000000000000000000000000000000aa"] 9 1 2.
Definition sample_start : IndexerState unit := MkIndexer (MkChainStore emptyChain []) false tt.
Definition sample_synced : IndexerState unit :=
  match SyncOnce (H := sample_source) (λ s, s) sample_deployed sample_start with
  | Some (s, _) => s
  | None => sample_start
  end.

Lemma sample_indexed : indexed (H := sample_source) (λ s, s) sample_deployed sample_synced.
Proof.
  exists [], false, tt. unfold sample_synced.
  destruct (SyncOnce (λ s, s) sample_deployed sample_start) as [[s o]|] eqn:E; [|apply rtc_refl].
  eapply rtc_once, istep_sync, E.
Qed.
Lemma sample_heads b : 14 < b → heads_below (H := sample_source) b.
Proof. intros Hb w w' h Hh. injection Hh as _ <-. lia. Qed.
Lemma sample_truthful : truthful (H := sample_source) sample_chain.
Proof. intros f w w' logs Hl. by injection Hl as _ <-. Qed.
Ltac sample_pair :=
  intros a b; unfold sample_chain; rewrite !elem_of_cons, !elem_of_nil;
  intros [-> |[-> |[-> |[]]]] [-> |[-> |[-> |[]]]];
  intros; first [reflexivity | exfalso; vm_compute in *; discriminate].
Lemma sample_positions : one_position sample_chain.
Proof. unfold one_position. sample_pair. Qed.
Lemma sample_keys : one_key (λ s, s) sample_chain.
Proof.
  split; [|sample_pair]. apply (NoDup_fmap_1 l_BlockNumber), (bool_decide_eq_true_1 _).
  vm_compute. reflexivity.
Qed.

Lemma SyncOnce_terminates_witness :
  is_Some (SyncOnce (H := sample_source) (λ s, s) sample_deployed sample_start).
Proof.
  apply (SyncOnce_terminates (λ s, s) sample_config); [unfold uint64_config; cbn; unfold two64; lia| |].
  - vm_compute. reflexivity.
  - apply sample_heads. unfold two64. lia.
Defined.
Lemma SyncOnce_catches_up_witness :
  next_of sample_deployed (cdb (ix_store sample_synced)) = 14.
Proof.
  unfold sample_synced. destruct (SyncOnce (λ s, s) sample_deployed sample_start) as [[s [res oe]]|] eqn:E.
  2: { exfalso.
       assert (Hs : bool_decide (is_Some (SyncOnce (H := sample_source) (λ s, s) sample_deployed sample_start)) = true)
         by (vm_compute; reflexivity).
       rewrite E in Hs. discriminate Hs. }
  assert (Hoe : option_map (λ r, r.2.2) (SyncOnce (H := sample_source) (λ s, s) sample_deployed sample_start) = Some None)
    by (vm_compute; reflexivity).
  rewrite E in Hoe. cbn in Hoe. injection Hoe as ->.
  rewrite (SyncOnce_catches_up (H := sample_source) (λ s, s) sample_config sample_deployed 14 sample_start s res);
    [reflexivity|unfold uint64_config; cbn; unfold two64; lia|vm_compute; reflexivity
    |cbn; unfold max_uint64, two64; lia|done|exact E].
Defined.
Lemma expenses_match_chain_witness :
  expense_column (chain_job_financials (cdb (ix_store sample_synced))) ("0x" +:+ zeros64) = "2500000".
Proof.
  rewrite (expenses_match_chain (H := sample_source) (λ s, s) sample_config sample_deployed sample_chain);
    [vm_compute; reflexivity|unfold uint64_config; cbn; unfold two64; lia|vm_compute; reflexivity| | | | |].
  - apply sample_heads. unfold max_uint64, two64. lia.
  - apply sample_truthful.
  - apply sample_positions.
  - apply sample_keys.
  - apply sample_indexed.
Defined.
