(* ===== verification/Ledger.v ===== *)
(** [internal/indexer/reconcile.go]: the local job ledger against the chain's
    projection.

    The state is the rows of [jobs] and [reconciliation_alerts] (of one chain
    id) next to the chain tables.  Go's iteration over a map is [range], any
    enumeration of it.  An amount in the ledger is human-readable USDC, one in
    the projection atomic. *)
From Stdlib Require Import Ascii String.
From S2P Require Import Prelude GoStr GoTime GoJson Amount Store Decode Indexer.
#[local] Open Scope Z_scope.
#[local] Open Scope snap_scope.
#[local] Set Default Proof Using "Type".

(** ** Exact decimal amounts *)
Definition micros_of (parts : list string) : option Z :=
  match parts with
  | [w] => z ← parse_uint w; Some (z * 1000000)
  | [w; f] =>
    if bool_decide (f = "") || Nat.ltb 6 (String.length f) then None
    else z ← parse_uint w; y ← parse_uint (f +:+ zeros (6 - String.length f)); Some (z * 1000000 + y)
  | _ => None
  end.
Definition usdcAtomic (v : string) : option string :=
  let v := TrimSpace v in
  match v with
  | "" => None
  | String c _ =>
    if bool_decide (c = "-"%char) || bool_decide (c = "+"%char) then None
    else FormatInt <$> micros_of (split_on "." v)
  end.

(** ** Rows *)
Record JobRow := MkJobRow {
  jr_id : string; jr_vault : option string; jr_quote : option string; jr_principal : option string;
  jr_fee : option string; jr_status : option string }.
Record AlertRow := MkAlertRow {
  al_job : string; al_field : string; al_local : string; al_chain : string;
  al_detected : Z; al_resolved : bool }.
(** The rows by id, and the next id of [AUTOINCREMENT]. *)
Record AlertTable := MkAlertTable { at_rows : gmap Z AlertRow; at_next : Z }.
Record LedgerStore := MkLedgerStore {
  lg_chain : ChainDB; lg_jobs : list JobRow; lg_alerts : AlertTable; lg_faults : list bool }.
Record Alert := MkAlert {
  a_JobID : string; a_Field : string; a_Local : string; a_Chain : string; a_DetectedAt : time }.
Record Reconciliation := MkReconciliation { rn_HasMismatch : bool; rn_Alerts : list Alert }.
Inductive LedgerErr := LErrSQL | LErrUnique.
Abbreviation LM := (M LedgerStore LedgerErr).

Definition lsql : LM unit := λ s,
  match lg_faults s with
  | true :: fs => (MkLedgerStore (lg_chain s) (lg_jobs s) (lg_alerts s) fs, Err LErrSQL)
  | false :: fs => (MkLedgerStore (lg_chain s) (lg_jobs s) (lg_alerts s) fs, Ok tt)
  | [] => (s, Ok tt)
  end.
Definition lexec (f : gmap Z AlertRow → gmap Z AlertRow) : LM unit :=
  lsql ;;; modifyM (λ s, MkLedgerStore (lg_chain s) (lg_jobs s)
    (MkAlertTable (f (at_rows (lg_alerts s))) (at_next (lg_alerts s))) (lg_faults s)).
Definition ltransaction {A} (body : LM A) : LM A := λ s,
  match (lsql ;;; a <-- body ;; lsql ;;; retM a) s with
  | (s', Ok a) => (s', Ok a)
  | (s', Err e) => (MkLedgerStore (lg_chain s) (lg_jobs s) (lg_alerts s) (lg_faults s'), Err e)
  end.

(** ** [Run] *)
Section Run.
Context (unicodeLower : string → string).
Context (range : ∀ A, gmap string A → list (string * A)).
Arguments range {A}.

Definition canonicalStatus (v : string) : string := ToLower unicodeLower (TrimSpace v).

Record ledgerPair := MkPair {
  lp_jobID : string; lp_field : string; lp_local : option string; lp_chain : option string; lp_status : bool }.

(** The rows of the join, in the order of the chain's job ids. *)
Definition joined (d : ChainDB) (jobs : list JobRow) : list (string * Financials * option JobRow) :=
  c ← isort (λ a b, String.ltb a.1 b.1) (map_to_list (chain_job_financials d));
  match filter (λ j, jr_vault j = Some c.1) jobs with
  | [] => [(c.1, c.2, None)]
  | js => (λ j, (c.1, c.2, Some j)) <$> js
  end.
Definition pairs_of (row : string * Financials * option JobRow) : list ledgerPair :=
  let '(job, c, oj) := row in
  match oj with
  | None => [MkPair job "local_job" None (Some "present-on-chain") true]
  | Some j =>
    [ MkPair job "funded_amount" (jr_quote j) (fi_funded c) false;
      MkPair job "advance_principal" (jr_principal j) (fi_principal c) false;
      MkPair job "advance_fee" (jr_fee j) (fi_fee c) false;
      MkPair job "advance_status" (jr_status j) (fi_status c) true ]
  end.
(** One comparison: [None] when nothing is wrong, or nothing is on chain yet. *)
Definition compare_pair (now : time) (p : ledgerPair) : option Alert :=
  match lp_chain p with
  | None => None
  | Some chain =>
    if blank chain then None
    else
      let alert local chain := Some (MkAlert (lp_jobID p) (lp_field p) local chain now) in
      match lp_local p with
      | None => alert "<missing>" chain
      | Some local =>
        if blank local then alert "<missing>" chain
        else if lp_status p then
          let l := canonicalStatus local in let c := canonicalStatus chain in
          if bool_decide (l = c) then None else alert l c
        else match usdcAtomic local with
        | None => alert ("<invalid:" +:+ TrimSpace local +:+ ">") chain
        | Some atomic => if bool_decide (atomic = chain) then None else alert atomic chain
        end
      end
  end.
Definition alert_key (job field : string) : string := job +:+ String (chrZ 0) field.
Definition current_alerts (now : time) (ps : list ledgerPair) : gmap string Alert :=
  foldl (λ m p, match compare_pair now p with
                | Some a => <[alert_key (a_JobID a) (a_Field a) := a]> m
                | None => m
                end) ∅ ps.

Definition is_open (r : AlertRow) : bool := negb (al_resolved r).
Definition row_key (r : AlertRow) : string := alert_key (al_job r) (al_field r).
Definition open_map (rows : gmap Z AlertRow) : gmap string Z :=
  list_to_map (omap (λ p, if is_open p.2 then Some (row_key p.2, p.1) else None) (map_to_list rows)).
Definition loadOpenAlerts : LM (gmap string Z) :=
  lsql ;;; λ s, (s, Ok (open_map (at_rows (lg_alerts s)))).

Definition update_alert (now : time) (a : Alert) (r : AlertRow) : AlertRow :=
  MkAlertRow (al_job r) (al_field r) (a_Local a) (a_Chain a) (UnixMilli now) (al_resolved r).
Definition new_alert (now : time) (a : Alert) : AlertRow :=
  MkAlertRow (a_JobID a) (a_Field a) (a_Local a) (a_Chain a) (UnixMilli now) false.
(** The partial unique index admits one open row per job and field. *)
Definition clashes (a : Alert) (p : Z * AlertRow) : bool :=
  bool_decide (al_job p.2 = a_JobID a) && bool_decide (al_field p.2 = a_Field a) && is_open p.2.
Definition insert_alert (now : time) (a : Alert) : LM unit :=
  lsql ;;; λ s,
    let t := lg_alerts s in
    if existsb (clashes a) (map_to_list (at_rows t)) then (s, Err LErrUnique)
    else (MkLedgerStore (lg_chain s) (lg_jobs s)
            (MkAlertTable (<[at_next t := new_alert now a]> (at_rows t)) (at_next t + 1)) (lg_faults s), Ok tt).
Definition resolve_alert (r : AlertRow) : AlertRow :=
  MkAlertRow (al_job r) (al_field r) (al_local r) (al_chain r) (al_detected r) true.

(** The two loops: upserts, collecting what is still open, then resolutions. *)
Fixpoint upsert_all (now : time) (l : list (string * Alert)) (existing : gmap string Z) : LM (gmap string Z) :=
  match l with
  | [] => retM existing
  | (key, a) :: r =>
    match existing !! key with
    | Some id => lexec (alter (update_alert now a) id) ;;; upsert_all now r (delete key existing)
    | None => insert_alert now a ;;; upsert_all now r existing
    end
  end.
Fixpoint resolve_all (l : list (string * Z)) : LM unit :=
  match l with
  | [] => retM tt
  | (_, id) :: r => lexec (alter resolve_alert id) ;;; resolve_all r
  end.
Definition alert_less (a b : Alert) : bool :=
  if bool_decide (a_JobID a ≠ a_JobID b) then String.ltb (a_JobID a) (a_JobID b)
  else String.ltb (a_Field a) (a_Field b).

Definition Run (now : time) : LM Reconciliation :=
  lsql ;;;
  s <-- getM ;;
  (let current := current_alerts now (joined (lg_chain s) (lg_jobs s) ≫= pairs_of) in
   ltransaction (
     existing <-- loadOpenAlerts ;;
     rest <-- upsert_all now (range current) existing ;;
     resolve_all (range rest)) ;;;
   retM (MkReconciliation (bool_decide (range current ≠ []))
           (isort alert_less (snd <$> range current)))).

(** ** The table after a run *)
Definition known_fields : list string :=
  ["local_job"; "funded_amount"; "advance_principal"; "advance_fee"; "advance_status"].
Record alerts_ok (t : AlertTable) : Prop := {
  ok_ids : ∀ id r, at_rows t !! id = Some r → id < at_next t;
  ok_fields : ∀ id r, at_rows t !! id = Some r → al_field r ∈ known_fields;
  ok_open : ∀ i j r q, at_rows t !! i = Some r → at_rows t !! j = Some q →
    is_open r = true → is_open q = true → row_key r = row_key q → i = j }.

Lemma key_inj j f j' f' : f ∈ known_fields → f' ∈ known_fields →
  alert_key j f = alert_key j' f' → j = j' ∧ f = f'.
Proof.
  intros Hf Hf'. assert (Hn : ∀ x g, g ∈ known_fields → g ≠ x +:+ String (chrZ 0) f ∧ g ≠ x +:+ String (chrZ 0) f').
  { assert (Hc : ∀ x g y, g ∈ known_fields → g ≠ x +:+ String (chrZ 0) y).
    { assert (Hg : ∀ x y, sall (λ c, negb (byteZ c =? 0)) (x +:+ String (chrZ 0) y) = false).
      { intros x y. rewrite sall_app. cbn. by rewrite andb_false_r. }
      intros x g y Hg' ->. specialize (Hg x y). revert Hg' Hg. unfold known_fields.
      rewrite !elem_of_cons, elem_of_nil. intros [-> |[-> |[-> |[-> |[-> |[]]]]]]; vm_compute; done. }
    intros x g Hg. split; by apply Hc. }
  unfold alert_key. revert j'. induction j as [|c j IH]; intros [|c' j']; cbn; intros He.
  - by injection He.
  - injection He as _ He. by destruct (proj2 (Hn j' f Hf)).
  - injection He as _ He. by destruct (proj1 (Hn j f' Hf')).
  - injection He as -> He. destruct (IH j' He) as [-> ->]. done.
Qed.
Lemma compare_pair_field now p a : compare_pair now p = Some a →
  a_JobID a = lp_jobID p ∧ a_Field a = lp_field p ∧ a_DetectedAt a = now.
Proof. unfold compare_pair. intros Hc. repeat case_match; simplify_eq/=; done. Qed.
Lemma pairs_fields row p : p ∈ pairs_of row → lp_field p ∈ known_fields.
Proof.
  destruct row as [[job c] [j|]]; cbn; rewrite ?elem_of_cons, ?elem_of_nil;
    [intros [-> |[-> |[-> |[-> |[]]]]]|intros [-> |[]]]; apply (bool_decide_eq_true_1 _); reflexivity.
Qed.
Definition keyed (m : gmap string Alert) : Prop :=
  ∀ k a, m !! k = Some a → k = alert_key (a_JobID a) (a_Field a) ∧ a_Field a ∈ known_fields.
Lemma current_spec now ps : Forall (λ p, lp_field p ∈ known_fields) ps →
  keyed (current_alerts now ps) ∧
  (∀ k a, current_alerts now ps !! k = Some a → ∃ p, p ∈ ps ∧ compare_pair now p = Some a) ∧
  (∀ p a, p ∈ ps → compare_pair now p = Some a → is_Some (current_alerts now ps !! alert_key (lp_jobID p) (lp_field p))).
Proof.
  unfold current_alerts. induction ps as [|p ps IH] using rev_ind; intros Hf.
  { split_and!; [|intros k a Hk|intros p a Hp; by apply elem_of_nil in Hp]; [intros k a Hk|];
      cbn in Hk; by rewrite lookup_empty in Hk. }
  apply Forall_app in Hf as [Hf Hfp]. rewrite Forall_singleton in Hfp.
  destruct (IH Hf) as (H1 & H2 & H3). rewrite foldl_app. cbn. set (m := foldl _ ∅ ps) in *.
  destruct (compare_pair now p) as [a|] eqn:Ec.
  - pose proof (compare_pair_field _ _ _ Ec) as (Hj & Hfi & _). split_and!.
    + intros k b. destruct (decide (k = alert_key (a_JobID a) (a_Field a))) as [->|Hne].
      * rewrite lookup_insert_eq. intros [= <-]. split; [done|by rewrite Hfi].
      * rewrite lookup_insert_ne by done. apply H1.
    + intros k b. destruct (decide (k = alert_key (a_JobID a) (a_Field a))) as [->|Hne].
      * rewrite lookup_insert_eq. intros [= <-]. exists p. rewrite elem_of_app, list_elem_of_singleton. auto.
      * rewrite lookup_insert_ne by done. intros Hk. destruct (H2 k b Hk) as (q & ? & ?).
        exists q. rewrite elem_of_app. auto.
    + intros q b Hq Hb. apply lookup_insert_is_Some'.
      apply elem_of_app in Hq as [Hq|Hq%list_elem_of_singleton]; [right; eauto|left; subst q; by rewrite Hj, Hfi].
  - split_and!; [done| |].
    + intros k b Hk. destruct (H2 k b Hk) as (q & ? & ?). exists q. rewrite elem_of_app. auto.
    + intros q b [Hq|Hq%list_elem_of_singleton]%elem_of_app Hb; [eauto|subst q; congruence].
Qed.

(** ** The transaction *)
Lemma lsql_cases s s' r : lsql s = (s', r) →
  lg_alerts s' = lg_alerts s ∧ lg_chain s' = lg_chain s ∧ lg_jobs s' = lg_jobs s ∧ (r = Ok tt ∨ r = Err LErrSQL).
Proof. unfold lsql. destruct s as [c j t [|[] fs]]; intros; simplify_eq/=; auto. Qed.
Lemma lexec_cases f s s' : lexec f s = (s', Ok tt) →
  lg_alerts s' = MkAlertTable (f (at_rows (lg_alerts s))) (at_next (lg_alerts s)).
Proof.
  unfold lexec. intros H. apply bindM_inv_ok in H as (? & ? & Hm & H). apply lsql_cases in Hm as (Ht & _).
  unfold modifyM in H. injection H as <-. cbn. by rewrite Ht.
Qed.
Lemma insert_alert_cases now a s s' : insert_alert now a s = (s', Ok tt) →
  let t := lg_alerts s in
  (∀ id r, at_rows t !! id = Some r → is_open r = true → al_job r = a_JobID a → al_field r ≠ a_Field a) ∧
  lg_alerts s' = MkAlertTable (<[at_next t := new_alert now a]> (at_rows t)) (at_next t + 1).
Proof.
  unfold insert_alert. intros H. apply bindM_inv_ok in H as (x & ? & Hm & H). apply lsql_cases in Hm as (Ht & _).
  cbn beta zeta in H. rewrite <-Ht. destruct (existsb _ _) eqn:E; [done|]. injection H as <-. split; [|done].
  intros id r Hr Ho Hj Hf. apply not_true_iff_false in E. apply E, existsb_exists.
  exists (id, r). split; [by apply list_elem_of_In, elem_of_map_to_list|].
  unfold clashes. cbn. rewrite !bool_decide_true by done. by rewrite Ho.
Qed.

Lemma open_map_spec t key id : alerts_ok t →
  open_map (at_rows t) !! key = Some id ↔ ∃ r, at_rows t !! id = Some r ∧ is_open r = true ∧ row_key r = key.
Proof.
  intros Hok. set (l := omap (λ p, if is_open p.2 then Some (row_key p.2, p.1) else None) (map_to_list (at_rows t))).
  assert (Hin : ∀ k i, (k, i) ∈ l ↔ ∃ r, at_rows t !! i = Some r ∧ is_open r = true ∧ row_key r = k).
  { intros k i. unfold l. rewrite list_elem_of_omap. split.
    - intros ([i' r] & Hr & Hx). apply elem_of_map_to_list in Hr. cbn in Hx.
      destruct (is_open r) eqn:E; [|done]. injection Hx as <- <-. eauto.
    - intros (r & Hr & Ho & Hk). exists (i, r). rewrite elem_of_map_to_list. cbn. rewrite Ho, Hk. done. }
  change (open_map (at_rows t)) with (list_to_map l : gmap string Z). rewrite <-Hin. split.
  - apply elem_of_list_to_map_2.
  - intros Hi. apply elem_of_list_to_map_1'; [|done]. intros j Hj. apply Hin in Hi as (r & Hr & Ho & Hk).
    apply Hin in Hj as (q & Hq & Hoq & Hkq). eapply (ok_open t Hok); [exact Hr|exact Hq|done..|congruence].
Qed.

Record upserted (t0 : AlertTable) (done : list (string * Alert)) (existing : gmap string Z) (t : AlertTable) : Prop := {
  up_ok : alerts_ok t;
  up_existing : ∀ key id, existing !! key = Some id ↔
    (∃ r, at_rows t !! id = Some r ∧ is_open r = true ∧ row_key r = key) ∧ key ∉ done.*1;
  up_done : ∀ key a, (key, a) ∈ done → ∃ id r, at_rows t !! id = Some r ∧ is_open r = true ∧
    row_key r = key ∧ al_local r = a_Local a ∧ al_chain r = a_Chain a;
  up_closed : ∀ id r, at_rows t0 !! id = Some r → is_open r = false → at_rows t !! id = Some r }.

Lemma upsert_update now t0 l1 ex t key a id :
  upserted t0 l1 ex t → key ∉ l1.*1 → ex !! key = Some id →
  upserted t0 (l1 ++ [(key, a)]) (delete key ex)
    (MkAlertTable (alter (update_alert now a) id (at_rows t)) (at_next t)).
Proof.
  intros [Hok Hex Hdone Hcl] Hkey Hid. destruct (proj1 (Hex key id) Hid) as [(r & Hr & Ho & Hk) _].
  assert (Hrow : ∀ i q', alter (update_alert now a) id (at_rows t) !! i = Some q' → ∃ q, at_rows t !! i = Some q ∧
    is_open q' = is_open q ∧ row_key q' = row_key q ∧ al_field q' = al_field q ∧ (i ≠ id → q' = q) ∧
    (i = id → q' = update_alert now a q)).
  { intros i q'. rewrite lookup_alter_Some. intros [(<- & q & Hq & ->)|[Hne Hq]].
    - exists q. by split_and!.
    - exists q'. by split_and!. }
  assert (Hrow2 : ∀ i q, at_rows t !! i = Some q → i ≠ id → alter (update_alert now a) id (at_rows t) !! i = Some q).
  { intros i q Hq Hne. by rewrite lookup_alter_ne. }
  assert (Hrow3 : alter (update_alert now a) id (at_rows t) !! id = Some (update_alert now a r)).
  { by rewrite lookup_alter_eq, Hr. }
  split; cbn.
  - destruct Hok as [Hi Hf Hu]. split; cbn.
    + intros i q Hq. apply Hrow in Hq as (q0 & Hq0 & _). eauto.
    + intros i q Hq. apply Hrow in Hq as (q0 & Hq0 & _ & _ & -> & _). eauto.
    + intros i j q1 q2 H1 H2 Ho1 Ho2 Hkk. apply Hrow in H1 as (p1 & Hp1 & Eo1 & Ek1 & _).
      apply Hrow in H2 as (p2 & Hp2 & Eo2 & Ek2 & _). apply (Hu i j p1 p2 Hp1 Hp2); [by rewrite <-Eo1|by rewrite <-Eo2|by rewrite <-Ek1, <-Ek2].
  - intros k i. rewrite lookup_delete_Some, Hex, fmap_app, not_elem_of_app. cbn. rewrite list_elem_of_singleton.
    split.
    + intros [Hne [(q & Hq & Hoq & Hkq) Hno]]. split; [|by split; [|congruence]].
      destruct (decide (i = id)) as [->|Hni]; [|eauto 10]. exfalso. apply Hne. congruence.
    + intros [(q' & Hq & Hoq & Hkq) [Hno Hne]]. split; [congruence|]. split; [|done].
      apply Hrow in Hq as (q & Hq & Eo & Ek & _). exists q. split_and!; [done|congruence|congruence].
  - intros k b [Hkb|Hkb%list_elem_of_singleton]%elem_of_app.
    + destruct (Hdone k b Hkb) as (i & q & Hq & Hoq & Hkq & Hv). destruct (decide (i = id)) as [->|Hni]; [|eauto 10].
      exfalso. apply Hkey. apply list_elem_of_fmap. exists (k, b). split; [cbn; congruence|done].
    + injection Hkb as -> ->. exists id, (update_alert now a r). done.
  - intros i q Hq Hoq. specialize (Hcl i q Hq Hoq). apply Hrow2; [done|]. intros ->. congruence.
Qed.
Lemma upsert_insert now t0 l1 ex t key a :
  upserted t0 l1 ex t → key ∉ l1.*1 → ex !! key = None →
  key = alert_key (a_JobID a) (a_Field a) → a_Field a ∈ known_fields →
  upserted t0 (l1 ++ [(key, a)]) ex
    (MkAlertTable (<[at_next t := new_alert now a]> (at_rows t)) (at_next t + 1)).
Proof.
  intros [Hok Hex Hdone Hcl] Hkey Hno -> Hfield. pose proof Hok as [Hi Hf Hu].
  assert (Hnew : at_rows t !! at_next t = None).
  { destruct (at_rows t !! at_next t) as [q|] eqn:E; [|done]. apply Hi in E. lia. }
  assert (Hfree : ∀ i q, at_rows t !! i = Some q → is_open q = true →
            row_key q ≠ alert_key (a_JobID a) (a_Field a)).
  { intros i q Hq Ho Hk. enough (ex !! alert_key (a_JobID a) (a_Field a) = Some i) by congruence.
    apply Hex. eauto. }
  assert (Hrow : ∀ i q, <[at_next t := new_alert now a]> (at_rows t) !! i = Some q ↔
    (i = at_next t ∧ q = new_alert now a) ∨ (i ≠ at_next t ∧ at_rows t !! i = Some q)).
  { intros i q. rewrite lookup_insert_Some. naive_solver. }
  split; cbn.
  - split; cbn; setoid_rewrite Hrow.
    + intros i q [[-> _]|[_ Hq]]; [lia|]. apply Hi in Hq. lia.
    + intros i q [[_ ->]|[_ Hq]]; eauto.
    + intros i j q1 q2 [[-> ->]|[H1 Hq1]] [[-> ->]|[H2 Hq2]] Ho1 Ho2 Hk; [done| | |eauto].
      * by destruct (Hfree j q2).
      * by destruct (Hfree i q1).
  - intros k i. rewrite Hex, fmap_app, not_elem_of_app. cbn. rewrite list_elem_of_singleton. setoid_rewrite Hrow. split.
    + intros [(q & Hq & Hoq & Hkq) Hk]. split; [|split; [done|]].
      * exists q. split; [right; split; [intros ->; congruence|done]|done].
      * intros ->. by destruct (Hfree i q).
    + intros [(q & [[-> ->]|[Hne Hq]] & Hoq & Hkq) [Hk Hk']]; [by destruct Hk'|]. eauto.
  - intros k b [Hkb|Hkb%list_elem_of_singleton]%elem_of_app; setoid_rewrite Hrow.
    + destruct (Hdone k b Hkb) as (i & q & Hq & Hv). exists i, q. split; [right; split; [intros ->; congruence|done]|done].
    + injection Hkb as -> ->. exists (at_next t), (new_alert now a). split; [by left|done].
  - intros i q Hq Hoq. apply Hrow. specialize (Hcl i q Hq Hoq). right. split; [intros ->; congruence|done].
Qed.

Lemma upsert_all_spec now t0 l2 : ∀ l1 ex s s' ex',
  upserted t0 l1 ex (lg_alerts s) → NoDup ((l1 ++ l2).*1) →
  (∀ key a, (key, a) ∈ l2 → key = alert_key (a_JobID a) (a_Field a) ∧ a_Field a ∈ known_fields) →
  upsert_all now l2 ex s = (s', Ok ex') → upserted t0 (l1 ++ l2) ex' (lg_alerts s').
Proof.
  induction l2 as [|[key a] l2 IH]; intros l1 ex s s' ex' Hup Hnd Hk Hr; cbn in Hr.
  { unfold retM in Hr. injection Hr as <- <-. by rewrite app_nil_r. }
  assert (Hkey : key ∉ l1.*1).
  { rewrite fmap_app in Hnd. apply NoDup_app in Hnd as (_ & Hd & _). intros Hin. apply (Hd key Hin). by left. }
  destruct (Hk key a (list_elem_of_here _ _)) as [Hkk Hkf].
  rewrite (cons_middle (key, a)), app_assoc in Hnd. rewrite (cons_middle (key, a)), app_assoc.
  destruct (ex !! key) as [id|] eqn:E; apply bindM_inv_ok in Hr as (s1 & [] & Hm & Hr).
  - apply lexec_cases in Hm. eapply IH; [rewrite Hm; by apply upsert_update|done| |exact Hr].
    intros k b Hkb. apply Hk. by right.
  - apply insert_alert_cases in Hm as [_ Hm]. eapply IH; [rewrite Hm; by apply upsert_insert|done| |exact Hr].
    intros k b Hkb. apply Hk. by right.
Qed.
Lemma resolve_all_spec l : ∀ s s', resolve_all l s = (s', Ok tt) →
  at_next (lg_alerts s') = at_next (lg_alerts s) ∧
  ∀ id, at_rows (lg_alerts s') !! id =
    (if decide (id ∈ l.*2) then resolve_alert <$> at_rows (lg_alerts s) !! id else at_rows (lg_alerts s) !! id).
Proof.
  clear unicodeLower range. induction l as [|[key i] l IH]; intros s s' Hr; cbn in Hr.
  { unfold retM in Hr. injection Hr as <-. done. }
  apply bindM_inv_ok in Hr as (s1 & [] & Hm & Hr). apply lexec_cases in Hm.
  destruct (IH _ _ Hr) as [Hn Hl]. rewrite Hn, Hm. split; [done|]. intros id. rewrite Hl, Hm. cbn.
  destruct (decide (id = i)) as [->|Hne].
  - rewrite lookup_alter_eq. rewrite (decide_True _ _ (P := i ∈ i :: l.*2)) by by left.
    destruct (at_rows (lg_alerts s) !! i); cbn; by destruct (decide _).
  - rewrite lookup_alter_ne by done. destruct (decide (id ∈ l.*2)) as [Hin|Hin].
    + rewrite decide_True by by right. done.
    + rewrite decide_False; [done|]. rewrite elem_of_cons. tauto.
Qed.

(** The ledger's comparisons for the state of a store. *)
Definition ledger_pairs (s : LedgerStore) : list ledgerPair := joined (lg_chain s) (lg_jobs s) ≫= pairs_of.
(** An open row that says what an alert says. *)
Definition reported (t : AlertTable) (a : Alert) : Prop :=
  ∃ id r, at_rows t !! id = Some r ∧ is_open r = true ∧ al_job r = a_JobID a ∧ al_field r = a_Field a ∧
    al_local r = a_Local a ∧ al_chain r = a_Chain a.
(** [range] enumerates every entry once. *)
Definition enumerates : Prop := ∀ A (m : gmap string A), range m ≡ₚ map_to_list m.

Lemma ledger_fields s : Forall (λ p, lp_field p ∈ known_fields) (ledger_pairs s).
Proof.
  apply Forall_forall. intros p (row & Hp & _)%list_elem_of_bind.
  by eapply pairs_fields.
Qed.
Lemma ltransaction_cases {A} (body : LM A) s s' r : ltransaction body s = (s', r) →
  (∃ a s1 s2, r = Ok a ∧ lg_alerts s1 = lg_alerts s ∧ body s1 = (s2, Ok a) ∧ lg_alerts s' = lg_alerts s2) ∨
  ((∃ e, r = Err e) ∧ lg_alerts s' = lg_alerts s).
Proof.
  unfold ltransaction. intros H. destruct ((_ ;;; _) s) as [t [a|e]] eqn:E; simplify_eq/=; [left|right; eauto].
  apply bindM_inv_ok in E as (s1 & ? & H1 & E). apply lsql_cases in H1 as (H1 & _).
  apply bindM_inv_ok in E as (s2 & ? & H2 & E). apply bindM_inv_ok in E as (s3 & ? & H3 & E).
  apply lsql_cases in H3 as (H3 & _). unfold retM in E. injection E as <- <-.
  eexists _, _, _. split_and!; [done|exact H1|exact H2|done].
Qed.

(** What the transaction leaves, for the current mismatches [cur]. *)
Definition settled (cur : gmap string Alert) (t0 t : AlertTable) : Prop :=
  alerts_ok t ∧
  (∀ key a, cur !! key = Some a → reported t a) ∧
  (∀ id r, at_rows t !! id = Some r → is_open r = true → ∃ key a, cur !! key = Some a ∧
    al_job r = a_JobID a ∧ al_field r = a_Field a ∧ al_local r = a_Local a ∧ al_chain r = a_Chain a) ∧
  (∀ id r, at_rows t0 !! id = Some r → is_open r = false → at_rows t !! id = Some r).
Lemma row_named r a key t id : alerts_ok t → at_rows t !! id = Some r → row_key r = key →
  key = alert_key (a_JobID a) (a_Field a) → a_Field a ∈ known_fields →
  al_job r = a_JobID a ∧ al_field r = a_Field a.
Proof.
  intros Hok Hr <- Hk Hf. apply key_inj; [|done|done]. by eapply (ok_fields t Hok).
Qed.
Lemma upserted_settled cur t0 rest t t' : enumerates → keyed cur →
  upserted t0 (range cur) rest t → at_next t' = at_next t →
  (∀ id, at_rows t' !! id = (if decide (id ∈ (range rest).*2) then resolve_alert <$> at_rows t !! id
                              else at_rows t !! id)) →
  settled cur t0 t'.
Proof.
  intros Hen Hcur [Hok Hex Hdone Hcl] Hn Hrows.
  assert (Hin : ∀ key a, (key, a) ∈ range cur ↔ cur !! key = Some a).
  { intros key a. by rewrite (Hen _ cur), elem_of_map_to_list. }
  assert (Hrest : ∀ id, id ∈ (range rest).*2 ↔ ∃ key, rest !! key = Some id).
  { intros id. rewrite (Hen _ rest), list_elem_of_fmap. split.
    - intros ([key i] & -> & Hki). apply elem_of_map_to_list in Hki. eauto.
    - intros [key Hk]. exists (key, id). by rewrite elem_of_map_to_list. }
  (* the open rows that are left are those with a current key *)
  assert (Hopen : ∀ id r, at_rows t' !! id = Some r → is_open r = true →
            at_rows t !! id = Some r ∧ row_key r ∈ (range cur).*1).
  { intros id r Hr Ho. rewrite Hrows in Hr. case_decide as Hd.
    - apply fmap_Some in Hr as (q & _ & ->). done.
    - split; [done|]. destruct (decide (row_key r ∈ (range cur).*1)) as [|Hno]; [done|].
      exfalso. apply Hd, Hrest. exists (row_key r). apply Hex. eauto. }
  assert (Hkeep : ∀ id r, at_rows t !! id = Some r → is_open r = true → row_key r ∈ (range cur).*1 →
            at_rows t' !! id = Some r).
  { intros id r Hr Ho Hk. rewrite Hrows. case_decide as Hd; [|done]. exfalso.
    apply Hrest in Hd as [key Hkey]. apply Hex in Hkey as [(q & Hq & _ & Hkq) Hno].
    apply Hno. rewrite Hr in Hq. injection Hq as <-. by rewrite <-Hkq. }
  split_and!.
  - destruct Hok as [Hi Hf Hu]. split.
    + intros id r Hr. rewrite Hrows in Hr. rewrite Hn. case_decide; [|eauto].
      apply fmap_Some in Hr as (q & Hq & _). eauto.
    + intros id r Hr. rewrite Hrows in Hr. case_decide; [|eauto].
      apply fmap_Some in Hr as (q & Hq & ->). exact (Hf _ _ Hq).
    + intros i j r q Hr Hq Hor Hoq. apply Hopen in Hr as [Hr _]; [|done]. apply Hopen in Hq as [Hq _]; [|done]. eauto.
  - intros key a Ha. destruct (Hcur key a Ha) as [Hk Hf]. apply Hin in Ha.
    destruct (Hdone key a Ha) as (id & r & Hr & Ho & Hkr & Hl & Hc). exists id, r.
    destruct (row_named r a key t id) as [? ?]; [done..|].
    split_and!; [|done..]. apply Hkeep; [done|done|]. rewrite Hkr. apply list_elem_of_fmap. by exists (key, a).
  - intros id r Hr Ho. apply Hopen in Hr as [Hr Hk]; [|done].
    apply list_elem_of_fmap in Hk as ([key a] & Hk & Ha). cbn in Hk.
    destruct (Hdone key a Ha) as (id' & r' & Hr' & Ho' & Hkr & Hl & Hc).
    assert (id' = id) as -> by (apply (ok_open t Hok id' id r' r); congruence). assert (r' = r) as -> by congruence.
    apply Hin in Ha. destruct (Hcur key a Ha) as [Hka Hf].
    destruct (row_named r a key t id) as [? ?]; [done..|]. exists key, a. by split_and!.
  - intros id r Hr Ho. specialize (Hcl id r Hr Ho). rewrite Hrows. case_decide as Hd; [|done].
    apply Hrest in Hd as [key Hkey]. apply Hex in Hkey as [(q & Hq & Hoq & _) _]. congruence.
Qed.
Lemma body_settled now cur s1 s2 : enumerates → keyed cur → alerts_ok (lg_alerts s1) →
  (existing <-- loadOpenAlerts ;;
   rest <-- upsert_all now (range cur) existing ;;
   resolve_all (range rest)) s1 = (s2, Ok tt) →
  settled cur (lg_alerts s1) (lg_alerts s2).
Proof.
  intros Hen Hcur Hok Hr. apply bindM_inv_ok in Hr as (sa & ex & Hm & Hr).
  unfold loadOpenAlerts in Hm. apply bindM_inv_ok in Hm as (sb & ? & Hl & Hm). apply lsql_cases in Hl as (Hl & _).
  cbn in Hm. injection Hm as <- <-. apply bindM_inv_ok in Hr as (sc & rest & Hu & Hr).
  apply (upsert_all_spec now (lg_alerts s1) (range cur) []) in Hu.
  - apply resolve_all_spec in Hr as [Hn Hrows]. by eapply upserted_settled.
  - rewrite Hl. split; [done| | |done].
    + intros key id. rewrite open_map_spec by done. split; [|by intros [? _]]. intros ?. split; [done|]. by apply not_elem_of_nil.
    + intros key a Ha. by apply elem_of_nil in Ha.
  - cbn. rewrite (Hen _ cur). apply NoDup_fst_map_to_list.
  - intros key a Ha. rewrite (Hen _ cur), elem_of_map_to_list in Ha. by apply Hcur.
Qed.

(** C14: the ledger reconciliation is exact and atomic.  After a run that
    reports success, the open alerts of the table are precisely the alerts it
    returned, and those are precisely the disagreements between the local jobs
    and the chain's projection: every field that disagrees has an alert, every
    alert is a disagreement that exists now, and the mismatch flag is up exactly
    when there is one.  An alert that was resolved is never reopened or
    changed, and a run that fails changes no alert. *)
Theorem Run_exact now s s' r :
  enumerates → alerts_ok (lg_alerts s) → Run now s = (s', r) →
  match r with
  | Err _ => lg_alerts s' = lg_alerts s
  | Ok res =>
    alerts_ok (lg_alerts s') ∧
    (∀ a, a ∈ rn_Alerts res → reported (lg_alerts s') a ∧
       ∃ p, p ∈ ledger_pairs s ∧ compare_pair now p = Some a) ∧
    (∀ id q, at_rows (lg_alerts s') !! id = Some q → is_open q = true → ∃ a, a ∈ rn_Alerts res ∧
       al_job q = a_JobID a ∧ al_field q = a_Field a ∧ al_local q = a_Local a ∧ al_chain q = a_Chain a) ∧
    (∀ p, p ∈ ledger_pairs s → is_Some (compare_pair now p) → ∃ a, a ∈ rn_Alerts res ∧
       a_JobID a = lp_jobID p ∧ a_Field a = lp_field p) ∧
    (rn_HasMismatch res = true ↔ ∃ p, p ∈ ledger_pairs s ∧ is_Some (compare_pair now p)) ∧
    (∀ id q, at_rows (lg_alerts s) !! id = Some q → is_open q = false → at_rows (lg_alerts s') !! id = Some q)
  end.
Proof.
  intros Hen Hok Hr. destruct (current_spec now (ledger_pairs s) (ledger_fields s)) as (Hkey & Hfrom & Hto).
  unfold Run in Hr. run_bind Hr H0; apply lsql_cases in H0 as (Ht0 & Hc0 & Hj0 & _); [|done].
  run_bind Hr Hg; [|by unfold getM in Hg]. unfold getM in Hg. injection Hg as <- <-.
  rewrite Hc0, Hj0 in Hr. fold (ledger_pairs s) in Hr. set (cur := current_alerts now (ledger_pairs s)) in *.
  assert (Hin : ∀ a, a ∈ (range cur).*2 ↔ ∃ key, cur !! key = Some a).
  { intros a. rewrite (Hen _ cur), list_elem_of_fmap. split.
    - intros ([key b] & -> & Hk). apply elem_of_map_to_list in Hk. eauto.
    - intros [key Hk]. exists (key, a). by rewrite elem_of_map_to_list. }
  run_bind Hr Ht; apply ltransaction_cases in Ht as [([] & s1 & s2 & Hrr & Hs1 & Hb & Hs2)|[[e Hrr] Hs']]; try done.
  2: { by rewrite Hs', Ht0. }
  unfold retM in Hr. injection Hr as <- <-. cbn [rn_Alerts rn_HasMismatch].
  apply body_settled in Hb as (Hok' & Hrep & Hback & Hcl); [|done|done|by rewrite Hs1, Ht0].
  rewrite Hs1, Ht0 in Hcl. rewrite Hs2.
  setoid_rewrite elem_of_isort. setoid_rewrite Hin.
  assert (Hsome : ∀ p, p ∈ ledger_pairs s → is_Some (compare_pair now p) → ∃ a, (∃ key, cur !! key = Some a) ∧
            a_JobID a = lp_jobID p ∧ a_Field a = lp_field p).
  { intros p Hp [b Hb]. destruct (Hto p b Hp Hb) as [a Ha]. exists a. split; [eauto|].
    destruct (Hkey _ _ Ha) as [Hk Hf]. apply key_inj in Hk as [-> ->]; [done| |done].
    pose proof (ledger_fields s) as Hl. rewrite Forall_forall in Hl. auto. }
  split_and!; [done| | |exact Hsome| |done].
  - intros a [key Ha]. split; [eauto|]. by apply (Hfrom key).
  - intros id q Hq Ho. destruct (Hback id q Hq Ho) as (key & a & Ha & Hv). eauto.
  - rewrite bool_decide_eq_true. split.
    + intros Hne. destruct (range cur) as [|[key a] l] eqn:E; [done|].
      destruct (proj1 (Hin a) ltac:(by left)) as [k Hk]. destruct (Hfrom k a Hk) as (p & Hp & Hpa). eauto.
    + intros (p & Hp & Hs). destruct (Hsome p Hp Hs) as (a & Ha & _). apply Hin in Ha.
      intros E. rewrite E in Ha. by apply elem_of_nil in Ha.
Qed.
End Run.

(** ** Amounts *)
(** Amounts convert exactly.  Every number of atomic units, written as a
    decimal USDC amount with six places, is read back by [usdcAtomic] as the
    same number of atomic units, whatever its size: no float, no rounding. *)
Lemma usdcAtomic_roundtrip z : 0 ≤ z → usdcAtomic (usdc_text z) = Some (FormatInt z).
Proof.
  intros Hz. destruct (usdc_text_parts z Hz) as (Ht & Hw & Hf & Hlen & Hpw & Hpf).
  unfold usdcAtomic. rewrite Ht. unfold usdc_text. pose proof (split_on_dot _ _ Hw Hf) as Hs.
  destruct (FormatUint (z / 1000000)) as [|c r] eqn:E; [done|].
  destruct (digits_head_not_sign _ c r Hw eq_refl) as [? ?].
  rewrite sapp_cons. rewrite !bool_decide_false by done. cbn [orb].
  rewrite <-sapp_cons, Hs. cbn [micros_of]. rewrite Hlen. rewrite bool_decide_false.
  2: { intros He. by rewrite He in Hlen. }
  cbn [orb Nat.ltb Nat.leb Nat.sub zeros]. rewrite sapp_nil_r, Hpw. cbn. rewrite Hpf. cbn.
  do 2 f_equal. pose proof (Z.div_mod z 1000000 ltac:(lia)). lia.
Qed.
Lemma usdcAtomic_roundtrip_witness : usdcAtomic "1.500000" = Some "1500000".
Proof. exact (usdcAtomic_roundtrip 1500000 ltac:(lia)). Defined.

(** One job: the quote agrees, the principal does not, and an alert of an
    earlier run is still open. *)
Definition sample_projection : ChainDB :=
  MkChainDB ∅ [] {[ "0xjob" := MkFinancials (Some "5000000") (Some "1400000") None None "0"
    None None None None None None (10, 0) ]} ∅ (Some 11).
Definition sample_ledger : LedgerStore :=
  MkLedgerStore sample_projection
    [MkJobRow "job-1" (Some "0xjob") (Some "5") (Some "1.5") None None]
    (MkAlertTable {[ 1 := MkAlertRow "0xjob" "funded_amount" "4000000" "5000000" 0 false ]} 2) [].
Definition sample_range (A : Type) (m : gmap string A) : list (string * A) := map_to_list m.
Lemma sample_alerts_ok : alerts_ok (lg_alerts sample_ledger).
Proof.
  split; cbn [sample_ledger lg_alerts at_rows at_next].
  - intros id r [<- _]%lookup_singleton_Some. lia.
  - intros id r [_ <-]%lookup_singleton_Some. apply (bool_decide_eq_true_1 _). reflexivity.
  - intros i j r q [<- _]%lookup_singleton_Some [<- _]%lookup_singleton_Some. done.
Qed.
Lemma Run_exact_witness :
  ∃ res, (Run (λ s, s) sample_range zeroTime sample_ledger).2 = Ok res ∧ rn_HasMismatch res = true ∧
    ∀ a, a ∈ rn_Alerts res →
      reported (lg_alerts (Run (λ s, s) sample_range zeroTime sample_ledger).1) a.
Proof.
  assert (Hen : enumerates sample_range) by (intros A m; reflexivity).
  pose proof (Run_exact (λ s, s) sample_range zeroTime sample_ledger _ _ Hen sample_alerts_ok
                (surjective_pairing _)) as Hx.
  assert (Hm : option_map rn_HasMismatch (match (Run (λ s, s) sample_range zeroTime sample_ledger).2 with
                 Ok res => Some res | Err _ => None end) = Some true) by (vm_compute; reflexivity).
  destruct (Run (λ s, s) sample_range zeroTime sample_ledger) as [s' [res|e]]; [|discriminate Hm].
  cbn in Hx, Hm. injection Hm as Hm. exists res. split; [reflexivity|split; [exact Hm|]].
  intros a Ha. exact (proj1 (proj1 (proj2 Hx) a Ha)).
Defined.
