(* ===== verification/RpcSource.v ===== *)
(** [internal/indexer/rpc.go]: the JSON-RPC adapter that implements [Source].

    [post] is the HTTP exchange with the node: it may fail to connect, to be
    read within the size limit, or answer with a status and a body ([None]: not
    JSON).  What the node reports is checked field by field before a [Log] is
    handed to the indexer. *)
From Stdlib Require Import Ascii String.
From S2P Require Import Prelude GoStr GoTime GoJson Store Decode Indexer Replay.
#[local] Open Scope Z_scope.
#[local] Open Scope snap_scope.
#[local] Set Default Proof Using "Type".

(** [strconv.ParseUint(v[2:], 16, 64)] behind a [0x]. *)
Fixpoint hex_number (acc : Z) (s : string) : option Z :=
  match s with
  | "" => Some acc
  | String c r => d ← hex_value c; hex_number (16 * acc + d) r
  end.
Definition parseHexUint (v : string) : option Z :=
  if Nat.ltb (String.length v) 3 then None
  else r ← strip_prefix "0x" v; n ← hex_number 0 r; if n <? two64 then Some n else None.
(** [fmt.Sprintf("0x%x", n)]. *)
Fixpoint hex_digits (fuel : nat) (n : Z) (acc : string) : string :=
  match fuel with
  | O => acc
  | S k =>
    let acc' := String (hexdigit (n `mod` 16)) acc in
    if n <? 16 then acc' else hex_digits k (n / 16) acc'
  end.
Definition hex_format (n : Z) : string := "0x" +:+ hex_digits (S (Z.to_nat (Z.log2 n))) n "".

Inductive RpcOutcome := RpcFailed | RpcReply (status : Z) (body : option jval).

(** [rpcResponse]: the result, if any, and whether an error member is set. *)
Definition reply_of_json (v : jval) : option (option jval * bool) :=
  fs ← jfields v;
  _ ← dec_str "jsonrpc" v;
  _ ← dec_int "id" v;
  e ← match jget "error" fs with
      | None | Some JNull => Some false
      | Some (JObj o) => _ ← dec_int "code" (JObj o); _ ← dec_str "message" (JObj o); Some true
      | Some _ => None
      end;
  Some (jget "result" fs, e).
Record rpcLog := MkRpcLog {
  rl_address : string; rl_topics : list string; rl_data : string; rl_blockNumber : string;
  rl_blockHash : string; rl_transactionHash : string; rl_logIndex : string; rl_removed : bool }.
Definition rpcLog_of_json (v : jval) : option rpcLog :=
  a ← dec_str "address" v; t ← dec_list "topics" text_of_element v;
  d ← dec_str "data" v; n ← dec_str "blockNumber" v; h ← dec_str "blockHash" v;
  x ← dec_str "transactionHash" v; i ← dec_str "logIndex" v; r ← dec_bool "removed" v;
  Some (MkRpcLog a t d n h x i r).
Definition rpcLogs_of_json (v : jval) : option (list rpcLog) :=
  match v with JArr l => mapM rpcLog_of_json l | _ => None end.

Section Rpc.
Context (unicodeLower : string → string).
Context {W : Type} (post : string → jval → W → W * RpcOutcome).
Abbreviation ToLower := (ToLower unicodeLower).

Definition call {A} (method : string) (params : jval) (out : jval → option A) (w : W) : W * option A :=
  let '(w, o) := post method params w in
  (w, match o with
      | RpcFailed => None
      | RpcReply status body =>
        if negb (status =? 200) then None
        else v ← body;
             r ← reply_of_json v;
             if r.2 : bool then None
             else match r.1 with
                  | None | Some JNull => None
                  | Some res => out res
                  end
      end).
Definition Head (w : W) : W * option Z :=
  let '(w, e) := call "eth_blockNumber" (JArr []) text_of_json w in (w, e ≫= parseHexUint).
Definition RpcChainID (w : W) : W * option Z :=
  let '(w, e) := call "eth_chainId" (JArr []) text_of_json w in (w, e ≫= parseHexUint).

Definition log_of_rpc (item : rpcLog) : option Log :=
  block ← parseHexUint (rl_blockNumber item);
  index ← parseHexUint (rl_logIndex item);
  address ← match normalizeAddress unicodeLower (rl_address item) with Ok a => Some a | Err _ => None end;
  Some (MkLog address (ToLower <$> rl_topics item) (ToLower (rl_data item)) block
          (ToLower (rl_blockHash item)) (ToLower (rl_transactionHash item)) index (rl_removed item)).
Definition filter_json (f : Filter) : jval :=
  JArr [JObj [ ("fromBlock", JStr (hex_format (fl_FromBlock f)));
               ("toBlock", JStr (hex_format (fl_ToBlock f)));
               ("address", JArr (JStr <$> fl_Addresses f)) ]].
Definition Logs (f : Filter) (w : W) : W * option (list Log) :=
  if fl_ToBlock f <? fl_FromBlock f then (w, None)
  else let '(w, items) := call "eth_getLogs" (filter_json f) rpcLogs_of_json w in
       (w, items ≫= mapM log_of_rpc).

#[global] Instance RPCSource : Source W :=
  {| source_ChainID := RpcChainID; source_Head := Head; source_Logs := Logs |}.

(** ** What the adapter promises *)
Lemma hex_value_range c d : hex_value c = Some d → 0 ≤ d < 16.
Proof.
  unfold hex_value, isDigit. intros Hc. repeat case_match; simplify_eq; bool_to_prop; lia.
Qed.
Lemma hex_number_nonneg s acc n : 0 ≤ acc → hex_number acc s = Some n → 0 ≤ n.
Proof.
  revert acc. induction s as [|c r IH]; intros acc Ha; cbn; [intros [= <-]; done|].
  destruct (hex_value c) as [d|] eqn:E; [|done]. apply hex_value_range in E. cbn. apply IH. lia.
Qed.
Lemma parseHexUint_range v n : parseHexUint v = Some n → 0 ≤ n < two64.
Proof.
  unfold parseHexUint. destruct (Nat.ltb _ _); [done|]. destruct (strip_prefix _ _) as [r|]; [|done]. cbn.
  destruct (hex_number 0 r) as [m|] eqn:E; [|done]. cbn. destruct (m <? two64) eqn:El; [|done].
  intros [= <-]. apply hex_number_nonneg in E; [|lia]. bool_to_prop. lia.
Qed.
Lemma RPC_heads : heads_below (W := W) two64.
Proof.
  intros w w' h. cbn. unfold Head. destruct (call _ _ _ w) as [w1 [e|]]; [|done]. cbn.
  intros [= _ Hp]. by apply parseHexUint_range in Hp.
Qed.
End Rpc.

Lemma hexdigit_value d : 0 ≤ d < 16 → hex_value (hexdigit d) = Some d.
Proof.
  intros Hd. assert (Hc : d = 0 ∨ d = 1 ∨ d = 2 ∨ d = 3 ∨ d = 4 ∨ d = 5 ∨ d = 6 ∨ d = 7 ∨ d = 8 ∨
    d = 9 ∨ d = 10 ∨ d = 11 ∨ d = 12 ∨ d = 13 ∨ d = 14 ∨ d = 15) by lia.
  clear Hd. destruct_or! Hc; subst d; reflexivity.
Qed.
Lemma hex_digits_number fuel n acc : 0 ≤ n → n < 2 ^ Z.of_nat fuel →
  hex_number 0 (hex_digits fuel n acc) = hex_number n acc.
Proof.
  revert n acc. induction fuel as [|f IH]; intros n acc Hn Hlt.
  { cbn in *. f_equal. lia. }
  cbn [hex_digits]. assert (Hm : 0 ≤ n `mod` 16 < 16) by (apply Z.mod_pos_bound; lia).
  pose proof (Z.div_mod n 16 ltac:(lia)) as Hdm. destruct (n <? 16) eqn:E; bool_to_prop.
  - cbn [hex_number]. rewrite hexdigit_value by done. cbn. f_equal. rewrite Z.mod_small by lia. lia.
  - rewrite IH.
    + cbn [hex_number]. rewrite hexdigit_value by done. cbn. f_equal. lia.
    + apply Z.div_pos; lia.
    + rewrite Nat2Z.inj_succ, Z.pow_succ_r in Hlt by lia. apply Z.div_lt_upper_bound; lia.
Qed.
Lemma hex_digits_length fuel n acc : fuel ≠ O → (String.length acc < String.length (hex_digits fuel n acc))%nat.
Proof.
  revert n acc. induction fuel as [|f IH]; intros n acc Hf; [done|]. cbn [hex_digits].
  destruct (n <? 16); cbn [String.length]; [lia|]. destruct f as [|f]; [cbn; lia|].
  specialize (IH (n / 16) (String (hexdigit (n `mod` 16)) acc) ltac:(done)). cbn [String.length] in IH. lia.
Qed.

(** Quantities survive the wire.  Every block number the adapter writes
    into a request is one that [parseHexUint] reads back unchanged, for the
    whole unsigned 64-bit range; and nothing outside that range is ever read. *)
Lemma quantity_roundtrip n :
  0 ≤ n < two64 ↔ parseHexUint (hex_format n) = Some n ∧ 0 ≤ n.
Proof.
  split; [|intros [Hp _]; by apply parseHexUint_range in Hp]. intros Hn. split; [|lia]. unfold parseHexUint, hex_format.
  pose proof (hex_digits_length (S (Z.to_nat (Z.log2 n))) n "" ltac:(done)) as Hl.
  rewrite slength_app, strip_prefix_app. cbn [String.length] in *.
  rewrite (proj2 (Nat.ltb_ge _ 3)) by lia. cbn [mbind option_bind]. 
  assert (Hf : n < 2 ^ Z.of_nat (S (Z.to_nat (Z.log2 n)))) by (apply FormatUint_fuel; lia).
  rewrite hex_digits_number; [|lia|exact Hf].
  cbn [hex_number mbind option_bind]. by rewrite (proj2 (Z.ltb_lt n two64)) by lia.
Qed.
