(* ===== verification/Billing.v ===== *)
(** [internal/billing]: invoices drawn from the chain tables.

    [Invoice] is one run of the agent: the lines of a job, its totals, the
    cross-check against the projection, the join of the daemon's purchases
    with the expenses on chain, the gaps.  [known] is the optional
    [KnownReceipt] seam.  [Labels] and the messages of alerts are left out;
    an alert keeps its kind and its data. *)
From Stdlib Require Import Ascii String.
From stdpp Require Import relations.
From S2P Require Import Prelude GoStr GoTime GoJson Store Decode Indexer Replay Chain.
#[local] Open Scope Z_scope.
#[local] Open Scope snap_scope.
#[local] Set Default Proof Using "Type".

Definition StatusComplete : string := "complete".
Definition StatusPartial : string := "partial — awaiting chain records".
Definition CopyOwner : string := "owner".
Definition CopyCustomer : string := "customer".
Inductive Outcome := OutcomeMatched | OutcomePendingSettlement | OutcomeRecordedNotAttributed | OutcomeOutsidePolicy.
#[export] Instance Outcome_eq_dec : EqDecision Outcome.
Proof. solve_decision. Defined.

(** The two fields of [envelope.SourceProvenance] that billing reads. *)
Record SourceProvenance := MkProvenance { sp_Resource : string; sp_ReceiptHash : string }.
Record Request := MkRequest { rq_JobID : string; rq_VaultJobID : string; rq_Provenance : list SourceProvenance }.
Record Line := MkLine {
  ln_Kind : string; ln_TxHash : string; ln_Block : Z; ln_LogIndex : Z;
  ln_Payload : list (string * string); ln_ReceiptHash : string }.
Record Gap := MkGap { gp_Stage : string; gp_Cause : string; gp_Detail : string }.
Record Totals := MkTotals {
  to_Funded : string; to_Principal : string; to_Fee : string; to_Expenses : string;
  to_Repaid : string; to_Net : string }.
Record InvoiceDoc := MkInvoice {
  iv_Copy : string; iv_JobID : string; iv_VaultJobID : string; iv_Status : string; iv_Lines : list Line;
  iv_Gaps : list Gap; iv_Totals : Totals; iv_DeliveryHash : string; iv_GeneratedAt : time }.
Record JoinOutcome := MkJoin { jo_ReceiptHash : string; jo_Resource : string; jo_Outcome : Outcome }.
Inductive BillingAlert :=
| ProjectionDivergence (field fromEvents fromProjection : string)
| ExpenseOutsidePolicy (receiptHash amount txHash : string).
Record InvoiceSet := MkSet {
  st_Owner : InvoiceDoc; st_Customer : InvoiceDoc; st_Outcomes : list JoinOutcome; st_Alerts : list BillingAlert }.

(** [json.Unmarshal] into a [map[string]string]. *)
Definition texts_of (v : jval) : option (list (string * string)) :=
  fs ← jfields v;
  mapM (λ kv, match kv.2 with
              | JStr s => Some (kv.1, s)
              | JNull => Some (kv.1, "")
              | _ => None
              end) fs.
Inductive BillingErr := BErrSQL | BErrPayload.

Definition line_of (e : ChainEvent) : option Line :=
  p ← texts_of (ce_payload e);
  Some (MkLine (ce_kind e) (ce_tx e) (ce_block e) (ce_index e) p
    (if bool_decide (ce_kind e = "ExpenseRecorded") then payload_get "receiptHash" p else "")).
(** [ORDER BY block_number, log_index]; SQLite keeps the insertion order of equal rows. *)
Definition event_less (a b : ChainEvent) : bool :=
  if ce_block a =? ce_block b then ce_index a <? ce_index b else ce_block a <? ce_block b.
Definition job_events (d : ChainDB) (job : string) : list ChainEvent :=
  SliceStable event_less (filter (λ e, ce_entity e = job) (chain_events d)).
Definition bsql : M ChainStore BillingErr unit := mapErrM (λ _, BErrSQL) sql.
Definition chainLines (job : string) : M ChainStore BillingErr (list Line) :=
  bsql ;;; s <-- getM ;;
  match mapM line_of (job_events (cdb s) job) with
  | Some l => retM l
  | None => failM BErrPayload
  end.

Definition emptyTotals : Totals := MkTotals "" "" "" "" "" "".
(** One turn of [computeTotals]; the state is the totals, the expenses so far
    and whether one was seen. *)
Definition add_line (acc : Totals * Z * bool) (l : Line) : Totals * Z * bool :=
  let '(t, expenses, saw) := acc in
  let get k := payload_get k (ln_Payload l) in
  if bool_decide (ln_Kind l = "JobFunded") then
    (MkTotals (get "amountAtomic") (to_Principal t) (to_Fee t) (to_Expenses t) (to_Repaid t) (to_Net t), expenses, saw)
  else if bool_decide (ln_Kind l = "AdvanceIssued") then
    (MkTotals (to_Funded t) (get "principalAtomic") (get "feeAtomic") (to_Expenses t) (to_Repaid t) (to_Net t), expenses, saw)
  else if bool_decide (ln_Kind l = "ExpenseRecorded") then
    match parse_int (get "amountAtomic") with
    | Some v => (t, expenses + v, true)
    | None => acc
    end
  else if bool_decide (ln_Kind l = "JobSettled") then
    (MkTotals (to_Funded t) (to_Principal t) (to_Fee t) (to_Expenses t) (get "advanceRepaidAtomic") (get "operatorNetAtomic"),
     expenses, saw)
  else acc.
Definition computeTotals (lines : list Line) : Totals :=
  let '(t, expenses, saw) := foldl add_line (emptyTotals, 0, false) lines in
  if saw : bool
  then MkTotals (to_Funded t) (to_Principal t) (to_Fee t) (FormatInt expenses) (to_Repaid t) (to_Net t)
  else t.

Definition check_field (field fromEvents fromProjection : string) : list BillingAlert :=
  if bool_decide (field = "expenses") && bool_decide (fromEvents = "") && bool_decide (fromProjection = "0") then []
  else if bool_decide (fromEvents = fromProjection) then []
  else [ProjectionDivergence field fromEvents fromProjection].
Definition crossCheck (job : string) (t : Totals) : M ChainStore BillingErr (list BillingAlert) :=
  bsql ;;; s <-- getM ;;
  match chain_job_financials (cdb s) !! job with
  | None => retM []
  | Some f =>
    retM (check_field "funded" (to_Funded t) (default "" (fi_funded f)) ++
          check_field "advance-principal" (to_Principal t) (default "" (fi_principal f)) ++
          check_field "advance-fee" (to_Fee t) (default "" (fi_fee f)) ++
          check_field "expenses" (to_Expenses t) (fi_expense f) ++
          check_field "settlement-advance-repaid" (to_Repaid t) (default "" (fi_repaid f)) ++
          check_field "operator-net" (to_Net t) (default "" (fi_net f)))
  end.

Definition is_expense (l : Line) : bool := bool_decide (ln_Kind l = "ExpenseRecorded").
Definition onChain (lines : list Line) (hash : string) : bool :=
  existsb (λ l, is_expense l && bool_decide (ln_ReceiptHash l = hash)) lines.
Definition joins (lines : list Line) (p : SourceProvenance) : bool :=
  negb (bool_decide (sp_ReceiptHash p = "")) && onChain lines (sp_ReceiptHash p).
Definition join_provenance (lines : list Line) (p : SourceProvenance) : JoinOutcome :=
  MkJoin (sp_ReceiptHash p) (sp_Resource p)
    (if joins lines p then OutcomeMatched else OutcomePendingSettlement).
(** The [matched] set the provenance loop fills. *)
Definition matched (lines : list Line) (prov : list SourceProvenance) (hash : string) : bool :=
  existsb (λ p, joins lines p && bool_decide (sp_ReceiptHash p = hash)) prov.
Definition unmatched_line (known : option (string → bool)) (l : Line) : JoinOutcome * list BillingAlert :=
  let vouched := match known with Some k => k (ln_ReceiptHash l) | None => false end in
  if vouched then (MkJoin (ln_ReceiptHash l) "" OutcomeRecordedNotAttributed, [])
  else (MkJoin (ln_ReceiptHash l) "" OutcomeOutsidePolicy,
        [ExpenseOutsidePolicy (ln_ReceiptHash l) (payload_get "amountAtomic" (ln_Payload l)) (ln_TxHash l)]).
Definition reconcile (known : option (string → bool)) (lines : list Line) (prov : list SourceProvenance) :
    list JoinOutcome * list BillingAlert :=
  let rest := unmatched_line known <$>
    filter (λ l, is_expense l && negb (matched lines prov (ln_ReceiptHash l)) = true) lines in
  ((join_provenance lines <$> prov) ++ rest.*1, concat rest.*2).

Definition has_kind (lines : list Line) (kind : string) : bool :=
  existsb (λ l, bool_decide (ln_Kind l = kind)) lines.
Definition gapsFor (lines : list Line) (outcomes : list JoinOutcome) : list Gap :=
  let pendingPurchases := existsb (λ o, bool_decide (jo_Outcome o = OutcomePendingSettlement)) outcomes in
  let gap (b : bool) stage cause detail := if b then [MkGap stage cause detail] else [] in
  gap (negb (has_kind lines "JobFunded")) "funding" "no on-chain funding record"
    "JobVault funding never executed — chain deployment + write path unassigned (standup item, 23 Jul)" ++
  gap (negb (has_kind lines "AdvanceIssued")) "advance" "no on-chain advance record"
    "FloatPool.requestAdvance never called — the snap depends on the unowned chain-write path" ++
  gap pendingPurchases "expenses" "purchases approved but not yet settled on chain"
    "daemon-approved purchases move no money until the F2 sidecar client lands (purchase.pending_settlement)" ++
  gap (negb (has_kind lines "DeliverySubmitted")) "delivery" "no on-chain delivery anchor"
    "delivery anchor never submitted — chain-write path unassigned" ++
  gap (negb (has_kind lines "JobSettled") && negb (has_kind lines "AdvanceWrittenOff")) "settlement"
    "no on-chain settlement"
    "settlement tx never produced — the fall (V9 Accept) depends on the unowned chain-write path".
Definition deliveryHash (lines : list Line) : string :=
  match filter (λ l, ln_Kind l = "DeliverySubmitted") lines with
  | l :: _ => payload_get "deliveryHash" (ln_Payload l)
  | [] => ""
  end.

(** [Agent.Invoice]. *)
Definition Invoice (known : option (string → bool)) (now : time) (req : Request) :
    M ChainStore BillingErr InvoiceSet :=
  lines <-- chainLines (rq_VaultJobID req) ;;
  alerts <-- crossCheck (rq_VaultJobID req) (computeTotals lines) ;;
  (let '(outcomes, joinAlerts) := reconcile known lines (rq_Provenance req) in
   let gaps := gapsFor lines outcomes in
   let status := if bool_decide (gaps = []) then StatusComplete else StatusPartial in
   let doc copy gs := MkInvoice copy (rq_JobID req) (rq_VaultJobID req) status lines gs
                        (computeTotals lines) (deliveryHash lines) now in
   retM (MkSet (doc CopyOwner gaps)
           (doc CopyCustomer ((λ g, MkGap (gp_Stage g) (gp_Cause g) "") <$> gaps))
           outcomes (alerts ++ joinAlerts))).

(** ** What the agent reads is what was decoded *)
Lemma payload_get_notin k p : k ∉ p.*1 → payload_get k p = "".
Proof.
  induction p as [|[k' v] p IH]; [done|]. cbn. rewrite not_elem_of_cons. intros [Hk Hp].
  destruct (String.eqb_spec k k') as [->|]; [done|auto].
Qed.
Lemma payload_get_in k v p : NoDup p.*1 → (k, v) ∈ p → payload_get k p = v.
Proof.
  induction p as [|[k' v'] p IH]; cbn; [by intros _ H%elem_of_nil|].
  rewrite NoDup_cons, elem_of_cons. intros [Hn Hd] [Hkv|Hkv].
  - injection Hkv as -> ->. by rewrite String.eqb_refl.
  - destruct (String.eqb_spec k k') as [->|]; [|auto]. destruct Hn. apply list_elem_of_fmap. by exists (k', v).
Qed.
Lemma payload_get_perm k p q : NoDup p.*1 → p ≡ₚ q → payload_get k p = payload_get k q.
Proof.
  intros Hd Hp. assert (Hd' : NoDup q.*1) by by rewrite <-Hp.
  destruct (decide (k ∈ p.*1)) as [Hk|Hk].
  - apply list_elem_of_fmap in Hk as ([k' v] & -> & Hkv). cbn.
    rewrite (payload_get_in k' v p) by done. symmetry. apply payload_get_in; [done|]. by rewrite <-Hp.
  - rewrite payload_get_notin by done. symmetry. apply payload_get_notin. by rewrite <-Hp.
Qed.
Definition clean_payload (p : list (string * string)) : list (string * string) :=
  (λ kv, (kv.1, utf8_clean kv.2)) <$> isort key_less p.
Lemma texts_of_payloadJSON e : texts_of (payloadJSON e) = Some (clean_payload (d_Payload e)).
Proof.
  unfold payloadJSON, texts_of, clean_payload. cbn. induction (isort key_less (d_Payload e)) as [|kv l IH]; [done|].
  cbn. rewrite IH. done.
Qed.
Lemma clean_get_map k p : payload_get k ((λ kv, (kv.1, utf8_clean kv.2)) <$> p) = utf8_clean (payload_get k p).
Proof. induction p as [|[k' v] p IH]; [done|]. cbn. by destruct (String.eqb k k'). Qed.
Lemma clean_get k p : NoDup p.*1 → payload_get k (clean_payload p) = utf8_clean (payload_get k p).
Proof.
  intros Hd. unfold clean_payload. rewrite clean_get_map. f_equal. symmetry. apply payload_get_perm; [done|].
  symmetry. apply isort_perm.
Qed.
Lemma uint256_clean v : is_uint256 v → utf8_clean v = v ∧ ∃ z, 0 ≤ z ∧ v = FormatInt z.
Proof.
  intros (z & Hz & ->). split.
  - apply utf8_clean_ascii. pose proof (FormatUint_digits z ltac:(lia)) as Hd. revert Hd.
    generalize (FormatUint z). induction s as [|c r IH]; [done|]. cbn. rewrite !andb_true_iff.
    intros [Hc Hr]. split; [|auto]. revert Hc. destruct c as [[] [] [] [] [] [] [] []]; vm_compute; congruence.
  - exists z. split; [lia|]. unfold FormatInt. by rewrite (proj2 (Z.ltb_ge z 0)) by lia.
Qed.

(** ** The totals follow the projection *)
Definition agree (t : Totals) (expenses : Z) (saw : bool) (f : Financials) : Prop :=
  to_Funded t = default "" (fi_funded f) ∧ to_Principal t = default "" (fi_principal f) ∧
  to_Fee t = default "" (fi_fee f) ∧ to_Repaid t = default "" (fi_repaid f) ∧
  to_Net t = default "" (fi_net f) ∧ fi_expense f = FormatInt expenses ∧ to_Expenses t = "" ∧
  (saw = false → expenses = 0).
Definition tracks (job : string) (m : gmap string Financials) (acc : Totals * Z * bool) : Prop :=
  agree acc.1.1 acc.1.2 acc.2 (default (freshFinancials (0, 0)) (m !! job)).

(** Take one kind: decide the tests of the chain against it. *)
Ltac kind_case e k Hw Hu :=
  destruct (decide (d_Kind e = k)) as [K|?];
  [ rewrite K in Hw, Hu |- *;
    repeat (rewrite bool_decide_false in Hu by done); rewrite bool_decide_true in Hu by done;
    repeat (rewrite bool_decide_false by done); try rewrite bool_decide_true by done; clear K | ].

Lemma update_agrees pos e row f l t x saw :
  well_typed e → update_row (d_Kind e) (d_Payload e) pos f = Ok row →
  ln_Kind l = d_Kind e → ln_Payload l = clean_payload (d_Payload e) →
  agree t x saw f →
  agree (add_line (t, x, saw) l).1.1 (add_line (t, x, saw) l).1.2 (add_line (t, x, saw) l).2 row.
Proof.
  intros [Hd Hw] Hu Hk Hp (H1 & H2 & H3 & H4 & H5 & H6 & H7 & H8).
  unfold add_line. rewrite Hk, Hp. rewrite !(clean_get _ _ Hd). unfold update_row in Hu. unfold agree.
  kind_case e "JobFunded" Hw Hu.
  { injection Hu as <-. destruct (uint256_clean _ Hw) as [-> _]. done. }
  kind_case e "AdvanceIssued" Hw Hu.
  { injection Hu as <-. destruct Hw as (Hw1 & Hw2 & _).
    rewrite (proj1 (uint256_clean _ Hw1)), (proj1 (uint256_clean _ Hw2)). done. }
  kind_case e "ExpenseRecorded" Hw Hu.
  { destruct (uint256_clean _ Hw) as (-> & z & Hz & Ha). rewrite Ha, H6 in Hu. rewrite Ha.
    unfold addAtomic in Hu. rewrite !parse_int_FormatInt in Hu. destruct (_ || _); [done|]. injection Hu as <-.
    rewrite parse_int_FormatInt. cbn. by split_and!. }
  kind_case e "DeliverySubmitted" Hw Hu; [by injection Hu as <-|].
  kind_case e "AdvanceRepaid" Hw Hu; [by injection Hu as <-|].
  kind_case e "JobSettled" Hw Hu.
  { injection Hu as <-. destruct Hw as (Hw1 & Hw2).
    rewrite (proj1 (uint256_clean _ Hw1)), (proj1 (uint256_clean _ Hw2)). done. }
  kind_case e "AdvanceWrittenOff" Hw Hu; [by injection Hu as <-|].
  by rewrite !bool_decide_false in Hu by done.
Qed.

Lemma mapM_snoc {A B} (f : A → option B) l x ls y :
  mapM f l = Some ls → f x = Some y → mapM f (l ++ [x]) = Some (ls ++ [y]).
Proof.
  rewrite !mapM_Some. intros Hl Hx. apply Forall2_app; [done|]. by constructor.
Qed.

Section Totals.
Context (unicodeLower : string → string).
Abbreviation explained := (explained unicodeLower).
Abbreviation decoded_as := (decoded_as unicodeLower).

Lemma line_of_decoded p c : decoded_as p c →
  ∃ l, line_of c = Some l ∧ ln_Kind l = d_Kind p.2 ∧ ln_Payload l = clean_payload (d_Payload p.2) ∧
    ce_entity c = d_EntityID p.2 ∧ well_typed p.2.
Proof.
  intros (Hd & tx & row & _ & ->). pose proof (decode_cases unicodeLower p.1) as Hw.
  rewrite Hd in Hw. destruct Hw as [_ Hw]. unfold line_of, event_row. cbn [ce_payload ce_kind ce_tx ce_block ce_index ce_entity].
  rewrite texts_of_payloadJSON. cbn [mbind option_bind]. eexists. split; [reflexivity|]. done.
Qed.

Lemma tracked l : ∀ cs job m, Forall2 decoded_as l cs → jobs_fold ∅ l = Ok m →
  ∃ lines, mapM line_of (filter (λ e, ce_entity e = job) cs) = Some lines ∧
    tracks job m (foldl add_line (emptyTotals, 0, false) lines).
Proof.
  induction l as [|[log e] l IH] using rev_ind; intros cs job m Hl Hm.
  { apply Forall2_nil_inv_l in Hl as ->. cbn in Hm. injection Hm as <-. exists []. split; [done|].
    unfold tracks. cbn. rewrite lookup_empty. by split_and!. }
  apply Forall2_app_inv_l in Hl as (cs1 & cs2 & Hl & Hc & ->).
  apply Forall2_cons_inv_l in Hc as (c & cs3 & Hc & Hn & ->). apply Forall2_nil_inv_l in Hn as ->.
  rewrite jobs_fold_app in Hm. destruct (jobs_fold ∅ l) as [m1|] eqn:E1; [|done]. cbn in Hm.
  destruct (project_jobs (pos_of log) e m1) as [m2|] eqn:E2; [|done]. cbn in Hm. injection Hm as <-.
  destruct (IH cs1 job m1 Hl eq_refl) as (lines & Hlines & Ht).
  destruct (line_of_decoded _ _ Hc) as (ln & Hln & Hk & Hp & Hent & Hw). cbn in *.
  rewrite filter_app. unfold project_jobs in E2. destruct (decide (d_EntityID e = job)) as [<-|Hne].
  - rewrite filter_cons, decide_True, filter_nil by done. 
    eexists. split; [by apply mapM_snoc|]. rewrite foldl_app. cbn. unfold tracks in *.
    destruct (foldl add_line _ lines) as [[t x] saw]. cbn [fst snd] in Ht.
    revert E2. case_bool_decide as K.
    + intros [= <-]. unfold add_line. rewrite Hk, K. by repeat (rewrite bool_decide_false by done).
    + destruct (update_row _ _ _ _) as [row|] eqn:Eu; [|done]. intros [= <-]. rewrite lookup_insert_eq. cbn [default].
      eapply update_agrees; [exact Hw|exact Eu|done|done|].
      destruct (m1 !! d_EntityID e); exact Ht.
  - rewrite filter_cons, decide_False, filter_nil, app_nil_r by congruence. exists lines. split; [done|].
    revert E2. case_bool_decide as K; [by intros [= <-]|].
    destruct (update_row _ _ _ _) as [row|]; [|done]. intros [= <-]. unfold tracks in *. by rewrite lookup_insert_ne.
Qed.
End Totals.

Lemma check_field_same field x : check_field field x x = [].
Proof. unfold check_field. destruct (_ && _); [done|]. by rewrite bool_decide_true. Qed.
Lemma sorted_filter {A} (R : A → A → Prop) (P : A → Prop) `{∀ x, Decision (P x)} l :
  StronglySorted R l → StronglySorted R (filter P l).
Proof.
  induction 1 as [|x l Hs IH Hall]; [constructor|]. rewrite filter_cons. case_decide; [|done].
  constructor; [done|]. rewrite Forall_forall in *. intros y Hy. apply list_elem_of_filter in Hy as [_ Hy]. auto.
Qed.
Lemma bsql_cases s s' r : bsql s = (s', r) → cdb s' = cdb s ∧ (r = Ok tt ∨ r = Err BErrSQL).
Proof.
  unfold bsql, mapErrM. destruct (sql s) as [t q] eqn:E. apply sql_cases in E as [Hd [-> | ->]]; intros; simplify_eq; auto.
Qed.
Lemma chainLines_cases job s s' r : chainLines job s = (s', r) → cdb s' = cdb s ∧
  (r = Err BErrSQL ∨ r = match mapM line_of (job_events (cdb s) job) with Some l => Ok l | None => Err BErrPayload end).
Proof.
  unfold chainLines. intros H. run_bind H Hm; apply bsql_cases in Hm as [Hd Hr].
  2: { destruct Hr as [|Hr]; [done|]. injection Hr as ->. auto. }
  run_bind H Hg; [|by unfold getM in Hg]. unfold getM in Hg. injection Hg as <- <-. rewrite Hd in H.
  destruct (mapM _ _); unfold retM, failM in H; simplify_eq; auto.
Qed.
Lemma crossCheck_cases job t s s' r : crossCheck job t s = (s', r) →
  r = Err BErrSQL ∨ ∃ s1, crossCheck job t (MkChainStore (cdb s) []) = (s1, r).
Proof.
  unfold crossCheck. intros H. run_bind H Hm; apply bsql_cases in Hm as [Hd Hr].
  2: { destruct Hr as [|Hr]; [done|]. injection Hr as ->. auto. }
  right. run_bind H Hg; [|by unfold getM in Hg]. unfold getM in Hg. injection Hg as <- <-. rewrite Hd in H.
  unfold bindM, bsql, mapErrM, sql, getM. cbn. destruct (_ !! job); unfold retM in *; simplify_eq; eauto.
Qed.

Section Honest.
Context (unicodeLower : string → string).

Lemma events_sorted l cs : Forall2 (decoded_as unicodeLower) l cs → in_order (l.*1) →
  StronglySorted (not_after event_less) cs.
Proof.
  induction 1 as [|p c l cs Hpc Hl IH]; cbn; intros Hs; [constructor|].
  inversion Hs as [|? ? Hs' Hall]; subst. constructor; [auto|].
  assert (Hev : ∀ q d, decoded_as unicodeLower q d → ce_block d = l_BlockNumber q.1 ∧ ce_index d = l_LogIndex q.1).
  { intros q d (_ & tx & row & _ & ->). done. }
  destruct (Hev _ _ Hpc) as [Hb Hi]. clear Hpc Hs Hs' IH. revert Hall.
  induction Hl as [|q d l cs Hqd Hl IH]; cbn; [constructor|]. rewrite Forall_cons. intros [Hq Hall].
  destruct (Hev _ _ Hqd) as [Hb' Hi']. constructor; [|auto].
  unfold not_after, event_less in *. unfold log_less in Hq. rewrite Hb, Hi, Hb', Hi'. exact Hq.
Qed.
Lemma job_lines cfg d job : tables_ok unicodeLower cfg d →
  ∃ lines, mapM line_of (job_events d job) = Some lines ∧
    tracks job (chain_job_financials d) (foldl add_line (emptyTotals, 0, false) lines).
Proof.
  intros (l & [Hl Hm] & Hs & _). destruct (tracked unicodeLower l _ job _ Hl Hm) as (lines & Hln & Ht).
  exists lines. split; [|done]. unfold job_events. rewrite SliceStable_sorted_id; [done|].
  by apply sorted_filter, (events_sorted l).
Qed.
Lemma crossCheck_silent job lines d s : 
  tracks job (chain_job_financials d) (foldl add_line (emptyTotals, 0, false) lines) →
  ∃ s1, crossCheck job (computeTotals lines) (MkChainStore d s) = (s1, Ok []) ∨
        crossCheck job (computeTotals lines) (MkChainStore d s) = (s1, Err BErrSQL).
Proof.
  intros Ht. destruct (crossCheck _ _ _) as [s1 r] eqn:E. exists s1. apply crossCheck_cases in E as [->|[s2 E]]; [by right|left].
  f_equal. revert E. unfold crossCheck, bindM, bsql, mapErrM, sql, getM, tracks, computeTotals in *. cbn.
  destruct (foldl add_line _ lines) as [[t x] saw]. cbn [fst snd] in Ht.
  destruct (chain_job_financials d !! job) as [f|]; cbn in Ht |- *; [|unfold retM; intros; by simplify_eq].
  destruct Ht as (H1 & H2 & H3 & H4 & H5 & H6 & H7 & H8). unfold retM. intros [= _ <-].
  destruct saw; cbn; rewrite H1, H2, H3, H4, H5, ?H6, !check_field_same; [done|].
  rewrite H7, H8 by done. done.
Qed.

(** An invoice and the projection never disagree.  Whatever the node
    reported and whatever failed on the way, the tables an indexer leaves make
    every invoice readable, and its six totals - each recomputed from the raw
    events - are those of [chain_job_financials]: the divergence alert is
    never raised, for any job, and only a failing statement stops an invoice. *)
Lemma invoice_agrees_with_projection {W} `{Source W} cfg0 cfg s known now req fs s' r :
  uint64_config cfg0 → New unicodeLower cfg0 = Ok cfg → heads_below max_uint64 →
  indexed unicodeLower cfg s →
  Invoice known now req (MkChainStore (cdb (ix_store s)) fs) = (s', r) →
  r = Err BErrSQL ∨ ∃ set, r = Ok set ∧ ∀ f a b, ProjectionDivergence f a b ∉ st_Alerts set.
Proof.
  intros Hu Hn Hh Hs Hi.
  assert (Ht : tables_ok unicodeLower cfg (cdb (ix_store s))).
  { apply (indexed_inv unicodeLower cfg); [by eapply New_config_ok|done| | |done].
    - apply tables_ok_inductive. - apply tables_ok_empty. }
  destruct (job_lines cfg _ (rq_VaultJobID req) Ht) as (lines & Hl & Htr).
  unfold Invoice in Hi. run_bind Hi Hc; apply chainLines_cases in Hc as [Hd Hr].
  2: { left. cbn in Hr. rewrite Hl in Hr. destruct Hr as [Hr|]; [congruence|done]. }
  destruct Hr as [|Hr]; [done|]. cbn in Hr, Hd. rewrite Hl in Hr. injection Hr as ->.
  match type of Hi with bindM _ _ ?st = _ => destruct st as [d fs1] end. cbn in Hd. subst d.
  destruct (crossCheck_silent (rq_VaultJobID req) lines _ fs1 Htr) as [s1 [Hx|Hx]];
    unfold bindM in Hi; rewrite Hx in Hi; [right|injection Hi as <- <-; by left].
  destruct (reconcile known lines _) as [outcomes joinAlerts] eqn:Er. unfold retM in Hi. injection Hi as <- <-.
  eexists. split; [reflexivity|]. cbn. intros f a b Hin.
  unfold reconcile in Er. injection Er as _ <-. clear Hx Hl Htr. revert Hin.
  induction (filter _ lines) as [|l ls IH]; cbn; [by intros ?%elem_of_nil|]. rewrite elem_of_app. intros [Hin|]; [|done].
  revert Hin. unfold unmatched_line. destruct (match known with Some k => _ | None => _ end); cbn;
    [by intros ?%elem_of_nil|by intros ?%list_elem_of_singleton].
Qed.
End Honest.

(** ** What an invoice says *)
Lemma has_kind_spec lines kind : has_kind lines kind = true ↔ ∃ l, l ∈ lines ∧ ln_Kind l = kind.
Proof.
  unfold has_kind. rewrite existsb_exists. split; intros (l & Hl & Hk); exists l.
  - rewrite list_elem_of_In. bool_to_prop. done.
  - rewrite <-list_elem_of_In, bool_decide_eq_true. done.
Qed.
Lemma matched_spec lines prov hash : matched lines prov hash = true →
  ∃ p, p ∈ prov ∧ sp_ReceiptHash p = hash ∧ hash ≠ "".
Proof.
  unfold matched. rewrite existsb_exists. intros (p & Hp & Hj). apply list_elem_of_In in Hp.
  unfold joins in Hj. bool_to_prop. subst hash. eauto.
Qed.
Lemma rest_alert known l ls : l ∈ ls → (∀ k, known = Some k → k (ln_ReceiptHash l) = false) →
  ExpenseOutsidePolicy (ln_ReceiptHash l) (payload_get "amountAtomic" (ln_Payload l)) (ln_TxHash l)
    ∈ concat (unmatched_line known <$> ls).*2.
Proof.
  intros Hl Hk. induction ls as [|x ls IH]; [by apply elem_of_nil in Hl|]. cbn. rewrite elem_of_app.
  apply elem_of_cons in Hl as [<-|Hl]; [left|right; auto]. unfold unmatched_line.
  destruct known as [k|]; [rewrite (Hk k eq_refl)|]; cbn; by left.
Qed.
Lemma rest_alert_inv known a ls : a ∈ concat (unmatched_line known <$> ls).*2 →
  ∃ l, l ∈ ls ∧ a = ExpenseOutsidePolicy (ln_ReceiptHash l) (payload_get "amountAtomic" (ln_Payload l)) (ln_TxHash l).
Proof.
  induction ls as [|x ls IH]; cbn; [by intros ?%elem_of_nil|]. rewrite elem_of_app. intros [Ha|Ha].
  - exists x. split; [by left|]. revert Ha. unfold unmatched_line.
    destruct (match known with Some k => _ | None => _ end); cbn;
      [by intros ?%elem_of_nil|by intros ?%list_elem_of_singleton].
  - destruct (IH Ha) as (l & ? & ?). exists l. split; [by right|done].
Qed.

(** No expense is silent.  Every [ExpenseRecorded] line of an invoice is
    accounted for in one of three ways: a purchase of the daemon carries its
    (non-empty) receipt hash, or the durable record vouches for the hash, or
    the invoice carries the outside-policy alert with its hash, amount and
    transaction.  And each such alert is about an expense of the invoice that
    no purchase carries. *)
Lemma expense_never_silent known lines prov :
  (∀ l, l ∈ lines → ln_Kind l = "ExpenseRecorded" →
    (∃ p, p ∈ prov ∧ sp_ReceiptHash p = ln_ReceiptHash l ∧ ln_ReceiptHash l ≠ "") ∨
    (∃ k, known = Some k ∧ k (ln_ReceiptHash l) = true) ∨
    ExpenseOutsidePolicy (ln_ReceiptHash l) (payload_get "amountAtomic" (ln_Payload l)) (ln_TxHash l)
      ∈ (reconcile known lines prov).2) ∧
  (∀ a, a ∈ (reconcile known lines prov).2 → ∃ l, l ∈ lines ∧ ln_Kind l = "ExpenseRecorded" ∧
    a = ExpenseOutsidePolicy (ln_ReceiptHash l) (payload_get "amountAtomic" (ln_Payload l)) (ln_TxHash l) ∧
    ∀ p, p ∈ prov → sp_ReceiptHash p = ln_ReceiptHash l → ln_ReceiptHash l = "").
Proof.
  split.
  - intros l Hl Hk. destruct (matched lines prov (ln_ReceiptHash l)) eqn:Em.
    { left. apply matched_spec in Em as (p & ? & ? & ?). eauto. }
    right. destruct (match known with Some k => k (ln_ReceiptHash l) | None => false end) eqn:Ek.
    { left. destruct known as [k|]; [eauto|done]. }
    right. cbn. apply rest_alert; [|intros k ->; exact Ek].
    apply list_elem_of_filter. split; [|done]. unfold is_expense. by rewrite bool_decide_true, Em.
  - intros a Ha. cbn in Ha. apply rest_alert_inv in Ha as (l & Hl & ->). apply list_elem_of_filter in Hl as [Hb Hl].
    apply andb_true_iff in Hb as [He Hm]. unfold is_expense in He. bool_to_prop. exists l. split_and!; [done..|].
    intros p Hp Hh. destruct (decide (ln_ReceiptHash l = "")) as [|Hne]; [done|]. exfalso.
    apply not_true_iff_false in Hm. apply Hm. unfold matched. apply existsb_exists. exists p.
    split; [by apply list_elem_of_In|]. unfold joins, onChain. rewrite Hh, !bool_decide_false by done. cbn.
    rewrite bool_decide_true by done. rewrite andb_true_r. apply existsb_exists. exists l.
    split; [by apply list_elem_of_In|]. unfold is_expense. by rewrite !bool_decide_true.
Qed.

(** An invoice is complete in exactly the case that the job was funded,
    advanced, delivered and settled (or written off) on chain and no purchase
    of the daemon is missing there; otherwise it says partial and names each
    missing stage.  The customer's copy has the same lines, totals and status,
    the same stages and causes, and no internal detail. *)
Lemma invoice_complete_iff known now req s s' set :
  Invoice known now req s = (s', Ok set) →
  let o := st_Owner set in let c := st_Customer set in
  let has k := ∃ l, l ∈ iv_Lines o ∧ ln_Kind l = k in
  (iv_Status o = StatusComplete ↔
     has "JobFunded" ∧ has "AdvanceIssued" ∧ has "DeliverySubmitted" ∧
     (has "JobSettled" ∨ has "AdvanceWrittenOff") ∧
     ∀ p, p ∈ rq_Provenance req → ∃ l, l ∈ iv_Lines o ∧ ln_Kind l = "ExpenseRecorded" ∧
       ln_ReceiptHash l = sp_ReceiptHash p ∧ sp_ReceiptHash p ≠ "") ∧
  (iv_Lines c, iv_Totals c, iv_Status c, iv_DeliveryHash c) = (iv_Lines o, iv_Totals o, iv_Status o, iv_DeliveryHash o) ∧
  Forall2 (λ g h, gp_Stage g = gp_Stage h ∧ gp_Cause g = gp_Cause h ∧ gp_Detail h = "") (iv_Gaps o) (iv_Gaps c).
Proof.
  intros Hi o c has. unfold Invoice in Hi.
  apply bindM_inv_ok in Hi as (s1 & lines & _ & Hi). apply bindM_inv_ok in Hi as (s2 & al & _ & Hi).
  destruct (reconcile known lines (rq_Provenance req)) as [outs ja] eqn:Er. unfold retM in Hi. injection Hi as _ <-.
  subst o c. cbn [st_Owner st_Customer iv_Status iv_Lines iv_Totals iv_DeliveryHash iv_Gaps] in *.
  split_and!; [|done|].
  - assert (Hpend : existsb (λ o, bool_decide (jo_Outcome o = OutcomePendingSettlement)) outs = false ↔
      ∀ p, p ∈ rq_Provenance req → joins lines p = true).
    { rewrite <-not_true_iff_false, existsb_exists. unfold reconcile in Er. injection Er as <- _. split.
      - intros Hno p Hp. apply not_false_iff_true. intros Hj. apply Hno. exists (join_provenance lines p).
        rewrite <-list_elem_of_In, elem_of_app. split; [left; by apply list_elem_of_fmap_2|].
        unfold join_provenance. by rewrite Hj.
      - intros Hall (o & Ho & Hb). rewrite <-list_elem_of_In, elem_of_app in Ho. bool_to_prop.
        destruct Ho as [Ho|Ho].
        + apply list_elem_of_fmap in Ho as (p & -> & Hp). cbn in Hb. by rewrite (Hall p Hp) in Hb.
        + apply list_elem_of_fmap in Ho as (x & -> & Hx). apply list_elem_of_fmap in Hx as (l & -> & _).
          revert Hb. unfold unmatched_line. by destruct (match known with Some k => _ | None => _ end). }
    assert (Hj : ∀ p, joins lines p = true ↔ ∃ l, l ∈ lines ∧ ln_Kind l = "ExpenseRecorded" ∧
              ln_ReceiptHash l = sp_ReceiptHash p ∧ sp_ReceiptHash p ≠ "").
    { intros p. unfold joins, onChain. rewrite andb_true_iff, existsb_exists. split.
      - intros [Hn (l & Hl & He)]. unfold is_expense in He. bool_to_prop. apply list_elem_of_In in Hl. eauto.
      - intros (l & Hl & Hk & Hh & Hn). rewrite bool_decide_false by done. split; [done|]. exists l.
        rewrite <-list_elem_of_In. unfold is_expense. by rewrite !bool_decide_true. }
    setoid_rewrite <-Hj. rewrite <-Hpend. unfold has. rewrite <-!has_kind_spec.
    unfold gapsFor. set (b := existsb _ outs). clearbody b. clear.
    destruct (has_kind lines "JobFunded"), (has_kind lines "AdvanceIssued"), b, (has_kind lines "DeliverySubmitted"),
      (has_kind lines "JobSettled"), (has_kind lines "AdvanceWrittenOff"); vm_compute; naive_solver.
  - apply Forall2_fmap_r. apply Forall_Forall2_diag, Forall_forall. done.
Qed.

(** ** Samples *)
(** Two charges that carry one receipt hash are both covered by one purchase. *)
Definition repeated_line (tx : string) : Line :=
  MkLine "ExpenseRecorded" tx 12 0 [("amountAtomic", "1500000"); ("receiptHash", "0xab")] "0xab".
Lemma repeated_receipt_matches_once :
  (reconcile None [repeated_line "0x01"; repeated_line "0x02"] [MkProvenance "https://data" "0xab"]).2 = [].
Proof. reflexivity. Qed.

Definition sample_request : Request := MkRequest "job-1" ("0x" +:+ zeros64) [].
Lemma invoice_agrees_with_projection_witness :
  ∃ set, (Invoice None zeroTime sample_request (MkChainStore (cdb (ix_store sample_synced)) [])).2 = Ok set ∧
    length (iv_Lines (st_Owner set)) = 3%nat ∧
    ∀ f a b, ProjectionDivergence f a b ∉ st_Alerts set.
Proof.
  destruct (Invoice None zeroTime sample_request (MkChainStore (cdb (ix_store sample_synced)) [])) as [s' r] eqn:E.
  assert (Hc : uint64_config sample_config) by (unfold uint64_config; cbn; unfold two64; lia).
  assert (Hn : New (λ s, s) sample_config = Ok sample_deployed) by (vm_compute; reflexivity).
  assert (Hh : heads_below (H := sample_source) max_uint64)
    by (apply sample_heads; unfold max_uint64, two64; lia).
  destruct (invoice_agrees_with_projection (H := sample_source) (λ s, s) sample_config sample_deployed sample_synced
              None zeroTime sample_request [] s' r Hc Hn Hh sample_indexed E) as [Hr|(set & Hr & Ha)].
  - exfalso. assert (Hok : is_ok (Invoice None zeroTime sample_request
       (MkChainStore (cdb (ix_store sample_synced)) [])).2 = true) by (vm_compute; reflexivity).
    rewrite E, Hr in Hok. discriminate Hok.
  - exists set. split; [exact Hr|split; [|exact Ha]].
    assert (Hl : match (Invoice None zeroTime sample_request (MkChainStore (cdb (ix_store sample_synced)) [])).2 with
                 | Ok set => length (iv_Lines (st_Owner set)) | Err _ => 0%nat end = 3%nat) by (vm_compute; reflexivity).
    rewrite E, Hr in Hl. exact Hl.
Defined.
Lemma invoice_complete_iff_witness :
  match (Invoice None zeroTime sample_request (MkChainStore (cdb (ix_store sample_synced)) [])).2 with
  | Ok set => iv_Status (st_Owner set) ≠ StatusComplete
  | Err _ => False
  end.
Proof.
  destruct (Invoice None zeroTime sample_request (MkChainStore (cdb (ix_store sample_synced)) [])) as [s' [set|e]] eqn:E.
  - cbn. intros Hs. apply (proj1 (proj1 (invoice_complete_iff None zeroTime sample_request _ _ set E))) in Hs.
    destruct Hs as (_ & Hadv & _). apply has_kind_spec in Hadv.
    assert (Hx : match (Invoice None zeroTime sample_request (MkChainStore (cdb (ix_store sample_synced)) [])).2 with
                 | Ok set => has_kind (iv_Lines (st_Owner set)) "AdvanceIssued" | Err _ => true end = false)
      by (vm_compute; reflexivity).
    rewrite E in Hx. cbn in Hx. congruence.
  - assert (Hok : is_ok (Invoice None zeroTime sample_request
       (MkChainStore (cdb (ix_store sample_synced)) [])).2 = true) by (vm_compute; reflexivity).
    rewrite E in Hok. discriminate Hok.
Defined.
