(* ===== verification/Advancing.v ===== *)
(** [internal/advancing]: the advance, from its proposal to its outcome.

    [Propose] prices the request and submits it to the lifecycle; [await] is
    the goroutine it spawns, which executes the advance when the owner approves;
    [EscalateInterrupted] is the restart posture.  [rateOracle] and
    [oracle] are the chain reads; [meanwhile] is what happened while [await]
    was blocked and how the wait ended.  The order of [Requests], a map
    iteration, is an argument. *)
From Stdlib Require Import Ascii String.
From S2P Require Import Prelude GoStr GoTime GoJson Amount Intent Policy Store Like H3 Approval Funding.
#[local] Open Scope Z_scope.
#[local] Open Scope snap_scope.
#[local] Set Default Proof Using "Type".

(** ** The principal *)
Definition AdvanceRateBps : Z := 5000.
(** [big.Int.SetString] reads an optional sign in both parts; [Div] is
    Euclidean. *)
Definition quote_micros (quoteUSDC : string) : option Z :=
  let '(w, frac) := cut_at "." (TrimSpace quoteUSDC) in
  whole ← parse_int w;
  if whole <? 0 then None
  else match frac with
  | None => Some (whole * 1000000)
  | Some f =>
    if bool_decide (f = "") || Nat.ltb 6 (String.length f) then None
    else y ← parse_int (f +:+ zeros (6 - String.length f)); Some (whole * 1000000 + y)
  end.
Definition principalMicros (quoteUSDC : string) (rateBps : Z) : option Z :=
  if (rateBps <=? 0) || (10000 <? rateBps) then None
  else
    micros ← quote_micros quoteUSDC;
    let principal := micros * rateBps / 10000 in
    if negb (bool_decide (int64_range principal)) || (principal <=? 0) then None else Some principal.

(** ** The flow *)
Record Flow := MkFlow { fl_orgID : string; fl_window : duration }.
Inductive AdvErr := AQuote | ANonce | AApproval (e : ApErr).
Definition actorFunding : string := "funding".

Definition advance_intent (f : Flow) (now : time) (nonce jobID vaultJobID quoteUSDC : string)
    (rateBps principal : Z) : Intent :=
  MkIntent ("adv_" +:+ String.substring 2 12 nonce) (fl_orgID f) jobID "" "funding" KindAdvance ""
    "FloatPool.requestAdvance" principal
    ("working-capital advance: " +:+ FormatInt (rateBps / 100) +:+ "% of the " +:+ quoteUSDC +:+
     " USDC escrowed receivable (fee computed on-chain at submission)")
    nonce "" (now + fl_window f) vaultJobID "" "" "" principal "" "".

Section Flow.
Context {W S : Type} `{Hooks W}.
Context (keccak256 : string → string) (selector : string → string).
(** The text of an executor's error. *)
Context (failure_text : string).
Abbreviation World := (World W).
Abbreviation Fund := (Fund S).

(** [rate] is what the rate oracle answers, if one is wired and it answers;
    [nonce] the fresh one ([None]: no randomness).  The intent proposed is
    returned with the lifecycle's answer. *)
Definition Propose (f : Flow) (rate : option Z) (nonce : option string) (now : time)
    (jobID vaultJobID quoteUSDC : string) : M World AdvErr Request :=
  let rateBps := default AdvanceRateBps rate in
  match principalMicros quoteUSDC rateBps with
  | None => failM AQuote
  | Some principal =>
    match nonce with
    | None => failM ANonce
    | Some nonce =>
      res <-- mapErrM AApproval (SubmitAdvance keccak256 now
                (advance_intent f now nonce jobID vaultJobID quoteUSDC rateBps principal)) ;;
      retM (sr_Request res)
    end
  end.

Definition append_advance (now : time) (kind entity : string) (fields : list (string * jval)) (w : World) :
    World * option StoreErr :=
  let '(s, r) := Append now (MkEvent zeroTime kind entity actorFunding (JObj fields)) (st w) in
  (with_st s w, match r with Ok _ => None | Err e => Some e end).
Definition text_of_err (e : option StoreErr) : option string :=
  match e with Some _ => Some failure_text | None => None end.

Definition tx_fields (g : Grant) (out : ChainOutcome) : list (string * jval) :=
  [("request_id", JStr (g_requestID g)); ("tx_hash", JStr (co_TxHash out)); ("block", JInt (co_Block out));
   ("gas_used", JInt (co_GasUsed out))].
Definition revert_note : string :=
  "requestAdvance MINED AND REVERTED — not an advance; owner attention required".
Definition recordAdvanceOutcome (now : time) (g : Grant) (out : ChainOutcome) (w : World) : World * option string :=
  let job := i_JobID (g_intent g) in
  if negb (co_Submitted out) then
    let '(w, e) := append_advance now "advance.pending_chain" job
      [("request_id", JStr (g_requestID g)); ("principal_micros", JInt (i_AmountMicros (g_intent g)));
       ("note", JStr "advance approved; no treasury chain lane or on-chain job identity — submission pending")] w in
    (w, text_of_err e)
  else if co_Reverted out then
    let '(w, _) := append_advance now "advance.reverted" job
      (tx_fields g out ++ [("note", JStr revert_note)]) w in
    (w, Some failure_text)
  else
    let '(w, e) := append_advance now "advance.executed" job
      (tx_fields g out ++ [("principal_micros", JInt (i_AmountMicros (g_intent g)))]) w in
    (w, text_of_err e).

Definition advance_executor (now : time) (g : Grant) (w : World) (f : Fund) : World * Fund * option string :=
  let '(f, r) := ExecuteAdvance selector g f in
  match r with
  | Err _ => (w, f, Some failure_text)
  | Ok out => let '(w, e) := recordAdvanceOutcome now g out w in (w, f, e)
  end.

(** How the wait of [await] ended. *)
Inductive Wake := Cancelled | Deadline | Decided.
Definition await (now : time) (stopping : bool) (meanwhile : World → Fund → World * Fund * Wake)
    (req : Request) (w : World) (f : Fund) : World * Fund :=
  let '(w, f, wake) := meanwhile w f in
  match wake with
  | Cancelled | Deadline => (w, f)
  | Decided =>
    match Snapshot (r_ID req) w with
    | None => (w, f)
    | Some snap =>
      if negb (bool_decide (r_State snap = StateApproved)) then (w, f)
      else if stopping then (w, f)
      else
        let '(w, f, r) := Execute keccak256 now (r_Intent snap) (r_ID req) (advance_executor now) w f in
        match r with
        | Ok _ => (w, f)
        | Err _ =>
          ((append_advance now "advance.halted" (r_JobID req)
              [("request_id", JStr (r_ID req)); ("error", JStr failure_text)] w).1, f)
        end
    end
  end.

(** ** Restart *)
Definition outcome_kinds : list string := ["advance.executed"; "advance.pending_chain"; "advance.reverted"].
(** The rows the outcome query counts. *)
Definition is_outcome (id : string) (r : EventRow) : bool :=
  bool_decide (ev_kind r ∈ outcome_kinds) && contains_like (json_text (ev_payload r)) id.
Definition interrupted_fields (req : Request) (note : string) : list (string * jval) :=
  [("request_id", JStr (r_ID req)); ("state", JStr (r_State req)); ("note", JStr note)].
Definition claim_note : string :=
  "executed claim with no outcome record and no chain confirmation — owner attention required; never auto-resubmitted".
Definition resume_note : string :=
  "advance proposal interrupted by a restart; not resumed — re-propose if still wanted".

(** [oracle], if wired, says whether the job's one advance is on chain. *)
Definition resolveExecutedClaim (oracle : option (string → option bool)) (now : time) (req : Request) :
    M World StoreErr Z := λ w,
  let '(s, q) := QueryEvents outcome_kinds (st w) in
  let w := with_st s w in
  match q with
  | Err e => (w, Err e)
  | Ok rows =>
    if existsb (is_outcome (r_ID req)) rows then (w, Ok 0)
    else
      let landed := match oracle with
                    | Some o => negb (bool_decide (i_ChainRef (r_Intent req) = "")) &&
                                bool_decide (o (i_ChainRef (r_Intent req)) = Some true)
                    | None => false
                    end in
      if landed then
        let '(w, e) := append_advance now "advance.executed" (r_JobID req)
          [("request_id", JStr (r_ID req)); ("principal_micros", JInt (i_AmountMicros (r_Intent req)));
           ("recovered_from_chain", JBool true);
           ("note", JStr "claim survived a crash; the chain confirms the advance landed (openAdvanceOf)")] w in
        (w, match e with None => Ok 0 | Some e => Err e end)
      else
        let '(w, e) := append_advance now "advance.interrupted" (r_JobID req) (interrupted_fields req claim_note) w in
        (w, match e with None => Ok 1 | Some e => Err e end)
  end.

Definition settled_state (s : string) : bool :=
  bool_decide (s = StateRejected) || bool_decide (s = StateExpired) || bool_decide (s = StateAlternativeRequested).
(** One turn of the loop: the escalations it adds. *)
Definition escalate_one (oracle : option (string → option bool)) (now : time) (req : Request) : M World StoreErr Z :=
  if bool_decide (i_Kind (r_Intent req) ≠ KindAdvance) then retM 0
  else if r_Executed req then resolveExecutedClaim oracle now req
  else if settled_state (r_State req) then retM 0
  else λ w,
    let '(w, e) := append_advance now "advance.interrupted" (r_JobID req) (interrupted_fields req resume_note) w in
    (w, match e with None => Ok 1 | Some e => Err e end).
Fixpoint escalate_all (oracle : option (string → option bool)) (now : time) (reqs : list Request) (escalated : Z) :
    M World (Z * StoreErr) Z :=
  match reqs with
  | [] => retM escalated
  | req :: r => n <-- mapErrM (pair escalated) (escalate_one oracle now req) ;; escalate_all oracle now r (escalated + n)
  end.
Definition EscalateInterrupted (range : gmap string Request → list Request)
    (oracle : option (string → option bool)) (now : time) : M World (Z * StoreErr) Z :=
  w <-- getM ;; escalate_all oracle now (range (requests w)) 0.
End Flow.

(** ** The principal is exact *)
Lemma quote_micros_exact z : 0 ≤ z → quote_micros (usdc_text z) = Some z.
Proof.
  intros Hz. destruct (usdc_text_parts z Hz) as (Ht & Hw & Hf & Hlen & Hpw & Hpf).
  unfold quote_micros. rewrite Ht. unfold usdc_text. rewrite (cut_at_dot _ _ Hw).
  rewrite (parse_int_digits _ Hw), Hpw. cbn [mbind option_bind].
  assert (0 ≤ z / 1000000) by (apply Z.div_pos; lia).
  rewrite (proj2 (Z.ltb_ge _ 0)) by lia. rewrite Hlen. rewrite bool_decide_false.
  2: { intros He. by rewrite He in Hlen. }
  cbn [orb Nat.ltb Nat.leb Nat.sub zeros]. rewrite sapp_nil_r, (parse_int_digits _ Hf), Hpf. cbn.
  f_equal. pose proof (Z.div_mod z 1000000 ltac:(lia)). lia.
Qed.

(** The principal is the exact share of the quote.  For every quote of [z]
    atomic units and every rate, [principalMicros] either returns the floor of
    [z * rate / 10000], or refuses; it refuses in exactly the cases that the
    rate is outside (0, 10000] or the principal is not a positive [int64].  So
    an advance never exceeds its quote and never wraps around. *)
Lemma principalMicros_exact z rate p : 0 ≤ z →
  (principalMicros (usdc_text z) rate = Some p ↔
    0 < rate ≤ 10000 ∧ p = z * rate / 10000 ∧ 0 < p ≤ max_int64) ∧
  (principalMicros (usdc_text z) rate = Some p → p ≤ z).
Proof.
  intros Hz. unfold principalMicros. rewrite (quote_micros_exact z Hz). cbn [mbind option_bind].
  assert (Hle : 0 < rate ≤ 10000 → z * rate / 10000 ≤ z).
  { intros Hr. apply Z.div_le_upper_bound; [lia|]. nia. }
  unfold int64_range, min_int64, max_int64 in *.
  destruct ((rate <=? 0) || (10000 <? rate)) eqn:Er.
  { split; [split|]; [done| |done]. intros (? & _). bool_to_prop. destruct Er; bool_to_prop; lia. }
  bool_to_prop. case_bool_decide as Hi; cbn [negb orb].
  - destruct (_ <=? 0) eqn:E0; bool_to_prop.
    + split; [split|]; [done| |done]. intros (_ & -> & ?). lia.
    + split; [split|]; [intros [= <-]; lia|intros (_ & -> & _); done|intros [= <-]; apply Hle; lia].
  - split; [split|]; [done| |done]. intros (_ & -> & ?). lia.
Qed.
Lemma principalMicros_exact_witness :
  principalMicros (usdc_text 25000001) 5000 = Some 12500000 ∧ 12500000 ≤ 25000001.
Proof.
  destruct (principalMicros_exact 25000001 5000 12500000 ltac:(lia)) as [Hi Hle].
  assert (Hp : principalMicros (usdc_text 25000001) 5000 = Some 12500000)
    by (apply Hi; unfold max_int64; split_and!; [lia|lia|reflexivity|lia|lia]).
  split; [exact Hp|exact (Hle Hp)].
Defined.

(** The signs [big.Int.SetString] admits: a negative quote below one unit
    counts as a positive one, and the fraction may carry a sign of its own. *)
Lemma negative_quote_advanced :
  principalMicros "-0.5" 5000 = Some 250000 ∧ principalMicros "1.-5" 10000 = Some 950000.
Proof. split; vm_compute; reflexivity. Qed.

(** ** What the parts write *)
Section AdvanceFacts.
Context {W S : Type} `{HooksLaws W}.
Context (keccak256 : string → string) (selector : string → string) (failure_text : string).
Abbreviation World := (World W).
Abbreviation Fund := (Fund S).
Abbreviation advance_executor := (advance_executor (W := W) (S := S) selector failure_text).
Abbreviation await := (await (W := W) (S := S) keccak256 selector failure_text).

Definition advance_row (d : DB) (now : time) (kind entity : string) (fields : list (string * jval)) : EventRow :=
  row_of d now (MkEvent zeroTime kind entity actorFunding (JObj fields)).
Lemma append_advance_cases now kind entity fields w w' e :
  append_advance (W := W) now kind entity fields w = (w', e) →
  requests w' = requests w ∧ ext w' = ext w ∧
  (e = None ∧ events (db (st w')) = events (db (st w)) ++ [advance_row (db (st w)) now kind entity fields] ∨
   is_Some e ∧ db (st w') = db (st w)).
Proof.
  unfold append_advance. destruct (Append _ _ _) as [s r] eqn:E. intros. simplify_eq.
  apply Append_cases in E as [[-> Hd]|[[e ->] Hd]]; (split; [done|]; split; [done|]); [left|right]; cbn.
  - split; [done|]. by rewrite Hd.
  - eauto.
Qed.

(** The log only grows. *)
Definition grows (w w' : World) : Prop := ∃ rows, events (db (st w')) = events (db (st w)) ++ rows.
Lemma grows_trans w1 w2 w3 : grows w1 w2 → grows w2 w3 → grows w1 w3.
Proof. intros [r1 H1] [r2 H2]. exists (r1 ++ r2). by rewrite H2, H1, app_assoc. Qed.
Lemma grows_quiet w w' : quiet (db (st w)) (db (st w')) → grows w w'.
Proof. intros [(rows & Hr & _) _]. by exists rows. Qed.
Lemma grows_append now kind entity fields w :
  grows w (append_advance (W := W) now kind entity fields w).1.
Proof.
  destruct (append_advance now kind entity fields w) as [w' e] eqn:E.
  apply append_advance_cases in E as (_ & _ & [[_ Hd]|[_ Hd]]); [by eexists|exists []; cbn; by rewrite Hd, app_nil_r].
Qed.
Lemma grows_outcome now g out w : grows w (recordAdvanceOutcome (W := W) failure_text now g out w).1.
Proof.
  unfold recordAdvanceOutcome.
  destruct (negb _); [|destruct (co_Reverted out)];
    match goal with |- context [append_advance now ?k ?j ?fs w] =>
      pose proof (grows_append now k j fs w) as Hg; destruct (append_advance now k j fs w) as [w' e] end; exact Hg.
Qed.
Lemma grows_executor now g w (f : Fund) : grows w (advance_executor now g w f).1.1.
Proof.
  unfold Advancing.advance_executor. destruct (ExecuteAdvance selector g f) as [f' [out|e]]; [|by exists []; rewrite app_nil_r].
  pose proof (grows_outcome now g out w) as Hg. destruct (recordAdvanceOutcome _ now g out w) as [w' e]. exact Hg.
Qed.

(** The executor adds at most the grant's own instruction. *)
Lemma executor_instruction now g w f w' f' e :
  advance_executor now g w f = (w', f', e) →
  agent f' = agent f ∨ executed (agent f') = executed (agent f) ++ [instruction_of g].
Proof.
  unfold Advancing.advance_executor. intros Hx.
  assert (Ha : agent f' = agent (Fund_Execute g f).1).
  { rewrite <-(ExecuteAdvance_agent selector). destruct (ExecuteAdvance selector g f) as [f1 [out|er]]; [|by simplify_eq].
    destruct (recordAdvanceOutcome _ now g out w) as [w1 e1]. by simplify_eq. }
  rewrite Ha. destruct (Fund_Execute g f) as [f1 r] eqn:E.
  apply Fund_Execute_cases in E as [[-> _]|(_ & _ & _ & _ & He & _)]; [by left|by right].
Qed.

(** [Execute] around an executor: refused, or run behind a durable claim. *)
Lemma Execute_traced {X} now in_ id exec w (c : X) w' c' r :
  Execute keccak256 now in_ id exec w c = (w', c', r) →
  (c' = c ∧ grows w w' ∧ ∃ e, r = Err e) ∨
  ∃ req h w1 w2 failure, requests w !! id = Some req ∧ executable keccak256 now in_ req w ∧
    db (st w1) = appended (db (st w)) now
      (claim_event (MkExec (r_ID req) (r_JobID req) (r_IntentHash req) (MkGrant in_ (r_ID req) now) h Gated)) ∧
    exec (MkGrant in_ (r_ID req) now) w1 c = (w2, c', failure) ∧ grows w2 w'.
Proof.
  unfold Execute. destruct (execute_admit _ _ _ _ w) as [w1 [x|e]] eqn:Ea;
    apply execute_admit_cases in Ea as (Hst & _ & _ & Ha).
  2: { intros. simplify_eq. left. split_and!; [done| |eauto]. exists []. by rewrite Hst, app_nil_r. }
  destruct Ha as [([? ?] & _)|(req & h & Hr & Hex & Hx & _)]; [done|]. injection Hx as ->.
  destruct (execute_claim now _ w1) as [w2 [x2|e]] eqn:Ec; apply execute_claim_cases in Ec as (_ & Hc).
  2: { destruct Hc as [([=] & _)|(_ & _ & _ & Hd)]. intros. simplify_eq. left. split_and!; [done| |eauto].
       exists []. by rewrite Hd, Hst, app_nil_r. }
  destruct Hc as [([= ->] & _ & _ & Hd)|([? ?] & _)]; [|done]. cbn [x_Grant set_running].
  destruct (exec _ w2 c) as [[w3 c3] failure] eqn:Ex.
  destruct (execute_finish now _ failure w3) as [w4 r4] eqn:Ef. intros. simplify_eq. right.
  apply execute_finish_cases in Ef as (_ & _ & _ & Hq).
  exists req, h, w2, w3, failure. split_and!; try done; [by rewrite Hd, Hst|by apply grows_quiet].
Qed.

(** C15: an advance moves only on the owner's word.  Whatever happened while the
    flow waited, [await] gives the funding agent no new instruction unless the
    wait ended with a decision, the request stands approved and every gate of
    the lifecycle holds at that instant (scope not frozen, hash, expiry, policy
    version, never executed).  Then it gives at most one, the one of that
    request, and the durable execution claim is in the log before it. *)
Theorem await_moves_only_approved now stopping meanwhile req w0 f0 w f wake w' f' :
  meanwhile w0 f0 = (w, f, wake) → await now stopping meanwhile req w0 f0 = (w', f') →
  agent f' = agent f ∨
  (wake = Decided ∧ stopping = false ∧ ∃ snap h rest,
     requests w !! r_ID req = Some snap ∧ executable keccak256 now (r_Intent snap) snap w ∧
     executed (agent f') = executed (agent f) ++ [instruction_of (MkGrant (r_Intent snap) (r_ID snap) now)] ∧
     events (db (st w')) = events (db (st w)) ++
       row_of (db (st w)) now (claim_event (MkExec (r_ID snap) (r_JobID snap) (r_IntentHash snap)
         (MkGrant (r_Intent snap) (r_ID snap) now) h Gated)) :: rest).
Proof.
  intros Hm. unfold Advancing.await. rewrite Hm. destruct wake; [intros [= _ <-]; by left..|].
  unfold Snapshot. destruct (requests w !! r_ID req) as [snap|] eqn:Es; [|intros [= _ <-]; by left].
  destruct (negb _); [intros [= _ <-]; by left|]. destruct stopping; [intros [= _ <-]; by left|].
  destruct (Execute _ _ _ _ _ w f) as [[w1 f1] r] eqn:Ex. intros Hr.
  assert (f' = f1) as -> by (destruct r; by simplify_eq).
  assert (Hg : grows w1 w').
  { destruct r as [u|e]; injection Hr as <-; [by exists []; rewrite app_nil_r|]. apply grows_append. }
  apply Execute_traced in Ex as [(-> & _)|(rq & h & wa & wb & failure & Hrq & Hex & Hd & Hx & Hgr)]; [by left|].
  assert (rq = snap) as -> by congruence.
  pose proof (executor_instruction _ _ _ _ _ _ _ Hx) as [Ha|Ha]; [by left|right].
  pose proof (grows_executor now (MkGrant (r_Intent snap) (r_ID snap) now) wa f) as Hge.
  rewrite Hx in Hge. cbn in Hge. destruct (grows_trans _ _ _ Hge (grows_trans _ _ _ Hgr Hg)) as [rest Hrest].
  split; [done|]. split; [done|]. exists snap, h, rest. split_and!; [done..|].
  rewrite Hrest, Hd. cbn [events appended]. by rewrite <-app_assoc.
Qed.

(** ** The restart posture *)
Definition is_interrupted (r : EventRow) : Prop := ev_kind r = "advance.interrupted".
#[export] Instance is_interrupted_dec r : stdpp.base.Decision (is_interrupted r).
Proof. unfold is_interrupted. apply _. Defined.
(** A row that tells the owner about a request. *)
Definition tells (req : Request) (row : EventRow) : Prop :=
  is_interrupted row ∧ ev_entity row = r_JobID req ∧
  ∃ note, ev_payload row = json_Marshal (JObj (interrupted_fields req note)).
(** The chain confirmed the advance of a claimed request. *)
Definition confirmed (oracle : option (string → option bool)) (req : Request) (row : EventRow) : Prop :=
  ev_kind row = "advance.executed" ∧ ev_entity row = r_JobID req ∧
  i_ChainRef (r_Intent req) ≠ "" ∧ ∃ o, oracle = Some o ∧ o (i_ChainRef (r_Intent req)) = Some true.
Definition is_advance (req : Request) : Prop := i_Kind (r_Intent req) = KindAdvance.

(** One request's turn: what it appends to the log, and what it counts. *)
Inductive turn (oracle : option (string → option bool)) (req : Request) (log : list EventRow) :
    list EventRow → Z → Prop :=
| turn_none : (is_advance req → r_Executed req = false ∧ settled_state (r_State req) = true ∨
                 r_Executed req = true ∧ ∃ r, r ∈ log ∧ is_outcome (r_ID req) r = true) → turn oracle req log [] 0
| turn_confirmed row : r_Executed req = true → confirmed oracle req row → turn oracle req log [row] 0
| turn_told row : tells req row → turn oracle req log [row] 1.

Lemma append_tells now req note w w' :
  append_advance (W := W) now "advance.interrupted" (r_JobID req) (interrupted_fields req note) w = (w', None) →
  requests w' = requests w ∧ ∃ row, events (db (st w')) = events (db (st w)) ++ [row] ∧ tells req row.
Proof.
  intros Ha. apply append_advance_cases in Ha as (Hr & _ & [[_ Hd]|[[? ?] _]]); [|done].
  split; [done|]. eexists. split; [exact Hd|]. repeat split. by exists note.
Qed.
Lemma escalate_one_turn oracle now req w w' n :
  escalate_one (W := W) oracle now req w = (w', Ok n) →
  requests w' = requests w ∧ ∃ rows, events (db (st w')) = events (db (st w)) ++ rows ∧
    turn oracle req (events (db (st w))) rows n.
Proof.
  assert (Hnone : ∀ w1 : World, requests w1 = requests w → events (db (st w1)) = events (db (st w)) →
    turn oracle req (events (db (st w))) [] 0 → requests w1 = requests w ∧ ∃ rows,
    events (db (st w1)) = events (db (st w)) ++ rows ∧ turn oracle req (events (db (st w))) rows 0).
  { intros w1 ?? ?. split; [done|]. exists []. by rewrite app_nil_r. }
  assert (Htell : ∀ (w1 : World) note e m, requests w1 = requests w → events (db (st w1)) = events (db (st w)) →
    append_advance (W := W) now "advance.interrupted" (r_JobID req) (interrupted_fields req note) w1 = (w', e) →
    match e with None => Ok 1 | Some e => Err e end = Ok m →
    requests w' = requests w ∧ ∃ rows, events (db (st w')) = events (db (st w)) ++ rows ∧
      turn oracle req (events (db (st w))) rows m).
  { intros w1 note e m Hr Hd Ha He. destruct e; [done|]. injection He as <-.
    apply append_tells in Ha as (Hr' & row & Hd' & Ht). split; [congruence|]. exists [row].
    rewrite Hd', Hd. split; [done|]. by constructor. }
  unfold escalate_one. case_bool_decide as Hk.
  { unfold retM. intros [= <- <-]. apply Hnone; [done..|]. constructor. unfold is_advance. done. }
  destruct (r_Executed req) eqn:Ee.
  - unfold resolveExecutedClaim. destruct (QueryEvents _ _) as [s q] eqn:Eq.
    apply QueryEvents_cases in Eq as [Hd [-> | ->]]; [|by intros]. cbv zeta.
    destruct (existsb (is_outcome (r_ID req)) _) eqn:Eo.
    { intros [= <- <-]. apply Hnone; [done|cbn; by rewrite Hd|]. constructor. intros _. right. split; [done|].
      apply existsb_exists in Eo as (r & Hr & Ho). apply list_elem_of_In, list_elem_of_filter in Hr as [_ Hr]. eauto. }
    destruct (match oracle with Some o => _ | None => false end) eqn:El.
    + destruct (append_advance now "advance.executed" _ _ _) as [w1 [e|]] eqn:Ea; [by intros|]. intros [= <- <-].
      apply append_advance_cases in Ea as (Hr & _ & [[_ Hd1]|[[? ?] _]]); [|done]. cbn in Hr, Hd1. rewrite Hd in Hd1.
      split; [done|]. eexists. split; [exact Hd1|]. constructor; [done|].
      destruct oracle as [o|]; [|done]. bool_to_prop. repeat split; [done|eauto].
    + destruct (append_advance now "advance.interrupted" _ _ _) as [w1 e] eqn:Ea. intros Hx. injection Hx as -> Hx.
      eapply (Htell (with_st s w)); [done|cbn; by rewrite Hd|exact Ea|exact Hx].
  - destruct (settled_state (r_State req)) eqn:Es.
    { unfold retM. intros [= <- <-]. apply Hnone; [done..|]. constructor. auto. }
    destruct (append_advance now "advance.interrupted" _ _ w) as [w1 e] eqn:Ea. intros Hx. injection Hx as -> Hx.
    eapply (Htell w); [done..|exact Ea|exact Hx].
Qed.

(** C16: a restart resumes nothing and forgets nothing.  When the startup scan,
    whose iteration visits every request in whatever order, succeeds, the
    requests are untouched and the log has grown by some rows: as many owner
    notices as the scan reports, and no other record than notices and advances
    that the chain confirms.  Every advance proposal that was open
    has its notice; every claimed advance has an outcome in the log, or the
    chain's confirmation, or its notice. *)
Theorem restart_accounts_for_every_advance range oracle now w w' n :
  (∀ id req, requests w !! id = Some req → req ∈ range (requests w)) →
  EscalateInterrupted (W := W) range oracle now w = (w', Ok n) →
  requests w' = requests w ∧ ∃ rows, events (db (st w')) = events (db (st w)) ++ rows ∧
  n = Z.of_nat (length (filter is_interrupted rows)) ∧
  (∀ row, row ∈ rows → ∃ req, req ∈ range (requests w) ∧ (tells req row ∨ confirmed oracle req row)) ∧
  ∀ id req, requests w !! id = Some req → is_advance req →
    (r_Executed req = false → settled_state (r_State req) = false → ∃ row, row ∈ rows ∧ tells req row) ∧
    (r_Executed req = true →
      (∃ row, row ∈ events (db (st w)) ++ rows ∧ is_outcome (r_ID req) row = true) ∨
      ∃ row, row ∈ rows ∧ (tells req row ∨ confirmed oracle req row)).
Proof.
  intros Hall. unfold EscalateInterrupted, bindM at 1, getM. revert Hall.
  generalize (range (requests w)). intros reqs Hall.
  assert (Hgen : ∀ (w0 : World) k, events (db (st w0)) = events (db (st w0)) → escalate_all oracle now reqs k w0 = (w', Ok n) →
    requests w' = requests w0 ∧ ∃ rows, events (db (st w')) = events (db (st w0)) ++ rows ∧
    n = k + Z.of_nat (length (filter is_interrupted rows)) ∧
    (∀ row, row ∈ rows → ∃ req, req ∈ reqs ∧ (tells req row ∨ confirmed oracle req row)) ∧
    ∀ req, req ∈ reqs → is_advance req →
      (r_Executed req = false → settled_state (r_State req) = false → ∃ row, row ∈ rows ∧ tells req row) ∧
      (r_Executed req = true →
        (∃ row, row ∈ events (db (st w0)) ++ rows ∧ is_outcome (r_ID req) row = true) ∨
        ∃ row, row ∈ rows ∧ (tells req row ∨ confirmed oracle req row))).
  { clear Hall w. induction reqs as [|req reqs IH]; intros w k _ He; cbn in He.
    { unfold retM in He. simplify_eq. split; [done|]. exists []. rewrite app_nil_r.
      split_and!; [done|cbn; lia|by intros row ?%elem_of_nil|by intros req ?%elem_of_nil]. }
    apply bindM_inv_ok in He as (w1 & m & Hm & He). unfold mapErrM in Hm.
    destruct (escalate_one oracle now req w) as [w2 [m'|e]] eqn:Eo; [|done]. simplify_eq.
    apply escalate_one_turn in Eo as (Hr1 & rows1 & Hd1 & Ht).
    destruct (IH _ _ eq_refl He) as (Hr & rows & Hd & Hn & Hrows & Hreqs). clear IH He.
    split; [congruence|]. exists (rows1 ++ rows). split; [by rewrite Hd, Hd1, app_assoc|].
    rewrite filter_app, length_app.
    assert (H1 : m = Z.of_nat (length (filter is_interrupted rows1)) ∧
      (∀ row, row ∈ rows1 → tells req row ∨ confirmed oracle req row)).
    { destruct Ht as [_|row ? (Hk & Hc)|row Ht].
      - split; [done|]. by intros row ?%elem_of_nil.
      - rewrite filter_cons, decide_False, filter_nil; [|unfold is_interrupted; by rewrite Hk].
        split; [done|]. intros row' ->%list_elem_of_singleton. right. by split.
      - rewrite filter_cons, decide_True by apply Ht. split; [done|].
        intros row' ->%list_elem_of_singleton. by left. }
    destruct H1 as [Hm Hrows1]. split_and!; [lia| |].
    - intros row [Hi|Hi]%elem_of_app; [exists req; split; [by left|auto]|].
      destruct (Hrows row Hi) as (q & ? & ?). exists q. split; [by right|done].
    - intros q [->|Hq]%elem_of_cons Hadv.
      + split; [intros Hex Hst|intros Hex].
        * destruct Ht as [Hno|row Hx|row Ht]; [|congruence|exists row; split; [by left|done]].
          destruct (Hno Hadv) as [[_ ?]|[? _]]; congruence.
        * destruct Ht as [Hno|row Hx Hc|row Ht].
          -- destruct (Hno Hadv) as [[? _]|(_ & r & Hr' & Ho)]; [congruence|]. left. exists r.
             rewrite elem_of_app. auto.
          -- right. exists row. split; [by left|by right].
          -- right. exists row. split; [by left|by left].
      + destruct (Hreqs q Hq Hadv) as [Ha Hb]. split.
        * intros He1 He2. destruct (Ha He1 He2) as (row & ? & ?). exists row. rewrite elem_of_app. auto.
        * intros He1. destruct (Hb He1) as [(row & Hi & ?)|(row & ? & ?)].
          -- left. exists row. rewrite Hd1, <-app_assoc in Hi. done.
          -- right. exists row. rewrite elem_of_app. auto. }
  intros He. destruct (Hgen w 0 eq_refl He) as (Hr & rows & Hd & Hn & Hrows & Hreqs).
  split; [done|]. exists rows. split_and!; [done..|]. intros id req Hi. eauto.
Qed.
End AdvanceFacts.
