(* ===== verification/Proc.v ===== *)
(** Concurrent code as data: processes and their interleavings.

    A goroutine is a [proc]: a sequence of atomic actions on a shared state [B]
    (what runs under one hold of a mutex, or one statement of the store, or one
    file operation), calls of a named procedure ([T]) whose result is an [R],
    and spawns, an action that may start one more goroutine.  [pstep] is
    interleaving: any goroutine may take the next step, new operations may
    arrive at any time, and the environment may move the parts of the state
    that are not the processes'.

    [safe] is a logic for an invariant under interleaving.  A goroutine may own
    a key [j]; then it may rely on [knows j l], which no other goroutine
    disturbs, from one of its actions to the next. *)
From Stdlib Require Import FunctionalExtensionality.
From S2P Require Import Prelude GoTime.

Section Proc.
Context {B T R : Type}.

Inductive proc (A : Type) : Type :=
| Ret (a : A)
| Act (X : Type) (f : time → B → B * X) (k : X → proc A)
| Call (t : T) (k : R → proc A)
| Spawn (f : time → B → B * option T) (k : proc A).
Arguments Ret {A}. Arguments Act {A X}. Arguments Call {A}. Arguments Spawn {A}.

Fixpoint bindP {A C} (p : proc A) (g : A → proc C) : proc C :=
  match p with
  | Ret a => g a
  | Act f k => Act f (λ x, bindP (k x) g)
  | Call t k => Call t (λ r, bindP (k r) g)
  | Spawn f k => Spawn f (bindP k g)
  end.
Definition act {X} (f : time → B → B * X) : proc X := Act f Ret.

Context (code : T → proc R) (finish : T → R → time → B → B * unit).
(** The goroutine a spawn starts: the procedure, then the record of its end. *)
Definition goroutine (t : T) : proc unit := Call t (λ r, act (finish t r)).

(** ** Interleaving *)
Inductive pstep (operation : proc unit → Prop) (env : B → B → Prop) :
    B * list (proc unit) → B * list (proc unit) → Prop :=
| ps_act s ts i X (f : time → B → B * X) k now :
    ts !! i = Some (Act f k) →
    pstep operation env (s, ts) ((f now s).1, <[i := k (f now s).2]> ts)
| ps_call s ts i t k :
    ts !! i = Some (Call t k) → pstep operation env (s, ts) (s, <[i := bindP (code t) k]> ts)
| ps_spawn s ts i f k now :
    ts !! i = Some (Spawn f k) →
    pstep operation env (s, ts)
      ((f now s).1, <[i := k]> ts ++ match (f now s).2 with Some t => [goroutine t] | None => [] end)
| ps_start s ts p : operation p → pstep operation env (s, ts) (s, ts ++ [p])
| ps_env s s' ts : env s s' → pstep operation env (s, ts) (s', ts).

(** One goroutine alone; [None] is running out of fuel.  What it spawned is
    collected. *)
Fixpoint run {A} (fuel : nat) (now : time) (p : proc A) (s : B) : option (B * A * list T) :=
  match p with
  | Ret a => Some (s, a, [])
  | _ =>
    match fuel with
    | O => None
    | S n =>
      match p with
      | Ret a => Some (s, a, [])
      | Act f k => let '(s, x) := f now s in run n now (k x) s
      | Call t k => run n now (bindP (code t) k) s
      | Spawn f k =>
        let '(s, ot) := f now s in
        '(s, a, ts) ← run n now k s; Some (s, a, match ot with Some t => t :: ts | None => ts end)
      end
    end
  end.

(** *** A schedule: every goroutine runs to its end before the next, the ones
    it starts last. *)
Fixpoint play (fuel n : nat) (now : time) (todo : list (proc unit)) (s : B) : option B :=
  match todo, n with
  | [], _ => Some s
  | _ :: _, O => None
  | p :: r, S n => '(s1, _, started) ← run fuel now p s; play fuel n now (r ++ (goroutine <$> started)) s1
  end.
Section Play.
Context (operation : proc unit → Prop) (env : B → B → Prop).
Lemma run_steps n : ∀ now p s s' u started ts i, run n now p s = Some (s', u, started) → ts !! i = Some p →
  rtc (pstep operation env) (s, ts) (s', <[i := Ret u]> ts ++ (goroutine <$> started)).
Proof.
  induction n as [|n IH]; intros now p s s' u started ts i Hr Hi; destruct p as [a|X f k|t k|f k]; cbn in Hr; try done.
  1,2: simplify_eq; rewrite list_insert_id, app_nil_r by done; apply rtc_refl.
  - destruct (f now s) as [s1 x] eqn:Ef. pose proof (ps_act operation env s ts i X f k now Hi) as Hst.
    rewrite Ef in Hst. eapply rtc_l; [exact Hst|]. cbn [fst snd].
    rewrite <-(list_insert_insert_eq ts i (Ret u) (k x)).
    eapply IH; [exact Hr|]. apply list_lookup_insert_eq. by eapply lookup_lt_Some.
  - eapply rtc_l; [by apply (ps_call operation env s ts i t k Hi)|].
    rewrite <-(list_insert_insert_eq ts i (Ret u) (bindP (code t) k)).
    eapply IH; [exact Hr|]. apply list_lookup_insert_eq. by eapply lookup_lt_Some.
  - destruct (f now s) as [s1 ot] eqn:Ef. destruct (run n now k s1) as [[[s2 a] more]|] eqn:Ek; [|done]. cbn in Hr.
    pose proof (ps_spawn operation env s ts i f k now Hi) as Hst. rewrite Ef in Hst. eapply rtc_l; [exact Hst|]. cbn [fst snd].
    pose proof (lookup_lt_Some _ _ _ Hi) as Hlt.
    set (new := match ot with Some t => [goroutine t] | None => [] end).
    assert (E : <[i := Ret u]> ts ++ (goroutine <$> started) = <[i := Ret a]> (<[i := k]> ts ++ new) ++ (goroutine <$> more)).
    { rewrite insert_app_l by (by rewrite length_insert). rewrite list_insert_insert_eq, <-app_assoc.
      injection Hr as <- <- <-. f_equal. by destruct ot. }
    injection Hr as <- <- Hs. rewrite E. eapply IH; [exact Ek|].
    rewrite lookup_app_l by (by rewrite length_insert). by apply list_lookup_insert_eq.
Qed.
Lemma play_steps fuel n : ∀ now todo s s' past, play fuel n now todo s = Some s' →
  ∃ ts, rtc (pstep operation env) (s, past ++ todo) (s', ts).
Proof.
  induction n as [|n IH]; intros now todo s s' past; destruct todo as [|p r]; cbn; try done.
  1,2: intros [= <-]; eexists; apply rtc_refl.
  destruct (run fuel now p s) as [[[s1 u] started]|] eqn:Er; [|done]. cbn. intros Hp.
  pose proof (run_steps _ _ _ _ _ _ _ (past ++ p :: r) (length past) Er (list_lookup_middle _ _ _ _ eq_refl)) as Hst.
  destruct (IH _ _ _ _ (past ++ [Ret u]) Hp) as [ts Hts]. exists ts. etransitivity; [exact Hst|].
  rewrite insert_app_r_alt, Nat.sub_diag by done. cbn. by rewrite <-!app_assoc in *.
Qed.
(** The operations arrive, then the schedule runs. *)
Lemma play_reaches fuel n now ops s s' : Forall operation ops → play fuel n now ops s = Some s' →
  ∃ ts, rtc (pstep operation env) (s, []) (s', ts).
Proof.
  intros Hops Hp. destruct (play_steps fuel n now ops s s' [] Hp) as [ts Hts]. exists ts.
  etransitivity; [|exact Hts]. clear Hts Hp. induction ops as [|p ops IH] using rev_ind; [apply rtc_refl|].
  apply Forall_app in Hops as [Hops Hop]. eapply rtc_r; [by apply IH|]. apply ps_start. by apply Forall_inv in Hop.
Qed.
End Play.

(** ** What every action of a process does *)
(** Calls and spawns may be ruled out with [calls]. *)
Fixpoint every {A} (calls : Prop) (P : B → B → Prop) (p : proc A) : Prop :=
  match p with
  | Ret _ => True
  | Act f k => (∀ now s, P s (f now s).1) ∧ ∀ x, every calls P (k x)
  | Call t k => calls ∧ ∀ r, every calls P (k r)
  | Spawn f k => calls ∧ (∀ now s, P s (f now s).1) ∧ every calls P k
  end.
Lemma every_bind {A C} calls P (p : proc A) (g : A → proc C) :
  every calls P p → (∀ a, every calls P (g a)) → every calls P (bindP p g).
Proof.
  intros Hp Hg. induction p as [a|X f k IH|t k IH|f k IH]; cbn in *; [apply Hg|..].
  - destruct Hp as [Hf Hk]. split; [done|]. intros x. by apply IH.
  - destruct Hp as [Hc Hk]. split; [done|]. intros r. by apply IH.
  - destruct Hp as (Hc & Hf & Hk). auto.
Qed.
Lemma every_act {A} calls P (f : time → B → B * A) : (∀ now s, P s (f now s).1) → every calls P (act f).
Proof. by split. Qed.
Lemma every_mono {A} (calls calls' : Prop) P (p : proc A) : (calls → calls') → every calls P p → every calls' P p.
Proof. intros Hc. induction p; cbn; intuition eauto. Qed.

(** A property of states that no action breaks holds under every
    interleaving. *)
Lemma every_invariant (I : B → Prop) (operation : proc unit → Prop) (env : B → B → Prop) s s' ts :
  let P := λ s s', I s → I s' in
  (∀ t, every True P (code t)) → (∀ t r, every True P (act (finish t r))) →
  (∀ p, operation p → every True P p) → (∀ s s', env s s' → I s → I s') →
  I s → rtc (pstep operation env) (s, []) (s', ts) → I s'.
Proof.
  intros P Hcode Hfin Hop Henv Hi Hr.
  assert (Hstep : ∀ c c', pstep operation env c c' → I c.1 ∧ Forall (every True P) c.2 → I c'.1 ∧ Forall (every True P) c'.2).
  { intros c c' Hst [Hc Hall]. destruct Hst as [s1 ts1 i X f k now Ht|s1 ts1 i t k Ht|s1 ts1 i f k now Ht|s1 ts1 p Hp|s1 s2 ts1 He];
      cbn [fst snd] in *; try (pose proof (Forall_lookup_1 _ _ _ _ Hall Ht) as Hp; cbn in Hp).
    - destruct Hp as [Hf Hk]. split; [by apply Hf|]. by apply Forall_insert.
    - destruct Hp as [_ Hk]. split; [done|]. apply Forall_insert; [done|]. by apply every_bind.
    - destruct Hp as (_ & Hf & Hk). split; [by apply Hf|]. apply Forall_app. split; [by apply Forall_insert|].
      destruct (f now s1).2; [|constructor]. constructor; [|constructor]. cbn. split; [done|]. intros r. apply Hfin.
    - split; [done|]. apply Forall_app. split; [done|]. constructor; [|constructor]. by apply Hop.
    - split; [by eapply Henv|done]. }
  assert (Hall : I (s', ts).1 ∧ Forall (every True P) (s', ts).2); [|apply Hall].
  assert (H0 : I (s, @nil (proc unit)).1 ∧ Forall (every True P) (s, @nil (proc unit)).2) by (split; [done|constructor]).
  revert H0. induction Hr as [c|c1 c2 c3 Hst _ IH]; [done|]. intros H0. by apply IH, (Hstep c1).
Qed.

(** *** One goroutine alone, its actions at any times: it ends, and [Q] holds
    where it ends. *)
Inductive ends : ∀ A, (A → B → Prop) → proc A → B → Prop :=
| ends_ret A (Q : A → B → Prop) a s : Q a s → ends A Q (Ret a) s
| ends_act A (Q : A → B → Prop) X (f : time → B → B * X) k s :
    (∀ now, ends A Q (k (f now s).2) (f now s).1) → ends A Q (Act f k) s
| ends_call A (Q : A → B → Prop) (P : R → B → Prop) t k s :
    ends R P (code t) s → (∀ r s', P r s' → ends A Q (k r) s') → ends A Q (Call t k) s
| ends_spawn A (Q : A → B → Prop) f k s : (∀ now, ends A Q k (f now s).1) → ends A Q (Spawn f k) s.
Arguments ends {A}.

Lemma ends_mono {A} (Q Q' : A → B → Prop) p s : ends Q p s → (∀ a s', Q a s' → Q' a s') → ends Q' p s.
Proof. induction 1 as [| | |]; intros HQ; [constructor|constructor|econstructor|constructor]; eauto. Qed.
Lemma ends_bind {A C} (P : A → B → Prop) (Q : C → B → Prop) (p : proc A) (g : A → proc C) s :
  ends P p s → (∀ a s', P a s' → ends Q (g a) s') → ends Q (bindP p g) s.
Proof.
  intros Hp. revert C Q g. induction Hp as [| | |]; intros C Q' g Hg; cbn;
    [by apply Hg|constructor|econstructor|constructor]; eauto.
Qed.
Lemma ends_actP {A} (Q : A → B → Prop) (f : time → B → B * A) s :
  (∀ now, Q (f now s).2 (f now s).1) → ends Q (act f) s.
Proof. intros H. constructor. intros now. by constructor. Qed.

(** What ends, [run] brings to an end, with fuel enough. *)
Lemma bindP_assoc {A C D} (p : proc A) (g : A → proc C) (h : C → proc D) :
  bindP (bindP p g) h = bindP p (λ a, bindP (g a) h).
Proof.
  induction p as [a|X f k IH|t k IH|f k IH]; cbn; [done| | |by rewrite IH].
  - f_equal. apply functional_extensionality. intros x. apply IH.
  - f_equal. apply functional_extensionality. intros r. apply IH.
Qed.
Lemma run_more {A} n : ∀ m now (p : proc A) s r, (n ≤ m)%nat → run n now p s = Some r → run m now p s = Some r.
Proof.
  induction n as [|n IH]; intros [|m] now p s r Hle; [done|by destruct p|lia|].
  assert (Hle' : (n ≤ m)%nat) by lia. destruct p as [a|X f k|t k|f k]; cbn; [done| | |].
  - destruct (f now s) as [s' x]. by apply IH.
  - by apply IH.
  - destruct (f now s) as [s' ot]. destruct (run n now k s') as [[[s1 a] ts]|] eqn:E; [|done].
    by rewrite (IH m _ _ _ _ Hle' E).
Qed.
Lemma run_bind {A C} (g : A → proc C) n : ∀ m now (p : proc A) s s1 a ts s2 c ts2,
  run n now p s = Some (s1, a, ts) → run m now (g a) s1 = Some (s2, c, ts2) →
  run (n + m) now (bindP p g) s = Some (s2, c, ts ++ ts2).
Proof.
  induction n as [|n IH]; intros m now p s s1 a ts s2 c ts2; (destruct p as [b|X f k|t k|f k]; cbn; try done).
  - intros [= -> -> <-]. done.
  - intros [= -> -> <-] Hg. change (run (S (n + m)) now (g a) s1 = Some (s2, c, ts2)).
    eapply run_more, Hg. lia.
  - destruct (f now s) as [s' x]. apply IH.
  - rewrite <-bindP_assoc. apply IH.
  - destruct (f now s) as [s' ot]. destruct (run n now k s') as [[[s3 a'] ts']|] eqn:E; [|done].
    cbn. intros [= -> -> <-] Hg. rewrite (IH _ _ _ _ _ _ _ _ _ _ E Hg). by destruct ot.
Qed.
Lemma ends_run {A} (Q : A → B → Prop) p s now : ends Q p s →
  ∃ n s' a ts, run n now p s = Some (s', a, ts) ∧ Q a s'.
Proof.
  induction 1 as [A Q a s Hq|A Q X f k s _ IH|A Q P t k s _ IHp _ IHk|A Q f k s _ IH].
  - by exists 0%nat, s, a, [].
  - destruct (IH now) as (n & s' & a & ts & Hr & Hq). exists (S n), s', a, ts. split; [|done].
    cbn. by destruct (f now s).
  - destruct IHp as (n & s1 & r & ts1 & Hr1 & Hp). destruct (IHk r s1 Hp) as (m & s2 & a & ts2 & Hr2 & Hq).
    exists (S (n + m)), s2, a, (ts1 ++ ts2). split; [|done]. cbn. by eapply run_bind.
  - destruct (IH now) as (n & s' & a & ts & Hr & Hq).
    exists (S n), s', a, (match (f now s).2 with Some t => t :: ts | None => ts end). split; [|done].
    cbn. destruct (f now s) as [s1 ot]. cbn in Hr. by rewrite Hr.
Qed.

(** ** The logic *)
Context {J L : Type}.
Context (I : B → Prop) (knows : J → L → B → Prop) (spawned : J → B → Prop).
Context (key : T → J) (pre : T → L → Prop).

(** What an action of the owner of [o] guarantees the others. *)
Definition respects (o : option J) (s s' : B) : Prop :=
  I s' ∧ (∀ j l, o ≠ Some j → knows j l s → knows j l s') ∧ ∀ j, spawned j s → spawned j s'.
Definition holds (o : option J) (l : L) (s : B) : Prop := ∀ j, o = Some j → knows j l s ∧ spawned j s.
Fixpoint safe {A} (o : option J) (l : L) (p : proc A) (Q : A → L → Prop) : Prop :=
  match p with
  | Ret a => Q a l
  | Act f k => ∀ now s, I s → holds o l s →
      respects o s (f now s).1 ∧ ∃ l', holds o l' (f now s).1 ∧ safe o l' (k (f now s).2) Q
  | Call t k => o = Some (key t) ∧ pre t l ∧ ∀ r l', safe o l' (k r) Q
  | Spawn f k => ∀ now s, I s → holds o l s →
      respects o s (f now s).1 ∧ (∃ l', holds o l' (f now s).1 ∧ safe o l' k Q) ∧
      ∀ t, (f now s).2 = Some t → ¬ spawned (key t) s ∧ spawned (key t) (f now s).1 ∧
        ∃ l', pre t l' ∧ knows (key t) l' (f now s).1
  end.

Lemma safe_mono {A} o (p : proc A) : ∀ l (Q Q' : A → L → Prop),
  (∀ a l, Q a l → Q' a l) → safe o l p Q → safe o l p Q'.
Proof.
  induction p as [a|X f k IH|t k IH|f k IH]; intros l Q Q' HQ; cbn.
  - apply HQ.
  - intros Hs now s Hi Hh. destruct (Hs now s Hi Hh) as (Hr & l' & Hh' & Hk). split; [done|]. exists l'. eauto.
  - intros (Ho & Hp & Hk). eauto.
  - intros Hs now s Hi Hh. destruct (Hs now s Hi Hh) as (Hr & (l' & Hh' & Hk) & Ht). eauto 6.
Qed.
Lemma safe_bind {A C} o (p : proc A) (g : A → proc C) Q : ∀ l,
  safe o l p (λ a l', safe o l' (g a) Q) → safe o l (bindP p g) Q.
Proof.
  induction p as [a|X f k IH|t k IH|f k IH]; intros l; cbn.
  - done.
  - intros Hs now s Hi Hh. destruct (Hs now s Hi Hh) as (Hr & l' & Hh' & Hk). eauto.
  - intros (Ho & Hp & Hk). eauto.
  - intros Hs now s Hi Hh. destruct (Hs now s Hi Hh) as (Hr & (l' & Hh' & Hk) & Ht). eauto 6.
Qed.

(** *** Soundness *)
Context (code_safe : ∀ t l, pre t l → safe (Some (key t)) l (code t) (λ _ _, True)).
Context (finish_safe : ∀ t l r, safe (Some (key t)) l (act (finish t r)) (λ _ _, True)).
Context (operation : proc unit → Prop).
Context (operation_safe : ∀ p, operation p → ∀ l, safe None l p (λ _ _, True)).
Context (env : B → B → Prop) (env_ok : ∀ s s', env s s' → I s → respects None s s').
Context (l0 : L).

Definition thread_ok (s : B) (n : option J * L) (p : proc unit) : Prop :=
  holds n.1 n.2 s ∧ safe n.1 n.2 p (λ _ _, True).
Definition owners (ns : list (option J * L)) : list J := omap fst ns.
Definition pool_ok (c : B * list (proc unit)) : Prop :=
  I c.1 ∧ ∃ ns, Forall2 (thread_ok c.1) ns c.2 ∧ NoDup (owners ns).

Lemma thread_respected o s s' n p :
  respects o s s' → (∀ j, o = Some j → n.1 ≠ Some j) → thread_ok s n p → thread_ok s' n p.
Proof.
  intros (_ & Hk & Hsp) Hne [Hh Hs]. split; [|done]. intros j Hj. destruct (Hh j Hj) as [? ?].
  split; [|auto]. apply Hk; [|done]. intros ->. by apply (Hne j).
Qed.
Lemma owners_cons m ns : owners (m :: ns) = match m.1 with Some j => j :: owners ns | None => owners ns end.
Proof. reflexivity. Qed.
Lemma owners_distinct ns i i' n n' j :
  NoDup (owners ns) → ns !! i = Some n → ns !! i' = Some n' → n.1 = Some j → n'.1 = Some j → i = i'.
Proof.
  revert i i'. induction ns as [|m ns IH]; intros i i' Hn Hi Hi' Hj Hj'; [done|].
  assert (Hin : ∀ i n, ns !! i = Some n → n.1 = Some j → j ∈ owners ns).
  { intros k x Hx Hxj. apply list_elem_of_omap. exists x. split; [by eapply list_elem_of_lookup_2|done]. }
  rewrite owners_cons in Hn.
  destruct i as [|i], i' as [|i']; cbn in Hi, Hi'; try done; simplify_eq.
  - rewrite Hj in Hn. apply NoDup_cons in Hn as [Hn _]. destruct Hn. eauto.
  - rewrite Hj' in Hn. apply NoDup_cons in Hn as [Hn _]. destruct Hn. eauto.
  - f_equal. eapply IH; eauto. destruct m.1; [|done]. by apply NoDup_cons in Hn as [_ ?].
Qed.
Lemma owners_insert ns i n n' : ns !! i = Some n → n'.1 = n.1 → owners (<[i := n']> ns) = owners ns.
Proof.
  revert i. induction ns as [|m ns IH]; intros [|i] Hi Hf; [done..| |].
  - change (<[0%nat:=n']> (m :: ns)) with (n' :: ns). injection Hi as ->. by rewrite !owners_cons, Hf.
  - change (<[S i:=n']> (m :: ns)) with (m :: <[i:=n']> ns). rewrite !owners_cons. by rewrite (IH i).
Qed.

(** The thread that moved has a new note; everyone else keeps theirs. *)
Lemma pool_update s s' ns ts i n n' p :
  Forall2 (thread_ok s) ns ts → NoDup (owners ns) → ns !! i = Some n → n'.1 = n.1 →
  respects n.1 s s' → thread_ok s' n' p →
  Forall2 (thread_ok s') (<[i := n']> ns) (<[i := p]> ts) ∧ NoDup (owners (<[i := n']> ns)).
Proof.
  intros Hall Hnd Hi Hf Hr Hok. split; [|by rewrite (owners_insert _ _ _ _ Hi Hf)].
  apply Forall2_same_length_lookup. split.
  { rewrite !length_insert. by eapply Forall2_length. }
  intros k x q Hx Hq. destruct (decide (k = i)) as [->|Hne].
  - pose proof (lookup_lt_Some _ _ _ Hi) as Hlt. pose proof (Forall2_length _ _ _ Hall) as Hlen.
    rewrite list_lookup_insert_eq in Hx by lia. rewrite list_lookup_insert_eq in Hq by lia. by simplify_eq.
  - rewrite list_lookup_insert_ne in Hx by done. rewrite list_lookup_insert_ne in Hq by done.
    pose proof (Forall2_lookup_lr _ _ _ _ _ _ Hall Hx Hq) as Hold.
    eapply thread_respected; [exact Hr| |exact Hold]. intros j Hj Hxj. apply Hne.
    eapply owners_distinct; eauto.
Qed.

Lemma pool_step c c' : pstep operation env c c' → pool_ok c → pool_ok c'.
Proof.
  intros Hst (Hi & ns & Hall & Hnd).
  destruct Hst as [s ts i X f k now Ht|s ts i t k Ht|s ts i f k now Ht|s ts p Hop|s s' ts He]; cbn [fst snd] in *.
  - destruct (Forall2_lookup_r _ _ _ _ _ Hall Ht) as (n & Hn & Hh & Hs). cbn in Hs.
    destruct (Hs now s Hi Hh) as (Hr & l' & Hh' & Hk). split; [apply Hr|].
    destruct (pool_update s (f now s).1 ns ts i n (n.1, l') (k (f now s).2)) as [Hall' Hnd']; eauto.
    by split.
  - destruct (Forall2_lookup_r _ _ _ _ _ Hall Ht) as (n & Hn & Hh & Hs). cbn in Hs.
    destruct Hs as (Ho & Hp & Hk). split; [done|].
    destruct (pool_update s s ns ts i n n (bindP (code t) k)) as [Hall' Hnd']; eauto.
    { split; [done|]. by split. }
    split; [done|]. apply safe_bind. rewrite Ho. eapply safe_mono; [|apply (code_safe t n.2 Hp)].
    intros r l' _. rewrite <-Ho. apply Hk.
  - destruct (Forall2_lookup_r _ _ _ _ _ Hall Ht) as (n & Hn & Hh & Hs). cbn in Hs.
    destruct (Hs now s Hi Hh) as (Hr & (l' & Hh' & Hk) & Hnew). split; [apply Hr|].
    destruct (pool_update s (f now s).1 ns ts i n (n.1, l') k) as [Hall' Hnd']; [eauto..|by split|].
    destruct ((f now s).2) as [t|] eqn:Et.
    + destruct (Hnew t eq_refl) as (Hfresh & Hsp & lt & Hp & Hkt).
      exists (<[i := (n.1, l')]> ns ++ [(Some (key t), lt)]). split.
      * apply Forall2_app; [done|]. constructor; [|constructor]. split.
        -- intros ? [= <-]. by split.
        -- split; [done|]. split; [done|]. intros r l2. exact (finish_safe t l2 r).
      * unfold owners. rewrite omap_app. apply NoDup_app. split; [done|]. split; [|apply NoDup_singleton].
        intros j Hj ->%list_elem_of_singleton. change (key t ∈ owners (<[i:=(n.1, l')]> ns)) in Hj.
        rewrite (owners_insert ns i n (n.1, l') Hn eq_refl) in Hj. apply list_elem_of_omap in Hj as (m & Hm & Hmj). apply list_elem_of_lookup_1 in Hm as [i' Hm].
        destruct (Forall2_lookup_l _ _ _ _ _ Hall Hm) as (q & _ & Hhq & _).
        apply Hfresh. by apply (Hhq (key t)).
    + exists (<[i := (n.1, l')]> ns). by rewrite app_nil_r.
  - split; [done|]. exists (ns ++ [(None, l0)]). split.
    + apply Forall2_app; [done|]. constructor; [|constructor]. split; [done|]. by apply operation_safe.
    + unfold owners. rewrite omap_app. cbn. by rewrite app_nil_r.
  - pose proof (env_ok _ _ He Hi) as Hr. split; [apply Hr|]. exists ns. split; [|done].
    eapply Forall2_impl; [exact Hall|]. intros n p. by eapply thread_respected.
Qed.
(** From a pool with nothing in it, every interleaving keeps the invariant. *)
Lemma pool_invariant s s' ts : I s → rtc (pstep operation env) (s, []) (s', ts) → I s'.
Proof.
  intros Hi Hr.
  assert (Hp : pool_ok (s, [])) by (split; [done|]; exists []; split; [constructor|apply NoDup_nil_2]).
  change (I (s', ts).1). revert Hp. induction Hr as [c|c1 c2 c3 Hst _ IH]; [by intros [? _]|].
  intros Hp. apply IH. by eapply pool_step.
Qed.
End Proc.
Arguments proc _ _ _ _ : clear implicits.
Arguments Ret {B T R A}. Arguments Act {B T R A X}. Arguments Call {B T R A}. Arguments Spawn {B T R A}.
Arguments ends {B T R} code {A}.
Arguments every {B T R A}.
Notation "x <~ p ;; k" := (bindP p (λ x, k))
  (at level 100, p at next level, right associativity) : snap_scope.
Notation "p ;~ k" := (bindP p (λ _, k))
  (at level 100, right associativity) : snap_scope.
