(* ===== verification/Envelope.v ===== *)
(** [internal/envelope]: the one message shape, and the deliverable vocabulary.

    A payload is the document its JSON parses to ([None]: not JSON).  [to_json]
    and [of_json] are [json.Marshal] and [json.Unmarshal] of the structs; the
    order of an object's members carries no meaning. *)
From Stdlib Require Import Ascii String.
From S2P Require Import Prelude GoStr GoTime GoJson Store.
#[local] Open Scope Z_scope.
#[local] Open Scope snap_scope.
#[local] Set Default Proof Using "Type".

Definition RoleOwner : string := "owner".
Definition RoleBrain : string := "brain".
Definition RoleWorker : string := "worker".

Definition TypeOwnerRequest : string := "owner.request".
Definition TypeOwnerConfirm : string := "owner.confirm".
Definition TypeOwnerReject : string := "owner.reject".
Definition TypeScopeProposal : string := "brain.scope_proposal".
Definition TypeJobUpdate : string := "brain.job_update".
Definition TypeJobReport : string := "brain.job_report".
Definition TypeAssignment : string := "brain.assignment".
Definition TypeWorkerReport : string := "worker.report".
Definition TypeWorkerProgress : string := "worker.progress".
Definition TypeWorkerFailure : string := "worker.failure".
Definition TypeQAVerdict : string := "worker.qa_verdict".

Record Claim := MkClaim { cl_Text : string; cl_Sources : list string }.
Record ComplianceResult := MkCompliance {
  cr_Decision : string; cr_Confidence : string; cr_Provider : string; cr_Stub : bool; cr_Disclaimer : string }.
Record SourceProvenance := MkSource {
  pv_Resource : string; pv_Merchant : string; pv_AmountAtomic : string; pv_ReceiptHash : string;
  pv_PaymentID : string; pv_Status : string }.
Record Deliverable := MkDeliverable {
  dv_Title : string; dv_Summary : string; dv_Claims : list Claim; dv_Sources : list string;
  dv_Compliance : option ComplianceResult; dv_Provenance : list SourceProvenance; dv_Disclaimer : string }.
Record QAVerdict := MkVerdict {
  qv_Passed : bool; qv_Reasons : list string; qv_Checked : Z; qv_Notes : list string; qv_Disclaimer : string }.
Record Envelope := MkEnvelope {
  en_JobID : string; en_From : string; en_Type : string; en_Payload : option jval; en_SentAt : time }.

(** ** JSON *)
Definition strs (l : list string) : jval := JArr (JStr <$> l).
(** [omitempty]: the member is left out when the string is empty. *)
Definition opt_str (k v : string) : list (string * jval) := if bool_decide (v = "") then [] else [(k, JStr v)].

Definition claim_json (c : Claim) : jval := JObj [("text", JStr (cl_Text c)); ("sources", strs (cl_Sources c))].
Definition compliance_json (c : ComplianceResult) : jval :=
  JObj [("decision", JStr (cr_Decision c)); ("confidence", JStr (cr_Confidence c));
        ("provider", JStr (cr_Provider c)); ("stub", JBool (cr_Stub c)); ("disclaimer", JStr (cr_Disclaimer c))].
Definition source_json (s : SourceProvenance) : jval :=
  JObj ([("resource", JStr (pv_Resource s)); ("merchant", JStr (pv_Merchant s));
         ("amountAtomic", JStr (pv_AmountAtomic s))] ++
        opt_str "receiptHash" (pv_ReceiptHash s) ++ opt_str "paymentId" (pv_PaymentID s) ++
        [("status", JStr (pv_Status s))]).
Definition deliverable_json (d : Deliverable) : jval :=
  JObj ([("title", JStr (dv_Title d)); ("summary", JStr (dv_Summary d));
         ("claims", JArr (claim_json <$> dv_Claims d)); ("sources", strs (dv_Sources d))] ++
        match dv_Compliance d with None => [] | Some c => [("compliance", compliance_json c)] end ++
        (if bool_decide (dv_Provenance d = []) then [] else [("provenance", JArr (source_json <$> dv_Provenance d))]) ++
        opt_str "disclaimer" (dv_Disclaimer d)).
Definition verdict_json (v : QAVerdict) : jval :=
  JObj ([("passed", JBool (qv_Passed v)); ("reasons", strs (qv_Reasons v)); ("checked_claims", JInt (qv_Checked v))] ++
        (if bool_decide (qv_Notes v = []) then [] else [("notes", strs (qv_Notes v))]) ++
        [("disclaimer", JStr (qv_Disclaimer v))]).
Definition envelope_json (e : Envelope) : jval :=
  JObj [("job_id", JStr (en_JobID e)); ("from", JStr (en_From e)); ("type", JStr (en_Type e));
        ("payload", default JNull (en_Payload e)); ("sent_at", JTime (en_SentAt e))].

Definition claim_of_json (v : jval) : option Claim :=
  t ← dec_str "text" v; s ← dec_list "sources" text_of_element v; Some (MkClaim t s).
Definition compliance_of_json (v : jval) : option ComplianceResult :=
  a ← dec_str "decision" v; b ← dec_str "confidence" v; c ← dec_str "provider" v;
  d ← dec_bool "stub" v; e ← dec_str "disclaimer" v; Some (MkCompliance a b c d e).
Definition source_of_json (v : jval) : option SourceProvenance :=
  a ← dec_str "resource" v; b ← dec_str "merchant" v; c ← dec_str "amountAtomic" v;
  d ← dec_str "receiptHash" v; e ← dec_str "paymentId" v; f ← dec_str "status" v;
  Some (MkSource a b c d e f).
Definition deliverable_of_json (v : jval) : option Deliverable :=
  a ← dec_str "title" v; b ← dec_str "summary" v; c ← dec_list "claims" claim_of_json v;
  d ← dec_list "sources" text_of_element v; e ← dec_ptr "compliance" compliance_of_json v;
  f ← dec_list "provenance" source_of_json v; g ← dec_str "disclaimer" v;
  Some (MkDeliverable a b c d e f g).
Definition verdict_of_json (v : jval) : option QAVerdict :=
  a ← dec_bool "passed" v; b ← dec_list "reasons" text_of_element v; c ← dec_int "checked_claims" v;
  d ← dec_list "notes" text_of_element v; e ← dec_str "disclaimer" v; Some (MkVerdict a b c d e).

(** [New] and [Decode]. *)
Definition New (jobID from typ : string) (payload : jval) (now : time) : Envelope :=
  MkEnvelope jobID from typ (Some (json_Marshal payload)) now.
Definition Decode {A} (dec : jval → option A) (e : Envelope) : option A := en_Payload e ≫= dec.

(** ** Round trips, up to the replacement of invalid UTF-8 *)
Definition clean_claim (c : Claim) : Claim := MkClaim (utf8_clean (cl_Text c)) (utf8_clean <$> cl_Sources c).
Definition clean_compliance (c : ComplianceResult) : ComplianceResult :=
  MkCompliance (utf8_clean (cr_Decision c)) (utf8_clean (cr_Confidence c)) (utf8_clean (cr_Provider c))
    (cr_Stub c) (utf8_clean (cr_Disclaimer c)).
Definition clean_source (s : SourceProvenance) : SourceProvenance :=
  MkSource (utf8_clean (pv_Resource s)) (utf8_clean (pv_Merchant s)) (utf8_clean (pv_AmountAtomic s))
    (utf8_clean (pv_ReceiptHash s)) (utf8_clean (pv_PaymentID s)) (utf8_clean (pv_Status s)).
Definition clean_deliverable (d : Deliverable) : Deliverable :=
  MkDeliverable (utf8_clean (dv_Title d)) (utf8_clean (dv_Summary d)) (clean_claim <$> dv_Claims d)
    (utf8_clean <$> dv_Sources d) (clean_compliance <$> dv_Compliance d) (clean_source <$> dv_Provenance d)
    (utf8_clean (dv_Disclaimer d)).

(** Decides the member names a decoder compares. *)
Ltac decide_names :=
  repeat (match goal with
    |- context [bool_decide (?a = ?b :> string)] =>
      let v := eval vm_compute in (bool_decide (a = b)) in
      lazymatch v with
      | true => change (bool_decide (a = b)) with true
      | false => change (bool_decide (a = b)) with false
      end
    end; cbn).
Lemma mapM_marshalled {A} (enc : A → jval) (dec : jval → option A) (cl : A → A) (l : list A) :
  (∀ x, dec (json_Marshal (enc x)) = Some (cl x)) → mapM dec (json_Marshal <$> (enc <$> l)) = Some (cl <$> l).
Proof.
  intros Hx. induction l as [|x l IH]; [done|].
  transitivity (y ← dec (json_Marshal (enc x)); k ← mapM dec (json_Marshal <$> (enc <$> l)); mret (M := option) (y :: k));
    [reflexivity|]. rewrite Hx, IH. reflexivity.
Qed.
Lemma strs_roundtrip l : mapM text_of_element (json_Marshal <$> (JStr <$> l)) = Some (utf8_clean <$> l).
Proof. by apply mapM_marshalled. Qed.
Lemma claim_roundtrip c : claim_of_json (json_Marshal (claim_json c)) = Some (clean_claim c).
Proof. unfold claim_of_json, claim_json. cbn. decide_names. by rewrite strs_roundtrip. Qed.
Lemma source_roundtrip s : source_of_json (json_Marshal (source_json s)) = Some (clean_source s).
Proof.
  destruct s as [a b c d e f]. unfold source_of_json, source_json, clean_source. cbn [pv_Resource pv_Merchant
    pv_AmountAtomic pv_ReceiptHash pv_PaymentID pv_Status].
  unfold opt_str. repeat case_bool_decide; subst; reflexivity.
Qed.
Lemma deliverable_roundtrip d : deliverable_of_json (json_Marshal (deliverable_json d)) = Some (clean_deliverable d).
Proof.
  destruct d as [a b c d e f g]. unfold deliverable_of_json, deliverable_json, clean_deliverable.
  cbn [dv_Title dv_Summary dv_Claims dv_Sources dv_Compliance dv_Provenance dv_Disclaimer].
  unfold opt_str. destruct (bool_decide (f = [])) eqn:Ef, (bool_decide (g = "")) eqn:Eg, e as [e|]; bool_to_prop; subst;
    cbn; decide_names; rewrite (mapM_marshalled claim_json claim_of_json clean_claim) by apply claim_roundtrip;
    cbn; rewrite strs_roundtrip; cbn; decide_names;
    try (rewrite (mapM_marshalled source_json source_of_json clean_source) by apply source_roundtrip); reflexivity.
Qed.
Lemma verdict_roundtrip v : verdict_of_json (json_Marshal (verdict_json v)) =
  Some (MkVerdict (qv_Passed v) (utf8_clean <$> qv_Reasons v) (qv_Checked v) (utf8_clean <$> qv_Notes v)
          (utf8_clean (qv_Disclaimer v))).
Proof.
  destruct v as [a b c d e]. unfold verdict_of_json, verdict_json.
  cbn [qv_Passed qv_Reasons qv_Checked qv_Notes qv_Disclaimer].
  destruct (bool_decide (d = [])) eqn:Ed; bool_to_prop; subst; cbn; decide_names; rewrite strs_roundtrip; cbn;
    decide_names; rewrite ?strs_roundtrip; reflexivity.
Qed.
