(* ===== verification/Worker.v ===== *)
(** [internal/worker] and [internal/qa]: what a worker is, and three of them.

    A worker's whole reach is its assignment, one report callback and one
    purchase callback: [wprog] is a program over exactly these (and over its
    own memory [X]), so every worker of the type is covered by a theorem that
    quantifies over [wprog].  [AdaptiveDD] is the due-diligence worker,
    [qa_Handle] the reviewer.  [find] is the discovery seam, [screen] the
    compliance seam; a score, which only progress messages show, is left out.
    [quoteGo] is [strconv.Quote]; [reason_text] is the text of a reason. *)
From Stdlib Require Import Ascii String.
From S2P Require Import Prelude GoStr GoTime GoJson Store Envelope.
From S2P Require Purchasing.
#[local] Open Scope Z_scope.
#[local] Open Scope snap_scope.
#[local] Set Default Proof Using "Type".

(** ** The seam *)
Record PurchaseRequest := MkPurchaseRequest {
  pq_Merchant : string; pq_Resource : string; pq_AmountMicros : Z; pq_MaxAmountMicros : Z;
  pq_Purpose : string; pq_AlternativeTo : string }.
Record Assignment := MkAssignment {
  as_Scope : string; as_BounceReasons : list string; as_Draft : option Deliverable; as_Range : string }.
Definition assignment_json (a : Assignment) : jval :=
  JObj ([("scope", JStr (as_Scope a))] ++
        (if bool_decide (as_BounceReasons a = []) then [] else [("bounce_reasons", strs (as_BounceReasons a))]) ++
        match as_Draft a with None => [] | Some d => [("draft", deliverable_json d)] end ++
        opt_str "range" (as_Range a)).
Definition assignment_of_json (v : jval) : option Assignment :=
  a ← dec_str "scope" v; b ← dec_list "bounce_reasons" text_of_element v;
  c ← dec_ptr "draft" deliverable_of_json v; d ← dec_str "range" v; Some (MkAssignment a b c d).

Definition clean_assignment (a : Assignment) : Assignment :=
  MkAssignment (utf8_clean (as_Scope a)) (utf8_clean <$> as_BounceReasons a) (clean_deliverable <$> as_Draft a)
    (utf8_clean (as_Range a)).
#[local] Arguments deliverable_of_json : simpl never.
Lemma assignment_roundtrip a :
  assignment_of_json (json_Marshal (assignment_json a)) = Some (clean_assignment a).
Proof.
  destruct a as [sc br dr rg]. unfold assignment_of_json, assignment_json, clean_assignment, opt_str.
  cbn [as_Scope as_BounceReasons as_Draft as_Range].
  destruct dr as [d|].
  - pose proof (deliverable_roundtrip d) as Hd.
    assert (∃ fs, json_Marshal (deliverable_json d) = JObj fs) as [fs Hfs] by (by eexists).
    rewrite Hfs in Hd. revert Hfs. generalize (deliverable_json d). intros dj Hfs.
    destruct (bool_decide (br = [])) eqn:Eb, (bool_decide (rg = "")) eqn:Er; bool_to_prop; subst;
      cbn; rewrite Hfs; decide_names; rewrite ?strs_roundtrip, Hd; reflexivity.
  - destruct (bool_decide (br = [])) eqn:Eb, (bool_decide (rg = "")) eqn:Er; bool_to_prop; subst;
      cbn; decide_names; rewrite ?strs_roundtrip; reflexivity.
Qed.

(** The errors a worker can meet or return. *)
Inductive WErr :=
| WDecode
| WNoDraft
| WNoArtifacts
| WScreen
| WDiscovery
| WPurchase_failed
| WNoRepository
| WSource
| WBadSnapshot
| WNoRevision
| WUnconnected.

(** A program that yields an [A]; [Er] is what the callbacks fail with.  A
    message is stamped with the time it is built at. *)
Inductive wprog (X Er A : Type) : Type :=
| WRet (a : A)
| WReport (e : time → Envelope) (k : option Er → wprog X Er A)
| WPurchase (rq : PurchaseRequest) (k : result Er Purchasing.PurchaseOutcome → wprog X Er A)
| WLocal (Y : Type) (f : X → X * Y) (k : Y → wprog X Er A).
Arguments WRet {X Er A}. Arguments WReport {X Er A}. Arguments WPurchase {X Er A}. Arguments WLocal {X Er A Y}.
Fixpoint bindW {X Er A C} (p : wprog X Er A) (g : A → wprog X Er C) : wprog X Er C :=
  match p with
  | WRet a => g a
  | WReport e k => WReport e (λ r, bindW (k r) g)
  | WPurchase rq k => WPurchase rq (λ r, bindW (k r) g)
  | WLocal f k => WLocal f (λ y, bindW (k y) g)
  end.
(** What a handler returns: Go's [error]. *)
Definition werror (Er : Type) : Type := option (WErr + Er).
Definition handler (X Er : Type) : Type := Envelope → wprog X Er (werror Er).

(** ** [strings.Contains] *)
Fixpoint Contains (s sub : string) : bool :=
  String.prefix sub s || match s with EmptyString => false | String _ r => Contains r sub end.

Section Workers.
Context (quoteGo : string → string) (reason_text : Purchasing.ReasonText → string).
Context (unicodeLower : string → string).

(** ** The reviewer *)
Definition Disclaimer : string :=
  "QA verdict is evidence of review, not a guarantee of correctness; unsupported claims or leaks the checks did not catch may remain.".
Definition QAKind : string := "qa-reviewer".

Definition completeness (d : Deliverable) : list string :=
  (if blank (dv_Title d) then ["completeness: title is empty"] else []) ++
  (if blank (dv_Summary d) then ["completeness: summary is empty"] else []) ++
  (if bool_decide (dv_Claims d = []) then ["completeness: no claims — an empty report cannot be delivered"] else []) ++
  (if bool_decide (dv_Sources d = []) then ["completeness: no sources listed"] else []).
Definition claim_reasons (listed : list string) (i : nat) (c : Claim) : list string :=
  let n := FormatInt (Z.of_nat i + 1) in
  if bool_decide (cl_Sources c = []) then
    ["unsupported claim #" +:+ n +:+ ": " +:+ quoteGo (cl_Text c) +:+
     " cites no source; attach a source or remove the claim"]
  else
    (λ s, "source coverage: claim #" +:+ n +:+ " cites " +:+ quoteGo s +:+
          ", which is not in the deliverable's source list") <$> filter (λ s, s ∉ listed) (cl_Sources c).
Definition leaked (marker where_ : string) : string :=
  "customer-data leakage: confidential marker " +:+ quoteGo marker +:+ " appears in " +:+ where_.
Definition claim_leak (marker : string) (c : Claim) : option string :=
  if Contains (cl_Text c) marker then Some (leaked marker ("claim " +:+ quoteGo (cl_Text c)))
  else if existsb (λ s, Contains s marker) (cl_Sources c) then
    Some (leaked marker ("a citation for claim " +:+ quoteGo (cl_Text c)))
  else None.
Definition leak (d : Deliverable) (marker : string) : list string :=
  if bool_decide (marker = "") then []
  else if Contains (dv_Title d) marker || Contains (dv_Summary d) marker then [leaked marker "the deliverable"]
  else match omap (claim_leak marker) (dv_Claims d) with
       | r :: _ => [r]
       | [] => if existsb (λ s, Contains s marker) (dv_Sources d) then [leaked marker "the source list"] else []
       end.
Definition provisional (d : Deliverable) : list string :=
  match dv_Compliance d with
  | Some c =>
    if cr_Stub c then
      ["compliance screen is a STUB (provider " +:+ quoteGo (cr_Provider c) +:+
       "): evidence of the step, not a real screening result — pending Circle credentials"]
    else []
  | None => []
  end ++
  (let pending := length (filter (λ p, pv_Status p = "pending-integration") (dv_Provenance d)) in
   if Nat.ltb 0 pending then
     [FormatInt (Z.of_nat pending) +:+ " of " +:+ FormatInt (Z.of_nat (length (dv_Provenance d))) +:+
      " source(s) are pending payment-path integration: provenance not yet settled on-chain (F2/F4)"]
   else []).
Definition Review (markers : list string) (d : Deliverable) : QAVerdict :=
  let reasons := completeness d ++ concat (imap (claim_reasons (dv_Sources d)) (dv_Claims d)) ++
                 concat (leak d <$> markers) in
  MkVerdict (bool_decide (reasons = [])) reasons (Z.of_nat (length (dv_Claims d))) (provisional d) Disclaimer.

Section Handlers.
Context {X Er : Type}.
Abbreviation wprog := (wprog X Er).
Abbreviation werror := (werror Er).

Definition wfail {A} (e : WErr) : wprog (result (WErr + Er) A) := WRet (Err (Datatypes.inl e)).
(** A message built with [envelope.New], and [if err := report(...); err != nil]. *)
Definition report (jobID typ : string) (payload : jval) : wprog werror :=
  WReport (New jobID RoleWorker typ payload) (λ e, WRet (Datatypes.inr <$> e)).
(** Sequencing that stops at an error. *)
Definition wseq (p q : wprog werror) : wprog werror :=
  bindW p (λ e, match e with None => q | Some _ => WRet e end).

(** [qa.Worker.Handle]. *)
Definition qa_Handle (markers : list string) : handler X Er := λ assignment,
  match Decode assignment_of_json assignment with
  | None => WRet (Some (Datatypes.inl WDecode))
  | Some a =>
    match as_Draft a with
    | None => WRet (Some (Datatypes.inl WNoDraft))
    | Some d => report (en_JobID assignment) TypeQAVerdict (verdict_json (Review markers d))
    end
  end.

(** ** The due-diligence worker *)
Definition stubDraft (a : Assignment) : Deliverable :=
  let churn := "target's customer churn is 40% annually" in
  MkDeliverable "Due-diligence report" ("Stub due-diligence report for: " +:+ as_Scope a)
    ([MkClaim "corporate registry entry located" ["registry:acme-2201"];
      MkClaim "no adverse media found" ["media-scan:2026-07"];
      MkClaim "beneficial ownership chain resolved" ["registry:acme-2201"; "filing:bo-114"];
      MkClaim churn (if bool_decide (as_BounceReasons a = []) then [] else ["filing:churn-2026"])])
    (["registry:acme-2201"; "media-scan:2026-07"; "filing:bo-114"] ++
     if bool_decide (as_BounceReasons a = []) then [] else ["filing:churn-2026"])
    None [] "".
Definition StubDD_Handle : handler X Er := λ assignment,
  match Decode assignment_of_json assignment with
  | None => WRet (Some (Datatypes.inl WDecode))
  | Some a =>
    wseq (report (en_JobID assignment) TypeWorkerProgress
            (JObj [("stage", JStr "researching"); ("completion_pct", JInt 50)]))
         (report (en_JobID assignment) TypeWorkerReport (deliverable_json (stubDraft a)))
  end.

Record Found := MkFound {
  fo_Merchant : string; fo_Resource : string; fo_Description : string; fo_AmountMicros : Z }.
Inductive adaptation := adaptCheaper | adaptAbandon.
Definition interpretReason (reason : string) : adaptation :=
  let r := ToLower unicodeLower reason in
  if existsb (Contains r) ["cheaper"; "expensive"; "cost"; "budget"; "price"] then adaptCheaper else adaptAbandon.
Record Artifacts := MkArtifacts { ar_compliance : option ComplianceResult; ar_provenance : list SourceProvenance }.

(** [find] answers [None] on an error; [jobs] is the worker's own memory. *)
Context (find : string → Z → option (list Found)) (screen : string → option ComplianceResult).
Context (get_jobs : X → gmap string Artifacts) (set_jobs : gmap string Artifacts → X → X).
Context (MaxAdaptations : nat) (needs : list string).

Definition progress (jobID : string) (payload : list (string * jval)) : wprog werror :=
  report jobID TypeWorkerProgress (JObj payload).
Definition request_of (f : Found) (need alternativeTo : string) : PurchaseRequest :=
  MkPurchaseRequest (fo_Merchant f) (fo_Resource f) (fo_AmountMicros f) (fo_AmountMicros f) need alternativeTo.
Definition cheaperFor (need : string) (rejected : PurchaseRequest) : option (option Found) :=
  match find need (pq_AmountMicros rejected - 1) with
  | None => None
  | Some fs => Some (head fs)
  end.
Definition provenance_entry (rq : PurchaseRequest) (out : Purchasing.PurchaseOutcome) : SourceProvenance :=
  let amount := FormatInt (pq_AmountMicros rq) in
  match Purchasing.o_Receipt out with
  | None => MkSource (pq_Resource rq) (pq_Merchant rq) amount "" "" "pending-integration"
  | Some r => MkSource (pq_Resource rq) (pq_Merchant rq) amount (Purchasing.pr_ReceiptHash r) (Purchasing.pr_PaymentID r) "proven"
  end.

(** The artifacts, or the error the callback returned; [left] is how many
    adaptations are left. *)
Definition or_art (p : wprog werror) (art : Artifacts) : wprog (result (WErr + Er) Artifacts) :=
  bindW p (λ e, WRet (match e with None => Ok art | Some e => Err e end)).
Definition abandoned (jobID : string) (rq : PurchaseRequest) (out : Purchasing.PurchaseOutcome) (left : nat) : wprog werror :=
  progress jobID [("stage", JStr "source-abandoned"); ("resource", JStr (pq_Resource rq));
    ("why", JStr (reason_text (Purchasing.o_Reason out))); ("code", JStr (Purchasing.o_Code out));
    ("adaptations_used", JInt (Z.of_nat (MaxAdaptations - left)))].
Fixpoint acquire (left : nat) (jobID need : string) (rq : PurchaseRequest) (art : Artifacts) :
    wprog (result (WErr + Er) Artifacts) :=
  WPurchase rq (λ r,
    match r with
    | Err e => wfail WPurchase_failed
    | Ok out =>
      bindW (progress jobID
        [("stage", JStr "source-purchase"); ("resource", JStr (pq_Resource rq));
         ("decision", JStr (Purchasing.o_Decision out)); ("status", JStr (Purchasing.o_Status out));
         ("reason", JStr (reason_text (Purchasing.o_Reason out))); ("code", JStr (Purchasing.o_Code out));
         ("alternative_to", JStr (pq_AlternativeTo rq))])
      (λ e, match e with
      | Some e => WRet (Err e)
      | None =>
        if bool_decide (Purchasing.o_Status out = "delivered") ||
           bool_decide (Purchasing.o_Status out = "approved-pending-integration") then
          WRet (Ok (MkArtifacts (ar_compliance art) (ar_provenance art ++ [provenance_entry rq out])))
        else if bool_decide (Purchasing.o_Code out = "owner-alternative_requested") &&
                match interpretReason (reason_text (Purchasing.o_Reason out)) with adaptCheaper => true | _ => false end
        then match left with
             | O => or_art (abandoned jobID rq out left) art
             | S left' =>
               match cheaperFor need rq with
               | None => wfail WDiscovery
               | Some None =>
                 or_art (progress jobID
                   [("stage", JStr "source-abandoned"); ("need", JStr need); ("resource", JStr (pq_Resource rq));
                    ("why", JStr "owner asked for a cheaper source and discovery found none under the rejected price");
                    ("code", JStr "discovery-empty"); ("adaptations_used", JInt (Z.of_nat (MaxAdaptations - left)))]) art
               | Some (Some f) => acquire left' jobID need (request_of f need (Purchasing.o_RequestID out)) art
               end
             end
        else or_art (abandoned jobID rq out left) art
      end)
    end).
Definition discoverAndAcquire (jobID need : string) (art : Artifacts) : wprog (result (WErr + Er) Artifacts) :=
  match find need 0 with
  | None => wfail WDiscovery
  | Some [] =>
    or_art (progress jobID [("stage", JStr "source-abandoned"); ("need", JStr need);
      ("why", JStr "discovery found no service matching the need"); ("code", JStr "discovery-empty")]) art
  | Some (top :: _) =>
    bindW (progress jobID [("stage", JStr "source-discovered"); ("need", JStr need);
      ("resource", JStr (fo_Resource top)); ("description", JStr (fo_Description top));
      ("amount_micros", JInt (fo_AmountMicros top))])
    (λ e, match e with
          | Some e => WRet (Err e)
          | None => acquire MaxAdaptations jobID need (request_of top need "") art
          end)
  end.
Fixpoint acquire_all (jobID : string) (needs : list string) (art : Artifacts) : wprog (result (WErr + Er) Artifacts) :=
  match needs with
  | [] => WRet (Ok art)
  | need :: r =>
    bindW (discoverAndAcquire jobID need art) (λ res,
      match res with Err e => WRet (Err e) | Ok art => acquire_all jobID r art end)
  end.
Definition unsourced (c : Claim) : Claim := MkClaim (cl_Text c) [].
Definition adaptive_draft (a : Assignment) (art : Artifacts) : Deliverable :=
  let d := stubDraft a in
  let bare := bool_decide (ar_provenance art = []) in
  MkDeliverable (dv_Title d)
    (if bare then dv_Summary d +:+ " — NO PURCHASED SOURCES: every acquisition was abandoned or found nothing."
     else dv_Summary d)
    (if bare then unsourced <$> dv_Claims d else dv_Claims d)
    (if bare then [] else dv_Sources d)
    (ar_compliance art) (ar_provenance art)
    "This report is evidence of review, not a guarantee of correctness.".
Definition submit_draft (jobID : string) (a : Assignment) : wprog werror :=
  WLocal (λ x, (x, get_jobs x !! jobID)) (λ o,
    match o with
    | None => WRet (Some (Datatypes.inl WNoArtifacts))
    | Some art => report jobID TypeWorkerReport (deliverable_json (adaptive_draft a art))
    end).
(** [AdaptiveDD.Handle]. *)
Definition AdaptiveDD_Handle : handler X Er := λ assignment,
  match Decode assignment_of_json assignment with
  | None => WRet (Some (Datatypes.inl WDecode))
  | Some a =>
    let jobID := en_JobID assignment in
    if bool_decide (as_BounceReasons a = []) then
      bindW (acquire_all jobID needs (MkArtifacts None [])) (λ res,
        match res with
        | Err e => WRet (Some e)
        | Ok art =>
          match screen (as_Scope a) with
          | None => WRet (Some (Datatypes.inl WScreen))
          | Some s =>
            WLocal (λ x, (set_jobs (<[jobID := MkArtifacts (Some s) (ar_provenance art)]> (get_jobs x)) x, tt))
              (λ _, submit_draft jobID a)
          end
        end)
    else submit_draft jobID a
  end.
End Handlers.
End Workers.

(** ** What the reviewer promises *)
(** Every text the leakage check reads. *)
Definition texts (d : Deliverable) : list string :=
  dv_Title d :: dv_Summary d :: (dv_Claims d ≫= λ c, cl_Text c :: cl_Sources c) ++ dv_Sources d.
Definition deliverable_ok (markers : list string) (d : Deliverable) : Prop :=
  blank (dv_Title d) = false ∧ blank (dv_Summary d) = false ∧ dv_Claims d ≠ [] ∧ dv_Sources d ≠ [] ∧
  (∀ c, c ∈ dv_Claims d → cl_Sources c ≠ [] ∧ ∀ s, s ∈ cl_Sources c → s ∈ dv_Sources d) ∧
  ∀ m t, m ∈ markers → m ≠ "" → t ∈ texts d → Contains t m = false.

Lemma app_nil_iff {A} (l k : list A) : l ++ k = [] ↔ l = [] ∧ k = [].
Proof. split; [apply app_eq_nil|by intros [-> ->]]. Qed.
Lemma concat_nil_iff {A} (ls : list (list A)) : concat ls = [] ↔ ∀ l, l ∈ ls → l = [].
Proof.
  induction ls as [|l ls IH]; cbn; [split; [intros _ l Hl; by apply elem_of_nil in Hl|done]|].
  rewrite app_nil_iff, IH. split.
  - intros [-> H] k [->|Hk]%elem_of_cons; auto.
  - intros H. split; [apply H; by left|]. intros k Hk. apply H. by right.
Qed.
Lemma if_nil {A} (b : bool) (x : A) : (if b then [x] else []) = [] ↔ b = false.
Proof. by destruct b. Qed.
Lemma existsb_false_iff {A} (f : A → bool) l : existsb f l = false ↔ ∀ x, x ∈ l → f x = false.
Proof.
  split.
  - intros H x Hx. apply not_true_is_false. intros Hf. apply not_true_iff_false in H. apply H, existsb_exists.
    exists x. by rewrite <-list_elem_of_In.
  - intros H. apply not_true_is_false. intros (x & Hx & Hf)%existsb_exists.
    rewrite <-list_elem_of_In in Hx. rewrite H in Hf; done.
Qed.

Section ReviewSpec.
Context (quoteGo : string → string).
Abbreviation Review := (Review quoteGo).

Lemma completeness_nil d : completeness d = [] ↔
  blank (dv_Title d) = false ∧ blank (dv_Summary d) = false ∧ dv_Claims d ≠ [] ∧ dv_Sources d ≠ [].
Proof. unfold completeness. rewrite !app_nil_iff, !if_nil, !bool_decide_eq_false. tauto. Qed.
Lemma claim_reasons_nil listed i c : claim_reasons quoteGo listed i c = [] ↔
  cl_Sources c ≠ [] ∧ ∀ s, s ∈ cl_Sources c → s ∈ listed.
Proof.
  unfold claim_reasons. case_bool_decide as Hn; [by split; [|intros [? _]]|].
  split.
  - intros H%fmap_nil_inv. split; [done|]. intros s Hs. destruct (decide (s ∈ listed)) as [|Hno]; [done|].
    assert (Hin : s ∈ filter (λ s, s ∉ listed) (cl_Sources c)) by (by apply list_elem_of_filter).
    rewrite H in Hin. by apply elem_of_nil in Hin.
  - intros [_ H]. destruct (filter _ _) as [|s l] eqn:E; [done|].
    assert (Hin : s ∈ filter (λ s, s ∉ listed) (cl_Sources c)) by (rewrite E; by left).
    apply list_elem_of_filter in Hin as [Hno Hs]. by destruct Hno; auto.
Qed.
Lemma imap_nil_iff {A C} (f : nat → A → list C) l :
  concat (imap f l) = [] ↔ ∀ i x, l !! i = Some x → f i x = [].
Proof.
  rewrite concat_nil_iff. split.
  - intros H i x Hx. apply H. apply list_elem_of_lookup. exists i. by rewrite list_lookup_imap, Hx.
  - intros H k Hk. apply list_elem_of_lookup in Hk as [i Hi]. rewrite list_lookup_imap in Hi.
    destruct (l !! i) as [x|] eqn:E; [|done]. cbn in Hi. simplify_eq. eauto.
Qed.
Lemma leak_nil d m : leak quoteGo d m = [] ↔ (m ≠ "" → ∀ t, t ∈ texts d → Contains t m = false).
Proof.
  unfold leak. case_bool_decide as Hm; [done|].
  assert (Hc : ∀ c, claim_leak quoteGo m c = None ↔ ∀ t, t ∈ cl_Text c :: cl_Sources c → Contains t m = false).
  { intros c. unfold claim_leak. destruct (Contains (cl_Text c) m) eqn:E1.
    - split; [done|]. intros H. rewrite H in E1; [done|by left].
    - destruct (existsb _ _) eqn:E2.
      + split; [done|]. intros H. apply existsb_exists in E2 as (t & Ht & Hf). rewrite <-list_elem_of_In in Ht.
        rewrite H in Hf; [done|by right].
      + split; [|done]. intros _ t [->|Ht]%elem_of_cons; [done|]. by apply (proj1 (existsb_false_iff _ _) E2). }
  assert (Ho : omap (claim_leak quoteGo m) (dv_Claims d) = [] ↔
    ∀ c, c ∈ dv_Claims d → ∀ t, t ∈ cl_Text c :: cl_Sources c → Contains t m = false).
  { split.
    - intros H c Hi. apply Hc. destruct (claim_leak quoteGo m c) as [r|] eqn:E; [|done].
      assert (Hr : r ∈ omap (claim_leak quoteGo m) (dv_Claims d)) by (apply list_elem_of_omap; eauto).
      rewrite H in Hr. by apply elem_of_nil in Hr.
    - intros H. destruct (omap _ _) as [|r l] eqn:E; [done|].
      assert (Hr : r ∈ omap (claim_leak quoteGo m) (dv_Claims d)) by (rewrite E; by left).
      apply list_elem_of_omap in Hr as (c & Hi & Hf). rewrite (proj2 (Hc c)) in Hf; [done|eauto]. }
  unfold texts. split.
  - destruct (Contains (dv_Title d) m || _) eqn:E; [done|]. bool_to_prop. destruct (omap _ _) as [|r l] eqn:Eo; [|done].
    destruct (existsb _ _) eqn:Es; [done|]. intros _ _ t Ht.
    repeat (apply elem_of_cons in Ht as [->|Ht]; [done|]). apply elem_of_app in Ht as [Ht|Ht].
    + apply list_elem_of_bind in Ht as (c & Ht & Hi). eapply (proj1 Ho); done.
    + by apply (proj1 (existsb_false_iff _ _) Es).
  - intros H. specialize (H Hm). rewrite (H (dv_Title d)), (H (dv_Summary d)) by set_solver. cbn [orb].
    rewrite (proj2 Ho).
    2: { intros c Hi t Ht. apply H. rewrite !elem_of_cons, elem_of_app, list_elem_of_bind. eauto 6. }
    apply if_nil, existsb_false_iff. intros t Ht. apply H. rewrite !elem_of_cons, elem_of_app. auto.
Qed.

Lemma Review_passed markers d : qv_Passed (Review markers d) = true ↔ deliverable_ok markers d.
Proof.
  unfold Worker.Review. cbn [qv_Passed]. rewrite bool_decide_eq_true.
  rewrite !app_nil_iff, completeness_nil, imap_nil_iff, concat_nil_iff. unfold deliverable_ok. split.
  - intros ((Ht & Hs & Hc & Hso) & Hcl & Hl). split_and!; [done..| |].
    + intros c Hi. apply list_elem_of_lookup in Hi as [i Hi]. by apply claim_reasons_nil with i, Hcl.
    + intros m t Hm Hne Hi. apply (proj1 (leak_nil d m)); [|done..]. by apply Hl, list_elem_of_fmap_2.
  - intros (Ht & Hs & Hc & Hso & Hcl & Hl). split_and!; [done..| |].
    + intros i c Hi. apply claim_reasons_nil, Hcl. by eapply list_elem_of_lookup_2.
    + intros l Hi. apply list_elem_of_fmap in Hi as (m & -> & Hm). apply leak_nil. eauto.
Qed.
(** The reviewer passes exactly the sound reports.  A report passes if and
    only if its title and summary are not blank, it has claims and sources,
    every claim cites at least one source and only sources the report lists,
    and no configured marker occurs in its title, its summary, a claim, a
    citation or a source.  What does not pass is returned with at least one
    reason, and every verdict carries the disclaimer. *)
Lemma Review_passes_iff markers d :
  (qv_Passed (Review markers d) = true ↔ deliverable_ok markers d) ∧
  (qv_Passed (Review markers d) = false → qv_Reasons (Review markers d) ≠ []) ∧
  qv_Disclaimer (Review markers d) = Disclaimer.
Proof.
  split; [apply Review_passed|]. unfold Worker.Review. cbn [qv_Passed qv_Reasons qv_Disclaimer].
  by rewrite bool_decide_eq_false.
Qed.
End ReviewSpec.
Lemma Review_passes_iff_witness :
  let d := MkDeliverable "T" "S" [MkClaim "c" ["s1"]] ["s1"] None [] "" in
  qv_Passed (Review (λ s, s) ["secret"] d) = true ∧ deliverable_ok ["secret"] d.
Proof.
  cbv zeta. split; [vm_compute; reflexivity|]. apply (Review_passes_iff (λ s, s) ["secret"]).
  vm_compute. reflexivity.
Defined.

(** The leakage check reads neither the provenance nor the disclaimer. *)
Lemma marker_in_provenance_passes :
  let d := MkDeliverable "T" "S" [MkClaim "c" ["s1"]] ["s1"] None
             [MkSource "https://secret.example" "secret" "1" "" "" "proven"] "secret" in
  qv_Passed (Review (λ s, s) ["secret"] d) = true.
Proof. vm_compute. reflexivity. Qed.

(** The scripted first draft is bounced, its revision passes. *)
Lemma scripted_bounce a :
  qv_Passed (Review (λ s, s) [] (stubDraft a)) = negb (bool_decide (as_BounceReasons a = [])).
Proof.
  unfold stubDraft. destruct (bool_decide (as_BounceReasons a = [])); reflexivity.
Qed.

(** ** What the due-diligence worker buys *)
Section Adaptive.
Context (reason_text : Purchasing.ReasonText → string) (unicodeLower : string → string).
Context {X Er : Type} (find : string → Z → option (list Found)) (MaxAdaptations : nat).
Abbreviation wprog := (wprog X Er).
Abbreviation answer := (result Er Purchasing.PurchaseOutcome).
Abbreviation acquire := (acquire reason_text unicodeLower (X := X) (Er := Er) find MaxAdaptations).

(** The purchases of a run, in order, with their answers; the run may stop
    anywhere. *)
Inductive buys {A} : wprog A → list (PurchaseRequest * answer) → Prop :=
| buys_stop p : buys p []
| buys_report e k r l : buys (k r) l → buys (WReport e k) l
| buys_purchase rq k r l : buys (k r) l → buys (WPurchase rq k) ((rq, r) :: l)
| buys_local Y (f : X → X * Y) k x l : buys (k (f x).2) l → buys (WLocal f k) l.

(** One adaptation: the owner asked for an alternative on grounds of cost, and
    the next request is the best match under the rejected price. *)
Definition adapts (need : string) (a b : PurchaseRequest * answer) : Prop :=
  ∃ out f fs, a.2 = Ok out ∧ Purchasing.o_Code out = "owner-alternative_requested" ∧
    interpretReason unicodeLower (reason_text (Purchasing.o_Reason out)) = adaptCheaper ∧
    find need (pq_AmountMicros a.1 - 1) = Some (f :: fs) ∧
    b.1 = request_of f need (Purchasing.o_RequestID out).
Fixpoint chained {A} (R : A → A → Prop) (l : list A) : Prop :=
  match l with
  | a :: r => match r with b :: _ => R a b | [] => True end ∧ chained R r
  | [] => True
  end.

Lemma buys_ret_inv {A} (a : A) l : buys (WRet a) l → l = [].
Proof. by inversion 1. Qed.
Lemma buys_report_inv {A} e (k : option Er → wprog A) l : buys (WReport e k) l → l = [] ∨ ∃ r, buys (k r) l.
Proof. inversion 1; eauto. Qed.
Lemma buys_purchase_inv {A} rq (k : answer → wprog A) l : buys (WPurchase rq k) l →
  l = [] ∨ ∃ r l', l = (rq, r) :: l' ∧ buys (k r) l'.
Proof. inversion 1; eauto. Qed.
Lemma or_art_report_buys e art l :
  buys (or_art (WReport e (λ r, WRet (Datatypes.inr <$> r)) : wprog (werror Er)) art) l → l = [].
Proof. intros [?|[r Hr]]%buys_report_inv; [done|]. by apply buys_ret_inv in Hr. Qed.

(** Adaptation is bounded and answers the owner.  However the owner and the
    seller behave, one need leads to at most [MaxAdaptations + 1] purchase
    requests.  Every request after the first follows an owner's request for an
    alternative on grounds of cost, is the best match under the price just
    rejected, and names the request it replaces. *)
Lemma acquire_adapts left jobID need rq art l :
  buys (acquire left jobID need rq art) l →
  (length l ≤ S left)%nat ∧ chained (adapts need) l ∧ (∀ a, head l = Some a → a.1 = rq).
Proof.
  revert rq art l. induction left as [|left IH]; intros rq art l Hb;
    (apply buys_purchase_inv in Hb as [->|(r & l' & -> & Hb)]; [by split_and!; [cbn; lia|..]|]).
  - assert (l' = []) as ->; [|by split_and!; [cbn; lia|done|intros a [= <-]]].
    destruct r as [out|e]; [|by apply buys_ret_inv in Hb].
    apply buys_report_inv in Hb as [?|[[e|] Hb]]; [done|by apply buys_ret_inv in Hb|]. cbn in Hb.
    destruct (_ || _); [by apply buys_ret_inv in Hb|].
    destruct (_ && _); by apply or_art_report_buys in Hb.
  - assert (Hdone : l' = [] → (length ((rq, r) :: l') ≤ S (S left))%nat ∧ chained (adapts need) ((rq, r) :: l') ∧
      ∀ a, head ((rq, r) :: l') = Some a → a.1 = rq) by (intros ->; by split_and!; [cbn; lia|done|intros a [= <-]]).
    destruct r as [out|e]; [|by eapply Hdone, buys_ret_inv, Hb].
    apply buys_report_inv in Hb as [?|[[e|] Hb]]; [by apply Hdone|by eapply Hdone, buys_ret_inv, Hb|]. cbn in Hb.
    destruct (_ || _); [by eapply Hdone, buys_ret_inv, Hb|].
    destruct (_ && _) eqn:Ea; [|by eapply Hdone, or_art_report_buys, Hb].
    unfold cheaperFor in Hb. destruct (find need _) as [[|f fs]|] eqn:Ef.
    + by eapply Hdone, or_art_report_buys, Hb.
    + apply IH in Hb as (Hlen & Hch & Hhd). split_and!; [cbn in *; lia| |by intros a [= <-]].
      split; [|done]. destruct l' as [|b l']; [done|]. apply andb_true_iff in Ea as [Hcode%bool_decide_eq_true Hwhy].
      exists out, f, fs. split_and!; [done|done| |done|by apply Hhd].
      by destruct (interpretReason _ _).
    + by eapply Hdone, buys_ret_inv, Hb.
Qed.
End Adaptive.

Definition sample_find (need : string) (cap : Z) : option (list Found) :=
  Some [MkFound "api.example" (if cap =? 0 then "/full" else "/summary") "data" (if cap =? 0 then 4000000 else 60000)].
Definition sample_text (r : Purchasing.ReasonText) : string := match r with Purchasing.Verbatim s => s | _ => "" end.
Definition sample_request : PurchaseRequest := MkPurchaseRequest "api.example" "/full" 4000000 4000000 "data" "".
Definition sample_rejection : Purchasing.PurchaseOutcome :=
  Purchasing.MkPurchaseOutcome "HUMAN_APPROVAL_REQUIRED" "denied" "owner-alternative_requested"
    (Purchasing.Verbatim "find something cheaper") "apr_1" None.
Definition sample_second : PurchaseRequest := MkPurchaseRequest "api.example" "/summary" 60000 60000 "data" "apr_1".
Lemma acquire_adapts_witness :
  let l := [(sample_request, Ok sample_rejection); (sample_second, Err tt)] in
  (length l ≤ 2)%nat ∧ chained (adapts (Er := unit) sample_text (λ s, s) sample_find "data") l.
Proof.
  cbv zeta.
  destruct (acquire_adapts sample_text (λ s, s) (X := unit) (Er := unit) sample_find 1 1 "job_1" "data" sample_request
    (MkArtifacts None []) [(sample_request, Ok sample_rejection); (sample_second, Err tt)]) as (Hl & Hc & _).
  - apply buys_purchase. cbn [bindW progress report]. apply (buys_report _ _ None). cbn [bindW fmap option_fmap option_map].
    assert (Hi : interpretReason (λ s, s) (sample_text (Purchasing.o_Reason sample_rejection)) = adaptCheaper)
      by (vm_compute; reflexivity).
    rewrite Hi. cbn. apply buys_purchase. apply buys_stop.
  - exact (conj Hl Hc).
Defined.
