(* ===== verification/Brain.v ===== *)
(** [internal/brain]: the hub, its routing and its job state machine
    ([router.go], [chat.go], [memory.go], [project.go]).

    A [Brain] holds the job objects on a heap, because handlers keep a pointer
    across the points where they release the mutex; the map of the working
    set; the memory files; the event store; the projection into the SQL table.
    Handlers are processes ([Proc]): one action per hold of the mutex, per
    store append, per file operation.  A call ([Call]) is [runTask]; a spawn is
    [dispatchTask]'s goroutine.  Workers are the programs of [Worker].

    [disk] decides, file operation by file operation, whether it fails.  The
    memory file is kept as the record it holds; [UpdatedAt] is not kept, and
    [Report] and [Draft] are the documents their text holds.  [purchase] is the
    purchasing pipeline, [err_text] the text of an error. *)
From Stdlib Require Import Ascii String.
From S2P Require Import Prelude GoStr GoTime GoJson Store Like Proc Envelope Worker.
From S2P Require Freeze Purchasing Ledger.
#[local] Open Scope Z_scope.
#[local] Open Scope snap_scope.
#[local] Set Default Proof Using "Type".

(** ** Jobs *)
Definition StageScoped : string := "scoped".
Definition StageConfirmed : string := "confirmed".
Definition StageAssigned : string := "assigned".
Definition StageComplete : string := "complete".
Definition StageRejected : string := "rejected".
Definition StageFailed : string := "failed".
Definition StageQAReview : string := "qa_review".
Definition StageRevision : string := "revision".
Definition StageDeliveryReady : string := "delivery_ready".
Definition StageEscalated : string := "escalated".
Definition StageAccepted : string := "accepted".
Definition BuildMonitorKind : string := "build-monitor".

Record jobState := MkJob {
  js_JobID : string; js_Scope : string; js_QuoteUSDC : string; js_Stage : string; js_Worker : string;
  js_Report : option jval; js_RevisionCount : Z; js_Draft : option Deliverable }.
Definition with_stage (st : string) (j : jobState) : jobState :=
  MkJob (js_JobID j) (js_Scope j) (js_QuoteUSDC j) st (js_Worker j) (js_Report j) (js_RevisionCount j) (js_Draft j).
Definition under_review (d : Deliverable) (j : jobState) : jobState :=
  MkJob (js_JobID j) (js_Scope j) (js_QuoteUSDC j) StageQAReview (js_Worker j) (js_Report j) (js_RevisionCount j) (Some d).
Definition completed (r : option jval) (j : jobState) : jobState :=
  MkJob (js_JobID j) (js_Scope j) (js_QuoteUSDC j) StageComplete (js_Worker j) r (js_RevisionCount j) (js_Draft j).
Definition bounced (st : string) (j : jobState) : jobState :=
  MkJob (js_JobID j) (js_Scope j) (js_QuoteUSDC j) st (js_Worker j) (js_Report j) (js_RevisionCount j + 1) (js_Draft j).

Record Confirmation := MkConfirmation { cf_By : string; cf_What : string; cf_At : time }.
Record JobMemory := MkMemory {
  jm_JobID : string; jm_Scope : string; jm_QuoteUSDC : string; jm_Stage : string; jm_CompletionPct : Z;
  jm_AssignedWorker : string; jm_Confirmations : list Confirmation; jm_EscrowState : string;
  jm_Report : option jval; jm_QANotes : list string; jm_QADisclaimer : string; jm_Draft : option jval;
  jm_RevisionCount : Z; jm_VaultJobID : string; jm_StandingInstructionID : string; jm_MilestoneNumber : Z;
  jm_AcceptTokenHash : string }.
Definition noMemory (jobID : string) : JobMemory :=
  MkMemory jobID "" "" "" 0 "" [] "" None [] "" None 0 "" "" 0 "".
Definition m_job id (m : JobMemory) := let 'MkMemory a b c d e f g h i j k l x n o p q := m in MkMemory id b c d e f g h i j k l x n o p q.
Definition m_scope sc qu (m : JobMemory) := let 'MkMemory a b c d e f g h i j k l x n o p q := m in MkMemory a sc qu d e f g h i j k l x n o p q.
Definition m_stage st (m : JobMemory) := let 'MkMemory a b c d e f g h i j k l x n o p q := m in MkMemory a b c st e f g h i j k l x n o p q.
Definition m_pct n' (m : JobMemory) := let 'MkMemory a b c d e f g h i j k l x n o p q := m in MkMemory a b c d n' f g h i j k l x n o p q.
Definition m_worker w (m : JobMemory) := let 'MkMemory a b c d e f g h i j k l x n o p q := m in MkMemory a b c d e w g h i j k l x n o p q.
Definition m_confirm cf (m : JobMemory) := let 'MkMemory a b c d e f g h i j k l x n o p q := m in MkMemory a b c d e f (g ++ [cf]) h i j k l x n o p q.
Definition m_escrow es (m : JobMemory) := let 'MkMemory a b c d e f g h i j k l x n o p q := m in MkMemory a b c d e f g es i j k l x n o p q.
Definition m_report r (m : JobMemory) := let 'MkMemory a b c d e f g h i j k l x n o p q := m in MkMemory a b c d e f g h r j k l x n o p q.
Definition m_note s ds (m : JobMemory) := let 'MkMemory a b c d e f g h i j k l x n o p q := m in MkMemory a b c d e f g h i (j ++ [s]) ds l x n o p q.
Definition m_draft dr (m : JobMemory) := let 'MkMemory a b c d e f g h i j k l x n o p q := m in MkMemory a b c d e f g h i j k dr x n o p q.
Definition m_revision r (m : JobMemory) := let 'MkMemory a b c d e f g h i j k l x n o p q := m in MkMemory a b c d e f g h i j k l r n o p q.
Definition m_vault v (m : JobMemory) := let 'MkMemory a b c d e f g h i j k l x n o p q := m in MkMemory a b c d e f g h i j k l x v o p q.
Definition m_instruction si n' (m : JobMemory) := let 'MkMemory a b c d e f g h i j k l x n o p q := m in MkMemory a b c d e f g h i j k l x n si n' q.
Definition m_token t (m : JobMemory) := let 'MkMemory a b c d e f g h i j k l x n o p q := m in MkMemory a b c d e f g h i j k l x n o p t.

(** The file a job's memory is kept in, without its directory and suffix. *)
Fixpoint safe_name (s : string) : string :=
  match s with
  | EmptyString => ""
  | String c r =>
    if bool_decide (c = "/"%char) || bool_decide (c = "\"%char) then String "_" (safe_name r)
    else match r with
         | String c1 r1 =>
           if bool_decide (c = "."%char) && bool_decide (c1 = "."%char) then String "_" (safe_name r1)
           else String c (safe_name r)
         | EmptyString => String c ""
         end
  end.

(** ** Errors *)
Inductive BErr :=
| BStore (e : StoreErr)
| BDisk
| BNoRoute
| BNoScoper
| BScoper
| BFrozen (e : Freeze.Entry)
| BDecode
| BDuplicate
| BNoOwner
| BUnknownJob
| BStage (stage : string)
| BNotAuthor
| BNotQA
| BNoDisclaimer
| BNoWorker
| BNoPurchaser
| BPurchase
| BShutdown
| BCrossJob
| BWorker (e : WErr)
| BRecovered
| BNotDeliveryReady (stage : string)
| BNotWired
| BNoQuote
| BVaultID
| BFunding
| BMilestone
| BMilestoneExists
| BMilestoneChain
| BBilling
| BAdvance
| BRandom.

Record Task := MkTask {
  t_job : string; t_kind : string; t_reasons : list string; t_draft : option Deliverable }.
Record ProjRow := MkProjRow { pj_org : string; pj_status : string; pj_quote : string; pj_vault : option string }.

Section Brain.
Context {X : Type}.

Record Brain := MkBrain {
  br_heap : list jobState;
  br_jobs : gmap string nat;
  br_tasks : gmap string (option (option BErr));
  br_files : gmap string JobMemory;
  br_disk : list bool;
  br_store : Store;
  br_rows : gmap string ProjRow;
  br_freeze : option Freeze.Registry;
  br_stopping : bool;
  br_recovered : bool;
  br_ext : X }.
Definition with_heap h (s : Brain) := MkBrain h (br_jobs s) (br_tasks s) (br_files s) (br_disk s) (br_store s)
  (br_rows s) (br_freeze s) (br_stopping s) (br_recovered s) (br_ext s).
Definition with_jobs m (s : Brain) := MkBrain (br_heap s) m (br_tasks s) (br_files s) (br_disk s) (br_store s)
  (br_rows s) (br_freeze s) (br_stopping s) (br_recovered s) (br_ext s).
Definition with_tasks m (s : Brain) := MkBrain (br_heap s) (br_jobs s) m (br_files s) (br_disk s) (br_store s)
  (br_rows s) (br_freeze s) (br_stopping s) (br_recovered s) (br_ext s).
Definition with_files m (s : Brain) := MkBrain (br_heap s) (br_jobs s) (br_tasks s) m (br_disk s) (br_store s)
  (br_rows s) (br_freeze s) (br_stopping s) (br_recovered s) (br_ext s).
Definition with_disk d (s : Brain) := MkBrain (br_heap s) (br_jobs s) (br_tasks s) (br_files s) d (br_store s)
  (br_rows s) (br_freeze s) (br_stopping s) (br_recovered s) (br_ext s).
Definition with_store st (s : Brain) := MkBrain (br_heap s) (br_jobs s) (br_tasks s) (br_files s) (br_disk s) st
  (br_rows s) (br_freeze s) (br_stopping s) (br_recovered s) (br_ext s).
Definition with_rows r (s : Brain) := MkBrain (br_heap s) (br_jobs s) (br_tasks s) (br_files s) (br_disk s) (br_store s)
  r (br_freeze s) (br_stopping s) (br_recovered s) (br_ext s).
Definition with_recovered (s : Brain) := MkBrain (br_heap s) (br_jobs s) (br_tasks s) (br_files s) (br_disk s) (br_store s)
  (br_rows s) (br_freeze s) (br_stopping s) true (br_ext s).
Definition with_ext x (s : Brain) := MkBrain (br_heap s) (br_jobs s) (br_tasks s) (br_files s) (br_disk s) (br_store s)
  (br_rows s) (br_freeze s) (br_stopping s) (br_recovered s) x.

(** The wiring: what is set once, before anything is served. *)
Record Wiring := MkWiring {
  wr_scoper : option (string → option (string * string * string));
  wr_workers : gmap string (handler X BErr);
  wr_qaKind : string;
  wr_maxRevisions : Z;
  wr_orgID : string;
  wr_purchaser : option (Purchasing.PurchaseIntent → X → X * result BErr Purchasing.PurchaseOutcome) }.

Abbreviation proc := (proc Brain Task (option BErr)).
Abbreviation action A := (time → Brain → Brain * A).
(** [if err := p; err != nil { return err }]. *)
Definition andthen (p k : proc (option BErr)) : proc (option BErr) :=
  bindP p (λ e, match e with None => k | Some _ => Ret e end).
Definition err (e : BErr) : proc (option BErr) := Ret (Some e).
Definition ok : proc (option BErr) := Ret None.

(** ** Actions *)
Definition append (kind entity actor : string) (payload : time → jval) : action (option BErr) := λ now s,
  let '(st, r) := Append now (MkEvent zeroTime kind entity actor (payload now)) (br_store s) in
  (with_store st s, match r with Ok _ => None | Err e => Some (BStore e) end).
Definition frozenErr (org jobID agentKind : string) : action (option BErr) := λ _ s,
  (s, match br_freeze s with
      | None => None
      | Some r => BFrozen <$> Freeze.Check org jobID agentKind r
      end).
Definition lookup_job (jobID : string) : action (option (nat * jobState)) := λ _ s,
  (s, p ← br_jobs s !! jobID; j ← br_heap s !! p; Some (p, j)).
Definition update_job (p : nat) (f : jobState → jobState) : action unit := λ _ s,
  (with_heap (alter f p (br_heap s)) s, tt).
Definition insert_job (j : jobState) (s : Brain) : Brain :=
  with_jobs (<[js_JobID j := length (br_heap s)]> (br_jobs s)) (with_heap (br_heap s ++ [j]) s).

(** One file operation. *)
Definition disk_fails (s : Brain) : Brain * bool :=
  match br_disk s with b :: r => (with_disk r s, b) | [] => (s, false) end.
Definition load (jobID : string) (s : Brain) : JobMemory :=
  default (noMemory jobID) (br_files s !! safe_name jobID).
Definition mem_Get (jobID : string) : action (result BErr JobMemory) := λ _ s,
  let '(s, b) := disk_fails s in (s, if b then Err BDisk else Ok (load jobID s)).

(** [projectJobRow], two statements. *)
Definition proj_row (org : string) (jm : JobMemory) : ProjRow :=
  MkProjRow (if bool_decide (org = "") then "org_unconfigured" else org) (jm_Stage jm) (jm_QuoteUSDC jm)
    (if bool_decide (jm_VaultJobID jm = "") then None else Some (jm_VaultJobID jm)).
Definition projectJobRow (org : string) (jm : JobMemory) (s : Brain) : Brain * option BErr :=
  match (stmt ErrQuery ;;; stmt ErrQuery) (br_store s) with
  | (st, Ok _) => (with_rows (<[jm_JobID jm := proj_row org jm]> (br_rows s)) (with_store st s), None)
  | (st, Err e) => (with_store st s, Some (BStore e))
  end.
(** [MemoryStore.Update] with its [AfterUpdate] hook, whose failure is only
    logged. *)
Definition mem_Update (org jobID : string) (fn : time → JobMemory → JobMemory) : action (option BErr) := λ now s,
  let '(s, b) := disk_fails s in
  if b then (s, Some BDisk)
  else
    let jm := fn now (m_job jobID (load jobID s)) in
    ((projectJobRow org jm (with_files (<[safe_name jobID := jm]> (br_files s)) s)).1, None).
Definition SetAssignedWorker (org jobID kind : string) : action (option BErr) :=
  mem_Update org jobID (λ _ m, m_stage "assigned" (m_worker kind m)).
Definition AddConfirmation (org jobID by_ what : string) : action (option BErr) :=
  mem_Update org jobID (λ now, m_confirm (MkConfirmation by_ what now)).
(** [MemoryStore.List]: every file, sorted. *)
Definition file_names (s : Brain) : list string := isort String.ltb (elements (dom (br_files s))).
Definition mem_List : action (result BErr (list string)) := λ _ s,
  let '(s, b) := disk_fails s in (s, if b then Err BDisk else Ok (file_names s)).

(** The record of a message. *)
Definition record (kind_of : Envelope) (entity actor : string) : proc (option BErr) :=
  match en_Payload kind_of with
  | None => err BDecode
  | Some _ => act (append ("brain.msg." +:+ en_Type kind_of) entity actor (λ _, envelope_json kind_of))
  end.
(** A message of Brain's own: built, then recorded. *)
Definition brain_message (jobID typ : string) (payload : jval) : proc Envelope :=
  act (λ now s, (s, New jobID RoleBrain typ payload now)).
Definition tell (jobID typ : string) (payload : jval) : proc (option BErr) :=
  e <~ brain_message jobID typ payload ;; record e jobID RoleBrain.

(** ** The worker's callbacks *)
Section Handlers.
Context (err_text : BErr → string) (cfg : Wiring).
Abbreviation org := (wr_orgID cfg).
Abbreviation qaKind := (wr_qaKind cfg).

Definition onWorkerProgress (e : Envelope) : proc (option BErr) :=
  match Decode (λ v, st ← dec_str "stage" v; n ← dec_int "completion_pct" v; Some (st, n)) e with
  | None => err BDecode
  | Some (st, n) => act (mem_Update org (en_JobID e) (λ _ m, m_pct n (m_stage st m)))
  end.

Definition onWorkerReport (kind : string) (e : Envelope) : proc (option BErr) :=
  o <~ act (lookup_job (en_JobID e)) ;;
  match o with
  | None => err BUnknownJob
  | Some (p, _) =>
    if bool_decide (kind = qaKind) then err BNotAuthor else
    j <~ act (λ _ s, (s, br_heap s !! p)) ;;
    match j with
    | None => err BUnknownJob
    | Some j =>
      if negb (bool_decide (js_Worker j = "")) && negb (bool_decide (kind = js_Worker j)) then err BNotAuthor
      else if negb (bool_decide (js_Stage j = StageAssigned)) && negb (bool_decide (js_Stage j = StageRevision))
      then err (BStage (js_Stage j))
      else if negb (bool_decide (qaKind = "")) then
        match Decode deliverable_of_json e with
        | None => err BDecode
        | Some draft =>
          _ <~ act (update_job p (under_review draft)) ;;
          andthen (act (mem_Update org (en_JobID e)
                          (λ _ m, m_draft (Some (json_Marshal (deliverable_json draft))) (m_stage StageQAReview m))))
          (Call (MkTask (en_JobID e) qaKind [] (Some draft)) Ret)
        end
      else
        _ <~ act (update_job p (completed (en_Payload e))) ;;
        andthen (act (mem_Update org (en_JobID e)
                        (λ _ m, m_report (en_Payload e) (m_pct 100 (m_stage StageComplete m)))))
        (tell (en_JobID e) TypeJobReport
           (JObj [("report", JStr (json_text (default JNull (en_Payload e))))]))
    end
  end.

(** The [qa_review] to [delivery_ready] claim, and the report. *)
Definition markDeliveryReady (jobID : string) (p : nat) (v : QAVerdict) : proc (option BErr) :=
  c <~ act (λ now s,
    match br_heap s !! p with
    | Some j =>
      if bool_decide (js_Stage j = StageQAReview)
      then ((update_job p (with_stage StageDeliveryReady) now s).1, Some (js_Draft j))
      else (s, None)
    | None => (s, None)
    end) ;;
  match c with
  | None => err (BStage "")
  | Some draft =>
    let doc := json_Marshal ∘ deliverable_json <$> draft in
    andthen (act (mem_Update org jobID
               (λ _ m, m_note "QA PASS" (qv_Disclaimer v) (m_report doc (m_pct 100 (m_stage StageDeliveryReady m))))))
    (tell jobID TypeJobReport
       (JObj [("report", JStr (match doc with None => "" | Some d => json_text d end)); ("qa", JStr "passed");
              ("disclaimer", JStr (qv_Disclaimer v))]))
  end.

(** The bounded bounce: revision or escalation, claimed in one hold. *)
Definition claim_bounce (p : nat) : action (option (Z * string * bool)) := λ now s,
  match br_heap s !! p with
  | Some j =>
    if bool_decide (js_Stage j = StageQAReview) then
      let rev := js_RevisionCount j + 1 in
      let escalated := wr_maxRevisions cfg <? rev in
      ((update_job p (bounced (if escalated then StageEscalated else StageRevision)) now s).1,
       Some (rev, js_Worker j, escalated))
    else (s, None)
  | None => (s, None)
  end.
Definition onQAVerdict (kind : string) (e : Envelope) : proc (option BErr) :=
  let jobID := en_JobID e in
  o <~ act (lookup_job jobID) ;;
  match o with
  | None => err BUnknownJob
  | Some (p, j) =>
    if bool_decide (kind = "") || negb (bool_decide (kind = qaKind)) then err BNotQA
    else if negb (bool_decide (js_Stage j = StageQAReview)) then err (BStage (js_Stage j))
    else match Decode verdict_of_json e with
    | None => err BDecode
    | Some v =>
      if bool_decide (qv_Disclaimer v = "") then err BNoDisclaimer
      else if qv_Passed v then markDeliveryReady (js_JobID j) p v
      else
        c <~ act (claim_bounce p) ;;
        match c with
        | None => err (BStage "")
        | Some (rev, author, escalated) =>
          andthen (act (mem_Update org jobID
                     (λ _, m_note ("QA BOUNCE: " +:+ join_with " | " (qv_Reasons v)) (qv_Disclaimer v))))
          (if escalated then
             andthen (act (mem_Update org jobID (λ _ m, m_revision rev (m_stage StageEscalated m))))
             (tell jobID TypeJobUpdate
                (JObj [("escalation", JStr ("QA could not pass the deliverable after " +:+
                          FormatInt (wr_maxRevisions cfg) +:+ " revisions; owner decision required"));
                       ("qa_reasons", strs (qv_Reasons v)); ("disclaimer", JStr (qv_Disclaimer v))]))
           else
             andthen (act (mem_Update org jobID (λ _ m, m_revision rev (m_stage StageRevision m))))
             (Call (MkTask jobID author (qv_Reasons v) None) Ret))
        end
    end
  end.

Definition onWorkerFailure (e : Envelope) : proc (option BErr) :=
  _ <~ act (λ now s, match br_jobs s !! en_JobID e with
                     | Some p => update_job p (with_stage StageFailed) now s
                     | None => (s, tt)
                     end) ;;
  act (mem_Update org (en_JobID e) (λ _, m_stage StageFailed)).

Definition deliverFromWorker (kind : string) (e : Envelope) : proc (option BErr) :=
  andthen (record e (en_JobID e) (RoleWorker +:+ ":" +:+ kind))
  (if bool_decide (en_Type e = TypeWorkerProgress) then onWorkerProgress e
   else if bool_decide (en_Type e = TypeWorkerReport) then onWorkerReport kind e
   else if bool_decide (en_Type e = TypeQAVerdict) then onQAVerdict kind e
   else if bool_decide (en_Type e = TypeWorkerFailure) then onWorkerFailure e
   else err BNoRoute).
Definition from_worker (e : Envelope) : Envelope :=
  MkEnvelope (en_JobID e) RoleWorker (en_Type e) (en_Payload e) (en_SentAt e).
(** [workerReportFor] and [purchaseFor]: the two capabilities of a worker. *)
Definition workerReport (kind jobID : string) (e : Envelope) : proc (option BErr) :=
  if negb (bool_decide (en_JobID e = jobID)) then err BCrossJob else deliverFromWorker kind (from_worker e).
Definition stamped (kind jobID : string) (rq : PurchaseRequest) : Purchasing.PurchaseIntent :=
  Purchasing.MkPurchaseIntent jobID kind (pq_Merchant rq) (pq_Resource rq) (pq_AmountMicros rq)
    (pq_MaxAmountMicros rq) (pq_Purpose rq) (pq_AlternativeTo rq).
Definition purchaseFor (kind jobID : string) (rq : PurchaseRequest) :
    action (result BErr Purchasing.PurchaseOutcome) := λ _ s,
  match wr_purchaser cfg with
  | None => (s, Err BNoPurchaser)
  | Some decide => let '(x, r) := decide (stamped kind jobID rq) (br_ext s) in (with_ext x s, r)
  end.

(** [w.Handle(ctx, assignment, report, purchase)]. *)
Definition worker_result (r : werror BErr) : option BErr :=
  match r with None => None | Some (Datatypes.inl e) => Some (BWorker e) | Some (Datatypes.inr e) => Some e end.
Fixpoint handle (kind jobID : string) (w : wprog X BErr (werror BErr)) : proc (option BErr) :=
  match w with
  | WRet r => Ret (worker_result r)
  | WReport e k =>
    e <~ act (λ now s, (s, e now)) ;; r <~ workerReport kind jobID e ;; handle kind jobID (k r)
  | WPurchase rq k => r <~ act (purchaseFor kind jobID rq) ;; handle kind jobID (k r)
  | WLocal f k =>
    y <~ act (λ _ s, let '(x, y) := f (br_ext s) in (with_ext x s, y)) ;; handle kind jobID (k y)
  end.

(** [runTask], the one place a worker is invoked from. *)
Definition runTask (t : Task) : proc (option BErr) :=
  o <~ act (lookup_job (t_job t)) ;;
  match wr_workers cfg !! t_kind t, o with
  | None, _ => err BNoWorker
  | _, None => err BUnknownJob
  | Some w, Some (p, _) =>
    f <~ act (frozenErr org (t_job t) (t_kind t)) ;;
    match f with
    | Some fe =>
      _ <~ act (append "task.withheld" (t_job t) "brain"
             (λ _, JObj [("worker_kind", JStr (t_kind t)); ("reason", JStr (err_text fe))])) ;;
      err fe
    | None =>
      sc <~ act (λ _ s, (s, default "" (js_Scope <$> br_heap s !! p))) ;;
      a <~ brain_message (t_job t) TypeAssignment
             (assignment_json (MkAssignment sc (t_reasons t) (t_draft t) "")) ;;
      andthen (record a (t_job t) RoleBrain)
      (andthen (match t_draft t with
                | None => act (SetAssignedWorker org (t_job t) (t_kind t))
                | Some _ => ok
                end)
      (handle (t_kind t) (t_job t) (w a)))
    end
  end.
(** The end of the goroutine: the handle's outcome. *)
Definition finish_task (t : Task) (r : option BErr) : action unit := λ _ s,
  (with_tasks (<[t_job t := Some r]> (br_tasks s)) s, tt).

(** [dispatchTask]: the insertion into [tasks] and the [go] statement are one
    step, nothing between them touches the shared state. *)
Definition dispatchTask (t : Task) : proc (option BErr) :=
  stopping <~ act (λ _ s, (s, br_stopping s)) ;;
  if stopping then err BShutdown
  else Spawn (λ _ s, match br_tasks s !! t_job t with
                     | Some _ => (s, None)
                     | None => (with_tasks (<[t_job t := None]> (br_tasks s)) s, Some t)
                     end) ok.

(** ** The owner's messages *)
Definition onOwnerRequest (e : Envelope) : proc (option BErr) :=
  match wr_scoper cfg with
  | None => err BNoScoper
  | Some scoper =>
    andthen (act (frozenErr org (en_JobID e) ""))
    (match Decode (dec_str "request") e with
     | None => err BDecode
     | Some request =>
       dup <~ act (λ _ s, (s, bool_decide (is_Some (br_jobs s !! en_JobID e)))) ;;
       if dup then err BDuplicate else
       match scoper request with
       | None => err BScoper
       | Some (scope, quote, kind) =>
         _ <~ act (λ _ s, (insert_job (MkJob (en_JobID e) scope quote StageScoped kind None 0 None) s, tt)) ;;
         andthen (act (mem_Update org (en_JobID e) (λ _ m, m_escrow "none" (m_stage StageScoped (m_scope scope quote m)))))
         (tell (en_JobID e) TypeScopeProposal
            (JObj [("job_id", JStr (en_JobID e)); ("scope", JStr scope); ("quote_usdc", JStr quote)]))
       end
     end)
  end.

(** [ResumeMilestone] ([milestone.go]): assign a confirmed Build-Monitor job
    and dispatch it, giving the claim back when the dispatch is refused. *)
Definition ResumeMilestone (jobID : string) : proc (option BErr) :=
  c <~ act (λ now s,
    match (lookup_job jobID now s).2 with
    | None => (s, Err BUnknownJob)
    | Some (p, j) =>
      if negb (bool_decide (js_Worker j = BuildMonitorKind)) then (s, Err BNotAuthor)
      else if bool_decide (js_Stage j = StageConfirmed) then
        ((update_job p (with_stage StageAssigned) now s).1, Ok (Some (p, js_Worker j)))
      else if bool_decide (js_Stage j = StageAssigned) then
        match br_tasks s !! jobID with
        | Some _ => (s, Ok None)
        | None => (s, Ok (Some (p, js_Worker j)))
        end
      else (s, Err (BStage (js_Stage j)))
    end) ;;
  match c with
  | Err e => err e
  | Ok None => ok
  | Ok (Some (p, kind)) =>
    r <~ dispatchTask (MkTask jobID kind [] None) ;;
    match r with
    | None => ok
    | Some e =>
      _ <~ act (λ now s, match br_heap s !! p with
                         | Some j => if bool_decide (js_Stage j = StageAssigned)
                                     then update_job p (with_stage StageConfirmed) now s else (s, tt)
                         | None => (s, tt)
                         end) ;;
      andthen (act (mem_Update org jobID (λ _, m_stage StageConfirmed))) (err e)
    end
  end.

Definition decision_by (e : Envelope) : option (string * string) :=
  Decode (λ v, b ← dec_str "by" v; r ← dec_str "reason" v; Some (b, r)) e.
Definition onOwnerConfirm (e : Envelope) : proc (option BErr) :=
  match decision_by e with
  | None => err BDecode
  | Some (by_, _) =>
    if bool_decide (by_ = "") then err BNoOwner else
    c <~ act (λ now s,
      match (lookup_job (en_JobID e) now s).2 with
      | None => (s, Err BUnknownJob)
      | Some (p, j) =>
        if bool_decide (js_Stage j = StageScoped)
        then ((update_job p (with_stage StageConfirmed) now s).1, Ok (p, js_Worker j))
        else (s, Err (BStage (js_Stage j)))
      end) ;;
    match c with
    | Err x => err x
    | Ok (p, kind) =>
      andthen (act (AddConfirmation org (en_JobID e) by_ "scope+quote confirmed"))
      (andthen (act (mem_Update org (en_JobID e) (λ _, m_stage StageConfirmed)))
      (if bool_decide (kind = BuildMonitorKind) then ResumeMilestone (en_JobID e)
       else
         _ <~ act (update_job p (with_stage StageAssigned)) ;;
         dispatchTask (MkTask (en_JobID e) kind [] None)))
    end
  end.
Definition onOwnerReject (e : Envelope) : proc (option BErr) :=
  match decision_by e with
  | None => err BDecode
  | Some (by_, reason) =>
    found <~ act (λ now s, match br_jobs s !! en_JobID e with
                           | Some p => ((update_job p (with_stage StageRejected) now s).1, true)
                           | None => (s, false)
                           end) ;;
    if negb found then err BUnknownJob else
    andthen (act (AddConfirmation org (en_JobID e) by_ ("scope rejected: " +:+ reason)))
            (act (mem_Update org (en_JobID e) (λ _, m_stage StageRejected)))
  end.

(** The routing table and [Deliver]. *)
Definition route (from typ : string) : option (Envelope → proc (option BErr)) :=
  if bool_decide (from = RoleOwner) then
    if bool_decide (typ = TypeOwnerRequest) then Some onOwnerRequest
    else if bool_decide (typ = TypeOwnerConfirm) then Some onOwnerConfirm
    else if bool_decide (typ = TypeOwnerReject) then Some onOwnerReject
    else None
  else None.
Definition Deliver (e : Envelope) : proc (option BErr) :=
  andthen (record e (en_JobID e) (en_From e))
  (match route (en_From e) (en_Type e) with None => err BNoRoute | Some h => h e end).
Definition owner_says (jobID typ : string) (payload : jval) : proc (option BErr) :=
  e <~ act (λ now s, (s, New jobID RoleOwner typ payload now)) ;; Deliver e.
Definition HandleOwnerRequest (jobID request : string) : proc (option BErr) :=
  owner_says jobID TypeOwnerRequest (JObj [("request", JStr request)]).
Definition Confirm (jobID by_ : string) : proc (option BErr) :=
  owner_says jobID TypeOwnerConfirm (JObj [("by", JStr by_)]).
Definition Reject (jobID by_ reason : string) : proc (option BErr) :=
  owner_says jobID TypeOwnerReject (JObj ([("by", JStr by_)] ++ opt_str "reason" reason)).

(** ** Restart *)
(** One file read back into the working set. *)
Definition recovered_job (id : string) (jm : JobMemory) : jobState :=
  MkJob id (jm_Scope jm) (jm_QuoteUSDC jm) (jm_Stage jm) (jm_AssignedWorker jm) (jm_Report jm) (jm_RevisionCount jm)
    (jm_Draft jm ≫= deliverable_of_json).
Fixpoint recover_jobs (ids : list string) (s : Brain) : Brain * option BErr :=
  match ids with
  | [] => (s, None)
  | id :: r =>
    let '(s, b) := disk_fails s in
    if b then (s, Some BDisk)
    else match br_jobs s !! id with
         | Some _ => recover_jobs r s
         | None => recover_jobs r (insert_job (recovered_job id (load id s)) s)
         end
  end.
Fixpoint reproject (ids : list string) (s : Brain) : Brain * option BErr :=
  match ids with
  | [] => (s, None)
  | id :: r =>
    let '(s, b) := disk_fails s in
    if b then (s, Some BDisk)
    else match projectJobRow org (load id s) s with
         | (s, Some e) => (s, Some e)
         | (s, None) => reproject r s
         end
  end.
Definition Recover : proc (option BErr) :=
  dup <~ act (λ _ s, (with_recovered s, br_recovered s)) ;;
  if dup then err BRecovered else
  ids <~ act mem_List ;;
  match ids with
  | Err e => err e
  | Ok ids =>
    andthen (act (λ _, recover_jobs ids))
    (ids2 <~ act mem_List ;;
     match ids2 with Err e => err e | Ok ids2 => act (λ _, reproject ids2) end)
  end.

Definition inFlight (stage : string) : bool := bool_decide (stage ∈ [StageAssigned; StageQAReview; StageRevision]).
Definition interrupted_ids (s : Brain) : list string :=
  isort String.ltb
    (fst <$> filter (λ kp, match br_heap s !! kp.2 with Some j => inFlight (js_Stage j) | None => false end = true)
               (map_to_list (br_jobs s))).
Fixpoint escalate_ids (ids : list string) : proc (option BErr) :=
  match ids with
  | [] => ok
  | id :: r =>
    prev <~ act (λ now s, match (lookup_job id now s).2 with
                          | Some (p, j) => ((update_job p (with_stage StageEscalated) now s).1, js_Stage j)
                          | None => (s, "")
                          end) ;;
    andthen (act (mem_Update org id (λ _, m_stage StageEscalated)))
    (andthen (tell id TypeJobUpdate
                (JObj [("escalation", JStr ("task interrupted by a restart while " +:+ prev +:+
                          "; not resumed (no checkpoint) and not re-run (would repeat purchases/screens) — owner decides: re-run or abandon"));
                       ("interrupted_stage", JStr prev)]))
    (escalate_ids r))
  end.
Definition EscalateInterruptedTasks : proc (option BErr) :=
  ids <~ act (λ _ s, (s, interrupted_ids s)) ;; escalate_ids ids.
End Handlers.
End Brain.
Arguments Brain : clear implicits.
Arguments Wiring : clear implicits.

(** ** The actions that leave the jobs and the tasks alone *)
Section Calm.
Context {X : Type}.
Abbreviation brain := (Brain X).
Definition calm (s s' : brain) : Prop :=
  br_heap s' = br_heap s ∧ br_jobs s' = br_jobs s ∧ br_tasks s' = br_tasks s.
Lemma calm_trans (s1 s2 s3 : brain) : calm s1 s2 → calm s2 s3 → calm s1 s3.
Proof. unfold calm. intuition congruence. Qed.
Lemma append_calm kind entity actor payload now (s : brain) : calm s (append kind entity actor payload now s).1.
Proof. unfold append. destruct (Append _ _ _). by repeat split. Qed.
Lemma disk_calm (s : brain) : calm s (disk_fails s).1.
Proof. unfold disk_fails. destruct (br_disk s); by repeat split. Qed.
Lemma projectJobRow_calm org jm (s : brain) : calm s (projectJobRow org jm s).1.
Proof. unfold projectJobRow. destruct ((_ ;;; _) _) as [st [|]]; by repeat split. Qed.
Lemma mem_Update_calm org id fn now (s : brain) : calm s (mem_Update org id fn now s).1.
Proof.
  unfold mem_Update. pose proof (disk_calm s) as Hd. destruct (disk_fails s) as [s1 [|]]; [done|].
  eapply calm_trans; [exact Hd|]. eapply calm_trans; [|apply projectJobRow_calm]. by repeat split.
Qed.
Lemma purchaseFor_calm cfg kind id rq now (s : brain) : calm s (purchaseFor cfg kind id rq now s).1.
Proof.
  unfold purchaseFor. destruct (wr_purchaser cfg); [|by repeat split]. by destruct (_ (stamped _ _ _) _).
Qed.
End Calm.
