(* ===== verification/Accept.v ===== *)
(** [internal/brain]: the customer's credential, acceptance and settlement
    ([accept.go]), and the observation of a settled milestone ([milestone.go]).

    [Seams] is what the hub is handed: the funding agent's settlement call, the
    chain oracles and the billing agent.  The chain tables are reached through
    [get_chain].  What the observation gate of a job guards is one action; the
    number of its waiters is not kept.  [sha256hex] is the hash in
    hexadecimal. *)
From Stdlib Require Import Ascii String.
From S2P Require Import Prelude GoStr GoTime GoJson Store Like Proc Envelope Worker Brain.
From S2P Require Freeze Funding Decode Indexer Billing.
#[local] Open Scope Z_scope.
#[local] Open Scope snap_scope.
#[local] Set Default Proof Using "Type".

Section Accept.
Context {X : Type} (cfg : Wiring X) (sha256hex : string → string) (hex_EncodeToString : string → string).
Context (err_text : BErr → string).
Abbreviation brain := (Brain X).
Abbreviation proc := (proc brain Task (option BErr)).
Abbreviation action A := (time → brain → brain * A).
Abbreviation org := (wr_orgID cfg).

Record MilestoneOracle := MkOracle {
  or_AdvanceLanded : string → X → option bool;
  or_SettlementLanded : string → X → option bool;
  or_AdvanceRateBps : X → option Z }.
Record Seams := MkSeams {
  sm_settle : option (string → X → X * result BErr Funding.ChainOutcome);
  sm_landed : option (string → X → option bool);
  sm_billing : option (option (string → bool));
  sm_milestone : option MilestoneOracle;
  sm_quote : option (string → X → option string) }.
Context (sm : Seams) (get_chain : X → Indexer.ChainStore).

(** [if err := p; err != nil { return ..., err }]. *)
Definition trying {A} (p : proc (option BErr)) (k : proc (result BErr A)) : proc (result BErr A) :=
  bindP p (λ e, match e with None => k | Some e => Ret (Err e) end).
Definition letR {A C} (p : proc (result BErr A)) (k : A → proc (result BErr C)) : proc (result BErr C) :=
  bindP p (λ r, match r with Ok a => k a | Err e => Ret (Err e) end).
Definition fails {A} (e : BErr) : proc (result BErr A) := Ret (Err e).

(** [SELECT COUNT( * ) FROM events WHERE kind=? AND entity_id=?]. *)
Definition count (kind entity : string) (s : brain) : nat :=
  length (filter (λ r, ev_kind r = kind ∧ ev_entity r = entity) (events (db (br_store s)))).
Definition query {A} (f : brain → A) : action (result BErr A) := λ _ s,
  match stmt ErrQuery (br_store s) with
  | (st, Ok _) => (with_store st s, Ok (f s))
  | (st, Err e) => (with_store st s, Err (BStore e))
  end.

(** ** The customer's credential *)
Definition act_token (raw : string) : string := "act_" +:+ hex_EncodeToString raw.
Definition MintAcceptCredential (raw : option string) (jobID : string) : proc (result BErr string) :=
  o <~ act (lookup_job jobID) ;;
  match o with
  | None => fails BUnknownJob
  | Some (_, j) =>
    if negb (bool_decide (js_Stage j = StageDeliveryReady)) && negb (bool_decide (js_Stage j = StageAccepted))
    then fails (BNotDeliveryReady (js_Stage j))
    else match raw with
    | None => fails BRandom
    | Some raw =>
      trying (act (mem_Update org jobID (λ _, m_token (sha256hex (act_token raw)))))
      (trying (act (append "delivery.accept_credential_minted" jobID "owner"
                 (λ _, JObj [("note", JStr "customer accept credential minted (rotates any prior)")])))
      (Ret (Ok (act_token raw))))
    end
  end.
Definition VerifyAcceptCredential (jobID token : string) : proc bool :=
  r <~ act (mem_Get jobID) ;;
  Ret (match r with
       | Err _ => false
       | Ok jm => negb (bool_decide (jm_AcceptTokenHash jm = "")) &&
                  bool_decide (sha256hex token = jm_AcceptTokenHash jm)
       end).

(** ** Milestones, after the settlement *)
(** The idempotency check and the append, in the observation's critical
    section. *)
Definition observe_once (jobID : string) (jm : JobMemory) : action (option BErr) := λ now s,
  match query (count "pipeline.milestone.completed" jobID) now s with
  | (s, Err e) => (s, Some e)
  | (s, Ok prior) =>
    if Nat.ltb 0 prior then (s, None)
    else match sm_milestone sm with
    | None => append "pipeline.milestone.observation_pending" jobID "brain"
                (λ _, JObj [("vault_job_id", JStr (jm_VaultJobID jm));
                            ("note", JStr "settled locally; no chain oracle wired")]) now s
    | Some o =>
      match or_AdvanceLanded o (jm_VaultJobID jm) (br_ext s), or_SettlementLanded o (jm_VaultJobID jm) (br_ext s) with
      | Some true, Some true =>
        match or_AdvanceRateBps o (br_ext s) with
        | None => (s, Some BMilestoneChain)
        | Some rate =>
          append "pipeline.milestone.completed" jobID "brain"
            (λ _, JObj [("standing_instruction_id", JStr (jm_StandingInstructionID jm));
                        ("milestone_number", JInt (jm_MilestoneNumber jm));
                        ("vault_job_id", JStr (jm_VaultJobID jm)); ("advance_rate_bps", JInt rate)]) now s
        end
      | _, _ => (s, Some BMilestoneChain)
      end
    end
  end.
Definition observeMilestoneCompletion (jobID : string) : proc (option BErr) :=
  r <~ act (mem_Get jobID) ;;
  match r with
  | Err e => err e
  | Ok jm => if bool_decide (jm_StandingInstructionID jm = "") then ok else act (observe_once jobID jm)
  end.
Definition recordMilestoneObservation (jobID : string) : proc unit :=
  e <~ observeMilestoneCompletion jobID ;;
  match e with
  | None => Ret tt
  | Some e =>
    _ <~ act (append "pipeline.milestone.observation_failed" jobID "brain"
           (λ _, JObj [("error", JStr (err_text e))])) ;;
    Ret tt
  end.
Definition retrySettledMilestoneObservation (jobID : string) : proc unit :=
  r <~ act (query (count "settlement.executed" jobID)) ;;
  match r with
  | Err _ => Ret tt
  | Ok n => if Nat.ltb 0 n then recordMilestoneObservation jobID else Ret tt
  end.

(** ** Accept *)
Definition pending (jobID note : string) : proc (result BErr string) :=
  trying (act (append "settlement.pending_chain" jobID "customer" (λ _, JObj [("note", JStr note)])))
    (Ret (Ok "accepted-pending-chain")).
(** The first [JobSettled] of the job by block, where the indexer saw one. *)
Definition settled_row (vaultJobID : string) (d : Indexer.ChainDB) : option Indexer.ChainEvent :=
  head (isort (λ a b, Indexer.ce_block a <? Indexer.ce_block b)
    (filter (λ e, Indexer.ce_kind e = "JobSettled" ∧ Indexer.ce_entity e = vaultJobID) (Indexer.chain_events d))).
(** [None]: not settled by the customer. *)
Definition settledByCustomer (jobID vaultJobID : string) : proc (result BErr (option string)) :=
  match sm_landed sm with
  | None => Ret (Ok None)
  | Some landed =>
    if bool_decide (vaultJobID = "") then Ret (Ok None) else
    b <~ act (λ _ s, (s, landed vaultJobID (br_ext s))) ;;
    match b with
    | None | Some false => Ret (Ok None)
    | Some true =>
      letR (match sm_billing sm with
            | None => Ret (Ok None)
            | Some _ => act (query (λ s, settled_row vaultJobID (Indexer.cdb (get_chain (br_ext s)))))
            end)
      (λ row,
        trying (act (append "settlement.executed" jobID "customer" (λ _, JObj (
          [("signer", JStr "customer");
           ("note", JStr "acceptDelivery was signed by the customer's own wallet; observed on chain")] ++
          match row with
          | Some e => [("tx_hash", JStr (Indexer.ce_tx e)); ("block", JInt (Indexer.ce_block e))]
          | None => [("tx_hash_pending", JStr "the indexer has not yet recorded JobSettled for this job")]
          end))))
        (Ret (Ok (Some "accepted-settled"))))
    end
  end.
Definition settleOnChain (jobID : string) : proc (result BErr string) :=
  letR (act (mem_Get jobID)) (λ jm,
  letR (settledByCustomer jobID (jm_VaultJobID jm)) (λ done,
  match done, sm_settle sm with
  | Some st, _ => Ret (Ok st)
  | None, None => pending jobID "delivery accepted; no funding agent wired — settlement pending"
  | None, Some settle =>
    if bool_decide (jm_VaultJobID jm = "")
    then pending jobID "delivery accepted; no on-chain job identity yet (vault_job_id unset) — settlement pending"
    else
      letR (act (λ _ s, let '(x, r) := settle (jm_VaultJobID jm) (br_ext s) in
                        (with_ext x s, match r with Ok o => Ok o | Err _ => Err BFunding end)))
      (λ out,
        if negb (Funding.co_Submitted out)
        then pending jobID "delivery accepted; no customer chain lane wired — settlement pending"
        else
          let tx := [("tx_hash", JStr (Funding.co_TxHash out)); ("block", JInt (Funding.co_Block out));
                     ("gas_used", JInt (Funding.co_GasUsed out))] in
          if Funding.co_Reverted out then
            trying (act (append "settlement.reverted" jobID "funding" (λ _, JObj (tx ++
              [("note", JStr "acceptDelivery MINED AND REVERTED — not settled; owner attention required")]))))
            (Ret (Ok "accepted-settlement-reverted"))
          else
            trying (act (append "settlement.executed" jobID "funding" (λ _, JObj tx)))
            (Ret (Ok "accepted-settled")))
  end)).
(** The claim, [delivery_ready] to [accepted]; [false]: accepted before. *)
Definition claim_accept (jobID : string) : action (result BErr bool) := λ now s,
  match (lookup_job jobID now s).2 with
  | None => (s, Err BUnknownJob)
  | Some (p, j) =>
    if bool_decide (js_Stage j = StageAccepted) then (s, Ok false)
    else if bool_decide (js_Stage j = StageDeliveryReady)
    then ((update_job p (with_stage StageAccepted) now s).1, Ok true)
    else (s, Err (BNotDeliveryReady (js_Stage j)))
  end.
Definition AcceptDelivery (jobID : string) : proc (result BErr string) :=
  trying (act (frozenErr org jobID ""))
  (letR (act (claim_accept jobID)) (λ claimed,
   if claimed : bool then
     trying (act (mem_Update org jobID (λ _, m_stage StageAccepted)))
     (letR (settleOnChain jobID) (λ state,
      if bool_decide (state = "accepted-settled")
      then _ <~ recordMilestoneObservation jobID ;; Ret (Ok state)
      else Ret (Ok state)))
   else _ <~ retrySettledMilestoneObservation jobID ;; Ret (Ok "accepted-pending-chain"))).
End Accept.
