(* ===== verification/Milestone.v ===== *)
(** [internal/brain]: standing milestones ([milestone.go]), the triggers of an
    advance ([advance.go]), and the rounds of the observers.

    [flow] is the advance flow's [Propose]. *)
From Stdlib Require Import Ascii String.
From S2P Require Import Prelude GoStr GoTime GoJson Store Like Proc Envelope Worker Brain Accept.
From S2P Require Freeze Indexer Billing.
#[local] Open Scope Z_scope.
#[local] Open Scope snap_scope.
#[local] Set Default Proof Using "Type".

(** [Milestone], [MilestoneCycle], [MilestoneStatus]. *)
Record Milestone := MkMilestone { ms_Instruction : string; ms_Number : Z; ms_Repository : string; ms_Quote : string }.
Record MilestoneCycle := MkCycle { mc_JobID : string; mc_VaultJobID : string }.
Record MilestoneStatus := MkStatus {
  st_JobID : string; st_VaultJobID : string; st_Instruction : string; st_Number : Z; st_Repository : string;
  st_Quote : string; st_Stage : string }.


Section Milestone.
Context {X : Type} (cfg : Wiring X) (sha256hex : string → string).
Abbreviation brain := (Brain X).
Abbreviation proc := (proc brain Task (option BErr)).
Abbreviation action A := (time → brain → brain * A).
Abbreviation org := (wr_orgID cfg).

Definition NUL : string := String (chrZ 0) "".
Definition identity (instruction : string) (number : Z) : string := instruction +:+ NUL +:+ FormatUint number.
Definition cycle_of (instruction : string) (number : Z) : MilestoneCycle :=
  MkCycle ("milestone_" +:+ substring 0 32 (sha256hex ("snapfall:local-milestone:v1" +:+ NUL +:+ identity instruction number)) +:+
           "_" +:+ FormatUint number)
    ("0x" +:+ sha256hex ("snapfall:vault-milestone:v1" +:+ NUL +:+ identity instruction number)).
(** The cycle and the trimmed instruction, repository and quote. *)
Definition milestoneIdentity (m : Milestone) : result BErr (MilestoneCycle * string * string * string) :=
  let instruction := TrimSpace (ms_Instruction m) in
  let repository := TrimSpace (ms_Repository m) in
  let quote := TrimSpace (ms_Quote m) in
  if bool_decide (instruction = "") || (ms_Number m =? 0) || bool_decide (repository = "") || bool_decide (quote = "")
  then Err BMilestone
  else Ok (cycle_of instruction (ms_Number m), instruction, repository, quote).

(** Reserve the identity before any I/O. *)
Definition reserve (j : jobState) : action (option nat) := λ _ s,
  match br_jobs s !! js_JobID j with
  | Some _ => (s, None)
  | None => (insert_job j s, Some (length (br_heap s)))
  end.
Definition rollback (jobID : string) (p : nat) : action unit := λ _ s,
  (if bool_decide (br_jobs s !! jobID = Some p) then with_jobs (delete jobID (br_jobs s)) s else s, tt).
Definition milestone_memory (c : MilestoneCycle) (instruction repository quote : string) (number : Z) (m : JobMemory) : JobMemory :=
  m_instruction instruction number (m_worker BuildMonitorKind (m_vault (mc_VaultJobID c)
    (m_escrow "none" (m_stage StageScoped (m_scope repository quote m))))).
Definition OpenMilestone (m : Milestone) : proc (result BErr MilestoneCycle) :=
  match milestoneIdentity m with
  | Err e => fails e
  | Ok (c, instruction, repository, quote) =>
    trying (act (frozenErr org (mc_JobID c) BuildMonitorKind))
    (letR (act (mem_Get (mc_JobID c))) (λ jm,
     if negb (bool_decide (jm_Scope jm = "")) || negb (bool_decide (jm_Stage jm = "")) ||
        negb (bool_decide (jm_VaultJobID jm = ""))
     then fails BMilestoneExists
     else
       o <~ act (reserve (MkJob (mc_JobID c) repository quote StageScoped BuildMonitorKind None 0 None)) ;;
       match o with
       | None => fails BMilestoneExists
       | Some p =>
         e <~ andthen
           (act (append "pipeline.milestone.opened" (mc_JobID c) "brain" (λ _, JObj
              [("standing_instruction_id", JStr instruction); ("milestone_number", JInt (ms_Number m));
               ("repository", JStr repository); ("quote_usdc", JStr quote);
               ("vault_job_id", JStr (mc_VaultJobID c))])))
           (act (mem_Update org (mc_JobID c) (λ _, milestone_memory c instruction repository quote (ms_Number m)))) ;;
         match e with
         | Some e => _ <~ act (rollback (mc_JobID c) p) ;; fails e
         | None => Ret (Ok c)
         end
       end))
  end.
(** The durable cycle is exactly the one asked for. *)
Definition same_cycle (c : MilestoneCycle) (instruction repository quote : string) (number : Z) (jm : JobMemory) : bool :=
  bool_decide (jm_StandingInstructionID jm = instruction) && (jm_MilestoneNumber jm =? number) &&
  bool_decide (jm_Scope jm = repository) && bool_decide (jm_QuoteUSDC jm = quote) &&
  bool_decide (jm_VaultJobID jm = mc_VaultJobID c) && bool_decide (jm_AssignedWorker jm = BuildMonitorKind).
Definition EnsureMilestone (m : Milestone) : proc (result BErr MilestoneCycle) :=
  match milestoneIdentity m with
  | Err e => fails e
  | Ok (c, instruction, repository, quote) =>
    r <~ OpenMilestone m ;;
    match r with
    | Ok opened => Ret (Ok opened)
    | Err BMilestoneExists =>
      letR (act (mem_Get (mc_JobID c))) (λ jm,
        if same_cycle c instruction repository quote (ms_Number m) jm then Ret (Ok c) else fails BMilestoneExists)
    | Err e => fails e
    end
  end.
(** [Milestones]: the files in order; the rows are sorted by name again. *)
Definition status_of (id : string) (jm : JobMemory) : option MilestoneStatus :=
  if bool_decide (jm_StandingInstructionID jm = "") || negb (bool_decide (jm_AssignedWorker jm = BuildMonitorKind))
  then None
  else Some (MkStatus id (jm_VaultJobID jm) (jm_StandingInstructionID jm) (jm_MilestoneNumber jm) (jm_Scope jm)
               (jm_QuoteUSDC jm) (jm_Stage jm)).
Fixpoint statuses (ids : list string) : proc (result BErr (list MilestoneStatus)) :=
  match ids with
  | [] => Ret (Ok [])
  | id :: r => letR (act (mem_Get id)) (λ jm, letR (statuses r) (λ rest, Ret (Ok (option_list (status_of id jm) ++ rest))))
  end.
Definition Milestones : proc (result BErr (list MilestoneStatus)) :=
  letR (act mem_List) (λ ids, letR (statuses ids) (λ l,
    Ret (Ok (isort (λ a b, String.ltb (st_JobID a) (st_JobID b)) l)))).

(** ** The chain identity and the advance *)
Definition is_bytes32 (v : string) : bool :=
  Nat.eqb (String.length v) 66 && bool_decide (substring 0 2 v = "0x") &&
  bool_decide (is_Some (hex_DecodeString (substring 2 64 v))).
Definition BindVaultJob (quote_oracle : option (string → X → option string)) (jobID vaultJobID : string) :
    proc (option BErr) :=
  if negb (is_bytes32 vaultJobID) then err BVaultID else
  q <~ act (λ _ s, (s, match quote_oracle with Some o => default "" (o vaultJobID (br_ext s)) | None => "" end)) ;;
  act (mem_Update org jobID (λ _ m, (if bool_decide (q = "") then id else m_scope (jm_Scope m) q) (m_vault vaultJobID m))).

Context (flow : option (string → string → string → action (result BErr string))).
Definition ProposeAdvance (jobID : string) : proc (result BErr string) :=
  match flow with
  | None => fails BNotWired
  | Some propose =>
    letR (act (mem_Get jobID)) (λ jm,
      if bool_decide (jm_Scope jm = "") && bool_decide (jm_Stage jm = "") then fails BUnknownJob
      else if bool_decide (jm_QuoteUSDC jm = "") then fails BNoQuote
      else act (propose jobID (jm_VaultJobID jm) (jm_QuoteUSDC jm)))
  end.

Context (get_chain : X → Indexer.ChainStore).
Definition chain_count (kind entity : string) (s : brain) : nat :=
  length (filter (λ e, Indexer.ce_kind e = kind ∧ Indexer.ce_entity e = entity)
            (Indexer.chain_events (Indexer.cdb (get_chain (br_ext s))))).
Definition count_like (kind entity pattern : string) (s : brain) : nat :=
  length (filter (λ r, ev_kind r = kind ∧ ev_entity r = entity ∧ contains_like (json_text (ev_payload r)) pattern = true)
            (events (db (br_store s)))).
(** One job of an observer's round: whether the trigger fired. *)
Definition observe_job (chain_kind : string) (already : string → brain → nat) (fire : string → proc (result BErr unit))
    (jobID : string) : proc (result BErr bool) :=
  r <~ act (mem_Get jobID) ;;
  match r with
  | Err _ => Ret (Ok false)
  | Ok jm =>
    if bool_decide (jm_VaultJobID jm = "") then Ret (Ok false) else
    letR (act (query (chain_count chain_kind (jm_VaultJobID jm)))) (λ n : nat,
      if Nat.eqb n 0 then Ret (Ok false) else
      letR (act (query (already jobID))) (λ prior : nat,
        if Nat.ltb 0 prior then Ret (Ok false) else letR (fire jobID) (λ _, Ret (Ok true))))
  end.
(** The round stops at the first error; the count so far is the answer's. *)
Fixpoint observe_jobs (chain_kind : string) (already : string → brain → nat) (fire : string → proc (result BErr unit))
    (ids : list string) (n : Z) : proc (Z * option BErr) :=
  match ids with
  | [] => Ret (n, None)
  | id :: r =>
    x <~ observe_job chain_kind already fire id ;;
    match x with
    | Err e => Ret (n, Some e)
    | Ok b => observe_jobs chain_kind already fire r (if b then n + 1 else n)
    end
  end.
Definition observe_round (chain_kind : string) (already : string → brain → nat) (fire : string → proc (result BErr unit)) :
    proc (Z * option BErr) :=
  ids <~ act mem_List ;;
  match ids with Err e => Ret (0, Some e) | Ok ids => observe_jobs chain_kind already fire ids 0 end.
Definition advance_pattern : string := quoted "Kind" +:+ ":" +:+ quoted "advance".
Definition ObserveFundingOnce (billing : option (option (string → bool))) : proc (Z * option BErr) :=
  match flow, billing with
  | Some _, Some _ =>
    observe_round "JobFunded" (λ jobID, count_like "approval.requested" jobID advance_pattern)
      (λ jobID, letR (ProposeAdvance jobID) (λ _, Ret (Ok tt)))
  | _, _ => Ret (0, None)
  end.
End Milestone.
