(* ===== verification/Invoices.v ===== *)
(** [internal/brain/billing.go]: the versions of a job's invoice.

    [GenerateInvoice] asks the billing agent ([Billing.Invoice]) for both copies
    and appends the next version; what [invoiceMu] guards is one action.  A nil
    slice is written as an empty one.  [billing] is what the billing agent vouches
    for ([None]: no agent), [quoteGo] [strconv.Quote]. *)
From Stdlib Require Import Ascii String.
From S2P Require Import Prelude GoStr GoTime GoJson Store Like Proc Envelope Worker Brain Accept Milestone.
From S2P Require Freeze Indexer Billing.
#[local] Open Scope Z_scope.
#[local] Open Scope snap_scope.
#[local] Set Default Proof Using "Type".

Section Documents.
Context (quoteGo : string → string).
Definition InvoiceDisclaimer : string :=
  "Amounts are drawn exclusively from on-chain records; stages listed as gaps have no on-chain record yet and are not billed.".
Definition outcome_text (o : Billing.Outcome) : string :=
  match o with
  | Billing.OutcomeMatched => "matched"
  | Billing.OutcomePendingSettlement => "pending-settlement"
  | Billing.OutcomeRecordedNotAttributed => "recorded-not-attributed"
  | Billing.OutcomeOutsidePolicy => "outside-policy"
  end.
Definition text_map (l : list (string * string)) : jval := JObj ((λ kv, (kv.1, JStr kv.2)) <$> l).
Definition line_json (l : Billing.Line) : jval :=
  JObj ([("kind", JStr (Billing.ln_Kind l)); ("txHash", JStr (Billing.ln_TxHash l));
         ("block", JInt (Billing.ln_Block l)); ("logIndex", JInt (Billing.ln_LogIndex l));
         ("payload", text_map (Billing.ln_Payload l))] ++ opt_str "receiptHash" (Billing.ln_ReceiptHash l)).
Definition gap_json (g : Billing.Gap) : jval :=
  JObj ([("stage", JStr (Billing.gp_Stage g)); ("cause", JStr (Billing.gp_Cause g))] ++
        opt_str "detail" (Billing.gp_Detail g)).
Definition totals_json (t : Billing.Totals) : jval :=
  JObj (opt_str "fundedAtomic" (Billing.to_Funded t) ++ opt_str "advancePrincipalAtomic" (Billing.to_Principal t) ++
        opt_str "advanceFeeAtomic" (Billing.to_Fee t) ++ opt_str "expenseTotalAtomic" (Billing.to_Expenses t) ++
        opt_str "settlementAdvanceRepaidAtomic" (Billing.to_Repaid t) ++ opt_str "operatorNetAtomic" (Billing.to_Net t)).
Definition invoice_json (title : string) (d : Billing.InvoiceDoc) : jval :=
  JObj ([("copy", JStr (Billing.iv_Copy d)); ("jobId", JStr (Billing.iv_JobID d));
         ("vaultJobId", JStr (Billing.iv_VaultJobID d)); ("status", JStr (Billing.iv_Status d));
         ("labels", JObj (opt_str "title" title)); ("lines", JArr (line_json <$> Billing.iv_Lines d));
         ("gaps", JArr (gap_json <$> Billing.iv_Gaps d)); ("totals", totals_json (Billing.iv_Totals d))] ++
        opt_str "deliveryHash" (Billing.iv_DeliveryHash d) ++
        [("generatedAt", JTime (Billing.iv_GeneratedAt d)); ("disclaimer", JStr InvoiceDisclaimer)]).
Definition outcome_json (o : Billing.JoinOutcome) : jval :=
  JObj (opt_str "receiptHash" (Billing.jo_ReceiptHash o) ++ opt_str "resource" (Billing.jo_Resource o) ++
        [("outcome", JStr (outcome_text (Billing.jo_Outcome o)))]).
Definition billing_alert_json (a : Billing.BillingAlert) : jval :=
  match a with
  | Billing.ProjectionDivergence field e p =>
    JObj [("kind", JStr "projection-divergence");
          ("message", JStr (field +:+ ": chain_events say " +:+ quoteGo e +:+ ", chain_job_financials say " +:+
                            quoteGo p +:+ " — reporting both, resolving neither"));
          ("data", text_map [("field", field); ("fromEvents", e); ("fromProjection", p)])]
  | Billing.ExpenseOutsidePolicy h amount tx =>
    JObj [("kind", JStr "expense-outside-policy");
          ("message", JStr ("on-chain expense " +:+ h +:+ " (" +:+ amount +:+
             " atomic) has no daemon-side purchase record — money may have moved outside the policy gate"));
          ("data", text_map [("receiptHash", h); ("amountAtomic", amount); ("txHash", tx)])]
  end.
Record InvoiceRecord := MkRecord { rc_Version : Z; rc_Trigger : string; rc_Title : string; rc_Set : Billing.InvoiceSet }.
Definition record_json (r : InvoiceRecord) : jval :=
  let st := rc_Set r in
  JObj ([("version", JInt (rc_Version r)); ("trigger", JStr (rc_Trigger r));
         ("owner", invoice_json (rc_Title r) (Billing.st_Owner st));
         ("customer", invoice_json (rc_Title r) (Billing.st_Customer st));
         ("reconciliation", JObj [("outcomes", JArr (outcome_json <$> Billing.st_Outcomes st))])] ++
        (if bool_decide (Billing.st_Alerts st = []) then []
         else [("alerts", JArr (billing_alert_json <$> Billing.st_Alerts st))])).
End Documents.

Section Invoices.
Context {X : Type} (quoteGo : string → string) (billing : option (option (string → bool))).
Context (get_chain : X → Indexer.ChainStore) (set_chain : Indexer.ChainStore → X → X).
Abbreviation brain := (Brain X).
Abbreviation proc := (proc brain Task (option BErr)).
Abbreviation action A := (time → brain → brain * A).

(** The provenance of the job's draft. *)
Definition provenance_of (jm : JobMemory) : list Billing.SourceProvenance :=
  match jm_Draft jm ≫= deliverable_of_json with
  | Some d => (λ p, Billing.MkProvenance (pv_Resource p) (pv_ReceiptHash p)) <$> dv_Provenance d
  | None => []
  end.
(** The version and the append, serialised. *)
Definition next_version (known : option (string → bool)) (jobID trigger : string) (jm : JobMemory) : action (result BErr InvoiceRecord) := λ now s,
  match query (count "billing.invoice" jobID) now s with
  | (s, Err e) => (s, Err e)
  | (s, Ok prior) =>
    let '(ch, r) := Billing.Invoice known now
                      (Billing.MkRequest jobID (jm_VaultJobID jm) (provenance_of jm)) (get_chain (br_ext s)) in
    let s := with_ext (set_chain ch (br_ext s)) s in
    match r with
    | Err _ => (s, Err BBilling)
    | Ok inv =>
      let rec := MkRecord (Z.of_nat prior + 1) trigger (jm_Scope jm) inv in
      match append "billing.invoice" jobID "billing" (λ _, record_json quoteGo rec) now s with
      | (s, None) => (s, Ok rec)
      | (s, Some e) => (s, Err e)
      end
    end
  end.
Definition GenerateInvoice (jobID trigger : string) : proc (result BErr InvoiceRecord) :=
  match billing with
  | None => fails BNotWired
  | Some known =>
    letR (act (mem_Get jobID)) (λ jm,
      if bool_decide (jm_Scope jm = "") && bool_decide (jm_Stage jm = "") then fails BUnknownJob
      else act (next_version known jobID trigger jm))
  end.

Definition settlement_pattern : string := quoted "trigger" +:+ ":" +:+ quoted "settlement-observed".
Definition settlement_versions (jobID : string) : brain → nat := count_like "billing.invoice" jobID settlement_pattern.
Definition ObserveSettlementsOnce : proc (Z * option BErr) :=
  match billing with
  | None => Ret (0, None)
  | Some _ =>
    observe_round get_chain "JobSettled" settlement_versions
      (λ jobID, letR (GenerateInvoice jobID "settlement-observed") (λ _, Ret (Ok tt)))
  end.
End Invoices.
