(* ===== verification/Hub.v ===== *)
(** The hub as a whole: every operation the daemon starts on it.

    [Reach] is what the hub is handed from outside ([Accept.Seams], the advance
    flow, the chain tables) and the functions of other packages it uses.  An
    [operation] is one call: from the owner's side, the customer's, or one of
    the observers' rounds.  [AdvanceFlow] is what the hub relies on of the
    advance flow: it proposes through the approval requests, it does not touch
    the jobs. *)
From Stdlib Require Import Ascii String.
From S2P Require Import Prelude GoStr GoTime GoJson Store Like Proc Envelope Worker Brain Accept Milestone Invoices.
From S2P Require Freeze Indexer Billing.
#[local] Open Scope Z_scope.
#[local] Open Scope snap_scope.
#[local] Set Default Proof Using "Type".

Record Reach {X : Type} := MkReach {
  re_seams : Seams (X := X);
  re_flow : option (string → string → string → time → Brain X → Brain X * result BErr string);
  re_sha256hex : string → string;
  re_hex : string → string;
  re_quoteGo : string → string;
  re_err_text : BErr → string;
  re_get_chain : X → Indexer.ChainStore;
  re_set_chain : Indexer.ChainStore → X → X }.
Arguments Reach : clear implicits.

(** The events whose order or number the hub answers for. *)
Definition guarded : list string := ["billing.invoice"; "pipeline.milestone.completed"].
(** The log grew by events that are not of these kinds. *)
Definition grows {X} (s s' : Brain X) : Prop :=
  ∃ rows, events (db (br_store s')) = events (db (br_store s)) ++ rows ∧ Forall (λ r, ev_kind r ∉ guarded) rows.
Class AdvanceFlow {X} (r : Reach X) : Prop := {
  flow_calm f a b c now s : re_flow r = Some f → calm s (f a b c now s).1;
  flow_grows f a b c now s : re_flow r = Some f → grows s (f a b c now s).1 }.

Section Hub.
Context {X : Type} (cfg : Wiring X) (r : Reach X).
Abbreviation brain := (Brain X).
Abbreviation proc := (proc brain Task (option BErr)).
Abbreviation sm := (re_seams r).
Definition quietly {A} (p : proc A) : proc unit := bindP p (λ _, Ret tt).
Inductive operation : proc unit → Prop :=
| op_request j request : operation (quietly (HandleOwnerRequest cfg j request))
| op_confirm j by_ : operation (quietly (Confirm cfg j by_))
| op_reject j by_ reason : operation (quietly (Reject cfg j by_ reason))
| op_deliver e : operation (quietly (Deliver cfg e))
| op_resume j : operation (quietly (ResumeMilestone cfg j))
| op_mint raw j : operation (quietly (MintAcceptCredential cfg (re_sha256hex r) (re_hex r) raw j))
| op_verify j token : operation (quietly (VerifyAcceptCredential (X := X) (re_sha256hex r) j token))
| op_accept j : operation (quietly (AcceptDelivery cfg (re_err_text r) sm (re_get_chain r) j))
| op_open m : operation (quietly (OpenMilestone cfg (re_sha256hex r) m))
| op_ensure m : operation (quietly (EnsureMilestone cfg (re_sha256hex r) m))
| op_milestones : operation (quietly (Milestones (X := X)))
| op_bind j v : operation (quietly (BindVaultJob cfg (sm_quote sm) j v))
| op_propose j : operation (quietly (ProposeAdvance (re_flow r) j))
| op_funding : operation (quietly (ObserveFundingOnce (re_flow r) (re_get_chain r) (sm_billing sm)))
| op_invoice j : operation (quietly (GenerateInvoice (re_quoteGo r) (sm_billing sm) (re_get_chain r) (re_set_chain r) j "owner-request"))
| op_settlements : operation (quietly (ObserveSettlementsOnce (re_quoteGo r) (sm_billing sm) (re_get_chain r) (re_set_chain r))).
End Hub.

(** ** Steps that leave the jobs alone, on a growing log *)
Section Tame.
Context {X : Type}.
Abbreviation brain := (Brain X).
#[global] Instance grows_preorder : PreOrder (grows (X := X)).
Proof.
  split; [intros s; exists []; split; [by rewrite app_nil_r|constructor]|].
  intros a b c (r1 & E1 & H1) (r2 & E2 & H2). exists (r1 ++ r2). split; [by rewrite E2, E1, app_assoc|].
  by apply Forall_app.
Qed.
Definition tame (s s' : brain) : Prop := calm s s' ∧ grows s s'.
#[global] Instance tame_preorder : PreOrder tame.
Proof.
  split; [by split; [repeat split|reflexivity]|]. intros a b c [C1 G1] [C2 G2].
  split; [by eapply calm_trans|by etransitivity].
Qed.
Lemma grows_same (s s' : brain) : db (br_store s') = db (br_store s) → grows s s'.
Proof. intros E. exists []. split; [by rewrite E, app_nil_r|constructor]. Qed.
(** An append adds one row, or nothing and an error. *)
Lemma append_cases kind entity actor payload now (s s' : brain) e : append kind entity actor payload now s = (s', e) →
  calm s s' ∧ br_ext s' = br_ext s ∧
  ((e = None ∧ events (db (br_store s')) = events (db (br_store s)) ++
      [row_of (db (br_store s)) now (MkEvent zeroTime kind entity actor (payload now))]) ∨
   (is_Some e ∧ db (br_store s') = db (br_store s))).
Proof.
  unfold append. destruct (Append _ _ _) as [st q] eqn:E. intros [= <- <-]. split; [by repeat split|]. split; [done|].
  cbn. apply Append_cases in E as [[-> Hd]|[[e ->] Hd]]; [left; by rewrite Hd|right; eauto].
Qed.
Lemma append_tame kind entity actor payload now (s : brain) : kind ∉ guarded →
  tame s (append kind entity actor payload now s).1.
Proof.
  intros Hk. destruct (append _ _ _ _ now s) as [s' e] eqn:E. apply append_cases in E as (Hc & _ & [[_ He]|[_ He]]).
  - split; [done|]. eexists. split; [exact He|]. by constructor.
  - split; [done|]. by apply grows_same.
Qed.
Lemma stmt_same e (st st' : Store) q : stmt e st = (st', q) → db st' = db st.
Proof. intros H. by apply stmt_cases in H as [? _]. Qed.
Lemma query_tame {A} (f : brain → A) now s : tame s (query f now s).1.
Proof.
  unfold query. destruct (stmt _ _) as [st q] eqn:E. apply stmt_same in E.
  destruct q; (split; [by repeat split|by apply grows_same]).
Qed.
Lemma disk_tame (s : brain) : tame s (disk_fails s).1.
Proof. unfold disk_fails. destruct (br_disk s); (split; [by repeat split|by apply grows_same]). Qed.
Lemma projectJobRow_tame org jm (s : brain) : tame s (projectJobRow org jm s).1.
Proof.
  unfold projectJobRow, bindM. destruct (stmt ErrQuery (br_store s)) as [st q] eqn:E1. pose proof (stmt_same _ _ _ _ E1).
  destruct q as [u|e]; [|split; [by repeat split|by apply grows_same]].
  destruct (stmt ErrQuery st) as [st2 q2] eqn:E2. pose proof (stmt_same _ _ _ _ E2).
  destruct q2; (split; [by repeat split|apply grows_same; cbn; congruence]).
Qed.
Lemma mem_Update_tame org id fn now (s : brain) : tame s (mem_Update org id fn now s).1.
Proof.
  unfold mem_Update. pose proof (disk_tame s) as Hd. destruct (disk_fails s) as [s1 [|]]; [done|].
  etransitivity; [exact Hd|]. etransitivity; [|apply projectJobRow_tame]. split; [by repeat split|by apply grows_same].
Qed.
Lemma mem_Get_tame id now (s : brain) : tame s (mem_Get id now s).1.
Proof. unfold mem_Get. pose proof (disk_tame s) as Hd. by destruct (disk_fails s). Qed.
Lemma mem_List_tame now (s : brain) : tame s (mem_List now s).1.
Proof. unfold mem_List. pose proof (disk_tame s) as Hd. by destruct (disk_fails s). Qed.
Lemma ext_tame x (s : brain) : tame s (with_ext x s).
Proof. split; [by repeat split|by apply grows_same]. Qed.
(** The guarded actions leave the jobs alone too. *)
Lemma query_calm {A} (f : brain → A) now s s' q : query f now s = (s', q) → calm s s' ∧ br_ext s' = br_ext s.
Proof. unfold query. destruct (stmt _ _) as [st x]. destruct x; intros [= <- <-]; by repeat split. Qed.
Lemma observe_calm sm id jm now (s : brain) : calm s (observe_once sm id jm now s).1.
Proof.
  unfold observe_once. destruct (query _ now s) as [s1 q] eqn:Eq. apply query_calm in Eq as [Hc _].
  destruct q as [prior|e]; [|done]. destruct (Nat.ltb _ prior); [done|].
  destruct (sm_milestone sm) as [o|]; [|eapply calm_trans; [exact Hc|apply append_calm]].
  destruct (or_AdvanceLanded o (jm_VaultJobID jm) (br_ext s1)) as [[|]|],
    (or_SettlementLanded o (jm_VaultJobID jm) (br_ext s1)) as [[|]|]; try done.
  destruct (or_AdvanceRateBps o (br_ext s1)) as [rate|]; [|done]. eapply calm_trans; [exact Hc|apply append_calm].
Qed.
Lemma version_calm quoteGo get set known id trigger jm now (s : brain) :
  calm s (next_version quoteGo get set known id trigger jm now s).1.
Proof.
  unfold next_version. destruct (query _ now s) as [s1 q] eqn:Eq. apply query_calm in Eq as [Hc _].
  destruct q as [prior|e]; [|done]. destruct (Billing.Invoice _ _ _ (get (br_ext s1))) as [ch [inv|e]]; [|done].
  destruct (append _ _ _ _ now _) as [s2 e] eqn:Ea. apply append_cases in Ea as (Ha & _).
  assert (calm s s2); [|by destruct e]. eapply calm_trans; [exact Hc|]. exact Ha.
Qed.
End Tame.

(** ** Every action of every operation *)
Section Every.
Context {X : Type} (cfg : Wiring X) (r : Reach X) `{Hflow : !AdvanceFlow r}.
Abbreviation brain := (Brain X).
Abbreviation proc := (proc brain Task (option BErr)).
Context (calls : Prop) (P : brain → brain → Prop) (P_tame : ∀ s s', tame s s' → P s s').
Abbreviation every := (Proc.every (T := Task) (R := option BErr) calls P).
Abbreviation org := (wr_orgID cfg).

Lemma every_tame {A} (f : time → brain → brain * A) : (∀ now s, tame s (f now s).1) → every (act f).
Proof using P_tame. intros Hf. apply every_act. intros now s. apply P_tame, Hf. Qed.
Lemma every_look {A} (f : time → brain → A) : every (act (λ now s, (s, f now s))).
Proof using P_tame. apply every_tame. intros now s. reflexivity. Qed.
Lemma every_append kind entity actor payload : kind ∉ guarded → every (act (append kind entity actor payload)).
Proof using P_tame. intros Hk. apply every_tame. intros now s. by apply append_tame. Qed.
Lemma every_memory o id fn : every (act (mem_Update o id fn)).
Proof using P_tame. apply every_tame. intros now s. apply mem_Update_tame. Qed.
Lemma every_get id : every (act (mem_Get id)).
Proof using P_tame. apply every_tame. intros now s. apply mem_Get_tame. Qed.
Lemma every_list : every (act mem_List).
Proof using P_tame. apply every_tame. intros now s. apply mem_List_tame. Qed.
Lemma every_query {A} (f : brain → A) : every (act (query f)).
Proof using P_tame. apply every_tame. intros now s. apply query_tame. Qed.
Lemma every_trying {A} (p : proc (option BErr)) (k : proc (result BErr A)) : every p → every k → every (trying p k).
Proof using. intros Hp Hk. apply every_bind; [done|]. by intros [e|]. Qed.
Lemma every_letR {A C} (p : proc (result BErr A)) (k : A → proc (result BErr C)) :
  every p → (∀ a, every (k a)) → every (letR p k).
Proof using. intros Hp Hk. apply every_bind; [done|]. intros [a|e]; [apply Hk|done]. Qed.
Lemma every_andthen (p k : proc (option BErr)) : every p → every k → every (andthen p k).
Proof using. intros Hp Hk. apply every_bind; [done|]. by intros [e|]. Qed.
Lemma every_quietly {A} (p : proc A) : every p → every (quietly p).
Proof using. intros Hp. by apply every_bind. Qed.
Lemma unguarded kind : bool_decide (kind ∉ guarded) = true → kind ∉ guarded.
Proof using. apply bool_decide_eq_true_1. Qed.
Lemma message_unguarded typ : ("brain.msg." +:+ typ) ∉ guarded.
Proof using. unfold guarded. rewrite !not_elem_of_cons. split_and!; [done..|apply not_elem_of_nil]. Qed.
Lemma every_record (e : Envelope) entity actor : every (record e entity actor).
Proof using P_tame.
  unfold record. destruct (en_Payload e); [|done]. apply every_append, message_unguarded.
Qed.
Lemma every_message id typ v : every (brain_message id typ v).
Proof using P_tame. apply every_look. Qed.
Lemma every_tell id typ v : every (tell id typ v).
Proof using P_tame. apply every_bind; [apply every_message|]. intros e. apply every_record. Qed.

(** *** Acceptance, milestones, advances and invoices *)
Abbreviation sm := (re_seams r).
Context (P_claim : ∀ j now s, P s (claim_accept j now s).1).
Context (P_reserve : ∀ j now s, js_Stage j = StageScoped → P s (reserve j now s).1).
Context (P_rollback : ∀ id p now s, P s (rollback id p now s).1).
Context (P_observe : ∀ id jm now s, P s (observe_once sm id jm now s).1).
Context (P_version : ∀ known id trigger jm now s,
  P s (next_version (re_quoteGo r) (re_get_chain r) (re_set_chain r) known id trigger jm now s).1).

Lemma every_mint raw j : every (MintAcceptCredential cfg (re_sha256hex r) (re_hex r) raw j).
Proof using P_tame.
  unfold MintAcceptCredential. apply every_bind; [apply every_look|]. intros [[p o]|]; [|done].
  destruct (_ && _); [done|]. destruct raw; [|done]. apply every_trying; [apply every_memory|].
  apply every_trying; [|done]. by apply every_append, unguarded.
Qed.
Lemma every_verify j token : every (VerifyAcceptCredential (re_sha256hex r) j token).
Proof using P_tame. apply every_bind; [apply every_get|]. done. Qed.
Lemma every_record_observation j : every (recordMilestoneObservation (re_err_text r) sm j).
Proof using P_tame P_observe.
  unfold recordMilestoneObservation, observeMilestoneCompletion. apply every_bind.
  - apply every_bind; [apply every_get|]. intros [jm|e]; [|done]. case_bool_decide; [done|]. apply every_act, P_observe.
  - intros [e|]; [|done]. apply every_bind; [by apply every_append, unguarded|done].
Qed.
Lemma every_pending j note : every (pending j note).
Proof using P_tame. apply every_trying; [|done]. by apply every_append, unguarded. Qed.
Lemma every_settled j v : every (settledByCustomer sm (re_get_chain r) j v).
Proof using P_tame.
  unfold settledByCustomer. destruct (sm_landed sm) as [landed|]; [|done]. case_bool_decide; [done|].
  apply every_bind; [apply every_look|]. intros [[|]|]; [|done..]. apply every_letR.
  - destruct (sm_billing sm); [apply every_query|done].
  - intros row. apply every_trying; [|done]. by apply every_append, unguarded.
Qed.
Lemma every_settle j : every (settleOnChain sm (re_get_chain r) j).
Proof using P_tame.
  unfold settleOnChain. apply every_letR; [apply every_get|]. intros jm. apply every_letR; [apply every_settled|].
  intros [st|]; [done|]. destruct (sm_settle sm) as [settle|]; [|apply every_pending].
  case_bool_decide; [apply every_pending|]. apply every_letR.
  - apply every_tame. intros now s. destruct (settle _ _). apply ext_tame.
  - intros out. destruct (negb _); [apply every_pending|].
    destruct (Funding.co_Reverted out); (apply every_trying; [by apply every_append, unguarded|done]).
Qed.
Lemma every_accept j : every (AcceptDelivery cfg (re_err_text r) sm (re_get_chain r) j).
Proof using P_tame P_claim P_observe.
  unfold AcceptDelivery. apply every_trying; [apply every_look|]. apply every_letR; [apply every_act, P_claim|].
  intros [|].
  - apply every_trying; [apply every_memory|]. apply every_letR; [apply every_settle|]. intros st.
    case_bool_decide; [|done]. apply every_bind; [apply every_record_observation|done].
  - apply every_bind; [|done]. apply every_bind; [apply every_query|]. intros [n|e]; [|done].
    destruct (Nat.ltb 0 n); [apply every_record_observation|done].
Qed.
Lemma every_open m : every (OpenMilestone cfg (re_sha256hex r) m).
Proof using P_tame P_reserve P_rollback.
  unfold OpenMilestone. destruct (milestoneIdentity _ m) as [[[[c i] rp] q]|e]; [|done].
  apply every_trying; [apply every_look|]. apply every_letR; [apply every_get|]. intros jm.
  destruct (_ || _); [done|]. apply every_bind; [apply every_act; intros now s; by apply P_reserve|].
  intros [p|]; [|done]. apply every_bind.
  - apply every_andthen; [by apply every_append, unguarded|apply every_memory].
  - intros [e|]; [|done]. apply every_bind; [apply every_act, P_rollback|done].
Qed.
Lemma every_ensure m : every (EnsureMilestone cfg (re_sha256hex r) m).
Proof using P_tame P_reserve P_rollback.
  unfold EnsureMilestone. destruct (milestoneIdentity _ m) as [[[[c i] rp] q]|e]; [|done].
  apply every_bind; [apply every_open|]. intros [o|e]; [done|]. destruct e; try done.
  apply every_letR; [apply every_get|]. intros jm. by destruct (same_cycle _ _ _ _ _ _).
Qed.
Lemma every_milestones : every Milestones.
Proof using P_tame.
  apply every_letR; [apply every_list|]. intros ids. apply every_letR; [|done].
  induction ids as [|id ids IH]; [done|]. apply every_letR; [apply every_get|]. intros jm. by apply every_letR.
Qed.
Lemma every_bindVault j v : every (BindVaultJob cfg (sm_quote sm) j v).
Proof using P_tame.
  unfold BindVaultJob. destruct (negb _); [done|]. apply every_bind; [apply every_look|]. intros q. apply every_memory.
Qed.
Lemma every_propose j : every (ProposeAdvance (re_flow r) j).
Proof using P_tame Hflow.
  unfold ProposeAdvance. destruct (re_flow r) as [f|] eqn:Ef; [|done]. apply every_letR; [apply every_get|]. intros jm.
  destruct (_ && _); [done|]. case_bool_decide; [done|]. apply every_tame. intros now s.
  split; [by apply flow_calm|by apply flow_grows].
Qed.
Lemma every_round chain_kind already fire : (∀ j, every (fire j)) →
  every (observe_round (re_get_chain r) chain_kind already fire).
Proof using P_tame.
  intros Hf. apply every_bind; [apply every_list|]. intros [ids|e]; [|done]. generalize 0 as n.
  induction ids as [|id ids IH]; intros n; [done|]. apply every_bind; [|intros [b|e]; [apply IH|done]].
  apply every_bind; [apply every_get|]. intros [jm|e]; [|done]. case_bool_decide; [done|].
  apply every_letR; [apply every_query|]. intros k. destruct (Nat.eqb k 0); [done|].
  apply every_letR; [apply every_query|]. intros k'. destruct (Nat.ltb 0 k'); [done|]. by apply every_letR.
Qed.
Lemma every_funding : every (ObserveFundingOnce (re_flow r) (re_get_chain r) (sm_billing sm)).
Proof using P_tame Hflow.
  unfold ObserveFundingOnce. destruct (re_flow r) as [f|] eqn:Ef; [|done]. destruct (sm_billing sm); [|done].
  apply every_round. intros j. apply every_letR; [|done]. rewrite <-Ef. apply every_propose.
Qed.
Lemma every_invoice j trigger :
  every (GenerateInvoice (re_quoteGo r) (sm_billing sm) (re_get_chain r) (re_set_chain r) j trigger).
Proof using P_tame P_version.
  unfold GenerateInvoice. destruct (sm_billing sm); [|done]. apply every_letR; [apply every_get|]. intros jm.
  destruct (_ && _); [done|]. apply every_act, P_version.
Qed.
Lemma every_settlements :
  every (ObserveSettlementsOnce (re_quoteGo r) (sm_billing sm) (re_get_chain r) (re_set_chain r)).
Proof using P_tame P_version.
  unfold ObserveSettlementsOnce. destruct (sm_billing sm) eqn:Eb; [|done]. apply every_round. intros j.
  apply every_letR; [|done]. rewrite <-Eb. apply every_invoice.
Qed.
End Every.

(** *** The handlers, where only the log matters *)
Section Handlers.
Context {X : Type} (cfg : Wiring X) (r : Reach X) `{Hflow : !AdvanceFlow r}.
Abbreviation brain := (Brain X).
Abbreviation proc := (proc brain Task (option BErr)).
Context (P : brain → brain → Prop) (P_grows : ∀ s s', grows s s' → P s s').
Abbreviation every := (Proc.every (T := Task) (R := option BErr) True P).
Abbreviation org := (wr_orgID cfg).

Lemma P_tame s s' : tame s s' → P s s'.
Proof using P_grows. intros [_ H]. auto. Qed.
Lemma every_quick {A} (f : time → brain → brain * A) :
  (∀ now s, db (br_store (f now s).1) = db (br_store s)) → every (act f).
Proof using P_grows. intros H. apply every_act. intros now s. apply P_grows, grows_same, H. Qed.
Lemma every_dispatch t : every (dispatchTask t).
Proof using P_grows.
  unfold dispatchTask. apply every_bind; [by apply every_quick|]. intros [|]; [done|].
  split_and!; [done| |done]. intros now s. apply P_grows, grows_same. by destruct (br_tasks s !! t_job t).
Qed.
Lemma every_resume j : every (ResumeMilestone cfg j).
Proof using P_grows.
  unfold ResumeMilestone. apply every_bind.
  - apply every_quick. intros now s. destruct ((lookup_job j now s).2) as [[p o]|]; [|done].
    destruct (negb _); [done|]. case_bool_decide; [done|]. case_bool_decide; [|done]. by destruct (br_tasks s !! j).
  - intros [[[p kind]|]|e]; [|done..]. apply every_bind; [apply every_dispatch|]. intros [e|]; [|done].
    apply every_bind.
    + apply every_quick. intros now s. destruct (br_heap s !! p); [|done]. by case_bool_decide.
    + intros _. apply every_andthen; [apply every_memory, P_tame|done].
Qed.
Lemma every_request e : every (onOwnerRequest cfg e).
Proof using P_grows.
  unfold onOwnerRequest. destruct (wr_scoper cfg) as [sc|]; [|done]. apply every_andthen; [apply every_look, P_tame|].
  destruct (Decode _ _); [|done]. apply every_bind; [apply every_look, P_tame|]. intros [|]; [done|].
  destruct (sc _) as [[[a b] c]|]; [|done]. apply every_bind; [by apply every_quick|]. intros _.
  apply every_andthen; [apply every_memory, P_tame|apply every_tell, P_tame].
Qed.
Lemma every_confirm e : every (onOwnerConfirm cfg e).
Proof using P_grows.
  unfold onOwnerConfirm. destruct (decision_by e) as [[b rs]|]; [|done]. case_bool_decide; [done|].
  apply every_bind.
  - apply every_quick. intros now s. destruct ((lookup_job _ now s).2) as [[p o]|]; [|done]. by case_bool_decide.
  - intros [[p kind]|x]; [|done]. apply every_andthen; [apply every_memory, P_tame|].
    apply every_andthen; [apply every_memory, P_tame|]. case_bool_decide; [apply every_resume|].
    apply every_bind; [by apply every_quick|]. intros _. apply every_dispatch.
Qed.
Lemma every_reject e : every (onOwnerReject cfg e).
Proof using P_grows.
  unfold onOwnerReject. destruct (decision_by e) as [[b rs]|]; [|done]. apply every_bind.
  - apply every_quick. intros now s. by destruct (br_jobs s !! en_JobID e).
  - intros [|]; [|done]. cbn [negb]. apply every_andthen; apply every_memory, P_tame.
Qed.
Lemma every_deliver e : every (Deliver cfg e).
Proof using P_grows.
  unfold Deliver. apply every_andthen; [apply every_record, P_tame|]. unfold route. case_bool_decide; [|done].
  case_bool_decide; [apply every_request|]. case_bool_decide; [apply every_confirm|].
  case_bool_decide; [apply every_reject|done].
Qed.
Lemma every_owner j typ v : every (owner_says cfg j typ v).
Proof using P_grows. apply every_bind; [apply every_look, P_tame|]. intros e. apply every_deliver. Qed.

Lemma every_report kind e : every (onWorkerReport cfg kind e).
Proof using P_grows.
  unfold onWorkerReport. apply every_bind; [apply every_look, P_tame|]. intros [[p o]|]; [|done].
  case_bool_decide; [done|]. apply every_bind; [apply every_look, P_tame|]. intros [o'|]; [|done].
  destruct (_ && _); [done|]. destruct (_ && _); [done|]. destruct (negb _).
  - destruct (Decode _ _); [|done]. apply every_bind; [by apply every_quick|]. intros _.
    apply every_andthen; [apply every_memory, P_tame|]. by split.
  - apply every_bind; [by apply every_quick|]. intros _.
    apply every_andthen; [apply every_memory, P_tame|apply every_tell, P_tame].
Qed.
Lemma every_verdict kind e : every (onQAVerdict cfg kind e).
Proof using P_grows.
  unfold onQAVerdict. apply every_bind; [apply every_look, P_tame|]. intros [[p o]|]; [|done].
  destruct (_ || _); [done|]. destruct (negb _); [done|]. destruct (Decode _ _) as [v|]; [|done].
  case_bool_decide; [done|]. destruct (qv_Passed v).
  - apply every_bind.
    + apply every_quick. intros now s. destruct (br_heap s !! p); [|done]. by case_bool_decide.
    + intros [d|]; [|done]. apply every_andthen; [apply every_memory, P_tame|apply every_tell, P_tame].
  - apply every_bind.
    + apply every_quick. intros now s. unfold claim_bounce. destruct (br_heap s !! p); [|done]. by case_bool_decide.
    + intros [[[rev author] esc]|]; [|done]. apply every_andthen; [apply every_memory, P_tame|].
      destruct esc; (apply every_andthen; [apply every_memory, P_tame|]); [apply every_tell, P_tame|by split].
Qed.
Lemma every_worker kind j e : every (workerReport cfg kind j e).
Proof using P_grows.
  unfold workerReport. destruct (negb _); [done|]. apply every_andthen; [apply every_record, P_tame|].
  case_bool_decide; [|case_bool_decide; [apply every_report|case_bool_decide; [apply every_verdict|case_bool_decide; [|done]]]].
  - unfold onWorkerProgress. destruct (Decode _ _) as [[st n]|]; [apply every_memory, P_tame|done].
  - apply every_bind; [|intros _; apply every_memory, P_tame]. apply every_quick. intros now s.
    by destruct (br_jobs s !! _).
Qed.
Lemma every_handle kind j w : every (handle cfg kind j w).
Proof using P_grows.
  induction w as [x|e k IH|rq k IH|Y f k IH]; cbn [handle]; [done|..].
  - apply every_bind; [apply every_look, P_tame|]. intros e'. apply every_bind; [apply every_worker|]. auto.
  - apply every_bind; [|auto]. apply every_quick. intros now s. unfold purchaseFor. destruct (wr_purchaser cfg); [|done].
    by destruct (_ (stamped _ _ _) _).
  - apply every_bind; [|auto]. apply every_quick. intros now s. by destruct (f _).
Qed.
Lemma every_runTask t : every (runTask (re_err_text r) cfg t).
Proof using P_grows.
  unfold runTask. apply every_bind; [apply every_look, P_tame|]. intros o.
  destruct (wr_workers cfg !! t_kind t) as [w|]; [|done]. destruct o as [[p o]|]; [|done].
  apply every_bind; [apply every_look, P_tame|]. intros [fe|].
  - apply every_bind; [|done]. by apply every_append, unguarded; first apply P_tame.
  - apply every_bind; [apply every_look, P_tame|]. intros sc. apply every_bind; [apply every_message, P_tame|]. intros a.
    apply every_andthen; [apply every_record, P_tame|]. apply every_andthen; [|apply every_handle].
    destruct (t_draft t); [done|apply every_memory, P_tame].
Qed.
Lemma every_finish t x : every (act (finish_task t x)).
Proof using P_grows. by apply every_quick. Qed.

(** Everything the daemon starts. *)
Context (P_observe : ∀ id jm now s, P s (observe_once (re_seams r) id jm now s).1).
Context (P_version : ∀ known id trigger jm now s,
  P s (next_version (re_quoteGo r) (re_get_chain r) (re_set_chain r) known id trigger jm now s).1).
Lemma P_claim j now s : P s (claim_accept j now s).1.
Proof using P_grows.
  apply P_grows, grows_same. unfold claim_accept. destruct ((lookup_job j now s).2) as [[p o]|]; [|done].
  case_bool_decide; [done|]. by case_bool_decide.
Qed.
Lemma P_reserve j now s : js_Stage j = StageScoped → P s (reserve j now s).1.
Proof using P_grows. intros _. apply P_grows, grows_same. unfold reserve. by destruct (br_jobs s !! js_JobID j). Qed.
Lemma P_rollback id p now s : P s (rollback id p now s).1.
Proof using P_grows. apply P_grows, grows_same. unfold rollback. cbn. by case_bool_decide. Qed.
Lemma every_operation p : operation cfg r p → every p.
Proof using P_grows Hflow P_observe P_version.
  destruct 1; apply every_quietly.
  - apply (every_owner j).
  - apply (every_owner j).
  - apply (every_owner j).
  - apply every_deliver.
  - apply every_resume.
  - apply every_mint, P_tame.
  - apply every_verify, P_tame.
  - apply every_accept; auto using P_tame, P_claim.
  - apply every_open; auto using P_tame, P_reserve, P_rollback.
  - apply every_ensure; auto using P_tame, P_reserve, P_rollback.
  - apply every_milestones, P_tame.
  - apply every_bindVault, P_tame.
  - apply every_propose; auto using P_tame.
  - apply every_funding; auto using P_tame.
  - apply every_invoice; auto using P_tame.
  - apply every_settlements; auto using P_tame.
Qed.
End Handlers.
