(* ===== verification/Delivered.v ===== *)
(** What reaches the owner was reviewed: an invariant of the hub ([Brain]) under
    every interleaving of its handlers.

    Nothing is assumed of the author workers, of the order the owner's messages
    arrive in, of the disk, of the store or of the purchases.  The reviewer is
    [qa_Handle]. *)
From Stdlib Require Import Ascii String.
From S2P Require Import Prelude GoStr GoTime GoJson Store Like Proc Envelope Worker Brain Accept Milestone Invoices Hub.
From S2P Require Freeze Purchasing.
#[local] Open Scope Z_scope.
#[local] Open Scope snap_scope.
#[local] Set Default Proof Using "Type".

Create HintDb harmless.

Section Delivered.
Context {X : Type} (cfg : Wiring X).
Context (quoteGo : string → string) (markers : list string).
Abbreviation brain := (Brain X).
Abbreviation proc := (proc brain Task (option BErr)).

(** ** The invariant *)
Definition delivered (o : jobState) : Prop := js_Stage o = StageDeliveryReady ∨ js_Stage o = StageAccepted.
(** The document that was reviewed is the one the reviewer read back from its
    assignment. *)
Definition reviewed (o : jobState) : Prop :=
  ∃ d, js_Draft o = Some d ∧ qv_Passed (Review quoteGo markers (clean_deliverable d)) = true.
Definition spawned (j : string) (s : brain) : Prop := is_Some (br_tasks s !! j).
Record inv (s : brain) : Prop := MkInv {
  inv_delivered : ∀ p o, br_heap s !! p = Some o → delivered o → reviewed o;
  inv_review : ∀ p o, br_heap s !! p = Some o → js_Stage o = StageQAReview → spawned (js_JobID o) s;
  inv_jobs : ∀ j p, br_jobs s !! j = Some p → ∃ o, br_heap s !! p = Some o ∧ js_JobID o = j }.

(** What the goroutine of job [j] knows: the youngest object it has seen, and
    the draft of the only object at or above it that can be under review. *)
Definition note : Type := option (nat * option Deliverable).
Definition knows (j : string) (l : note) (s : brain) : Prop :=
  match l with
  | None => ∀ p o, br_heap s !! p = Some o → js_JobID o = j → js_Stage o ≠ StageQAReview
  | Some (c, od) =>
    (∃ o, br_heap s !! c = Some o ∧ js_JobID o = j) ∧ (∀ p, br_jobs s !! j = Some p → (c ≤ p)%nat) ∧
    (∀ p o, (c ≤ p)%nat → br_heap s !! p = Some o → js_JobID o = j → js_Stage o = StageQAReview →
       p = c ∧ ∃ d, od = Some d ∧ js_Draft o = Some d)
  end.
Definition pre (t : Task) (l : note) : Prop := ∀ d, t_draft t = Some d → ∃ c, l = Some (c, Some d).
Abbreviation respects := (respects inv knows spawned).
Abbreviation holds := (holds knows spawned).
Abbreviation safe := (safe inv knows spawned t_job pre).

(** A step that leaves the jobs other than [o]'s alone. *)
Record quiet (o : option string) (s s' : brain) : Prop := MkQuiet {
  q_ids : ∀ p x, br_heap s !! p = Some x → ∃ x', br_heap s' !! p = Some x' ∧ js_JobID x' = js_JobID x;
  q_jobs : ∀ j p, br_jobs s' !! j = Some p → br_jobs s !! j = Some p ∨
    (length (br_heap s) ≤ p)%nat ∧ ∃ x, br_heap s' !! p = Some x ∧ js_JobID x = j;
  q_review : ∀ p x, br_heap s' !! p = Some x → js_Stage x = StageQAReview → o ≠ Some (js_JobID x) →
    br_heap s !! p = Some x;
  q_delivered : ∀ p x, br_heap s' !! p = Some x → delivered x → o ≠ Some (js_JobID x) →
    ∃ x0, br_heap s !! p = Some x0 ∧ delivered x0 ∧ js_Draft x0 = js_Draft x;
  q_tasks : ∀ j, spawned j s → spawned j s' }.

Lemma quiet_knows o s s' j l : quiet o s s' → o ≠ Some j → knows j l s → knows j l s'.
Proof.
  intros [Hid Hj Hr Hd Ht] Ho. destruct l as [[c od]|]; cbn.
  - intros ((x & Hx & Hxj) & Hle & Hq). split_and!.
    + destruct (Hid _ _ Hx) as (x' & Hx' & He). exists x'. by rewrite He.
    + intros p [Hp|[Hp _]]%Hj; [auto|]. apply lookup_lt_Some in Hx. lia.
    + intros p y Hc Hy Hyj Hst. apply Hq; [done| |done..]. apply Hr; [done..|]. by rewrite Hyj.
  - intros H p y Hy Hyj Hst. eapply H; [|exact Hyj|exact Hst]. apply Hr; [done..|]. by rewrite Hyj.
Qed.
Lemma quiet_respects o s s' : quiet o s s' → inv s →
  (∀ p x, br_heap s' !! p = Some x → o = Some (js_JobID x) →
     (delivered x → reviewed x) ∧ (js_Stage x = StageQAReview → spawned (js_JobID x) s')) →
  respects o s s'.
Proof.
  intros Hq [Hd Hr Hj] Hown. split_and!; [split| |].
  - intros p x Hx Hdx. destruct (decide (o = Some (js_JobID x))) as [He|He]; [by apply (Hown p)|].
    destruct (q_delivered _ _ _ Hq _ _ Hx Hdx He) as (x0 & Hx0 & Hd0 & Hdr).
    destruct (Hd _ _ Hx0 Hd0) as (d & ? & ?). exists d. by rewrite <-Hdr.
  - intros p x Hx Hst. destruct (decide (o = Some (js_JobID x))) as [He|He]; [by apply (Hown p)|].
    eapply q_tasks, Hr; [done| |done]. by eapply q_review.
  - intros j p [Hp|[_ ?]]%(q_jobs _ _ _ Hq); [|done].
    destruct (Hj _ _ Hp) as (x & Hx & Hxj). destruct (q_ids _ _ _ Hq _ _ Hx) as (x' & ? & He). exists x'. by rewrite He.
  - intros j l Ho. by eapply quiet_knows.
  - apply Hq.
Qed.
Lemma quiet_any o s s' : quiet None s s' → quiet o s s'.
Proof. intros [? ? Hr Hd ?]. split; [done..| | |done]; intros; [eapply Hr|eapply Hd]; done. Qed.
Lemma quiet_holds o l s s' : quiet None s s' → holds o l s → holds o l s'.
Proof. intros Hq Hh j Hj. destruct (Hh j Hj) as [? ?]. split; [by eapply quiet_knows|by apply Hq]. Qed.
Lemma quiet_all o s s' : quiet None s s' → inv s → respects o s s'.
Proof.
  intros Hq Hi. destruct (quiet_respects None s s' Hq Hi) as (Hi' & _ & Ht); [done|].
  split; [done|]. split; [|done]. intros j l _. by eapply quiet_knows.
Qed.

(** *** Steps that are quiet *)
Lemma quiet_calm o s s' : calm s s' → quiet o s s'.
Proof. intros (Hh & Hj & Ht). split; unfold spawned; rewrite ?Hh, ?Hj, ?Ht; eauto. Qed.
Lemma quiet_alter o f p s : inv s →
  (∀ x, br_heap s !! p = Some x → js_JobID (f x) = js_JobID x) →
  (∀ x, br_heap s !! p = Some x → o ≠ Some (js_JobID x) →
     js_Stage (f x) ≠ StageQAReview ∧ (delivered (f x) → delivered x ∧ js_Draft x = js_Draft (f x))) →
  quiet o s (with_heap (alter f p (br_heap s)) s).
Proof.
  intros Hi Hid Hf. split; cbn.
  - intros q x Hx. destruct (decide (q = p)) as [->|Hne].
    + exists (f x). rewrite list_lookup_alter_eq, Hx. auto.
    + exists x. by rewrite list_lookup_alter_ne.
  - auto.
  - intros q x Hx Hst Ho. destruct (decide (q = p)) as [->|Hne]; [|by rewrite list_lookup_alter_ne in Hx].
    rewrite list_lookup_alter_eq in Hx. destruct (br_heap s !! p) as [x0|] eqn:E; [|done]. cbn in Hx.
    simplify_eq. rewrite Hid in Ho by done. by destruct (Hf _ eq_refl Ho).
  - intros q x Hx Hd Ho. destruct (decide (q = p)) as [->|Hne].
    + rewrite list_lookup_alter_eq in Hx. destruct (br_heap s !! p) as [x0|] eqn:E; [|done]. cbn in Hx.
      simplify_eq. rewrite Hid in Ho by done. destruct (Hf _ eq_refl Ho) as [_ Hx]. exists x0. split; [done|auto].
    + rewrite list_lookup_alter_ne in Hx by done. eauto.
  - auto.
Qed.
(** A job set to a stage before review, or to an end. *)
Definition cold (st : string) : Prop := st ∉ [StageQAReview; StageDeliveryReady; StageAccepted].
#[global] Instance cold_dec st : Decision (cold st) := _.
Lemma cold_stage f p s : inv s → (∀ x, js_JobID (f x) = js_JobID x ∧ cold (js_Stage (f x))) →
  quiet None s (with_heap (alter f p (br_heap s)) s).
Proof.
  intros Hi Hf. apply quiet_alter; [done|intros; apply Hf|]. intros x _ _. destruct (Hf x) as [_ Hc].
  unfold cold in Hc. split; [set_solver|]. intros [Hd|Hd]; rewrite Hd in Hc; set_solver.
Qed.
Lemma quiet_insert j s : inv s → cold (js_Stage j) → quiet None s (insert_job j s).
Proof.
  intros Hi Hc. unfold cold in Hc. split; cbn.
  - intros p x Hx. exists x. split; [|done]. by apply lookup_app_l_Some.
  - intros k p. destruct (decide (k = js_JobID j)) as [->|Hne].
    + rewrite lookup_insert_eq. intros [= <-]. right. split; [done|]. exists j. split; [|done].
      by rewrite list_lookup_middle.
    + rewrite lookup_insert_ne by done. auto.
  - intros p x [Hx|[_ Hx]]%lookup_app_Some Hst; [done|]. apply list_lookup_singleton_Some in Hx as [_ <-].
    exfalso. rewrite Hst in Hc. set_solver.
  - intros p x [Hx|[_ Hx]]%lookup_app_Some Hd; [eauto|]. apply list_lookup_singleton_Some in Hx as [_ <-].
    exfalso. destruct Hd as [Hd|Hd]; rewrite Hd in Hc; set_solver.
  - auto.
Qed.

(** ** Handlers whose every step is quiet *)
Definition harmless {A} (p : proc A) : Prop :=
  ∀ o l (Q : A → note → Prop), (∀ a, Q a l) → safe o l p Q.
Lemma harmless_ret {A} (a : A) : harmless (Ret a).
Proof. intros o l Q HQ. apply HQ. Qed.
Lemma harmless_act {A} (f : time → brain → brain * A) :
  (∀ now s, inv s → quiet None s (f now s).1) → harmless (act f).
Proof.
  intros Hf o l Q HQ now s Hi Hh. split; [by apply quiet_all, Hi; apply Hf|]. exists l.
  split; [|apply HQ]. eapply quiet_holds; [by apply Hf|done].
Qed.
Lemma harmless_calm {A} (f : time → brain → brain * A) : (∀ now s, calm s (f now s).1) → harmless (act f).
Proof. intros Hf. apply harmless_act. intros now s _. apply quiet_calm, Hf. Qed.
Lemma harmless_bind {A C} (p : proc A) (g : A → proc C) :
  harmless p → (∀ a, harmless (g a)) → harmless (bindP p g).
Proof. intros Hp Hg o l Q HQ. apply safe_bind, Hp. intros a. by apply Hg. Qed.
Lemma harmless_andthen (p k : proc (option BErr)) : harmless p → harmless k → harmless (andthen p k).
Proof. intros Hp Hk. apply harmless_bind; [done|]. intros [e|]; [apply harmless_ret|done]. Qed.
(** First a harmless part, then the rest under the same note. *)
Lemma safe_after {A C} o l (p : proc A) (g : A → proc C) Q :
  harmless p → (∀ a, safe o l (g a) Q) → safe o l (bindP p g) Q.
Proof. intros Hp Hg. apply safe_bind, Hp, Hg. Qed.
Lemma safe_andthen o l (p k : proc (option BErr)) Q :
  harmless p → (∀ e, Q (Some e) l) → safe o l k Q → safe o l (andthen p k) Q.
Proof. intros Hp He Hk. apply safe_after; [done|]. intros [e|]; [apply He|done]. Qed.

Lemma harmless_append kind entity actor payload : harmless (act (append (X := X) kind entity actor payload)).
Proof. apply harmless_calm, append_calm. Qed.
Lemma harmless_memory org id fn : harmless (act (mem_Update (X := X) org id fn)).
Proof. apply harmless_calm, mem_Update_calm. Qed.
Lemma harmless_confirmation org id by_ what : harmless (act (AddConfirmation (X := X) org id by_ what)).
Proof. apply harmless_memory. Qed.
Lemma harmless_record (e : Envelope) entity actor : harmless (record (X := X) e entity actor).
Proof. unfold record. destruct (en_Payload e); [apply harmless_append|apply harmless_ret]. Qed.
Lemma harmless_message id typ v : harmless (brain_message (X := X) id typ v).
Proof. apply harmless_calm. by repeat split. Qed.
Lemma harmless_tell id typ v : harmless (tell (X := X) id typ v).
Proof. apply harmless_bind; [apply harmless_message|]. intros e. apply harmless_record. Qed.
Lemma harmless_look {A} (f : time → brain → A) : harmless (act (λ now s, (s, f now s))).
Proof. apply harmless_calm. by repeat split. Qed.
Lemma harmless_local {A} (f : X → X * A) : harmless (act (λ _ s, let '(x, y) := f (br_ext s) in (with_ext x s, y))).
Proof. apply harmless_calm. intros now s. destruct (f _). by repeat split. Qed.
Lemma harmless_purchase kind id rq : harmless (act (purchaseFor cfg kind id rq)).
Proof. apply harmless_calm, purchaseFor_calm. Qed.
Lemma stage_harmless p f : (∀ x, js_JobID (f x) = js_JobID x ∧ cold (js_Stage (f x))) → harmless (act (update_job (X := X) p f)).
Proof. intros Hf. apply harmless_act. intros now s Hi. by apply cold_stage. Qed.
Lemma err_harmless e : harmless (err (X := X) e).
Proof. apply harmless_ret. Qed.
Lemma ok_harmless : harmless (ok (X := X)).
Proof. apply harmless_ret. Qed.
#[local] Hint Resolve harmless_ret err_harmless ok_harmless harmless_andthen harmless_append harmless_memory harmless_confirmation
  harmless_record harmless_message harmless_tell harmless_look harmless_purchase : harmless.

(** An update that may find no object, or the wrong stage. *)
Lemma harmless_update {A} (g : brain → option (nat * (jobState → jobState))) (r : brain → A) :
  (∀ s p f, g s = Some (p, f) → ∀ x, js_JobID (f x) = js_JobID x ∧ cold (js_Stage (f x))) →
  harmless (act (λ _ s, (match g s with Some (p, f) => with_heap (alter f p (br_heap s)) s | None => s end, r s))).
Proof.
  intros Hg. apply harmless_act. intros now s Hi. cbn. destruct (g s) as [[p f]|] eqn:E; [|by apply quiet_calm].
  eapply cold_stage, Hg; eauto.
Qed.
Lemma harmless_ext {A} (f g : time → brain → brain * A) : (∀ now s, f now s = g now s) → harmless (act f) → harmless (act g).
Proof.
  intros He Hf o l Q HQ now s Hi Hh. pose proof (Hf o l Q HQ now s Hi Hh) as H. rewrite He in H. exact H.
Qed.

(** ** The worker's callbacks, on the goroutine of the job [j] *)
Abbreviation org := (wr_orgID cfg).
Abbreviation qaKind := (wr_qaKind cfg).

Lemma progress_harmless e : harmless (onWorkerProgress cfg e).
Proof. unfold onWorkerProgress. destruct (Decode _ _) as [[st n]|]; auto with harmless. Qed.
Lemma failure_harmless e : harmless (onWorkerFailure cfg e).
Proof.
  unfold onWorkerFailure. apply harmless_bind; [|auto with harmless].
  eapply harmless_ext; [|apply (harmless_update (λ s, p ← br_jobs s !! en_JobID e; Some (p, with_stage StageFailed)) (λ _, tt))].
  - intros now s. cbn. by destruct (br_jobs s !! en_JobID e).
  - intros s p f Hg x. destruct (br_jobs s !! en_JobID e); [|done]. cbn in Hg. simplify_eq. split; [done|]. vm_compute. set_solver.
Qed.
Lemma bounce_harmless p : harmless (act (claim_bounce cfg p)).
Proof.
  apply harmless_act. intros now s Hi. unfold claim_bounce. destruct (br_heap s !! p) as [j|]; [|by apply quiet_calm].
  case_bool_decide; [|by apply quiet_calm]. cbn. apply cold_stage; [done|]. intros x. split; [done|].
  cbn. destruct (_ <? _); unfold cold; set_solver.
Qed.


(** The lookup of the job moves the note up to the object it found. *)
Definition move_up (p : nat) (l : note) : note :=
  Some (p, match l with Some (_, od) => od | None => None end).
Lemma lookup_up j l s p o : inv s → knows j l s → (lookup_job j 0 s).2 = Some (p, o) →
  knows j (move_up p l) s ∧ br_heap s !! p = Some o ∧ js_JobID o = j.
Proof.
  intros Hi Hk. cbn. destruct (br_jobs s !! j) as [p'|] eqn:Ej; [|done]. cbn.
  destruct (br_heap s !! p') as [o'|] eqn:Eo; [|done]. cbn. intros [= -> ->].
  destruct (inv_jobs _ Hi _ _ Ej) as (o' & Ho' & Hoj). simplify_eq. split; [|done].
  destruct l as [[c od]|]; cbn in *.
  - destruct Hk as (Hc & Hle & Hq). specialize (Hle _ Ej). split_and!; [eauto|by intros q Hj; simplify_eq|].
    intros q x Hpq Hx Hxj Hst. destruct (Hq q x) as (-> & d & ? & ?); [lia|done..|]. split; [lia|eauto].
  - split_and!; [eauto|by intros q Hj; simplify_eq|]. intros q x _ Hx Hxj Hst. by destruct (Hk q x).
Qed.
Lemma safe_lookup {A} j l (k : option (nat * jobState) → proc A) Q :
  safe (Some j) l (k None) Q →
  (∀ p o, js_JobID o = j → safe (Some j) (move_up p l) (k (Some (p, o))) Q) →
  safe (Some j) l (bindP (act (lookup_job j)) k) Q.
Proof.
  intros Hn Hs now s Hi Hh. split; [by apply quiet_all, Hi; apply quiet_calm|].
  destruct (Hh j eq_refl) as [Hk Hsp]. cbn [fst snd bindP].
  destruct ((lookup_job j now s).2) as [[p o]|] eqn:E.
  - destruct (lookup_up j l s p o Hi Hk E) as (Hk' & Ho & Hoj). exists (move_up p l). split; [|by apply Hs].
    intros ? [= <-]. by split.
  - exists l. by split.
Qed.

(** Putting an own job under review. *)
Lemma safe_under_review {A} j p od draft (k : unit → proc A) Q :
  safe (Some j) (Some (p, Some draft)) (k tt) Q →
  safe (Some j) (Some (p, od)) (bindP (act (update_job p (under_review draft))) k) Q.
Proof.
  intros Hs now s Hi Hh. destruct (Hh j eq_refl) as [((o & Ho & Hoj) & Hle & Hq) Hsp]. cbn [fst snd bindP update_job].
  assert (Hqt : quiet (Some j) s (with_heap (alter (under_review draft) p (br_heap s)) s)).
  { apply quiet_alter; [done|done|]. intros x Hx Hne. simplify_eq. }
  split.
  - apply quiet_respects; [done..|]. cbn. intros q x Hx [= Hxj]. subst j. rewrite <-Hxj in *. clear Hxj.
    destruct (decide (q = p)) as [->|Hne].
    + rewrite list_lookup_alter_eq, Ho in Hx. cbn in Hx. simplify_eq. split; [|done]. by intros [?|?].
    + rewrite list_lookup_alter_ne in Hx by done. split; [by eapply inv_delivered|]. by intros _.
  - exists (Some (p, Some draft)). split; [|done]. intros ? [= <-]. split; [|done]. cbn. split_and!.
    + rewrite list_lookup_alter_eq, Ho. cbn. eauto.
    + done.
    + intros q x Hpq Hx Hxj Hst. destruct (decide (q = p)) as [->|Hne].
      * rewrite list_lookup_alter_eq, Ho in Hx. cbn in Hx. simplify_eq. eauto.
      * rewrite list_lookup_alter_ne in Hx by done. destruct (Hq q x) as [-> _]; done.
Qed.
(** The claim of a reviewed job. *)
Lemma safe_mark_ready j p d v l :
  qv_Passed (Review quoteGo markers (clean_deliverable d)) = true → l = Some (p, Some d) →
  safe (Some j) l (markDeliveryReady cfg j p v) (λ _ _, True).
Proof.
  intros Hp -> now s Hi Hh. destruct (Hh j eq_refl) as [((o & Ho & Hoj) & Hle & Hq) Hsp]. cbn [fst snd bindP].
  rewrite Ho. case_bool_decide as Hst.
  - assert (Hqt : quiet (Some j) s (with_heap (alter (with_stage StageDeliveryReady) p (br_heap s)) s)).
    { apply quiet_alter; [done|done|]. intros x Hx Hne. simplify_eq. }
    destruct (Hq p o) as (_ & d' & [= <-] & Hd'); [done..|]. split.
    + apply quiet_respects; [done..|]. cbn. intros q x Hx [= Hxj]. subst j. rewrite <-Hxj in *. clear Hxj.
      destruct (decide (q = p)) as [->|Hne].
      * rewrite list_lookup_alter_eq, Ho in Hx. cbn in Hx. simplify_eq. split; [|done]. intros _. by exists d.
      * rewrite list_lookup_alter_ne in Hx by done. split; [by eapply inv_delivered|]. by intros _.
    + exists (Some (p, Some d)). split.
      * intros ? [= <-]. split; [|done]. cbn. split_and!; [rewrite list_lookup_alter_eq, Ho; cbn; eauto|done|].
        intros q x Hpq Hx Hxj Hstx. destruct (decide (q = p)) as [->|Hne].
        -- rewrite list_lookup_alter_eq, Ho in Hx. cbn in Hx. by simplify_eq.
        -- rewrite list_lookup_alter_ne in Hx by done. by destruct (Hq q x) as [-> _].
      * apply harmless_andthen; auto with harmless.
  - split; [by apply quiet_all, Hi; apply quiet_calm|]. exists (Some (p, Some d)). split; [|done].
    intros ? [= <-]. split; [|done]. cbn. eauto.
Qed.

(** ** Every task *)
Lemma safe_call j t l : t_job t = j → pre t l → safe (Some j) l (Call t Ret : proc (option BErr)) (λ _ _, True).
Proof. intros <- Hp. by split_and!. Qed.

Context (Hqa : qaKind ≠ "") (Hreviewer : wr_workers cfg !! qaKind = Some (qa_Handle quoteGo markers)).
Lemma safe_report kind e l : safe (Some (en_JobID e)) l (onWorkerReport cfg kind e) (λ _ _, True).
Proof using Hqa.
  unfold onWorkerReport. apply safe_lookup; [done|]. intros p o Hoj.
  case_bool_decide; [done|]. apply safe_after; [auto with harmless|]. intros [x|]; [|done].
  destruct (_ && _); [done|]. destruct (_ && _); [done|].
  rewrite (bool_decide_eq_false_2 _ Hqa). cbn [negb].
  destruct (Decode _ _) as [draft|]; [|done].
  apply safe_under_review, safe_andthen; [auto with harmless|done|].
  apply safe_call; [done|]. intros d [= <-]. eauto.
Qed.

(** A verdict is sound when a pass is the pass of the draft under review. *)
Definition sound_verdict (kind : string) (e : Envelope) (l : note) : Prop :=
  kind = qaKind → ∀ v, Decode verdict_of_json e = Some v → qv_Passed v = true →
  ∃ c d, l = Some (c, Some d) ∧ qv_Passed (Review quoteGo markers (clean_deliverable d)) = true.
Lemma safe_verdict kind e l : sound_verdict kind e l →
  safe (Some (en_JobID e)) l (onQAVerdict cfg kind e) (λ _ _, True).
Proof using Hqa.
  intros Hv. unfold onQAVerdict. apply safe_lookup; [done|]. intros p o Hoj.
  destruct (bool_decide (kind = "") || _) eqn:Ek; [done|].
  apply orb_false_iff in Ek as [_ Ek]. apply negb_false_iff, bool_decide_eq_true in Ek.
  destruct (negb _); [done|]. destruct (Decode _ _) as [v|] eqn:Ev; [|done].
  case_bool_decide; [done|]. destruct (qv_Passed v) eqn:Ep.
  - destruct (Hv Ek v Ev Ep) as (c & d & -> & Hd). rewrite Hoj. by eapply safe_mark_ready.
  - apply safe_after; [apply bounce_harmless|]. intros [[[rev author] escalated]|]; [|done].
    apply safe_andthen; [auto with harmless|done|]. destruct escalated.
    + apply harmless_andthen; auto with harmless.
    + apply safe_andthen; [auto with harmless|done|]. by apply safe_call.
Qed.
Lemma safe_from_worker kind j e l : sound_verdict kind e l →
  safe (Some j) l (workerReport cfg kind j e) (λ _ _, True).
Proof using Hqa.
  intros Hv. unfold workerReport. case_bool_decide as Hj; [|done]. cbn [negb]. subst j.
  apply safe_andthen; [auto with harmless|done|].
  case_bool_decide; [by apply progress_harmless|]. case_bool_decide; [apply (safe_report kind (from_worker e))|].
  case_bool_decide; [by apply (safe_verdict kind (from_worker e))|].
  case_bool_decide; [by apply failure_harmless|done].
Qed.

(** Any author: the other workers cannot speak with the reviewer's kind. *)
Lemma safe_author kind j w l : kind ≠ qaKind → safe (Some j) l (handle cfg kind j w) (λ _ _, True).
Proof using Hqa.
  intros Hne. revert l. induction w as [r|e k IH|rq k IH|Y f k IH]; intros l; cbn [handle].
  - done.
  - apply safe_after; [auto with harmless|]. intros e'.
    apply safe_bind. eapply safe_mono; [|by apply safe_from_worker; intros ?].
    intros r l' _. apply IH.
  - apply safe_after; [auto with harmless|]. intros r. apply IH.
  - apply safe_after; [apply harmless_local|]. intros y. apply IH.
Qed.
(** The reviewer, on a draft. *)
Lemma safe_reviewer j e draft sc reasons l : en_JobID e = j →
  Decode assignment_of_json e = Some (clean_assignment (MkAssignment sc reasons draft "")) →
  (∀ d, draft = Some d → ∃ c, l = Some (c, Some d)) →
  safe (Some j) l (handle cfg qaKind j (qa_Handle (X := X) (Er := BErr) quoteGo markers e)) (λ _ _, True).
Proof using Hqa.
  intros Hj Hdec Hl. unfold qa_Handle. rewrite Hdec. destruct draft as [d|]; cbn [clean_assignment as_Draft fmap option_fmap option_map]; [|done].
  destruct (Hl d eq_refl) as [c ->]. unfold report. cbn [handle]. intros now s Hi Hh.
  split; [by apply quiet_all, Hi; apply quiet_calm|]. eexists. split; [exact Hh|]. cbn [fst snd bindP].
  apply safe_bind. eapply safe_mono; [|apply safe_from_worker].
  - intros r l' _. done.
  - intros _ v Hv Hp. exists c, d. split; [done|]. unfold New, Decode in Hv. cbn [en_Payload mbind option_bind] in Hv.
    rewrite verdict_roundtrip in Hv. by simplify_eq.
Qed.

(** [runTask], whichever worker the task names. *)
Lemma runTask_safe err_text t l : pre t l → safe (Some (t_job t)) l (runTask err_text cfg t) (λ _ _, True).
Proof using Hqa Hreviewer.
  intros Hp. unfold runTask. apply safe_lookup; [by destruct (wr_workers cfg !! t_kind t)|]. intros p o Hoj.
  destruct (wr_workers cfg !! t_kind t) as [w|] eqn:Ew; [|done].
  apply safe_after; [apply harmless_look|]. intros [fe|].
  { apply safe_after; [auto with harmless|]. done. }
  apply safe_after; [apply harmless_look|]. intros sc. unfold brain_message. intros now s Hi Hh.
  split; [by apply quiet_all, Hi; apply quiet_calm|]. eexists. split; [exact Hh|]. cbn [fst snd bindP].
  apply safe_andthen; [auto with harmless|done|]. apply safe_andthen.
  { unfold SetAssignedWorker. destruct (t_draft t); auto with harmless. }
  { done. }
  destruct (decide (t_kind t = qaKind)) as [Hk|Hk]; [|by apply safe_author].
  assert (Hw : Some w = Some (qa_Handle quoteGo markers)).
  { rewrite <-Ew, Hk. exact Hreviewer. }
  injection Hw as ->. rewrite Hk.
  eapply (safe_reviewer _ _ (t_draft t)); [done|apply assignment_roundtrip|].
  intros d Hd. destruct (Hp d Hd) as [c ->]. by exists p.
Qed.
Lemma finish_safe t l r : safe (Some (t_job t)) l (act (finish_task t r) : proc unit) (λ _ _, True).
Proof.
  assert (H : harmless (act (finish_task (X := X) t r) : proc unit)); [|by apply H].
  apply harmless_act. intros now s _. split; cbn; eauto.
  intros j [x Hx]. unfold spawned. cbn. destruct (decide (j = t_job t)) as [->|Hne].
  - rewrite lookup_insert_eq. eauto.
  - rewrite lookup_insert_ne by done. by exists x.
Qed.

(** ** The owner's operations *)
Lemma safe_dispatch t l (Q : option BErr → note → Prop) :
  t_draft t = None → (∀ r, Q r l) → safe None l (dispatchTask t) Q.
Proof.
  intros Ht HQ. unfold dispatchTask. apply safe_after; [apply harmless_look|]. intros [|]; [apply HQ|].
  intros now s Hi Hh. destruct (br_tasks s !! t_job t) as [x|] eqn:E; cbn [fst snd].
  { split; [by apply quiet_all, Hi; apply quiet_calm|]. split; [|done]. exists l. split; [done|apply HQ]. }
  assert (Hq : quiet None s (with_tasks (<[t_job t:=None]> (br_tasks s)) s)).
  { split; cbn; eauto. intros j [x Hx]. unfold spawned. cbn. destruct (decide (j = t_job t)) as [->|Hne]; simplify_eq.
    rewrite lookup_insert_ne by done. by exists x. }
  split; [by apply quiet_all|]. split; [exists l; split; [done|apply HQ]|].
  intros ? [= <-]. split_and!.
  - unfold spawned. rewrite E. by intros [? ?].
  - unfold spawned. cbn. rewrite lookup_insert_eq. eauto.
  - exists None. split; [intros d Hd; congruence|]. intros p o Hp Ho Hst.
    destruct (inv_review _ Hi p o Hp Hst) as [x Hx]. congruence.
Qed.

(** A step of an owner's message that sets a stage short of review. *)
Lemma ResumeMilestone_safe j l : safe None l (ResumeMilestone cfg j) (λ _ _, True).
Proof.
  unfold ResumeMilestone. apply safe_after.
  - apply harmless_act. intros now s Hi. destruct ((lookup_job j now s).2) as [[p o]|]; [|by apply quiet_calm].
    destruct (negb _); [by apply quiet_calm|]. case_bool_decide; [|case_bool_decide; [destruct (br_tasks s !! j)|]; by apply quiet_calm].
    apply cold_stage; [done|]. intros x. split; [done|]. by apply (bool_decide_unpack _).
  - intros [[[p kind]|]|e]; [|done..]. apply safe_bind, safe_dispatch; [done|]. intros [e|]; [|done].
    apply safe_after; [|intros _; by apply harmless_andthen; auto with harmless].
    apply harmless_act. intros now s Hi. destruct (br_heap s !! p) as [o|]; [|by apply quiet_calm].
    case_bool_decide; [|by apply quiet_calm]. apply cold_stage; [done|]. intros x. split; [done|].
    by apply (bool_decide_unpack _).
Qed.
Lemma onOwnerRequest_safe e l : safe None l (onOwnerRequest cfg e) (λ _ _, True).
Proof.
  unfold onOwnerRequest. destruct (wr_scoper cfg) as [scoper|]; [|done]. apply safe_andthen; [apply harmless_look|done|].
  destruct (Decode _ _) as [request|]; [|done]. apply safe_after; [apply harmless_look|]. intros [|]; [done|].
  destruct (scoper request) as [[[sc quote] kind]|]; [|done]. apply safe_after.
  - apply harmless_act. intros now s Hi. apply quiet_insert; [done|]. by apply (bool_decide_unpack _).
  - intros _. by apply harmless_andthen; auto with harmless.
Qed.
Lemma onOwnerConfirm_safe e l : safe None l (onOwnerConfirm cfg e) (λ _ _, True).
Proof.
  unfold onOwnerConfirm. destruct (decision_by e) as [[by_ r]|]; [|done]. case_bool_decide; [done|].
  apply safe_after.
  - apply harmless_act. intros now s Hi. destruct ((lookup_job _ now s).2) as [[p o]|]; [|by apply quiet_calm].
    case_bool_decide; [|by apply quiet_calm]. apply cold_stage; [done|]. intros x. split; [done|].
    by apply (bool_decide_unpack _).
  - intros [[p kind]|x]; [|done]. apply safe_andthen; [apply harmless_memory|done|].
    apply safe_andthen; [apply harmless_memory|done|]. case_bool_decide; [apply ResumeMilestone_safe|].
    apply safe_after; [apply stage_harmless|intros _; by apply safe_dispatch].
    intros x. split; [done|]. by apply (bool_decide_unpack _).
Qed.
Lemma onOwnerReject_safe e l : safe None l (onOwnerReject cfg e) (λ _ _, True).
Proof.
  unfold onOwnerReject. destruct (decision_by e) as [[by_ r]|]; [|done]. apply safe_after.
  - apply harmless_act. intros now s Hi. destruct (br_jobs s !! en_JobID e) as [p|]; [|by apply quiet_calm].
    apply cold_stage; [done|]. intros x. split; [done|]. by apply (bool_decide_unpack _).
  - intros [|]; [|done]. cbn [negb]. by apply harmless_andthen; auto with harmless.
Qed.
Lemma Deliver_safe e l : safe None l (Deliver cfg e) (λ _ _, True).
Proof.
  unfold Deliver. apply safe_andthen; [auto with harmless|done|]. unfold route.
  case_bool_decide; [|done].
  case_bool_decide; [apply onOwnerRequest_safe|]. case_bool_decide; [apply onOwnerConfirm_safe|].
  case_bool_decide; [apply onOwnerReject_safe|done].
Qed.
Lemma owner_says_safe j typ v l : safe None l (owner_says cfg j typ v) (λ _ _, True).
Proof. unfold owner_says. apply safe_after; [apply harmless_look|]. intros e. apply Deliver_safe. Qed.

(** ** The theorem *)
Context (r : Reach X) `{Hflow : !AdvanceFlow r}.
(** The other operations do not call a worker. *)
Definition undisturbed (s s' : brain) : Prop := inv s → quiet None s s'.
Lemma every_harmless {A} (p : proc A) : every False undisturbed p → harmless p.
Proof.
  induction p as [a|Y f k IH|t k IH|f k IH]; cbn; [|intros [Hf Hk]|by intros []|by intros []].
  - intros _. apply harmless_ret.
  - intros o l Q HQ now s Hi Hh. split; [by apply quiet_all, Hi; apply Hf|]. exists l.
    split; [eapply quiet_holds; [by apply Hf|done]|]. by apply IH.
Qed.
Lemma tame_undisturbed s s' : tame s s' → undisturbed s s'.
Proof. intros [Hc _] _. by apply quiet_calm. Qed.
Lemma claim_undisturbed j now s : undisturbed s (claim_accept j now s).1.
Proof.
  intros Hi. unfold claim_accept. cbn. destruct (br_jobs s !! j) as [p|]; [|by apply quiet_calm]. cbn.
  destruct (br_heap s !! p) as [o|] eqn:Eo; [|by apply quiet_calm]. cbn.
  case_bool_decide; [by apply quiet_calm|]. case_bool_decide as Hst; [|by apply quiet_calm]. cbn.
  apply quiet_alter; [done|done|]. intros x Hx _. rewrite Eo in Hx. injection Hx as <-. split; [done|]. intros _.
  split; [by left|done].
Qed.
Lemma reserve_undisturbed j now s : js_Stage j = StageScoped → undisturbed s (reserve j now s).1.
Proof.
  intros Hst Hi. unfold reserve. destruct (br_jobs s !! js_JobID j); [by apply quiet_calm|].
  apply quiet_insert; [done|]. rewrite Hst. by apply (bool_decide_unpack _).
Qed.
Lemma rollback_undisturbed id p now s : undisturbed s (rollback id p now s).1.
Proof.
  intros Hi. unfold rollback. cbn. case_bool_decide; [|by apply quiet_calm]. split; cbn; eauto.
  intros j q Hq. apply lookup_delete_Some in Hq as [_ Hq]. by left.
Qed.
Lemma observe_undisturbed id jm now s : undisturbed s (observe_once (re_seams r) id jm now s).1.
Proof. intros _. apply quiet_calm, observe_calm. Qed.
Lemma version_undisturbed known id trigger jm now s :
  undisturbed s (next_version (re_quoteGo r) (re_get_chain r) (re_set_chain r) known id trigger jm now s).1.
Proof. intros _. apply quiet_calm, version_calm. Qed.

(** What the rest of the daemon changes by itself: the memory files and the
    disk, the store, the rows, the freeze registry, the shutdown, the purchases. *)
Definition outside (s s' : brain) : Prop := calm s s'.
Lemma operation_safe p : operation cfg r p → ∀ l, safe None l p (λ _ _, True).
Proof using Hflow.
  assert (Hq : ∀ A (q : proc A), every False undisturbed q → ∀ l, safe None l (quietly q) (λ _ _, True)).
  { intros A q Hq l. apply every_harmless; [by apply every_quietly|done]. }
  assert (Hs : ∀ A (q : proc A) l, safe None l q (λ _ _, True) → safe None l (quietly q) (λ _ _, True)).
  { intros A q l H. by apply safe_bind. }
  intros Hop l. destruct Hop.
  - apply Hs, owner_says_safe.
  - apply Hs, owner_says_safe.
  - apply Hs, owner_says_safe.
  - apply Hs, Deliver_safe.
  - apply Hs, ResumeMilestone_safe.
  - apply Hq, every_mint, tame_undisturbed.
  - apply Hq, every_verify, tame_undisturbed.
  - apply Hq, every_accept; auto using tame_undisturbed, claim_undisturbed, observe_undisturbed.
  - apply Hq, every_open; auto using tame_undisturbed, reserve_undisturbed, rollback_undisturbed.
  - apply Hq, every_ensure; auto using tame_undisturbed, reserve_undisturbed, rollback_undisturbed.
  - apply Hq, every_milestones, tame_undisturbed.
  - apply Hq, every_bindVault, tame_undisturbed.
  - apply Hq, every_propose; auto using tame_undisturbed.
  - apply Hq, every_funding; auto using tame_undisturbed.
  - apply Hq, every_invoice; auto using tame_undisturbed, version_undisturbed.
  - apply Hq, every_settlements; auto using tame_undisturbed, version_undisturbed.
Qed.
Abbreviation hub_step := (pstep (runTask (re_err_text r) cfg) finish_task (operation cfg r) outside).

(** C27: no unreviewed report is handed over.  Start with no job under review
    and any job that is ready to deliver reviewed.  Then, whatever the author
    workers do, however the goroutines of the jobs, the owner's operations and
    the failures of disk and store interleave, every job that is ready to
    deliver, or was accepted, has a draft; and the document it is delivered as,
    read back, has passed the review: all claims sourced from the list, no
    marker leaked. *)
Theorem delivered_was_reviewed s s' ts :
  (∀ p o, br_heap s !! p = Some o → js_Stage o ≠ StageQAReview) →
  (∀ p o, br_heap s !! p = Some o → delivered o → reviewed o) →
  (∀ j p, br_jobs s !! j = Some p → ∃ o, br_heap s !! p = Some o ∧ js_JobID o = j) →
  rtc hub_step (s, []) (s', ts) →
  ∀ p o, br_heap s' !! p = Some o → delivered o →
  ∃ d d', js_Draft o = Some d ∧ deliverable_of_json (json_Marshal (deliverable_json d)) = Some d' ∧
          deliverable_ok markers d'.
Proof using Hqa Hreviewer Hflow.
  intros Hr Hd Hj Hsteps p o Ho Hdo.
  assert (Hi : inv s') .
  { eapply (pool_invariant (runTask (re_err_text r) cfg) finish_task inv knows spawned t_job pre); [..|exact Hsteps].
    - intros t l. apply runTask_safe.
    - intros t l x. apply finish_safe.
    - apply operation_safe.
    - intros s1 s2 Hc Hi. by apply quiet_all, Hi; apply quiet_calm.
    - exact None.
    - split; [done| |done]. intros q x Hx Hst. by destruct (Hr q x Hx). }
  destruct (inv_delivered _ Hi p o Ho Hdo) as (d & Hdr & Hp). exists d, (clean_deliverable d).
  split_and!; [done|apply deliverable_roundtrip|]. by apply (Review_passed quoteGo).
Qed.
End Delivered.
