(* ===== verification/Revision.v ===== *)
(** The revision loop of the hub ([Brain]) ends.

    [runTask] calls the author's worker, whose report calls the reviewer's,
    whose verdict may call the author's again, on the same goroutine.  Every
    worker of the type is covered; the bound on revisions is what makes the
    recursion end. *)
From Stdlib Require Import Ascii String.
From S2P Require Import Prelude GoStr GoTime GoJson Store Like Proc Envelope Worker Brain.
From S2P Require Freeze Purchasing.
#[local] Open Scope Z_scope.
#[local] Open Scope snap_scope.
#[local] Set Default Proof Using "Type".

(** ** Processes that keep a relation *)
Section Keeps.
Context {X : Type}.
Abbreviation brain := (Brain X).
Abbreviation proc := (proc brain Task (option BErr)).
Context (code : Task → proc (option BErr)) (R : brain → brain → Prop) `{!PreOrder R}.

(** Alone, from anywhere, it ends in a state [R] relates to the first one. *)
Definition keeps {A} (p : proc A) : Prop := ∀ s, ends code (λ _ s', R s s') p s.
Lemma kept_ret {A} (a : A) : keeps (Ret a).
Proof using PreOrder0. intros s. constructor. reflexivity. Qed.
Lemma kept_act {A} (f : time → brain → brain * A) : (∀ now s, R s (f now s).1) → keeps (act f).
Proof. intros H s. apply ends_actP. intros now. apply H. Qed.
Lemma kept_bind {A C} (p : proc A) (g : A → proc C) : keeps p → (∀ a, keeps (g a)) → keeps (bindP p g).
Proof using PreOrder0.
  intros Hp Hg s. eapply ends_bind; [apply Hp|]. intros a s1 H1. eapply ends_mono; [apply Hg|].
  intros c s2 H2. etransitivity; [exact H1|exact H2].
Qed.
Lemma kept_andthen (p k : proc (option BErr)) : keeps p → keeps k → keeps (andthen p k).
Proof using PreOrder0. intros Hp Hk. apply kept_bind; [done|]. intros [e|]; [apply kept_ret|done]. Qed.
Lemma kept_spawn {A} (f : time → brain → brain * option Task) (k : proc A) :
  (∀ now s, R s (f now s).1) → keeps k → keeps (Spawn f k).
Proof using PreOrder0.
  intros Hf Hk s. constructor. intros now. eapply ends_mono; [apply Hk|]. intros a s' H. etransitivity; [apply Hf|exact H].
Qed.
(** One action that is looked at, then the rest. *)
Lemma ends_step {A C} (Q : C → brain → Prop) (f : time → brain → brain * A) (g : A → proc C) s :
  (∀ now, ends code Q (g (f now s).2) (f now s).1) → ends code Q (bindP (act f) g) s.
Proof. intros H. cbn. by constructor. Qed.

Context (R_calm : ∀ s s', calm s s' → R s s').

Lemma kept_calm {A} (f : time → brain → brain * A) : (∀ now s, calm s (f now s).1) → keeps (act f).
Proof using R_calm. intros Hf. apply kept_act. intros now s. apply R_calm, Hf. Qed.
Lemma kept_look {A} (f : time → brain → A) : keeps (act (λ now s, (s, f now s))).
Proof using R_calm. apply kept_calm. by repeat split. Qed.
Lemma kept_update org id fn : keeps (act (mem_Update org id fn)).
Proof using R_calm. apply kept_calm, mem_Update_calm. Qed.
Lemma kept_append kind entity actor payload : keeps (act (append kind entity actor payload)).
Proof using R_calm. apply kept_calm, append_calm. Qed.
Lemma kept_record (e : Envelope) entity actor : keeps (record e entity actor).
Proof using All. unfold record. destruct (en_Payload e); [apply kept_append|apply kept_ret]. Qed.
Lemma kept_message id typ v : keeps (brain_message id typ v).
Proof using R_calm. apply kept_look. Qed.
Lemma kept_tell id typ v : keeps (tell id typ v).
Proof using All. apply kept_bind; [apply kept_message|]. intros e. apply kept_record. Qed.
Lemma kept_purchase cfg kind id rq : keeps (act (purchaseFor cfg kind id rq)).
Proof using R_calm. apply kept_calm, purchaseFor_calm. Qed.
Lemma kept_ext {A} (f : X → X * A) : keeps (act (λ _ s, let '(x, y) := f (br_ext s) in (with_ext x s, y))).
Proof using R_calm. apply kept_calm. intros now s. destruct (f _). by repeat split. Qed.
End Keeps.

Section Revision.
Context {X : Type} (err_text : BErr → string) (cfg : Wiring X).
Abbreviation brain := (Brain X).
Abbreviation proc := (proc brain Task (option BErr)).
Abbreviation code := (runTask err_text cfg).
Abbreviation org := (wr_orgID cfg).
Abbreviation qaKind := (wr_qaKind cfg).
Abbreviation limit := (wr_maxRevisions cfg).

(** ** What a run does to the jobs *)
Definition active (o : jobState) : Prop := js_Stage o ∈ [StageAssigned; StageRevision; StageQAReview].
(** Within [n] bounces, the last of which ends the review. *)
Definition within (n : Z) (o : jobState) : Prop :=
  js_RevisionCount o ≤ n ∨ (¬ active o ∧ js_RevisionCount o ≤ n + 1).
Definition evolves (o o' : jobState) : Prop :=
  js_RevisionCount o ≤ js_RevisionCount o' ∧ ∀ n, limit ≤ n → within n o → within n o'.
Definition step (s s' : brain) : Prop :=
  br_jobs s' = br_jobs s ∧ Forall2 evolves (br_heap s) (br_heap s').
#[global] Instance evolves_preorder : PreOrder evolves.
Proof.
  split; [by split|]. intros a b c [H1 H2] [H3 H4]. split; [lia|auto].
Qed.
#[global] Instance step_preorder : PreOrder step.
Proof.
  split; [intros s; split; [done|reflexivity]|]. intros a b c [H1 H2] [H3 H4]. split; [congruence|]. by etransitivity.
Qed.
Lemma step_calm s s' : calm s s' → step s s'.
Proof. intros (Hh & Hj & _). split; [done|]. by rewrite Hh. Qed.
Lemma step_alter p f (s : brain) : (∀ o, br_heap s !! p = Some o → evolves o (f o)) →
  step s (with_heap (alter f p (br_heap s)) s).
Proof.
  intros Hf. split; [done|]. cbn. apply Forall2_same_length_lookup. split; [by rewrite length_alter|].
  intros i x y Hx Hy. destruct (decide (i = p)) as [->|Hne].
  - rewrite list_lookup_alter_eq, Hx in Hy. cbn in Hy. simplify_eq. auto.
  - rewrite list_lookup_alter_ne in Hy by done. by simplify_eq.
Qed.
(** A stage that is not one of the loop's. *)
Lemma evolves_still f o : js_RevisionCount (f o) = js_RevisionCount o → ¬ active (f o) → evolves o (f o).
Proof. intros Hr Ha. split; [lia|]. intros n _ [?|[? ?]]; [left|right; split]; [lia|done|lia]. Qed.
Lemma evolves_active f o : js_RevisionCount (f o) = js_RevisionCount o → active o → evolves o (f o).
Proof. intros Hr Ha. split; [lia|]. intros n _ [?|[? ?]]; [left; lia|done]. Qed.

(** The bounces left before a job is escalated. *)
Definition left_of (j : string) (s : brain) : nat :=
  match br_jobs s !! j ≫= λ p, br_heap s !! p with
  | Some o => Z.to_nat (limit + 1 - js_RevisionCount o)
  | None => 0
  end.
Lemma left_step j s s' : step s s' → (left_of j s' ≤ left_of j s)%nat.
Proof.
  intros [Hj Hh]. unfold left_of. rewrite Hj. destruct (br_jobs s !! j) as [p|]; cbn; [|lia].
  destruct (br_heap s !! p) as [o|] eqn:Eo.
  - destruct (Forall2_lookup_l _ _ _ _ _ Hh Eo) as (o' & -> & [Hr _]). lia.
  - apply lookup_ge_None in Eo. rewrite (Forall2_length _ _ _ Hh) in Eo. apply lookup_ge_None in Eo. by rewrite Eo.
Qed.

Abbreviation keeps := (keeps code step).
Create HintDb keeping.
#[local] Hint Resolve kept_ret kept_andthen kept_update kept_append kept_record kept_message kept_tell
  kept_purchase step_calm step_preorder : keeping.
Lemma kept_err e : keeps (err (X := X) e).
Proof. apply kept_ret, _. Qed.
Lemma kept_ok : keeps (ok (X := X)).
Proof. apply kept_ret, _. Qed.
#[local] Hint Resolve kept_err kept_ok : keeping.

Lemma kept_progress e : keeps (onWorkerProgress cfg e).
Proof. unfold onWorkerProgress. destruct (Decode _ _) as [[st n]|]; auto with keeping. Qed.
Lemma kept_failure e : keeps (onWorkerFailure cfg e).
Proof.
  unfold onWorkerFailure. apply kept_bind; [apply _| |auto with keeping]. apply kept_act. intros now s.
  destruct (br_jobs s !! en_JobID e) as [p|]; [|reflexivity]. apply step_alter. intros o _.
  apply evolves_still; [done|]. unfold active. by apply (bool_decide_unpack _).
Qed.
Lemma kept_ready j p v : keeps (markDeliveryReady cfg j p v).
Proof.
  unfold markDeliveryReady. apply kept_bind; [apply _| |].
  - apply kept_act. intros now s. destruct (br_heap s !! p) as [o|] eqn:Eo; [|reflexivity].
    case_bool_decide; [|reflexivity]. apply step_alter. intros o' _. apply evolves_still; [done|].
    unfold active. by apply (bool_decide_unpack _).
  - intros [draft|]; auto with keeping.
Qed.

(** ** One message of a worker, given that the tasks it calls end *)
Definition tasks_end (P : Task → nat → Prop) : Prop :=
  ∀ t s, P t (left_of (t_job t) s) → ends code (λ _ s', step s s') (code t) s.
Lemma ends_from {A} (p : proc A) (s0 s : brain) :
  step s0 s → ends code (λ _ s', step s s') p s → ends code (λ _ s', step s0 s') p s.
Proof. intros H0 H. eapply ends_mono; [exact H|]. intros a s' H1. etransitivity; [exact H0|exact H1]. Qed.
(** A part that keeps, then the rest from wherever it led. *)
Lemma ends_then {A C} (p : proc A) (g : A → proc C) (s0 s : brain) :
  step s0 s → keeps p → (∀ a s', step s0 s' → ends code (λ _ s2, step s0 s2) (g a) s') →
  ends code (λ _ s', step s0 s') (bindP p g) s.
Proof.
  intros H0 Hp Hg. eapply ends_bind; [apply Hp|]. intros a s1 H1. apply Hg. etransitivity; [exact H0|exact H1].
Qed.
Lemma ends_andthen (p k : proc (option BErr)) (s0 s : brain) :
  step s0 s → keeps p → (∀ s', step s0 s' → ends code (λ _ s2, step s0 s2) k s') →
  ends code (λ _ s', step s0 s') (andthen p k) s.
Proof. intros H0 Hp Hk. apply ends_then; [done..|]. intros [e|] s' Hs; [by constructor|auto]. Qed.
Lemma ends_call_task (P : Task → nat → Prop) t (s0 s : brain) : tasks_end P → step s0 s →
  P t (left_of (t_job t) s) → ends code (λ _ s', step s0 s') (Call t Ret : proc (option BErr)) s.
Proof.
  intros HP H0 Ht. eapply ends_call; [by apply HP|]. intros r s' H1. constructor. etransitivity; [exact H0|exact H1].
Qed.

Lemma report_ends (n : nat) kind e s : (left_of (en_JobID e) s ≤ n)%nat →
  (kind ≠ qaKind → tasks_end (λ t m, t_job t = en_JobID e ∧ t_kind t = qaKind ∧ m ≤ n)%nat) →
  ends code (λ _ s', step s s') (onWorkerReport cfg kind e) s.
Proof.
  intros Hn IH. unfold onWorkerReport. apply ends_step. intros now. change ((lookup_job (en_JobID e) now s).1) with s.
  destruct ((lookup_job (en_JobID e) now s).2) as [[p o]|] eqn:El; [|by apply kept_err].
  case_bool_decide as Hk; [by apply kept_err|]. apply ends_step. intros now2. cbn [fst snd].
  destruct (br_heap s !! p) as [j|] eqn:Ej; [|by apply kept_err]. destruct (_ && _); [by apply kept_err|].
  destruct (negb (bool_decide (js_Stage j = StageAssigned)) && _) eqn:Est; [by apply kept_err|].
  assert (Ha : active j).
  { unfold active. apply andb_false_iff in Est as [Est|Est]; apply negb_false_iff, bool_decide_eq_true in Est;
      rewrite Est; by apply (bool_decide_unpack _). }
  destruct (negb (bool_decide (qaKind = ""))).
  - destruct (Decode _ _) as [draft|]; [|by apply kept_err]. apply ends_step. intros now3. cbn [fst snd].
    assert (Hs : step s (with_heap (alter (under_review draft) p (br_heap s)) s)).
    { apply step_alter. intros o' Ho'. simplify_eq. by apply evolves_active. }
    apply ends_andthen; [done|auto with keeping|]. intros s' Hs'. eapply ends_call_task; [by apply IH|done|].
    split_and!; [done..|]. cbn. pose proof (left_step (en_JobID e) _ _ Hs'). lia.
  - apply ends_step. intros now3. cbn [fst snd]. apply ends_andthen; [|auto with keeping..].
    + apply step_alter. intros o' _. apply evolves_still; [done|]. unfold active. by apply (bool_decide_unpack _).
    + intros s' Hs'. by apply ends_from, kept_tell; auto with keeping.
Qed.
Lemma verdict_ends (n : nat) kind e s : (left_of (en_JobID e) s ≤ n)%nat →
  (kind = qaKind → tasks_end (λ t m, t_job t = en_JobID e ∧ m < n)%nat) →
  ends code (λ _ s', step s s') (onQAVerdict cfg kind e) s.
Proof.
  intros Hn IH. unfold onQAVerdict. apply ends_step. intros now. change ((lookup_job (en_JobID e) now s).1) with s.
  destruct ((lookup_job (en_JobID e) now s).2) as [[p o]|] eqn:El; [|by apply kept_err].
  cbn in El. destruct (br_jobs s !! en_JobID e) as [p'|] eqn:Ep; [|done]. cbn in El.
  destruct (br_heap s !! p') as [o'|] eqn:Eo; [|done]. cbn in El. simplify_eq.
  destruct (bool_decide (kind = "") || _) eqn:Ek; [by apply kept_err|].
  apply orb_false_iff in Ek as [_ Ek]. apply negb_false_iff, bool_decide_eq_true in Ek. specialize (IH Ek).
  case_bool_decide as Hst; [|by apply kept_err]. cbn [negb].
  destruct (Decode _ _) as [v|]; [|by apply kept_err]. case_bool_decide; [by apply kept_err|].
  destruct (qv_Passed v); [by apply kept_ready|].
  apply ends_step. intros now2. unfold claim_bounce. rewrite Eo, bool_decide_eq_true_2 by done. cbn [fst snd].
  set (rev := js_RevisionCount o + 1). set (s1 := (update_job p _ now2 s).1).
  assert (Hs : step s s1).
  { apply step_alter. intros x Hx. rewrite Eo in Hx. injection Hx as <-. unfold evolves. cbn. split; [lia|]. intros m Hm Hw.
    assert (Hact : active o) by (unfold active; rewrite Hst; by apply (bool_decide_unpack _)).
    destruct Hw as [Hw|[? _]]; [|done]. unfold within. cbn. fold rev. destruct (Z.ltb_spec limit rev).
    - right. split; [|unfold rev in *; lia]. unfold active. by apply (bool_decide_unpack _).
    - left. lia. }
  assert (Hl : limit < rev ∨ (left_of (en_JobID e) s1 < n)%nat).
  { destruct (Z.lt_ge_cases limit rev) as [|Hle]; [by left|right]. revert Hn. unfold left_of, s1. cbn.
    rewrite Ep. cbn. rewrite list_lookup_alter_eq, Eo. cbn. unfold rev in Hle. lia. }
  apply (ends_from _ s s1 Hs).
  apply ends_andthen; [reflexivity|auto with keeping|]. intros s2 Hs2. destruct (Z.ltb_spec limit rev) as [Hlt|Hle].
  - apply ends_andthen; [done|auto with keeping|]. intros s3 Hs3. by apply ends_from, kept_tell; auto with keeping.
  - apply ends_andthen; [done|auto with keeping|]. intros s3 Hs3. eapply ends_call_task; [done|done|].
    split; [done|]. cbn. pose proof (left_step (en_JobID e) _ _ Hs3). destruct Hl; lia.
Qed.

(** ** Every task *)
Lemma worker_ends (n : nat) kind e j s : (left_of j s ≤ n)%nat →
  (kind ≠ qaKind → tasks_end (λ t m, t_job t = j ∧ t_kind t = qaKind ∧ m ≤ n)%nat) →
  (kind = qaKind → tasks_end (λ t m, t_job t = j ∧ m < n)%nat) →
  ends code (λ _ s', step s s') (workerReport cfg kind j e) s.
Proof.
  intros Hn Hq Ha. unfold workerReport. case_bool_decide as Hj; [|by apply kept_err]. cbn [negb]. subst j.
  unfold deliverFromWorker. apply ends_andthen; [reflexivity|auto with keeping|]. intros s1 Hs1.
  pose proof (left_step (en_JobID e) _ _ Hs1). apply ends_from; [done|].
  case_bool_decide; [apply kept_progress|].
  case_bool_decide; [apply (report_ends n kind (from_worker e)); [cbn; lia|done]|].
  case_bool_decide; [apply (verdict_ends n kind (from_worker e)); [cbn; lia|done]|].
  case_bool_decide; [apply kept_failure|apply kept_err].
Qed.
Lemma handle_ends (n : nat) kind j w :
  (kind ≠ qaKind → tasks_end (λ t m, t_job t = j ∧ t_kind t = qaKind ∧ m ≤ n)%nat) →
  (kind = qaKind → tasks_end (λ t m, t_job t = j ∧ m < n)%nat) →
  ∀ s, (left_of j s ≤ n)%nat → ends code (λ _ s', step s s') (handle cfg kind j w) s.
Proof.
  intros Hq Ha. induction w as [r|e k IH|rq k IH|Y f k IH]; intros s Hn; cbn [handle].
  - constructor. reflexivity.
  - apply ends_step. intros now. cbn [fst snd]. eapply ends_bind; [by apply (worker_ends n)|].
    intros r s' Hs'. apply ends_from; [done|]. apply IH. pose proof (left_step j _ _ Hs'). lia.
  - apply ends_then; [reflexivity|auto with keeping|]. intros r s' Hs'. apply ends_from; [done|]. apply IH.
    pose proof (left_step j _ _ Hs'). lia.
  - apply ends_then; [reflexivity|apply kept_ext; auto with keeping|]. intros y s' Hs'. apply ends_from; [done|].
    apply IH. pose proof (left_step j _ _ Hs'). lia.
Qed.
Lemma runTask_ends_if (n : nat) t s : (left_of (t_job t) s ≤ n)%nat →
  (t_kind t ≠ qaKind → tasks_end (λ t' m, t_job t' = t_job t ∧ t_kind t' = qaKind ∧ m ≤ n)%nat) →
  (t_kind t = qaKind → tasks_end (λ t' m, t_job t' = t_job t ∧ m < n)%nat) →
  ends code (λ _ s', step s s') (code t) s.
Proof.
  intros Hn Hq Ha. unfold runTask. apply ends_step. intros now. change ((lookup_job (t_job t) now s).1) with s.
  destruct (wr_workers cfg !! t_kind t) as [w|]; [|by apply kept_err].
  destruct ((lookup_job (t_job t) now s).2) as [[p o]|]; [|by apply kept_err].
  apply ends_step. intros now2. cbn [fst snd]. destruct ((frozenErr _ _ _ now2 s).2) as [fe|].
  { apply kept_bind; [apply _|auto with keeping|]. auto with keeping. }
  apply ends_step. intros now3. apply ends_then; [reflexivity|auto with keeping|]. intros a s1 Hs1.
  apply ends_andthen; [done|auto with keeping|]. intros s2 Hs2. apply ends_andthen; [done| |].
  { unfold SetAssignedWorker. destruct (t_draft t); auto with keeping. }
  intros s3 Hs3. apply ends_from; [done|]. apply (handle_ends n); [done..|].
  pose proof (left_step (t_job t) _ _ Hs3). lia.
Qed.
Lemma runTask_ends t s : ends code (λ _ s', step s s') (code t) s.
Proof.
  remember (left_of (t_job t) s) as n eqn:En. assert (Hn : (left_of (t_job t) s ≤ n)%nat) by lia. clear En.
  revert t s Hn. induction n as [n IH] using lt_wf_ind. intros t s Hn.
  assert (Hlt : tasks_end (λ t' m, t_job t' = t_job t ∧ m < n)%nat).
  { intros t' s' [Hj Hm]. eapply IH; [exact Hm|]. done. }
  assert (Hqa : tasks_end (λ t' m, t_job t' = t_job t ∧ t_kind t' = qaKind ∧ m ≤ n)%nat).
  { intros t' s' (Hj & Hk & Hm). apply (runTask_ends_if n); [done|done|]. intros _. by rewrite Hj. }
  by apply (runTask_ends_if n).
Qed.

(** C28: the revision loop ends, whatever the workers do.  A task's goroutine,
    run alone from any state, comes to its end and leaves its outcome in the
    task table; and a job was bounced at most once more often than the limit,
    or once more if it was already past it. *)
Theorem revision_loop_ends t s now :
  ∃ n s' u ts, run (runTask err_text cfg) n now (goroutine finish_task t) s = Some (s', u, ts) ∧
    (∃ r, br_tasks s' !! t_job t = Some (Some r)) ∧
    ∀ p o, br_heap s !! p = Some o → ∃ o', br_heap s' !! p = Some o' ∧
      js_RevisionCount o ≤ js_RevisionCount o' ≤ Z.max (js_RevisionCount o) limit + 1.
Proof.
  apply (ends_run code (λ _ s', (∃ r, br_tasks s' !! t_job t = Some (Some r)) ∧
    ∀ p o, br_heap s !! p = Some o → ∃ o', br_heap s' !! p = Some o' ∧
      js_RevisionCount o ≤ js_RevisionCount o' ≤ Z.max (js_RevisionCount o) limit + 1)).
  unfold goroutine. eapply ends_call; [apply runTask_ends|]. intros r s1 [_ Hh]. apply ends_actP. intros now'.
  cbn [fst snd finish_task with_tasks br_tasks br_heap]. split; [exists r; by rewrite lookup_insert_eq|].
  intros p o Ho. destruct (Forall2_lookup_l _ _ _ _ _ Hh Ho) as (o' & Ho' & [Hr Hw]). exists o'. split; [done|].
  specialize (Hw (Z.max (js_RevisionCount o) limit)). unfold within in Hw. destruct Hw as [|[_ ?]]; lia.
Qed.
End Revision.
