(* ===== verification/Restart.v ===== *)
(** A restart of the hub ([Brain.Recover], [EscalateInterruptedTasks]). *)
From Stdlib Require Import Ascii String.
From S2P Require Import Prelude GoStr GoTime GoJson Store Like Proc Envelope Worker Brain Accept Milestone Invoices Hub Revision.
From S2P Require Freeze.
#[local] Open Scope Z_scope.
#[local] Open Scope snap_scope.
#[local] Set Default Proof Using "Type".

Section Restart.
Context {X : Type} (err_text : BErr → string) (cfg : Wiring X).
Abbreviation brain := (Brain X).
Abbreviation proc := (proc brain Task (option BErr)).
Abbreviation code := (runTask err_text cfg).
Abbreviation log s := (events (db (br_store s))).

(** The working set points at jobs, each under its own id. *)
Definition jobs_ok (s : brain) : Prop :=
  ∀ j p, br_jobs s !! j = Some p → ∃ o, br_heap s !! p = Some o ∧ js_JobID o = j.
Definition stage_at (j : string) (s : brain) : option string :=
  p ← br_jobs s !! j; o ← br_heap s !! p; Some (js_Stage o).
(** The escalations on the log, in order. *)
Definition is_escalation (r : EventRow) : Prop := ev_kind r = "brain.msg." +:+ TypeJobUpdate.
#[global] Instance is_escalation_dec r : Decision (is_escalation r) := _.
Definition escalations (l : list EventRow) : list string := ev_entity <$> filter is_escalation l.

(** What the escalation of the ids [done] has made of [s0]. *)
Record escalated (s0 : brain) (done : list string) (s : brain) : Prop := MkEscalated {
  es_jobs : br_jobs s = br_jobs s0;
  es_tasks : br_tasks s = br_tasks s0;
  es_ok : jobs_ok s;
  es_done : ∀ j, j ∈ done → stage_at j s = Some StageEscalated ∧ jm_Stage (load j s) = StageEscalated;
  es_rest : ∀ j p, j ∉ done → br_jobs s0 !! j = Some p → br_heap s !! p = br_heap s0 !! p;
  es_log : escalations (log s) = escalations (log s0) ++ done }.

Lemma escalations_app l rows : escalations (l ++ rows) = escalations l ++ escalations rows.
Proof. unfold escalations. by rewrite filter_app, fmap_app. Qed.
(** An update of one job's file that is not refused. *)
Lemma mem_Update_cases org id fn now (s s' : brain) e : mem_Update org id fn now s = (s', e) →
  calm s s' ∧ db (br_store s') = db (br_store s) ∧
  (e = None → ∃ jm, br_files s' = <[safe_name id := fn now jm]> (br_files s)) .
Proof.
  intros H. pose proof (mem_Update_calm org id fn now s) as Hc. rewrite H in Hc. split; [done|]. unfold mem_Update, disk_fails, projectJobRow, bindM in H.
  assert (Hgo : ∀ (s1 : brain) (b : bool), br_store s1 = br_store s → br_files s1 = br_files s →
    (if b then (s1, Some BDisk) else
      let jm := fn now (m_job id (load id s1)) in
      ((projectJobRow org jm (with_files (<[safe_name id := jm]> (br_files s1)) s1)).1, None)) = (s', e) →
    db (br_store s') = db (br_store s) ∧ (e = None → ∃ jm, br_files s' = <[safe_name id := fn now jm]> (br_files s))).
  { intros s1 b Hst Hf. destruct b; [intros [= <- <-]; by rewrite Hst|]. unfold projectJobRow, bindM. cbn [with_files br_store].
    rewrite Hst, Hf. destruct (stmt ErrQuery (br_store s)) as [st1 q1] eqn:E1. pose proof (stmt_same _ _ _ _ E1) as D1.
    destruct q1 as [u|x]; [|intros [= <- <-]; cbn; eauto].
    destruct (stmt ErrQuery st1) as [st2 q2] eqn:E2. pose proof (stmt_same _ _ _ _ E2) as D2.
    destruct q2; intros [= <- <-]; cbn; (split; [congruence|eauto]). }
  destruct (br_disk s) as [|b r].
  - eapply (Hgo s false); [done..|exact H].
  - eapply (Hgo (with_disk r s) b); [done..|exact H].
Qed.
Lemma ends_act_andthen (Q : option BErr → brain → Prop) f (k : proc (option BErr)) s :
  (∀ now, match (f now s).2 with None => ends code Q k (f now s).1 | Some e => Q (Some e) (f now s).1 end) →
  ends code Q (andthen (act f) k) s.
Proof. intros H. apply ends_step. intros now. specialize (H now). destruct ((f now s).2); [by constructor|done]. Qed.

Lemma load_insert id id' jm (s s' : brain) : br_files s' = <[safe_name id := jm]> (br_files s) →
  load id' s' = if decide (safe_name id = safe_name id') then jm else load id' s.
Proof.
  intros H. unfold load. rewrite H. destruct (decide _) as [->|Hne]; [by rewrite lookup_insert_eq|by rewrite lookup_insert_ne].
Qed.
Lemma jobs_distinct s j j' p : jobs_ok s → br_jobs s !! j = Some p → br_jobs s !! j' = Some p → j = j'.
Proof. intros Hok (o & Ho & <-)%Hok (o' & Ho' & <-)%Hok. by simplify_eq. Qed.

(** One job escalated. *)
Lemma escalate_one s0 done id p s now1 now2 now3 s2 s3 : id ∉ done → br_jobs s0 !! id = Some p → escalated s0 done s →
  mem_Update (wr_orgID cfg) id (λ _, m_stage StageEscalated) now2 (update_job p (with_stage StageEscalated) now1 s).1 = (s2, None) →
  (∃ payload, append ("brain.msg." +:+ TypeJobUpdate) id RoleBrain payload now3 s2 = (s3, None)) →
  escalated s0 (done ++ [id]) s3.
Proof.
  intros Hid Hp [Hj Ht Hok Hd Hr Hl] Hm [payload Ha].
  apply mem_Update_cases in Hm as ((Hh2 & Hj2 & Ht2) & Hdb2 & Hf2). destruct (Hf2 eq_refl) as [jm Hf]. clear Hf2.
  pose proof Ha as Ha'. apply append_cases in Ha as ((Hh3 & Hj3 & Ht3) & _ & Hrow). destruct Hrow as [[_ Hrow]|[[? ?] _]]; [|done].
  assert (Hf3 : br_files s3 = br_files s2) by (unfold append in Ha'; destruct (Append _ _ _); by injection Ha' as <- _).
  cbn [update_job fst with_heap br_heap br_jobs br_tasks br_files br_store] in *.
  destruct (Hok id p) as (o & Ho & Hoj); [by rewrite Hj|].
  assert (Heap : br_heap s3 = alter (with_stage StageEscalated) p (br_heap s)) by congruence.
  assert (Jobs : br_jobs s3 = br_jobs s) by congruence.
  split.
  - congruence.
  - congruence.
  - intros j q Hq. rewrite Jobs in Hq. destruct (Hok j q Hq) as (x & Hx & Hxj). rewrite Heap.
    destruct (decide (q = p)) as [->|Hne].
    + exists (with_stage StageEscalated x). by rewrite list_lookup_alter_eq, Hx.
    + exists x. by rewrite list_lookup_alter_ne.
  - intros j Hjd. split.
    + unfold stage_at. rewrite Jobs, Heap. apply elem_of_app in Hjd as [Hjd| ->%list_elem_of_singleton].
      * destruct (Hd j Hjd) as [Hst _]. unfold stage_at in Hst. destruct (br_jobs s !! j) as [q|] eqn:Eq; [|done]. cbn in *.
        rewrite list_lookup_alter_ne; [done|]. intros <-. destruct Hid.
        by rewrite (jobs_distinct s id j p Hok) by congruence.
      * rewrite Hj, Hp. cbn. by rewrite list_lookup_alter_eq, Ho.
    + unfold load. rewrite Hf3. change (default (noMemory j) (br_files s2 !! safe_name j)) with (load j s2).
      rewrite (load_insert id j _ _ _ Hf). destruct (decide _) as [|Hne]; [by destruct jm|].
      apply elem_of_app in Hjd as [Hjd| ->%list_elem_of_singleton]; [by apply Hd|done].
  - intros j q Hjd Hq. rewrite Heap. apply not_elem_of_app in Hjd as [Hjd Hne]. rewrite list_lookup_alter_ne; [by apply (Hr j)|].
    intros <-. apply Hne, list_elem_of_singleton. apply (jobs_distinct s j id p Hok); congruence.
  - rewrite Hrow, escalations_app, Hdb2, Hl, <-app_assoc. f_equal.
Qed.
Lemma escalate_ids_spec s0 ids : ∀ done s, escalated s0 done s → NoDup (done ++ ids) →
  (∀ j, j ∈ ids → is_Some (br_jobs s0 !! j)) →
  ends code (λ e s', e = None → escalated s0 (done ++ ids) s') (escalate_ids cfg ids) s.
Proof.
  induction ids as [|id ids IH]; intros done s He Hnd Hin; cbn [escalate_ids].
  { rewrite app_nil_r. by constructor. }
  destruct (Hin id) as [p Hp]; [by left|].
  assert (Hid : id ∉ done) by (apply NoDup_app in Hnd as (_ & Hnd & _); intros H; apply (Hnd id H); by left).
  destruct (es_ok _ _ _ He id p) as (o & Ho & _); [by rewrite (es_jobs _ _ _ He)|].
  apply ends_step. intros now1. unfold lookup_job. cbn [snd]. rewrite (es_jobs _ _ _ He), Hp. cbn [mbind option_bind].
  rewrite Ho. cbn [mbind option_bind fst snd].
  apply ends_act_andthen. intros now2.
  destruct (mem_Update _ id _ now2 _) as [s2 [e|]] eqn:Em; [done|]. cbn [fst snd].
  apply ends_bind with (P := λ e s3, ∃ now3 payload, append ("brain.msg." +:+ TypeJobUpdate) id RoleBrain payload now3 s2 = (s3, e)).
  { unfold tell, brain_message. apply ends_step. intros now3. unfold record. cbn [New en_Payload fst snd].
    apply ends_actP. intros now4. do 2 eexists. by apply surjective_pairing. }
  intros [e|] s3 (now3 & payload & Ha); [by constructor|].
  rewrite cons_middle, app_assoc. apply IH.
  - eapply escalate_one; [exact Hid|exact Hp|exact He|exact Em|by exists payload].
  - by rewrite <-app_assoc.
  - intros j Hj. apply Hin. by right.
Qed.

Lemma sorted_ids_elem l j : j ∈ isort String.ltb l ↔ j ∈ l.
Proof. by rewrite isort_perm. Qed.
Lemma interrupted_spec (s : brain) j : jobs_ok s → j ∈ interrupted_ids s ↔ ∃ st, stage_at j s = Some st ∧ inFlight st = true.
Proof.
  intros Hok. unfold interrupted_ids, stage_at. rewrite sorted_ids_elem, list_elem_of_fmap. split.
  - intros ([j' p] & -> & [Hf Hin]%list_elem_of_filter). apply elem_of_map_to_list in Hin. cbn in *.
    rewrite Hin. cbn. destruct (br_heap s !! p) as [o|]; [|done]. exists (js_Stage o). by split.
  - intros (st & Hst & Hf). destruct (br_jobs s !! j) as [p|] eqn:Ej; [|done]. cbn in Hst.
    destruct (br_heap s !! p) as [o|] eqn:Eo; [|done]. cbn in Hst. simplify_eq. exists (j, p). split; [done|].
    apply list_elem_of_filter. split; [by cbn; rewrite Eo|]. by apply elem_of_map_to_list.
Qed.
Lemma interrupted_nodup (s : brain) : NoDup (interrupted_ids s).
Proof.
  unfold interrupted_ids. rewrite isort_perm. eapply sublist_NoDup; [apply (NoDup_fst_map_to_list (br_jobs s))|].
  apply fmap_sublist, sublist_filter.
Qed.
Lemma escalated_nothing (s : brain) : jobs_ok s → escalated s [] s.
Proof. intros Hok. split; try done; [by intros j H%elem_of_nil|by rewrite app_nil_r]. Qed.

Lemma escalate_all (s : brain) : jobs_ok s →
  ends code (λ e s', e = None →
    br_tasks s' = br_tasks s ∧ escalations (log s') = escalations (log s) ++ interrupted_ids s ∧
    ∀ j st, stage_at j s = Some st →
      if inFlight st then stage_at j s' = Some StageEscalated ∧ jm_Stage (load j s') = StageEscalated
      else stage_at j s' = Some st)
    (EscalateInterruptedTasks cfg) s.
Proof.
  intros Hok. unfold EscalateInterruptedTasks. apply ends_step. intros now. cbn [fst snd].
  eapply ends_mono; [apply (escalate_ids_spec s (interrupted_ids s) [] s)|].
  - by apply escalated_nothing.
  - apply interrupted_nodup.
  - intros j (st & Hst & _)%interrupted_spec; [|done]. unfold stage_at in Hst. by destruct (br_jobs s !! j).
  - intros e s' H He. destruct (H He) as [Hj Ht _ Hd Hr Hl]. split; [done|]. split; [done|]. intros j st Hst.
    destruct (inFlight st) eqn:Ef.
    + apply Hd. cbn [app]. apply interrupted_spec; [done|]. by exists st.
    + rewrite <-Hst. unfold stage_at in *. rewrite Hj. destruct (br_jobs s !! j) as [p|] eqn:Ep; [|done]. cbn in *.
      rewrite (Hr j p); [done| |done]. intros (st' & Hst' & Hf')%interrupted_spec; [|done].
      unfold stage_at in Hst'. rewrite Ep in Hst'. cbn in Hst'. rewrite Hst in Hst'. simplify_eq. congruence.
Qed.

(** ** Recovery *)
(** The working set as the files of [s0] have it, as far as it goes. *)
Record recovering (s0 s : brain) : Prop := MkRecovering {
  rg_files : br_files s = br_files s0;
  rg_log : log s = log s0;
  rg_tasks : br_tasks s = br_tasks s0;
  rg_jobs : ∀ j p, br_jobs s !! j = Some p →
    ∃ o, br_heap s !! p = Some o ∧ js_JobID o = j ∧ js_Stage o = jm_Stage (load j s0) }.
Lemma recovering_ok s0 s : recovering s0 s → jobs_ok s.
Proof. intros [_ _ _ H] j p (o & Ho & Hj & _)%H. by exists o. Qed.
Lemma recovering_stage s0 s j : recovering s0 s → is_Some (br_jobs s !! j) → stage_at j s = Some (jm_Stage (load j s0)).
Proof. intros [_ _ _ H] [p Hp]. unfold stage_at. rewrite Hp. destruct (H j p Hp) as (o & Ho & _ & Hst). cbn. by rewrite Ho, <-Hst. Qed.
Lemma recover_jobs_spec s0 ids : ∀ s s', recovering s0 s → recover_jobs ids s = (s', None) →
  recovering s0 s' ∧ ∀ j, is_Some (br_jobs s' !! j) ↔ j ∈ ids ∨ is_Some (br_jobs s !! j).
Proof.
  induction ids as [|id ids IH]; intros s s' Hr; cbn; [intros [= <-]; split; [done|]; intros j; rewrite elem_of_nil; tauto|].
  destruct (disk_fails s) as [s1 b] eqn:Ed.
  assert (E : br_heap s1 = br_heap s ∧ br_jobs s1 = br_jobs s ∧ br_files s1 = br_files s ∧ br_store s1 = br_store s ∧ br_tasks s1 = br_tasks s)
    by (unfold disk_fails in Ed; destruct (br_disk s); by injection Ed as <- _).
  destruct E as (Eh & Ej & Ef & Es & Et). destruct b; [done|]. destruct (br_jobs s1 !! id) as [q|] eqn:Eq.
  - intros Hgo. destruct (IH s1 s') as [H1 H2]; [|done|split; [done|]].
    + destruct Hr. split; try congruence. rewrite Eh, Ej. done.
    + intros j. rewrite H2, Ej, elem_of_cons. split; [tauto|]. intros [[-> |]|]; [|tauto..]. right. rewrite <-Ej. by rewrite Eq.
  - intros Hgo. destruct (IH (insert_job (recovered_job id (load id s1)) s1) s') as [H1 H2]; [|done|split; [done|]].
    + destruct Hr as [Hf Hl Ht Hj]. split; [cbn; congruence|cbn; congruence|cbn; congruence|]. cbn. rewrite Ej, Eh. intros j p.
      destruct (decide (id = j)) as [<-|Hne].
      * rewrite lookup_insert_eq. intros [= <-]. exists (recovered_job id (load id s1)).
        rewrite list_lookup_middle by done. split; [done|]. split; [done|]. cbn. unfold load. by rewrite Ef, Hf.
      * rewrite lookup_insert_ne by done. intros (o & Ho & Hx)%Hj. exists o. split; [|done]. by apply lookup_app_l_Some.
    + intros j. rewrite H2. cbn. rewrite Ej, elem_of_cons. destruct (decide (id = j)) as [<-|Hne].
      * rewrite lookup_insert_eq. split; [tauto|]. right. by eexists.
      * rewrite lookup_insert_ne by done. split; [tauto|]. intros [[-> |]|]; tauto.
Qed.
Lemma reproject_same ids : ∀ (s : brain), calm s (reproject cfg ids s).1 ∧
  br_files (reproject cfg ids s).1 = br_files s ∧ log (reproject cfg ids s).1 = log s.
Proof.
  induction ids as [|id ids IH]; intros s; cbn; [by repeat split|].
  destruct (disk_fails s) as [s1 b] eqn:Ed. pose proof (disk_calm s) as Hc. rewrite Ed in Hc. cbn in Hc.
  assert (E : br_files s1 = br_files s ∧ br_store s1 = br_store s)
    by (unfold disk_fails in Ed; destruct (br_disk s); by injection Ed as <- _).
  destruct E as [Ef Es]. destruct b; [cbn; rewrite Es; by split|].
  pose proof (projectJobRow_calm (wr_orgID cfg) (load id s1) s1) as Hp. unfold projectJobRow, bindM in *.
  destruct (stmt ErrQuery (br_store s1)) as [st1 q1] eqn:E1. pose proof (stmt_same _ _ _ _ E1) as D1.
  destruct q1; [|cbn in *; repeat split; try congruence; by eapply calm_trans].
  destruct (stmt ErrQuery st1) as [st2 q2] eqn:E2. pose proof (stmt_same _ _ _ _ E2) as D2.
  destruct q2; cbn in *; [|repeat split; try congruence; by eapply calm_trans].
  match goal with |- context [reproject cfg ids ?x] => destruct (IH x) as (Hi & Hf & Hl) end.
  cbn in *. split; [|split; congruence]. eapply calm_trans; [exact Hc|]. by eapply calm_trans.
Qed.

Lemma Recover_spec (s : brain) : br_jobs s = ∅ →
  ends code (λ e s1, e = None → recovering s s1 ∧ ∀ j, is_Some (br_jobs s1 !! j) ↔ j ∈ file_names s) (Recover cfg) s.
Proof.
  intros Hnew. unfold Recover. apply ends_step. intros now. cbn [fst snd]. destruct (br_recovered s); [by constructor|].
  apply ends_step. intros now2. unfold mem_List. destruct (disk_fails (with_recovered s)) as [s1 b] eqn:Ed. cbn [fst snd].
  assert (E : br_heap s1 = br_heap s ∧ br_jobs s1 = br_jobs s ∧ br_files s1 = br_files s ∧ br_store s1 = br_store s ∧ br_tasks s1 = br_tasks s)
    by (unfold disk_fails in Ed; cbn in Ed; destruct (br_disk s); by injection Ed as <- _).
  destruct E as (Eh & Ej & Ef & Es & Et). destruct b; [by constructor|].
  assert (Hfn : file_names s1 = file_names s) by (unfold file_names; by rewrite Ef). rewrite Hfn.
  apply ends_act_andthen. intros now3. destruct (recover_jobs (file_names s) s1) as [s2 [e|]] eqn:Er; [done|]. cbn [fst snd].
  destruct (recover_jobs_spec s (file_names s) s1 s2) as [H2 Hdom]; [|done|].
  { split; try congruence. intros j p. rewrite Ej, Hnew, lookup_empty. done. }
  apply ends_step. intros now4. destruct (disk_fails s2) as [s3 b3] eqn:Ed3. cbn [fst snd].
  assert (E3 : br_heap s3 = br_heap s2 ∧ br_jobs s3 = br_jobs s2 ∧ br_files s3 = br_files s2 ∧ br_store s3 = br_store s2 ∧ br_tasks s3 = br_tasks s2)
    by (unfold disk_fails in Ed3; destruct (br_disk s2); by injection Ed3 as <- _).
  destruct E3 as (Eh3 & Ej3 & Ef3 & Es3 & Et3). destruct b3; [by constructor|].
  apply ends_actP. intros now5 _.
  destruct (reproject_same (file_names s3) s3) as ((Rh & Rj & Rt) & Rf & Rl).
  split; [|intros j; rewrite Rj, Ej3, Hdom, Ej, Hnew, lookup_empty; split; [intros [?|[? ?]]; done|tauto]].
  destruct H2 as [Hf Hl Ht Hj]. split; [congruence|rewrite Rl; congruence|congruence|].
  rewrite Rj, Rh, Ej3, Eh3. done.
Qed.

(** C29: after a restart no job is left in flight.  Recovery reads every memory
    file into the working set; the startup escalation that follows it turns
    exactly the jobs whose file says a worker had them into escalated ones, in
    the working set and on disk, tells the owner of each of them once, leaves
    every other job at the stage its file gives, and starts no worker. *)
Theorem restart_escalates (s : brain) : br_jobs s = ∅ →
  ends code (λ e s', e = None → ∃ ids, NoDup ids ∧
    (∀ n, n ∈ ids ↔ n ∈ file_names s ∧ inFlight (jm_Stage (load n s)) = true) ∧
    br_tasks s' = br_tasks s ∧ escalations (log s') = escalations (log s) ++ ids ∧
    ∀ n, n ∈ file_names s →
      if inFlight (jm_Stage (load n s)) then stage_at n s' = Some StageEscalated ∧ jm_Stage (load n s') = StageEscalated
      else stage_at n s' = Some (jm_Stage (load n s)))
    (andthen (Recover cfg) (EscalateInterruptedTasks cfg)) s.
Proof.
  intros Hnew. apply ends_bind with (P := λ e s1, e = None →
    recovering s s1 ∧ ∀ j, is_Some (br_jobs s1 !! j) ↔ j ∈ file_names s).
  - apply Recover_spec. done.
  - intros [e|] s1 H1; [by constructor|]. destruct (H1 eq_refl) as [Hr Hdom]. clear H1.
    eapply ends_mono; [apply escalate_all, (recovering_ok _ _ Hr)|]. intros e s' H He. destruct (H He) as (Ht & Hl & Hst).
    exists (interrupted_ids s1). split; [apply interrupted_nodup|].
    assert (Hs : ∀ n, n ∈ file_names s → stage_at n s1 = Some (jm_Stage (load n s)))
      by (intros n Hn; by apply recovering_stage, Hdom).
    split; [|split; [by rewrite Ht, (rg_tasks _ _ Hr)|split; [by rewrite Hl, (rg_log _ _ Hr)|]]].
    + intros n. rewrite interrupted_spec by by eapply recovering_ok. split.
      * intros (st & Hn & Hf). assert (n ∈ file_names s) as Hin.
        { apply Hdom. unfold stage_at in Hn. by destruct (br_jobs s1 !! n). }
        split; [done|]. rewrite Hs in Hn by done. by simplify_eq.
      * intros [Hn Hf]. exists (jm_Stage (load n s)). by rewrite Hs.
    + intros n Hn. apply (Hst n _ (Hs n Hn)).
Qed.
End Restart.
