(* ===== verification/Log.v ===== *)
(** The events the hub answers for, under every interleaving ([Hub]): the
    versions of an invoice, and the completion of a milestone. *)
From Stdlib Require Import Ascii String.
From S2P Require Import Prelude GoStr GoTime GoJson Store Like Proc Envelope Worker Brain Accept Milestone Invoices Hub.
From S2P Require Indexer Billing.
#[local] Open Scope Z_scope.
#[local] Open Scope snap_scope.
#[local] Set Default Proof Using "Type".

Definition is_event (kind entity : string) (r : EventRow) : Prop := ev_kind r = kind ∧ ev_entity r = entity.
#[global] Instance is_event_dec kind entity r : Decision (is_event kind entity r) := _.
(** The version numbers of a job's invoices, in the order of the log. *)
Definition versions (j : string) (l : list EventRow) : list (option Z) :=
  (λ r, dec_int "version" (ev_payload r)) <$> filter (is_event "billing.invoice" j) l.
Definition completions (j : string) (l : list EventRow) : nat :=
  length (filter (is_event "pipeline.milestone.completed" j) l).
Definition consecutive (l : list (option Z)) : Prop := l = Some <$> seqZ 1 (Z.of_nat (length l)).
Record log_ok (l : list EventRow) : Prop := MkLogOk {
  log_versions : ∀ j, consecutive (versions j l);
  log_completions : ∀ j, (completions j l ≤ 1)%nat }.

Lemma consecutive_snoc l z : consecutive l → z = Z.of_nat (length l) + 1 → consecutive (l ++ [Some z]).
Proof.
  unfold consecutive. intros Hl ->. rewrite length_app, Nat2Z.inj_add. rewrite seqZ_app; [|lia|cbn; lia]. rewrite fmap_app.
  rewrite <-Hl. f_equal. rewrite seqZ_cons by (cbn; lia). rewrite seqZ_nil by (cbn; lia). cbn. do 2 f_equal. lia.
Qed.
Lemma versions_snoc j l row : versions j (l ++ [row]) =
  versions j l ++ (if bool_decide (is_event "billing.invoice" j row) then [dec_int "version" (ev_payload row)] else []).
Proof.
  unfold versions. rewrite filter_app, fmap_app. f_equal. rewrite filter_cons, filter_nil.
  case_decide as H; [by rewrite bool_decide_eq_true_2|by rewrite bool_decide_eq_false_2].
Qed.
Lemma completions_snoc j l row : completions j (l ++ [row]) =
  (completions j l + if bool_decide (is_event "pipeline.milestone.completed" j row) then 1 else 0)%nat.
Proof.
  unfold completions. rewrite filter_app, length_app. f_equal. rewrite filter_cons, filter_nil.
  case_decide as H; [by rewrite bool_decide_eq_true_2|by rewrite bool_decide_eq_false_2].
Qed.
Lemma log_other l row : log_ok l → ev_kind row ∉ guarded → log_ok (l ++ [row]).
Proof.
  intros [Hv Hc] Hk. unfold guarded in Hk. split; intros j.
  - rewrite versions_snoc, bool_decide_eq_false_2, app_nil_r; [done|]. intros [H _]. rewrite H in Hk. set_solver.
  - rewrite completions_snoc, bool_decide_eq_false_2, Nat.add_0_r; [done|]. intros [H _]. rewrite H in Hk. set_solver.
Qed.
Lemma log_others l rows : log_ok l → Forall (λ r, ev_kind r ∉ guarded) rows → log_ok (l ++ rows).
Proof.
  intros Hl Hf. induction rows as [|row rows IH] using rev_ind; [by rewrite app_nil_r|].
  apply Forall_app in Hf as [Hr Hrow]. rewrite app_assoc. apply log_other; [auto|]. by apply Forall_inv in Hrow.
Qed.

Section Log.
Context {X : Type} (cfg : Wiring X) (r : Reach X) `{Hflow : !AdvanceFlow r}.
Abbreviation brain := (Brain X).
Abbreviation log s := (events (db (br_store s))).
Definition keeps_log (s s' : brain) : Prop := log_ok (log s) → log_ok (log s').

Lemma grows_log s s' : grows s s' → keeps_log s s'.
Proof. intros (rows & E & Hf) Hl. unfold keeps_log. rewrite E. by apply log_others. Qed.
(** A query reads, or fails; either way the log is the same. *)
Lemma query_cases {A} (f : brain → A) now s s' q : query f now s = (s', q) →
  db (br_store s') = db (br_store s) ∧ (q = Ok (f s) ∨ ∃ e, q = Err e).
Proof.
  unfold query. destruct (stmt _ _) as [st x] eqn:E. apply stmt_same in E.
  destruct x; intros [= <- <-]; (split; [exact E|eauto]).
Qed.
Lemma observe_log id jm now s : keeps_log s (observe_once (re_seams r) id jm now s).1.
Proof.
  intros Hl. unfold observe_once. destruct (query _ now s) as [s1 q] eqn:Eq.
  apply query_cases in Eq as [Hd Hq]. destruct q as [prior|e]; [|by cbn; rewrite Hd].
  destruct Hq as [[= ->]|[? ?]]; [|done].
  destruct (Nat.ltb _ _) eqn:Ep; [by cbn; rewrite Hd|]. apply Nat.ltb_ge in Ep.
  destruct (sm_milestone (re_seams r)) as [o|].
  - destruct (or_AdvanceLanded o (jm_VaultJobID jm) (br_ext s1)) as [[|]|], (or_SettlementLanded o (jm_VaultJobID jm) (br_ext s1)) as [[|]|]; try by cbn; rewrite Hd.
    destruct (or_AdvanceRateBps o (br_ext s1)) as [rate|]; [|by cbn; rewrite Hd].
    destruct (append _ _ _ _ now s1) as [s2 e] eqn:Ea.
    apply append_cases in Ea as (_ & _ & [[_ He]|[_ He]]); [|by cbn; rewrite He, Hd].
    cbn [fst]. rewrite He, Hd. split; intros j.
    + rewrite versions_snoc, bool_decide_eq_false_2, app_nil_r; [by apply Hl|]. by intros [H _].
    + rewrite completions_snoc. case_bool_decide as Hj; [|rewrite Nat.add_0_r; by apply Hl].
      destruct Hj as [_ Hj]. cbn in Hj. subst j. change (completions id (log s) ≤ 0)%nat in Ep. lia.
  - apply (grows_log s1); [|by cbn; rewrite Hd]. apply append_tame, unguarded. reflexivity.
Qed.
Lemma version_log known id trigger jm now s :
  keeps_log s (next_version (re_quoteGo r) (re_get_chain r) (re_set_chain r) known id trigger jm now s).1.
Proof.
  intros Hl. unfold next_version. destruct (query _ now s) as [s1 q] eqn:Eq.
  apply query_cases in Eq as [Hd Hq]. destruct q as [prior|e]; [|by cbn; rewrite Hd].
  destruct Hq as [[= ->]|[? ?]]; [|done].
  destruct (Billing.Invoice _ _ _ (re_get_chain r (br_ext s1))) as [ch [inv|e]]; [|cbn; by cbn; rewrite Hd].
  destruct (append _ _ _ _ now _) as [s2 e] eqn:Ea.
  apply append_cases in Ea as (_ & _ & Ha).
  assert (Hs : (∃ row, log s2 = log s ++ [row] ∧ ev_kind row = "billing.invoice" ∧ ev_entity row = id ∧
                  dec_int "version" (ev_payload row) = Some (Z.of_nat (count "billing.invoice" id s) + 1)) ∨
               log s2 = log s).
  { cbn [with_ext br_store] in Ha. rewrite Hd in Ha. destruct Ha as [[_ He]|[_ He]]; [left|right; by rewrite He].
    eexists. split; [exact He|]. split; [done|]. split; [done|]. reflexivity. }
  assert (Hgoal : log_ok (log s2)); [|by destruct e].
  destruct Hs as [(row & -> & Hk & Hen & Hv)| ->]; [|done]. split; intros j.
  - rewrite versions_snoc. case_bool_decide as Hj; [|rewrite app_nil_r; by apply Hl].
    destruct Hj as [_ Hj]. rewrite Hv. apply consecutive_snoc; [by apply Hl|].
    unfold versions, count. rewrite length_fmap. rewrite <-Hj, Hen. reflexivity.
  - rewrite completions_snoc, bool_decide_eq_false_2, Nat.add_0_r; [by apply Hl|]. intros [H _]. by rewrite Hk in H.
Qed.
Abbreviation hub_step := (pstep (runTask (re_err_text r) cfg) finish_task (operation cfg r) tame).
Lemma log_kept s s' ts : log_ok (log s) → rtc hub_step (s, []) (s', ts) → log_ok (log s').
Proof using Hflow.
  intros Hl Hr.
  apply (every_invariant (runTask (re_err_text r) cfg) finish_task (λ s, log_ok (log s)) (operation cfg r) tame s s' ts); [..|done|done].
  - intros t. apply every_runTask, grows_log.
  - intros t x. apply every_finish, grows_log.
  - intros p Hp. apply (every_operation cfg r keeps_log); auto using grows_log, observe_log, version_log.
  - intros s1 s2 [_ Hg]. by apply grows_log.
Qed.

(** A job's invoices are versioned without gap or repetition.  However the
    goroutines of the hub interleave (two owners asking for the same invoice,
    the settlement observer, accepts, workers' messages, failures of the
    store), the versions of the job's [billing.invoice] events stay 1, 2, 3,
    ... in the order of the log. *)
Lemma invoice_versions_consecutive s s' ts j :
  log_ok (log s) → rtc hub_step (s, []) (s', ts) →
  versions j (log s') = Some <$> seqZ 1 (Z.of_nat (length (versions j (log s')))).
Proof using Hflow. intros Hl Hr. apply (log_kept s s' ts Hl Hr). Qed.
(** A milestone is completed once.  However accepts of one job and their
    retries interleave, at most one [pipeline.milestone.completed] is on the
    log for it. *)
Lemma milestone_completed_once s s' ts j :
  log_ok (log s) → rtc hub_step (s, []) (s', ts) → (completions j (log s') ≤ 1)%nat.
Proof using Hflow. intros Hl Hr. apply (log_kept s s' ts Hl Hr). Qed.
End Log.
