(* ===== verification/HubScenario.v ===== *)
(** A small hub, run: the theorems about the hub applied to it. *)
From Stdlib Require Import Ascii String.
From S2P Require Import Prelude GoStr GoTime GoJson Store Like Proc Envelope Worker Brain Accept Milestone Invoices Hub.
From S2P Require Import Delivered Log Restart.
From S2P Require Freeze Indexer Billing.
#[local] Open Scope Z_scope.
#[local] Open Scope snap_scope.

(** Scripted due diligence under review, no chain beyond its tables. *)
Definition X : Type := Indexer.ChainStore.
Definition chain0 : X := Indexer.MkChainStore Indexer.emptyChain [].
Definition sample_cfg : Wiring X :=
  MkWiring (Some (λ _, Some ("vendor check", "25.00", "dd-analyst")))
    (<["dd-analyst" := StubDD_Handle]> (<[QAKind := qa_Handle (λ s, s) ["secret"]]> ∅)) QAKind 2 "org_1" None.
Definition sample_reach : Reach X :=
  MkReach X (MkSeams None None (Some None) None None) None (λ s, s) (λ s, s) (λ s, s) (λ _, "error") (λ x, x) (λ x _, x).
#[global] Instance sample_flow : AdvanceFlow sample_reach.
Proof. by split. Qed.
Definition hub0 : Brain X :=
  MkBrain [] ∅ ∅ ∅ [] (MkStore emptyDB []) ∅ None false true chain0.
Abbreviation sample_play := (play (runTask (re_err_text sample_reach) sample_cfg) finish_task 1000 10 1700000000000000000).

(** A request confirmed: drafted, bounced, revised, passed. *)
Definition delivery_ops : list (proc (Brain X) Task (option BErr) unit) :=
  [quietly (HandleOwnerRequest sample_cfg "job_1" "check the vendor"); quietly (Confirm sample_cfg "job_1" "owner")].
Definition delivered_hub : Brain X := default hub0 (sample_play delivery_ops hub0).
Lemma delivery_run : (λ o, (js_Stage o, js_RevisionCount o)) <$> br_heap delivered_hub = [(StageDeliveryReady, 1)].
Proof. vm_compute. reflexivity. Qed.
Lemma delivery_played : sample_play delivery_ops hub0 = Some delivered_hub.
Proof.
  unfold delivered_hub. assert (H : is_Some (sample_play delivery_ops hub0)); [|by destruct H as [? ->]].
  apply (bool_decide_unpack _). vm_compute. exact I.
Qed.
Lemma delivery_operations : Forall (operation sample_cfg sample_reach) delivery_ops.
Proof. repeat constructor. Qed.
Lemma delivered_object : ∃ o, br_heap delivered_hub !! 0%nat = Some o ∧ js_Stage o = StageDeliveryReady.
Proof.
  pose proof delivery_run as H. destruct (br_heap delivered_hub) as [|o h]; [done|]. cbn in H. exists o. by simplify_eq.
Qed.
Lemma delivered_was_reviewed_witness :
  ∃ ts o d d', rtc (pstep (runTask (re_err_text sample_reach) sample_cfg) finish_task
                  (operation sample_cfg sample_reach) outside) (hub0, []) (delivered_hub, ts) ∧
    br_heap delivered_hub !! 0%nat = Some o ∧ js_Draft o = Some d ∧
    deliverable_of_json (json_Marshal (deliverable_json d)) = Some d' ∧ deliverable_ok ["secret"] d'.
Proof.
  destruct (play_reaches (runTask (re_err_text sample_reach) sample_cfg) finish_task
    (operation sample_cfg sample_reach) outside _ _ _ _ _ _ delivery_operations delivery_played) as [ts Hts].
  destruct delivered_object as (o & Ho & Hst).
  destruct (delivered_was_reviewed sample_cfg (λ s, s) ["secret"]) with (r := sample_reach) (s := hub0)
    (s' := delivered_hub) (ts := ts) (p := 0%nat) (o := o) as (d & d' & Hd & Hd' & Hok).
  - discriminate.
  - reflexivity.
  - exact sample_flow.
  - intros p x H. by destruct p.
  - intros p x H. by destruct p.
  - intros j p H. change ((∅ : gmap string nat) !! j = Some p) in H. by rewrite lookup_empty in H.
  - exact Hts.
  - exact Ho.
  - by left.
  - exists ts, o, d, d'. exact (conj Hts (conj Ho (conj Hd (conj Hd' Hok)))).
Defined.

(** Two invoices asked for. *)
Definition invoice_ops : list (proc (Brain X) Task (option BErr) unit) :=
  [quietly (HandleOwnerRequest sample_cfg "job_1" "check the vendor");
   quietly (GenerateInvoice (λ s, s) (Some None) (λ x, x) (λ x _, x) "job_1" "owner-request");
   quietly (GenerateInvoice (λ s, s) (Some None) (λ x, x) (λ x _, x) "job_1" "owner-request")].
Definition invoiced_hub : Brain X := default hub0 (sample_play invoice_ops hub0).
Lemma invoices_played : sample_play invoice_ops hub0 = Some invoiced_hub.
Proof.
  unfold invoiced_hub. assert (H : is_Some (sample_play invoice_ops hub0)); [|by destruct H as [? ->]].
  apply (bool_decide_unpack _). vm_compute. exact I.
Qed.
Lemma invoice_operations : Forall (operation sample_cfg sample_reach) invoice_ops.
Proof.
  constructor; [apply op_request|]. constructor; [apply (op_invoice _ sample_reach "job_1")|].
  constructor; [apply (op_invoice _ sample_reach "job_1")|constructor].
Qed.
Lemma empty_log_ok : log_ok [].
Proof. split; intros j; [reflexivity|cbn; lia]. Qed.
Lemma invoice_versions_consecutive_witness :
  versions "job_1" (events (db (br_store invoiced_hub))) = [Some 1; Some 2] ∧
  versions "job_1" (events (db (br_store invoiced_hub))) =
    Some <$> seqZ 1 (Z.of_nat (length (versions "job_1" (events (db (br_store invoiced_hub)))))).
Proof.
  split; [vm_compute; reflexivity|].
  destruct (play_reaches (runTask (re_err_text sample_reach) sample_cfg) finish_task
    (operation sample_cfg sample_reach) tame _ _ _ _ _ _ invoice_operations invoices_played) as [ts Hts].
  exact (invoice_versions_consecutive sample_cfg sample_reach hub0 invoiced_hub ts "job_1" empty_log_ok Hts).
Defined.

(** A settled milestone, accepted again. *)
Definition milestone_reach : Reach X :=
  MkReach X (MkSeams None (Some (λ _ _, Some true)) None
    (Some (MkOracle (λ _ _, Some true) (λ _ _, Some true) (λ _, Some 4500))) None)
    None (λ s, s) (λ s, s) (λ s, s) (λ _, "error") (λ x, x) (λ x _, x).
#[global] Instance milestone_flow : AdvanceFlow milestone_reach.
Proof. by split. Qed.
Definition milestone_hub : Brain X :=
  MkBrain [MkJob "milestone_1" "repo" "1.00" StageDeliveryReady BuildMonitorKind None 0 None]
    (<["milestone_1" := 0%nat]> ∅) ∅
    (<["milestone_1" := m_instruction "standing" 1 (m_vault "0xv" (noMemory "milestone_1"))]> ∅) []
    (MkStore emptyDB []) ∅ None false true chain0.
Definition accept_ops : list (proc (Brain X) Task (option BErr) unit) :=
  let accept := quietly (AcceptDelivery sample_cfg (re_err_text milestone_reach) (re_seams milestone_reach)
                           (re_get_chain milestone_reach) "milestone_1") in [accept; accept].
Abbreviation accept_play := (play (runTask (re_err_text milestone_reach) sample_cfg) finish_task 1000 10 1700000000000000000).
Definition accepted_hub : Brain X := default milestone_hub (accept_play accept_ops milestone_hub).
Lemma accepts_played : accept_play accept_ops milestone_hub = Some accepted_hub.
Proof.
  unfold accepted_hub. assert (H : is_Some (accept_play accept_ops milestone_hub)); [|by destruct H as [? ->]].
  apply (bool_decide_unpack _). vm_compute. exact I.
Qed.
Lemma accept_operations : Forall (operation sample_cfg milestone_reach) accept_ops.
Proof. constructor; [apply op_accept|]. constructor; [apply op_accept|constructor]. Qed.
Lemma milestone_completed_once_witness :
  (0 < completions "milestone_1" (events (db (br_store accepted_hub))) ≤ 1)%nat.
Proof.
  split; [apply Nat.ltb_lt; vm_compute; reflexivity|].
  destruct (play_reaches (runTask (re_err_text milestone_reach) sample_cfg) finish_task
    (operation sample_cfg milestone_reach) tame _ _ _ _ _ _ accept_operations accepts_played) as [ts Hts].
  exact (milestone_completed_once sample_cfg milestone_reach milestone_hub accepted_hub ts "milestone_1" empty_log_ok Hts).
Defined.

(** A hub killed while a worker had one of its two jobs. *)
Definition killed_hub : Brain X :=
  MkBrain [] ∅ ∅
    (<["job_1" := m_stage StageAssigned (noMemory "job_1")]> (<["job_2" := m_stage StageScoped (noMemory "job_2")]> ∅)) []
    (MkStore emptyDB []) ∅ None false false chain0.
Abbreviation startup := (andthen (Recover sample_cfg) (EscalateInterruptedTasks sample_cfg)).
Lemma startup_runs :
  (λ r, (r.1.2, js_Stage <$> br_heap r.1.1, escalations (events (db (br_store r.1.1))))) <$>
    run (runTask (re_err_text sample_reach) sample_cfg) 100 1700000000000000000 startup killed_hub =
  Some (None, [StageEscalated; StageScoped], ["job_1"]).
Proof. vm_compute. reflexivity. Qed.
Lemma restart_escalates_witness :
  br_jobs killed_hub = ∅ ∧
  ∃ n s' e ts, run (runTask (re_err_text sample_reach) sample_cfg) n 1700000000000000000 startup killed_hub = Some (s', e, ts) ∧
    (e = None → ∃ ids, NoDup ids ∧
      (∀ n, n ∈ ids ↔ n ∈ file_names killed_hub ∧ inFlight (jm_Stage (load n killed_hub)) = true) ∧
      br_tasks s' = br_tasks killed_hub ∧
      escalations (events (db (br_store s'))) = escalations (events (db (br_store killed_hub))) ++ ids ∧
      ∀ n, n ∈ file_names killed_hub →
        if inFlight (jm_Stage (load n killed_hub))
        then stage_at n s' = Some StageEscalated ∧ jm_Stage (load n s') = StageEscalated
        else stage_at n s' = Some (jm_Stage (load n killed_hub))).
Proof.
  split; [reflexivity|]. apply ends_run.
  exact (restart_escalates (re_err_text sample_reach) sample_cfg killed_hub eq_refl).
Defined.
