(* ===== verification/Owner.v ===== *)
(** The owner API ([internal/ownerapi]): the two-principal HTTP surface.

    A handler takes the request and the world the lifecycle and the store live
    in ([Approval.World]) and gives back the world and a reply.  The seams the
    daemon wires (to [Brain], mostly) are fields of [Server]; a nil seam is
    [None].  [rq_path] are the segments of the cleaned path, [rq_body] is the
    document [json.Decoder] reads from the first 64 KiB ([None]: it reads
    none).  The stream is in [Stream]. *)
From Stdlib Require Import Ascii String.
From S2P Require Import Prelude GoStr GoTime GoJson Intent Policy Store Approval Amount Envelope.
From S2P Require Indexer Invoices Brain.
#[local] Open Scope Z_scope.
#[local] Open Scope snap_scope.
#[local] Set Default Proof Using "Type".

(** ** Requests and replies *)
Record HttpRequest := MkHttp {
  rq_method : string; rq_path : list string; rq_auth : string; rq_lastEventID : string; rq_body : option jval }.
Record Response := MkResponse { rs_status : Z; rs_body : option jval }.
(** [rs_body = None]: a text page of the mux. *)
Definition writeJSON (status : Z) (v : jval) : Response := MkResponse status (Some (json_Marshal v)).
Definition writeErr (status : Z) (code msg : string) (current : option jval) : Response :=
  writeJSON status (JObj ([("error", JObj [("code", JStr code); ("message", JStr msg)])] ++
                          match current with Some c => [("current", c)] | None => [] end)).
Definition StatusOK : Z := 200.
Definition StatusCreated : Z := 201.
Definition StatusBadRequest : Z := 400.
Definition StatusUnauthorized : Z := 401.
Definition StatusNotFound : Z := 404.
Definition StatusMethodNotAllowed : Z := 405.
Definition StatusConflict : Z := 409.
Definition StatusGone : Z := 410.
Definition StatusLocked : Z := 423.
Definition StatusInternalServerError : Z := 500.
Definition StatusServiceUnavailable : Z := 503.

(** ** What the seams carry *)
(** An error as the handlers look at it: the sentinel it wraps and its text. *)
Inductive sentinel := BrainErrFrozen | BrainErrNotDeliveryReady | BillingErrUnknownJob.
#[export] Instance sentinel_eq_dec : EqDecision sentinel.
Proof. solve_decision. Defined.
Record SeamErr := MkSeamErr { se_Is : option sentinel; se_Error : string }.
Definition is_err (x : sentinel) (e : SeamErr) : bool := bool_decide (se_Is e = Some x).

Record WorkerManifest := MkWorkerManifest {
  wm_ID : string; wm_Name : string; wm_Category : string; wm_Description : string;
  wm_Permissions : list string; wm_ChecklistPath : string }.
Record HireWorkerRequest := MkHire { hw_ManifestID : string; hw_Repository : string; hw_QuoteUSDC : string; hw_By : string }.
Record HireWorkerResult := MkHired { hr_JobID : string; hr_VaultJobID : string; hr_State : string }.
Record WorkerActivation := MkActivation {
  wa_ManifestID : string; wa_Repository : string; wa_QuoteUSDC : string; wa_JobID : string;
  wa_VaultJobID : string; wa_State : string }.
Definition manifest_json (m : WorkerManifest) : jval :=
  JObj ([("id", JStr (wm_ID m)); ("name", JStr (wm_Name m)); ("category", JStr (wm_Category m));
         ("description", JStr (wm_Description m)); ("permissions", JArr (JStr <$> wm_Permissions m))] ++
        opt_str "checklistPath" (wm_ChecklistPath m)).
Definition hired_json (r : HireWorkerResult) : jval :=
  JObj [("jobId", JStr (hr_JobID r)); ("vaultJobId", JStr (hr_VaultJobID r)); ("state", JStr (hr_State r))].
Definition activation_json (a : WorkerActivation) : jval :=
  JObj [("manifestId", JStr (wa_ManifestID a)); ("repository", JStr (wa_Repository a)); ("quoteUsdc", JStr (wa_QuoteUSDC a));
        ("jobId", JStr (wa_JobID a)); ("vaultJobId", JStr (wa_VaultJobID a)); ("state", JStr (wa_State a))].
Definition hire_of_json (v : jval) : option HireWorkerRequest :=
  m ← dec_str "manifestId" v; r ← dec_str "repository" v; q ← dec_str "quoteUsdc" v; b ← dec_str "by" v;
  Some (MkHire m r q b).

(** The pattern of the quotes a hire is taken at: a whole part without leading
    zeros, then optionally a point and one or two digits. *)
Definition positiveUSDCQuote (s : string) : bool :=
  let '(whole, frac) := cut_at "." s in
  negb (bool_decide (whole = "")) && sall isDigit whole &&
  (bool_decide (whole = "0") || match whole with String c _ => negb (bool_decide (c = "0"%char)) | "" => false end) &&
  match frac with
  | None => true
  | Some f => sall isDigit f && (Nat.leb 1 (String.length f) && Nat.leb (String.length f) 2)
  end.
(** [strings.Trim(s, "0.") == ""]. *)
Definition zero_or_dot (c : ascii) : bool := bool_decide (c = "0"%char) || bool_decide (c = "."%char).
Definition all_zero (s : string) : bool := sall zero_or_dot s.

Section Owner.
Context {W : Type} (ap_text : ApErr → string) (quoteGo : string → string).
Abbreviation World := (World W).
Definition seam (A : Type) : Type := time → World → World * result SeamErr A.

Record Server := MkServer {
  sv_token : string; sv_orgAddress : string;
  Generate : option (string → seam Invoices.InvoiceRecord);
  MintAccept : option (string → seam string);
  VerifyAccept : option (string → string → World → World * bool);
  AcceptSeam : option (string → seam string);
  JobState : option (string → World → option string);
  VaultJobID : option (string → World → string);
  ProposeAdvance : option (string → seam Request);
  WorkerCatalog : list WorkerManifest;
  HireWorker : option (HireWorkerRequest → seam HireWorkerResult);
  ListWorkerActivations : option (seam (list WorkerActivation)) }.

Abbreviation handler := (HttpRequest → time → World → World * Response).
Definition not_wired (msg : string) : Response := writeErr StatusServiceUnavailable "NOT_WIRED" msg None.

(** ** Workforce *)
Definition handleWorkerManifests (sv : Server) : handler := λ _ _ w,
  (w, writeJSON StatusOK (JObj [("manifests", JArr (manifest_json <$> WorkerCatalog sv))])).
Definition handleWorkerActivations (sv : Server) : handler := λ _ now w,
  match ListWorkerActivations sv with
  | None => (w, writeJSON StatusOK (JObj [("activations", JArr [])]))
  | Some list =>
    match list now w with
    | (w, Err e) => (w, writeErr StatusInternalServerError "ACTIVATIONS_UNAVAILABLE" (se_Error e) None)
    | (w, Ok l) => (w, writeJSON StatusOK (JObj [("activations", JArr (activation_json <$> l))]))
    end
  end.
Definition hire_request (id : string) (body : HireWorkerRequest) : HireWorkerRequest :=
  MkHire (TrimSpace id) (TrimSpace (hw_Repository body)) (TrimSpace (hw_QuoteUSDC body)) (TrimSpace (hw_By body)).
Definition handleHireWorker (sv : Server) (id : string) : handler := λ r now w,
  match rq_body r ≫= hire_of_json with
  | None => (w, writeErr StatusBadRequest "BAD_REQUEST" "malformed JSON body" None)
  | Some body =>
    let q := hire_request id body in
    if bool_decide (hw_ManifestID q = "") || bool_decide (hw_Repository q = "") ||
       bool_decide (hw_QuoteUSDC q = "") || bool_decide (hw_By q = "")
    then (w, writeErr StatusBadRequest "BAD_REQUEST"
               "hire requires a manifest id, repository, quoteUsdc, and owner identity" None)
    else if negb (positiveUSDCQuote (hw_QuoteUSDC q)) || all_zero (hw_QuoteUSDC q)
    then (w, writeErr StatusBadRequest "BAD_REQUEST"
               "quoteUsdc must be a strictly positive decimal with at most two fractional digits" None)
    else match HireWorker sv with
    | None => (w, not_wired "worker activation is not wired in this build")
    | Some hire =>
      match hire q now w with
      | (w, Err e) => (w, writeErr StatusConflict "HIRE_FAILED" (se_Error e) None)
      | (w, Ok res) => (w, writeJSON StatusCreated (hired_json res))
      end
    end
  end.

(** ** Approvals *)
Definition viewOf (r : Request) : jval :=
  JObj [("requestId", JStr (r_ID r)); ("jobId", JStr (r_JobID r)); ("intentHash", JStr (r_IntentHash r));
        ("merchant", JStr (i_Merchant (r_Intent r))); ("resource", JStr (i_Resource (r_Intent r)));
        ("amountUsdc", JStr (FormatInt (i_AmountMicros (r_Intent r)))); ("purpose", JStr (i_Purpose (r_Intent r)));
        ("expiresAt", JStr (RFC3339 (r_ExpiresAt r))); ("alternativeTo", JStr (i_AlternativeTo (r_Intent r)))].
Definition handleApprovals : handler := λ _ _ w,
  (w, writeJSON StatusOK (JObj [("approvals", JArr (viewOf <$> PendingRequests w))])).

Record decisionBody := MkDecision { db_Kind : string; db_By : string; db_Reason : string; db_IntentHash : string }.
Definition decision_of_json (v : jval) : option decisionBody :=
  k ← dec_str "kind" v; b ← dec_str "by" v; r ← dec_str "reason" v; h ← dec_str "intentHash" v;
  Some (MkDecision k b r h).
Definition decision_kind (k : string) : option string :=
  if bool_decide (k = "approve") then Some DecideApprove
  else if bool_decide (k = "reject") then Some DecideReject
  else if bool_decide (k = "request_alternative") then Some DecideRequestAlternative
  else None.
Definition decided_json (d : Request) : jval :=
  JObj [("requestId", JStr (r_ID d)); ("state", JStr (r_State d)); ("decidedBy", JStr (r_DecidedBy d)); ("reason", JStr (r_Reason d))].
Definition decision_reply (r : result ApErr Request) : Response :=
  match r with
  | Ok d => writeJSON StatusOK (decided_json d)
  | Err ErrExpired => writeErr StatusGone "APPROVAL_EXPIRED" "the approval window elapsed before the decision" None
  | Err (ErrAlreadyDecided s) => writeErr StatusConflict "ALREADY_DECIDED" (ap_text (ErrAlreadyDecided s)) None
  | Err ErrUnknownRequest => writeErr StatusNotFound "UNKNOWN_REQUEST" "no approval request with that id" None
  | Err e => writeErr StatusInternalServerError "INTERNAL" (ap_text e) None
  end.
Definition handleDecision (id : string) : handler := λ r now w,
  match rq_body r ≫= decision_of_json with
  | None => (w, writeErr StatusBadRequest "BAD_REQUEST" "malformed JSON body" None)
  | Some body =>
    match decision_kind (db_Kind body), bool_decide (db_By body = "") || bool_decide (db_IntentHash body = "") with
    | Some kind, false =>
      match Snapshot id w with
      | None => (w, writeErr StatusNotFound "UNKNOWN_REQUEST" "no approval request with that id" None)
      | Some snap =>
        if negb (bool_decide (r_IntentHash snap = db_IntentHash body))
        then (w, writeErr StatusConflict "STALE_VIEW"
                   "the intent changed since this view was rendered; re-render and decide again" (Some (viewOf snap)))
        else let '(w, d) := Decide now id kind (db_By body) (db_Reason body) w in (w, decision_reply d)
      end
    | _, _ => (w, writeErr StatusBadRequest "BAD_REQUEST"
                    "decision requires kind (approve|reject|request_alternative), by, and the intentHash you were shown" None)
    end
  end.

(** ** Invoices *)
Definition invoice_view (version : Z) (trigger : string) (invoice reconciliation alerts : jval) : jval :=
  JObj [("version", JInt version); ("trigger", JStr trigger); ("invoice", invoice);
        ("reconciliation", reconciliation); ("alerts", alerts)].
Definition ownerInvoiceView (rec : Invoices.InvoiceRecord) : jval :=
  let st := Invoices.rc_Set rec in
  invoice_view (Invoices.rc_Version rec) (Invoices.rc_Trigger rec)
    (Invoices.invoice_json (Invoices.rc_Title rec) (Billing.st_Owner st))
    (JObj [("outcomes", JArr (Invoices.outcome_json <$> Billing.st_Outcomes st))])
    (if bool_decide (Billing.st_Alerts st = []) then JNull
     else JArr (Invoices.billing_alert_json quoteGo <$> Billing.st_Alerts st)).
Definition handleInvoiceGenerate (sv : Server) (id : string) : handler := λ _ now w,
  match Generate sv with
  | None => (w, not_wired "invoice generation is not wired in this build")
  | Some generate =>
    match generate id now w with
    | (w, Ok rec) => (w, writeJSON StatusOK (ownerInvoiceView rec))
    | (w, Err e) =>
      (w, if is_err BillingErrUnknownJob e
          then writeErr StatusNotFound "UNKNOWN_JOB" "the daemon has no such job" None
          else writeErr StatusInternalServerError "INTERNAL" (se_Error e) None)
    end
  end.
(** The newest recorded version: a statement that may fail, then the last row.
    The record's documents are served as they were stored. *)
Record storedInvoice := MkStored {
  si_Version : Z; si_Trigger : string; si_Owner : jval; si_Customer : jval; si_Reconciliation : jval; si_Alerts : jval }.
Definition stored_of_json (v : jval) : option storedInvoice :=
  n ← dec_int "version" v; t ← dec_str "trigger" v; o ← dec_obj "owner" v; c ← dec_obj "customer" v;
  r ← dec_obj "reconciliation" v; a ← dec_obj "alerts" v; Some (MkStored n t o c r a).
Definition latest_invoice (id : string) (s : Store) : option EventRow :=
  last (filter (λ r, ev_kind r = "billing.invoice" ∧ ev_entity r = id) (events (db s))).
Definition handleStoredInvoice (missing : string) (view : storedInvoice → jval) (id : string) : handler := λ _ _ w,
  match stmt ErrQuery (st w) with
  | (s, Err e) => (with_st s w, writeErr StatusInternalServerError "INTERNAL" (ap_text (ErrQueryLog e)) None)
  | (s, Ok _) =>
    (with_st s w,
     match latest_invoice id s with
     | None => writeErr StatusNotFound "NO_INVOICE" missing None
     | Some row =>
       match stored_of_json (ev_payload row) with
       | None => writeErr StatusInternalServerError "INTERNAL" "corrupt invoice record" None
       | Some rec => writeJSON StatusOK (view rec)
       end
     end)
  end.
Definition handleInvoiceLatest : string → handler :=
  handleStoredInvoice "no invoice version has been generated for this job"
    (λ rec, invoice_view (si_Version rec) (si_Trigger rec) (si_Owner rec) (si_Reconciliation rec) (si_Alerts rec)).

(** ** The owner's other triggers *)
Definition handleMintAcceptLink (sv : Server) (id : string) : handler := λ _ now w,
  match MintAccept sv with
  | None => (w, not_wired "accept credentials are not wired in this build")
  | Some mint =>
    match mint id now w with
    | (w, Err e) => (w, writeErr StatusConflict "NOT_READY" (se_Error e) None)
    | (w, Ok token) =>
      (w, writeJSON StatusOK (JObj [("jobId", JStr id); ("acceptToken", JStr token);
                                    ("note", JStr "shown once; rotates any prior credential")]))
    end
  end.
Definition handleProposeAdvance (sv : Server) (id : string) : handler := λ _ now w,
  match ProposeAdvance sv with
  | None => (w, not_wired "advance proposals are not wired in this build")
  | Some propose =>
    match propose id now w with
    | (w, Ok req) =>
      (w, writeJSON StatusOK (JObj [("requestId", JStr (r_ID req)); ("jobId", JStr (r_JobID req)); ("state", JStr "pending");
             ("principalUsdc", JStr (FormatInt (i_AmountMicros (r_Intent req)))); ("expiresAt", JStr (RFC3339 (r_ExpiresAt req)));
             ("note", JStr "human approval required — decide in the approvals inbox")]))
    | (w, Err e) =>
      (w, if is_err BillingErrUnknownJob e then writeErr StatusNotFound "UNKNOWN_JOB" "the daemon has no such job" None
          else match strip_prefix "frozen:" (se_Error e) with
               | Some _ => writeErr StatusLocked "FROZEN" "the kill switch is engaged; advance proposals are stopped" None
               | None => writeErr StatusConflict "NOT_READY" (se_Error e) None
               end)
    end
  end.

(** ** The customer *)
Definition handleCustomerAccept (accept : string → seam string) (id : string) : handler := λ _ now w,
  match accept id now w with
  | (w, Ok state) => (w, writeJSON StatusOK (JObj [("jobId", JStr id); ("state", JStr state)]))
  | (w, Err e) =>
    (w, if is_err BrainErrFrozen e
        then writeErr StatusLocked "FROZEN" "the kill switch is engaged; settlement actions are stopped" None
        else if is_err BrainErrNotDeliveryReady e then writeErr StatusConflict "NOT_READY" (se_Error e) None
        else writeErr StatusInternalServerError "INTERNAL" (se_Error e) None)
  end.
Definition handleCustomerAcceptance (sv : Server) (state : string → World → option string) (id : string) : handler := λ _ _ w,
  (w, match state id w with
      | None => writeErr StatusNotFound "UNKNOWN_JOB" "the daemon has no such job" None
      | Some stage =>
        writeJSON StatusOK (JObj ([("jobId", JStr id); ("stage", JStr stage);
                                   ("accepted", JBool (bool_decide (stage = Brain.StageAccepted)))] ++
          match VaultJobID sv with Some vault => opt_str "vaultJobId" (vault id w) | None => [] end))
      end).
Definition handleCustomerInvoice : string → handler :=
  handleStoredInvoice "no receipt has been generated for this job yet"
    (λ rec, JObj [("version", JInt (si_Version rec)); ("invoice", si_Customer rec)]).

(** ** The two doors *)
Definition unauthenticated (msg : string) : Response := writeErr StatusUnauthorized "UNAUTHENTICATED" msg None.
Definition withAuth (sv : Server) (r : HttpRequest) : option Response :=
  if bool_decide (sv_token sv = "") then None
  else match strip_prefix "Bearer " (rq_auth r) with
       | Some t => if bool_decide (t = sv_token sv) then None else Some (unauthenticated "bearer token required")
       | None => Some (unauthenticated "bearer token required")
       end.
Definition withCustomerAuth (sv : Server) (id : string)
    (next : (string → seam string) → (string → World → option string) → handler) : handler := λ r now w,
  match VerifyAccept sv, AcceptSeam sv, JobState sv with
  | Some verify, Some accept, Some state =>
    let refused := unauthenticated "a valid accept credential for this job is required" in
    match strip_prefix "Bearer " (rq_auth r) with
    | None => (w, refused)
    | Some token =>
      match verify id token w with
      | (w, false) => (w, refused)
      | (w, true) => next accept state r now w
      end
    end
  | _, _, _ => (w, not_wired "customer surface is not wired in this build")
  end.

(** ** Routing *)
(** A pattern of the mux: a GET pattern takes HEAD too. *)
Definition method_matches (m : string) (r : HttpRequest) : bool :=
  bool_decide (rq_method r = m) || (bool_decide (m = "GET") && bool_decide (rq_method r = "HEAD")).
Inductive Route :=
| RHealth | RApprovals | RDecision (id : string) | RStream | RInvoiceGenerate (id : string)
| RInvoiceLatest (id : string) | RAcceptLink (id : string) | RAdvance (id : string) | RManifests
| RActivations | RHire (id : string).
Definition owner_routes (path : list string) : list (string * Route) :=
  match path with
  | ["api"; "v1"; "health"] => [("GET", RHealth)]
  | ["api"; "v1"; "approvals"] => [("GET", RApprovals)]
  | ["api"; "v1"; "approvals"; id; "decision"] => [("POST", RDecision id)]
  | ["api"; "v1"; "events"; "stream"] => [("GET", RStream)]
  | ["api"; "v1"; "jobs"; id; "invoice"] => [("POST", RInvoiceGenerate id); ("GET", RInvoiceLatest id)]
  | ["api"; "v1"; "jobs"; id; "accept-link"] => [("POST", RAcceptLink id)]
  | ["api"; "v1"; "jobs"; id; "advance"] => [("POST", RAdvance id)]
  | ["api"; "v1"; "workforce"; "manifests"] => [("GET", RManifests)]
  | ["api"; "v1"; "workforce"; "activations"] => [("GET", RActivations)]
  | ["api"; "v1"; "workforce"; id; "hire"] => [("POST", RHire id)]
  | _ => []
  end.
Definition owner_route (r : HttpRequest) : Route + Response :=
  let rs := owner_routes (rq_path r) in
  match filter (λ p, method_matches p.1 r = true) rs, rs with
  | (_, rt) :: _, _ => Datatypes.inl rt
  | [], [] => Datatypes.inr (MkResponse StatusNotFound None)
  | [], _ => Datatypes.inr (MkResponse StatusMethodNotAllowed None)
  end.
Inductive CustomerRoute := CAccept (id : string) | CAcceptance (id : string) | CInvoice (id : string).
Definition customer_route (r : HttpRequest) : option CustomerRoute :=
  match rq_path r with
  | ["api"; "v1"; "customer"; "jobs"; id; "accept"] => if method_matches "POST" r then Some (CAccept id) else None
  | ["api"; "v1"; "customer"; "jobs"; id; "acceptance"] => if method_matches "GET" r then Some (CAcceptance id) else None
  | ["api"; "v1"; "customer"; "jobs"; id; "invoice"] => if method_matches "GET" r then Some (CInvoice id) else None
  | _ => None
  end.

(** A reply: a response, or the stream, opened for the request. *)
Inductive Reply := Answer (r : Response) | OpenStream.
Definition answer (x : World * Response) : World * Reply := (x.1, Answer x.2).
Definition serve_owner (sv : Server) (rt : Route) (r : HttpRequest) (now : time) (w : World) : World * Reply :=
  match rt with
  | RHealth => (w, Answer (writeJSON StatusOK (JObj [("ok", JBool true)])))
  | RApprovals => answer (handleApprovals r now w)
  | RDecision id => answer (handleDecision id r now w)
  | RStream => (w, OpenStream)
  | RInvoiceGenerate id => answer (handleInvoiceGenerate sv id r now w)
  | RInvoiceLatest id => answer (handleInvoiceLatest id r now w)
  | RAcceptLink id => answer (handleMintAcceptLink sv id r now w)
  | RAdvance id => answer (handleProposeAdvance sv id r now w)
  | RManifests => answer (handleWorkerManifests sv r now w)
  | RActivations => answer (handleWorkerActivations sv r now w)
  | RHire id => answer (handleHireWorker sv id r now w)
  end.
Definition serve_customer (sv : Server) (rt : CustomerRoute) (r : HttpRequest) (now : time) (w : World) : World * Response :=
  match rt with
  | CAccept id => withCustomerAuth sv id (λ accept _, handleCustomerAccept accept id) r now w
  | CAcceptance id => withCustomerAuth sv id (λ _ state, handleCustomerAcceptance sv state id) r now w
  | CInvoice id => withCustomerAuth sv id (λ _ _, handleCustomerInvoice id) r now w
  end.
Definition Handler (sv : Server) (r : HttpRequest) (now : time) (w : World) : World * Reply :=
  match customer_route r with
  | Some rt => answer (serve_customer sv rt r now w)
  | None =>
    match withAuth sv r with
    | Some refused => (w, Answer refused)
    | None =>
      match owner_route r with
      | Datatypes.inl rt => serve_owner sv rt r now w
      | Datatypes.inr resp => (w, Answer resp)
      end
    end
  end.
End Owner.
