(* ===== verification/Doors.v ===== *)
(** The doors of the owner API: who gets in, and what a decision binds. *)
From Stdlib Require Import Ascii String.
From S2P Require Import Prelude GoStr GoTime GoJson Intent Policy Store Approval Owner.
#[local] Open Scope Z_scope.
#[local] Open Scope snap_scope.
#[local] Set Default Proof Using "Type".

(** ** Credentials *)
Section Doors.
Context {W : Type} (ap_text : ApErr → string) (quoteGo : string → string).
Abbreviation World := (World W).
Abbreviation Server := (Server (W := W)).
Implicit Types w : World.

Definition customer_job (rt : CustomerRoute) : string := match rt with CAccept id | CAcceptance id | CInvoice id => id end.
(** The request carries the credential of this very job. *)
Definition opens (sv : Server) (r : HttpRequest) (job : string) (w : World) : Prop :=
  ∃ verify token, VerifyAccept sv = Some verify ∧ rq_auth r = "Bearer " +:+ token ∧ (verify job token w).2 = true.
(** Checking a credential is all that happened. *)
Definition only_verified (sv : Server) (job : string) (w w' : World) : Prop :=
  w' = w ∨ ∃ verify token, VerifyAccept sv = Some verify ∧ w' = (verify job token w).1.

Definition refusal (resp : Response) : Prop := rs_status resp ∈ [StatusUnauthorized; StatusServiceUnavailable].
Lemma refusal_unauthenticated msg : refusal (unauthenticated msg).
Proof. by apply (bool_decide_unpack _). Qed.
Lemma refusal_not_wired msg : refusal (not_wired msg).
Proof. by apply (bool_decide_unpack _). Qed.
Lemma customer_door sv id next r now w : ¬ opens sv r id w →
  let out := withCustomerAuth sv id next r now w in only_verified sv id w out.1 ∧ refusal out.2.
Proof.
  intros Hno. unfold withCustomerAuth, only_verified. unfold opens in Hno.
  pose proof refusal_unauthenticated as R1. pose proof refusal_not_wired as R2.
  destruct (VerifyAccept sv) as [verify|]; [|by split; [left|apply R2]].
  destruct (AcceptSeam sv); [|by split; [left|apply R2]]. destruct (JobState sv); [|by split; [left|apply R2]].
  destruct (strip_prefix "Bearer " (rq_auth r)) as [token|] eqn:Et; [|by split; [left|apply R1]].
  apply strip_prefix_inv in Et. destruct (verify id token w) as [w1 b] eqn:Ev.
  destruct b; [|split; [right; exists verify, token; by rewrite Ev|apply R1]].
  destruct Hno. exists verify, token. by rewrite Ev.
Qed.

End Doors.

(** ** What a decision binds *)
Section Binding.
Context {W : Type} `{HooksLaws W} (keccak256 : string → string).
Hypothesis keccak_ascii : ∀ s, sall acc1 (keccak256 s) = true.
Abbreviation World := (World W).
Implicit Types w : World.

(** A request carries the hash of its own intent, which is text. *)
Definition hashed (r : Request) : Prop :=
  r_IntentHash r = InternalHash keccak256 (r_Intent r) ∧ intent_utf8 (r_Intent r) = true.
Definition all_hashed (w : World) : Prop := map_Forall (λ _, hashed) (requests w).

Lemma hashed_insert id r (m : gmap string Request) : map_Forall (λ _, hashed) m → hashed r → map_Forall (λ _, hashed) (<[id := r]> m).
Proof. intros Hm Hr. by apply map_Forall_insert_2. Qed.
Lemma hashed_update id r st by_ re at_ (m : gmap string Request) : map_Forall (λ _, hashed) m → m !! id = Some r →
  ∀ k, map_Forall (λ _, hashed) (<[k := set_state st by_ re at_ r]> m).
Proof. intros Hm Hr k. apply hashed_insert; [done|]. exact (Hm id r Hr). Qed.

Lemma hashed_step w w' : astep keccak256 w w' → Inv w → all_hashed w → all_hashed w'.
Proof using H0.
  intros Hs HI Ha. unfold all_hashed in *. destruct Hs as [now in0 w Hok|now in0 w Hok|now id kind by_ reason w|now in_ id w
    |now x w Hx Hp|now x failure w Hx Hp|w w' Hr Hi Hq|w w0 w' Hd Hr Hi HR].
  - destruct (Submit keccak256 now in0 w) as [w' r] eqn:E. cbn. destruct Hok as [Hu _].
    apply Submit_cases in E as (_ & _ & [(_ & -> & _)|(_ & auto & _ & _ & -> & _)]); [done|]. by apply hashed_insert.
  - destruct (SubmitAdvance keccak256 now in0 w) as [w' r] eqn:E. cbn. destruct Hok as [Hu _].
    apply SubmitAdvance_cases in E as (_ & _ & [(_ & -> & _)|(_ & _ & _ & -> & _)]); [done|]. by apply hashed_insert.
  - destruct (Decide now id kind by_ reason w) as [w' r] eqn:E. cbn.
    apply Decide_cases in E as (_ & _ & _ & [[-> _]|(req & ? & ? & ? & Hreq & _ & _ & -> & _)]); [done|]. by eapply hashed_update.
  - destruct (execute_admit keccak256 now in_ id w) as [w' r] eqn:E. cbn.
    apply execute_admit_cases in E as (_ & _ & _ & [(_ & _ & _ & [->|(req & Hreq & _ & ->)] & _)|(req & h & Hreq & _ & _ & _ & ->)]);
      [done|by eapply hashed_update|]. apply hashed_insert; [done|]. exact (Ha id req Hreq).
  - destruct (execute_claim now x w) as [w' r] eqn:E. cbn.
    apply execute_claim_cases in E as (_ & [(_ & -> & _)|(_ & -> & _)]); [done|]. unfold upd.
    destruct (requests w !! x_ID x) as [q|] eqn:Eq; [|done]. apply hashed_insert; [done|]. exact (Ha _ q Eq).
  - destruct (execute_finish now x failure w) as [w' r] eqn:E. cbn. by apply execute_finish_cases in E as (-> & _).
  - by rewrite Hr.
  - destruct HI as [_ (m & Hm & Hrec) _ _]. apply Recover_cases in HR as (_ & _ & Hrr). specialize (Hrr eq_refl).
    rewrite Hr, Hd, Hm in Hrr. injection Hrr as <-. intros id rec Hid. specialize (Hrec id). rewrite Hid in Hrec.
    destruct (requests w !! id) as [r|] eqn:Er; [|done]. destruct Hrec as (_ & _ & Hh & Hint & _).
    unfold hashed. rewrite Hh, Hint. exact (Ha id r Er).
Qed.
Lemma hashed_reachable w w' : start w → rtc (astep keccak256) w w' → all_hashed w'.
Proof using keccak_ascii H0.
  intros Hs Hr. assert (Hall : Inv w ∧ all_hashed w).
  { split; [by apply Inv_start|]. destruct Hs as (_ & Hs & _). unfold all_hashed. rewrite Hs. apply map_Forall_empty. }
  revert Hall. clear Hs. induction Hr as [|w1 w2 w3 Hst _ IH]; [by intros [_ ?]|].
  intros [HI Ha]. apply IH. split; [by eapply Inv_step|by eapply hashed_step].
Qed.

(** The request the owner decides on is the one the owner was shown, unless
    the two intents collide under the hash. *)
Definition is_shown (i : Intent) (req : Request) : Prop :=
  r_Intent req = i ∨ ∃ x y, x ≠ y ∧ keccak256 x = keccak256 y.
Lemma shown_intent i req : hashed req → intent_utf8 i = true → r_IntentHash req = InternalHash keccak256 i → is_shown i req.
Proof.
  intros [Hh Hu] Hi Heq. rewrite Hh in Heq.
  unfold InternalHash in Heq. destruct (decide (CanonicalInternal (r_Intent req) = CanonicalInternal i)) as [Hc|Hc].
  - left. apply intent_view_inj; [done|done|by apply intent_view_of_canonical].
  - right. exists (CanonicalInternal (r_Intent req)), (CanonicalInternal i). exact (conj Hc Heq).
Qed.

Lemma Decide_ok now id kind by_ reason w w' d : Decide now id kind by_ reason w = (w', Ok d) →
  ∃ req target, requests w !! id = Some req ∧ target_of kind = Some target ∧ r_State d = target ∧ r_Intent d = r_Intent req ∧
    (w' = w ∧ d = req ∨ requests w' = <[r_ID req := d]> (requests w)).
Proof.
  unfold Decide, bindM at 1, getM, failM, retM. destruct (bool_decide (by_ = "")); [done|].
  destruct (requests w !! id) as [req|]; [|done]. destruct (target_of kind) as [target|]; [|done].
  destruct (bool_decide (r_State req = target) && bool_decide (r_DecidedBy req = by_)) eqn:E1.
  { apply andb_true_iff in E1 as [E1%bool_decide_eq_true _]. intros Hx. injection Hx as <- <-. exists req, target. repeat (split; [done|]). by left. }
  destruct (terminal (r_State req)); [done|]. destruct (negb (Before now (r_ExpiresAt req))).
  - unfold bindM, modifyM. destruct (appendEvent _ _ _ _ _) as [w1 [u|e]]; intros Hx; discriminate Hx.
  - unfold bindM, modifyM. destruct (appendEvent _ _ _ _ _) as [w1 [u|e]] eqn:Ea; intros Hx; [|discriminate Hx].
    apply appendEvent_cases in Ea as (s1 & -> & _). injection Hx as <- <-. exists req, target.
    split; [done|]. split; [done|]. split; [done|]. split; [done|]. by right.
Qed.

(** C30: the owner decides on what the owner was shown.  In every reachable
    state of the lifecycle, a decision posted for request [id] with the hash of
    an intent [i] changes no other request; it changes that one, and is
    answered with success, only if the request's intent is [i] itself (or two
    intents collide under the hash); and then the request ends in the state
    the decision asks for, its intent untouched. *)
Theorem decision_binds_what_was_shown ap_text quoteGo (sv : Server (W := W)) w0 w r now id body i :
  start w0 → rtc (astep keccak256) w0 w →
  customer_route r = None → owner_route r = Datatypes.inl (RDecision id) →
  rq_body r ≫= decision_of_json = Some body →
  db_IntentHash body = InternalHash keccak256 i → intent_utf8 i = true →
  let out := Handler ap_text quoteGo sv r now w in
  (∀ j, requests out.1 !! j ≠ requests w !! j → j = id ∧ ∃ req, requests w !! id = Some req ∧ is_shown i req) ∧
  (∀ resp, out.2 = Answer resp → rs_status resp = StatusOK →
     ∃ req d, requests w !! id = Some req ∧ is_shown i req ∧ requests out.1 !! id = Some d ∧
       r_Intent d = r_Intent req ∧ decision_kind (db_Kind body) ≫= target_of = Some (r_State d)).
Proof using keccak_ascii H0.
  intros Hs Hr Hc Ho Hb Hh Hi. pose proof (hashed_reachable w0 w Hs Hr) as Ha.
  pose proof (inv_keyed w (Inv_reachable keccak256 keccak_ascii w0 w Hs Hr)) as Hk.
  unfold Handler. rewrite Hc. destruct (withAuth sv r) as [refused|] eqn:Eauth.
  { cbn. split; [done|]. intros resp [= <-]. unfold withAuth in Eauth.
    destruct (bool_decide _); [done|]. destruct (strip_prefix _ _); [destruct (bool_decide _)|]; by simplify_eq. }
  rewrite Ho. cbn [serve_owner]. unfold handleDecision. rewrite Hb.
  destruct (decision_kind (db_Kind body)) as [kind|]; [|by split; [|intros resp [= <-]]].
  destruct (_ || _); [by split; [|intros resp [= <-]]|]. unfold Snapshot.
  destruct (requests w !! id) as [req|] eqn:Er; [|by split; [|intros resp [= <-]]].
  destruct (bool_decide (r_IntentHash req = db_IntentHash body)) eqn:Eh; cbn [negb]; [|by split; [|intros resp [= <-]]].
  apply bool_decide_eq_true in Eh. destruct (Hk id req Er) as [Hid _].
  assert (Hshown : is_shown i req) by (apply shown_intent; [exact (Ha id req Er)|done|congruence]).
  destruct (Decide now id kind (db_By body) (db_Reason body) w) as [w' d] eqn:Ed. cbn. split.
  - intros j Hj. apply Decide_cases in Ed as (_ & _ & _ & [[Hrq _]|(q & ? & ? & ? & Hq & _ & _ & Hrq & _)]); [by rewrite Hrq in Hj|].
    rewrite Er in Hq. injection Hq as <-. rewrite Hrq, Hid in Hj.
    destruct (decide (j = id)) as [->|Hne]; [by eauto|by rewrite lookup_insert_ne in Hj].
  - intros resp [= <-] Hok. destruct d as [d|e]; [|by destruct e].
    apply Decide_ok in Ed as (q & target & Hq & Ht & Hd & Hint & Hw). rewrite Er in Hq. injection Hq as <-.
    exists req, d. split; [done|]. split; [done|]. split; [|by rewrite Hd].
    destruct Hw as [[-> ->]|Hw]; [done|]. rewrite Hw, <-Hid. by rewrite lookup_insert_eq.
Qed.
End Binding.
