(* ===== verification/Stream.v ===== *)
(** The event stream of the owner API ([handleStream], [aggregates.go],
    [chainrelay.go]).

    A connection keeps its place in the daemon's log, its place in the chain's
    events and a cache of job references; [tick] is one turn of the handler's
    loop.  [room] is how many frames are written before a write fails.  The
    projections of the shared database are [chain] and [job_rows] of the
    world's extension, [observed] is the time a chain log was seen at
    (milliseconds, 0 when the log is gone). *)
From Stdlib Require Import Ascii String.
From S2P Require Import Prelude GoStr GoTime GoJson Store Approval Owner.
From S2P Require Indexer.
#[local] Open Scope Z_scope.
#[local] Open Scope snap_scope.
#[local] Set Default Proof Using "Type".

(** ** Frames *)
Record Frame := MkFrame { fr_id : option Z; fr_data : jval }.
Definition sseWrite (id : Z) (v : jval) : Frame := MkFrame (if 0 <? id then Some id else None) (json_Marshal v).

Definition KindWorkerHeartbeat : string := "agent.heartbeat".
(** [strconv.ParseInt(v, 10, 64)] with its error dropped: 0 for what is no
    number, the nearest [int64] for what does not fit one. *)
Definition ParseInt_or_nearest (v : string) : Z :=
  match parse_int v with Some z => Z.max min_int64 (Z.min max_int64 z) | None => 0 end.

(** ** The chain's half *)
Definition chainCursor : Type := Z * Z.
Definition after (c p : chainCursor) : bool := (c.1 <? p.1) || ((p.1 =? c.1) && (c.2 <? p.2)).
Definition position (e : Indexer.ChainEvent) : chainCursor := (Indexer.ce_block e, Indexer.ce_index e).
Definition in_order (a b : Indexer.ChainEvent) : bool := after (position a) (position b).
Definition chainSeq (p : chainCursor) : string := FormatInt p.1 +:+ ":" +:+ FormatInt p.2.
Definition chainTime (observedAt : Z) : string :=
  if observedAt <=? 0 then "" else RFC3339 (time_UnixMilli observedAt).
Definition page : nat := 256.

(** ** Aggregates *)
Record openAdvance := MkOpenAdvance {
  oa_JobID : string; oa_Org : string; oa_PrincipalUsdc : string; oa_FeeUsdc : string; oa_Status : string }.
Record activeJob := MkActiveJob { aj_JobID : string; aj_PriceUsdc : string }.
Record aggregates := MkAggregates {
  ag_Pool : option Z; ag_OpenAdvances : list openAdvance; ag_ActiveJobs : list activeJob; ag_PendingApprovals : Z }.
Definition open_advance_json (a : openAdvance) : jval :=
  JObj [("jobId", JStr (oa_JobID a)); ("org", JStr (oa_Org a)); ("principalUsdc", JStr (oa_PrincipalUsdc a));
        ("feeUsdc", JStr (oa_FeeUsdc a)); ("status", JStr (oa_Status a))].
Definition active_job_json (a : activeJob) : jval :=
  JObj [("jobId", JStr (aj_JobID a)); ("priceUsdc", JStr (aj_PriceUsdc a))].

(** [ORDER BY last_block_number DESC, last_log_index DESC] of the rows of a
    projection. *)
Definition newest_first {A} (pos : A → chainCursor) (l : list A) : list A :=
  SliceStable (λ a b, after (pos b) (pos a)) l.
(** The org's row: [org_address = ? COLLATE NOCASE], the newest. *)
Definition org_rate (org : string) (d : Indexer.ChainDB) : option Z :=
  (λ p, p.2.1) <$>
  head (newest_first (λ p, p.2.2)
          (filter (λ p, lower_ascii p.1 = lower_ascii org) (map_to_list (Indexer.chain_org_rates d)))).
Definition financial_rows (d : Indexer.ChainDB) : list (string * Indexer.Financials) :=
  take page (newest_first (λ p, Indexer.fi_last p.2) (map_to_list (Indexer.chain_job_financials d))).
Definition open_advances (org : string) (rows : list (string * Indexer.Financials)) : list openAdvance :=
  omap (λ p, let f := p.2 in let principal := default "" (Indexer.fi_principal f) in
             let status := default "" (Indexer.fi_status f) in
             if bool_decide (status = "Issued") && negb (bool_decide (principal = ""))
             then Some (MkOpenAdvance p.1 org principal (default "" (Indexer.fi_fee f)) status) else None) rows.
Definition active_jobs (rows : list (string * Indexer.Financials)) : list activeJob :=
  omap (λ p, let funded := default "" (Indexer.fi_funded p.2) in
             if bool_decide (funded = "") then None else Some (MkActiveJob p.1 funded)) rows.

Section Stream.
Context {W : Type} (chain : W → Indexer.ChainDB) (job_rows : W → gmap string (option string)).
Context (observed : W → string → Z → Z).
Abbreviation World := (World W).

(** A read of the shared database: [None] when the statement fails. *)
Definition read {A} (f : World → A) (w : World) : World * option A :=
  match stmt ErrQuery (st w) with
  | (s, Ok _) => (with_st s w, Some (f w))
  | (s, Err _) => (with_st s w, None)
  end.

Definition computeAggregates (org : string) (pendingApprovals : Z) (w : World) : World * option aggregates :=
  let '(w, rate) := if bool_decide (org = "") then (w, None) else read (λ w, org_rate org (chain (ext w))) w in
  let pool := mjoin rate in
  let '(w, rows) := read (λ w, financial_rows (chain (ext w))) w in
  let rows := default [] rows in
  let agg := MkAggregates pool (open_advances org rows) (active_jobs rows) pendingApprovals in
  (w, if bool_decide (pool = None) && bool_decide (rows = []) then None else Some agg).

Definition snapshot_body (pending : Z) (agg : option aggregates) : jval :=
  let pool := match agg ≫= ag_Pool with Some r => JObj [("orgRateBps", JInt r)] | None => JNull end in
  let advances := match agg with Some a => JArr (open_advance_json <$> ag_OpenAdvances a) | None => JNull end in
  let jobs := match agg with Some a => JArr (active_job_json <$> ag_ActiveJobs a) | None => JNull end in
  JObj [("pendingApprovals", JInt pending); ("pool", pool); ("openAdvances", advances); ("activeJobs", jobs)].

(** The head of the chain's events: a newcomer starts there. *)
Definition latestChainCursor (w : World) : World * chainCursor :=
  let '(w, o) := read (λ w, head (newest_first position (Indexer.chain_events (chain (ext w))))) w in
  (w, match mjoin o with Some e => position e | None => (0, 0) end).

Definition chain_frame (w : World) (e : Indexer.ChainEvent) : Frame :=
  sseWrite 0 (JObj [("kind", JStr "event"); ("source", JStr "chain"); ("seq", JStr (chainSeq (position e)));
    ("event", JObj [("kind", JStr (Indexer.ce_kind e)); ("entityId", JStr (Indexer.ce_entity e));
                    ("actor", JStr (default "" (Indexer.ce_actor e)));
                    ("at", JStr (chainTime (observed (ext w) (Indexer.ce_tx e) (Indexer.ce_index e))));
                    ("payload", Indexer.ce_payload e); ("txHash", JStr (Indexer.ce_tx e));
                    ("block", JInt (Indexer.ce_block e))])]).
Definition chain_rows (from : chainCursor) (limit : nat) (d : Indexer.ChainDB) : list Indexer.ChainEvent :=
  take limit (SliceStable in_order (filter (λ e, after from (position e) = true) (Indexer.chain_events d))).
Definition readChainEvents (from : chainCursor) (limit : nat) (w : World) : World * option (list (chainCursor * Frame)) :=
  read (λ w, (λ e, (position e, chain_frame w e)) <$> chain_rows from limit (chain (ext w))) w.

(** ** The connection *)
Record Conn := MkConn { cn_lastSeq : Z; cn_chainAt : chainCursor; cn_refs : gmap string string }.
Definition chainRefFor (jobID : string) (refs : gmap string string) (w : World) : World * gmap string string * string :=
  if bool_decide (jobID = "") then (w, refs, "")
  else match refs !! jobID with
       | Some ref => (w, refs, ref)
       | None =>
         let '(w, o) := read (λ w, job_rows (ext w) !! jobID) w in
         let ref := match mjoin o with Some (Some v) => v | _ => "" end in
         (w, <[jobID := ref]> refs, ref)
       end.
Definition daemon_rows (lastSeq : Z) (d : DB) : list EventRow :=
  take page (filter (λ r, lastSeq < ev_seq r ∧ ev_kind r ≠ KindWorkerHeartbeat) (events d)).
Definition daemon_frame (x : EventRow) (ref : string) : Frame :=
  sseWrite (ev_seq x) (JObj [("kind", JStr "event"); ("source", JStr "daemon"); ("seq", JInt (ev_seq x));
    ("event", JObj ([("kind", JStr (ev_kind x)); ("jobId", JStr (ev_entity x)); ("actor", JStr (ev_actor x));
                     ("at", JStr (RFC3339 (time_UnixMilli (ev_ts x)))); ("payload", ev_payload x)] ++
                    (if bool_decide (ref = "") then [] else [("chainRef", JStr ref)])))]).

(** The chain's frames of one turn; then what is left of [room], [None] when a
    write failed. *)
Fixpoint send_chain (fs : list (chainCursor * Frame)) (room : nat) (c : Conn) : Conn * list Frame * option nat :=
  match fs, room with
  | [], _ => (c, [], Some room)
  | _ :: _, O => (c, [], None)
  | (cur, f) :: r, S room =>
    let '(c, sent, more) := send_chain r room (MkConn (cn_lastSeq c) cur (cn_refs c)) in (c, f :: sent, more)
  end.
Fixpoint send_rows (rows : list EventRow) (room : nat) (c : Conn) (w : World) : World * Conn * list Frame * bool :=
  match rows with
  | [] => (w, c, [], true)
  | x :: r =>
    let '(w, refs, ref) := chainRefFor (ev_entity x) (cn_refs c) w in
    match room with
    | O => (w, c, [], false)
    | S room =>
      let '(w, c, sent, up) := send_rows r room (MkConn (ev_seq x) (cn_chainAt c) refs) w in
      (w, c, daemon_frame x ref :: sent, up)
    end
  end.
(** One turn: the log is read first, the chain's frames are written first.
    The flag: the handler keeps serving. *)
Definition tick (room : nat) (c : Conn) (w : World) : World * Conn * list Frame * bool :=
  match read (λ w, daemon_rows (cn_lastSeq c) (db (st w))) w with
  | (w, None) => (w, c, [], false)
  | (w, Some batch) =>
    let '(w, frames) := readChainEvents (cn_chainAt c) page w in
    let '(c, sent, more) := send_chain (default [] frames) room c in
    match more with
    | None => (w, c, sent, false)
    | Some room => let '(w, c, sent2, up) := send_rows batch room c w in (w, c, sent ++ sent2, up)
    end
  end.
(** The opening of the stream: the snapshot, and where the connection
    starts. *)
Definition open_stream (sv : Server (W := W)) (lastEventID : string) (w : World) : World * Conn * Frame :=
  let lastSeq := if bool_decide (lastEventID = "") then 0 else ParseInt_or_nearest lastEventID in
  let pending := Z.of_nat (length (PendingRequests w)) in
  let '(w, agg) := computeAggregates (sv_orgAddress sv) pending w in
  let snapshot := sseWrite 0 (JObj [("kind", JStr "snapshot"); ("snapshot", snapshot_body pending agg)]) in
  let '(w, cur) := latestChainCursor w in
  (w, MkConn lastSeq cur ∅, snapshot).
End Stream.
