(* ===== verification/Session.v ===== *)
(** A client of the event stream: reconnecting, and what it has received. *)
From Stdlib Require Import Ascii String.
From S2P Require Import Prelude GoStr GoTime GoJson Store Approval Owner Stream.
From S2P Require Indexer.
#[local] Open Scope Z_scope.
#[local] Open Scope snap_scope.
#[local] Set Default Proof Using "Type".

(** ** Numbered logs *)
Definition owner_facing (l : list EventRow) : list EventRow := filter (λ r, ev_kind r ≠ KindWorkerHeartbeat) l.
Definition past (n : Z) (l : list EventRow) : list EventRow := filter (λ r, n < ev_seq r ∧ ev_kind r ≠ KindWorkerHeartbeat) l.
Definition log_ok (d : DB) : Prop := numbered ev_seq (events d) ∧ Z.of_nat (length (events d)) ≤ max_int64.

(** The rows are in the order of their numbers, all positive. *)
Definition ascending (l : list EventRow) : Prop := StronglySorted (λ a b, ev_seq a < ev_seq b) l ∧ Forall (λ r, 0 < ev_seq r) l.
Lemma numbered_tail (l : list EventRow) (k : Z) : 0 ≤ k → (∀ (i : nat) x, l !! i = Some x → ev_seq x = Z.of_nat i + 1 + k) →
  ascending l ∧ Forall (λ r, k < ev_seq r) l.
Proof.
  revert k. induction l as [|x l IH]; intros k Hk H; [by repeat split; constructor|].
  pose proof (H 0%nat x eq_refl) as Hx. destruct (IH (k + 1)) as [[Hs Hp] Hg]; [lia| |].
  { intros i y Hy. rewrite (H (S i) y Hy). lia. }
  split; [split|].
  - constructor; [done|]. eapply Forall_impl; [exact Hg|]. cbn. intros y Hy. lia.
  - constructor; [lia|done].
  - constructor; [lia|]. eapply Forall_impl; [exact Hg|]. cbn. intros y Hy. lia.
Qed.
Lemma filter_ascending (P : EventRow → Prop) `{!∀ r, Decision (P r)} l : ascending l → ascending (filter P l).
Proof.
  intros [Hs Hp]. split; [|by apply Forall_forall; intros r [_ Hr]%list_elem_of_filter; exact (proj1 (Forall_forall _ _) Hp r Hr)].
  clear Hp. induction Hs as [|x l Hs IH Hall]; [constructor|]. rewrite filter_cons. destruct (decide (P x)); [|done].
  constructor; [done|]. apply Forall_forall. intros r [_ Hr]%list_elem_of_filter. exact (proj1 (Forall_forall _ _) Hall r Hr).
Qed.
Lemma filter_all {A} (P : A → Prop) `{!∀ x, Decision (P x)} l : Forall P l → filter P l = l.
Proof. induction 1 as [|x l Hx _ IH]; [done|]. by rewrite filter_cons_True, IH. Qed.
Lemma filter_none {A} (P : A → Prop) `{!∀ x, Decision (P x)} l : Forall (λ x, ¬ P x) l → filter P l = [].
Proof. induction 1 as [|x l Hx _ IH]; [done|]. by rewrite filter_cons_False. Qed.
Lemma log_ascending d : log_ok d → ascending (owner_facing (events d)).
Proof.
  intros [Hn _]. apply filter_ascending, (numbered_tail _ 0); [lia|]. intros i x Hx. rewrite (Hn i x Hx). lia.
Qed.
(** The number of the last of the first rows; what is past it is the rest. *)
Definition place (a : list EventRow) : Z := default 0 (ev_seq <$> last a).
Lemma past_place a b : ascending (a ++ b) → filter (λ r, place a < ev_seq r) (a ++ b) = b.
Proof.
  intros [Hs Hp]. apply Forall_app in Hp as [_ Hp]. rewrite filter_app.
  assert (Hlt : Forall (λ r, ¬ place a < ev_seq r) a ∧ Forall (λ r, place a < ev_seq r) b).
  { unfold place. destruct (last a) as [x|] eqn:El; cbn; [|apply last_None in El as ->; by split; [constructor|]].
    apply last_Some in El as [k ->]. apply StronglySorted_app in Hs as (Hk & Hs & _).
    apply StronglySorted_app in Hs as (Hc & _ & _). split.
    - apply Forall_app. split; [|constructor; [lia|constructor]]. apply Forall_forall. intros y Hy.
      enough (ev_seq y < ev_seq x) by lia. apply Hc; [done|by left].
    - apply Forall_forall. intros y Hy. apply Hk; [|done]. apply elem_of_app. right. by left. }
  destruct Hlt as [H1 H2]. by rewrite filter_none, filter_all.
Qed.

(** ** What one turn sends *)
Definition is_daemon (f : Frame) : Prop := is_Some (fr_id f).
Definition delivers (f : Frame) (x : EventRow) : Prop := fr_id f = Some (ev_seq x) ∧ ∃ ref, f = daemon_frame x ref.
Lemma daemon_frame_delivers x ref : 0 < ev_seq x → delivers (daemon_frame x ref) x.
Proof. intros H. split; [|by exists ref]. unfold daemon_frame, sseWrite. cbn. by rewrite (proj2 (Z.ltb_lt 0 (ev_seq x))). Qed.
Lemma delivers_filter fs rows : Forall2 delivers fs rows → filter is_daemon fs = fs.
Proof. induction 1 as [|f x fs rows [Hf _] _ IH]; [done|]. rewrite filter_cons_True by by eexists. by rewrite IH. Qed.
Lemma delivers_ids fs rows : Forall2 delivers (filter is_daemon fs) rows → omap fr_id fs = ev_seq <$> rows.
Proof.
  revert rows. induction fs as [|f fs IH]; intros rows H; [by inversion H|]. cbn. destruct (fr_id f) as [z|] eqn:Ef.
  - rewrite filter_cons_True in H by (by eexists). inversion H as [|? x ? rows' [Hx _] Hr]; subst. cbn. rewrite (IH rows' Hr). congruence.
  - rewrite filter_cons_False in H by (intros [? ?]; congruence). by apply IH.
Qed.

Section Session.
Context {W : Type} (chain : W → Indexer.ChainDB) (job_rows : W → gmap string (option string)).
Context (observed : W → string → Z → Z) (sv : Server (W := W)).
Abbreviation World := (World W).
Abbreviation log w := (events (db (st w))).

Lemma read_db {A} (f : World → A) w : db (st (read f w).1) = db (st w).
Proof. unfold read. destruct (stmt ErrQuery (st w)) as [s [u|e]] eqn:E; apply stmt_cases in E as [E _]; by cbn. Qed.
Lemma read_healthy {A} (f : World → A) w : faults (st w) = [] → read f w = (with_st (st w) w, Some (f w)).
Proof. intros H. unfold read, stmt. by rewrite H. Qed.
Lemma chainRefFor_db job refs w : db (st (chainRefFor job_rows job refs w).1.1) = db (st w).
Proof.
  unfold chainRefFor. destruct (bool_decide (job = "")); [done|]. destruct (refs !! job); [done|].
  pose proof (read_db (λ w, job_rows (ext w) !! job) w) as H. by destruct (read _ w).
Qed.
Lemma send_rows_spec rows : ∀ room c w w' c' sent up, Forall (λ r, 0 < ev_seq r) rows →
  send_rows job_rows rows room c w = (w', c', sent, up) →
  db (st w') = db (st w) ∧ ∃ a b, rows = a ++ b ∧ Forall2 delivers sent a ∧
    cn_lastSeq c' = default (cn_lastSeq c) (ev_seq <$> last a) ∧ ((length rows ≤ room)%nat → b = [] ∧ up = true).
Proof.
  induction rows as [|x rows IH]; intros room c w w' c' sent up Hp; cbn.
  { intros [= <- <- <- <-]. split; [done|]. exists [], []. by repeat split. }
  pose proof (chainRefFor_db (ev_entity x) (cn_refs c) w) as Hd.
  destruct (chainRefFor job_rows (ev_entity x) (cn_refs c) w) as [[w1 refs] ref]. cbn in Hd.
  apply Forall_cons_1 in Hp as [Hx Hp]. destruct room as [|room].
  { intros [= <- <- <- <-]. split; [done|]. exists [], (x :: rows).
    split; [done|]. split; [constructor|]. split; [done|]. intros Hle. cbn in Hle. lia. }
  destruct (send_rows job_rows rows room _ w1) as [[[w2 c2] sent2] up2] eqn:E. intros [= <- <- <- <-].
  destruct (IH _ _ _ _ _ _ _ Hp E) as (Hd2 & a & b & -> & Hf & Hl & Hroom). split; [congruence|].
  exists (x :: a), b. split; [done|]. split; [constructor; [by apply daemon_frame_delivers|done]|]. split.
  - rewrite Hl, last_cons. by destruct (last a).
  - intros Hle. apply Hroom. cbn in Hle. lia.
Qed.
Lemma send_chain_spec fs : ∀ room c c' sent more, Forall (λ cf, fr_id cf.2 = None) fs →
  send_chain fs room c = (c', sent, more) →
  Forall (λ f, fr_id f = None) sent ∧ cn_lastSeq c' = cn_lastSeq c ∧
  ((length fs ≤ room)%nat → more = Some (room - length fs)%nat).
Proof.
  induction fs as [|[cur f] fs IH]; intros room c c' sent more Hn; cbn; [intros [= <- <- <-]; split; [constructor|]; split; [done|]; intros _; f_equal; lia|].
  apply Forall_cons_1 in Hn as [Hf Hn]. destruct room as [|room].
  { intros [= <- <- <-]. split; [constructor|]. split; [done|]. intros Hle. cbn in Hle. lia. }
  destruct (send_chain fs room _) as [[c2 sent2] more2] eqn:E. intros [= <- <- <-].
  destruct (IH _ _ _ _ _ Hn E) as (H1 & H2 & H3). split; [by constructor|]. split; [done|]. intros Hle. apply H3. lia.
Qed.
Lemma chain_frames_unnumbered from limit w w' o : readChainEvents chain observed from limit w = (w', o) →
  Forall (λ cf, fr_id cf.2 = None) (default [] o) ∧ (length (default [] o) ≤ limit)%nat.
Proof.
  unfold readChainEvents, read. destruct (stmt ErrQuery (st w)) as [s [u|e]]; intros [= <- <-]; cbn; [|split; [constructor|lia]].
  split; [by apply Forall_fmap, Forall_true|]. rewrite length_fmap. unfold chain_rows. rewrite length_take. lia.
Qed.
Lemma unnumbered_filter fs : Forall (λ f, fr_id f = None) fs → filter is_daemon fs = [].
Proof. intros H. apply filter_none. eapply Forall_impl; [exact H|]. intros f Hf [? ?]. cbn in *. congruence. Qed.

(** The rows a turn reads are the first page of what the connection has not
    sent. *)
Lemma daemon_rows_rest a b d : log_ok d → owner_facing (events d) = a ++ b → daemon_rows (place a) d = take page b.
Proof.
  intros Hok E. unfold daemon_rows. f_equal. rewrite <-list_filter_filter.
  change (filter (λ r, ev_kind r ≠ KindWorkerHeartbeat) (events d)) with (owner_facing (events d)).
  rewrite E. apply past_place. rewrite <-E. by apply log_ascending.
Qed.
Lemma tick_spec room c w w' c' sent up a b : log_ok (db (st w)) → owner_facing (log w) = a ++ b → cn_lastSeq c = place a →
  tick chain job_rows observed room c w = (w', c', sent, up) →
  db (st w') = db (st w) ∧ ∃ b1 b2, b = b1 ++ b2 ∧ Forall2 delivers (filter is_daemon sent) b1 ∧ cn_lastSeq c' = place (a ++ b1) ∧
    (faults (st w) = [] → (2 * page ≤ room)%nat → up = true ∧ b1 = take page b).
Proof.
  intros Hok E Hc. unfold tick. pose proof (log_ascending _ Hok) as Hasc. rewrite E in Hasc.
  pose proof (read_db (λ w, daemon_rows (cn_lastSeq c) (db (st w))) w) as Hd.
  assert (Hh : faults (st w) = [] → read (λ w, daemon_rows (cn_lastSeq c) (db (st w))) w =
    (with_st (st w) w, Some (daemon_rows (cn_lastSeq c) (db (st w)))))
    by exact (read_healthy (λ w, daemon_rows (cn_lastSeq c) (db (st w))) w).
  assert (Hb : ∀ w1 batch, read (λ w, daemon_rows (cn_lastSeq c) (db (st w))) w = (w1, Some batch) → batch = take page b).
  { unfold read. intros w1 batch. destruct (stmt ErrQuery (st w)) as [s [u|e]]; intros [= <- <-].
    rewrite Hc. by apply daemon_rows_rest. }
  destruct (read _ w) as [w1 o]. cbn [fst] in Hd. destruct o as [batch|].
  2: { intros [= <- <- <- <-]. split; [done|]. exists [], b. rewrite app_nil_r. split; [done|]. split; [constructor|]. split; [done|].
       intros Hf. by specialize (Hh Hf). }
  rewrite (Hb w1 batch eq_refl) in *. clear Hb Hh.
  destruct (readChainEvents chain observed (cn_chainAt c) page w1) as [w2 frames] eqn:Ec.
  assert (Hd2 : db (st w2) = db (st w1)).
  { pose proof (read_db (λ w, (λ e, (position e, chain_frame observed w e)) <$> chain_rows (cn_chainAt c) page (chain (ext w))) w1) as H.
    unfold readChainEvents in Ec. by rewrite Ec in H. }
  apply chain_frames_unnumbered in Ec as [Hn Hlen].
  destruct (send_chain (default [] frames) room c) as [[c1 sent1] more] eqn:Es.
  apply send_chain_spec in Es as (Hs1 & Hl1 & Hmore); [|done]. destruct more as [room'|].
  2: { intros [= <- <- <- <-]. split; [congruence|]. exists [], b. rewrite app_nil_r, unnumbered_filter by done.
       split; [done|]. split; [constructor|]. split; [congruence|]. intros _ Hr. discriminate Hmore. lia. }
  destruct (send_rows job_rows (take page b) room' c1 w2) as [[[w3 c3] sent2] up2] eqn:Er. intros [= <- <- <- <-].
  apply send_rows_spec in Er as (Hd3 & b1 & b2 & Eb & Hf & Hl3 & Hup).
  2: { apply Forall_take. destruct Hasc as [_ Hp]. by apply Forall_app in Hp as [_ Hp]. }
  split; [congruence|]. exists b1, (b2 ++ drop page b). rewrite app_assoc, <-Eb, take_drop. split; [done|].
  rewrite filter_app, (unnumbered_filter sent1), (delivers_filter _ _ Hf) by done. split; [done|]. split.
  - rewrite Hl3, Hl1, Hc. unfold place. rewrite last_app. by destruct (last b1).
  - intros _ Hr. assert (Hge : (length (take page b) ≤ room')%nat).
    { rewrite length_take. assert (Some room' = Some (room - length (default [] frames))%nat) as [= ->]; [apply Hmore|]; lia. }
    destruct (Hup Hge) as [-> ->]. by rewrite app_nil_r in Eb.
Qed.

(** With no statement failing, the store stays as it is. *)
Lemma read_still {A} (f : World → A) w : faults (st w) = [] → st (read f w).1 = st w.
Proof. intros H. by rewrite read_healthy. Qed.
Lemma chainRefFor_still job refs w : faults (st w) = [] → st (chainRefFor job_rows job refs w).1.1 = st w.
Proof.
  intros H. unfold chainRefFor. destruct (bool_decide (job = "")); [done|]. destruct (refs !! job); [done|].
  pose proof (read_still (λ w, job_rows (ext w) !! job) w H) as E. by destruct (read _ w).
Qed.
Lemma send_rows_still rows : ∀ room c w, faults (st w) = [] → st (send_rows job_rows rows room c w).1.1.1 = st w.
Proof.
  induction rows as [|x rows IH]; intros room c w H; cbn; [done|].
  pose proof (chainRefFor_still (ev_entity x) (cn_refs c) w H) as E.
  destruct (chainRefFor job_rows (ev_entity x) (cn_refs c) w) as [[w1 refs] ref]. cbn in E. destruct room as [|room]; [done|].
  rewrite <-E in H. specialize (IH room (MkConn (ev_seq x) (cn_chainAt c) refs) w1 H).
  destruct (send_rows job_rows rows room _ w1) as [[[w2 c2] sent2] up2]. cbn in *. congruence.
Qed.
Lemma tick_still room c w : faults (st w) = [] → st (tick chain job_rows observed room c w).1.1.1 = st w.
Proof.
  intros H. unfold tick. rewrite read_healthy by done.
  pose proof (read_still (λ w, (λ e, (position e, chain_frame observed w e)) <$> chain_rows (cn_chainAt c) page (chain (ext w)))
    (with_st (st w) w) H) as E.
  unfold readChainEvents. destruct (read _ (with_st (st w) w)) as [w2 frames]. cbn in E.
  destruct (send_chain (default [] frames) room c) as [[c1 sent1] [room'|]]; [|done].
  rewrite <-E in H. pose proof (send_rows_still (daemon_rows (cn_lastSeq c) (db (st w))) room' c1 w2 H) as E2.
  destruct (send_rows job_rows _ room' c1 w2) as [[[w3 c3] sent2] up2]. cbn in *. congruence.
Qed.

(** ** The client *)
(** [ss_pipe]: what the connection carries and the client has not read. *)
Record Session := MkSession { ss_world : World; ss_conn : option Conn; ss_pipe : list Frame; ss_got : list Frame }.
(** What the browser sends when it connects again. *)
Definition resume_header (got : list Frame) : string :=
  match last (omap fr_id got) with Some z => FormatInt z | None => "" end.
Inductive cstep : Session → Session → Prop :=
| c_world w w' o p g rows : log w' = log w ++ rows → log_ok (db (st w')) →
    cstep (MkSession w o p g) (MkSession w' o p g)
| c_connect w o p g w' c f : open_stream chain sv (resume_header g) w = (w', c, f) →
    cstep (MkSession w o p g) (MkSession w' (Some c) [f] g)
| c_tick w c p g room w' c' sent up : tick chain job_rows observed room c w = (w', c', sent, up) →
    cstep (MkSession w (Some c) p g) (MkSession w' (if up then Some c' else None) (p ++ sent) g)
| c_receive w o f p g : cstep (MkSession w o (f :: p) g) (MkSession w o p (g ++ [f]))
| c_drop w o p g : cstep (MkSession w o p g) (MkSession w None [] g).

Lemma receive_all w o p : ∀ g, rtc cstep (MkSession w o p g) (MkSession w o [] (g ++ p)).
Proof.
  induction p as [|f p IH]; intros g; [rewrite app_nil_r; apply rtc_refl|].
  eapply rtc_l; [apply c_receive|]. replace (g ++ f :: p) with ((g ++ [f]) ++ p) by (by rewrite <-app_assoc). apply IH.
Qed.

(** Received, then under way, then still to send. *)
Definition streaming (s : Session) : Prop := log_ok (db (st (ss_world s))) ∧
  ∃ a b r, owner_facing (log (ss_world s)) = a ++ b ++ r ∧ Forall2 delivers (filter is_daemon (ss_got s)) a ∧
    Forall2 delivers (filter is_daemon (ss_pipe s)) b ∧ ∀ c, ss_conn s = Some c → cn_lastSeq c = place (a ++ b).

Lemma open_stream_spec header w w' c f : open_stream chain sv header w = (w', c, f) →
  db (st w') = db (st w) ∧ fr_id f = None ∧ cn_lastSeq c = if bool_decide (header = "") then 0 else ParseInt_or_nearest header.
Proof.
  unfold open_stream, computeAggregates, latestChainCursor.
  assert (Hr : ∀ w, db (st (if bool_decide (sv_orgAddress sv = "") then (w, None) else read (λ w, org_rate (sv_orgAddress sv) (chain (ext w))) w).1) = db (st w))
    by (intros w1; destruct (bool_decide _); [done|apply read_db]).
  specialize (Hr w). destruct (if bool_decide (sv_orgAddress sv = "") then _ else _) as [w1 rate]. cbn in Hr.
  pose proof (read_db (λ w, financial_rows (chain (ext w))) w1) as H1. destruct (read _ w1) as [w2 rows]. cbn in H1.
  pose proof (read_db (λ w, head (newest_first position (Indexer.chain_events (chain (ext w))))) w2) as H2.
  destruct (read _ w2) as [w3 o]. cbn in H2. intros Hx. injection Hx as <- <- <-. split; [congruence|]. by split.
Qed.
Lemma place_header a got : Forall2 delivers (filter is_daemon got) a → ascending a → Forall (λ r, ev_seq r ≤ max_int64) a →
  (if bool_decide (resume_header got = "") then 0 else ParseInt_or_nearest (resume_header got)) = place a.
Proof.
  intros Hf [_ Hp] Hm. unfold resume_header, place. rewrite (delivers_ids _ _ Hf), fmap_last.
  destruct (last a) as [x|] eqn:El; cbn; [|done]. apply last_Some in El as [k ->].
  apply Forall_app in Hp as [_ Hp]. apply Forall_app in Hm as [_ Hm]. apply Forall_cons_1 in Hp as [Hp _]. apply Forall_cons_1 in Hm as [Hm _].
  rewrite bool_decide_false.
  - unfold ParseInt_or_nearest. rewrite parse_int_FormatInt. int_lia.
  - intros E. pose proof (parse_int_FormatInt (ev_seq x)) as Hpi. by rewrite E in Hpi.
Qed.
Lemma bounded_rows d a b : log_ok d → owner_facing (events d) = a ++ b → Forall (λ r, ev_seq r ≤ max_int64) a.
Proof.
  intros [Hn Hb] E. apply Forall_forall. intros r Hr.
  assert (Hin : r ∈ owner_facing (events d)) by (rewrite E; apply elem_of_app; by left).
  apply list_elem_of_filter in Hin as [_ [i Hi]%list_elem_of_lookup]. rewrite (Hn i r Hi). apply lookup_lt_Some in Hi. lia.
Qed.

Lemma streaming_step s s' : cstep s s' → streaming s → streaming s'.
Proof.
  intros Hst [Hok (a & b & r & E & Ha & Hb & Hc)].
  unfold streaming. destruct Hst as [w w' o p g rows Hl Hok'|w o p g w' c f Ho|w c p g room w' c' sent up Ht|w o f p g|w o p g]; cbn [ss_world ss_conn ss_pipe ss_got] in *.
  - split; [done|]. exists a, b, (r ++ owner_facing rows). unfold owner_facing in *. rewrite Hl, filter_app, E, <-!app_assoc. done.
  - apply open_stream_spec in Ho as (Hd & Hf & Hs). rewrite Hd. split; [done|]. exists a, [], (b ++ r).
    split; [done|]. split; [done|]. split; [rewrite filter_cons_False; [constructor|by intros [? ?]; congruence]|].
    intros c' [= <-]. rewrite app_nil_r, Hs. pose proof (log_ascending _ Hok) as Hasc. rewrite E in Hasc.
    apply place_header; [done| |by eapply bounded_rows].
    destruct Hasc as [H1 H2]. split; [by apply StronglySorted_app in H1 as (_ & ? & _)|by apply Forall_app in H2 as [? _]].
  - rewrite app_assoc in E. destruct (tick_spec room c w w' c' sent up (a ++ b) r Hok E (Hc c eq_refl) Ht)
      as (Hd & b1 & b2 & -> & Hf & Hl & _).
    rewrite Hd. split; [done|]. exists a, (b ++ b1), b2. split; [by rewrite E, <-!app_assoc|]. split; [done|]. split.
    + rewrite filter_app. by apply Forall2_app.
    + destruct up; [|done]. intros c2 [= <-]. by rewrite Hl, app_assoc.
  - split; [done|]. destruct (decide (is_daemon f)) as [Hf|Hf].
    + rewrite filter_cons_True in Hb by done. inversion Hb as [|? x ? b' Hx Hb']; subst. exists (a ++ [x]), b', r.
      rewrite <-!app_assoc. split; [done|]. split; [|split; [done|]].
      * rewrite filter_app, filter_cons_True, filter_nil by done. by apply Forall2_app; [|constructor].
      * intros c Hcc. by rewrite (Hc c Hcc).
    + rewrite filter_cons_False in Hb by done. exists a, b, r. split; [done|]. split; [|by split].
      by rewrite filter_app, filter_cons_False, filter_nil, app_nil_r.
  - split; [done|]. exists a, [], (b ++ r). split; [done|]. split; [done|]. split; [constructor|done].
Qed.
Lemma streaming_reachable w s : log_ok (db (st w)) → rtc cstep (MkSession w None [] []) s → streaming s.
Proof.
  intros Hok Hr. assert (H0 : streaming (MkSession w None [] [])).
  { split; [done|]. exists [], [], (owner_facing (log w)). repeat split; try constructor. done. }
  revert H0. induction Hr as [|s1 s2 s3 Hst _ IH]; [done|]. intros H0. by apply IH, (streaming_step s1).
Qed.

(** C32: exactly once, in order, across reconnections.  However the connection
    breaks, whatever is lost on its way, whichever statements fail and however
    the log grows meanwhile, the daemon events a client has received, which
    resumes at the last id it saw, are exactly the first owner-facing rows of
    the log: none is missing, none comes twice, no heartbeat is among them. *)
Theorem stream_exactly_once w s : log_ok (db (st w)) → rtc cstep (MkSession w None [] []) s →
  ∃ sent rest, owner_facing (log (ss_world s)) = sent ++ rest ∧ Forall2 delivers (filter is_daemon (ss_got s)) sent.
Proof.
  intros Hok Hr. destruct (streaming_reachable w s Hok Hr) as [_ (a & b & r & E & Ha & _)]. exists a, (b ++ r). by split.
Qed.

(** *** Catching up *)
(** So many turns of the handler, nothing failing and nothing new arriving. *)
Fixpoint turns (k : nat) (c : Conn) (w : World) : list Frame :=
  match k with
  | O => []
  | S k => let '(w, c, sent, up) := tick chain job_rows observed (2 * page) c w in sent ++ if up then turns k c w else []
  end.
Lemma turns_spec k : ∀ c w a r, log_ok (db (st w)) → faults (st w) = [] → owner_facing (log w) = a ++ r → cn_lastSeq c = place a →
  (length r ≤ page * k)%nat → Forall2 delivers (filter is_daemon (turns k c w)) r.
Proof.
  induction k as [|k IH]; intros c w a r Hok Hh E Hc Hk.
  { destruct r; [constructor|cbn in Hk; lia]. }
  cbn [turns]. pose proof (tick_still (2 * page) c w Hh) as Hst.
  destruct (tick chain job_rows observed (2 * page) c w) as [[[w1 c1] sent] up] eqn:Et. cbn [fst] in Hst.
  destruct (tick_spec _ c w w1 c1 sent up a r Hok E Hc Et) as (Hd & b1 & b2 & -> & Hf & Hl & Hup).
  destruct (Hup Hh (Nat.le_refl _)) as [-> Eb]. rewrite filter_app. apply Forall2_app; [done|].
  apply (IH c1 w1 (a ++ b1)); [by rewrite Hd|by rewrite Hst|by rewrite Hd, <-app_assoc|done|].
  apply (f_equal length) in Eb. rewrite length_take, length_app in Eb. rewrite length_app in Hk. unfold page in *. lia.
Qed.
(** An open connection catches up.  With no statement failing and nothing
    new arriving, so many turns as the log has pages are enough: what the client
    has, what is under way to it and what those turns send are together exactly
    the owner-facing log, however many chain events are in between. *)
Lemma stream_catches_up w0 s c k : log_ok (db (st w0)) → rtc cstep (MkSession w0 None [] []) s →
  ss_conn s = Some c → faults (st (ss_world s)) = [] → (length (owner_facing (log (ss_world s))) ≤ page * k)%nat →
  Forall2 delivers (filter is_daemon (ss_got s ++ ss_pipe s ++ turns k c (ss_world s))) (owner_facing (log (ss_world s))).
Proof.
  intros Hok Hr Hc Hh Hk. destruct (streaming_reachable w0 s Hok Hr) as [Hok' (a & b & r & E & Ha & Hb & Hp)].
  rewrite !filter_app, E. apply Forall2_app; [done|]. apply Forall2_app; [done|].
  apply (turns_spec k c _ (a ++ b)); [done|done|by rewrite E, app_assoc|by apply Hp|].
  rewrite E, !length_app in Hk. lia.
Qed.
End Session.
