(* ===== verification/Ask.v ===== *)
(** Programs that ask an outside party: a question, its answer, and so on.

    [prog Q R A] asks questions of type [Q], is told answers of type [R] and
    ends with an [A].  [serve] runs it against a party with a state and keeps
    the exchange; [guarded] is a promise about every question, whatever was
    answered before it, and [yields] one about every result. *)
From stdpp Require Import relations.
From S2P Require Import Prelude.
#[local] Set Default Proof Using "Type".

Section Prog.
Context {Q R : Type}.
Inductive prog (A : Type) : Type :=
| Done (a : A)
| Ask (q : Q) (k : R → prog A).
Arguments Done {A}. Arguments Ask {A}.
Fixpoint bindQ {A C} (p : prog A) (g : A → prog C) : prog C :=
  match p with Done a => g a | Ask q k => Ask q (λ r, bindQ (k r) g) end.
(** Stops at an error. *)
Definition tryQ {A C} (p : prog (option A)) (g : A → prog (option C)) : prog (option C) :=
  bindQ p (λ o, match o with Some a => g a | None => Done None end).
Definition guardQ {C} (b : bool) (p : prog (option C)) : prog (option C) := if b then p else Done None.
Definition letQ {A C} (o : option A) (g : A → prog (option C)) : prog (option C) := tryQ (Done o) g.

(** Against a party that always answers the same. *)
Fixpoint ask {A} (answer : Q → R) (p : prog A) : A :=
  match p with Done a => a | Ask q k => ask answer (k (answer q)) end.
(** Against a party with a state. *)
Fixpoint serve {S A} (answer : Q → S → S * R) (p : prog A) (s : S) : S * A * list (Q * R) :=
  match p with
  | Done a => (s, a, [])
  | Ask q k => let '(s, r) := answer q s in let '(s, a, l) := serve answer (k r) s in (s, a, (q, r) :: l)
  end.

(** ** Every question *)
Fixpoint asks_only {A} (P : Q → Prop) (p : prog A) : Prop :=
  match p with Done _ => True | Ask q k => P q ∧ ∀ r, asks_only P (k r) end.
(** [hist] is what was asked and answered before. *)
Fixpoint guarded {A} (P : list (Q * R) → Q → Prop) (hist : list (Q * R)) (p : prog A) : Prop :=
  match p with Done _ => True | Ask q k => P hist q ∧ ∀ r, guarded P (hist ++ [(q, r)]) (k r) end.
(** Every result, with the exchange that led to it. *)
Fixpoint yields {A} (Φ : list (Q * R) → A → Prop) (hist : list (Q * R)) (p : prog A) : Prop :=
  match p with Done a => Φ hist a | Ask q k => ∀ r, yields Φ (hist ++ [(q, r)]) (k r) end.

Section Rules.
Context (P : Q → Prop).
Lemma asks_bind {A C} (p : prog A) (g : A → prog C) : asks_only P p → (∀ a, asks_only P (g a)) → asks_only P (bindQ p g).
Proof. intros Hp Hg. induction p as [a|q k IH]; [apply Hg|]. destruct Hp as [Ha Hk]. split; [done|]. intros r. by apply IH. Qed.
Lemma asks_try {A C} (p : prog (option A)) (g : A → prog (option C)) :
  asks_only P p → (∀ a, asks_only P (g a)) → asks_only P (tryQ p g).
Proof. intros Hp Hg. apply asks_bind; [done|]. intros [a|]; [apply Hg|done]. Qed.
Lemma asks_let {A C} (o : option A) (g : A → prog (option C)) : (∀ a, o = Some a → asks_only P (g a)) → asks_only P (letQ o g).
Proof. intros Hg. destruct o as [a|]; [by apply Hg|done]. Qed.
Lemma asks_guard {C} (b : bool) (p : prog (option C)) : (b = true → asks_only P p) → asks_only P (guardQ b p).
Proof. intros Hp. destruct b; [by apply Hp|done]. Qed.
End Rules.
Section Run.
Context (answer : Q → R).
Lemma ask_bind {A C} (p : prog A) (g : A → prog C) : ask answer (bindQ p g) = ask answer (g (ask answer p)).
Proof. induction p as [a|q k IH]; [done|]. cbn. apply IH. Qed.
Lemma ask_try {A C} (p : prog (option A)) (g : A → prog (option C)) :
  ask answer (tryQ p g) = ask answer p ≫= λ a, ask answer (g a).
Proof. unfold tryQ. rewrite ask_bind. by destruct (ask answer p). Qed.
Lemma ask_let {A C} (o : option A) (g : A → prog (option C)) : ask answer (letQ o g) = o ≫= λ a, ask answer (g a).
Proof. by destruct o. Qed.
Lemma ask_guard {C} (b : bool) (p : prog (option C)) : ask answer (guardQ b p) = if b then ask answer p else None.
Proof. by destruct b. Qed.
End Run.

Lemma guarded_bind {A C} P (p : prog A) (g : A → prog C) : ∀ hist, guarded P hist p →
  yields (λ h a, guarded P h (g a)) hist p → guarded P hist (bindQ p g).
Proof.
  induction p as [a|q k IH]; intros hist Hp Hg; [done|]. destruct Hp as [Hq Hk]. split; [done|]. intros r. by apply IH.
Qed.
Lemma yields_bind {A C} Φ (p : prog A) (g : A → prog C) : ∀ hist,
  yields (λ h a, yields Φ h (g a)) hist p → yields Φ hist (bindQ p g).
Proof. induction p as [a|q k IH]; intros hist Hg; [done|]. intros r. by apply IH. Qed.
Lemma yields_mono {A} (Φ Ψ : list (Q * R) → A → Prop) (p : prog A) : ∀ hist, (∀ h a, Φ h a → Ψ h a) → yields Φ hist p → yields Ψ hist p.
Proof. induction p as [a|q k IH]; intros hist H Hp; [by apply H|]. intros r. apply IH; [done|apply Hp]. Qed.
(** A run is one of the exchanges the promises are about. *)
Lemma serve_guarded {S A} P (answer : Q → S → S * R) (p : prog A) : ∀ hist s s' a l, guarded P hist p → serve answer p s = (s', a, l) →
  ∀ l1 q r l2, l = l1 ++ (q, r) :: l2 → P (hist ++ l1) q.
Proof.
  induction p as [a0|q0 k IH]; intros hist s s' a l Hp; cbn; [intros [= <- <- <-] [|] ? ? ? [=]|].
  destruct (answer q0 s) as [s1 r0]. destruct (serve answer (k r0) s1) as [[s2 a2] l0] eqn:E. intros [= <- <- <-] l1 q r l2 Hl.
  destruct Hp as [Hq Hk]. destruct l1 as [|x l1]; [injection Hl as -> -> ->; by rewrite app_nil_r|]. injection Hl as <- Hl.
  rewrite cons_middle, app_assoc. by eapply IH.
Qed.
Lemma serve_yields {S A} Φ (answer : Q → S → S * R) (p : prog A) : ∀ hist s s' a l, yields Φ hist p → serve answer p s = (s', a, l) →
  Φ (hist ++ l) a.
Proof.
  induction p as [a0|q0 k IH]; intros hist s s' a l Hp; cbn; [intros [= <- <- <-]; by rewrite app_nil_r|].
  destruct (answer q0 s) as [s1 r0]. destruct (serve answer (k r0) s1) as [[s2 a2] l0] eqn:E. intros [= <- <- <-].
  rewrite cons_middle, app_assoc. by eapply IH.
Qed.
(** What a run went through. *)
Lemma serve_bind {S A C} (answer : Q → S → S * R) (p : prog A) (g : A → prog C) : ∀ s s' c l,
  serve answer (bindQ p g) s = (s', c, l) →
  ∃ a s1 l1 l2, serve answer p s = (s1, a, l1) ∧ serve answer (g a) s1 = (s', c, l2) ∧ l = l1 ++ l2.
Proof.
  induction p as [a|q k IH]; intros s s' c l; cbn; [intros H; by exists a, s, [], l|].
  destruct (answer q s) as [s1 r]. destruct (serve answer (bindQ (k r) g) s1) as [[s2 c2] l0] eqn:E. intros [= <- <- <-].
  destruct (IH r _ _ _ _ E) as (a & s3 & l1 & l2 & H1 & H2 & ->). rewrite H1. by exists a, s3, ((q, r) :: l1), l2.
Qed.
Lemma serve_try {S A C} (answer : Q → S → S * R) (p : prog (option A)) (g : A → prog (option C)) s s' c l :
  serve answer (tryQ p g) s = (s', c, l) →
  (serve answer p s = (s', None, l) ∧ c = None) ∨
  ∃ a s1 l1 l2, serve answer p s = (s1, Some a, l1) ∧ serve answer (g a) s1 = (s', c, l2) ∧ l = l1 ++ l2.
Proof.
  intros H. apply serve_bind in H as ([a|] & s1 & l1 & l2 & H1 & H2 & ->); [right; eauto 10|]. injection H2 as <- <- <-. left. by rewrite app_nil_r.
Qed.
Lemma serve_let {S A C} (answer : Q → S → S * R) (o : option A) (g : A → prog (option C)) s s' c l :
  serve answer (letQ o g) s = (s', c, l) →
  (o = None ∧ s' = s ∧ c = None ∧ l = []) ∨ ∃ a, o = Some a ∧ serve answer (g a) s = (s', c, l).
Proof. destruct o as [a|]; [right; eauto|]. intros [= <- <- <-]. by left. Qed.
(** Runs that end well went well at every step. *)
Lemma serve_try_some {S A C} (answer : Q → S → S * R) (p : prog (option A)) (g : A → prog (option C)) s s' c l :
  serve answer (tryQ p g) s = (s', Some c, l) →
  ∃ a s1 l1 l2, serve answer p s = (s1, Some a, l1) ∧ serve answer (g a) s1 = (s', Some c, l2) ∧ l = l1 ++ l2.
Proof. by intros [[_ [=]]|?]%serve_try. Qed.
Lemma serve_let_some {S A C} (answer : Q → S → S * R) (o : option A) (g : A → prog (option C)) s s' c l :
  serve answer (letQ o g) s = (s', Some c, l) → ∃ a, o = Some a ∧ serve answer (g a) s = (s', Some c, l).
Proof. by intros [(_ & _ & [=] & _)|?]%serve_let. Qed.
Lemma serve_guard_some {S C} (answer : Q → S → S * R) (b : bool) (p : prog (option C)) s s' c l :
  serve answer (guardQ b p) s = (s', Some c, l) → b = true ∧ serve answer p s = (s', Some c, l).
Proof. by destruct b. Qed.
Lemma serve_done {S A} (answer : Q → S → S * R) (a b : A) s s' l : serve answer (Done a) s = (s', b, l) → s' = s ∧ b = a ∧ l = [].
Proof. by intros [= <- <- <-]. Qed.
(** The states the party went through. *)
Definition steps {S} (answer : Q → S → S * R) : relation S := rtc (λ s s', ∃ q, s' = (answer q s).1).
Lemma serve_steps {S A} (answer : Q → S → S * R) (p : prog A) : ∀ s s' a l, serve answer p s = (s', a, l) → steps answer s s'.
Proof.
  induction p as [a|q k IH]; intros s s' a' l; cbn; [by intros [= <- <- <-]; apply rtc_refl|].
  destruct (answer q s) as [s1 r] eqn:Eq. destruct (serve answer (k r) s1) as [[s2 a2] l0] eqn:E. intros [= <- <- <-].
  eapply rtc_l; [|by eapply IH]. exists q. by rewrite Eq.
Qed.
Lemma steps_mono {S} (answer : Q → S → S * R) (f : S → Z) : (∀ q s, f s ≤ f (answer q s).1) → ∀ s s', steps answer s s' → f s ≤ f s'.
Proof. intros Hf s s'. induction 1 as [|s s1 s2 [q ->] _ IH]; [done|]. specialize (Hf q s). lia. Qed.
(** What a program only asks is all that its runs hold. *)
Lemma serve_asks {S A} P (answer : Q → S → S * R) (p : prog A) : asks_only P p → ∀ s s' a l,
  serve answer p s = (s', a, l) → Forall (λ x, P x.1) l.
Proof.
  induction p as [a|q k IH]; intros Hp s s' a' l; cbn; [by intros [= <- <- <-]|]. destruct Hp as [Hq Hk].
  destruct (answer q s) as [s1 r]. destruct (serve answer (k r) s1) as [[s2 a2] l0] eqn:E. intros [= <- <- <-].
  constructor; [done|by eapply IH].
Qed.
End Prog.
Arguments prog : clear implicits.
Arguments Done {Q R A}. Arguments Ask {Q R A}.
Notation "x <~~ m ;; k" := (tryQ m (λ x, k)) (at level 100, m at next level, right associativity) : snap_scope.
Notation "x <-? o ;; k" := (letQ o (λ x, k)) (at level 100, o at next level, right associativity) : snap_scope.
