(* ===== verification/Git.v ===== *)
(** The read-only git seam of the gallery workers ([internal/worker]:
    [git_checklist.go], [git_log.go], [manifest_policy.go]).

    [gprog] is a program that asks git; [Ask] carries the whole argument list
    of the process, and [None] is a call that failed.  [abs], [eval_symlinks]
    and [is_dir] are the file system; [json_documents] is the JSON documents a
    text holds in a row ([None]: it is no such text; members are taken by their
    exact names) and [yaml] what the package
    decodes a manifest to.  A cancelled context makes the next call fail.  The
    text of errors is left out: [None] is an error. *)
From Stdlib Require Import Ascii String.
From S2P Require Import Prelude GoStr GoTime GoJson Amount Store Ask.
#[local] Open Scope Z_scope.
#[local] Open Scope snap_scope.
#[local] Set Default Proof Using "Type".

(** ** Text *)
(** [strings.Fields]. *)
Fixpoint fields_of (word : list chunk) (ks : list chunk) : list string :=
  let flush := match word with [] => [] | _ => [concat_map bytes1 word] end in
  match ks with
  | [] => flush
  | k :: r => if space_chunk k then flush ++ fields_of [] r else fields_of (word ++ [k]) r
  end.
Definition Fields (s : string) : list string := fields_of [] (chunks s).
(** [strings.Trim(s, cutset)] of a cutset of ASCII. *)
Fixpoint trim_left (cut : ascii → bool) (s : string) : string :=
  match s with "" => "" | String c r => if cut c then trim_left cut r else s end.
Fixpoint trim_right (cut : ascii → bool) (s : string) : string :=
  match s with
  | "" => ""
  | String c r => let r' := trim_right cut r in if cut c && bool_decide (r' = "") then "" else String c r'
  end.
Definition Trim (cut : ascii → bool) (s : string) : string := trim_right cut (trim_left cut s).
(** [strings.HasPrefix], [strings.HasSuffix]. *)
Definition HasPrefix (s p : string) : bool := bool_decide (is_Some (strip_prefix p s)).
Fixpoint HasSuffix (s p : string) : bool :=
  bool_decide (s = p) || match s with "" => false | String _ r => HasSuffix r p end.
(** What follows the last occurrence of [sub] ([strings.LastIndex]). *)
Fixpoint after_last (sub s : string) : option string :=
  match match s with "" => None | String _ r => after_last sub r end with
  | Some x => Some x
  | None => strip_prefix sub s
  end.
Definition FormatBool (b : bool) : string := if b then "true" else "false".
Definition isLetter (c : ascii) : bool := ((65 <=? byteZ c) && (byteZ c <=? 90) || (97 <=? byteZ c) && (byteZ c <=? 122)).
Definition hex_char (c : ascii) : bool :=
  isDigit c || (97 <=? byteZ c) && (byteZ c <=? 102) || (65 <=? byteZ c) && (byteZ c <=? 70).
Definition isHexRevision (value : string) : bool :=
  (Nat.eqb (String.length value) 40 || Nat.eqb (String.length value) 64) && sall hex_char value.

(** ** Paths *)
(** [filepath.Clean] on a Unix system: the components kept so far are in
    reverse. *)
Fixpoint clean_parts (rooted : bool) (kept : list string) (parts : list string) : list string :=
  match parts with
  | [] => rev kept
  | p :: r =>
    if bool_decide (p = "") || bool_decide (p = ".") then clean_parts rooted kept r
    else if bool_decide (p = "..") then
      match kept with
      | k :: ks => if bool_decide (k = "..") then clean_parts rooted (".." :: kept) r else clean_parts rooted ks r
      | [] => if rooted then clean_parts rooted [] r else clean_parts rooted [".."] r
      end
    else clean_parts rooted (p :: kept) r
  end.
Definition IsAbs (p : string) : bool := HasPrefix p "/".
Definition Clean (p : string) : string :=
  let body := String.concat "/" (clean_parts (IsAbs p) [] (split_on "/" p)) in
  if IsAbs p then "/" +:+ body else if bool_decide (body = "") then "." else body.
Definition confinedGitPath (name : string) : option string :=
  let name := TrimSpace name in
  if bool_decide (name = "") then None
  else if IsAbs name then None
  else
    let clean := Clean name in
    if bool_decide (clean = ".") || bool_decide (clean = "..") || HasPrefix clean "../" then None
    else Some clean.

(** ** Asking git *)
Abbreviation gprog := (prog (list string) (option string)).

Definition gitOutput (repo : string) (args : list string) : gprog (option string) :=
  Ask (["--literal-pathspecs"; "-C"; repo] ++ args) Done.

Section Repository.
Context (abs eval_symlinks : string → option string) (is_dir : string → option bool).
Definition canonicalRepository (repository : string) : gprog (option string) :=
  assigned <-? abs (TrimSpace repository) ;;
  assigned <-? eval_symlinks assigned ;;
  d <-? is_dir assigned ;;
  guardQ d (
  root <~~ gitOutput assigned ["rev-parse"; "--show-toplevel"] ;;
  root <-? eval_symlinks (TrimSpace root) ;;
  guardQ (bool_decide (root = assigned)) (Done (Some root))).
(** A revision git resolves, when it is a hash. *)
Definition resolve (repo rev : string) : gprog (option string) :=
  out <~~ gitOutput repo ["rev-parse"; "--verify"; rev] ;;
  guardQ (isHexRevision (TrimSpace out)) (Done (Some (TrimSpace out))).

Record gitTreeEntry := MkEntry { te_mode : string; te_kind : string; te_hash : string }.
Definition maxChecklistBytes : Z := 2 ^ 20.
Definition tab : ascii := chrZ 9.
Definition newline : ascii := chrZ 10.
Definition nul : ascii := chrZ 0.
Definition one (c : ascii) : string := String c "".
(** [bytes.TrimSuffix(out, {0})]. *)
Fixpoint trim_nul (s : string) : string :=
  match s with
  | "" => ""
  | String c "" => if bool_decide (c = nul) then "" else s
  | String c r => String c (trim_nul r)
  end.
Definition entry_of (header : string) : option gitTreeEntry :=
  match Fields header with [mode; kind; hash] => Some (MkEntry mode kind hash) | _ => None end.
(** [None]: an error; [Some None]: not in the tree. *)
Definition read_entry (name out : string) : option (option gitTreeEntry) :=
  if bool_decide (out = "") then Some None
  else match cut_at tab (trim_nul out) with
       | (header, Some listed) => if bool_decide (listed = name) then Some <$> entry_of header else None
       | _ => None
       end.
Definition treeEntry (repo revision name : string) : gprog (option (option gitTreeEntry)) :=
  out <~~ gitOutput repo ["ls-tree"; "-z"; revision; "--"; name] ;; Done (read_entry name out).
Definition blob_size (text : string) : option Z :=
  z ← parse_int (TrimSpace text); if (min_int64 <=? z) && (z <=? max_int64) then Some z else None.
Definition gitBlob (repo hash : string) : gprog (option string) :=
  sizeText <~~ gitOutput repo ["cat-file"; "-s"; hash] ;;
  size <-? blob_size sizeText ;;
  guardQ (size <=? maxChecklistBytes) (gitOutput repo ["cat-file"; "blob"; hash]).

(** ** The milestone checklist *)
Record BuildSnapshot := MkSnapshot {
  bs_CompletionPct : Z; bs_Revision : string; bs_Completed : list string; bs_Pending : list string }.
Record milestoneCheck := MkCheck { ck_Name : string; ck_Path : string }.
Context (json_documents : string → option (list jval)).
(** [DisallowUnknownFields]: every member has a field. *)
Definition known_members (names : list string) (v : jval) : bool :=
  match v with JObj fs => forallb (λ f, bool_decide (f.1 ∈ names)) fs | _ => true end.
Definition check_of_json (v : jval) : option milestoneCheck :=
  if known_members ["name"; "path"] v then a ← dec_str "name" v; b ← dec_str "path" v; Some (MkCheck a b) else None.
Definition checklist_of_json (v : jval) : option (list milestoneCheck) :=
  if known_members ["checks"] v then dec_list "checks" check_of_json v else None.
(** One document and nothing behind it. *)
Definition decode_checklist (raw : string) : option (list milestoneCheck) :=
  match json_documents raw with Some [v] => checklist_of_json v | _ => None end.
(** One check: whether its artifact is committed. *)
Definition artifact (o : option gitTreeEntry) : option bool :=
  match o with
  | None => Some false
  | Some e =>
    if bool_decide (te_mode e = "120000") then None
    else if bool_decide (te_kind e = "blob") then Some true else None
  end.
Fixpoint measure_checks (repo revision : string) (seen done pending : list string) (checks : list milestoneCheck) :
    gprog (option (list string * list string)) :=
  match checks with
  | [] => Done (Some (done, pending))
  | check :: r =>
    let name := TrimSpace (ck_Name check) in
    guardQ (negb (bool_decide (name = "")) && negb (bool_decide (name ∈ seen))) (
    path <-? confinedGitPath (ck_Path check) ;;
    entry <~~ treeEntry repo revision path ;;
    found <-? artifact entry ;;
    if found then measure_checks repo revision (name :: seen) (done ++ [name]) pending r
    else measure_checks repo revision (name :: seen) done (pending ++ [name]) r)
  end.
Definition Snapshot (ChecklistPath repository : string) : gprog (option BuildSnapshot) :=
  repo <~~ canonicalRepository repository ;;
  revision <~~ resolve repo "HEAD" ;;
  let checklistPath := TrimSpace ChecklistPath in
  checklistPath <-? confinedGitPath (if bool_decide (checklistPath = "") then ".snapfall/milestone.json" else checklistPath) ;;
  found <~~ treeEntry repo revision checklistPath ;;
  entry <-? found ;;
  guardQ (negb (bool_decide (te_mode entry = "120000")) && bool_decide (te_kind entry = "blob")) (
  raw <~~ gitBlob repo (te_hash entry) ;;
  checks <-? decode_checklist raw ;;
  guardQ (negb (bool_decide (checks = []))) (
  measured <~~ measure_checks repo revision [] [] [] checks ;;
  let '(completed, pending) := measured in
  Done (Some (MkSnapshot (wrap64 (Z.of_nat (length completed) * 100) `quot` Z.of_nat (length checks))
                revision completed pending)))).

(** ** The release history *)
Record ReleaseCommit := MkCommit { rc_Hash : string; rc_Subject : string; rc_Category : string; rc_PR : string }.
Record ReleaseHistory := MkHistory {
  rh_Repository : string; rh_Range : string; rh_HeadRev : string; rh_Commits : list ReleaseCommit; rh_Truncated : bool }.
Definition maxReleaseCommits : nat := 500.

(** [safeRevisionRange]. *)
Definition rev_start (c : ascii) : bool := isLetter c || isDigit c.
Definition rev_char (c : ascii) : bool :=
  rev_start c || existsb (λ d, bool_decide (c = d)) (list_ascii_of_string "._/~^@-").
Definition rev_word (s : string) : bool :=
  match s with "" => false | String c r => rev_start c && sall rev_char r end.
Fixpoint splits (s : string) : list (string * string) :=
  ("", s) :: match s with "" => [] | String c r => (λ p, (String c p.1, p.2)) <$> splits r end.
Definition rev_tail (s : string) : bool :=
  bool_decide (s = "") || existsb (λ dots, match strip_prefix dots s with Some r => rev_word r | None => false end) [".."; "..."].
Definition safeRevisionRange (s : string) : bool := existsb (λ p, rev_word p.1 && rev_tail p.2) (splits s).

(** [prPattern] and [categoryPrefix]. *)
Fixpoint span (p : ascii → bool) (s : string) : string * string :=
  match s with
  | "" => ("", "")
  | String c r => if p c then let '(a, b) := span p r in (String c a, b) else ("", s)
  end.
Definition pr_here (s : string) : option string :=
  r ← strip_prefix "(#" s;
  let '(n, rest) := span isDigit r in
  if bool_decide (n = "") then None else _ ← strip_prefix ")" rest; Some n.
Fixpoint find_pr (s : string) : option string :=
  match pr_here s with
  | Some n => Some n
  | None => match s with "" => None | String _ r => find_pr r end
  end.
Definition word_char (c : ascii) : bool := isLetter c || isDigit c || bool_decide (c = "_"%char) || bool_decide (c = "-"%char).
Definition category_of (subject : string) : option string :=
  let '(w, rest) := span word_char subject in
  match w with
  | "" => None
  | String c _ =>
    let after := match strip_prefix "(" rest with
                 | Some inner => strip_prefix ")" (span (λ c, negb (bool_decide (c = ")"%char))) inner).2
                 | None => Some rest
                 end in
    if isLetter c && bool_decide (is_Some (after ≫= strip_prefix ":")) then Some (lower_ascii w) else None
  end.
Definition parseCommit (hash subject : string) : ReleaseCommit :=
  MkCommit hash subject (default "other" (category_of subject))
    (match find_pr subject with Some n => "#" +:+ n | None => "" end).

Definition record_sep : ascii := chrZ 30.
Definition unit_sep : ascii := chrZ 31.
Definition is_char (c d : ascii) : bool := bool_decide (c = d).
Fixpoint read_records (room : nat) (records : list string) : option (list ReleaseCommit * bool) :=
  match records with
  | [] => Some ([], false)
  | rec :: r =>
    let rec := Trim (is_char newline) rec in
    if bool_decide (rec = "") then read_records room r
    else match cut_at unit_sep rec with
         | (hash, Some subject) =>
           if negb (isHexRevision (TrimSpace hash)) then None
           else match room with
                | O => Some ([], true)
                | S room =>
                  '(cs, truncated) ← read_records room r;
                  Some (parseCommit (TrimSpace hash) (TrimSpace subject) :: cs, truncated)
                end
         | _ => None
         end
  end.
Definition endpoint_of (logArg : string) : string :=
  let endpoint := default logArg (after_last ".." logArg) in
  if bool_decide (endpoint = "") then "HEAD" else endpoint.
Definition log_format : string := "--pretty=format:%H%x1f%s%x1e".
Definition History (repository revisionRange : string) : gprog (option ReleaseHistory) :=
  repo <~~ canonicalRepository repository ;;
  let logArg := if bool_decide (revisionRange = "") then "HEAD" else revisionRange in
  guardQ (bool_decide (revisionRange = "") || safeRevisionRange revisionRange) (
  head <~~ resolve repo (endpoint_of logArg +:+ "^{commit}") ;;
  raw <~~ gitOutput repo ["log"; logArg; "--no-color"; "--no-merges"; "-n" +:+ FormatInt (Z.of_nat maxReleaseCommits + 1); log_format] ;;
  commits <-? read_records maxReleaseCommits (split_on record_sep (Trim (λ c, is_char record_sep c || is_char newline c) raw)) ;;
  Done (Some (MkHistory repo revisionRange head commits.1 commits.2))).

(** ** The committed manifests *)
Record PolicyFinding := MkPolicyFinding {
  pf_Rule : string; pf_File : string; pf_Subject : string; pf_Violation : bool; pf_Evidence : string }.
Record ComplianceScan := MkScan {
  cs_Root : string; cs_Revision : string; cs_Dir : string; cs_Files : Z; cs_Findings : list PolicyFinding }.
Record scannedManifest := MkScanned {
  sm_Role : string; sm_CommandAllowlist : list string; sm_CanSignPayments : bool; sm_CanRequestAdv : bool;
  sm_EscalatesTo : string }.
Context (yaml : string → option scannedManifest) (quoteGo : string → string).
Definition defaultManifestDir : string := "daemon/manifests".
Definition evaluateManifest (path : string) (m : scannedManifest) : list PolicyFinding :=
  let role := if bool_decide (sm_Role m = "") then "(no role)" else sm_Role m in
  let n := length (sm_CommandAllowlist m) in
  [MkPolicyFinding "no-signing-authority" path role (sm_CanSignPayments m)
     ("can_sign_payments: " +:+ FormatBool (sm_CanSignPayments m));
   MkPolicyFinding "no-borrowing-authority" path role (sm_CanRequestAdv m)
     ("can_request_advance: " +:+ FormatBool (sm_CanRequestAdv m));
   MkPolicyFinding "no-arbitrary-shell" path role (Nat.ltb 0 n)
     ("command_allowlist: " +:+ FormatInt (Z.of_nat n) +:+ " entr(y/ies)");
   MkPolicyFinding "escalation-path" path role (bool_decide (TrimSpace (sm_EscalatesTo m) = ""))
     ("escalates_to: " +:+ quoteGo (sm_EscalatesTo m))].
Definition finding_before (a b : PolicyFinding) : bool :=
  if bool_decide (pf_File a = pf_File b) then String.ltb (pf_Rule a) (pf_Rule b) else String.ltb (pf_File a) (pf_File b).
(** One line of the listing: [Some None] is passed over. *)
Definition listed_manifest (line : string) : option (option (string * string)) :=
  match cut_at tab line with
  | (meta, Some path) =>
    e ← entry_of meta;
    if negb (bool_decide (te_kind e = "blob")) then Some None
    else if bool_decide (te_mode e = "120000") then None
    else if HasSuffix path ".yaml" || HasSuffix path ".yml" then Some (Some (path, te_hash e)) else Some None
  | _ => None
  end.
Fixpoint scan_lines (repo : string) (files : Z) (findings : list PolicyFinding) (lines : list string) :
    gprog (option (Z * list PolicyFinding)) :=
  match lines with
  | [] => Done (Some (files, findings))
  | line :: r =>
    let line := TrimSpace line in
    if bool_decide (line = "") then scan_lines repo files findings r
    else
      listed <-? listed_manifest line ;;
      match listed with
      | None => scan_lines repo files findings r
      | Some (path, hash) =>
        raw <~~ gitBlob repo hash ;;
        m <-? yaml raw ;;
        scan_lines repo (files + 1) (findings ++ evaluateManifest path m) r
      end
  end.
Definition Scan (Dir root : string) : gprog (option ComplianceScan) :=
  repo <~~ canonicalRepository root ;;
  revision <~~ resolve repo "HEAD" ;;
  let dir := if bool_decide (TrimSpace Dir = "") then defaultManifestDir else TrimSpace Dir in
  _ <-? confinedGitPath dir ;;
  listing <~~ gitOutput repo ["ls-tree"; "-r"; revision; "--"; dir] ;;
  scanned <~~ scan_lines repo 0 [] (split_on newline (TrimSpace listing)) ;;
  guardQ (negb (scanned.1 =? 0))
    (Done (Some (MkScan repo revision dir scanned.1 (SliceStable finding_before scanned.2)))).
End Repository.

(** ** Only read-only questions are asked *)
Lemma asks_out (P : list string → Prop) repo args :
  P (["--literal-pathspecs"; "-C"; repo] ++ args) → asks_only P (gitOutput repo args).
Proof. done. Qed.
(** A path inside the repository: a list of names, none of them empty or a
    step. *)
Definition path_names (p : string) : list string := split_on "/" p.
Definition plain_name (x : string) : Prop := x ≠ "" ∧ x ≠ "." ∧ x ≠ "..".
Definition confined (p : string) : Prop := Forall plain_name (path_names p).
(** A word that git does not take for an option. *)
Definition no_option (s : string) : Prop := ∃ c r, s = String c r ∧ c ≠ "-"%char.
Inductive question : list string → Prop :=
| q_top : question ["rev-parse"; "--show-toplevel"]
| q_resolve rev : question ["rev-parse"; "--verify"; rev]
| q_entry rev path : isHexRevision rev = true → confined path → question ["ls-tree"; "-z"; rev; "--"; path]
| q_list rev dir : isHexRevision rev = true → question ["ls-tree"; "-r"; rev; "--"; dir]
| q_size hash : question ["cat-file"; "-s"; hash]
| q_blob hash : question ["cat-file"; "blob"; hash]
| q_log range : no_option range → question ["log"; range; "--no-color"; "--no-merges"; "-n501"; log_format].
Definition read_only (args : list string) : Prop := ∃ repo cmd, args = ["--literal-pathspecs"; "-C"; repo] ++ cmd ∧ question cmd.

(** *** Paths that stay inside *)
Definition lacks (c : ascii) (s : string) : Prop := sall (λ d, negb (bool_decide (d = c))) s = true.
Abbreviation no_slash := (lacks "/").
Lemma lacks_cons c d s : lacks c (String d s) ↔ d ≠ c ∧ lacks c s.
Proof. unfold lacks. cbn. by rewrite andb_true_iff, negb_true_iff, bool_decide_eq_false. Qed.
Lemma split_on_lacks c s : Forall (lacks c) (split_on c s).
Proof.
  induction s as [|d r IH]; cbn; [by repeat constructor|]. case_bool_decide as E; [by constructor|].
  destruct (split_on c r) as [|h t]; [repeat constructor; apply lacks_cons; split; [congruence|done]|].
  apply Forall_cons in IH as [Hh Ht]. constructor; [apply lacks_cons; split; [congruence|done]|done].
Qed.
Lemma split_on_app c a b : lacks c a → split_on c (a +:+ String c b) = a :: split_on c b.
Proof.
  induction a as [|d r IH]; [cbn; by rewrite bool_decide_true|]. rewrite lacks_cons. intros [Hc Hr].
  rewrite sapp_cons. cbn [split_on]. rewrite bool_decide_false by congruence. by rewrite IH.
Qed.
Lemma split_on_alone c a : lacks c a → split_on c a = [a].
Proof.
  induction a as [|d r IH]; [done|]. rewrite lacks_cons. intros [Hc Hr]. cbn [split_on].
  rewrite bool_decide_false by congruence. by rewrite IH.
Qed.
Lemma split_concat l : l ≠ [] → Forall no_slash l → split_on "/" (String.concat "/" l) = l.
Proof.
  intros Hne. induction 1 as [|a l Ha Hl IH]; [done|]. destruct l as [|b l]; [by apply split_on_alone|].
  change (String.concat "/" (a :: b :: l)) with (a +:+ String "/" (String.concat "/" (b :: l))).
  by rewrite split_on_app, IH.
Qed.
(** Steps up, then names. *)
Definition upward (l : list string) : Prop := ∃ n names, l = replicate n ".." ++ names ∧ Forall plain_name names.
Lemma clean_parts_upward parts : ∀ kept, upward (rev kept) → upward (clean_parts false kept parts).
Proof.
  induction parts as [|p r IH]; intros kept Hk; cbn [clean_parts]; [done|].
  destruct (bool_decide (p = "") || bool_decide (p = ".")) eqn:E1; [by apply IH|].
  apply orb_false_iff in E1 as [E1 E2]. rewrite bool_decide_eq_false in E1, E2. case_bool_decide as E3.
  - destruct kept as [|k ks]; [apply IH; by exists 1%nat, []|]. destruct Hk as (n & names & Hr & Hn). cbn [rev] in Hr.
    case_bool_decide as E4.
    + subst k. apply IH. cbn [rev]. destruct (decide (names = [])) as [->|Hne].
      * exists (S n), []. split; [|constructor]. rewrite Hr, !app_nil_r. by rewrite <-replicate_cons_app.
      * exfalso. destruct names as [|x names _] using rev_ind; [done|]. rewrite app_assoc in Hr. apply app_inj_tail in Hr as [_ <-].
        apply Forall_app in Hn as [_ Hn]. apply Forall_singleton in Hn as (_ & _ & ?). done.
    + apply IH. destruct names as [|x names _] using rev_ind.
      * rewrite app_nil_r in Hr. destruct n; [by destruct (rev ks)|]. rewrite replicate_S_end in Hr. apply app_inj_tail in Hr as [_ ?]. done.
      * rewrite app_assoc in Hr. apply app_inj_tail in Hr as [-> _]. apply Forall_app in Hn as [Hn _]. by exists n, names.
  - apply IH. cbn [rev]. destruct Hk as (n & names & -> & Hn). exists n, (names ++ [p]). split; [by rewrite app_assoc|].
    apply Forall_app. split; [done|]. by constructor.
Qed.
Lemma clean_parts_no_slash b parts : ∀ kept, Forall no_slash kept → Forall no_slash parts → Forall no_slash (clean_parts b kept parts).
Proof.
  induction parts as [|p r IH]; intros kept Hk Hp; cbn [clean_parts].
  - rewrite Forall_forall in *. intros x Hx. apply Hk, list_elem_of_In, in_rev, list_elem_of_In, Hx.
  - apply Forall_cons in Hp as [Hp Hr]. destruct (_ || _); [by apply IH|]. case_bool_decide.
    + destruct kept as [|k ks]; [destruct b; apply IH; (done || by repeat constructor)|].
      apply Forall_cons in Hk as [Hk Hks]. case_bool_decide; apply IH; try done. by repeat constructor.
    + apply IH; [|done]. by constructor.
Qed.
Lemma confinedGitPath_confined name path : confinedGitPath name = Some path → confined path.
Proof.
  unfold confinedGitPath. case_bool_decide; [done|]. destruct (IsAbs (TrimSpace name)) eqn:Ea; [done|].
  destruct (_ || _) eqn:E; [done|]. intros [= <-]. rewrite !orb_false_iff, !bool_decide_eq_false in E.
  destruct E as [[E1 E2] E3]. unfold Clean in *. rewrite Ea in *.
  set (parts := clean_parts false [] (split_on "/" (TrimSpace name))) in *.
  assert (Hu : upward parts) by (apply clean_parts_upward; exists 0%nat, []; done).
  assert (Hs : Forall no_slash parts) by (apply clean_parts_no_slash; [constructor|apply split_on_lacks]).
  revert E1 E2 E3. case_bool_decide as Eb; intros E1 E2 E3; [done|]. unfold confined, path_names.
  rewrite split_concat; [|intros En; rewrite En in Eb; done|done]. destruct Hu as ([|n] & names & Hp & Hn); [by rewrite Hp|].
  exfalso. rewrite Hp in E2, E3. cbn [replicate app] in E2, E3. destruct (replicate n ".." ++ names) as [|x l]; [done|].
  change (String.concat "/" (".." :: x :: l)) with ("../" +:+ String.concat "/" (x :: l)) in E3.
  unfold HasPrefix in E3. rewrite strip_prefix_app in E3. by vm_compute in E3.
Qed.

(** *** Ranges *)
Lemma safeRevisionRange_start s : safeRevisionRange s = true → no_option s.
Proof.
  unfold safeRevisionRange. intros H. apply existsb_exists in H as ([a b] & Hin & Hab). apply andb_true_iff in Hab as [Ha _].
  destruct s as [|c r]; cbn in Hin.
  - destruct Hin as [[= <- <-] | []]. done.
  - destruct Hin as [[= <- <-] | Hin]; [done|]. apply in_map_iff in Hin as ([a' b'] & [= <- <-] & _).
    exists c, r. split; [done|]. cbn in Ha. apply andb_true_iff in Ha as [Ha _]. by intros ->.
Qed.
(** The dots are characters of a word: the second half of the pattern adds
    nothing. *)
Lemma safeRevisionRange_is_word s : safeRevisionRange s = rev_word s.
Proof.
  assert (Hsplit : ∀ s a b, (a, b) ∈ splits s ↔ s = a +:+ b).
  { clear. induction s as [|c r IH]; intros a b; cbn.
    - rewrite list_elem_of_singleton. split; [by intros [= -> ->]|]. destruct a; [cbn; by intros <-|done].
    - rewrite elem_of_cons, list_elem_of_fmap. split.
      + intros [[= -> ->] | ([a' b'] & [= -> ->] & Hin)]; [done|]. apply IH in Hin as ->. done.
      + destruct a as [|c' a]; [cbn; intros <-; by left|]. rewrite sapp_cons. intros [= -> ->]. right.
        exists (a, b). split; [done|]. by apply IH. }
  apply eq_true_iff_eq. unfold safeRevisionRange. rewrite existsb_exists. split.
  - intros ([a b] & Hin & Hab). apply list_elem_of_In, Hsplit in Hin as ->. cbn [fst snd] in Hab.
    apply andb_true_iff in Hab as [Ha Hb]. unfold rev_tail in Hb. apply orb_true_iff in Hb as [Hb | Hb].
    + apply bool_decide_eq_true in Hb as ->. by rewrite sapp_nil_r.
    + assert (Hall : sall rev_char b = true).
      { cbn [existsb] in Hb. rewrite orb_false_r in Hb. apply orb_true_iff in Hb as [Hb | Hb];
          match type of Hb with match ?o with _ => _ end = _ => destruct o as [w|] eqn:Ew; [|done] end;
          (assert (b = ".." +:+ w ∨ b = "..." +:+ w) as Hbw by
            (clear - Ew; repeat (destruct b as [|? b]; cbn in Ew; [(discriminate || injection Ew as <-; auto)|];
               case_bool_decide; [|discriminate]; subst); cbn in Ew; injection Ew as <-; auto));
          (destruct w as [|c w]; [done|]; cbn [rev_word] in Hb; apply andb_true_iff in Hb as [Hc Hw];
           destruct Hbw as [-> | ->]; rewrite sall_app; apply andb_true_iff; (split; [reflexivity|]); cbn [sall];
           rewrite Hw; unfold rev_char at 1; by rewrite Hc). }
      destruct a as [|c a]; [done|]. rewrite sapp_cons. cbn [rev_word] in *. apply andb_true_iff in Ha as [Hc Ha].
      by rewrite Hc, sall_app, Ha, Hall.
  - intros Hs. exists (s, ""). split; [apply list_elem_of_In, Hsplit; by rewrite sapp_nil_r|]. cbn. by rewrite Hs.
Qed.
Lemma resolve_hex git repo rev r : ask git (resolve repo rev) = Some r → isHexRevision r = true.
Proof.
  unfold resolve, tryQ, gitOutput. cbn. destruct (git _) as [out|]; [|done]. cbn. destruct (isHexRevision (TrimSpace out)) eqn:E; [|done].
  cbn. by intros [= <-].
Qed.
Ltac asking := solve [apply asks_out; eexists _, _; split; [reflexivity|constructor; auto]].
Section Questions.
Context (abs eval_symlinks : string → option string) (is_dir : string → option bool).
Abbreviation asks := (asks_only read_only).
Lemma asks_canonical repository : asks (canonicalRepository abs eval_symlinks is_dir repository).
Proof.
  unfold canonicalRepository. repeat (apply asks_let; intros ? _). apply asks_guard. intros _.
  apply asks_try; [asking|]. intros root. apply asks_let. intros r _. by apply asks_guard.
Qed.
(** What follows a resolved revision may use that it is a hash. *)
Lemma asks_resolve {C} repo rev (g : string → gprog (option C)) : (∀ r, isHexRevision r = true → asks (g r)) →
  asks (tryQ (resolve repo rev) g).
Proof.
  intros Hg. split; [eexists _, _; split; [reflexivity|constructor]|]. intros [out|]; [|done]. cbn.
  destruct (isHexRevision (TrimSpace out)) eqn:E; [|done]. cbn. by apply Hg.
Qed.
Lemma asks_entry repo rev path : isHexRevision rev = true → confined path → asks (treeEntry repo rev path).
Proof. intros Hr Hp. apply asks_try; [asking|done]. Qed.
Lemma asks_blob repo hash : asks (gitBlob repo hash).
Proof. apply asks_try; [asking|]. intros t. apply asks_let. intros z _. apply asks_guard. intros _. asking. Qed.
Lemma asks_measure repo rev checks : isHexRevision rev = true → ∀ seen done pending, asks (measure_checks repo rev seen done pending checks).
Proof.
  intros Hr. induction checks as [|c r IH]; intros seen done pending; [exact I|]. cbn [measure_checks]. apply asks_guard. intros _.
  apply asks_let. intros path Hp. apply asks_try; [apply asks_entry; [done|by eapply confinedGitPath_confined]|]. intros o.
  apply asks_let. intros [] _; apply IH.
Qed.
Lemma asks_scan {yaml quoteGo} repo lines : ∀ n fs, asks (scan_lines yaml quoteGo repo n fs lines).
Proof.
  induction lines as [|l r IH]; intros n fs; [exact I|]. cbn [scan_lines]. case_bool_decide; [apply IH|].
  apply asks_let. intros [[path hash]|] _; [|apply IH]. apply asks_try; [apply asks_blob|]. intros raw.
  apply asks_let. intros m _. apply IH.
Qed.
End Questions.
(** The second half of a range may look like an option: the pattern lets the
    first half swallow the dots. *)
Lemma endpoint_may_be_an_option : safeRevisionRange "v1..--all" = true ∧ endpoint_of "v1..--all" = "--all".
Proof. split; reflexivity. Qed.

(** ** What the checklist measures *)
Section Measured.
Context (git : list string → option string).
Definition check_name (c : milestoneCheck) : string := TrimSpace (ck_Name c).
(** Whether the artifact of a check is a regular file of the revision. *)
Definition committed (repo rev : string) (c : milestoneCheck) : option bool :=
  path ← confinedGitPath (ck_Path c); o ← ask git (treeEntry repo rev path); artifact o.
Definition checked_as (b : bool) (repo rev : string) (checks : list milestoneCheck) : list string :=
  check_name <$> filter (λ c, committed repo rev c = Some b) checks.
Definition measurable (repo rev : string) (checks : list milestoneCheck) : Prop :=
  NoDup (check_name <$> checks) ∧ Forall (λ c, check_name c ≠ "" ∧ is_Some (committed repo rev c)) checks.
Lemma measure_spec repo rev checks : ∀ seen done pending c p,
  ask git (measure_checks repo rev seen done pending checks) = Some (c, p) ↔
  measurable repo rev checks ∧ (∀ x, x ∈ check_name <$> checks → x ∉ seen) ∧
  c = done ++ checked_as true repo rev checks ∧ p = pending ++ checked_as false repo rev checks.
Proof.
  unfold measurable. induction checks as [|k r IH]; intros seen done pending c p; cbn [measure_checks ask].
  - unfold checked_as. cbn. rewrite !app_nil_r. split; [intros [= -> ->]|by intros (_ & _ & -> & ->)].
    split; [split; constructor|]. split; [|done]. intros x Hx. by apply elem_of_nil in Hx.
  - fold (check_name k). rewrite ask_guard, fmap_cons, NoDup_cons, Forall_cons.
    destruct (negb _ && negb _) eqn:Eg; [|split; [done|]; intros ((_ & [Hn _] & _) & Hs & _);
      rewrite andb_false_iff, !negb_false_iff, !bool_decide_eq_true in Eg; destruct Eg as [?|Hin]; [done|];
      destruct (Hs (check_name k)); [by left|done]].
    apply andb_true_iff in Eg as [E1 E2]. rewrite negb_true_iff, bool_decide_eq_false in E1, E2.
    assert (Hcom : ask git (path <-? confinedGitPath (ck_Path k) ;; entry <~~ treeEntry repo rev path ;; found <-? artifact entry ;;
       (if found then measure_checks repo rev (check_name k :: seen) (done ++ [check_name k]) pending r
        else measure_checks repo rev (check_name k :: seen) done (pending ++ [check_name k]) r)) =
      committed repo rev k ≫= λ b, ask git (if b : bool then measure_checks repo rev (check_name k :: seen) (done ++ [check_name k]) pending r
        else measure_checks repo rev (check_name k :: seen) done (pending ++ [check_name k]) r)).
    { unfold committed. rewrite ask_let. destruct (confinedGitPath _) as [path|]; [|done]. cbn [mbind option_bind].
      rewrite ask_try. destruct (ask git (treeEntry repo rev path)) as [o|]; [|done]. cbn [mbind option_bind]. by rewrite ask_let. }
    rewrite Hcom. clear Hcom. unfold checked_as. destruct (committed repo rev k) as [b|] eqn:Ec; cbn [mbind option_bind].
    + rewrite !filter_cons. destruct b; repeat case_decide; try congruence; rewrite IH, ?fmap_cons;
        setoid_rewrite not_elem_of_cons; setoid_rewrite elem_of_cons; unfold checked_as; rewrite <-app_assoc.
      all: split; [intros ((Hn & Hf) & Hs & -> & ->); split; [|split; [|done]]
                  |intros (((Hk & Hn) & _ & Hf) & Hs & -> & ->); split; [done|]; split; [|done];
                   intros x Hin; split; [by intros ->|apply Hs; by right]].
      all: try (intros x [-> | Hin]; [done|]; by apply Hs).
      all: split; [split; [|done]; intros Hin; by destruct (Hs _ Hin)|split; [by split; [|eexists]|done]].
    + split; [done|]. intros ((_ & [_ [b Hb]] & _) & _). done.
Qed.
Lemma checked_split repo rev checks : measurable repo rev checks →
  (length (checked_as true repo rev checks) + length (checked_as false repo rev checks))%nat = length checks.
Proof.
  intros [_ Hf]. unfold checked_as. rewrite !length_fmap. induction Hf as [|c r [_ [b Hb]] _ IH]; [done|].
  rewrite !filter_cons. destruct b; repeat case_decide; try congruence; cbn [length]; lia.
Qed.
Lemma percent d p : 0 ≤ d → 0 ≤ p → 0 < d + p → (d + p) * 100 ≤ max_int64 →
  let pct := wrap64 (d * 100) `quot` (d + p) in
  pct = 100 * d / (d + p) ∧ 0 ≤ pct ≤ 100 ∧ (pct = 100 ↔ p = 0).
Proof.
  intros Hd Hp Hs Hm pct. assert (Hpct : pct = 100 * d / (d + p)).
  { unfold pct. rewrite wrap64_id by (unfold int64_range, min_int64, max_int64 in *; lia).
    rewrite Z.quot_div_nonneg by lia. f_equal. lia. }
  rewrite Hpct. split; [done|]. split; [split; [apply Z.div_pos; lia|]|].
  - transitivity (100 * (d + p) / (d + p)); [apply Z.div_le_mono; lia|]. rewrite Z.div_mul; lia.
  - split; [|intros ->; rewrite Z.add_0_r, Z.div_mul; lia]. intros Hq.
    pose proof (Z.mul_div_le (100 * d) (d + p) Hs) as Hle. rewrite Hq in Hle. lia.
Qed.
Context (abs eval_symlinks : string → option string) (is_dir : string → option bool) (json_documents : string → option (list jval)).
End Measured.

(** ** The release history *)
(** What git prints with [log_format]: the records, a newline between them. *)
Definition log_record (c : string * string) : string := c.1 +:+ String unit_sep c.2.
Fixpoint render_log (l : list (string * string)) : string :=
  match l with
  | [] => ""
  | [c] => log_record c +:+ one record_sep
  | c :: r => log_record c +:+ String record_sep (String newline (render_log r))
  end.
(** A commit as git prints it: a hash, and a subject without the separators. *)
Definition printable (c : string * string) : Prop :=
  isHexRevision c.1 = true ∧ lacks record_sep c.2 ∧ lacks unit_sep c.2 ∧ lacks newline c.2.
Lemma hex_char_plain c : hex_char c = true → c ≠ record_sep ∧ c ≠ unit_sep ∧ c ≠ newline ∧ acc1 c = true ∧ space_chunk (Raw1 c) = false.
Proof. destruct c as [[] [] [] [] [] [] [] []]; vm_compute; intros H; first [discriminate H|repeat split; congruence]. Qed.
Lemma hex_lacks s : isHexRevision s = true → lacks record_sep s ∧ lacks unit_sep s ∧ lacks newline s ∧ s ≠ "" ∧ TrimSpace s = s.
Proof.
  unfold isHexRevision. rewrite andb_true_iff. intros [Hl Hs]. assert (Hne : s ≠ "") by (by intros ->).
  assert (H : ∀ r, sall hex_char r = true → lacks record_sep r ∧ lacks unit_sep r ∧ lacks newline r ∧
    Forall (λ k, space_chunk k = false) (chunks r)).
  { induction r as [|c r IH]; [by repeat constructor|]. cbn [sall]. rewrite andb_true_iff, !lacks_cons. intros [Hc Hr].
    destruct (hex_char_plain c Hc) as (? & ? & ? & Ha & ?), (IH Hr) as (? & ? & ? & ?). cbn [chunks]. rewrite Ha. by repeat constructor. }
  destruct (H s Hs) as (? & ? & ? & Hf). split_and!; try done. unfold TrimSpace. rewrite (drop_spaces_none (chunks s)) by done.
  rewrite drop_spaces_none; [rewrite rev_involutive; apply chunks_bytes|]. by apply Forall_rev.
Qed.
Lemma trim_right_none cut s : sall (λ c, negb (cut c)) s = true → trim_right cut s = s.
Proof.
  induction s as [|c r IH]; [done|]. cbn [sall trim_right]. rewrite andb_true_iff, negb_true_iff. intros [-> Hr]. by rewrite IH.
Qed.
Lemma trim_right_app cut a b : trim_right cut (a +:+ b) = if bool_decide (trim_right cut b = "") then trim_right cut a else a +:+ trim_right cut b.
Proof.
  case_bool_decide as E.
  - induction a as [|c r IH]; [by rewrite sapp_nil_l|]. rewrite sapp_cons. cbn [trim_right]. by rewrite IH.
  - induction a as [|c r IH]; [done|]. rewrite sapp_cons. cbn [trim_right]. rewrite IH. rewrite (bool_decide_false (_ = "")); [by rewrite andb_false_r|].
    destruct r, (trim_right cut b); done.
Qed.
Definition log_cut (c : ascii) : bool := is_char record_sep c || is_char newline c.
Lemma lacks_app c a b : lacks c (a +:+ b) ↔ lacks c a ∧ lacks c b.
Proof. unfold lacks. by rewrite sall_app, andb_true_iff. Qed.
Lemma lacks_cut s : lacks record_sep s → lacks newline s → sall (λ c, negb (log_cut c)) s = true.
Proof.
  induction s as [|c r IH]; [done|]. rewrite !lacks_cons. intros [Hc Hr] [Hn Hrn]. cbn. rewrite IH by done.
  unfold log_cut, is_char. by rewrite !bool_decide_false by congruence.
Qed.
Lemma record_lacks c : printable c → lacks record_sep (log_record c) ∧ lacks newline (log_record c) ∧ log_record c ≠ "".
Proof.
  intros (Hh & Hr & _ & Hn). destruct (hex_lacks _ Hh) as (? & ? & ? & ? & _). unfold log_record.
  split_and!; [apply lacks_app; split; [done|]; by apply lacks_cons|apply lacks_app; split; [done|]; by apply lacks_cons|].
  by destruct c.1.
Qed.
(** The log without the separator at its end. *)
Fixpoint log_body (l : list (string * string)) : string :=
  match l with
  | [] => ""
  | [c] => log_record c
  | c :: r => log_record c +:+ String record_sep (String newline (log_body r))
  end.
Lemma render_body l : l ≠ [] → render_log l = log_body l +:+ one record_sep.
Proof.
  induction l as [|c r IH]; [done|]. intros _. destruct r as [|c' r]; [done|].
  change (render_log (c :: c' :: r)) with (log_record c +:+ String record_sep (String newline (render_log (c' :: r)))).
  change (log_body (c :: c' :: r)) with (log_record c +:+ String record_sep (String newline (log_body (c' :: r)))).
  rewrite IH, sapp_assoc, !sapp_cons by done. done.
Qed.
Lemma body_end l : Forall printable l → l ≠ [] → trim_right log_cut (log_body l) = log_body l ∧ log_body l ≠ "".
Proof.
  induction 1 as [|c r Hc Hr IH]; [done|]. intros _. destruct (record_lacks c Hc) as (H1 & H2 & H3). destruct r as [|c' r].
  - split; [|done]. by apply trim_right_none, lacks_cut.
  - change (log_body (c :: c' :: r)) with (log_record c +:+ String record_sep (String newline (log_body (c' :: r)))).
    destruct IH as [He Hn]; [done|]. split; [|by destruct (log_record c)].
    assert (Hs : trim_right log_cut (String record_sep (String newline (log_body (c' :: r)))) = String record_sep (String newline (log_body (c' :: r)))).
    { cbn [trim_right]. rewrite He, (bool_decide_false (log_body _ = "")), ?andb_false_r by done. done. }
    rewrite trim_right_app, Hs. by rewrite bool_decide_false by done.
Qed.
Lemma body_start l : Forall printable l → trim_left log_cut (log_body l +:+ one record_sep) = if bool_decide (l = []) then "" else log_body l +:+ one record_sep.
Proof.
  destruct 1 as [|c r Hc Hr]; [reflexivity|]. rewrite bool_decide_false by done. destruct (record_lacks c Hc) as (H1 & H2 & H3).
  assert (Hx : ∃ d t, log_body (c :: r) = String d t ∧ log_cut d = false).
  { apply lacks_cut in H1; [|done]. destruct (log_record c) as [|d t] eqn:E; [done|]. cbn [sall] in H1. apply andb_true_iff in H1 as [Hd _].
    apply negb_true_iff in Hd. cbn [log_body]. rewrite E. destruct r; eauto. }
  destruct Hx as (d & t & -> & Hd). rewrite sapp_cons. cbn. by rewrite Hd.
Qed.
Lemma split_body c l : Forall printable (c :: l) →
  split_on record_sep (log_body (c :: l)) = log_record c :: ((λ c, String newline (log_record c)) <$> l).
Proof.
  intros Hf. assert (H : ∀ l c, Forall printable (c :: l) → split_on record_sep (log_body (c :: l)) = log_record c :: ((λ c, String newline (log_record c)) <$> l) ∧
    split_on record_sep (String newline (log_body (c :: l))) = String newline (log_record c) :: ((λ c, String newline (log_record c)) <$> l)).
  { clear. induction l as [|c' l IH]; intros c Hf; apply Forall_cons in Hf as [Hc Hl]; destruct (record_lacks c Hc) as (H1 & H2 & H3).
    - split; apply split_on_alone; [done|]. by apply lacks_cons.
    - destruct (IH c' Hl) as [_ H']. change (log_body (c :: c' :: l)) with (log_record c +:+ String record_sep (String newline (log_body (c' :: l)))).
      rewrite <-sapp_cons, !split_on_app, H'; [done|by apply lacks_cons|done]. }
  by apply H.
Qed.
Lemma cut_at_lacks c a b : lacks c a → cut_at c (a +:+ String c b) = (a, Some b).
Proof.
  induction a as [|d r IH]; [cbn; by rewrite bool_decide_true|]. rewrite lacks_cons. intros [Hd Hr].
  rewrite sapp_cons. cbn [cut_at]. rewrite bool_decide_false by congruence. by rewrite IH.
Qed.
Lemma record_trimmed c : printable c →
  Trim (is_char newline) (log_record c) = log_record c ∧ Trim (is_char newline) (String newline (log_record c)) = log_record c.
Proof.
  intros Hc. destruct (record_lacks c Hc) as (_ & Hn & Hne).
  assert (H : Trim (is_char newline) (log_record c) = log_record c).
  { unfold Trim. assert (Hl : trim_left (is_char newline) (log_record c) = log_record c).
    { destruct (log_record c) as [|d t]; [done|]. apply lacks_cons in Hn as [Hd _]. cbn [trim_left]. unfold is_char at 1. by rewrite bool_decide_false by congruence. }
    rewrite Hl. apply trim_right_none. clear -Hn. induction (log_record c) as [|d t IH]; [done|]. apply lacks_cons in Hn as [Hd Ht].
    cbn [sall]. unfold is_char at 1. rewrite bool_decide_false by congruence. by apply IH. }
  split; [done|]. unfold Trim in *. cbn [trim_left]. change (is_char newline newline) with true. done.
Qed.
Definition read_commit (c : string * string) : ReleaseCommit := parseCommit c.1 (TrimSpace c.2).
Lemma read_record room c rec r : printable c → Trim (is_char newline) rec = log_record c →
  read_records room (rec :: r) =
  match room with
  | O => Some ([], true)
  | S room => '(cs, truncated) ← read_records room r; Some (read_commit c :: cs, truncated)
  end.
Proof.
  intros Hc Ht. cbn [read_records]. rewrite Ht. destruct (record_lacks c Hc) as (_ & _ & Hne). rewrite bool_decide_false by done.
  destruct Hc as (Hh & _ & _ & _). destruct (hex_lacks _ Hh) as (_ & Hu & _ & _ & Hs).
  unfold log_record. rewrite cut_at_lacks by done. rewrite Hs, Hh. done.
Qed.
Lemma read_records_spec l : Forall printable l → ∀ room,
  read_records room ((λ c, String newline (log_record c)) <$> l) = Some (read_commit <$> take room l, Nat.ltb room (length l)).
Proof.
  induction 1 as [|c l Hc Hl IH]; intros room; [by destruct room|]. rewrite fmap_cons, (read_record _ c) by (done || by apply record_trimmed).
  destruct room as [|room]; [done|]. by rewrite IH.
Qed.
(** The release history is the log.  When git prints the commits of the
    range, each with its hash and a subject without control characters, a
    history that is read holds exactly the first five hundred of them in git's
    order, each with its hash and its subject trimmed, and says whether there
    were more. *)
Lemma history_is_the_log git abs eval_symlinks is_dir repository range h l :
  ask git (History abs eval_symlinks is_dir repository range) = Some h →
  git (["--literal-pathspecs"; "-C"; rh_Repository h] ++
       ["log"; if bool_decide (range = "") then "HEAD" else range; "--no-color"; "--no-merges"; "-n501"; log_format]) = Some (render_log l) →
  Forall printable l →
  rh_Commits h = read_commit <$> take 500 l ∧ rh_Truncated h = Nat.ltb 500 (length l) ∧ rh_Range h = range.
Proof.
  unfold History. rewrite ask_try. destruct (ask git (canonicalRepository _ _ _ _)) as [repo|]; [|done]. cbn [mbind option_bind].
  rewrite ask_guard. destruct (_ || _); [|done]. rewrite ask_try. destruct (ask git (resolve repo _)) as [head|]; [|done].
  cbn [mbind option_bind]. rewrite ask_try.
  change ("-n" +:+ FormatInt (Z.of_nat maxReleaseCommits + 1)) with "-n501".
  match goal with |- context [gitOutput repo ?args] => change (ask git (gitOutput repo args)) with (git (["--literal-pathspecs"; "-C"; repo] ++ args));
    destruct (git (["--literal-pathspecs"; "-C"; repo] ++ args)) as [raw|] eqn:Eg; [|done] end.
  cbn [mbind option_bind]. rewrite ask_let. destruct (read_records _ _) as [[cs tr]|] eqn:Er; [|done]. cbn [mbind option_bind ask fst snd].
  intros [= <-]. cbn [rh_Commits rh_Truncated rh_Range rh_Repository]. rewrite Eg. intros [= ->] Hl. revert Er. fold log_cut.
  destruct l as [|c l]; [vm_compute; by intros [= <- <-]|]. unfold Trim. rewrite render_body, body_start by done.
  rewrite bool_decide_false, trim_right_app, bool_decide_true by done. destruct (body_end (c :: l) Hl) as [-> _]; [done|].
  rewrite split_body by done. apply Forall_cons in Hl as [Hc Hl]. rewrite (read_record _ c) by (done || by apply record_trimmed).
  cbn [maxReleaseCommits]. rewrite read_records_spec by done. cbn [mbind option_bind]. by intros [= <- <-].
Qed.

(** ** The manifest scan *)
(** A manifest without authority, as the scan judges it. *)
Definition least_privilege (m : scannedManifest) : Prop :=
  sm_CanSignPayments m = false ∧ sm_CanRequestAdv m = false ∧ sm_CommandAllowlist m = [] ∧ TrimSpace (sm_EscalatesTo m) ≠ "".
Lemma evaluateManifest_clean quoteGo path m :
  Forall (λ f, pf_Violation f = false) (evaluateManifest quoteGo path m) ↔ least_privilege m.
Proof.
  unfold evaluateManifest, least_privilege. rewrite !Forall_cons, Forall_nil. cbn [pf_Violation].
  rewrite bool_decide_eq_false. destruct (sm_CommandAllowlist m) as [|c r]; cbn; [tauto|]. split; [by intros (_ & _ & ? & _)|by intros (_ & _ & ? & _)].
Qed.
Section Scanned.
Context (git : list string → option string) (yaml : string → option scannedManifest) (quoteGo : string → string).
(** What one line of the listing stands for: nothing, or a manifest. *)
Definition line_manifest (repo line : string) : option (option (string * scannedManifest)) :=
  if bool_decide (TrimSpace line = "") then Some None
  else listed ← listed_manifest (TrimSpace line);
       match listed with
       | None => Some None
       | Some (path, hash) => raw ← ask git (gitBlob repo hash); m ← yaml raw; Some (Some (path, m))
       end.
Definition judged (ms : list (string * scannedManifest)) : list PolicyFinding := ms ≫= λ pm, evaluateManifest quoteGo pm.1 pm.2.
Lemma scan_lines_spec repo lines : ∀ n fs, ask git (scan_lines yaml quoteGo repo n fs lines) =
  (λ os, (n + Z.of_nat (length (omap id os)), fs ++ judged (omap id os))) <$> mapM (line_manifest repo) lines.
Proof.
  induction lines as [|line r IH]; intros n fs; [cbn; unfold judged; cbn; by rewrite Z.add_0_r, app_nil_r|].
  assert (Hc : mapM (line_manifest repo) (line :: r) = o ← line_manifest repo line; os ← mapM (line_manifest repo) r; Some (o :: os)) by reflexivity.
  rewrite Hc. clear Hc. remember (line_manifest repo line) as o eqn:Ho. unfold line_manifest in Ho. cbn [scan_lines]. revert Ho.
  case_bool_decide; [intros ->; rewrite IH; cbn [mbind option_bind]; by destruct (mapM _ r)|].
  rewrite ask_let. destruct (listed_manifest _) as [[[path hash]|]|]; cbn [mbind option_bind];
    [|intros ->; rewrite IH; cbn [mbind option_bind]; by destruct (mapM _ r)|by intros ->].
  rewrite ask_try. destruct (ask git (gitBlob repo hash)) as [raw|]; cbn [mbind option_bind]; [|by intros ->].
  rewrite ask_let. destruct (yaml raw) as [m|]; cbn [mbind option_bind]; intros ->; [|done]. rewrite IH.
  destruct (mapM _ r) as [os|]; [|done]. cbn [mbind option_bind fmap option_fmap option_map]. f_equal. unfold judged.
  cbn [omap list_omap id length mbind list_bind fst snd]. rewrite app_assoc. f_equal; lia.
Qed.
Context (abs eval_symlinks : string → option string) (is_dir : string → option bool).
(** The manifest scan is exact.  A scan that is reported has read every
    manifest the resolved commit lists in the directory, at least one, and its
    findings are the four rules applied to each of them and no others; it shows
    no violation if and only if every one of those manifests can neither sign
    nor borrow, runs no command and names someone to escalate to. *)
Lemma scan_is_exact dir root sc : ask git (Scan abs eval_symlinks is_dir yaml quoteGo dir root) = Some sc →
  ∃ listing os, let ms := omap id os in
    isHexRevision (cs_Revision sc) = true ∧
    git (["--literal-pathspecs"; "-C"; cs_Root sc] ++ ["ls-tree"; "-r"; cs_Revision sc; "--"; cs_Dir sc]) = Some listing ∧
    mapM (line_manifest (cs_Root sc)) (split_on newline (TrimSpace listing)) = Some os ∧ ms ≠ [] ∧
    cs_Files sc = Z.of_nat (length ms) ∧ cs_Findings sc ≡ₚ judged ms ∧
    (Forall (λ f, pf_Violation f = false) (cs_Findings sc) ↔ Forall (λ pm, least_privilege pm.2) ms).
Proof.
  unfold Scan. rewrite ask_try. destruct (ask git (canonicalRepository _ _ _ _)) as [repo|]; [|done]. cbn [mbind option_bind].
  rewrite ask_try. destruct (ask git (resolve repo "HEAD")) as [rev|] eqn:Ev; [|done]. cbn [mbind option_bind]. apply resolve_hex in Ev.
  rewrite ask_let. destruct (confinedGitPath _) as [p|]; [|done]. cbn [mbind option_bind]. rewrite ask_try.
  set (d := if bool_decide (TrimSpace dir = "") then _ else _).
  match goal with |- context [gitOutput repo ?args] => change (ask git (gitOutput repo args)) with (git (["--literal-pathspecs"; "-C"; repo] ++ args));
    destruct (git (["--literal-pathspecs"; "-C"; repo] ++ args)) as [listing|] eqn:Eg; [|done] end.
  cbn [mbind option_bind]. rewrite ask_try, scan_lines_spec. destruct (mapM _ _) as [os|] eqn:Em; [|done]. cbn [fmap option_fmap option_map mbind option_bind].
  rewrite ask_guard. cbn [fst snd app]. rewrite Z.add_0_l. destruct (_ =? 0) eqn:Ez; [done|]. apply Z.eqb_neq in Ez. cbn [negb ask]. intros [= <-].
  cbn [cs_Revision cs_Root cs_Dir cs_Files cs_Findings]. exists listing, os. cbv zeta.
  assert (Hp : SliceStable finding_before (judged (omap id os)) ≡ₚ judged (omap id os)) by apply SliceStable_perm.
  split_and!; try done; [by intros E; rewrite E in Ez|..].
  rewrite Hp. unfold judged. rewrite Forall_bind. apply Forall_iff. intros pm. apply evaluateManifest_clean.
Qed.
End Scanned.

(** ** A repository *)
Definition sample_rev : string := "0123456789abcdef0123456789abcdef01234567".
Definition sample_answers : list (list string * string) :=
  [(["rev-parse"; "--show-toplevel"], "/r" +:+ one newline);
   (["rev-parse"; "--verify"; "HEAD"], sample_rev +:+ one newline);
   (["rev-parse"; "--verify"; "HEAD^{commit}"], sample_rev +:+ one newline);
   (["ls-tree"; "-z"; sample_rev; "--"; ".snapfall/milestone.json"],
    "100644 blob c1" +:+ one tab +:+ ".snapfall/milestone.json" +:+ one nul);
   (["cat-file"; "-s"; "c1"], "90"); (["cat-file"; "blob"; "c1"], "checklist");
   (["ls-tree"; "-z"; sample_rev; "--"; "app/main.go"], "100644 blob a1" +:+ one tab +:+ "app/main.go" +:+ one nul);
   (["ls-tree"; "-z"; sample_rev; "--"; "docs/guide.md"], "");
   (["log"; "HEAD"; "--no-color"; "--no-merges"; "-n501"; log_format], render_log [(sample_rev, "feat(chain): index events (#86)")]);
   (["ls-tree"; "-r"; sample_rev; "--"; "daemon/manifests"],
    "100644 blob m1" +:+ one tab +:+ "daemon/manifests/research.yaml" +:+ one newline);
   (["cat-file"; "-s"; "m1"], "40"); (["cat-file"; "blob"; "m1"], "role: research")].
Definition sample_git (args : list string) : option string :=
  snd <$> head (filter (λ p, ["--literal-pathspecs"; "-C"; "/r"] ++ p.1 = args) sample_answers).
Definition sample_documents (raw : string) : option (list jval) :=
  if bool_decide (raw = "checklist")
  then Some [JObj [("checks", JArr [JObj [("name", JStr "app"); ("path", JStr "app/main.go")];
                                    JObj [("name", JStr "guide"); ("path", JStr "./docs//guide.md")]])]]
  else None.
Definition sample_yaml (raw : string) : option scannedManifest := Some (MkScanned "research" ["git log"] false false "human").
Definition sample_snapshot : BuildSnapshot := MkSnapshot 50 sample_rev ["app"] ["guide"].
Definition sample_history : ReleaseHistory :=
  MkHistory "/r" "" sample_rev [MkCommit sample_rev "feat(chain): index events (#86)" "feat" "#86"] false.
Lemma history_is_the_log_witness : rh_Commits sample_history = [read_commit (sample_rev, "feat(chain): index events (#86)")].
Proof.
  refine (proj1 (history_is_the_log sample_git Some Some (λ _, Some true) "/r" "" sample_history
    [(sample_rev, "feat(chain): index events (#86)")] _ _ _)); [vm_compute; reflexivity..|].
  constructor; [|constructor]. vm_compute. repeat split; reflexivity.
Defined.
Definition sample_scan : ComplianceScan :=
  MkScan "/r" sample_rev "daemon/manifests" 1 (SliceStable finding_before
    (evaluateManifest (λ s, s) "daemon/manifests/research.yaml" (MkScanned "research" ["git log"] false false "human"))).
Lemma scan_is_exact_witness : ∃ listing os,
  mapM (line_manifest sample_git sample_yaml (cs_Root sample_scan)) (split_on newline (TrimSpace listing)) = Some os ∧
  cs_Files sample_scan = Z.of_nat (length (omap id os)).
Proof.
  destruct (scan_is_exact sample_git sample_yaml (λ s, s) Some Some (λ _, Some true) "" "/r" sample_scan)
    as (listing & os & _ & _ & Hm & _ & Hf & _); [vm_compute; reflexivity|]. exact (ex_intro _ listing (ex_intro _ os (conj Hm Hf))).
Defined.
