(* ===== verification/Gallery.v ===== *)
(** The gallery of read-only workers ([internal/worker]: [build_monitor.go],
    [release_scribe.go], [compliance_scout.go], [incident_watch.go] with its two
    sources).

    A worker is built over its source, an argument: [None] is the source's
    error.  [unmarshal] is what a line of text parses to as JSON ([None]: it is
    no JSON); the reply of the event stream is its status and the text read
    until the window closed. *)
From Stdlib Require Import Ascii String.
From S2P Require Import Prelude GoStr GoTime GoJson Amount Store Envelope Worker Git.
From S2P Require Purchasing.
#[local] Open Scope Z_scope.
#[local] Open Scope snap_scope.
#[local] Set Default Proof Using "Type".

(** ** Text *)
Definition count (n : nat) : string := FormatInt (Z.of_nat n).
Definition Join (l : list string) (sep : string) : string := String.concat sep l.
(** The keys of a map, sorted. *)
Definition sorted_keys (l : list string) : list string := isort String.ltb (remove_dups l).
(** A slice that was never appended to is null. *)
Definition slice_json (l : list string) : jval := if bool_decide (l = []) then JNull else strs l.
Definition cut12 (rev : string) : string := if Nat.ltb 12 (String.length rev) then String.substring 0 12 rev else rev.

(** ** What each worker reports *)
Definition monitor_status (s : BuildSnapshot) : string :=
  if bool_decide (bs_Pending s = []) && (bs_CompletionPct s =? 100)
  then "milestone evidence complete; ready for independent release decision"
  else "release blocked: milestone checks remain".
Definition build_evidence (s : BuildSnapshot) : Deliverable :=
  let source := "git:" +:+ bs_Revision s in
  MkDeliverable "Build milestone evidence"
    (FormatInt (bs_CompletionPct s) +:+ "% complete at " +:+ bs_Revision s +:+ " — " +:+ monitor_status s)
    [MkClaim (count (length (bs_Completed s)) +:+ " completed check(s), " +:+ count (length (bs_Pending s)) +:+ " pending check(s)") [source]]
    [source] None [] "Repository completion is measured evidence, not authorization to release escrowed funds.".

Definition commit_source (c : ReleaseCommit) : string := "git:" +:+ rc_Hash c.
Definition in_category (cat : string) (cs : list ReleaseCommit) : list ReleaseCommit := filter (λ c, rc_Category c = cat) cs.
Definition categories (h : ReleaseHistory) : list string := sorted_keys (rc_Category <$> rh_Commits h).
Definition category_claim (cs : list ReleaseCommit) (cat : string) : Claim :=
  let commits := in_category cat cs in
  let prs := filter (λ p, p ≠ "") (rc_PR <$> commits) in
  MkClaim (cat +:+ ": " +:+ count (length commits) +:+ " change(s)" +:+
           (if bool_decide (prs = []) then "" else " — " +:+ Join prs ", "))
    (commit_source <$> commits).
Definition plural (n : nat) (one many : string) : string := if Nat.eqb n 1 then one else many.
Definition releaseNotes (h : ReleaseHistory) : Deliverable :=
  let cats := categories h in
  let claims := category_claim (rh_Commits h) <$> cats in
  MkDeliverable "Release notes"
    (count (length (rh_Commits h)) +:+ " change(s) across " +:+ count (length cats) +:+ " categor" +:+ plural (length cats) "y" "ies" +:+
     " in " +:+ (if bool_decide (rh_Range h = "") then "reachable from HEAD" else rh_Range h) +:+ " at " +:+ cut12 (rh_HeadRev h) +:+
     (if rh_Truncated h then " (capped at 500 commits; the range holds more)" else ""))
    claims (claims ≫= cl_Sources) None []
    "Release notes summarize committed history; they are evidence of what merged, not authorization to publish or release.".

Definition violations (fs : list PolicyFinding) : list PolicyFinding := filter (λ f, pf_Violation f = true) fs.
Definition file_source (scan : ComplianceScan) (file : string) : string := "git:" +:+ cs_Revision scan +:+ "#" +:+ file.
Definition file_claim (scan : ComplianceScan) (file : string) : Claim :=
  let findings := filter (λ f, pf_File f = file) (cs_Findings scan) in
  let bad := (λ f, pf_Rule f +:+ " (" +:+ pf_Evidence f +:+ ")") <$> violations findings in
  MkClaim (if bool_decide (bad = []) then file +:+ ": " +:+ count (length findings) +:+ " rule(s) aligned"
           else file +:+ ": " +:+ count (length bad) +:+ " violation(s) — " +:+ Join bad "; ")
    [file_source scan file].
Definition scanned_files (scan : ComplianceScan) : list string := sorted_keys (pf_File <$> cs_Findings scan).
Definition complianceReport (scan : ComplianceScan) (nviolations : nat) : Deliverable :=
  MkDeliverable "Policy-alignment findings"
    (FormatInt (cs_Files scan) +:+ " file(s), " +:+ count (length (cs_Findings scan)) +:+ " check(s) at " +:+ cut12 (cs_Revision scan) +:+
     " — " +:+ (if Nat.ltb 0 nviolations then count nviolations +:+ " policy violation(s) found"
                else "aligned: no policy violations in the scanned configuration"))
    (file_claim scan <$> scanned_files scan) (file_source scan <$> scanned_files scan) None []
    ("Least-privilege lint of committed configuration; evidence of internal policy alignment. " +:+
     "This is NOT sanctions or entity screening — that remains a labeled stub (StubCompliance) until Circle credentials exist.").

Record Incident := MkIncident { in_Kind : string; in_Source : string; in_EntityID : string; in_Detail : string }.
Record IncidentScan := MkIncidents {
  is_Connected : bool; is_StreamURL : string; is_StreamScanned : Z; is_Probed : Z; is_Incidents : list Incident }.
Definition incidentDisclaimer : string :=
  "Liveness + recorded-incident monitor: it reports incident-class events already recorded on the " +:+
  "H2 stream (freeze.engaged, advance.reverted, payment.failed) and endpoints failing a health probe. " +:+
  "It is not anomaly detection, and it authorizes nothing.".
Definition incident_before (a b : Incident) : bool :=
  if negb (bool_decide (in_Source a = in_Source b)) then String.ltb (in_Source a) (in_Source b)
  else if negb (bool_decide (in_Kind a = in_Kind b)) then String.ltb (in_Kind a) (in_Kind b)
  else String.ltb (in_EntityID a) (in_EntityID b).
Definition incident_source (i : Incident) : string := in_Source i +:+ ":" +:+ in_EntityID i.
Definition incident_claim (i : Incident) : Claim :=
  MkClaim (in_Kind i +:+ " [" +:+ in_Source i +:+ "] " +:+ in_EntityID i +:+ " — " +:+ in_Detail i) [incident_source i].
Definition incidentReport (scan : IncidentScan) : Deliverable :=
  let observed := "connected; read " +:+ FormatInt (is_StreamScanned scan) +:+ " stream frame(s), probed " +:+
                  FormatInt (is_Probed scan) +:+ " endpoint(s)" in
  let streamSrc := "stream:" +:+ is_StreamURL scan in
  if bool_decide (is_Incidents scan = []) then
    MkDeliverable "Incident watch" ("All clear — " +:+ observed +:+ ", 0 incidents.")
      [MkClaim ("no incident-class events recorded and no endpoint failing its probe (" +:+ observed +:+ ")") [streamSrc]]
      [streamSrc] None [] incidentDisclaimer
  else
    let incidents := SliceStable incident_before (is_Incidents scan) in
    MkDeliverable "Incident watch" (count (length incidents) +:+ " incident(s) — " +:+ observed +:+ ".")
      (incident_claim <$> incidents) (streamSrc :: (incident_source <$> incidents)) None [] incidentDisclaimer.

(** ** The handlers *)
Section Handlers.
Context {X Er : Type}.
Abbreviation wprog := (wprog X Er (werror Er)).
(** What was measured, then the report. *)
Definition report_both (jobID : string) (progress : list (string * jval)) (final : Deliverable) : wprog :=
  wseq (report jobID TypeWorkerProgress (JObj progress)) (report jobID TypeWorkerReport (deliverable_json final)).
Definition fails (e : WErr) : wprog := WRet (Some (Datatypes.inl e)).
(** The assignment's scope is the name of a repository. *)
Definition with_repository (assignment : Envelope) (k : Assignment → string → wprog) : wprog :=
  match Decode assignment_of_json assignment with
  | None => fails WDecode
  | Some a => if bool_decide (TrimSpace (as_Scope a) = "") then fails WNoRepository else k a (TrimSpace (as_Scope a))
  end.

Definition BuildMonitor_Handle (snapshot : string → option BuildSnapshot) : handler X Er := λ assignment,
  with_repository assignment (λ a repository,
  match snapshot repository with
  | None => fails WSource
  | Some s =>
    if (bs_CompletionPct s <? 0) || (100 <? bs_CompletionPct s) then fails WBadSnapshot
    else if bool_decide (TrimSpace (bs_Revision s) = "") then fails WNoRevision
    else report_both (en_JobID assignment)
           [("stage", JStr "build-monitored"); ("completion_pct", JInt (bs_CompletionPct s)); ("revision", JStr (bs_Revision s));
            ("completed", slice_json (bs_Completed s)); ("pending", slice_json (bs_Pending s))]
           (build_evidence s)
  end).
Definition ReleaseScribe_Handle (history : string → string → option ReleaseHistory) : handler X Er := λ assignment,
  with_repository assignment (λ a repository,
  match history repository (TrimSpace (as_Range a)) with
  | None => fails WSource
  | Some h =>
    if bool_decide (TrimSpace (rh_HeadRev h) = "") then fails WNoRevision
    else report_both (en_JobID assignment)
           [("stage", JStr "history-read"); ("revision", JStr (rh_HeadRev h)); ("range", JStr (rh_Range h));
            ("commit_count", JInt (Z.of_nat (length (rh_Commits h)))); ("truncated", JBool (rh_Truncated h))]
           (releaseNotes h)
  end).
Definition ComplianceScout_Handle (scan_of : string → option ComplianceScan) : handler X Er := λ assignment,
  with_repository assignment (λ a root,
  match scan_of root with
  | None => fails WSource
  | Some scan =>
    if bool_decide (TrimSpace (cs_Revision scan) = "") then fails WNoRevision
    else let n := length (violations (cs_Findings scan)) in
         report_both (en_JobID assignment)
           [("stage", JStr "policy-scanned"); ("revision", JStr (cs_Revision scan)); ("dir", JStr (cs_Dir scan));
            ("files", JInt (cs_Files scan)); ("checks", JInt (Z.of_nat (length (cs_Findings scan)))); ("violations", JInt (Z.of_nat n))]
           (complianceReport scan n)
  end).
Definition IncidentWatch_Handle (watch : option IncidentScan) : handler X Er := λ assignment,
  match Decode assignment_of_json assignment with
  | None => fails WDecode
  | Some _ =>
    match watch with
    | None => fails WSource
    | Some scan =>
      if negb (is_Connected scan) then fails WUnconnected
      else report_both (en_JobID assignment)
             [("stage", JStr "monitored"); ("connected", JBool true); ("stream_scanned", JInt (is_StreamScanned scan));
              ("probed", JInt (is_Probed scan)); ("incidents", JInt (Z.of_nat (length (is_Incidents scan))))]
             (incidentReport scan)
    end
  end.
End Handlers.
Definition BuildMonitorKind : string := "build-monitor".
Definition ReleaseScribeKind : string := "release-scribe".
Definition ComplianceScoutKind : string := "compliance-scout".
Definition IncidentWatchKind : string := "incident-watch".

(** ** The event stream, read as text *)
Definition streamIncidentKinds : list string := ["freeze.engaged"; "advance.reverted"; "payment.failed"].
Definition incidentFromEvent (kind jobID entityID at_ : string) : option Incident :=
  if negb (bool_decide (kind ∈ streamIncidentKinds)) then None
  else
    let id := if bool_decide (TrimSpace jobID = "") then TrimSpace entityID else TrimSpace jobID in
    Some (MkIncident kind "stream" id (if bool_decide (at_ = "") then "recorded" else "at " +:+ at_)).
Record streamFrame := MkStreamFrame { sf_Kind : string; sf_EventKind : string; sf_JobID : string; sf_EntityID : string; sf_At : string }.
Definition frame_of_json (v : jval) : option streamFrame :=
  kind ← dec_str "kind" v;
  fs ← jfields v;
  let e := default JNull (jget "event" fs) in
  a ← dec_str "kind" e; b ← dec_str "jobId" e; c ← dec_str "entityId" e; d ← dec_str "at" e;
  Some (MkStreamFrame kind a b c d).

Definition maxIncidentFrameBytes : Z := 2 ^ 20.
(** [bufio.Scanner] over lines: it ends at a line that does not fit its
    buffer, and the end of the text ends the last line. *)
Fixpoint fitting (lines : list string) : list string :=
  match lines with
  | l :: r => if Z.of_nat (String.length l) <? maxIncidentFrameBytes then l :: fitting r else []
  | [] => []
  end.
Definition drop_last_empty (l : list string) : list string :=
  match last l with Some "" => removelast l | _ => l end.
Fixpoint dropCR (s : string) : string :=
  match s with
  | "" => ""
  | String c "" => if bool_decide (c = chrZ 13) then "" else s
  | String c r => String c (dropCR r)
  end.
Definition scanned_text (text : string) : list string := dropCR <$> fitting (drop_last_empty (split_on newline text)).

Section Sources.
Context (unmarshal : string → option jval).
(** The frame a line carries; [Some None]: a frame of no use. *)
Definition line_frame (line : string) : option (option Incident) :=
  match strip_prefix "data:" line with
  | None => None
  | Some rest =>
    let payload := TrimSpace rest in
    if bool_decide (payload = "") then None
    else Some (v ← unmarshal payload; f ← frame_of_json v;
               if bool_decide (sf_Kind f = "event") then incidentFromEvent (sf_EventKind f) (sf_JobID f) (sf_EntityID f) (sf_At f) else None)
  end.
(** [StreamIncidentSource.Watch]; no reply: it could not connect. *)
Definition StreamWatch (url : string) (reply : option (Z * string)) : option IncidentScan :=
  match reply with
  | None => None
  | Some (status, text) =>
    if negb (status =? 200) then None
    else let frames := omap line_frame (scanned_text text) in
         Some (MkIncidents true url (Z.of_nat (length frames)) 0 (omap id frames))
  end.

(** ** The endpoints *)
Inductive Probe := Malformed (err : string) | NoResponse (err : string) | Answered (status : Z).
Definition probe_incident (endpoint : string) (p : Probe) : option Incident :=
  match p with
  | Malformed e => Some (MkIncident "endpoint-unreachable" "health" endpoint ("malformed endpoint: " +:+ e))
  | NoResponse e => Some (MkIncident "endpoint-unreachable" "health" endpoint ("no response: " +:+ e))
  | Answered status =>
    if 500 <=? status then Some (MkIncident "endpoint-down" "health" endpoint ("status " +:+ FormatInt status)) else None
  end.
(** [HealthProbeSource.Watch]. *)
Definition HealthWatch (probe : string → Probe) (endpoints : list string) : option IncidentScan :=
  Some (MkIncidents true "" 0 (Z.of_nat (length endpoints)) (omap (λ e, probe_incident e (probe e)) endpoints)).
(** [combinedIncidentSource.Watch]. *)
Definition CombinedWatch (stream : option IncidentScan) (health : option (option IncidentScan)) : option IncidentScan :=
  scan ← stream;
  match health with
  | None => Some scan
  | Some h => h ← h; Some (MkIncidents (is_Connected scan) (is_StreamURL scan) (is_StreamScanned scan) (is_Probed h)
                             (is_Incidents scan ++ is_Incidents h))
  end.
(** [newIncidentSource] of the daemon, with its environment. *)
Definition configured_endpoints (env : string) : list string := filter (λ e, e ≠ "") (TrimSpace <$> split_on "," env).
Definition newIncidentSource (urlEnv endpointsEnv : string) (stream : string → option (Z * string)) (probe : string → Probe) : option IncidentScan :=
  let url := if bool_decide (TrimSpace urlEnv = "") then "http://127.0.0.1:4010/api/v1/events/stream" else TrimSpace urlEnv in
  let endpoints := configured_endpoints endpointsEnv in
  CombinedWatch (StreamWatch url (stream url)) (if bool_decide (endpoints = []) then None else Some (HealthWatch probe endpoints)).
End Sources.

(** ** A gallery worker reports, and does nothing else *)
Section Observers.
Context {X Er : Type}.
(** Messages of these types for this job, the first failure returned; no
    purchase, no memory. *)
Fixpoint only_reports (jobID : string) (types : list string) (p : wprog X Er (werror Er)) {struct p} : Prop :=
  match p with
  | WRet _ => True
  | WReport e k =>
    match types with
    | [] => False
    | t :: r =>
      (∀ now, en_JobID (e now) = jobID ∧ en_From (e now) = RoleWorker ∧ en_Type (e now) = t) ∧
      (∀ err, k (Some err) = WRet (Some (Datatypes.inr err))) ∧ only_reports jobID r (k None)
    end
  | _ => False
  end.
Lemma report_both_only jobID progress d : only_reports jobID [TypeWorkerProgress; TypeWorkerReport] (report_both jobID progress d).
Proof. repeat split. Qed.
Lemma with_repository_only jobID types assignment k : (∀ a r, only_reports jobID types (k a r)) →
  only_reports jobID types (with_repository assignment k).
Proof. intros Hk. unfold with_repository. destruct (Decode _ _); [|done]. case_bool_decide; [done|apply Hk]. Qed.
(** The gallery only observes.  Whatever a source answers and whatever the
    assignment holds, a gallery worker makes no purchase, and what it sends is,
    for its own job, one progress message and then one report; it stops at the
    first message that is not taken and returns that error. *)
Lemma gallery_only_observes snapshot history scan_of watch (assignment : Envelope) :
  let jobID := en_JobID assignment in
  let types := [TypeWorkerProgress; TypeWorkerReport] in
  only_reports jobID types (BuildMonitor_Handle snapshot assignment) ∧
  only_reports jobID types (ReleaseScribe_Handle history assignment) ∧
  only_reports jobID types (ComplianceScout_Handle scan_of assignment) ∧
  only_reports jobID types (IncidentWatch_Handle watch assignment).
Proof.
  cbv zeta. split_and!.
  - apply with_repository_only. intros a r. destruct (snapshot r); [|exact I]. destruct (_ || _); [exact I|].
    case_bool_decide; [exact I|apply report_both_only].
  - apply with_repository_only. intros a r. destruct (history _ _); [|exact I]. case_bool_decide; [exact I|apply report_both_only].
  - apply with_repository_only. intros a r. destruct (scan_of r); [|exact I]. case_bool_decide; [exact I|apply report_both_only].
  - unfold IncidentWatch_Handle. destruct (Decode _ _); [|exact I]. destruct watch as [scan|]; [|exact I].
    destruct (negb _); [exact I|apply report_both_only].
Qed.
End Observers.

(** ** What the reviewer makes of the reports *)
Lemma blank_head c r : acc1 c = true → space_chunk (Raw1 c) = false → blank (String c r) = false.
Proof. intros Ha Hs. unfold blank. cbn [chunks]. rewrite Ha. cbn [forallb]. by rewrite Hs. Qed.
Lemma digit_head c r : isDigit c = true → blank (String c r) = false.
Proof. intros Hc. apply blank_head; destruct c as [[] [] [] [] [] [] [] []]; first [discriminate Hc|reflexivity]. Qed.
Lemma FormatUint_head n : 0 ≤ n → ∃ c r, FormatUint n = String c r ∧ isDigit c = true.
Proof.
  intros Hn. pose proof (FormatUint_digits n Hn) as Hd. pose proof (FormatUint_nonempty n) as Hne.
  destruct (FormatUint n) as [|c r]; [done|]. cbn in Hd. apply andb_true_iff in Hd as [Hc _]. by exists c, r.
Qed.
Lemma number_not_blank z t : blank (FormatInt z +:+ t) = false.
Proof.
  unfold FormatInt. destruct (z <? 0) eqn:E; [rewrite sapp_cons; by apply blank_head|]. apply Z.ltb_ge in E.
  destruct (FormatUint_head z E) as (c & r & -> & Hc). rewrite sapp_cons. by apply digit_head.
Qed.
Definition no_leak (markers : list string) (d : Deliverable) : Prop :=
  ∀ m t, m ∈ markers → m ≠ "" → t ∈ texts d → Contains t m = false.
Lemma reviewed quoteGo markers d : blank (dv_Title d) = false → blank (dv_Summary d) = false →
  (∀ c, c ∈ dv_Claims d → cl_Sources c ≠ [] ∧ ∀ s, s ∈ cl_Sources c → s ∈ dv_Sources d) →
  qv_Passed (Review quoteGo markers d) = true ↔ dv_Claims d ≠ [] ∧ no_leak markers d.
Proof.
  intros Ht Hs Hc. rewrite Review_passed. unfold deliverable_ok. split; [by intros (_ & _ & ? & _ & _ & ?)|].
  intros [Hn Hl]. split_and!; try done. intros E. destruct (dv_Claims d) as [|c l]; [done|]. destruct (Hc c) as [Hne Hall]; [by left|].
  destruct (cl_Sources c) as [|s r]; [done|]. specialize (Hall s ltac:(by left)). rewrite E in Hall. by apply elem_of_nil in Hall.
Qed.
Lemma sorted_keys_nil l : sorted_keys l = [] ↔ l = [].
Proof.
  unfold sorted_keys. split; [|by intros ->]. intros E. destruct l as [|x l]; [done|].
  assert (Hx : x ∈ isort String.ltb (remove_dups (x :: l))) by (apply elem_of_isort, elem_of_remove_dups; by left).
  rewrite E in Hx. by apply elem_of_nil in Hx.
Qed.
Lemma elem_of_sorted_keys x l : x ∈ sorted_keys l ↔ x ∈ l.
Proof. unfold sorted_keys. by rewrite elem_of_isort, elem_of_remove_dups. Qed.
Lemma sorted_keys_nodup l : NoDup (sorted_keys l).
Proof. unfold sorted_keys. rewrite isort_perm. apply NoDup_remove_dups. Qed.
Lemma keyed_nil {A B} (f : string → B) (g : A → string) l : f <$> sorted_keys (g <$> l) = [] ↔ l = [].
Proof.
  split; [|by intros ->]. intros E%fmap_nil_inv. apply (proj1 (sorted_keys_nil _)) in E. by apply fmap_nil_inv in E.
Qed.
Lemma release_claims_cited h c : c ∈ dv_Claims (releaseNotes h) →
  cl_Sources c ≠ [] ∧ ∀ s, s ∈ cl_Sources c → s ∈ dv_Sources (releaseNotes h).
Proof.
  cbn [releaseNotes dv_Claims dv_Sources]. intros Hc. split; [|intros s Hs; apply list_elem_of_bind; by exists c].
  apply list_elem_of_fmap in Hc as (cat & -> & Hcat). unfold categories in Hcat. apply elem_of_sorted_keys, list_elem_of_fmap in Hcat as (k & -> & Hk).
  cbn [category_claim cl_Sources]. intros E%fmap_nil_inv.
  assert (Hin : k ∈ in_category (rc_Category k) (rh_Commits h)) by (unfold in_category; by apply list_elem_of_filter).
  rewrite E in Hin. by apply elem_of_nil in Hin.
Qed.
Lemma file_claims_cited sc n c : c ∈ dv_Claims (complianceReport sc n) →
  cl_Sources c ≠ [] ∧ ∀ s, s ∈ cl_Sources c → s ∈ dv_Sources (complianceReport sc n).
Proof.
  cbn [complianceReport dv_Claims dv_Sources]. intros (file & -> & Hf)%list_elem_of_fmap. split; [done|].
  intros s Hs. apply list_elem_of_singleton in Hs as ->. by apply list_elem_of_fmap_2.
Qed.
Lemma incident_claims_cited w c : c ∈ dv_Claims (incidentReport w) →
  cl_Sources c ≠ [] ∧ ∀ s, s ∈ cl_Sources c → s ∈ dv_Sources (incidentReport w).
Proof.
  unfold incidentReport. case_bool_decide; cbn [dv_Claims dv_Sources].
  - intros ->%list_elem_of_singleton. split; [done|]. intros s Hs. exact Hs.
  - intros (i & -> & Hi)%list_elem_of_fmap. split; [done|]. intros s Hs. apply list_elem_of_singleton in Hs as ->.
    right. by apply list_elem_of_fmap_2.
Qed.
(** What the gallery reports passes review.  With no confidential marker in
    its texts, a build report and an incident report always pass, release notes
    pass exactly when there is a commit in the range, and a policy report
    exactly when a rule was applied; nothing else in them is ever a reason to
    bounce. *)
Lemma gallery_passes_review quoteGo markers s h sc n w :
  (qv_Passed (Review quoteGo markers (build_evidence s)) = true ↔ no_leak markers (build_evidence s)) ∧
  (qv_Passed (Review quoteGo markers (releaseNotes h)) = true ↔ rh_Commits h ≠ [] ∧ no_leak markers (releaseNotes h)) ∧
  (qv_Passed (Review quoteGo markers (complianceReport sc n)) = true ↔ cs_Findings sc ≠ [] ∧ no_leak markers (complianceReport sc n)) ∧
  (qv_Passed (Review quoteGo markers (incidentReport w)) = true ↔ no_leak markers (incidentReport w)).
Proof.
  split_and!.
  - rewrite reviewed; [cbn [build_evidence dv_Claims]; by intuition|reflexivity|apply number_not_blank|].
    intros c Hc. apply list_elem_of_singleton in Hc as ->. split; [done|]. intros x Hx. exact Hx.
  - rewrite reviewed; [|reflexivity|apply number_not_blank|apply release_claims_cited].
    cbn [releaseNotes dv_Claims]. unfold categories. by rewrite keyed_nil.
  - rewrite reviewed; [|reflexivity|apply number_not_blank|apply file_claims_cited].
    cbn [complianceReport dv_Claims]. unfold scanned_files. by rewrite keyed_nil.
  - rewrite reviewed; [|by unfold incidentReport; case_bool_decide| |apply incident_claims_cited].
    + unfold incidentReport. case_bool_decide as E; cbn [dv_Claims]; [by intuition|].
      split; [by intros [_ ?]|]. intros Hl. split; [|done]. intros En%fmap_nil_inv. apply E.
      apply Permutation_nil. by rewrite <-En, SliceStable_perm.
    + unfold incidentReport. case_bool_decide; cbn [dv_Summary]; [reflexivity|apply number_not_blank].
Qed.

(** ** The release notes account for every commit *)
Section Partition.
Context {A : Type} (f : A → string).
Lemma filter_split k ks (l : list A) : k ∉ ks →
  filter (λ c, f c ∈ k :: ks) l ≡ₚ filter (λ c, f c = k) l ++ filter (λ c, f c ∈ ks) l.
Proof.
  intros Hk. induction l as [|c l IH]; [done|]. rewrite !filter_cons.
  destruct (decide (f c = k)) as [E|E].
  - rewrite (decide_True (P := f c ∈ k :: ks)), (decide_False (P := f c ∈ ks)), IH by (rewrite E; (done || by left)). done.
  - destruct (decide (f c ∈ ks)) as [Hi|Hi].
    + rewrite decide_True, IH by (by right). by rewrite Permutation_middle.
    + rewrite decide_False by (by intros [?|?]%elem_of_cons). done.
Qed.
Lemma filter_keys (l : list A) keys : NoDup keys →
  (keys ≫= λ k, filter (λ c, f c = k) l) ≡ₚ filter (λ c, f c ∈ keys) l.
Proof.
  induction 1 as [|k ks Hk _ IH]; cbn; [|by rewrite IH, filter_split].
  induction l as [|c l IH]; [done|]. rewrite filter_cons, decide_False; [done|]. apply not_elem_of_nil.
Qed.
Lemma partitioned (l : list A) : (sorted_keys (f <$> l) ≫= λ k, filter (λ c, f c = k) l) ≡ₚ l.
Proof.
  rewrite filter_keys by apply sorted_keys_nodup.
  assert (H : ∀ k, Forall (λ c, f c ∈ sorted_keys (f <$> l)) k → filter (λ c, f c ∈ sorted_keys (f <$> l)) k = k).
  { induction 1 as [|c k Hc _ IH]; [done|]. by rewrite filter_cons, decide_True, IH by done. }
  rewrite H; [done|]. apply Forall_forall. intros c Hc. by apply elem_of_sorted_keys, list_elem_of_fmap_2.
Qed.
End Partition.
(** Release notes account for every commit.  The sources of the notes are
    the commits of the history, each exactly as often as it occurs there; every
    commit is cited under its category and under no other, and a category that
    is reported is the category of a commit. *)
Lemma notes_cite_every_commit h :
  dv_Sources (releaseNotes h) ≡ₚ commit_source <$> rh_Commits h ∧
  NoDup (categories h) ∧
  (∀ cat, cat ∈ categories h ↔ ∃ c, c ∈ rh_Commits h ∧ rc_Category c = cat) ∧
  dv_Claims (releaseNotes h) = (λ cat, MkClaim (cl_Text (category_claim (rh_Commits h) cat))
                                         (commit_source <$> filter (λ c, rc_Category c = cat) (rh_Commits h))) <$> categories h.
Proof.
  split_and!; [|apply sorted_keys_nodup| |done].
  - cbn [releaseNotes dv_Sources]. rewrite <-(partitioned rc_Category (rh_Commits h)) at 2.
    unfold category_claim. rewrite list_fmap_bind. fold (categories h).
    induction (categories h) as [|k ks IH]; [done|]. cbn. by rewrite fmap_app, IH.
  - intros cat. unfold categories. rewrite elem_of_sorted_keys, list_elem_of_fmap. naive_solver.
Qed.

(** ** A broken monitor is never calm *)
Section Incidents.
Context (unmarshal : string → option jval).
Lemma omap_nil_iff {A C} (f : A → option C) l : omap f l = [] ↔ ∀ x, x ∈ l → f x = None.
Proof.
  split.
  - intros E x Hx. destruct (f x) as [y|] eqn:Ey; [|done]. assert (Hy : y ∈ omap f l) by (apply list_elem_of_omap; eauto).
    rewrite E in Hy. by apply elem_of_nil in Hy.
  - intros H. induction l as [|x l IH]; [done|]. cbn. rewrite H by (by left). apply IH. intros y Hy. apply H. by right.
Qed.
Lemma probe_incident_none e p : probe_incident e p = None ↔ ∃ status, p = Answered status ∧ status < 500.
Proof.
  destruct p as [err|err|status]; cbn; [split; [done|by intros (? & ? & _)]..|]. destruct (500 <=? status) eqn:E.
  - apply Z.leb_le in E. split; [done|]. intros (? & [= <-] & ?). lia.
  - apply Z.leb_gt in E. split; [|done]. intros _. by exists status.
Qed.
(** What is read as an end of the stream is not always one: a connection that
    closes at once, or a first line that does not fit the buffer, are reported
    as calm. *)
Lemma dead_stream_is_all_clear url : StreamWatch unmarshal url (Some (200, "")) = Some (MkIncidents true url 0 0 []).
Proof. reflexivity. Qed.
Lemma split_on_ne c s : split_on c s ≠ [].
Proof. destruct s as [|d r]; cbn; [done|]. case_bool_decide; [done|]. by destruct (split_on c r). Qed.
Lemma fitting_long l r : maxIncidentFrameBytes ≤ Z.of_nat (String.length l) → fitting (l :: r) = [].
Proof. intros H. cbn [fitting]. rewrite (proj2 (Z.ltb_ge _ _)) by done. done. Qed.
Lemma long_frame_hides_the_rest url long rest : lacks newline long → maxIncidentFrameBytes ≤ Z.of_nat (String.length long) →
  StreamWatch unmarshal url (Some (200, long +:+ String newline rest)) = Some (MkIncidents true url 0 0 []).
Proof.
  intros Hl Hlong. unfold StreamWatch, scanned_text. rewrite split_on_app by done.
  assert (Hd : ∃ r, drop_last_empty (long :: split_on newline rest) = long :: r).
  { unfold drop_last_empty. destruct (split_on newline rest) as [|y k] eqn:E; [by apply split_on_ne in E|].
    destruct (last (long :: y :: k)) as [[|]|]; eexists; cbn; reflexivity. }
  destruct Hd as [r ->]. rewrite fitting_long by done. done.
Qed.
End Incidents.
