(* ===== verification/Incidents.v ===== *)
(** The incident monitor as a client of the owner stream: what [Gallery] reads
    of the text that [Stream] sends.

    [marshal] is the text [json.Marshal] writes and [unmarshal] what a text
    parses to; [transmits] is what is documented of them for one frame: the text
    is on one line, is not surrounded by spaces and is read back. *)
From Stdlib Require Import Ascii String.
From S2P Require Import Prelude GoStr GoTime GoJson Amount Store Envelope Worker Git Gallery Approval Owner Stream Session.
From S2P Require Indexer.
#[local] Open Scope Z_scope.
#[local] Open Scope snap_scope.
#[local] Set Default Proof Using "Type".

Section Incidents.
Context (marshal : jval → string) (unmarshal : string → option jval).
(** [sseWrite], as text. *)
Definition frame_lines (f : Frame) : list string :=
  match fr_id f with Some id => ["id: " +:+ FormatInt id] | None => [] end ++ ["data: " +:+ marshal (fr_data f); ""].
Definition lines_text (ls : list string) : string := foldr (λ l t, l +:+ String newline t) "" ls.
Definition stream_text (fs : list Frame) : string := lines_text (fs ≫= frame_lines).

Definition return_char : ascii := chrZ 13.
Definition transmits (f : Frame) : Prop :=
  unmarshal (marshal (fr_data f)) = Some (fr_data f) ∧ marshal (fr_data f) ≠ "" ∧ TrimSpace (marshal (fr_data f)) = marshal (fr_data f) ∧
  lacks newline (marshal (fr_data f)) ∧ lacks return_char (marshal (fr_data f)) ∧
  Z.of_nat (String.length (marshal (fr_data f))) + 6 < maxIncidentFrameBytes ∧ (∀ z, fr_id f = Some z → 0 ≤ z ≤ max_int64).
Definition frame_incident (f : Frame) : option Incident :=
  v ← frame_of_json (fr_data f);
  if bool_decide (sf_Kind v = "event") then incidentFromEvent (sf_EventKind v) (sf_JobID v) (sf_EntityID v) (sf_At v) else None.

(** *** Lines *)
Definition line_ok (l : string) : Prop :=
  lacks newline l ∧ lacks return_char l ∧ Z.of_nat (String.length l) < maxIncidentFrameBytes.
Lemma split_lines ls : Forall line_ok ls → split_on newline (lines_text ls) = ls ++ [""].
Proof. induction 1 as [|l ls (Hl & _ & _) _ IH]; [done|]. cbn [lines_text foldr app]. fold (lines_text ls). by rewrite split_on_app, IH. Qed.
Lemma dropCR_lacks l : lacks return_char l → dropCR l = l.
Proof.
  induction l as [|c r IH]; [done|]. rewrite lacks_cons. intros [Hc Hr]. cbn [dropCR]. rewrite IH by done.
  destruct r; [|done]. by rewrite bool_decide_false.
Qed.
Lemma scanned_lines ls : Forall line_ok ls → scanned_text (lines_text ls) = ls.
Proof.
  intros H. unfold scanned_text. rewrite split_lines by done. unfold drop_last_empty. rewrite last_snoc, removelast_last.
  induction H as [|l ls (_ & Hc & Hl) _ IH]; [done|]. cbn [fitting]. rewrite (proj2 (Z.ltb_lt _ _) Hl). cbn.
  by rewrite dropCR_lacks, IH.
Qed.
Lemma udigits_short fuel : ∀ n acc, (String.length (udigits fuel n acc) ≤ fuel + String.length acc)%nat.
Proof.
  induction fuel as [|fuel IH]; intros n acc; cbn [udigits]; [lia|]. destruct (n <? 10); [cbn; lia|].
  etransitivity; [apply IH|]. cbn. lia.
Qed.
Lemma digits_line_ok s : sall isDigit s = true → lacks newline s ∧ lacks return_char s.
Proof.
  induction s as [|c r IH]; [done|]. cbn [sall]. rewrite andb_true_iff, !lacks_cons. intros [Hc Hr]. destruct (IH Hr).
  repeat split; try done; intros ->; discriminate Hc.
Qed.
Lemma id_line_ok z : 0 ≤ z ≤ max_int64 → line_ok ("id: " +:+ FormatInt z).
Proof.
  intros [Hz Hm]. unfold FormatInt. rewrite (proj2 (Z.ltb_ge z 0)) by done.
  destruct (digits_line_ok (FormatUint z) (FormatUint_digits z Hz)) as [H1 H2].
  split; [|split]; [by apply lacks_app|by apply lacks_app|]. rewrite slength_app.
  pose proof (udigits_short (S (Z.to_nat (Z.log2 z))) z "") as Hl. fold (FormatUint z) in Hl. cbn [String.length] in *.
  assert (Z.log2 z ≤ 62) by (apply (Z.log2_le_mono z max_int64 Hm)). unfold maxIncidentFrameBytes. lia.
Qed.
Lemma frame_lines_ok f : transmits f → Forall line_ok (frame_lines f).
Proof.
  intros (_ & _ & _ & Hn & Hc & Hl & Hid). unfold frame_lines. apply Forall_app. split.
  - destruct (fr_id f) as [z|]; [|constructor]. constructor; [by apply id_line_ok, Hid|constructor].
  - constructor; [|repeat constructor]. split; [by apply lacks_app|]. split; [by apply lacks_app|]. rewrite slength_app. cbn. lia.
Qed.
Lemma trim_leading s : TrimSpace (" " +:+ s) = TrimSpace s.
Proof. reflexivity. Qed.
Lemma frame_lines_read f : transmits f → omap (line_frame unmarshal) (frame_lines f) = [frame_incident f].
Proof.
  intros (Hu & Hne & Ht & _). unfold frame_lines. rewrite omap_app.
  assert (Hid : omap (line_frame unmarshal) (match fr_id f with Some id => ["id: " +:+ FormatInt id] | None => [] end) = [])
    by (by destruct (fr_id f)).
  rewrite Hid. cbn [app omap list_omap].
  assert (Hl : line_frame unmarshal ("data: " +:+ marshal (fr_data f)) = Some (frame_incident f)).
  { change ("data: " +:+ marshal (fr_data f)) with ("data:" +:+ " " +:+ marshal (fr_data f)). unfold line_frame.
    rewrite strip_prefix_app, trim_leading, Ht, bool_decide_false, Hu by done. done. }
  by rewrite Hl.
Qed.
(** The monitor reads back what the stream wrote. *)
Lemma watch_reads_the_text url fs : Forall transmits fs →
  StreamWatch unmarshal url (Some (200, stream_text fs)) =
  Some (MkIncidents true url (Z.of_nat (length fs)) 0 (omap frame_incident fs)).
Proof.
  intros H. unfold StreamWatch, stream_text. cbn [negb Z.eqb Pos.eqb].
  assert (Hok : Forall line_ok (fs ≫= frame_lines)) by (apply Forall_bind; eapply Forall_impl; [exact H|apply frame_lines_ok]).
  rewrite scanned_lines by done.
  assert (Hr : omap (line_frame unmarshal) (fs ≫= frame_lines) = frame_incident <$> fs).
  { clear Hok. induction H as [|f fs Hf _ IH]; [done|]. cbn [mbind list_bind]. by rewrite omap_app, frame_lines_read, IH. }
  rewrite Hr, length_fmap. f_equal. f_equal. clear. induction fs as [|f fs IH]; [done|]. cbn. rewrite IH. by destruct (frame_incident f).
Qed.

(** *** Recorded incidents *)
Definition row_incident (x : EventRow) : option Incident :=
  incidentFromEvent (utf8_clean (ev_kind x)) (utf8_clean (ev_entity x)) "" (utf8_clean (RFC3339 (time_UnixMilli (ev_ts x)))).
Lemma daemon_frame_incident x ref : frame_incident (daemon_frame x ref) = row_incident x.
Proof.
  unfold frame_incident, daemon_frame, sseWrite, frame_of_json, row_incident. cbn [fr_data].
  destruct (bool_decide (ref = "")); reflexivity.
Qed.
Lemma delivered_incidents fs rows : Forall2 delivers (filter is_daemon fs) rows →
  omap row_incident rows `sublist_of` omap frame_incident fs.
Proof.
  revert rows. induction fs as [|f fs IH]; intros rows H; [by inversion H|]. rewrite filter_cons in H. case_decide.
  - inversion H as [|? x ? rows' [_ [ref ->]] Hr]; subst. cbn [omap list_omap]. rewrite daemon_frame_incident.
    destruct (row_incident x); [by apply sublist_skip, IH|by apply IH].
  - cbn [omap list_omap]. destruct (frame_incident f); [by apply sublist_cons, IH|by apply IH].
Qed.
Context {W : Type} (chain : W → Indexer.ChainDB) (job_rows : W → gmap string (option string)).
Context (observed : W → string → Z → Z) (sv : Server (W := W)).
End Incidents.
