(* ===== verification/OwnerScenario.v ===== *)
(** A small owner API, run: the theorems about it applied. *)
From Stdlib Require Import Ascii String.
From S2P Require Import Prelude GoStr GoTime GoJson Intent Policy Store Approval Wiring Owner Doors Stream Session Gallery Incidents.
From S2P Require Indexer.
#[local] Open Scope Z_scope.
#[local] Open Scope snap_scope.

Abbreviation hooks := (daemon_hooks sample_keccak).
Abbreviation laws := (daemon_laws sample_keccak).
Definition ap_text (e : ApErr) : string := "error".
Definition sample_server : Server (W := Daemon) :=
  MkServer "0123456789abcdef0123456789abcdef" "0xOrg" None None (Some (λ job token w, (w, bool_decide (token = job +:+ "-credential"))))
    (Some (λ _ _ w, (w, Ok "accepted-settled"))) (Some (λ _ _, Some "delivery_ready")) None None [] None None.
Definition bearer (token : string) : string := "Bearer " +:+ token.

(** An owner's decision on a purchase above the threshold. *)
Definition shown_purchase : Intent :=
  MkIntent "pi_2" "org" "job_1" "" "dd-worker" KindPayment DemoMerchantProfile "GET /v1/x" 200000
    "profile" "0xdef" "pol_7" (1000 * Second) "" "" "0xusdc" "eip155:5042002"
    200000 "0xPayee" "https://api.example/v1/x".
Definition inbox : World Daemon := (Submit (H := hooks) sample_keccak (10 * Second) shown_purchase fresh_daemon).1.
Definition sample_body : jval :=
  JObj [("kind", JStr "approve"); ("by", JStr "owner"); ("intentHash", JStr (InternalHash sample_keccak shown_purchase))].
Definition decision_request : HttpRequest :=
  MkHttp "POST" ["api"; "v1"; "approvals"; sample_id; "decision"] (bearer (sv_token sample_server)) "" (Some sample_body).
Definition approve_out : World Daemon * Reply := Handler ap_text (λ s, s) sample_server decision_request (20 * Second) inbox.
Lemma approve_answer : match approve_out.2 with Answer resp => rs_status resp = StatusOK | OpenStream => False end.
Proof. vm_compute. reflexivity. Qed.
Lemma inbox_reached : rtc (astep (H := hooks) sample_keccak) fresh_daemon inbox.
Proof.
  apply rtc_once. apply (a_Submit (H := hooks) sample_keccak (10 * Second) shown_purchase fresh_daemon).
  split; [by vm_compute|]. intros r Hr. exfalso. change (None = Some r) in Hr. discriminate Hr.
Qed.
Lemma decision_binds_what_was_shown_witness :
  ∃ d, requests approve_out.1 !! sample_id = Some d ∧ r_State d = StateApproved ∧
       (r_Intent d = shown_purchase ∨ ∃ x y, x ≠ y ∧ sample_keccak x = sample_keccak y).
Proof.
  destruct (decision_binds_what_was_shown (H0 := laws) sample_keccak sample_keccak_ascii ap_text (λ s, s) sample_server
    fresh_daemon inbox decision_request (20 * Second) sample_id
    (MkDecision "approve" "owner" "" (InternalHash sample_keccak shown_purchase)) shown_purchase) as [_ Hok].
  - repeat split.
  - exact inbox_reached.
  - reflexivity.
  - reflexivity.
  - reflexivity.
  - reflexivity.
  - vm_compute. reflexivity.
  - fold approve_out in Hok. pose proof approve_answer as Ha. destruct approve_out.2 as [resp|]; [|destruct Ha].
    destruct (Hok resp eq_refl Ha) as (req & d & _ & Hs & Hd & Hi & Ht). exists d. split; [exact Hd|].
    split; [|unfold is_shown in Hs; rewrite <-Hi in Hs; exact Hs]. injection Ht as <-. reflexivity.
Defined.

(** The wrong key at each door. *)
Definition owner_token_at_customer_door : HttpRequest :=
  MkHttp "POST" ["api"; "v1"; "customer"; "jobs"; "job_1"; "accept"] (bearer (sv_token sample_server)) "" None.
Definition credential_at_owner_door : HttpRequest :=
  MkHttp "POST" ["api"; "v1"; "jobs"; "job_1"; "accept-link"] (bearer "job_1-credential") "" None.

(** ** The stream *)
Definition row (n : Z) (kind : string) : EventRow := MkEventRow n 1700000000000 kind "job_1" "brain" (JObj []).
Definition stream_log : list EventRow := [row 1 "job.created"; row 2 KindWorkerHeartbeat; row 3 "approval.requested"; row 4 "job.done"].
Definition stream_world : World Daemon :=
  MkWorld (MkStore (MkDB stream_log [] []) []) ∅ None (ext fresh_daemon) [] [].
Abbreviation no_chain := (λ _ : Daemon, Indexer.emptyChain).
Abbreviation vaults := (λ _ : Daemon, (<["job_1" := Some "0xvault"]> ∅ : gmap string (option string))).
Abbreviation seen := (λ (_ : Daemon) (_ : string) (_ : Z), 0).
Abbreviation client := (cstep no_chain vaults seen sample_server).
Definition new_client : Session := MkSession stream_world None [] [].
(** Connected; one frame written before the connection broke; connected
    again. *)
Definition opened_at (header : string) : World Daemon * Conn * Frame := open_stream no_chain sample_server header stream_world.
Definition first_tick := tick no_chain vaults seen 1 (opened_at "").1.2 (opened_at "").1.1.
Definition got_one : list Frame := [(opened_at "").2] ++ first_tick.1.2.
Definition reopened := open_stream no_chain sample_server (resume_header got_one) first_tick.1.1.1.
Definition back_again : Session := MkSession reopened.1.1 (Some reopened.1.2) [reopened.2] got_one.
Lemma pair4 {A B C D} (p : A * B * C * D) : p = (p.1.1.1, p.1.1.2, p.1.2, p.2).
Proof. by destruct p as [[[a b] c] d]. Qed.
Lemma pair3'' {A B C} (p : A * B * C) : p = (p.1.1, p.1.2, p.2).
Proof. by destruct p as [[a b] c]. Qed.
Lemma client_runs : rtc client new_client back_again.
Proof.
  apply (rtc_l _ _ (MkSession (opened_at "").1.1 (Some (opened_at "").1.2) [(opened_at "").2] [])).
  { apply c_connect. apply pair3''. }
  apply (rtc_l _ _ (MkSession first_tick.1.1.1 (if first_tick.2 then Some first_tick.1.1.2 else None)
                      ([(opened_at "").2] ++ first_tick.1.2) [])).
  { apply (c_tick _ _ _ _ _ _ _ _ 1). apply pair4. }
  etransitivity; [apply receive_all|]. apply rtc_once. apply c_connect. apply pair3''.
Qed.
Lemma stream_log_ok : log_ok (db (st stream_world)).
Proof.
  split; [|vm_compute; discriminate]. intros i x Hi. do 4 (destruct i as [|i]; [injection Hi as <-; reflexivity|]). discriminate Hi.
Qed.
Lemma stream_exactly_once_witness :
  omap fr_id (ss_got back_again) = [1] ∧
  ∃ sent rest, owner_facing stream_log = sent ++ rest ∧ Forall2 delivers (filter is_daemon (ss_got back_again)) sent.
Proof.
  split; [vm_compute; reflexivity|].
  exact (stream_exactly_once no_chain vaults seen sample_server stream_world back_again stream_log_ok client_runs).
Defined.
Lemma stream_catches_up_witness :
  Forall2 delivers (filter is_daemon (ss_got back_again ++ ss_pipe back_again ++
                      turns no_chain vaults seen 1 reopened.1.2 (ss_world back_again)))
    (owner_facing stream_log).
Proof.
  apply (stream_catches_up no_chain vaults seen sample_server stream_world back_again reopened.1.2 1).
  - exact stream_log_ok.
  - exact client_runs.
  - reflexivity.
  - vm_compute. reflexivity.
  - apply Nat.leb_le. vm_compute. reflexivity.
Defined.

(** ** The incident monitor *)
Definition incident_log : list EventRow := [row 1 "job.created"; row 2 "payment.failed"; row 3 KindWorkerHeartbeat].
Definition incident_world : World Daemon :=
  MkWorld (MkStore (MkDB incident_log [] []) []) ∅ None (ext fresh_daemon) [] [].
Definition monitored : World Daemon * Conn * Frame := open_stream no_chain sample_server "" incident_world.
Definition monitored_frames : list Frame := monitored.2 :: turns no_chain vaults seen 1 monitored.1.2 monitored.1.1.
(** The text of a frame of this run: its kinds. *)
Definition kinds_text (v : jval) : string :=
  match frame_of_json v with Some f => sf_Kind f +:+ "/" +:+ sf_EventKind f | None => "none" end.
Definition kinds_parse (text : string) : option jval :=
  head (filter (λ v, kinds_text v = text) (fr_data <$> monitored_frames)).
Definition sendable (f : Frame) : bool :=
  let m := kinds_text (fr_data f) in
  negb (bool_decide (m = "")) && bool_decide (TrimSpace m = m) && sall (λ c, negb (bool_decide (c = Git.newline))) m &&
  sall (λ c, negb (bool_decide (c = return_char))) m && (Z.of_nat (String.length m) + 6 <? maxIncidentFrameBytes) &&
  match fr_id f with Some z => (0 <=? z) && (z <=? max_int64) | None => true end.
Lemma sendable_transmits f : sendable f = true → kinds_parse (kinds_text (fr_data f)) = Some (fr_data f) → transmits kinds_text kinds_parse f.
Proof.
  unfold sendable, transmits. rewrite !andb_true_iff, negb_true_iff, bool_decide_eq_false, bool_decide_eq_true, Z.ltb_lt.
  intros (((((? & ?) & ?) & ?) & ?) & Hid) Hp. split_and!; try done. intros z Hz. rewrite Hz in Hid. apply andb_true_iff in Hid.
  rewrite !Z.leb_le in Hid. exact Hid.
Qed.
Lemma monitored_sent : kinds_parse <$> (kinds_text ∘ fr_data <$> monitored_frames) = Some ∘ fr_data <$> monitored_frames ∧
  forallb sendable monitored_frames = true.
Proof. split; vm_compute; reflexivity. Qed.
Lemma all_sent fs : kinds_parse <$> (kinds_text ∘ fr_data <$> fs) = Some ∘ fr_data <$> fs → forallb sendable fs = true →
  Forall (transmits kinds_text kinds_parse) fs.
Proof.
  induction fs as [|f fs IH]; [constructor|]. rewrite !fmap_cons. cbn [forallb]. intros [= Hf Hr] [Hs Hsr]%andb_true_iff.
  constructor; [by apply sendable_transmits|by apply IH].
Qed.
Lemma monitored_transmits : Forall (transmits kinds_text kinds_parse) monitored_frames.
Proof. apply all_sent; apply monitored_sent. Qed.
Lemma incident_log_ok : log_ok (db (st incident_world)).
Proof.
  split; [|vm_compute; discriminate]. intros i x Hi. do 3 (destruct i as [|i]; [injection Hi as <-; reflexivity|]). discriminate Hi.
Qed.
