(* ===== verification/Supervisor.v ===== *)
(** The supervisor of the daemon's workers ([internal/supervisor]) and the
    heartbeat worker ([internal/agents/worker.go]).

    Every registered worker has its goroutine; [pc] is where it is.  A worker's
    [Run] may return at any time, with or without an error, and the context may
    be cancelled at any time: [sstep] has a rule for each.  What a goroutine does
    between two waits is one step: it reads whether the context is cancelled,
    which never becomes false again, and writes its own status and, at the
    end, the count of essential workers left, each under the supervisor's lock. *)
From Stdlib Require Import Ascii String.
From S2P Require Import Prelude GoStr GoTime Store.
#[local] Open Scope Z_scope.
#[local] Open Scope snap_scope.
#[local] Set Default Proof Using "Type".

(** ** State *)
Inductive State := StateIdle | StateRunning | StateFailed | StateStopped | StateFrozen | StateComplete.
#[export] Instance state_eq_dec : EqDecision State.
Proof. solve_decision. Defined.
Record Status := MkStatus { su_State : State; su_Restarts : Z; su_LastErr : string; su_Since : time }.
Record Supervisor := MkSupervisor {
  workers : list string;
  essential : gmap string bool;
  remaining : Z;
  status : gmap string Status;
  maxRestarts : Z;
  baseBackoff : duration;
  cancelled : bool }.
(** [cancelled]: the run context is done. *)
Definition New (maxRestarts_ : Z) (base : duration) : Supervisor :=
  MkSupervisor [] ∅ 0 ∅ maxRestarts_ (if base <=? 0 then 200 * Millisecond else base) false.

Definition register (now : time) (name : string) (ess : bool) (s : Supervisor) : option Supervisor :=
  match status s !! name with
  | Some _ => None
  | None =>
    Some (MkSupervisor (workers s ++ [name]) (if ess then <[name := true]> (essential s) else essential s)
            (if ess then remaining s + 1 else remaining s)
            (<[name := MkStatus StateIdle 0 "" now]> (status s)) (maxRestarts s) (baseBackoff s) (cancelled s))
  end.
Definition with_status (m : gmap string Status) (s : Supervisor) : Supervisor :=
  MkSupervisor (workers s) (essential s) (remaining s) m (maxRestarts s) (baseBackoff s) (cancelled s).
Definition setState (now : time) (name : string) (st : State) (err : option string) (s : Supervisor) : Supervisor :=
  with_status (alter (λ c, MkStatus st (su_Restarts c) (default (su_LastErr c) err) now) name (status s)) s.
Definition bumpRestarts (name : string) (s : Supervisor) : Supervisor :=
  with_status (alter (λ c, MkStatus (su_State c) (su_Restarts c + 1) (su_LastErr c) (su_Since c)) name (status s)) s.
Definition cancel (s : Supervisor) : Supervisor :=
  MkSupervisor (workers s) (essential s) (remaining s) (status s) (maxRestarts s) (baseBackoff s) true.
Definition retire (name : string) (s : Supervisor) : Supervisor :=
  if default false (essential s !! name) then
    let s' := MkSupervisor (workers s) (<[name := false]> (essential s)) (remaining s - 1) (status s)
                (maxRestarts s) (baseBackoff s) (cancelled s) in
    if remaining s' <=? 0 then cancel s' else s'
  else s.
Definition Health (s : Supervisor) : list (string * Status) := map_to_list (status s).

(** [s.baseBackoff << min(attempt, 6)], at most ten seconds. *)
Definition backoff (base : duration) (attempt : nat) : duration :=
  let b := wrap64 (base * 2 ^ Z.of_nat (attempt `min` 6)) in
  if 10 * Second <? b then 10 * Second else b.

(** ** The goroutines *)
Inductive pc := Starting (attempt : nat) | Running (attempt : nat) | Waiting (attempt : nat) | Exited.
Definition exit_as (now : time) (name : string) (st : State) (s : Supervisor) : Supervisor :=
  retire name (setState now name st None s).
(** [Run] has returned: a clean stop, the end of the work, or a crash. *)
Definition returned (now : time) (name : string) (attempt : nat) (err : option string) (s : Supervisor) : Supervisor * pc :=
  if cancelled s then (exit_as now name StateStopped s, Exited)
  else match err with
       | None => (exit_as now name StateComplete s, Exited)
       | Some e =>
         let s := bumpRestarts name (setState now name StateFailed (Some e) s) in
         if (0 <? maxRestarts s) && (maxRestarts s <=? Z.of_nat attempt + 1) then (retire name s, Exited)
         else (s, Waiting attempt)
       end.

(** [Start]: one goroutine for each worker. *)
Definition Start (s : Supervisor) : Supervisor * gmap string pc :=
  (s, list_to_map ((λ n, (n, Starting 0)) <$> workers s)).
Inductive sstep : Supervisor * gmap string pc → Supervisor * gmap string pc → Prop :=
| s_run s g name n now : g !! name = Some (Starting n) →
    sstep (s, g) (setState now name StateRunning None s, <[name := Running n]> g)
| s_return s g name n now err : g !! name = Some (Running n) →
    let r := returned now name n err s in sstep (s, g) (r.1, <[name := r.2]> g)
| s_backoff_over s g name n : g !! name = Some (Waiting n) → sstep (s, g) (s, <[name := Starting (S n)]> g)
| s_backoff_cancelled s g name n now : g !! name = Some (Waiting n) → cancelled s = true →
    sstep (s, g) (exit_as now name StateStopped s, <[name := Exited]> g)
| s_cancel s g : cancelled s = false → sstep (s, g) (cancel s, g).

(** ** The heartbeat worker *)
Definition Name (role : string) : string := "agent/" +:+ role.
Definition heartbeat_event (kind role : string) (beat : option Z) : Event :=
  MkEvent zeroTime kind role (Name role)
    (JObj ([("role", JStr role)] ++ match beat with Some n => [("beat", JInt n)] | None => [] end)).
(** The loop from [beat] on, for so many ticks before the context is done. *)
Fixpoint beats (wall : time) (role : string) (bound : Z) (beat : Z) (ticks : nat) : M Store StoreErr unit :=
  match ticks with
  | O => retM tt
  | S ticks =>
    Append wall (heartbeat_event "agent.heartbeat" role (Some beat)) ;;;
    if (0 <? bound) && (bound <=? beat) then retM tt else beats wall role bound (beat + 1) ticks
  end.
Definition Run (wall : time) (role : string) (bound : Z) (ticks : nat) : M Store StoreErr unit :=
  Append wall (heartbeat_event "agent.started" role None) ;;; beats wall role bound 1 ticks.

(** ** Bounds of the backoff *)
Lemma backoff_bounds base attempt : 0 < base ≤ 10 * Second → base ≤ backoff base attempt ≤ 10 * Second.
Proof.
  intros H. unfold backoff. set (k := Z.of_nat (attempt `min` 6)). assert (Hk : 0 ≤ k ≤ 6) by lia.
  assert (Hp : 1 ≤ 2 ^ k ≤ 64).
  { split; [apply (Z.pow_le_mono_r 2 0 k); lia|]. change 64 with (2 ^ 6). apply Z.pow_le_mono_r; lia. }
  rewrite wrap64_id.
  - destruct (10 * Second <? base * 2 ^ k) eqn:E; bool_to_prop; nia.
  - unfold int64_range, min_int64, max_int64, Second in *. nia.
Qed.
(** A base that does not fit is not waited for at all. *)
Lemma backoff_overflow : backoff (2 ^ 60) 3 = min_int64.
Proof. vm_compute. reflexivity. Qed.

(** ** Registered, then started *)
Inductive built : Supervisor → Prop :=
| built_new m b : built (New m b)
| built_register s s' now name ess : built s → register now name ess s = Some s' → built s'.
Definition flag (b : bool) : Z := if b then 1 else 0.
Record built_ok (s : Supervisor) : Prop := MkBuiltOk {
  bo_nodup : NoDup (workers s);
  bo_status : ∀ n, (∃ c, status s !! n = Some c ∧ su_Restarts c = 0) ↔ n ∈ workers s;
  bo_essential : ∀ n b, essential s !! n = Some b → b = true ∧ n ∈ workers s;
  bo_remaining : remaining s = msum flag (essential s);
  bo_live : cancelled s = false }.
Lemma built_is_ok s : built s → built_ok s.
Proof.
  induction 1 as [m b|s s' now name ess _ IH Hr].
  { split; cbn; [constructor| | | |done].
    - intros n. rewrite lookup_empty. split; [by intros (? & ? & _)|by intros ?%elem_of_nil].
    - intros n b'. by rewrite lookup_empty.
    - by rewrite msum_empty. }
  unfold register in Hr. destruct (status s !! name) eqn:Es; [done|]. injection Hr as <-. destruct IH as [H1 H2 H3 H4 H5].
  assert (Hnew : name ∉ workers s) by (intros (c & Hc & _)%H2; congruence). split; cbn.
  - apply NoDup_app. split; [done|]. split; [|apply NoDup_singleton]. intros n Hn ->%list_elem_of_singleton. done.
  - intros n. rewrite elem_of_app, list_elem_of_singleton. destruct (decide (n = name)) as [->|Hne].
    + rewrite lookup_insert_eq. split; [by right|]. intros _. by eexists.
    + rewrite lookup_insert_ne by done. rewrite H2. tauto.
  - intros n b Hn. rewrite elem_of_app, list_elem_of_singleton. destruct ess; [|apply H3 in Hn; tauto].
    destruct (decide (n = name)) as [->|Hne]; [rewrite lookup_insert_eq in Hn; injection Hn as <-; tauto|].
    rewrite lookup_insert_ne in Hn by done. apply H3 in Hn. tauto.
  - destruct ess; [|done]. rewrite msum_insert_new; [cbn; lia|].
    destruct (essential s !! name) as [b|] eqn:Eb; [|done]. by apply H3 in Eb as [_ ?].
  - done.
Qed.

(** ** What holds while the goroutines run *)
(** How often a worker has crashed, where it is; and with a budget, that it is
    within it. *)
Definition crashes_ok (m : Z) (p : pc) (crashes : Z) : Prop :=
  match p with
  | Starting k | Running k => crashes = Z.of_nat k ∧ (0 < m → crashes < m)
  | Waiting k => crashes = Z.of_nat k + 1 ∧ (0 < m → crashes < m)
  | Exited => 0 ≤ crashes ∧ (0 < m → crashes ≤ m)
  end.
Record supervised (s0 : Supervisor) (c : Supervisor * gmap string pc) : Prop := MkSupervised {
  sp_max : maxRestarts c.1 = maxRestarts s0;
  sp_dom : ∀ n, is_Some (c.2 !! n) ↔ n ∈ workers s0;
  sp_status : ∀ n p, c.2 !! n = Some p → ∃ st, status c.1 !! n = Some st ∧ crashes_ok (maxRestarts s0) p (su_Restarts st);
  sp_essential : ∀ n, essential c.1 !! n = Some true ↔ essential s0 !! n = Some true ∧ c.2 !! n ≠ Some Exited;
  sp_remaining : remaining c.1 = msum flag (essential c.1);
  sp_done : (∃ n, essential s0 !! n = Some true) → remaining c.1 ≤ 0 → cancelled c.1 = true }.

Lemma status_setState now n st err s k : status (setState now n st err s) !! k =
  if decide (n = k) then (λ c, MkStatus st (su_Restarts c) (default (su_LastErr c) err) now) <$> status s !! k else status s !! k.
Proof. cbn. destruct (decide (n = k)) as [->|Hne]; [by rewrite lookup_alter_eq|by rewrite lookup_alter_ne]. Qed.
Lemma status_bump n s k : status (bumpRestarts n s) !! k =
  if decide (n = k) then (λ c, MkStatus (su_State c) (su_Restarts c + 1) (su_LastErr c) (su_Since c)) <$> status s !! k else status s !! k.
Proof. cbn. destruct (decide (n = k)) as [->|Hne]; [by rewrite lookup_alter_eq|by rewrite lookup_alter_ne]. Qed.
Lemma status_retire n s : status (retire n s) = status s ∧ maxRestarts (retire n s) = maxRestarts s.
Proof. unfold retire. destruct (default _ _); [|done]. by destruct (_ <=? 0). Qed.
(** What [retire] makes of the count. *)
Lemma retire_spec n s : remaining s = msum flag (essential s) →
  remaining (retire n s) = msum flag (essential (retire n s)) ∧
  (∀ k, essential (retire n s) !! k = Some true ↔ essential s !! k = Some true ∧ k ≠ n) ∧
  (cancelled s = true → cancelled (retire n s) = true) ∧
  (retire n s = s ∨ (remaining (retire n s) ≤ 0 → cancelled (retire n s) = true)).
Proof.
  intros Hr. unfold retire. destruct (essential s !! n) as [[]|] eqn:En; cbn [default].
  2,3: split; [done|]; split; [|split; [done|by left]]; intros k; split; [|by intros [? _]]; cbn; intros Hk; (split; [done|]); intros ->; congruence.
  assert (Hm : remaining s - 1 = msum flag (<[n:=false]> (essential s))) by (rewrite (msum_insert_old flag _ n true) by done; cbn; lia).
  assert (Hk : ∀ k, <[n:=false]> (essential s) !! k = Some true ↔ essential s !! k = Some true ∧ k ≠ n).
  { intros k. destruct (decide (n = k)) as [->|Hne]; [rewrite lookup_insert_eq; split; [done|by intros [_ ?]]|].
    rewrite lookup_insert_ne by done. split; [|tauto]. intros ?. by split. }
  cbn [remaining]. destruct (remaining s - 1 <=? 0) eqn:E; cbn; split; try done; (split; [done|]); (split; [done|]); right; [done|].
  apply Z.leb_gt in E. lia.
Qed.

(** A step of one goroutine that stays in the loop. *)
Lemma supervised_stay s0 s g n p p' (s' : Supervisor) : supervised s0 (s, g) → g !! n = Some p → p ≠ Exited → p' ≠ Exited →
  maxRestarts s' = maxRestarts s → essential s' = essential s → remaining s' = remaining s → cancelled s' = cancelled s →
  (∀ k, k ≠ n → status s' !! k = status s !! k) →
  (∀ st, status s !! n = Some st → crashes_ok (maxRestarts s0) p (su_Restarts st) →
     ∃ st', status s' !! n = Some st' ∧ crashes_ok (maxRestarts s0) p' (su_Restarts st')) →
  supervised s0 (s', <[n := p']> g).
Proof.
  intros [H1 H2 H3 H4 H5 H6] Hg Hp Hp' Em Ee Er Ec Hk Hn. split; cbn in *; try congruence.
  - intros k. destruct (decide (n = k)) as [->|Hne]; [|by rewrite lookup_insert_ne].
    rewrite lookup_insert_eq, <-H2, Hg. split; by eexists.
  - intros k q Hq. destruct (decide (n = k)) as [->|Hne].
    + rewrite lookup_insert_eq in Hq. injection Hq as <-. destruct (H3 k p Hg) as (st & Hst & Hc). by apply (Hn st).
    + rewrite lookup_insert_ne in Hq by done. rewrite Hk by done. by apply H3.
  - intros k. rewrite Ee, H4. destruct (decide (n = k)) as [->|Hne]; [|by rewrite lookup_insert_ne].
    rewrite lookup_insert_eq, Hg. split; intros [? ?]; (split; [done|congruence]).
  - intros Hx Hle. rewrite Ec. apply H6; [done|lia].
Qed.
(** A step with which one goroutine ends. *)
Lemma supervised_exit s0 s g n p s' : supervised s0 (s, g) → g !! n = Some p → p ≠ Exited →
  maxRestarts s' = maxRestarts s → essential s' = essential s → remaining s' = remaining s → cancelled s' = cancelled s →
  (∀ k, k ≠ n → status s' !! k = status s !! k) →
  (∀ st, status s !! n = Some st → crashes_ok (maxRestarts s0) p (su_Restarts st) →
     ∃ st', status s' !! n = Some st' ∧ crashes_ok (maxRestarts s0) Exited (su_Restarts st')) →
  supervised s0 (retire n s', <[n := Exited]> g).
Proof.
  intros [H1 H2 H3 H4 H5 H6] Hg Hp Em Ee Er Ec Hk Hn. cbn in *.
  destruct (retire_spec n s') as (R1 & R2 & R3 & R4); [congruence|]. destruct (status_retire n s') as [R5 R6].
  split; cbn; try congruence.
  - intros k. destruct (decide (n = k)) as [->|Hne]; [|by rewrite lookup_insert_ne].
    rewrite lookup_insert_eq, <-H2, Hg. split; by eexists.
  - intros k q Hq. rewrite R5. destruct (decide (n = k)) as [->|Hne].
    + rewrite lookup_insert_eq in Hq. injection Hq as <-. destruct (H3 k p Hg) as (st & Hst & Hc). by apply (Hn st).
    + rewrite lookup_insert_ne in Hq by done. rewrite Hk by done. by apply H3.
  - intros k. rewrite R2, Ee, H4. destruct (decide (n = k)) as [->|Hne].
    + rewrite lookup_insert_eq. split; [by intros [_ ?]|by intros [_ ?]].
    + rewrite lookup_insert_ne by done. split; [tauto|]. intros [? ?]. by repeat split.
  - intros Hx Hle. destruct R4 as [E|R4]; [|by apply R4]. apply R3. rewrite Ec. apply H6; [done|]. rewrite E in Hle. lia.
Qed.
Lemma supervised_step s0 c c' : sstep c c' → supervised s0 c → supervised s0 c'.
Proof.
  intros Hst Hs. destruct Hst as [s g n k now Hg|s g n k now err Hg|s g n k Hg|s g n k now Hg Hc|s g Hc].
  - eapply supervised_stay; [exact Hs|exact Hg|done..| |].
    + intros j Hj. by rewrite status_setState, decide_False.
    + intros st Hst Hok. rewrite status_setState, decide_True, Hst by done. by eexists.
  - subst r. unfold returned. destruct (cancelled s) eqn:Ec; cbn [fst snd].
    { eapply supervised_exit; [exact Hs|exact Hg|done..| |].
      - intros j Hj. by rewrite status_setState, decide_False.
      - intros st Hst [Hr Hb]. rewrite status_setState, decide_True, Hst by done. eexists. split; [done|]. cbn. lia. }
    destruct err as [e|]; cbn [fst snd].
    2: { eapply supervised_exit; [exact Hs|exact Hg|done..| |].
      - intros j Hj. by rewrite status_setState, decide_False.
      - intros st Hst [Hr Hb]. rewrite status_setState, decide_True, Hst by done. eexists. split; [done|]. cbn. lia. }
    assert (Hk : ∀ j, j ≠ n → status (bumpRestarts n (setState now n StateFailed (Some e) s)) !! j = status s !! j).
    { intros j Hj. by rewrite status_bump, decide_False, status_setState, decide_False. }
    assert (Hn : ∀ st, status s !! n = Some st → ∃ st', status (bumpRestarts n (setState now n StateFailed (Some e) s)) !! n = Some st' ∧
      su_Restarts st' = su_Restarts st + 1).
    { intros st Hst. rewrite status_bump, decide_True, status_setState, decide_True, Hst by done. by eexists. }
    cbn [maxRestarts bumpRestarts setState with_status]. pose proof (sp_max _ _ Hs) as Hmax. cbn in Hmax. rewrite Hmax.
    destruct ((0 <? maxRestarts s0) && (maxRestarts s0 <=? Z.of_nat k + 1)) eqn:Eb; cbn [fst snd].
    + eapply supervised_exit; [exact Hs|exact Hg|done..|exact Hk|]. intros st Hst [Hr Hb].
      destruct (Hn st Hst) as (st' & Hst' & Hr'). exists st'. split; [done|]. cbn. lia.
    + eapply supervised_stay; [exact Hs|exact Hg|done..|exact Hk|]. intros st Hst [Hr Hb].
      destruct (Hn st Hst) as (st' & Hst' & Hr'). exists st'. split; [done|]. cbn. split; [lia|]. intros Hm.
      apply andb_false_iff in Eb as [Eb|Eb]; bool_to_prop; lia.
  - eapply supervised_stay; [exact Hs|exact Hg|done..|]. intros st Hst [Hr Hb]. exists st. split; [done|]. cbn. split; [lia|done].
  - eapply supervised_exit; [exact Hs|exact Hg|done..| |].
    + intros j Hj. by rewrite status_setState, decide_False.
    + intros st Hst [Hr Hb]. rewrite status_setState, decide_True, Hst by done. eexists. split; [done|]. cbn. lia.
  - destruct Hs as [H1 H2 H3 H4 H5 H6]. split; try done.
Qed.
Lemma supervised_start s : built s → supervised s (Start s).
Proof.
  intros [H1 H2 H3 H4 H5]%built_is_ok. unfold Start.
  assert (Hg : ∀ n p, (list_to_map ((λ n, (n, Starting 0)) <$> workers s) : gmap string pc) !! n = Some p ↔ n ∈ workers s ∧ p = Starting 0).
  { intros n p. rewrite <-elem_of_list_to_map.
    - rewrite list_elem_of_fmap. split; [by intros (? & [= -> ->] & ?)|]. intros [? ->]. by exists n.
    - rewrite <-list_fmap_compose. by rewrite list_fmap_id. }
  split; cbn; [done| | | |done|].
  - intros n. split; [by intros [p [? _]%Hg]|]. intros Hn. exists (Starting 0). by apply Hg.
  - intros n p [Hn ->]%Hg. apply H2 in Hn as (c & Hc & Hr). exists c. split; [done|]. cbn. lia.
  - intros n. split; [|by intros [? _]]. intros Hn. split; [done|]. by intros [_ ?]%Hg.
  - intros [n Hn] Hle. exfalso. rewrite H4 in Hle. rewrite <-(insert_delete_id _ _ _ Hn) in Hle.
    rewrite msum_insert_new in Hle by apply lookup_delete_eq.
    assert (0 ≤ msum flag (delete n (essential s))); [|cbn in Hle; lia]. apply msum_nonneg. intros k [] _; cbn; lia.
Qed.
Lemma supervised_reachable s c : built s → rtc sstep (Start s) c → supervised s c.
Proof.
  intros Hb Hr. pose proof (supervised_start s Hb) as H0. revert H0. generalize dependent (Start s). clear Hb.
  induction 1 as [c0|c1 c2 c3 Hst _ IH]; [done|]. intros H1. by apply IH, (supervised_step s c1).
Qed.


(** ** Every run ends *)
(** How many steps a goroutine can still take, with a budget of [m] crashes. *)
Definition left_of (m : Z) (p : pc) : Z :=
  match p with
  | Starting k => 3 * (m - Z.of_nat k) | Running k => 3 * (m - Z.of_nat k) - 1
  | Waiting k => 3 * (m - Z.of_nat k) - 2 | Exited => 0
  end.
Definition measure (m : Z) (c : Supervisor * gmap string pc) : Z :=
  msum (left_of m) c.2 + if cancelled c.1 then 0 else 1.
Lemma cancelled_kept s n now st err : cancelled (setState now n st err s) = cancelled s ∧ (cancelled s = true → cancelled (retire n s) = true).
Proof. split; [done|]. intros H. unfold retire. destruct (default _ _); [|done]. by destruct (_ <=? 0). Qed.
Lemma cancelled_retire n s : (if cancelled (retire n s) then 0 else 1) ≤ (if cancelled s then 0 else 1).
Proof. unfold retire. destruct (default _ _); [|done]. destruct (_ <=? 0); cbn; by destruct (cancelled s). Qed.
Lemma measure_step s0 c c' : 0 < maxRestarts s0 → supervised s0 c → sstep c c' →
  measure (maxRestarts s0) c' < measure (maxRestarts s0) c.
Proof.
  intros Hm Hs Hst. unfold measure.
  destruct Hst as [s g n k now Hg|s g n k now err Hg|s g n k Hg|s g n k now Hg Hc|s g Hc]; cbn [fst snd];
    try (destruct (sp_status _ _ Hs n _ Hg) as (st & _ & Hcr); cbn in Hcr); try rewrite (msum_insert_old _ _ _ _ _ Hg).
  - cbn. lia.
  - subst r. unfold returned. pose proof (sp_max _ _ Hs) as Hmax. cbn in Hmax.
    destruct (cancelled s) eqn:Ec; cbn [fst snd].
    { pose proof (cancelled_retire n (setState now n StateStopped None s)) as Hr. cbn [cancelled setState with_status] in Hr.
      rewrite Ec in Hr. unfold exit_as. cbn [left_of]. lia. }
    destruct err as [e|]; cbn [fst snd].
    + cbn [maxRestarts bumpRestarts setState with_status]. rewrite Hmax. destruct (_ && _) eqn:Eb; cbn [fst snd left_of].
      * pose proof (cancelled_retire n (bumpRestarts n (setState now n StateFailed (Some e) s))) as Hr.
        cbn [cancelled bumpRestarts setState with_status] in Hr. rewrite Ec in Hr. lia.
      * cbn [cancelled bumpRestarts setState with_status]. rewrite Ec. lia.
    + pose proof (cancelled_retire n (setState now n StateComplete None s)) as Hr. cbn [cancelled setState with_status] in Hr.
      rewrite Ec in Hr. unfold exit_as. cbn [left_of]. lia.
  - cbn [left_of]. lia.
  - pose proof (cancelled_retire n (setState now n StateStopped None s)) as Hr. cbn [cancelled setState with_status] in Hr.
    unfold exit_as. cbn [left_of]. lia.
  - cbn. rewrite Hc. lia.
Qed.
Lemma measure_nonneg s0 c : supervised s0 c → 0 < maxRestarts s0 → 0 ≤ measure (maxRestarts s0) c.
Proof.
  intros Hs Hm. unfold measure. assert (0 ≤ msum (left_of (maxRestarts s0)) c.2); [|destruct (cancelled c.1); lia].
  apply msum_nonneg. intros n p Hp. destruct (sp_status _ _ Hs n p Hp) as (st & _ & Hc). destruct p; cbn in *; lia.
Qed.
(** C38: with a restart budget the supervisor comes to its end.  However the
    workers crash, return or are cancelled, at most three steps for each worker
    and attempt are taken, and one cancellation; and a state in which nothing
    can happen any more is one in which every worker's goroutine has ended. *)
Theorem supervision_ends s k c : built s → 0 < maxRestarts s → nsteps sstep k (Start s) c →
  Z.of_nat k ≤ 3 * maxRestarts s * Z.of_nat (length (workers s)) + 1 ∧
  ((∀ c', ¬ sstep c c') → ∀ n, n ∈ workers s → c.2 !! n = Some Exited).
Proof.
  intros Hb Hm Hn. assert (Hs : supervised s c) by (eapply supervised_reachable; [done|]; apply rtc_nsteps; by exists k).
  split.
  - assert (Hle : ∀ j c1 c2, supervised s c1 → nsteps sstep j c1 c2 →
      Z.of_nat j ≤ measure (maxRestarts s) c1 - measure (maxRestarts s) c2).
    { induction 2 as [|j c1 c2 c3 Hst _ IH]; [lia|]. pose proof (measure_step s c1 c2 Hm H Hst).
      specialize (IH (supervised_step s c1 c2 Hst H)). lia. }
    specialize (Hle k _ _ (supervised_start s Hb) Hn). pose proof (measure_nonneg s c Hs Hm).
    enough (measure (maxRestarts s) (Start s) ≤ 3 * maxRestarts s * Z.of_nat (length (workers s)) + 1) by lia.
    unfold measure, Start. cbn [fst snd].
    enough (msum (left_of (maxRestarts s)) (list_to_map ((λ n, (n, Starting 0)) <$> workers s) : gmap string pc) =
      3 * maxRestarts s * Z.of_nat (length (workers s))) by (destruct (cancelled s); lia).
    pose proof (bo_nodup s (built_is_ok s Hb)) as Hnd. induction Hnd as [|n l Hn' _ IH]; [cbn; rewrite msum_empty; lia|].
    cbn. rewrite msum_insert_new, IH; [cbn; lia|]. apply not_elem_of_list_to_map_1. by rewrite <-list_fmap_compose, list_fmap_id.
  - intros Hstop n Hin. apply (sp_dom _ _ Hs) in Hin as [p Hp]. destruct c as [s1 g]. cbn in *. rewrite Hp. f_equal.
    destruct p as [j|j|j|]; [| | |done]; exfalso.
    + apply (Hstop _ (s_run s1 g n j 0 Hp)).
    + apply (Hstop _ (s_return s1 g n j 0 None Hp)).
    + apply (Hstop _ (s_backoff_over s1 g n j Hp)).
Qed.

(** ** A supervisor with one essential worker, run *)
Definition registered : Supervisor := default (New 2 0) (register 0 "agent/manager" true (New 2 0)).
Lemma registered_built : built registered.
Proof. eapply built_register; [apply built_new|]. reflexivity. Qed.
Definition crashed_once : Supervisor := (returned 2 "agent/manager" 0 (Some "boom") (setState 1 "agent/manager" StateRunning None registered)).1.
Definition finished : Supervisor := (returned 4 "agent/manager" 1 None (setState 3 "agent/manager" StateRunning None crashed_once)).1.
Definition at_pc (p : pc) : gmap string pc := <["agent/manager" := p]> ∅.
Lemma move_to p q : <["agent/manager" := p]> (at_pc q) = at_pc p.
Proof. unfold at_pc. by rewrite insert_insert_eq. Qed.
Lemma sample_run : nsteps sstep 5 (Start registered) (finished, at_pc Exited).
Proof.
  change (Start registered) with (registered, at_pc (Starting 0)).
  apply (nsteps_l _ _ _ (setState 1 "agent/manager" StateRunning None registered, at_pc (Running 0))).
  { rewrite <-(move_to (Running 0) (Starting 0)). by apply s_run. }
  apply (nsteps_l _ _ _ (crashed_once, at_pc (Waiting 0))).
  { rewrite <-(move_to (Waiting 0) (Running 0)). exact (s_return (setState 1 "agent/manager" StateRunning None registered) (at_pc (Running 0)) "agent/manager" 0 2 (Some "boom") eq_refl). }
  apply (nsteps_l _ _ _ (crashed_once, at_pc (Starting 1))).
  { rewrite <-(move_to (Starting 1) (Waiting 0)). by apply s_backoff_over. }
  apply (nsteps_l _ _ _ (setState 3 "agent/manager" StateRunning None crashed_once, at_pc (Running 1))).
  { rewrite <-(move_to (Running 1) (Starting 1)). by apply s_run. }
  apply (nsteps_l _ _ _ (finished, at_pc Exited)).
  { rewrite <-(move_to Exited (Running 1)). exact (s_return (setState 3 "agent/manager" StateRunning None crashed_once) (at_pc (Running 1)) "agent/manager" 1 4 None eq_refl). }
  apply nsteps_O.
Qed.
Lemma supervision_ends_witness : Z.of_nat 5 ≤ 3 * maxRestarts registered * Z.of_nat (length (workers registered)) + 1.
Proof.
  destruct (supervision_ends registered 5 (finished, at_pc Exited) registered_built) as [H _]; [reflexivity|exact sample_run|exact H].
Defined.
