(* ===== verification/Agents.v ===== *)
(** The manifests of the workforce ([internal/agents/manifest.go]).

    [Load] reads every manifest file; [yaml] decoding is the package's, so a
    file is its path and what it decodes to ([None]: unreadable or refused).  A
    finding's message is prose and left out.  [strings.Fields(cmd)[0]] panics on
    a blank command: [validate] and [Load] are [None] there. *)
From Stdlib Require Import Ascii String.
From S2P Require Import Prelude GoStr GoTime GoJson Amount.
#[local] Open Scope Z_scope.
#[local] Open Scope snap_scope.
#[local] Set Default Proof Using "Type".

(** ** Words *)
Fixpoint take_word (ks : list chunk) : list chunk :=
  match ks with k :: r => if space_chunk k then [] else k :: take_word r | [] => [] end.
(** [strings.Fields(s)[0]]; [None] panics. *)
Definition first_field (s : string) : option string :=
  match take_word (drop_spaces (chunks s)) with [] => None | w => Some (concat_map bytes1 w) end.
(** [filepath.Base]. *)
Definition Base (p : string) : string :=
  if bool_decide (p = "") then "."
  else match last (filter (λ x, x ≠ "") (split_on "/" p)) with Some x => x | None => "/" end.
(** [strings.ToLower], as far as a comparison with a word of ASCII tells: the
    two characters beyond ASCII whose lower case is in it, and the rest kept. *)
Definition lower_chunk (k : chunk) : string :=
  match k with
  | Raw1 c => String (lower1 c) ""
  | Raw2 c c1 => if (byteZ c =? 196) && (byteZ c1 =? 176) then "i" else bytes1 k
  | Raw3 c c1 c2 => if (byteZ c =? 226) && (byteZ c1 =? 132) && (byteZ c2 =? 170) then "k" else bytes1 k
  | _ => bytes1 k
  end.
Definition ToLower (s : string) : string := concat_map lower_chunk (chunks s).

(** ** Manifests *)
Definition RoleManager : string := "manager".
Definition RoleResearch : string := "research".
Definition RoleDelivery : string := "delivery".
Definition RoleFinance : string := "finance".
Definition knownRoles : list string := [RoleManager; RoleResearch; RoleDelivery; RoleFinance].
Record Manifest := MkManifest {
  mf_Role : string; mf_Provider : string; mf_Name : string; mf_MemoryNamespace : string;
  mf_FilesystemScope : list string; mf_CommandAllowlist : list string; mf_NetworkAllowlist : list string;
  mf_BudgetUSDC : string; mf_CanSignPayments : bool; mf_CanRequestAdv : bool; mf_EscalatesTo : string;
  mf_Responsibilities : list string; mf_SourcePath : string; mf_BudgetMicros : Z }.
Definition read_from (path : string) (m : Manifest) : Manifest :=
  MkManifest (mf_Role m) (mf_Provider m) (mf_Name m) (mf_MemoryNamespace m) (mf_FilesystemScope m) (mf_CommandAllowlist m)
    (mf_NetworkAllowlist m) (mf_BudgetUSDC m) (mf_CanSignPayments m) (mf_CanRequestAdv m) (mf_EscalatesTo m)
    (mf_Responsibilities m) path (mf_BudgetMicros m).
Definition with_budget (z : Z) (m : Manifest) : Manifest :=
  MkManifest (mf_Role m) (mf_Provider m) (mf_Name m) (mf_MemoryNamespace m) (mf_FilesystemScope m) (mf_CommandAllowlist m)
    (mf_NetworkAllowlist m) (mf_BudgetUSDC m) (mf_CanSignPayments m) (mf_CanRequestAdv m) (mf_EscalatesTo m)
    (mf_Responsibilities m) (mf_SourcePath m) z.
Record Finding := MkFinding { fd_Role : string; fd_Path : string; fd_Fatal : bool; fd_Code : string }.

Definition shellBinaries : list string :=
  ["sh"; "bash"; "zsh"; "fish"; "dash"; "ksh"; "env"; "eval"; "exec"; "xargs"; "sudo"; "ssh"].
Definition wildcardHosts : list string := ["*"; "0.0.0.0/0"; "::/0"; "any"; "all"].

(** ** Budgets *)
Inductive BudgetErr := BudgetEmpty | BudgetNegative | BudgetPrecision | BudgetNotDecimal | BudgetImplausible.
Fixpoint whole_micros (acc : Z) (s : string) : option Z :=
  match s with
  | "" => Some acc
  | String c r =>
    let acc := add64 (wrap64 (acc * 10)) (digitZ c) in
    if 2 ^ 62 / 1000000 <? acc then None else whole_micros acc r
  end.
Fixpoint frac_micros (acc : Z) (s : string) : Z :=
  match s with "" => acc | String c r => frac_micros (add64 (wrap64 (acc * 10)) (digitZ c)) r end.
Definition parseUSDC (s0 : string) : result BudgetErr Z :=
  let s := TrimSpace s0 in
  if bool_decide (s = "") then Err BudgetEmpty
  else match strip_prefix "-" s with
  | Some _ => Err BudgetNegative
  | None =>
    let '(w, f) := cut_at "." s in
    let whole := if bool_decide (w = "") then "0" else w in
    let frac := default "" f in
    if Nat.ltb 6 (String.length frac) then Err BudgetPrecision
    else
      let frac := frac +:+ zeros (6 - String.length frac) in
      if negb (sall isDigit whole) || negb (sall isDigit frac) then Err BudgetNotDecimal
      else match whole_micros 0 whole with
           | None => Err BudgetImplausible
           | Some z => Ok (add64 (wrap64 (z * 1000000)) (frac_micros 0 frac))
           end
  end.

(** ** Validation *)
Section Validate.
Context (m : Manifest).
Definition add (cond fatal : bool) (code : string) : list Finding :=
  if cond then [MkFinding (mf_Role m) (mf_SourcePath m) fatal code] else [].
Definition known (r : string) : bool := bool_decide (r ∈ knownRoles).
Definition role_findings : list Finding :=
  if bool_decide (mf_Role m = "") then add true true "missing-role"
  else add (negb (known (mf_Role m))) true "unknown-role".
Definition escalation_findings : list Finding :=
  if bool_decide (mf_EscalatesTo m = "") then add true true "missing-escalation"
  else if negb (bool_decide (mf_EscalatesTo m = "human")) && negb (known (mf_EscalatesTo m)) then add true true "unknown-escalation"
  else add (bool_decide (mf_Role m = mf_EscalatesTo m)) true "self-escalation".
Definition is_shell (cmd : string) : option bool :=
  w ← first_field cmd; Some (bool_decide (ToLower (Base w) ∈ shellBinaries)).
Definition shell_findings : option (list Finding) :=
  bs ← mapM is_shell (mf_CommandAllowlist m); Some (concat ((λ b, add b true "shell-in-allowlist") <$> bs)).
Definition is_wildcard (host : string) : bool := bool_decide (ToLower (TrimSpace host) ∈ wildcardHosts).
Definition contradictions (micros : Z) : list Finding :=
  add ((0 <? micros) && bool_decide (mf_NetworkAllowlist m = [])) false "budget-without-egress" ++
  add (negb (bool_decide (mf_CommandAllowlist m = [])) && bool_decide (mf_FilesystemScope m = [])) false "commands-without-workspace" ++
  add (bool_decide (mf_Responsibilities m = [])) false "no-responsibilities".
Definition validate : option (Manifest * list Finding) :=
  shell ← shell_findings;
  let budget := parseUSDC (mf_BudgetUSDC m) in
  let m' := match budget with Ok z => with_budget z m | Err _ => m end in
  Some (m',
    add (mf_CanSignPayments m) true "agent-may-sign" ++ add (mf_CanRequestAdv m) true "agent-may-borrow" ++
    role_findings ++ add (bool_decide (mf_MemoryNamespace m = "")) true "missing-namespace" ++
    add (bool_decide (mf_Provider m = "") || bool_decide (mf_Name m = "")) true "incomplete-model" ++
    escalation_findings ++ add (negb (is_ok budget)) true "bad-budget" ++ shell ++
    concat ((λ h, add (is_wildcard h) true "wildcard-egress") <$> mf_NetworkAllowlist m) ++
    contradictions (mf_BudgetMicros m')).
End Validate.

Fixpoint validateSet (seen : list string) (ms : list Manifest) : list Finding :=
  match ms with
  | [] => []
  | m :: r =>
    if bool_decide (mf_Role m = "") then validateSet seen r
    else if bool_decide (mf_Role m ∈ seen)
    then MkFinding (mf_Role m) (mf_SourcePath m) true "duplicate-role" :: validateSet seen r
    else validateSet (mf_Role m :: seen) r
  end.

(** ** Loading *)
Definition finding_less (a b : Finding) : bool :=
  if bool_decide (fd_Fatal a = fd_Fatal b) then String.ltb (fd_Role a) (fd_Role b) else fd_Fatal a.
Fixpoint validate_all (ms : list Manifest) : option (list Manifest * list Finding) :=
  match ms with
  | [] => Some ([], [])
  | m :: r => '(m', fs) ← validate m; '(ms', gs) ← validate_all r; Some (m' :: ms', fs ++ gs)
  end.
(** The files in the order of their paths.  The flag: no error. *)
Definition Load (files : list (string * option Manifest)) : option (list Manifest * list Finding * bool) :=
  if bool_decide (files = []) then Some ([], [], false)
  else
    '(ms, fs) ← validate_all (omap (λ p, read_from p.1 <$> p.2) files);
    let findings := SliceStable finding_less (fs ++ validateSet [] ms) in
    Some (ms, findings, forallb (λ p, bool_decide (is_Some p.2)) files && negb (existsb fd_Fatal findings)).

(** ** Budgets are exact *)
Definition budget_limit : Z := 2 ^ 62 / 1000000.
Lemma budget_limit_value : budget_limit = 4611686018427. Proof. reflexivity. Qed.
(** One more digit, while the value stays small. *)
Lemma next_digit acc c : isDigit c = true → 0 ≤ acc ≤ budget_limit → add64 (wrap64 (acc * 10)) (digitZ c) = 10 * acc + digitZ c.
Proof.
  intros Hc Ha. pose proof (isDigit_range c Hc) as Hd. rewrite budget_limit_value in Ha.
  rewrite (wrap64_id (acc * 10)) by (unfold int64_range, min_int64, max_int64; lia). unfold add64.
  rewrite wrap64_id by (unfold int64_range, min_int64, max_int64; lia). lia.
Qed.
Lemma digits_value_grows s : ∀ acc z, 0 ≤ acc → digits_value acc s = Some z → acc ≤ z.
Proof.
  induction s as [|c s IH]; intros acc z Ha; cbn; [intros [= <-]; lia|]. destruct (isDigit c) eqn:Ec; [|done].
  pose proof (isDigit_range c Ec). intros Hz. apply IH in Hz; lia.
Qed.
Lemma whole_micros_iff s : ∀ acc z, sall isDigit s = true → 0 ≤ acc ≤ budget_limit →
  whole_micros acc s = Some z ↔ digits_value acc s = Some z ∧ 0 ≤ z ≤ budget_limit.
Proof.
  induction s as [|c s IH]; intros acc z; cbn [sall whole_micros digits_value]; [split; [by intros [= <-]|by intros [[= <-] _]]|].
  rewrite andb_true_iff. intros [Hc Hs] Ha. rewrite Hc, next_digit by done. pose proof (isDigit_range c Hc) as Hd.
  change (2 ^ 62 / 1000000) with budget_limit. destruct (_ <? _) eqn:El.
  - apply Z.ltb_lt in El. split; [done|]. intros [Hz Hl]. apply digits_value_grows in Hz; lia.
  - apply Z.ltb_ge in El. apply IH; [done|lia].
Qed.
Lemma frac_micros_exact s : ∀ acc, sall isDigit s = true → 0 ≤ acc → (acc + 1) * 10 ^ Z.of_nat (String.length s) ≤ 1000000 →
  digits_value acc s = Some (frac_micros acc s) ∧ 0 ≤ frac_micros acc s < 1000000.
Proof.
  induction s as [|c s IH]; intros acc; cbn [sall frac_micros digits_value String.length]; [intros _ ? ?; split; [done|lia]|].
  rewrite andb_true_iff. intros [Hc Hs] Ha Hl. pose proof (isDigit_range c Hc) as Hd. rewrite Hc.
  rewrite Nat2Z.inj_succ, Z.pow_succ_r in Hl by lia.
  assert (Hp : 1 ≤ 10 ^ Z.of_nat (String.length s)) by (apply (Z.pow_le_mono_r 10 0); lia).
  rewrite next_digit by (rewrite ?budget_limit_value; (done || nia)). apply IH; [done|lia|nia].
Qed.
(** Budgets are read exactly.  What [parseUSDC] accepts is a non-negative
    number of atomic units within bounds, without wrapping; and every number of
    atomic units whose whole part is within the limit, written as USDC with six
    places, is read back as itself. *)
Lemma budget_roundtrip :
  (∀ s z, parseUSDC s = Ok z → 0 ≤ z ≤ 2 ^ 62 + 999999) ∧
  (∀ z, 0 ≤ z → z / 1000000 ≤ budget_limit → parseUSDC (usdc_text z) = Ok z).
Proof.
  split.
  - intros s z. unfold parseUSDC. destruct (bool_decide _); [done|]. destruct (strip_prefix "-" _); [done|].
    destruct (cut_at "." (TrimSpace s)) as [w f]. destruct (Nat.ltb 6 (String.length (default "" f))) eqn:El; [done|].
    set (whole := if bool_decide (w = "") then "0" else w). set (frac := default "" f +:+ zeros _).
    destruct (sall isDigit whole) eqn:Ew; [|done]. destruct (sall isDigit frac) eqn:Ef; [|done]. cbn [negb orb].
    destruct (whole_micros 0 whole) as [n|] eqn:En; [|done]. intros [= <-].
    apply whole_micros_iff in En as [_ Hn]; [|done|by rewrite budget_limit_value].
    assert (Hlen : String.length frac = 6%nat).
    { unfold frac. rewrite slength_app, zeros_length. apply Nat.ltb_ge in El. lia. }
    destruct (frac_micros_exact frac 0) as [_ Hf]; [done|lia|by rewrite Hlen|]. rewrite budget_limit_value in Hn.
    rewrite (wrap64_id (n * 1000000)) by (unfold int64_range, min_int64, max_int64; lia). unfold add64.
    rewrite wrap64_id by (unfold int64_range, min_int64, max_int64; lia). lia.
  - intros z Hz Hl. destruct (usdc_text_parts z Hz) as (Ht & Hw & Hf & Hlen & Hpw & Hpf).
    unfold parseUSDC. rewrite Ht. pose proof (cut_at_dot _ (FormatPad 6 (z `mod` 1000000)) Hw) as Hc. unfold usdc_text in *.
    assert (Hne : FormatUint (z / 1000000) ≠ "") by (intros E; by rewrite E in Hpw).
    assert (Hs : strip_prefix "-" (FormatUint (z / 1000000) +:+ "." +:+ FormatPad 6 (z `mod` 1000000)) = None).
    { destruct (FormatUint (z / 1000000)) as [|c r] eqn:E; [done|]. destruct (digits_head_not_sign _ c r Hw eq_refl) as [Hm _].
      rewrite sapp_cons. cbn [strip_prefix]. by rewrite bool_decide_false. }
    rewrite bool_decide_false by (intros E; destruct (FormatUint (z / 1000000)); [done|discriminate E]).
    rewrite Hs, Hc. cbv beta iota zeta delta [default id]. rewrite (bool_decide_false _ Hne), Hlen. cbn [Nat.ltb Nat.leb Nat.sub zeros].
    rewrite sapp_nil_r, Hw, Hf. cbn [negb orb].
    assert (Hdw : digits_value 0 (FormatUint (z / 1000000)) = Some (z / 1000000)) by (by destruct (FormatUint (z / 1000000))).
    assert (Hdf : digits_value 0 (FormatPad 6 (z `mod` 1000000)) = Some (z `mod` 1000000)) by (by destruct (FormatPad 6 (z `mod` 1000000))).
    pose proof (Z.div_pos z 1000000 Hz ltac:(lia)) as Hq.
    assert (Hwm : whole_micros 0 (FormatUint (z / 1000000)) = Some (z / 1000000)).
    { apply whole_micros_iff; [done|by rewrite budget_limit_value|done]. }
    destruct (frac_micros_exact (FormatPad 6 (z `mod` 1000000)) 0) as [Hfm _]; [done|lia|by rewrite Hlen|].
    rewrite Hdf in Hfm. injection Hfm as Hfm. rewrite Hwm, <-Hfm. rewrite budget_limit_value in Hl.
    pose proof (Z.div_mod z 1000000 ltac:(lia)) as Hdm. pose proof (Z.mod_pos_bound z 1000000 ltac:(lia)) as Hmb.
    rewrite (wrap64_id (z / 1000000 * 1000000)) by (unfold int64_range, min_int64, max_int64; lia). unfold add64.
    rewrite wrap64_id by (unfold int64_range, min_int64, max_int64; lia). f_equal. lia.
Qed.

(** ** What activates *)
(** A command that starts a program, and not a shell. *)
Definition plain_command (cmd : string) : Prop := is_shell cmd = Some false.
#[export] Instance plain_command_dec cmd : Decision (plain_command cmd) := decide_rel (=) _ _.
(** A manifest that holds no authority an agent must not have. *)
Definition authorised (m : Manifest) : Prop :=
  mf_CanSignPayments m = false ∧ mf_CanRequestAdv m = false ∧ mf_Role m ∈ knownRoles ∧
  mf_MemoryNamespace m ≠ "" ∧ mf_Provider m ≠ "" ∧ mf_Name m ≠ "" ∧
  (mf_EscalatesTo m = "human" ∨ mf_EscalatesTo m ∈ knownRoles ∧ mf_EscalatesTo m ≠ mf_Role m) ∧
  is_ok (parseUSDC (mf_BudgetUSDC m)) = true ∧
  Forall plain_command (mf_CommandAllowlist m) ∧ Forall (λ h, is_wildcard h = false) (mf_NetworkAllowlist m).
Definition clean (l : list Finding) : Prop := Forall (λ f, fd_Fatal f = false) l.
Lemma clean_app l k : clean (l ++ k) ↔ clean l ∧ clean k. Proof. apply Forall_app. Qed.
Lemma clean_exists l : negb (existsb fd_Fatal l) = true ↔ clean l.
Proof.
  induction l as [|f l IH]; cbn; [split; [constructor|done]|].
  unfold clean. rewrite Forall_cons, negb_orb, andb_true_iff, IH, negb_true_iff. done.
Qed.
Lemma clean_add m c code : clean (add m c true code) ↔ c = false.
Proof. unfold add, clean. destruct c; [rewrite Forall_singleton; done|split; [done|constructor]]. Qed.
Lemma clean_warn m c code : clean (add m c false code).
Proof. unfold add, clean. destruct c; [by apply Forall_singleton|constructor]. Qed.
Lemma clean_concat m {A} (p : A → bool) code l : clean (concat ((λ x, add m (p x) true code) <$> l)) ↔ Forall (λ x, p x = false) l.
Proof.
  induction l as [|x l IH]; [split; constructor|]. rewrite fmap_cons. cbn [concat].
  rewrite clean_app, clean_add, IH, Forall_cons. done.
Qed.
Lemma shell_findings_spec m : match shell_findings m with
  | Some fs => clean fs ↔ Forall plain_command (mf_CommandAllowlist m)
  | None => ¬ Forall plain_command (mf_CommandAllowlist m) end.
Proof.
  unfold shell_findings. destruct (mapM _ _) as [bs|] eqn:E; cbn.
  - rewrite (clean_concat m (λ b, b)). apply mapM_Some in E. unfold plain_command.
    induction E as [|c b l k Hc E IH]; [split; constructor|]. rewrite !Forall_cons, IH, Hc. split; intros [Hb ?]; split; congruence.
  - intros Hp. apply mapM_None_1, Exists_exists in E as (c & Hc & Hn). rewrite Forall_forall in Hp.
    specialize (Hp c Hc). unfold plain_command in Hp. congruence.
Qed.
Lemma known_spec r : known r = true ↔ r ∈ knownRoles. Proof. apply bool_decide_eq_true. Qed.
Lemma no_empty_role : "" ∉ knownRoles. Proof. apply (bool_decide_eq_false_1 _). reflexivity. Qed.
Lemma human_is_no_role : "human" ∉ knownRoles. Proof. apply (bool_decide_eq_false_1 _). reflexivity. Qed.
Lemma role_findings_clean m : clean (role_findings m) ↔ mf_Role m ∈ knownRoles.
Proof.
  unfold role_findings. case_bool_decide as E.
  - rewrite clean_add, E. split; [done|]. intros Hk. by apply no_empty_role in Hk.
  - rewrite clean_add, negb_false_iff. apply known_spec.
Qed.
Lemma escalation_findings_clean m : mf_Role m ∈ knownRoles → clean (escalation_findings m) ↔
  mf_EscalatesTo m = "human" ∨ mf_EscalatesTo m ∈ knownRoles ∧ mf_EscalatesTo m ≠ mf_Role m.
Proof.
  intros Hr. unfold escalation_findings. pose proof no_empty_role. pose proof human_is_no_role.
  case_bool_decide as E; [rewrite clean_add, E; split; [done|]; intros [? | [? _]]; done|].
  case_bool_decide as E1; cbn [negb andb]; [rewrite clean_add, bool_decide_eq_false; split; [by left|]; intros _ Hm; congruence|].
  destruct (known (mf_EscalatesTo m)) eqn:Ek; cbn [negb].
  - apply known_spec in Ek. rewrite clean_add, bool_decide_eq_false. split; [intros Hn; right; split; congruence|].
    intros [? | [_ ?]]; congruence.
  - rewrite clean_add. split; [done|]. intros [? | [Hk _]]; [done|]. apply known_spec in Hk. congruence.
Qed.
Lemma contradictions_clean m z : clean (contradictions m z).
Proof. unfold contradictions. rewrite !clean_app. repeat split; apply clean_warn. Qed.
(** One manifest is clean exactly when it is authorised. *)
Lemma validate_spec m : match validate m with
  | Some (m', fs) => (clean fs ↔ authorised m) ∧ mf_Role m' = mf_Role m
  | None => ¬ authorised m end.
Proof.
  unfold validate. pose proof (shell_findings_spec m) as Hs. destruct (shell_findings m) as [sh|]; cbn [mbind option_bind].
  - split; [|by destruct (parseUSDC _)]. rewrite !clean_app, !clean_add, role_findings_clean, Hs, (clean_concat m is_wildcard).
    unfold authorised. rewrite bool_decide_eq_false, orb_false_iff, !bool_decide_eq_false, negb_false_iff.
    pose proof (contradictions_clean m (mf_BudgetMicros match parseUSDC (mf_BudgetUSDC m) with Ok z => with_budget z m | Err _ => m end)).
    split.
    + intros (? & ? & Hr & ? & [? ?] & He & ? & ? & ? & _). rewrite (escalation_findings_clean m Hr) in He. tauto.
    + intros (? & ? & Hr & ? & ? & ? & He & ? & ? & ?). rewrite (escalation_findings_clean m Hr). tauto.
  - intros (_ & _ & _ & _ & _ & _ & _ & _ & Hp & _). done.
Qed.
Lemma authorised_read p m : authorised (read_from p m) ↔ authorised m. Proof. done. Qed.
Lemma validateSet_spec ms : ∀ seen, "" ∉ mf_Role <$> ms →
  clean (validateSet seen ms) ↔ NoDup (mf_Role <$> ms) ∧ ∀ r, r ∈ mf_Role <$> ms → r ∉ seen.
Proof.
  induction ms as [|m ms IH]; intros seen Hne; cbn [validateSet fmap list_fmap].
  - split; [|constructor]. intros _. split; [constructor|]. intros r Hr. by apply elem_of_nil in Hr.
  - apply not_elem_of_cons in Hne as [Hm Hne]. rewrite bool_decide_false by congruence. rewrite NoDup_cons. case_bool_decide as E.
    + split; [intros Hc; by apply Forall_cons in Hc as [? _]|]. intros [_ Hd]. destruct (Hd (mf_Role m)); [by left|done].
    + rewrite (IH _ Hne). split.
      * intros [Hn Hd]. split; [split; [|done]; intros Hr; apply Hd in Hr; by destruct Hr; left|].
        intros r Hr. apply elem_of_cons in Hr as [-> | Hr]; [done|]. intros Hs. apply (Hd r Hr). by right.
      * intros [[Hr Hn] Hd]. split; [done|]. intros r Hin Hs. apply elem_of_cons in Hs as [-> | Hs]; [done|].
        apply (Hd r); [by right|done].
Qed.
Lemma validate_all_spec ms : match validate_all ms with
  | Some (ms', fs) => (clean fs ↔ Forall authorised ms) ∧ mf_Role <$> ms' = mf_Role <$> ms
  | None => ¬ Forall authorised ms end.
Proof.
  induction ms as [|m ms IH]; cbn [validate_all]; [split; [split; constructor|done]|].
  pose proof (validate_spec m) as Hm. destruct (validate m) as [[m' fs]|]; cbn [mbind option_bind];
    [|intros Hf; by apply Forall_cons in Hf as [? _]].
  destruct (validate_all ms) as [[ms' gs]|]; cbn [mbind option_bind]; [|intros Hf; by apply Forall_cons in Hf as [_ ?]].
  destruct Hm as [Hc Hr], IH as [Hcs Hrs]. rewrite clean_app, Hc, Hcs, Forall_cons. split; [done|]. cbn. by rewrite Hr, Hrs.
Qed.
Lemma authorised_roles ms : Forall authorised ms → "" ∉ mf_Role <$> ms.
Proof.
  intros Ha Hin. apply list_elem_of_fmap in Hin as (m & Hm & Hin). rewrite Forall_forall in Ha.
  destruct (Ha m Hin) as (_ & _ & Hr & _). rewrite <-Hm in Hr. by apply no_empty_role.
Qed.
Definition decoded (files : list (string * option Manifest)) : list Manifest := omap (λ p, read_from p.1 <$> p.2) files.
Lemma decoded_all files raw : files.*2 = Some <$> raw →
  mf_Role <$> decoded files = mf_Role <$> raw ∧ (Forall authorised (decoded files) ↔ Forall authorised raw).
Proof.
  revert raw. induction files as [|[p o] files IH]; intros [|m raw]; [split; done|done|done|]. cbn [fmap list_fmap snd]. intros [= -> Hf].
  destruct (IH raw Hf) as [Hr Ha]. unfold decoded in *. cbn [omap list_omap fst snd fmap option_fmap option_map list_fmap].
  rewrite Hr, !Forall_cons, authorised_read, Ha. done.
Qed.
Lemma all_read files : forallb (λ p : string * option Manifest, bool_decide (is_Some p.2)) files = true ↔ ∃ raw : list Manifest, files.*2 = Some <$> raw.
Proof.
  induction files as [|[p o] files IH]; cbn; [split; [by exists []|done]|]. rewrite andb_true_iff, IH, bool_decide_eq_true. split.
  - intros [[m ->] [raw Hr]]. exists (m :: raw). cbn. by rewrite Hr.
  - intros [[|m raw] Hr]; [done|]. cbn in Hr. injection Hr as -> Hr. split; [done|by exists raw].
Qed.

(** ** Findings *)
Definition plain (role escalates : string) (cmds : list string) : Manifest :=
  MkManifest role "ollama" "qwen" role [] cmds [] "0" false false escalates [] "" 0.
(** A blank command is not refused: reading it panics. *)
Lemma blank_command_panics : Load [("a.yaml", Some (plain "manager" "human" [" "]))] = None.
Proof. reflexivity. Qed.
(** Two roles that escalate to each other pass; only a role's own name is a loop. *)
Lemma mutual_escalation_passes : option_map snd
  (Load [("a.yaml", Some (plain "research" "manager" [])); ("b.yaml", Some (plain "manager" "research" []))]) = Some true.
Proof. reflexivity. Qed.
Lemma dot_is_a_budget : parseUSDC "." = Ok 0. Proof. reflexivity. Qed.
