(* ===== verification/ChainClient.v ===== *)
(** The daemon's access to the chain ([internal/chain]: [chain.go],
    [bindings.go], [reverts.go]).

    A client is a program that asks its node: [QRpc] is one JSON-RPC call,
    [QWait] the wait between two polls; [QCircle] is a request to Circle's API, or
    of a whole URL, which [Circle] and [Cctp] ask.  The client's mutex makes a submission
    one run.  A deadline is the number of polls that fit before it.  [FromHex],
    [sign], [parse_key] and [address_of] are go-ethereum's; an address is the
    text [Hex] prints, or its twenty bytes where a word is built.  A JSON
    member is taken by its exact name.  The text of errors is left out, but for
    the name of a revert: [None] is an error. *)
From Stdlib Require Import Ascii String.
From S2P Require Import Prelude GoStr GoTime GoJson Store Decode Ask.
From S2P Require Funding RpcSource.
#[local] Open Scope Z_scope.
#[local] Open Scope snap_scope.
#[local] Set Default Proof Using "Type".

(** ** Questions and replies *)
(** [QCircle] and [QRandom] are asked by the custody service's clients. *)
Inductive question :=
| QRpc (method : string) (params : list jval)
| QCircle (method path : string) (body : option jval)
| QRandom (n : nat)
| QWait.
(** A request that could not be made is [RFailed]; of an answer that was had,
    the status and the JSON its body holds. *)
Inductive reply :=
| RFailed
| RHttp (status : Z) (body : option jval)
| RBytes (bytes : string)
| RWoken
| RCancelled.
Abbreviation cprog := (prog question reply).

(** [rpcMaybeNull]: HTTP 200 does not mean that the call succeeded.  [Some
    None] is a null result. *)
Definition envelope_result (v : jval) : option (option jval) :=
  fs ← jfields v;
  match jget "error" fs with
  | None | Some JNull => Some (match jget "result" fs with None | Some JNull => None | Some x => Some x end)
  | Some _ => None
  end.
Definition rpc_result (r : reply) : option (option jval) :=
  match r with RHttp _ body => body ≫= envelope_result | _ => None end.
(** [rpc] into a string. *)
Definition rpc_text (r : reply) : option string :=
  x ← rpc_result r; v ← x; text_of_json v.
Definition rpc (method : string) (params : list jval) : cprog (option string) :=
  Ask (QRpc method params) (λ r, Done (rpc_text r)).

(** ** Numbers on the wire *)
Definition Uint64 (z : Z) : Z := z `mod` two64.
(** The [n] low bytes of a number, big-endian. *)
Fixpoint big_endian (n : nat) (z : Z) : string :=
  match n with O => "" | S n => big_endian n (z / 256) +:+ String (chrZ (z `mod` 256)) "" end.
Fixpoint zero_bytes (n : nat) : string := match n with O => "" | S n => String (chrZ 0) (zero_bytes n) end.
(** [word], and [uintWord] over [big.Int.Bytes], which forgets the sign.
    [None] is the panic on more than thirty-two bytes. *)
Definition word (b : string) : option string :=
  if Nat.leb (String.length b) 32 then Some (zero_bytes (32 - String.length b) +:+ b) else None.
Definition uintWord (v : Z) : option string :=
  if Z.abs v <? 2 ^ 256 then Some (big_endian 32 (Z.abs v)) else None.

Section Client.
Context (FromHex : string → string).
Definition quantity (hex : string) : Z := SetBytes 0 (FromHex hex).

(** ** Call data *)
Context (selector : string → string).
Definition packed (sig : string) (words : list (option string)) : option string :=
  Funding.pack selector sig <$> mapM id words.
Definition CalldataApprove (spender : string) (amount : Z) := packed "approve(address,uint256)" [word spender; uintWord amount].
Definition CalldataTransfer (to : string) (amount : Z) := packed "transfer(address,uint256)" [word to; uintWord amount].
Definition CalldataBalanceOf (owner : string) := packed "balanceOf(address)" [word owner].
Definition CalldataDeposit (assets : Z) (receiver : string) := packed "deposit(uint256,address)" [uintWord assets; word receiver].
Definition CalldataOpenAdvanceOf (jobID : string) : string := Funding.pack selector "openAdvanceOf(bytes32)" [jobID].
Definition CalldataAdvanceRate (org : string) := packed "advanceRate(address)" [word org].
Definition CalldataTotalAssets : string := Funding.pack selector "totalAssets()" [].
Definition CalldataTotalOutstanding : string := Funding.pack selector "totalOutstanding()" [].
Definition CalldataPaused : string := Funding.pack selector "paused()" [].
Definition CalldataMaxTotalExposure : string := Funding.pack selector "maxTotalExposure()" [].
Definition CalldataMaxAdvance : string := Funding.pack selector "maxAdvance()" [].
Definition CalldataTotalWrittenOff : string := Funding.pack selector "totalWrittenOff()" [].
Definition CalldataMaxJobPayment : string := Funding.pack selector "maxJobPayment()" [].
Definition CalldataSharesOf (account : string) := packed "sharesOf(address)" [word account].
Definition CalldataOrgOutstanding (org : string) := packed "orgOutstanding(address)" [word org].
Definition CalldataCreateJob (jobID customer operator : string) (payment budget : Z) (termsHash : string) (deadline : Z) :=
  packed "createJob(bytes32,address,address,uint256,uint256,bytes32,uint64)"
    [Some jobID; word customer; word operator; uintWord payment; uintWord budget; Some termsHash; uintWord (Uint64 deadline)].
Definition CalldataFund (jobID : string) : string := Funding.pack selector "fund(bytes32)" [jobID].
Definition CalldataStartWork (jobID : string) : string := Funding.pack selector "startWork(bytes32)" [jobID].
Definition CalldataRecordExpense (jobID : string) (amount : Z) (receiptHash : string) :=
  packed "recordExpense(bytes32,uint256,bytes32)" [Some jobID; uintWord amount; Some receiptHash].
Definition CalldataSubmitDelivery (jobID deliveryHash : string) : string :=
  Funding.pack selector "submitDelivery(bytes32,bytes32)" [jobID; deliveryHash].
Definition CalldataJobStatus (jobID : string) : string := Funding.pack selector "jobStatus(bytes32)" [jobID].
Definition CalldataJobEconomics (jobID : string) : string := Funding.pack selector "jobEconomics(bytes32)" [jobID].

(** ** Views decoded *)
Definition bytes (a n : nat) (b : string) : string := String.substring a n b.
Definition DecodeOpenAdvance (ret : string) : option (Z * Z * bool) :=
  if bool_decide (String.length ret ≠ 96%nat) then None
  else Some (SetBytes 0 (bytes 0 32 ret), SetBytes 0 (bytes 32 32 ret), negb (SetBytes 0 (bytes 64 32 ret) =? 0)).
(** [common.BytesToAddress] keeps the last twenty bytes. *)
Definition DecodeJobEconomics (ret : string) : option (string * Z * Z) :=
  if bool_decide (String.length ret ≠ 96%nat) then None
  else Some (bytes 12 20 ret, SetBytes 0 (bytes 32 32 ret), SetBytes 0 (bytes 64 32 ret)).
Definition DecodeJobStatus (ret : string) : option Z :=
  if bool_decide (String.length ret ≠ 32%nat) then None else Some (Uint64 (SetBytes 0 ret) `mod` 256).
Definition DecodeUint256 (ret : string) : option Z :=
  if bool_decide (String.length ret ≠ 32%nat) then None else Some (SetBytes 0 ret).
Definition JobStatusAccepted : Z := 4.

(** ** Reverts *)
Definition contractErrors : list string :=
  ["AdminTransferTimelocked"; "AdvanceTooLarge"; "AlreadyWired"; "CapExceeded"; "CapNotSet";
   "CapRaiseTimelocked"; "DepositorNotAllowed"; "DuplicateAdvance"; "EnforcedPause";
   "ExposureCapExceeded"; "InsufficientLiquidity"; "JobNotFunded"; "MixedCapChange";
   "NoCapRaiseQueued"; "NoOpenAdvance"; "NotAuthorized"; "NotJobVault"; "NotPendingAdmin";
   "NotTreasury"; "NotWired"; "WrongRepayment"; "ZeroAddress"; "ZeroAmount";
   "AlreadyFunded"; "InvalidStatus"; "JobExists"; "JobTooLarge"; "OverBudget"; "UnknownJob"; "ZeroHash";
   "AlreadyFinalized"].
(** A later name replaces an earlier one. *)
Definition errorBySelector : gmap string string :=
  foldl (λ m name, <[selector (name +:+ "()") := name +:+ "()"]> m) ∅ contractErrors.
Definition RevertName (data : string) : option string :=
  if bool_decide (String.length data ≠ 4%nat) then None else errorBySelector !! data.
Definition ellipsis : string := String (chrZ 226) (String (chrZ 128) (String (chrZ 166) "")).
Definition revertSuffix (raw : option jval) : string :=
  match raw with
  | Some (JStr s) =>
    if Nat.ltb (String.length s) 10 || negb (bool_decide (is_Some (strip_prefix "0x" s))) then ""
    else
      let data := FromHex s in
      match RevertName data with
      | Some name => ": " +:+ name
      | None =>
        if Nat.ltb 36 (String.length data)
        then " (revert data 0x" +:+ hex_EncodeToString (bytes 0 36 data) +:+ ellipsis +:+ ")"
        else " (revert data 0x" +:+ hex_EncodeToString data +:+ ")"
      end
  | _ => ""
  end.

(** ** The client *)
Record Receipt := MkReceipt { rt_TxHash : string; rt_Block : Z; rt_GasUsed : Z; rt_Reverted : bool }.
(** A legacy transaction; its value is always zero. *)
Record Tx := MkTx { tx_Nonce : Z; tx_To : string; tx_Gas : Z; tx_GasPrice : Z; tx_Data : string }.
Context {Key : Type} (address_of : Key → string) (sign : Key → Z → Tx → option string) (parse_key : string → option Key).
Record Client := MkClient { cl_chainID : Z; cl_key : option Key }.
(** The zero address without a key. *)
Definition zeroAddress : string := "0x" +:+ zeros 40.
Definition Address (c : Client) : string := match cl_key c with Some k => address_of k | None => zeroAddress end.

Definition newFromKeyHex (raw : string) (chainID : Z) : option Client :=
  let k := default (TrimSpace raw) (strip_prefix "0x" (TrimSpace raw)) in
  if bool_decide (String.length k ≠ 64%nat) then None
  else key ← parse_key k; Some (MkClient chainID (Some key)).
(** What the environment says of a name, when it is not blank. *)
Definition set_in (env : string → option string) (name : string) : option string :=
  v ← env name; if bool_decide (TrimSpace v = "") then None else Some v.
Definition NewFromEnv (env : string → option string) (envName : string) (chainID : Z) : option Client :=
  raw ← set_in env envName; newFromKeyHex raw chainID.
Definition NewReadOnly (rpcURL : string) (chainID : Z) : option Client :=
  if bool_decide (TrimSpace rpcURL = "") then None else Some (MkClient chainID None).

Definition VerifyChainID (c : Client) : cprog (option unit) :=
  chainHex <~~ rpc "eth_chainId" [] ;;
  Done (if quantity chainHex =? cl_chainID c then Some tt else None).
Definition data_hex (b : string) : string := "0x" +:+ hex_EncodeToString b.
Definition call_json (from : option string) (to calldata : string) : jval :=
  JObj (("data", JStr (data_hex calldata)) ::
        match from with Some a => [("from", JStr a)] | None => [] end ++ [("to", JStr to)]).
(** A fifth of headroom, on 64 bits. *)
Definition headroom (gas : Z) : Z := Uint64 (gas + gas / 5).
Definition receipt_of_json (txHash : string) (v : jval) : option Receipt :=
  status ← dec_str "status" v; block ← dec_str "blockNumber" v; gas ← dec_str "gasUsed" v;
  Some (MkReceipt txHash (Uint64 (quantity block)) (Uint64 (quantity gas)) (quantity status =? 0)).
Definition q_receipt (txHash : string) : question := QRpc "eth_getTransactionReceipt" [JStr txHash].
(** [polls] more may follow the first. *)
Fixpoint AwaitReceipt (polls : nat) (txHash : string) : cprog (option Receipt) :=
  Ask (q_receipt txHash) (λ r,
    match rpc_result r with
    | None => Done None
    | Some (Some v) => Done (receipt_of_json txHash v)
    | Some None =>
      match polls with
      | O => Done None
      | S polls => Ask QWait (λ w, match w with RWoken => AwaitReceipt polls txHash | _ => Done None end)
      end
    end).
Definition tx_of (nonceHex gasPriceHex : string) (gas : Z) (to calldata : string) : Tx :=
  MkTx (Uint64 (quantity nonceHex)) to gas (quantity gasPriceHex) calldata.
Definition estimate (c : Client) (to calldata : string) (fixedGas : Z) : cprog (option Z) :=
  if negb (fixedGas =? 0) then Done (Some fixedGas)
  else gasHex <~~ rpc "eth_estimateGas" [call_json (Some (Address c)) to calldata] ;;
       Done (Some (headroom (Uint64 (quantity gasHex)))).
Definition q_nonce (addr : string) : question := QRpc "eth_getTransactionCount" [JStr addr; JStr "pending"].
Definition q_send (rawTx : string) : question := QRpc "eth_sendRawTransaction" [JStr (data_hex rawTx)].
Definition submit (polls : nat) (c : Client) (to calldata : string) (fixedGas : Z) : cprog (option Receipt) :=
  key <-? cl_key c ;;
  _ <~~ VerifyChainID c ;;
  nonceHex <~~ rpc "eth_getTransactionCount" [JStr (Address c); JStr "pending"] ;;
  gasPriceHex <~~ rpc "eth_gasPrice" [] ;;
  gas <~~ estimate c to calldata fixedGas ;;
  rawTx <-? sign key (cl_chainID c) (tx_of nonceHex gasPriceHex gas to calldata) ;;
  txHash <~~ rpc "eth_sendRawTransaction" [JStr (data_hex rawTx)] ;;
  AwaitReceipt polls txHash.
Definition Submit (polls : nat) (c : Client) (to calldata : string) : cprog (option Receipt) := submit polls c to calldata 0.
Definition SubmitWithGas (polls : nat) (c : Client) (to calldata : string) (gasLimit : Z) : cprog (option Receipt) :=
  submit polls c to calldata gasLimit.

Definition CallViewAt (to calldata block : string) : cprog (option string) :=
  guardQ (negb (bool_decide (TrimSpace block = ""))) (
  out <~~ rpc "eth_call" [call_json None to calldata; JStr block] ;; Done (Some (FromHex out))).
Definition CallView (to calldata : string) : cprog (option string) := CallViewAt to calldata "latest".
Definition BlockNumber : cprog (option string) :=
  out <~~ rpc "eth_blockNumber" [] ;;
  let h := quantity out in
  Done (if h =? 0 then None else Some (RpcSource.hex_format h)).

(** ** The oracle *)
(** [or_Org] is the organization's twenty bytes. *)
Record Oracle := MkOracle { or_FloatPool : string; or_JobVault : string; or_Org : string }.
Definition AdvanceRateBps (o : Oracle) : cprog (option Z) :=
  guardQ (negb (bool_decide (or_Org o = zero_bytes 20))) (
  calldata <-? CalldataAdvanceRate (or_Org o) ;;
  ret <~~ CallView (or_FloatPool o) calldata ;;
  value <-? DecodeUint256 ret ;;
  Done (if value <? two64 then Some value else None)).
Definition AdvanceLanded (o : Oracle) (vaultJobID : string) : cprog (option bool) :=
  id <-? Funding.JobID32 vaultJobID ;;
  ret <~~ CallView (or_FloatPool o) (CalldataOpenAdvanceOf id) ;;
  r <-? DecodeOpenAdvance ret ;;
  Done (Some (negb (r.1.1 =? 0))).
Definition SettlementLanded (o : Oracle) (vaultJobID : string) : cprog (option bool) :=
  id <-? Funding.JobID32 vaultJobID ;;
  ret <~~ CallView (or_JobVault o) (CalldataJobStatus id) ;;
  status <-? DecodeJobStatus ret ;;
  Done (Some (status =? JobStatusAccepted)).
End Client.
Arguments MkClient {Key}. Arguments cl_chainID {Key}. Arguments cl_key {Key}.

(** ** Bytes and words *)
Lemma hex_decode_encode s : hex_DecodeString (hex_EncodeToString s) = Some s.
Proof.
  induction s as [|c r IH]; [done|]. cbn. pose proof (byteZ_range c).
  rewrite !RpcSource.hexdigit_value, IH by (first [apply Z.mod_pos_bound | split; [apply Z.div_pos | apply Z.div_lt_upper_bound]]; lia).
  cbn. do 2 f_equal. rewrite <-Z.div_mod by lia. apply chrZ_byteZ.
Qed.
#[export] Instance hex_EncodeToString_inj : Inj eq eq hex_EncodeToString.
Proof. intros a b H. apply (f_equal hex_DecodeString) in H. rewrite !hex_decode_encode in H. congruence. Qed.
Lemma q_send_inj a b : q_send a = q_send b → a = b.
Proof. intros [= H]. by apply (inj hex_EncodeToString) in H. Qed.
Lemma SetBytes_app a b : ∀ acc, SetBytes acc (a +:+ b) = SetBytes (SetBytes acc a) b.
Proof. induction a as [|c r IH]; intros acc; [done|]. rewrite sapp_cons. cbn [SetBytes]. apply IH. Qed.
Lemma big_endian_length n : ∀ z, String.length (big_endian n z) = n.
Proof. induction n as [|n IH]; intros z; [done|]. cbn [big_endian]. rewrite slength_app, IH. cbn. lia. Qed.
Lemma big_endian_value n : ∀ z, 0 ≤ z < 256 ^ Z.of_nat n → SetBytes 0 (big_endian n z) = z.
Proof.
  induction n as [|n IH]; intros z; [cbn; lia|]. rewrite Nat2Z.inj_succ, Z.pow_succ_r by lia. intros Hz. cbn [big_endian].
  rewrite SetBytes_app, IH by (split; [apply Z.div_pos | apply Z.div_lt_upper_bound]; lia). cbn [SetBytes].
  rewrite byteZ_chrZ by (apply Z.mod_pos_bound; lia). pose proof (Z.div_mod z 256). lia.
Qed.
Lemma zero_bytes_length n : String.length (zero_bytes n) = n.
Proof. induction n as [|n IH]; [done|]. cbn. by rewrite IH. Qed.
Lemma word_length b w : word b = Some w → String.length w = 32%nat.
Proof.
  unfold word. destruct (Nat.leb _ _) eqn:E; [|done]. apply Nat.leb_le in E. intros [= <-]. rewrite slength_app, zero_bytes_length. lia.
Qed.
Lemma uintWord_length v w : uintWord v = Some w → String.length w = 32%nat.
Proof. unfold uintWord. destruct (_ <? _); [|done]. intros H. apply (inj Some) in H as <-. apply big_endian_length. Qed.
(** What the daemon encodes, the decoders read back: a word is the number. *)
Lemma uint_roundtrip v : 0 ≤ v < 2 ^ 256 → ∃ w, uintWord v = Some w ∧ DecodeUint256 w = Some v.
Proof.
  intros Hv. unfold uintWord. rewrite Z.abs_eq by lia. rewrite (proj2 (Z.ltb_lt _ _)) by lia. eexists. split; [done|].
  unfold DecodeUint256. rewrite big_endian_length. cbn [bool_decide]. rewrite bool_decide_false by congruence.
  rewrite big_endian_value; [done|]. change (256 ^ Z.of_nat 32) with (2 ^ 256). lia.
Qed.
(** Only the low byte of the status is looked at. *)
Lemma DecodeJobStatus_truncates : ∃ w, uintWord (256 + JobStatusAccepted) = Some w ∧ DecodeJobStatus w = Some JobStatusAccepted.
Proof. eexists. split; reflexivity. Qed.

(** Call data determines the call: one selector and the same words. *)
Lemma pack_app selector sig words : ∃ tail, Funding.pack selector sig words = selector sig +:+ tail ∧ tail = foldr String.append "" words.
Proof.
  exists (foldr String.append "" words). split; [|done]. unfold Funding.pack. generalize (selector sig) as a.
  induction words as [|w r IH]; intros a; cbn; [by rewrite sapp_nil_r|]. by rewrite IH, sapp_assoc.
Qed.
Lemma words_inj n (w1 w2 : list string) : n ≠ O → Forall (λ w, String.length w = n) w1 → Forall (λ w, String.length w = n) w2 →
  foldr String.append "" w1 = foldr String.append "" w2 → w1 = w2.
Proof.
  intros Hn H1. revert w2. induction H1 as [|x r Hx Hr IH]; intros w2 H2 He; destruct H2 as [|y t Hy Ht]; [done|..].
  - apply (f_equal String.length) in He. cbn in He. rewrite slength_app in He. lia.
  - apply (f_equal String.length) in He. cbn in He. rewrite slength_app in He. lia.
  - cbn in He. apply sapp_inj_len in He as [-> He]; [|congruence]. f_equal. by apply IH.
Qed.
Lemma packed_inj selector s1 s2 w1 w2 d : (∀ s, String.length (selector s) = 4%nat) →
  Forall (λ o, ∀ w, o = Some w → String.length w = 32%nat) (w1 ++ w2) →
  packed selector s1 w1 = Some d → packed selector s2 w2 = Some d → selector s1 = selector s2 ∧ w1 = w2.
Proof.
  intros Hs Hw. unfold packed. destruct (mapM id w1) as [v1|] eqn:E1; [|done]. destruct (mapM id w2) as [v2|] eqn:E2; [|done].
  cbn. intros [= H1] [= H2]. destruct (pack_app selector s1 v1) as (t1 & P1 & ->), (pack_app selector s2 v2) as (t2 & P2 & ->).
  rewrite P1 in H1. rewrite P2 in H2. rewrite <-H2 in H1. apply sapp_inj_len in H1 as [Hsel Ht]; [|by rewrite !Hs]. split; [done|].
  assert (Hv : ∀ (w : list (option string)) v, mapM id w = Some v → w = Some <$> v).
  { clear. induction w as [|o r IH]; intros v; cbn; [by intros [= <-]|]. destruct o as [x|]; [|done]. cbn.
    destruct (mapM id r) as [vr|]; [|done]. cbn. intros [= <-]. cbn. f_equal. by apply IH. }
  apply Hv in E1 as ->. apply Hv in E2 as ->. f_equal. apply Forall_app in Hw as [Hw1 Hw2]. rewrite Forall_fmap in Hw1, Hw2.
  apply (words_inj 32); [done|..|done]; eapply Forall_impl; try done; cbn; auto.
Qed.

(** ** Reverts *)
(** A name is given to exactly the payload that is its selector. *)
Lemma RevertName_sound selector data name : RevertName selector data = Some name →
  ∃ e, e ∈ contractErrors ∧ name = e +:+ "()" ∧ data = selector name.
Proof.
  unfold RevertName. case_bool_decide; [done|]. unfold errorBySelector. revert H. intros _.
  assert (Hf : ∀ l (m : gmap string string) d n, (foldl (λ m name, <[selector (name +:+ "()") := name +:+ "()"]> m) m l) !! d = Some n →
    m !! d = Some n ∨ ∃ e, e ∈ l ∧ n = e +:+ "()" ∧ d = selector n).
  { induction l as [|e l IH]; intros m d n; cbn; [by left|]. intros [H|(e' & He & -> & ->)]%IH; [|right; exists e'; split; [by right|done]].
    apply lookup_insert_Some in H as [[<- <-]|[_ H]]; [right; exists e; split; [by left|done]|by left]. }
  intros H. apply Hf in H as [H|H]; [by rewrite lookup_empty in H|done].
Qed.
Lemma RevertName_complete selector e : e ∈ contractErrors → (∀ s, String.length (selector s) = 4%nat) →
  (∀ a b, a ∈ contractErrors → b ∈ contractErrors → selector (a +:+ "()") = selector (b +:+ "()") → a = b) →
  RevertName selector (selector (e +:+ "()")) = Some (e +:+ "()").
Proof.
  intros He Hlen Hd. unfold RevertName. rewrite Hlen. rewrite bool_decide_false by congruence. unfold errorBySelector.
  assert (Hf : ∀ l (m : gmap string string), (∀ a, a ∈ l → a ∈ contractErrors) →
    (e ∈ l ∨ m !! selector (e +:+ "()") = Some (e +:+ "()")) →
    (foldl (λ m name, <[selector (name +:+ "()") := name +:+ "()"]> m) m l) !! selector (e +:+ "()") = Some (e +:+ "()")).
  { induction l as [|x l IH]; intros m Hl Hin; cbn; [by destruct Hin as [Hin%not_elem_of_nil|]|].
    apply IH; [intros a Ha; apply Hl; by right|]. destruct (decide (x = e)) as [->|Hx]; [right; by rewrite lookup_insert_eq|].
    destruct Hin as [[->|Hin]%elem_of_cons|Hin]; [done|by left|]. right. rewrite lookup_insert_ne; [done|].
    intros Heq. apply Hx. apply Hd; [apply Hl; by left|done|done]. }
  apply Hf; [done|by left].
Qed.

(** ** A submission *)
Definition is_send (q : question) : bool :=
  match q with QRpc m _ => bool_decide (m = "eth_sendRawTransaction") | _ => false end.
Definition sends (l : list (question * reply)) : list (question * reply) := filter (λ p, is_send p.1 = true) l.
Lemma sends_app l1 l2 : sends (l1 ++ l2) = sends l1 ++ sends l2.
Proof. apply filter_app. Qed.
(** [q] was asked and answered with the text [t]. *)
Definition told (l : list (question * reply)) (q : question) (t : string) : Prop := ∃ r, (q, r) ∈ l ∧ rpc_text r = Some t.
Lemma told_app_l l1 l2 q t : told l1 q t → told (l1 ++ l2) q t.
Proof. intros (r & Hr & Ht). exists r. split; [apply elem_of_app; by left|done]. Qed.
Lemma told_app_r l1 l2 q t : told l2 q t → told (l1 ++ l2) q t.
Proof. intros (r & Hr & Ht). exists r. split; [apply elem_of_app; by right|done]. Qed.

(** *** One signer *)
(** What a node promises of the address a key signs for: the count it gives is
    the one a transaction must carry, it never goes back, and a transaction it
    accepts is counted. *)
Class Node {Key S} (FromHex : string → string) (address_of : Key → string) (sign : Key → Z → Tx → option string)
    (answer : question → S → S * reply) (key : Key) (pending : S → Z) : Prop := {
  node_monotone q s : pending s ≤ pending (answer q s).1;
  node_count s h : rpc_text (answer (q_nonce (address_of key)) s).2 = Some h → Uint64 (quantity FromHex h) = pending s;
  node_accept s id tx raw h : sign key id tx = Some raw → rpc_text (answer (q_send raw) s).2 = Some h →
    tx_Nonce tx < pending (answer (q_send raw) s).1 }.

Section Submission.
Context (FromHex : string → string) {Key : Type} (address_of : Key → string) (sign : Key → Z → Tx → option string).
Context {S : Type} (answer : question → S → S * reply).
Abbreviation submit := (submit FromHex address_of sign).
Abbreviation AwaitReceipt := (AwaitReceipt FromHex).

Lemma serve_rpc method params s s' o l : serve answer (rpc method params) s = (s', o, l) →
  ∃ r, answer (QRpc method params) s = (s', r) ∧ l = [(QRpc method params, r)] ∧ o = rpc_text r.
Proof. cbn. destruct (answer _ s) as [s1 r]. intros [= <- <- <-]. by exists r. Qed.
(** The receipt [rc] is what the node said last, of this very transaction. *)
Definition receipt_told (txHash : string) (rc : Receipt) (l : list (question * reply)) : Prop :=
  ∃ l0 r v, l = l0 ++ [(q_receipt txHash, r)] ∧ rpc_result r = Some (Some v) ∧ receipt_of_json FromHex txHash v = Some rc.
Lemma AwaitReceipt_run polls txHash : ∀ s s' o l, serve answer (AwaitReceipt polls txHash) s = (s', o, l) →
  sends l = [] ∧ Forall (λ p, p.1 = q_receipt txHash ∨ p.1 = QWait) l ∧ ∀ rc, o = Some rc → receipt_told txHash rc l.
Proof.
  induction polls as [|polls IH]; intros s s' o l; cbn [ChainClient.AwaitReceipt serve];
    destruct (answer (q_receipt txHash) s) as [s1 r] eqn:Er; destruct (rpc_result r) as [[v|]|] eqn:Ev.
  all: cbn [serve]; try (intros [= <- <- <-]; split_and!; [reflexivity|constructor; [by left|constructor]|];
    first [discriminate | intros rc Hrc; exists [], r, v; split_and!; [done|done|exact Hrc]]).
  destruct (answer QWait s1) as [s2 w] eqn:Ew.
  assert (Hstop : ∀ s' o l, (s2, None, [(q_receipt txHash, r); (QWait, w)]) = (s', o, l) →
    sends l = [] ∧ Forall (λ p, p.1 = q_receipt txHash ∨ p.1 = QWait) l ∧ ∀ rc, o = Some rc → receipt_told txHash rc l).
  { intros ? ? ? [= <- <- <-]. split_and!; [reflexivity|constructor; [by left|constructor; [by right|constructor]]|discriminate]. }
  destruct w as [|? ?|?| |]; cbn [serve]; try apply Hstop.
  destruct (serve answer (AwaitReceipt polls txHash) s2) as [[s3 o3] l3] eqn:E3. intros [= <- <- <-].
  apply IH in E3 as (Hs & Hf & Ho). split_and!; [exact Hs|constructor; [by left|constructor; [by right|done]]|].
  intros rc Hrc. destruct (Ho rc Hrc) as (l0 & r0 & v & -> & Hr0 & Hv). exists ((q_receipt txHash, r) :: (QWait, RWoken) :: l0), r0, v. by split_and!.
Qed.
Lemma receipt_told_status txHash rc l : receipt_told txHash rc l →
  rt_TxHash rc = txHash ∧ ∃ r v st, (q_receipt txHash, r) ∈ l ∧ rpc_result r = Some (Some v) ∧ dec_str "status" v = Some st ∧
    (rt_Reverted rc = true ↔ quantity FromHex st = 0).
Proof.
  intros (l0 & r & v & -> & Hr & Hv). unfold receipt_of_json in Hv. destruct (dec_str "status" v) as [st|] eqn:Est; [|done]. cbn in Hv.
  destruct (dec_str "blockNumber" v) as [bn|]; [|done]. cbn in Hv. destruct (dec_str "gasUsed" v) as [gas|]; [|done]. cbn in Hv.
  injection Hv as <-. cbn [rt_TxHash rt_Reverted]. split; [done|]. exists r, v, st. split_and!; try done.
  - apply elem_of_app. right. by left.
  - apply Z.eqb_eq.
Qed.

(** What was known when a transaction was signed: the node is the configured
    chain, the nonce is the pending count it gave, and the transaction is this
    call under the client's own key. *)
Definition signed_for (c : Client (Key := Key)) (to calldata : string) (l : list (question * reply)) (key : Key) (raw : string) (tx : Tx) : Prop :=
  cl_key c = Some key ∧ sign key (cl_chainID c) tx = Some raw ∧ tx_To tx = to ∧ tx_Data tx = calldata ∧
  (∃ h, told l (QRpc "eth_chainId" []) h ∧ quantity FromHex h = cl_chainID c) ∧
  (∃ h, told l (q_nonce (address_of key)) h ∧ tx_Nonce tx = Uint64 (quantity FromHex h)) ∧
  (∃ h, told l (QRpc "eth_gasPrice" []) h ∧ tx_GasPrice tx = quantity FromHex h).
Lemma estimate_quiet c to calldata fixedGas s s' o l :
  serve answer (estimate FromHex address_of c to calldata fixedGas) s = (s', o, l) → sends l = [].
Proof.
  unfold estimate. destruct (negb _); [by intros [= <- <- <-]|]. intros He.
  apply serve_try in He as [[He _]|(? & ? & ? & ? & He & He' & ->)]; apply serve_rpc in He as (? & _ & -> & _); [done|]. by injection He' as <- _ <-.
Qed.
Lemma sends_one l0 raw r lw : sends l0 = [] → sends lw = [] → sends (l0 ++ (q_send raw, r) :: lw) = [(q_send raw, r)].
Proof. intros H0 Hw. rewrite sends_app, H0. unfold sends. rewrite filter_cons, decide_True by reflexivity. cbn [app]. f_equal. exact Hw. Qed.
Lemma verify_run (c : Client (Key := Key)) s s' o l : serve answer (VerifyChainID FromHex c) s = (s', o, l) →
  sends l = [] ∧ (o = Some tt → ∃ h, told l (QRpc "eth_chainId" []) h ∧ quantity FromHex h = cl_chainID c).
Proof.
  unfold VerifyChainID. intros H. apply serve_try in H as [[H ->]|(h & ? & ? & ? & H & H' & ->)];
    apply serve_rpc in H as (r & _ & -> & Hr); [done|]. injection H' as <- <- <-. split; [done|].
  destruct (quantity FromHex h =? cl_chainID c) eqn:E; [|done]. intros _. exists h. split; [|by apply Z.eqb_eq]. exists r. split; [by left|done].
Qed.
(** One run, with the states of the node around the nonce and the broadcast. *)
Lemma submit_run polls c to calldata fixedGas s s' out l : serve answer (submit polls c to calldata fixedGas) s = (s', out, l) →
  (out = None ∧ sends l = []) ∨
  ∃ key raw tx l0 r lw sn rn s1 s2 h, l = l0 ++ (q_send raw, r) :: lw ∧ sends l0 = [] ∧ sends lw = [] ∧
    signed_for c to calldata l0 key raw tx ∧
    steps answer s sn ∧ (answer (q_nonce (address_of key)) sn).2 = rn ∧ rpc_text rn = Some h ∧ tx_Nonce tx = Uint64 (quantity FromHex h) ∧
    steps answer (answer (q_nonce (address_of key)) sn).1 s1 ∧ answer (q_send raw) s1 = (s2, r) ∧ steps answer s2 s' ∧
    ∀ rc, out = Some rc → ∃ txHash, rpc_text r = Some txHash ∧ receipt_told txHash rc lw.
Proof.
  unfold ChainClient.submit. intros H. apply serve_let in H as [(_ & _ & -> & ->)|(key & Hk & H)]; [by left|].
  apply serve_try in H as [[H ->]|([] & s1 & l1 & l2 & H1 & H & ->)].
  { left. split; [done|]. by apply verify_run in H as [-> _]. }
  pose proof (serve_steps _ _ _ _ _ _ H1) as Hst. apply verify_run in H1 as [Hl1 Hid].
  apply serve_try in H as [[H ->]|(nh & sa & ln & l3 & Hn & H & ->)].
  { left. apply serve_rpc in H as (r & _ & -> & _). by rewrite sends_app, Hl1. }
  apply serve_rpc in Hn as (rn & Hn & -> & Hnh).
  apply serve_try in H as [[H ->]|(gp & sb & lg & l4 & Hg & H & ->)].
  { left. apply serve_rpc in H as (r & _ & -> & _). by rewrite !sends_app, Hl1. }
  pose proof (serve_steps _ _ _ _ _ _ Hg) as Hst2. apply serve_rpc in Hg as (rg & _ & -> & Hgp).
  apply serve_try in H as [[H ->]|(gas & sc & le & l5 & He & H & ->)].
  { left. apply estimate_quiet in H. split; [done|]. by rewrite !sends_app, Hl1, H. }
  pose proof (serve_steps _ _ _ _ _ _ He) as Hst3. apply estimate_quiet in He.
  apply serve_let in H as [(_ & _ & -> & ->)|(raw & Hraw & H)].
  { left. split; [done|]. by rewrite !sends_app, Hl1, He. }
  right. set (tx := tx_of FromHex nh gp gas to calldata) in *.
  assert (Haddr : Address address_of c = address_of key) by (unfold Address; by rewrite Hk). rewrite Haddr in *.
  set (l0 := l1 ++ [(q_nonce (address_of key), rn)] ++ [(QRpc "eth_gasPrice" [], rg)] ++ le).
  assert (Hl0 : sends l0 = []) by (unfold l0; by rewrite !sends_app, Hl1, He).
  assert (Hsig : signed_for c to calldata l0 key raw tx).
  { split_and!; [done..| | |].
    - destruct (Hid eq_refl) as (h & Hh & Eid). exists h. split; [by apply told_app_l|done].
    - exists nh. split; [|done]. apply told_app_r, told_app_l. exists rn. split; [by left|done].
    - exists gp. split; [|done]. do 2 apply told_app_r. apply told_app_l. exists rg. split; [by left|done]. }
  assert (Hsb : steps answer (answer (q_nonce (address_of key)) s1).1 sc) by (unfold q_nonce; rewrite Hn; by etransitivity).
  assert (Hrn : (answer (q_nonce (address_of key)) s1).2 = rn) by (unfold q_nonce; by rewrite Hn).
  apply serve_try in H as [[H ->]|(hash & sd & ls & lw & Hs & H & ->)].
  - apply serve_rpc in H as (r & Ha & -> & _).
    exists key, raw, tx, l0, r, [], s1, rn, sc, s', nh. split_and!; try done. unfold l0. by rewrite <-!app_assoc.
  - apply serve_rpc in Hs as (r & Ha & -> & Hhash). pose proof (serve_steps _ _ _ _ _ _ H) as Hst4. apply AwaitReceipt_run in H as (Hw & _ & Hrc).
    exists key, raw, tx, l0, r, lw, s1, rn, sc, sd, nh. split_and!; try done; [unfold l0; by rewrite <-!app_assoc|].
    intros rc Hout. exists hash. split; [done|by apply Hrc].
Qed.
Lemma submit_sends polls c to calldata fixedGas s s' out l :
  serve answer (submit polls c to calldata fixedGas) s = (s', out, l) → (length (sends l) ≤ 1)%nat.
Proof.
  intros [[_ ->]|(? & raw & ? & l0 & r & lw & ? & ? & ? & ? & ? & -> & H0 & Hw & _)]%submit_run; [cbn; lia|]. by rewrite sends_one.
Qed.
(** A submission signs once, for the right chain, and believes only the
    receipt.  Whatever the node answers, one submission broadcasts at most one
    transaction, under the client's own key and exactly the call that was
    asked, after the node has said that it is the configured chain and with the
    pending count it gave as the nonce; without a broadcast there is no
    outcome, and an outcome is the node's receipt of the hash the broadcast was
    answered with, reverted if and only if the receipt's status is zero.  A
    client without a key broadcasts nothing. *)
Lemma submission_is_one_signed_call polls c to calldata fixedGas s s' out l :
  serve answer (submit polls c to calldata fixedGas) s = (s', out, l) →
  (out = None ∧ sends l = []) ∨
  (∃ key raw tx l0 r lw, l = l0 ++ (q_send raw, r) :: lw ∧ sends l = [(q_send raw, r)] ∧ signed_for c to calldata l0 key raw tx ∧
    ∀ rc, out = Some rc → ∃ txHash ans v st, rpc_text r = Some txHash ∧ rt_TxHash rc = txHash ∧
      (q_receipt txHash, ans) ∈ lw ∧ rpc_result ans = Some (Some v) ∧ dec_str "status" v = Some st ∧
      (rt_Reverted rc = true ↔ quantity FromHex st = 0)).
Proof.
  intros [H|(key & raw & tx & l0 & r & lw & sn & rn & s1 & s2 & h & -> & H0 & Hw & Hsig & _ & _ & _ & _ & _ & _ & _ & Hout)]%submit_run; [by left|].
  right. exists key, raw, tx, l0, r, lw. split_and!; try done.
  - by apply sends_one.
  - intros rc Hrc. destruct (Hout rc Hrc) as (txHash & Ht & Hrec). apply receipt_told_status in Hrec as (Hh & ans & v & st & ? & ? & ? & ?).
    by exists txHash, ans, v, st.
Qed.
End Submission.

Section OneSigner.
Context (FromHex : string → string) {Key : Type} (address_of : Key → string) (sign : Key → Z → Tx → option string).
Context (sign_injective : ∀ key id1 id2 tx1 tx2 raw, sign key id1 tx1 = Some raw → sign key id2 tx2 = Some raw → tx1 = tx2).
Context {S : Type} (answer : question → S → S * reply) (key : Key) (pending : S → Z).
Context {Hnode : Node FromHex address_of sign answer key pending}.
(** A time of the node with one client on the key: its submissions run one
    after the other, and in between anything else reaches the node. *)
Inductive serially (c : Client (Key := Key)) : S → S → list (question * reply) → Prop :=
| serially_nil s : serially c s s []
| serially_submit s s1 s2 polls to calldata fixedGas out l1 l2 :
    serve answer (submit FromHex address_of sign polls c to calldata fixedGas) s = (s1, out, l1) →
    serially c s1 s2 l2 → serially c s s2 (l1 ++ l2)
| serially_elsewhere s s1 s2 l : pending s ≤ pending s1 → serially c s1 s2 l → serially c s s2 l.
(** The broadcast of a transaction the node accepted. *)
Definition accepted (p : question * reply) (tx : Tx) : Prop :=
  ∃ raw id h, p.1 = q_send raw ∧ sign key id tx = Some raw ∧ rpc_text p.2 = Some h.
Lemma accepted_is_send p tx : accepted p tx → is_send p.1 = true.
Proof. destruct p as [q r]. intros (raw & id & h & Hq & _). cbn [fst] in *. by rewrite Hq. Qed.
Lemma accepted_in_sends l p tx : p ∈ l → accepted p tx → p ∈ sends l.
Proof. intros Hp Ha. apply list_elem_of_filter. split; [by eapply accepted_is_send|done]. Qed.
Lemma submit_nonce polls c to calldata fixedGas s s' out l p tx : cl_key c = Some key →
  serve answer (submit FromHex address_of sign polls c to calldata fixedGas) s = (s', out, l) → pending s ≤ pending s' ∧
  (p ∈ l → accepted p tx → pending s ≤ tx_Nonce tx < pending s').
Proof using sign_injective Hnode.
  intros Hk Hrun. assert (Hm : ∀ s s', steps answer s s' → pending s ≤ pending s') by (apply steps_mono; intros; apply node_monotone).
  split; [by eapply Hm, serve_steps|]. intros Hp Ha. pose proof (accepted_in_sends _ _ _ Hp Ha) as Hin.
  apply submit_run in Hrun as [[_ Hs]|(key' & raw & tx' & l0 & r & lw & sn & rn & s1 & s2 & h & -> & H0 & Hw & Hsig & Hsn & <- & Hrn & Htx & Hs1 & Hans & Hs2 & _)];
    [rewrite Hs in Hin; by apply not_elem_of_nil in Hin|].
  destruct Hsig as (Hk' & Hsign & _). rewrite Hk in Hk'. injection Hk' as <-.
  assert (Hpq : p = (q_send raw, r)).
  { rewrite sends_one in Hin by done. by apply list_elem_of_singleton in Hin. }
  subst p. destruct Ha as (raw' & id & h' & Hq & Hsg & Hr). cbn [fst snd] in *. apply q_send_inj in Hq. subst raw'.
  rewrite (sign_injective _ _ _ _ _ _ Hsg Hsign) in *. apply node_count in Hrn. pose proof (node_accept s1 (cl_chainID c) tx' raw h' Hsign) as Hacc.
  rewrite Hans in Hacc. specialize (Hacc Hr). cbn [fst] in Hacc. apply Hm in Hsn, Hs1, Hs2. pose proof (node_monotone (q_nonce (address_of key)) sn). lia.
Qed.
Lemma serially_nonces c s s' l : cl_key c = Some key → serially c s s' l → pending s ≤ pending s' ∧
  ∀ p tx, p ∈ l → accepted p tx → pending s ≤ tx_Nonce tx < pending s'.
Proof using sign_injective Hnode.
  intros Hk. induction 1 as [s|s s1 s2 polls to calldata g out l1 l2 Hrun Hrest [IHm IH]|s s1 s2 l Hle Hrest [IHm IH]].
  - split; [done|]. by intros p tx Hp%not_elem_of_nil.
  - split; [destruct (submit_nonce _ _ _ _ _ _ _ _ _ (QWait, RWoken) (MkTx 0 "" 0 0 "") Hk Hrun); lia|].
    intros p tx [Hp|Hp]%elem_of_app Ha; destruct (submit_nonce _ _ _ _ _ _ _ _ _ p tx Hk Hrun) as [Hm Hn];
      [specialize (Hn Hp Ha)|specialize (IH p tx Hp Ha)]; lia.
  - split; [lia|]. intros p tx Hp Ha. specialize (IH p tx Hp Ha). lia.
Qed.
(** C24: one signer, serial submissions.  While one client holds a key, the
    transactions of its submissions that the node accepts carry strictly
    increasing nonces, in the order they were broadcast, whatever else reaches
    the node between two submissions: no nonce is used twice. *)
Theorem accepted_nonces_increase c s s' l : cl_key c = Some key → serially c s s' l →
  ∀ l1 p1 l2 p2 l3 tx1 tx2, l = l1 ++ p1 :: l2 ++ p2 :: l3 → accepted p1 tx1 → accepted p2 tx2 → tx_Nonce tx1 < tx_Nonce tx2.
Proof using sign_injective Hnode.
  intros Hk. induction 1 as [s|s s1 s2 polls to calldata g out la lb Hrun Hrest IH|s s1 s2 l Hle Hrest IH]; intros l1 p1 l2 p2 l3 tx1 tx2 Hl Ha1 Ha2.
  - by destruct l1.
  - apply app_eq_app in Hl as (m & [[-> Hm]|[-> Hm]]).
    + destruct m as [|x m].
      * cbn in Hm. subst lb. eapply (IH [] p1 l2 p2 l3); done.
      * injection Hm as <- Hm. destruct (serially_nonces _ _ _ _ Hk Hrest) as [_ Hlater].
        assert (H1 : tx_Nonce tx1 < pending s1) by (eapply (submit_nonce _ _ _ _ _ _ _ _ _ p1 tx1 Hk Hrun); [apply elem_of_app; right; by left|done]).
        apply app_eq_app in Hm as (m' & [[-> Hm']|[-> Hm']]); [rewrite Hm' in Hlater; destruct (Hlater p2 tx2 ltac:(apply elem_of_app; right; by left) Ha2); lia|].
        destruct m' as [|y m'].
        -- cbn in Hm'. subst lb. destruct (Hlater p2 tx2 ltac:(by left) Ha2). lia.
        -- apply submit_sends in Hrun. apply accepted_is_send in Ha1, Ha2. revert Hrun. injection Hm' as <- _. rewrite sends_app.
           unfold sends. rewrite !filter_cons, !filter_app, decide_True, filter_cons, decide_True by done. rewrite !length_app. cbn. rewrite length_app. cbn. lia.
    + eapply (IH m p1 l2 p2 l3); done.
  - by eapply IH.
Qed.
End OneSigner.

(** ** A node *)
Definition sample_FromHex (s : string) : string :=
  let h := default s (strip_prefix "0x" s) in
  default "" (hex_DecodeString (if Nat.even (String.length h) then h else "0" +:+ h)).
Definition sample_tx (nonce : Z) : Tx := MkTx nonce "0xpool" 120 1 "call".
#[export] Instance Tx_eq_dec : EqDecision Tx.
Proof. solve_decision. Defined.
Definition sample_sign (key : unit) (id : Z) (tx : Tx) : option string :=
  if decide (tx = sample_tx 0) then Some "raw0" else if decide (tx = sample_tx 1) then Some "raw1" else None.
Definition sample_result (v : jval) : reply := RHttp 200 (Some (JObj [("result", v)])).
Definition sample_node (q : question) (n : Z) : Z * reply :=
  match q with
  | QRpc "eth_chainId" _ => (n, sample_result (JStr "0x4cef52"))
  | QRpc "eth_getTransactionCount" _ =>
    (n, if n =? 0 then sample_result (JStr "0x0") else if n =? 1 then sample_result (JStr "0x1") else RFailed)
  | QRpc "eth_gasPrice" _ => (n, sample_result (JStr "0x1"))
  | QRpc "eth_estimateGas" _ => (n, sample_result (JStr "0x64"))
  | QRpc "eth_sendRawTransaction" [JStr hex] =>
    if bool_decide (hex = data_hex "raw0") && (n =? 0) then (1, sample_result (JStr "0xaa"))
    else if bool_decide (hex = data_hex "raw1") && (n =? 1) then (2, sample_result (JStr "0xbb")) else (n, RFailed)
  | QRpc "eth_getTransactionReceipt" _ =>
    (n, sample_result (JObj [("status", JStr "0x0"); ("blockNumber", JStr "0x10"); ("gasUsed", JStr "0x64")]))
  | _ => (n, RFailed)
  end.
Definition sample_client : Client (Key := unit) := MkClient 5042002 (Some ()).
Definition sample_submit : cprog (option Receipt) := submit sample_FromHex (λ _, "0xme") sample_sign 3 sample_client "0xpool" "call" 0.
Definition sample_run1 := serve sample_node sample_submit 0.
Definition sample_run2 := serve sample_node sample_submit 1.
Lemma submission_is_one_signed_call_witness : ∃ s' l, sample_run1 = (s', Some (MkReceipt "0xaa" 16 100 true), l) ∧
  (length (sends l) = 1)%nat.
Proof.
  exists sample_run1.1.1, sample_run1.2. assert (H : sample_run1 = (sample_run1.1.1, Some (MkReceipt "0xaa" 16 100 true), sample_run1.2)) by (vm_compute; reflexivity).
  split; [exact H|].
  destruct (submission_is_one_signed_call sample_FromHex (λ _, "0xme") sample_sign sample_node 3 sample_client "0xpool" "call" 0 0 _ _ _ H)
    as [[E _]|(key & raw & tx & l0 & r & lw & _ & E & _)]; [discriminate E|]. rewrite E. reflexivity.
Defined.
Lemma sample_sign_injective key id1 id2 tx1 tx2 raw : sample_sign key id1 tx1 = Some raw → sample_sign key id2 tx2 = Some raw → tx1 = tx2.
Proof. unfold sample_sign. repeat case_decide; intros; simplify_eq; done. Qed.
Lemma sample_is_node : Node sample_FromHex (λ _, "0xme") sample_sign sample_node () id.
Proof.
  assert (Hq : ∀ m p n, n ≤ (sample_node (QRpc m p) n).1).
  { intros m p n. unfold sample_node. repeat case_match; cbn; bool_to_prop; lia. }
  split.
  - intros [m p|m p b|k|] n; [apply Hq|done..].
  - intros n h. cbn. destruct (n =? 0) eqn:E0; [intros [= <-]; bool_to_prop; subst; reflexivity|].
    destruct (n =? 1) eqn:E1; [intros [= <-]; bool_to_prop; subst; reflexivity|done].
  - intros n id tx raw h Hs. unfold sample_node, q_send. destruct (bool_decide (data_hex raw = data_hex "raw0") && (n =? 0)) eqn:E0.
    + intros _. apply andb_true_iff in E0 as [E0%bool_decide_eq_true ->%Z.eqb_eq]. apply sapp_inj_l, (inj hex_EncodeToString) in E0 as ->. cbn.
      unfold sample_sign in Hs. repeat case_decide; simplify_eq; cbn; lia.
    + destruct (bool_decide (data_hex raw = data_hex "raw1") && (n =? 1)) eqn:E1; [|done]. intros _. apply andb_true_iff in E1 as [E1%bool_decide_eq_true ->%Z.eqb_eq].
      apply sapp_inj_l, (inj hex_EncodeToString) in E1 as ->. cbn. unfold sample_sign in Hs. repeat case_decide; simplify_eq; cbn; lia.
Qed.
Lemma accepted_nonces_increase_witness : tx_Nonce (sample_tx 0) < tx_Nonce (sample_tx 1).
Proof.
  set (la := sample_run1.2). set (lb := sample_run2.2).
  assert (H1 : serve sample_node sample_submit 0 = (1, sample_run1.1.2, la)) by (vm_compute; reflexivity).
  assert (H2 : serve sample_node sample_submit 1 = (2, sample_run2.1.2, lb)) by (vm_compute; reflexivity).
  refine (accepted_nonces_increase sample_FromHex (λ _, "0xme") sample_sign sample_sign_injective sample_node () id (Hnode := sample_is_node)
    sample_client 0 2 (la ++ lb) eq_refl _ (take 4 la) (nth 4 la (QWait, RWoken)) (drop 5 la ++ take 4 lb) (nth 4 lb (QWait, RWoken)) (drop 5 lb) _ _ _ _ _).
  - exact (serially_submit _ _ _ _ _ _ 0 1 2 3 "0xpool" "call" 0 _ la lb H1 (eq_rect _ (serially _ _ _ _ _ _ 1 2) (serially_submit _ _ _ _ _ _ 1 2 2 3 "0xpool" "call" 0 _ lb [] H2 (serially_nil _ _ _ _ _ _ 2)) _ (app_nil_r lb))).
  - vm_compute. reflexivity.
  - exists "raw0", 5042002, "0xaa". split_and!; vm_compute; reflexivity.
  - exists "raw1", 5042002, "0xbb". split_and!; vm_compute; reflexivity.
Defined.
