(* ===== verification/Circle.v ===== *)
(** The Circle developer-controlled wallet ([internal/circlewallet]:
    [circlewallet.go], [setup.go]).

    A wallet lane and the setup are programs over the questions of
    [ChainClient]: [QCircle] is one request to Circle's API, [QRandom] the bytes
    a random source gives.  [parse_public_key] is PEM and PKIX decoding into an
    RSA key, [EncryptOAEP] the encryption under it with its random seed,
    [base64] the standard encoding; [IsHexAddress] and [HexToAddress] are
    go-ethereum's.  A JSON member is taken by its exact name.  The text of
    errors is left out. *)
From Stdlib Require Import Ascii String.
From S2P Require Import Prelude GoStr GoTime GoJson Amount Store Decode Ask ChainClient.
From S2P Require H3.
#[local] Open Scope Z_scope.
#[local] Open Scope snap_scope.
#[local] Set Default Proof Using "Type".

(** ** Requests *)
(** An answer that is not a success.  Its own members are decoded into the
    error, whose status has no tag. *)
Record HTTPError := MkHTTPError { he_Status : Z; he_Code : Z }.
Definition int_member (names : list string) (old : Z) (body : option jval) : Z :=
  match body ≫= jfields with
  | Some fs => default old (head (omap (λ n, match jget n fs with Some (JInt z) => Some z | _ => None end) names))
  | None => old
  end.
Definition http_error (status : Z) (body : option jval) : HTTPError :=
  MkHTTPError (int_member ["Status"; "status"] status body) (int_member ["code"] 0 body).
(** [None] is an error that is no answer of Circle's. *)
Definition call_result (r : reply) : result (option HTTPError) jval :=
  match r with
  | RHttp status body =>
    if (status <? 200) || (299 <? status) then Err (Some (http_error status body))
    else match body with Some v => Ok v | None => Err None end
  | _ => Err None
  end.
Definition call (method path : string) (body : option jval) : cprog (result (option HTTPError) jval) :=
  Ask (QCircle method path body) (λ r, Done (call_result r)).
(** The data member of an answer, as [dec] reads it. *)
Definition data_of {A} (dec : jval → option A) (v : jval) : option A := d ← dec_obj "data" v; dec d.
Definition calling {A} (method path : string) (body : option jval) (dec : jval → option A) : cprog (option A) :=
  Ask (QCircle method path body) (λ r, Done (to_option (call_result r) ≫= data_of dec)).

(** [newAPI]: the key is PREFIX:ID:SECRET. *)
Fixpoint count_char (c : ascii) (s : string) : nat :=
  match s with "" => O | String d r => ((if bool_decide (c = d) then 1 else 0) + count_char c r)%nat end.
Definition api_key_shape (apiKey : string) : bool := Nat.eqb (count_char ":" apiKey) 2.

(** ** Names *)
Definition EnvAPIKey : string := "CIRCLE_API_KEY".
Definition EnvEntitySecret : string := "CIRCLE_ENTITY_SECRET".
Definition EnvWalletID : string := "CIRCLE_TREASURY_WALLET_ID".
Definition ParseEntitySecret (secretHex : string) : option string :=
  let s := TrimSpace secretHex in
  secret ← hex_DecodeString (default s (strip_prefix "0x" s));
  if bool_decide (String.length secret = 32%nat) then Some secret else None.
Definition BlockchainFor (chainID : Z) : option string :=
  if chainID =? 5042 then Some "ARC" else if chainID =? 5042002 then Some "ARC-TESTNET" else None.
Fixpoint without (c : ascii) (s : string) : string :=
  match s with "" => "" | String d r => if bool_decide (c = d) then without c r else String d (without c r) end.
Definition dash : ascii := "-".
Definition isUUID (s : string) : bool :=
  Nat.eqb (String.length s) 36 && forallb (λ i, bool_decide (String.get i s = Some dash)) [8; 13; 18; 23]%nat &&
  bool_decide (is_Some (hex_DecodeString (without dash s))).
(** [newUUIDv4] of sixteen random bytes. *)
Definition set_bits (i : nat) (mask bits : Z) (b : string) : string :=
  match String.get i b with
  | Some c => String.substring 0 i b +:+ String (chrZ (Z.lor (Z.land (byteZ c) mask) bits)) (String.substring (S i) (String.length b) b)
  | None => b
  end.
Definition uuid_of (b : string) : string :=
  let h := hex_EncodeToString (set_bits 8 63 128 (set_bits 6 15 64 b)) in
  String.substring 0 8 h +:+ "-" +:+ String.substring 8 4 h +:+ "-" +:+ String.substring 12 4 h +:+ "-" +:+
  String.substring 16 4 h +:+ "-" +:+ String.substring 20 12 h.
Definition random (n : nat) : cprog (option string) :=
  Ask (QRandom n) (λ r, Done (match r with RBytes b => Some b | _ => None end)).
Definition newUUIDv4 : cprog (option string) := b <~~ random 16 ;; Done (Some (uuid_of b)).

Record WalletInfo := MkWalletInfo {
  wi_ID : string; wi_Address : string; wi_Blockchain : string; wi_State : string; wi_CustodyType : string;
  wi_AccountType : string; wi_WalletSetID : string; wi_Name : string; wi_RefID : string }.
Definition wallet_of_json (v : jval) : option WalletInfo :=
  i ← dec_str "id" v; a ← dec_str "address" v; b ← dec_str "blockchain" v; s ← dec_str "state" v;
  c ← dec_str "custodyType" v; t ← dec_str "accountType" v; w ← dec_str "walletSetId" v;
  n ← dec_str "name" v; r ← dec_str "refId" v;
  Some (MkWalletInfo i a b s c t w n r).

Section Circle.
Context {PubKey : Type} (parse_public_key : string → option PubKey) (EncryptOAEP : PubKey → string → string → option string).
Context (base64 : string → string) (IsHexAddress : string → bool) (HexToAddress : string → string).

(** With the error Circle answered, and without. *)
Definition publicKeyE : cprog (result (option HTTPError) PubKey) :=
  bindQ (call "GET" "/v1/w3s/config/entity/publicKey" None) (λ r,
  Done (v ← r; match data_of (dec_str "publicKey") v ≫= parse_public_key with Some pub => Ok pub | None => Err None end)).
Definition publicKey : cprog (option PubKey) := bindQ publicKeyE (λ r, Done (to_option r)).
Definition wallet (id : string) : cprog (option WalletInfo) :=
  got <~~ calling "GET" ("/v1/w3s/wallets/" +:+ id) None (λ d, w ← dec_obj "wallet" d; wallet_of_json w) ;;
  Done (if bool_decide (wi_ID got = id) then Some got else None).
Definition encryptSecret (pub : PubKey) (secret : string) : cprog (option string) :=
  seed <~~ random 32 ;; ct <-? EncryptOAEP pub secret seed ;; Done (Some (base64 ct)).
Definition CheckLane (got : WalletInfo) (blockchain : string) : bool :=
  bool_decide (wi_Blockchain got = blockchain) && bool_decide (wi_State got = "LIVE") &&
  bool_decide (wi_CustodyType got = "DEVELOPER") && bool_decide (wi_AccountType got = "EOA") && IsHexAddress (wi_Address got).

(** ** The wallet lane *)
(** [w_opened] is what [Open] fills in. *)
Record Wallet := MkWallet {
  w_entitySecret : string; w_walletID : string; w_chainID : Z; w_opened : option (PubKey * string) }.
Definition newWallet (apiKey secretHex walletID : string) (chainID : Z) : option Wallet :=
  _ ← BlockchainFor chainID;
  if negb (api_key_shape apiKey) then None
  else secret ← ParseEntitySecret secretHex;
       if isUUID walletID then Some (MkWallet secret walletID chainID None) else None.
Definition CircleFromEnv (env : string → option string) (chainID : Z) : option Wallet :=
  apiKey ← set_in env EnvAPIKey; secretHex ← set_in env EnvEntitySecret; walletID ← set_in env EnvWalletID;
  newWallet (TrimSpace apiKey) (TrimSpace secretHex) (TrimSpace walletID) chainID.
Definition Open (w : Wallet) : cprog (option Wallet) :=
  pub <~~ publicKey ;;
  got <~~ wallet (w_walletID w) ;;
  Done (if CheckLane got (default "" (BlockchainFor (w_chainID w)))
        then Some (MkWallet (w_entitySecret w) (w_walletID w) (w_chainID w) (Some (pub, HexToAddress (wi_Address got)))) else None).
Definition WalletAddress (w : Wallet) : string := match w_opened w with Some (_, a) => a | None => zeroAddress end.

Definition execution_path : string := "/v1/w3s/developer/transactions/contractExecution".
Definition execution_body (w : Wallet) (key to calldata ciphertext : string) : jval :=
  JObj [("callData", JStr (data_hex calldata)); ("contractAddress", JStr to); ("entitySecretCiphertext", JStr ciphertext);
        ("feeLevel", JStr "MEDIUM"); ("idempotencyKey", JStr key); ("walletId", JStr (w_walletID w))].
Definition created_of_json (d : jval) : option string := id ← dec_str "id" d; _ ← dec_str "state" d; Some id.
Record CircleTx := MkCircleTx { ct_State : string; ct_TxHash : string }.
Definition transaction_of_json (d : jval) : option CircleTx :=
  t ← dec_obj "transaction" d; s ← dec_str "state" t; h ← dec_str "txHash" t; _ ← dec_str "errorReason" t; Some (MkCircleTx s h).
(** A state that a hash may be taken from. *)
Definition landed (state : string) : bool := bool_decide (state ∈ ["CONFIRMED"; "COMPLETE"; "FAILED"]).
Definition over (t : CircleTx) : bool :=
  bool_decide (ct_State t ∈ ["CANCELLED"; "DENIED"]) || bool_decide (ct_State t = "FAILED").
Definition q_transaction (id : string) : question := QCircle "GET" ("/v1/w3s/transactions/" +:+ id) None.
Fixpoint awaitHash (polls : nat) (id : string) : cprog (option string) :=
  Ask (q_transaction id) (λ r,
    match to_option (call_result r) ≫= data_of transaction_of_json with
    | None => Done None
    | Some t =>
      if landed (ct_State t) && negb (bool_decide (ct_TxHash t = "")) then Done (Some (ct_TxHash t))
      else if over t then Done None
      else match polls with
           | O => Done None
           | S polls => Ask QWait (λ w, match w with RWoken => awaitHash polls id | _ => Done None end)
           end
    end).
Definition Wallet_Submit (FromHex : string → string) (hashPolls polls : nat) (w : Wallet) (to calldata : string) : cprog (option Receipt) :=
  opened <-? w_opened w ;;
  ciphertext <~~ encryptSecret opened.1 (w_entitySecret w) ;;
  key <~~ newUUIDv4 ;;
  id <~~ calling "POST" execution_path (Some (execution_body w key to calldata ciphertext)) created_of_json ;;
  guardQ (negb (bool_decide (id = ""))) (
  txHash <~~ awaitHash hashPolls id ;;
  AwaitReceipt FromHex polls txHash).

(** ** Setup *)
Definition KeyEnvironment (apiKey : string) : string :=
  let p := (cut_at ":" (TrimSpace apiKey)).1 in
  if bool_decide (p = "TEST_API_KEY") then "testnet" else if bool_decide (p = "LIVE_API_KEY") then "mainnet" else "".
Definition AdminFromEnv (env : string → option string) : option string :=
  v ← set_in env EnvAPIKey; if api_key_shape (TrimSpace v) then Some (TrimSpace v) else None.
Definition Ping : cprog (option unit) := _ <~~ publicKey ;; Done (Some tt).
(** The error is kept: it says whether Circle refused. *)
Definition RegisterEntitySecret (secret : string) : cprog (result (option HTTPError) string) :=
  if negb (bool_decide (String.length secret = 32%nat)) then Done (Err None)
  else bindQ publicKeyE (λ r,
    match r with
    | Err e => Done (Err e)
    | Ok pub =>
      bindQ (encryptSecret pub secret) (λ o,
      match o with
      | None => Done (Err None)
      | Some ct =>
      bindQ (call "POST" "/v1/w3s/config/entity/entitySecret" (Some (JObj [("entitySecretCiphertext", JStr ct)]))) (λ r,
      Done (match r with
            | Err e => Err e
            | Ok v => match data_of (dec_str "recoveryFile") v with
                      | Some f => if bool_decide (f = "") then Err None else Ok f
                      | None => Err None
                      end
            end))
      end)
    end).
Definition Admin_Wallet (id : string) : cprog (option WalletInfo) := guardQ (isUUID id) (wallet id).
(** The values of a query are in the order of their keys. *)
Definition list_path (blockchain ref : string) : string :=
  "/v1/w3s/wallets?blockchain=" +:+ H3.QueryEscape blockchain +:+ "&pageSize=50&refId=" +:+ H3.QueryEscape ref.
Definition named (blockchain ref : string) (w : WalletInfo) : bool :=
  bool_decide (wi_Blockchain w = blockchain) && bool_decide (wi_RefID w = ref).
Definition WalletsByRef (blockchain ref : string) : cprog (option (list WalletInfo)) :=
  ws <~~ calling "GET" (list_path blockchain ref) None (dec_list "wallets" wallet_of_json) ;;
  Done (Some (filter (λ w, named blockchain ref w = true) ws)).
Record TokenBalance := MkTokenBalance { tb_Amount : string; tb_Symbol : string; tb_IsNative : bool; tb_TokenAddress : string }.
Definition balance_of_json (v : jval) : option TokenBalance :=
  a ← dec_str "amount" v; t ← dec_obj "token" v; s ← dec_str "symbol" t; n ← dec_bool "isNative" t; x ← dec_str "tokenAddress" t;
  Some (MkTokenBalance a s n x).
Definition Balances (id : string) : cprog (option (list TokenBalance)) :=
  calling "GET" ("/v1/w3s/wallets/" +:+ id +:+ "/balances") None (dec_list "tokenBalances" balance_of_json).

Definition sets_path : string := "/v1/w3s/developer/walletSets".
Definition wallets_path : string := "/v1/w3s/developer/wallets".
Definition createWalletSet (secret name : string) : cprog (option string) :=
  pub <~~ publicKey ;;
  ct <~~ encryptSecret pub secret ;;
  key <~~ newUUIDv4 ;;
  id <~~ calling "POST" sets_path
           (Some (JObj [("entitySecretCiphertext", JStr ct); ("idempotencyKey", JStr key); ("name", JStr name)]))
           (λ d, s ← dec_obj "walletSet" d; dec_str "id" s) ;;
  Done (if isUUID id then Some id else None).
Record Role := MkRole { ro_Name : string; ro_RefID : string; ro_Env : string }.
Definition Roles : list Role :=
  [MkRole "snapfall-treasury" "snapfall-treasury" EnvWalletID; MkRole "snapfall-relayer" "snapfall-relayer" "CIRCLE_BROADCASTER_WALLET_ID"].
Definition wallet_body (setID blockchain ct key : string) (role : Role) : jval :=
  JObj [("accountType", JStr "EOA"); ("blockchains", JArr [JStr blockchain]); ("count", JInt 1); ("entitySecretCiphertext", JStr ct);
        ("idempotencyKey", JStr key); ("metadata", JArr [JObj [("name", JStr (ro_Name role)); ("refId", JStr (ro_RefID role))]]);
        ("walletSetId", JStr setID)].
Definition createWallet (secret setID blockchain : string) (role : Role) : cprog (option WalletInfo) :=
  pub <~~ publicKey ;;
  ct <~~ encryptSecret pub secret ;;
  key <~~ newUUIDv4 ;;
  ws <~~ calling "POST" wallets_path (Some (wallet_body setID blockchain ct key role)) (dec_list "wallets" wallet_of_json) ;;
  Done (match ws with [w] => if isUUID (wi_ID w) then Some w else None | _ => None end).
Record Provisioned := MkProvisioned { pv_Role : Role; pv_Wallet : WalletInfo; pv_Created : bool }.
(** The first pass: the wallet each role already has, and the set of the first. *)
Fixpoint find_wallets (blockchain : string) (roles : list Role) (setID : string) : cprog (option (list (option WalletInfo) * string)) :=
  match roles with
  | [] => Done (Some ([], setID))
  | r :: rest =>
    ws <~~ WalletsByRef blockchain (ro_RefID r) ;;
    match ws with
    | [] => found <~~ find_wallets blockchain rest setID ;; Done (Some (None :: found.1, found.2))
    | [w] =>
      guardQ (CheckLane w blockchain) (
      found <~~ find_wallets blockchain rest (if bool_decide (setID = "") then wi_WalletSetID w else setID) ;;
      Done (Some (Some w :: found.1, found.2)))
    | _ => Done None
    end
  end.
(** The second pass: what was provisioned is returned with an error too. *)
Fixpoint make_wallets (secret blockchain setID : string) (out : list Provisioned) (roles : list Role) (found : list (option WalletInfo)) :
    cprog (list Provisioned * bool) :=
  match roles, found with
  | r :: roles, Some w :: found => make_wallets secret blockchain setID (out ++ [MkProvisioned r w false]) roles found
  | r :: roles, None :: found =>
    bindQ (if bool_decide (setID = "") then createWalletSet secret "snapfall" else Done (Some setID)) (λ o,
    match o with
    | None => Done (out, false)
    | Some setID =>
      bindQ (createWallet secret setID blockchain r) (λ o,
      match o with
      | None => Done (out, false)
      | Some w =>
        if CheckLane w blockchain then make_wallets secret blockchain setID (out ++ [MkProvisioned r w true]) roles found
        else Done (out, false)
      end)
    end)
  | _, _ => Done (out, true)
  end.
Definition EnsureWallets (secret blockchain : string) (roles : list Role) : cprog (list Provisioned * bool) :=
  if negb (bool_decide (String.length secret = 32%nat)) then Done ([], false)
  else bindQ (find_wallets blockchain roles "") (λ o,
       match o with
       | None => Done ([], false)
       | Some (found, setID) => make_wallets secret blockchain setID [] roles found
       end).
End Circle.
Arguments MkWallet {PubKey}. Arguments w_opened {PubKey}. Arguments w_walletID {PubKey}. Arguments w_chainID {PubKey}. Arguments w_entitySecret {PubKey}.

(** ** What is written *)
Definition is_post (q : question) : bool := match q with QCircle m _ _ => bool_decide (m = "POST") | _ => false end.
Definition is_write (q : question) : bool := is_send q || is_post q.
Definition writes (l : list (question * reply)) : list (question * reply) := filter (λ p, is_write p.1 = true) l.
Lemma writes_app l1 l2 : writes (l1 ++ l2) = writes l1 ++ writes l2.
Proof. apply filter_app. Qed.
Abbreviation reads := (asks_only (λ q, is_write q = false)).
Lemma no_writes l : Forall (λ p, is_write p.1 = false) l → writes l = [].
Proof.
  induction 1 as [|p l Hp _ IH]; [done|]. unfold writes. rewrite filter_cons, decide_False; [exact IH|]. by rewrite Hp.
Qed.
Lemma reads_run {A S} (answer : question → S → S * reply) (p : cprog A) s s' a l : reads p → serve answer p s = (s', a, l) → writes l = [].
Proof. intros Hp Hs. apply no_writes. by eapply (serve_asks (λ q, is_write q = false)). Qed.

Section Reads.
Context {PubKey : Type} (parse_public_key : string → option PubKey) (EncryptOAEP : PubKey → string → string → option string).
Context (base64 : string → string) (IsHexAddress : string → bool) (HexToAddress : string → string) (FromHex : string → string).
Lemma reads_get {A} path (dec : jval → option A) : reads (calling "GET" path None dec).
Proof. done. Qed.
Lemma reads_publicKey : reads (publicKey parse_public_key).
Proof. done. Qed.
Lemma reads_encrypt pub secret : reads (encryptSecret EncryptOAEP base64 pub secret).
Proof. apply asks_try; [done|]. intros seed. by apply asks_let. Qed.
Lemma reads_uuid : reads newUUIDv4.
Proof. by apply asks_try. Qed.
Lemma reads_wallet id : reads (wallet id).
Proof. by apply asks_try. Qed.
Lemma reads_open w : reads (Open parse_public_key IsHexAddress HexToAddress w).
Proof. apply asks_try; [done|]. intros pub. apply asks_try; [apply reads_wallet|done]. Qed.
Lemma reads_awaitHash polls id : reads (awaitHash polls id).
Proof.
  induction polls as [|polls IH]; (split; [done|]; intros r; destruct (_ ≫= _) as [t|]; [|done]; destruct (_ && _); [done|]; destruct (over t); [done|]); [done|].
  split; [done|]. by intros [].
Qed.
Lemma reads_AwaitReceipt polls h : reads (AwaitReceipt FromHex polls h).
Proof.
  induction polls as [|polls IH]; (split; [done|]; intros r; destruct (rpc_result r) as [[v|]|]; try done). split; [done|]. by intros [].
Qed.
End Reads.

(** Opening fills in what Circle described of this very wallet. *)
Lemma open_run {PubKey S} (parse_public_key : string → option PubKey) IsHexAddress HexToAddress (answer : question → S → S * reply)
    (w w' : Wallet (PubKey := PubKey)) s s' l :
  serve answer (Open parse_public_key IsHexAddress HexToAddress w) s = (s', Some w', l) →
  ∃ pub got r, w' = MkWallet (w_entitySecret w) (w_walletID w) (w_chainID w) (Some (pub, HexToAddress (wi_Address got))) ∧
    CheckLane IsHexAddress got (default "" (BlockchainFor (w_chainID w))) = true ∧
    (QCircle "GET" ("/v1/w3s/wallets/" +:+ w_walletID w) None, r) ∈ l ∧
    to_option (call_result r) ≫= data_of (λ d, w ← dec_obj "wallet" d; wallet_of_json w) = Some got ∧ wi_ID got = w_walletID w.
Proof.
  unfold Open. intros H. apply serve_try in H as [[_ [=]]|(pub & s1 & l1 & l2 & _ & H & ->)].
  apply serve_try in H as [[_ [=]]|(got & s2 & l3 & l4 & H2 & H & ->)]. unfold wallet, tryQ, calling in H2. cbn [bindQ serve] in H2.
  destruct (answer _ s1) as [s3 r]. cbn [bindQ serve] in H2.
  destruct (to_option (call_result r) ≫= _) as [got'|] eqn:Eg; cbn [serve] in H2; [|done]. injection H2 as <- Hid <-.
  case_bool_decide as Ei; [|done]. injection Hid as ->. injection H as _ Hw _. destruct (CheckLane _ _ _) eqn:Ec; [|done]. injection Hw as <-.
  exists pub, got, r. split_and!; try done. apply elem_of_app. right. by left.
Qed.

(** ** A submission through Circle *)
Section Submission.
Context {PubKey : Type} (EncryptOAEP : PubKey → string → string → option string) (base64 FromHex : string → string).
Context {S : Type} (answer : question → S → S * reply).
(** Circle has said of transaction [id] that it landed under [txHash]. *)
Definition landed_as (id txHash : string) (l : list (question * reply)) : Prop :=
  ∃ r t, (q_transaction id, r) ∈ l ∧ to_option (call_result r) ≫= data_of transaction_of_json = Some t ∧
    ct_TxHash t = txHash ∧ txHash ≠ "" ∧ ct_State t ∈ ["CONFIRMED"; "COMPLETE"; "FAILED"].
Lemma awaitHash_run polls id : ∀ s s' o l, serve answer (awaitHash polls id) s = (s', o, l) → ∀ h, o = Some h → landed_as id h l.
Proof.
  induction polls as [|polls IH]; intros s s' o l; cbn [awaitHash serve]; destruct (answer (q_transaction id) s) as [s1 r];
    destruct (to_option (call_result r) ≫= data_of transaction_of_json) as [t|] eqn:Et; cbn [serve]; try (by intros [= <- <- <-]);
    destruct (landed (ct_State t) && negb (bool_decide (ct_TxHash t = ""))) eqn:El; cbn [serve].
  1, 3: intros [= <- <- <-] h [= <-]; apply andb_true_iff in El as [El%bool_decide_eq_true Eh%negb_true_iff%bool_decide_eq_false];
    exists r, t; split_and!; try done; by left.
  all: destruct (over t); cbn [serve]; try (by intros [= <- <- <-]).
  destruct (answer QWait s1) as [s2 w]. destruct w as [|? ?|?| |]; cbn [serve]; try (by intros [= <- <- <-]).
  destruct (serve answer (awaitHash polls id) s2) as [[s3 o3] l3] eqn:E3. intros [= <- <- <-] h Hh.
  destruct (IH _ _ _ _ E3 h Hh) as (r0 & t0 & Hin & Ht0). exists r0, t0. split; [do 2 right; done|done].
Qed.
(** What follows the creation of a transaction. *)
Lemma outcome_run hashPolls polls id s s' out l :
  serve answer (guardQ (negb (bool_decide (id = ""))) (txHash <~~ awaitHash hashPolls id ;; AwaitReceipt FromHex polls txHash)) s = (s', out, l) →
  writes l = [] ∧ ∀ rc, out = Some rc → ∃ h la lb, l = la ++ lb ∧ landed_as id h la ∧ receipt_told FromHex h rc lb.
Proof.
  unfold guardQ. destruct (negb _); [|by intros [= <- <- <-]].
  intros [[H ->]|(h & s1 & la & lb & H1 & H & ->)]%serve_try; [split; [|done]; eapply reads_run; [|exact H]; apply reads_awaitHash|].
  split; [rewrite writes_app, (reads_run _ _ _ _ _ _ (reads_awaitHash hashPolls id) H1); eapply reads_run; [|exact H]; apply reads_AwaitReceipt|].
  pose proof (awaitHash_run _ _ _ _ _ _ H1 h eq_refl) as Hl. apply AwaitReceipt_run in H as (_ & _ & Hrc). intros rc Hout. exists h, la, lb. auto.
Qed.
Lemma encrypt_run pub secret s s' ct l : serve answer (encryptSecret EncryptOAEP base64 pub secret) s = (s', Some ct, l) →
  ∃ seed c, EncryptOAEP pub secret seed = Some c ∧ ct = base64 c.
Proof.
  intros [[_ [=]]|(seed & ? & ? & ? & _ & H1 & _)]%serve_try.
  apply serve_let in H1 as [(_ & _ & [=] & _)|(c & Hc & H1)]. injection H1 as _ <- _. by exists seed, c.
Qed.
Lemma post_run {A} path body (dec : jval → option A) s s' o l : serve answer (calling "POST" path body dec) s = (s', o, l) →
  ∃ r, l = [(QCircle "POST" path body, r)] ∧ o = to_option (call_result r) ≫= data_of dec.
Proof. cbn. destruct (answer _ s) as [s1 r]. intros [= <- <- <-]. by exists r. Qed.
(** Circle signs the one call, and the chain decides.  A lane that was
    never opened asks nothing.  Otherwise one submission makes at most one
    request that changes anything, the execution of exactly this call by this
    wallet, authorized by its own entity secret under the key it was opened
    with; and an outcome is the node's receipt of a hash Circle reported for
    the transaction it created, in a state that can have landed.  No raw key
    signs anything. *)
Lemma circle_executes_the_call hashPolls polls w to calldata s s' out l :
  serve answer (Wallet_Submit EncryptOAEP base64 FromHex hashPolls polls w to calldata) s = (s', out, l) →
  (w_opened w = None → l = []) ∧
  ((writes l = [] ∧ out = None) ∨
   ∃ pub addr seed ct key r, w_opened w = Some (pub, addr) ∧ EncryptOAEP pub (w_entitySecret w) seed = Some ct ∧
     writes l = [(QCircle "POST" execution_path (Some (execution_body w key to calldata (base64 ct))), r)] ∧
     ∀ rc, out = Some rc → ∃ id txHash, to_option (call_result r) ≫= data_of created_of_json = Some id ∧ landed_as id txHash l ∧
       rt_TxHash rc = txHash ∧ ∃ ans v st, (q_receipt txHash, ans) ∈ l ∧ rpc_result ans = Some (Some v) ∧ dec_str "status" v = Some st ∧
         (rt_Reverted rc = true ↔ quantity FromHex st = 0)).
Proof.
  unfold Wallet_Submit. intros H. apply serve_let in H as [(-> & _ & -> & ->)|([pub addr] & -> & H)]; [split; [done|by left]|].
  split; [done|]. cbn [fst] in H. apply serve_try in H as [[H ->]|(ct & s1 & l1 & l2 & H1 & H & ->)].
  { left. split; [|done]. eapply reads_run; [|exact H]. apply reads_encrypt. }
  pose proof (reads_run _ _ _ _ _ _ (reads_encrypt EncryptOAEP base64 pub _) H1) as W1.
  apply serve_try in H as [[H ->]|(key & s2 & l3 & l4 & H2 & H & ->)].
  { left. split; [|done]. rewrite writes_app, W1. eapply reads_run; [apply reads_uuid|exact H]. }
  pose proof (reads_run _ _ _ _ _ _ reads_uuid H2) as W2. apply encrypt_run in H1 as (seed & c & Hc & ->).
  right. exists pub, addr, seed, c, key.
  apply serve_try in H as [[H ->]|(id & s3 & l5 & l6 & H3 & H & ->)].
  { apply post_run in H as (r & -> & _). exists r. split_and!; try done. by rewrite !writes_app, W1, W2. }
  apply post_run in H3 as (r & -> & Hid). exists r. do 2 (split; [done|]).
  apply outcome_run in H as [W6 Hout]. split; [by rewrite !writes_app, W1, W2, W6|].
  intros rc Hrc. destruct (Hout rc Hrc) as (h & la & lb & -> & Hl & Ht). apply receipt_told_status in Ht as (Hh & ans & v & st & Hin & Hr & Hst & Hiff).
  exists id, h. split; [done|]. split; [|split; [done|]].
  - destruct Hl as (r0 & t0 & Hin0 & Ht0). exists r0, t0. split; [|done]. do 3 (apply elem_of_app; right). apply elem_of_app. by left.
  - exists ans, v, st. split; [|done]. do 4 (apply elem_of_app; right). done.
Qed.
End Submission.

(** ** Setup does not make a role's wallet twice *)
(** An account of Circle's: its wallets change only when one is created, a
    listing of a name is the wallets of that name among whatever else it shows,
    and a creation makes one wallet of the name that was asked for, or fails,
    before or after having made it. *)
Class Account {S} (answer : question → S → S * reply) (wallets : S → list WalletInfo) (blockchain : string) : Prop := {
  acc_other q s : (∀ b, q ≠ QCircle "POST" wallets_path b) → wallets (answer q s).1 = wallets s;
  acc_list ref s ws :
    to_option (call_result (answer (QCircle "GET" (list_path blockchain ref) None) s).2) ≫= data_of (dec_list "wallets" wallet_of_json) = Some ws →
    filter (λ w, named blockchain ref w = true) ws = filter (λ w, named blockchain ref w = true) (wallets s);
  acc_create setID ct key role s :
    let post := answer (QCircle "POST" wallets_path (Some (wallet_body setID blockchain ct key role))) s in
    (∃ w, wallets post.1 = wallets s ++ [w] ∧ named blockchain (ro_RefID role) w = true ∧
      ∀ ws, to_option (call_result post.2) ≫= data_of (dec_list "wallets" wallet_of_json) = Some ws → ws = [w]) ∨
    (wallets post.1 = wallets s ∧ to_option (call_result post.2) ≫= data_of (dec_list "wallets" wallet_of_json) = None) }.

Section Ensured.
Context {PubKey : Type} (parse_public_key : string → option PubKey) (EncryptOAEP : PubKey → string → string → option string).
Context (base64 : string → string) (IsHexAddress : string → bool).
Context {S : Type} (answer : question → S → S * reply) (wallets : S → list WalletInfo) (blockchain : string).
Context {Hacc : Account answer wallets blockchain}.
Abbreviation CheckLane := (CheckLane IsHexAddress).
Abbreviation find_wallets := (find_wallets IsHexAddress blockchain).
Abbreviation make_wallets secret := (make_wallets parse_public_key EncryptOAEP base64 IsHexAddress secret blockchain).
Abbreviation EnsureWallets secret := (EnsureWallets parse_public_key EncryptOAEP base64 IsHexAddress secret blockchain).

Definition of_role (ws : list WalletInfo) (r : Role) : list WalletInfo := filter (λ w, named blockchain (ro_RefID r) w = true) ws.
(** What the first pass found of a role. *)
Definition seen_as (ws : list WalletInfo) (r : Role) (o : option WalletInfo) : Prop :=
  match o with None => of_role ws r = [] | Some w => of_role ws r = [w] ∧ CheckLane w blockchain = true end.
Lemma not_a_creation q : is_post q = false → ∀ b, q ≠ QCircle "POST" wallets_path b.
Proof. by intros H b ->. Qed.
Lemma wallets_kept {A} (p : cprog A) : asks_only (λ q, ∀ b, q ≠ QCircle "POST" wallets_path b) p → ∀ s s' a l,
  serve answer p s = (s', a, l) → wallets s' = wallets s.
Proof using Hacc.
  induction p as [a|q k IH]; intros Hp s s' a' l; cbn; [by intros [= <- <- <-]|]. destruct Hp as [Hq Hk].
  pose proof (acc_other q s Hq) as Hw. destruct (answer q s) as [s1 r]. destruct (serve answer (k r) s1) as [[s2 a2] l0] eqn:E.
  intros [= <- <- <-]. cbn [fst] in Hw. by rewrite (IH r (Hk r) _ _ _ _ E).
Qed.
Lemma of_role_snoc ws w r r0 : named blockchain (ro_RefID r0) w = true →
  of_role (ws ++ [w]) r = of_role ws r ++ (if bool_decide (ro_RefID r = ro_RefID r0) then [w] else []).
Proof.
  intros Hw. unfold of_role. rewrite filter_app. f_equal. unfold named in *. apply andb_true_iff in Hw as [Hb%bool_decide_eq_true Hr%bool_decide_eq_true].
  rewrite filter_cons, filter_nil, Hb, Hr. destruct (decide (ro_RefID r = ro_RefID r0)) as [He|He].
  - rewrite decide_True, bool_decide_true; [done..|]. by rewrite He, !bool_decide_true.
  - rewrite decide_False, bool_decide_false; [done..|]. intros [_ H%bool_decide_eq_true]%andb_true_iff. congruence.
Qed.
Lemma list_run ref s s' o l : serve answer (WalletsByRef blockchain ref) s = (s', o, l) → wallets s' = wallets s ∧ writes l = [] ∧
  ∀ ws, o = Some ws → ws = filter (λ w, named blockchain ref w = true) (wallets s).
Proof using Hacc.
  intros H. unfold WalletsByRef in H. cbn in H. pose proof (acc_other (QCircle "GET" (list_path blockchain ref) None) s ltac:(done)) as Hk.
  pose proof (acc_list ref s) as Hl. destruct (answer _ s) as [s1 r]. cbn [fst snd] in *.
  destruct (to_option (call_result r) ≫= data_of (dec_list "wallets" wallet_of_json)) as [ws|] eqn:E; cbn in H; injection H as <- <- <-;
    (split; [done|split; [reflexivity|]]); [|done]. intros ? [= <-]. by apply Hl.
Qed.
Lemma find_run roles : ∀ setID s s' o l, serve answer (find_wallets roles setID) s = (s', o, l) →
  wallets s' = wallets s ∧ writes l = [] ∧ ∀ found set, o = Some (found, set) → Forall2 (seen_as (wallets s)) roles found.
Proof using Hacc.
  induction roles as [|r roles IH]; intros setID s s' o l H; [by injection H as <- <- <-; split_and!; [..|intros ? ? [= <- _]]|].
  cbn [Circle.find_wallets] in H. apply serve_try in H as [[H ->]|(ws & s1 & l1 & l2 & H1 & H & ->)]; [by apply list_run in H as (-> & -> & _)|].
  apply list_run in H1 as (Hk1 & W1 & Hws). specialize (Hws ws eq_refl). fold (of_role (wallets s) r) in Hws.
  destruct ws as [|w [|w' ws]].
  - apply serve_try in H as [[H ->]|([found' set'] & s2 & l3 & l4 & H2 & H & ->)].
    { apply IH in H as (-> & W & _). by rewrite Hk1, writes_app, W1, W. }
    injection H as <- <- <-. apply IH in H2 as (Hk2 & W2 & Hf). rewrite Hk1 in Hk2. split_and!; [done|by rewrite !writes_app, W1, W2|].
    intros ? ? [= <- _]. constructor; [by unfold seen_as|]. rewrite <-Hk1. by eapply Hf.
  - unfold guardQ in H. destruct (CheckLane w blockchain) eqn:Ec; [|injection H as <- <- <-; by rewrite writes_app, W1].
    apply serve_try in H as [[H ->]|([found' set'] & s2 & l3 & l4 & H2 & H & ->)].
    { apply IH in H as (-> & W & _). by rewrite Hk1, writes_app, W1, W. }
    injection H as <- <- <-. apply IH in H2 as (Hk2 & W2 & Hf). rewrite Hk1 in Hk2. split_and!; [done|by rewrite !writes_app, W1, W2|].
    intros ? ? [= <- _]. constructor; [by unfold seen_as|]. rewrite <-Hk1. by eapply Hf.
  - injection H as <- <- <-. by rewrite writes_app, W1.
Qed.
(** One creation. *)
Lemma create_run secret setID r s s' o l :
  serve answer (createWallet parse_public_key EncryptOAEP base64 secret setID blockchain r) s = (s', o, l) →
  (∃ w, wallets s' = wallets s ++ [w] ∧ named blockchain (ro_RefID r) w = true ∧ ∀ w', o = Some w' → w' = w) ∨
  (wallets s' = wallets s ∧ o = None).
Proof using Hacc.
  assert (Hr : ∀ A (p : cprog A) s s' a l, reads p → serve answer p s = (s', a, l) → wallets s' = wallets s).
  { clear -Hacc. intros A p s s' a l Hp. apply wallets_kept. induction p as [|q k IH]; [done|]. destruct Hp as [Hq Hk]. split; [|auto].
    apply not_a_creation. by apply orb_false_iff in Hq as [_ ?]. }
  unfold createWallet. intros H. apply serve_try in H as [[H ->]|(pub & s1 & l1 & l2 & H1 & H & ->)]; [right; split; [|done]; by eapply Hr; [|exact H]|].
  apply serve_try in H as [[H ->]|(ct & s2 & l3 & l4 & H2 & H & ->)]; [right; split; [|done]|];
    (eapply Hr in H1; [|done]); [eapply Hr in H; [|apply reads_encrypt]; congruence|].
  eapply Hr in H2; [|apply reads_encrypt].
  apply serve_try in H as [[H ->]|(key & s3 & l5 & l6 & H3 & H & ->)]; [right; split; [|done]; eapply Hr in H; [|apply reads_uuid]; congruence|].
  eapply Hr in H3; [|apply reads_uuid]. unfold tryQ, calling in H. cbn in H. pose proof (acc_create setID ct key r s3) as Hc. cbn zeta in Hc.
  destruct (answer _ s3) as [s4 rep]. cbn [fst snd] in Hc. rewrite H3, H2, H1 in Hc.
  destruct (to_option (call_result rep) ≫= data_of (dec_list "wallets" wallet_of_json)) as [ws|]; cbn in H; injection H as <- <- _.
  - destruct Hc as [(w & Hw & Hn & Hws)|[_ [=]]]. left. exists w. split; [done|]. split; [done|]. rewrite (Hws _ eq_refl).
    intros w'. destruct (isUUID (wi_ID w)); [by intros [= <-]|done].
  - destruct Hc as [(w & Hw & Hn & _)|[Hw _]]; [left; by exists w|by right].
Qed.
(** What the second pass leaves of the roles, and what it hands out. *)
Definition provided (ws : list WalletInfo) (r : Role) (p : Provisioned) : Prop :=
  pv_Role p = r ∧ of_role ws r = [pv_Wallet p] ∧ CheckLane (pv_Wallet p) blockchain = true.
Definition at_most_one (ws : list WalletInfo) (roles : list Role) : Prop := ∀ r, r ∈ roles → (length (of_role ws r) ≤ 1)%nat.
Lemma seen_one ws r o : seen_as ws r o → (length (of_role ws r) ≤ 1)%nat.
Proof. destruct o as [w|]; [intros [-> _]|intros ->]; cbn; lia. Qed.
Lemma seen_at_most_one ws roles found : Forall2 (seen_as ws) roles found → at_most_one ws roles.
Proof. intros Hf r Hr. apply list_elem_of_lookup in Hr as [i Hi]. destruct (Forall2_lookup_l _ _ _ _ _ Hf Hi) as (o & _ & Ho). by eapply seen_one. Qed.
(** A step that leaves the roles of [roles] alone. *)
Definition same_roles (ws ws' : list WalletInfo) (roles : list Role) : Prop := ∀ r, r ∈ roles → of_role ws' r = of_role ws r.
Lemma seen_same ws ws' roles found : same_roles ws ws' roles → Forall2 (seen_as ws) roles found → Forall2 (seen_as ws') roles found.
Proof.
  intros Hs Hf. induction Hf as [|r o roles found Ho _ IH]; constructor; [|by apply IH; intros x Hx; apply Hs; right].
  unfold seen_as in *. rewrite (Hs r) by by left. done.
Qed.
Definition others_kept (ws ws' : list WalletInfo) (roles : list Role) : Prop :=
  ∀ x, ro_RefID x ∉ ro_RefID <$> roles → of_role ws' x = of_role ws x.
Lemma created_kept ws w r : named blockchain (ro_RefID r) w = true → others_kept ws (ws ++ [w]) [r].
Proof.
  intros Hw x Hn. rewrite (of_role_snoc _ _ _ r Hw), bool_decide_false, app_nil_r; [done|]. intros He. apply Hn. rewrite He. by left.
Qed.
Lemma kept_same ws ws' r roles : others_kept ws ws' [r] → ro_RefID r ∉ ro_RefID <$> roles → same_roles ws ws' roles.
Proof.
  intros Hk Hr x Hx. apply Hk. cbn. intros He%list_elem_of_singleton. apply Hr. rewrite <-He. by apply list_elem_of_fmap_2.
Qed.
Lemma kept_cons ws1 ws2 ws3 r roles : others_kept ws1 ws2 [r] → others_kept ws2 ws3 roles → others_kept ws1 ws3 (r :: roles).
Proof.
  intros H1 H2 x. rewrite fmap_cons, not_elem_of_cons. intros [Hx Hn]. rewrite (H2 x Hn). apply H1. cbn. by rewrite list_elem_of_singleton.
Qed.
Lemma one_cons ws r roles found : (length (of_role ws r) ≤ 1)%nat → Forall2 (seen_as ws) roles found → at_most_one ws (r :: roles).
Proof. intros H1 Hf x [->|Hx]%elem_of_cons; [done|]. by eapply seen_at_most_one. Qed.
(** The set, when it is missing, and one role's wallet. *)
Lemma set_run secret setID s s' o l :
  serve answer (if bool_decide (setID = "") then createWalletSet parse_public_key EncryptOAEP base64 secret "snapfall" else Done (Some setID)) s = (s', o, l) →
  wallets s' = wallets s.
Proof using Hacc.
  case_bool_decide; [|by intros [= <- _ _]]. apply wallets_kept. apply asks_try; [done|]. intros pub.
  apply asks_try; [apply asks_try; [done|]; intros; by apply asks_let|]. intros ct. apply asks_try; [by apply asks_try|]. intros key.
  apply asks_try; [|done]. split; [|done]. by intros b [=].
Qed.
Lemma make_run secret roles : ∀ setID out found s s' out' ok l, NoDup (ro_RefID <$> roles) → Forall2 (seen_as (wallets s)) roles found →
  serve answer (make_wallets secret setID out roles found) s = (s', (out', ok), l) →
  at_most_one (wallets s') roles ∧ others_kept (wallets s) (wallets s') roles ∧
  (ok = true → ∃ new, out' = out ++ new ∧ Forall2 (provided (wallets s')) roles new).
Proof using Hacc.
  induction roles as [|r roles IH]; intros setID out found s s' out' ok l Hnd Hf; inversion Hf as [|? o ? found' Ho Hf']; subst; clear Hf; cbn [Circle.make_wallets].
  { intros [= <- <- <- _]. split_and!; [by intros ? ?%not_elem_of_nil|done|]. intros _. exists []. by rewrite app_nil_r. }
  rewrite fmap_cons in Hnd. apply NoDup_cons in Hnd as [Hr Hnd].
  (* the rest, once the role has its wallet *)
  assert (Hrest : ∀ setID s1 l w made, others_kept (wallets s) (wallets s1) [r] → of_role (wallets s1) r = [w] → CheckLane w blockchain = true →
    serve answer (make_wallets secret setID (out ++ [MkProvisioned r w made]) roles found') s1 = (s', (out', ok), l) →
    at_most_one (wallets s') (r :: roles) ∧ others_kept (wallets s) (wallets s') (r :: roles) ∧
    (ok = true → ∃ new, out' = out ++ new ∧ Forall2 (provided (wallets s')) (r :: roles) new)).
  { intros set s1 l' w made Hk Hw Hc H. apply IH in H as (Hone & Hoth & Hok); [|done|eapply seen_same; [by eapply kept_same|done]].
    split_and!; [intros x [->|Hx]%elem_of_cons; [by rewrite (Hoth r Hr), Hw|by apply Hone]|by eapply kept_cons|].
    intros (new & -> & Hall)%Hok. exists (MkProvisioned r w made :: new). split; [by rewrite <-app_assoc|]. constructor; [|done].
    split_and!; [done|by rewrite (Hoth r Hr)|done]. }
  destruct o as [w|]; cbn in Ho; [destruct Ho as [Ho Hc]; by apply Hrest|].
  intros H. apply serve_bind in H as (oset & s1 & l1 & l2 & H1 & H & ->). apply set_run in H1.
  destruct oset as [set|]; [|injection H as <- <- <- _; rewrite H1; split_and!; [eapply one_cons; [by rewrite Ho; cbn; lia|done]|done|done]].
  apply serve_bind in H as (ow & s2 & l3 & l4 & H2 & H & ->). apply create_run in H2 as [(w & Hw & Hn & How)|[Hw ->]]; rewrite H1 in Hw;
    [|injection H as <- <- <- _; rewrite Hw; split_and!; [eapply one_cons; [by rewrite Ho; cbn; lia|done]|done|done]].
  pose proof (created_kept (wallets s) w r Hn) as Hk. rewrite <-Hw in Hk.
  assert (Hnew : of_role (wallets s2) r = [w]) by (rewrite Hw, (of_role_snoc _ _ _ r Hn), Ho; by rewrite bool_decide_true).
  assert (Hhalt : at_most_one (wallets s2) (r :: roles) ∧ others_kept (wallets s) (wallets s2) (r :: roles)).
  { split; [eapply one_cons; [by rewrite Hnew; cbn; lia|eapply seen_same; [by eapply kept_same|done]]|].
    intros x Hx. apply Hk. cbn in Hx |- *. rewrite not_elem_of_cons in Hx. rewrite list_elem_of_singleton. tauto. }
  destruct ow as [w'|]; [|injection H as <- <- <- _; destruct Hhalt; by split_and!]. rewrite (How w' eq_refl) in *.
  destruct (CheckLane w blockchain) eqn:Ec; [|injection H as <- <- <- _; destruct Hhalt; by split_and!]. by eapply Hrest.
Qed.
Lemma make_reuses secret setID roles : ∀ out ws, length ws = length roles →
  make_wallets secret setID out roles (Some <$> ws) = Done (out ++ zip_with (λ r w, MkProvisioned r w false) roles ws, true).
Proof.
  induction roles as [|r roles IH]; intros out [|w ws] Hl; try done; [cbn; by rewrite app_nil_r|]. cbn. rewrite IH by (cbn in Hl; lia). by rewrite <-app_assoc.
Qed.
(** C25: the setup can be run again.  Against an account whose creations may
    fail before or after they happened, a run in which no role had two wallets
    leaves no role with two, wherever it stops; a run that finishes hands out,
    for every role, the one wallet of its name, and each of them may sign for
    the lane; and from then on a further run with any secret creates nothing,
    and if it finishes hands out the same wallets. *)
Theorem setup_is_rerun_safe secret roles s s' out ok l : NoDup (ro_RefID <$> roles) → at_most_one (wallets s) roles →
  serve answer (EnsureWallets secret roles) s = (s', (out, ok), l) →
  at_most_one (wallets s') roles ∧
  (ok = true → Forall2 (provided (wallets s')) roles out ∧
    ∀ secret2 s2 s3 out2 ok2 l2, same_roles (wallets s') (wallets s2) roles → serve answer (EnsureWallets secret2 roles) s2 = (s3, (out2, ok2), l2) →
      writes l2 = [] ∧ (ok2 = true → out2 = (λ p, MkProvisioned (pv_Role p) (pv_Wallet p) false) <$> out)).
Proof using Hacc.
  intros Hnd Hone H. unfold Circle.EnsureWallets in H. destruct (negb _); [by injection H as <- <- <- _|].
  apply serve_bind in H as (o & s1 & l1 & l2 & H1 & H & ->). apply find_run in H1 as (Hk & _ & Hf). rewrite <-Hk in *.
  destruct o as [[found set]|]; [|by injection H as <- <- <- _]. specialize (Hf found set eq_refl).
  apply make_run in H as (Hone' & _ & Hok); [|done|done]. split; [done|]. intros (new & -> & Hall)%Hok. cbn [app]. split; [done|].
  intros secret2 s2 s3 out2 ok2 l3 Hs H. unfold Circle.EnsureWallets in H. destruct (negb _); [by injection H as <- <- <- <-|].
  apply serve_bind in H as (o2 & s4 & la & lb & H4 & H & ->). apply find_run in H4 as (_ & W & Hf2).
  destruct o2 as [[found2 set2]|]; [|injection H as <- <- <- <-; by rewrite writes_app, W]. specialize (Hf2 found2 set2 eq_refl).
  assert (Hfound : found2 = Some <$> (pv_Wallet <$> new)).
  { clear -Hs Hall Hf2. revert found2 Hf2. induction Hall as [|r p roles new (_ & Hp & _) _ IH]; intros found2 Hf2; inversion Hf2 as [|? o ? found3 Ho Hf3]; subst; [done|].
    cbn. rewrite (IH ltac:(intros x Hx; apply Hs; by right) found3 Hf3). f_equal. unfold seen_as in Ho. rewrite (Hs r) in Ho by by left. rewrite Hp in Ho.
    destruct o as [w|]; [|done]. destruct Ho as [[= ->] _]. done. }
  rewrite Hfound, make_reuses in H by (rewrite length_fmap; symmetry; by eapply Forall2_length). injection H as <- <- <- <-.
  split; [by rewrite writes_app, W|]. intros _. cbn [app]. clear -Hall. induction Hall as [|r p roles new (<- & _) _ IH]; [done|]. cbn. by rewrite IH.
Qed.
End Ensured.

(** ** Shapes *)
(** Dashes are removed wherever they are: thirty-six of them pass for a wallet
    id. *)
Lemma dashes_pass_for_a_uuid : isUUID "------------------------------------" = true.
Proof. reflexivity. Qed.
(** A failure on Circle's side that carries a status member is taken for a
    refusal. *)
Lemma body_overrides_status : call_result (RHttp 500 (Some (JObj [("status", JInt 400)]))) = Err (Some (MkHTTPError 400 0)).
Proof. reflexivity. Qed.
Lemma ParseEntitySecret_length h secret : ParseEntitySecret h = Some secret → String.length secret = 32%nat.
Proof. unfold ParseEntitySecret. destruct (hex_DecodeString _) as [x|]; [|done]. cbn. case_bool_decide; [|done]. by intros [= <-]. Qed.
(** A lane exists only on an Arc network, and has not been opened. *)
Lemma newWallet_spec {PubKey} apiKey secretHex walletID chainID (w : Wallet (PubKey := PubKey)) : newWallet apiKey secretHex walletID chainID = Some w →
  is_Some (BlockchainFor (w_chainID w)) ∧ String.length (w_entitySecret w) = 32%nat ∧ w_opened w = None ∧ w_walletID w = walletID ∧ w_chainID w = chainID.
Proof.
  unfold newWallet. destruct (BlockchainFor chainID) as [b|] eqn:Eb; [|done]. cbn [mbind option_bind]. destruct (negb _); [done|].
  destruct (ParseEntitySecret secretHex) as [x|] eqn:Ex; [|done]. cbn [mbind option_bind]. destruct (isUUID walletID); [|done].
  intros [= <-]. cbn [w_chainID w_entitySecret w_opened w_walletID].
  rewrite Eb. split_and!; try done. by eapply ParseEntitySecret_length.
Qed.

(** ** An account *)
Definition sample_uuid : string := "00000000-0000-4000-8000-000000000001".
Definition sample_data (v : jval) : reply := RHttp 200 (Some (JObj [("data", v)])).
Definition wallet_json (w : WalletInfo) : jval :=
  JObj [("id", JStr (wi_ID w)); ("address", JStr (wi_Address w)); ("blockchain", JStr (wi_Blockchain w)); ("state", JStr (wi_State w));
        ("custodyType", JStr (wi_CustodyType w)); ("accountType", JStr (wi_AccountType w)); ("walletSetId", JStr (wi_WalletSetID w));
        ("name", JStr (wi_Name w)); ("refId", JStr (wi_RefID w))].
Definition sample_made (bc ref : string) : WalletInfo := MkWalletInfo sample_uuid "0xowner" bc "LIVE" "DEVELOPER" "EOA" sample_uuid ref ref.
Definition body_wallet (body : option jval) : option WalletInfo :=
  b ← body; fs ← jfields b;
  match jget "blockchains" fs, jget "metadata" fs with
  | Some (JArr [JStr bc]), Some (JArr [m]) => ref ← dec_str "refId" m; Some (sample_made bc ref)
  | _, _ => None
  end.
Definition sample_circle (q : question) (ws : list WalletInfo) : list WalletInfo * reply :=
  match q with
  | QRandom n => (ws, RBytes (zero_bytes n))
  | QWait => (ws, RWoken)
  | QCircle method path body =>
    if bool_decide (method = "POST") && bool_decide (path = wallets_path) then
      match body_wallet body with
      | Some w => (ws ++ [w], sample_data (JObj [("wallets", JArr [wallet_json w])]))
      | None => (ws, RFailed)
      end
    else (ws,
    if bool_decide (path = sets_path) then sample_data (JObj [("walletSet", JObj [("id", JStr sample_uuid)])])
    else if bool_decide (path = execution_path) then sample_data (JObj [("id", JStr "tx1"); ("state", JStr "INITIATED")])
    else match strip_prefix "/v1/w3s/wallets?" path with
    | Some _ => sample_data (JObj [("wallets", JArr (wallet_json <$> ws))])
    | None =>
      if bool_decide (path = "/v1/w3s/config/entity/publicKey") then sample_data (JObj [("publicKey", JStr "pem")])
      else if bool_decide (path = "/v1/w3s/transactions/tx1")
      then sample_data (JObj [("transaction", JObj [("state", JStr "COMPLETE"); ("txHash", JStr "0xaa")])])
      else match strip_prefix "/v1/w3s/wallets/" path, ws with
           | Some _, w :: _ => sample_data (JObj [("wallet", wallet_json w)])
           | _, _ => RFailed
           end
    end)
  | QRpc method _ =>
    (ws, if bool_decide (method = "eth_getTransactionReceipt")
         then sample_result (JObj [("status", JStr "0x1"); ("blockNumber", JStr "0x10"); ("gasUsed", JStr "0x64")]) else RFailed)
  end.
Lemma wallet_roundtrip w : wallet_of_json (wallet_json w) = Some w.
Proof. by destruct w. Qed.
Lemma wallets_roundtrip ws : mapM wallet_of_json (wallet_json <$> ws) = Some ws.
Proof. apply mapM_fmap_Some. apply wallet_roundtrip. Qed.
Lemma named_made bc ref : named bc ref (sample_made bc ref) = true.
Proof. unfold named, sample_made. cbn [wi_Blockchain wi_RefID]. by rewrite !bool_decide_true. Qed.
Lemma listed_wallets vs : to_option (call_result (sample_data (JObj [("wallets", JArr vs)]))) ≫= data_of (dec_list "wallets" wallet_of_json) =
  mapM wallet_of_json vs.
Proof. reflexivity. Qed.
Lemma sample_is_account bc : Account sample_circle id bc.
Proof.
  split.
  - intros q ws Hq. destruct q as [m p|m p b|n|]; [done| |done..]. unfold sample_circle.
    destruct (bool_decide (m = "POST") && bool_decide (p = wallets_path)) eqn:E; [|done].
    apply andb_true_iff in E as [->%bool_decide_eq_true ->%bool_decide_eq_true]. by destruct (Hq b).
  - intros ref ws l. change (sample_circle (QCircle "GET" (list_path bc ref) None) ws) with (ws, sample_data (JObj [("wallets", JArr (wallet_json <$> ws))])).
    cbn [snd]. rewrite listed_wallets, wallets_roundtrip. by intros [= <-].
  - intros setID ct key role ws. left. exists (sample_made bc (ro_RefID role)). split_and!; [done|apply named_made|].
    cbn. by intros l [= <-].
Qed.
Abbreviation sample_ensure := (EnsureWallets (λ p, Some p) (λ pub secret seed, Some "box") (λ b, b) (λ _, true) (zero_bytes 32) "ARC-TESTNET" Roles).
Lemma setup_is_rerun_safe_witness : ∃ out s', serve sample_circle sample_ensure [] = (s', (out, true), (serve sample_circle sample_ensure []).2) ∧
  (length (pv_Wallet <$> out) = 2)%nat ∧ writes (serve sample_circle sample_ensure s').2 = [].
Proof.
  set (run := serve sample_circle sample_ensure []). exists run.1.2.1, run.1.1.
  assert (H : run = (run.1.1, (run.1.2.1, true), run.2)) by (vm_compute; reflexivity).
  assert (Hnd : NoDup (ro_RefID <$> Roles)) by (apply (bool_decide_unpack _); vm_compute; exact I).
  assert (Hone : at_most_one "ARC-TESTNET" [] Roles) by (intros r _; cbn; lia).
  destruct (setup_is_rerun_safe (λ p, Some p) (λ pub secret seed, Some "box") (λ b, b) (λ _, true) sample_circle id "ARC-TESTNET"
    (Hacc := sample_is_account "ARC-TESTNET") (zero_bytes 32) Roles [] run.1.1 run.1.2.1 true run.2 Hnd Hone H) as [_ Hok].
  destruct (Hok eq_refl) as [_ Hre]. set (run2 := serve sample_circle sample_ensure run.1.1).
  assert (H2 : run2 = (run2.1.1, (run2.1.2.1, run2.1.2.2), run2.2)) by (vm_compute; reflexivity).
  split; [exact H|]. split; [vm_compute; reflexivity|]. exact (proj1 (Hre (zero_bytes 32) run.1.1 _ _ _ _ (λ r _, eq_refl) H2)).
Defined.
Definition sample_wallet : Wallet (PubKey := string) := MkWallet (zero_bytes 32) sample_uuid 5042002 (Some ("pem", "0xowner")).
Abbreviation sample_lane := (Wallet_Submit (λ (pub secret seed : string), Some "box") (λ b, b) sample_FromHex 3 3 sample_wallet "0xpool" "call").
Lemma circle_executes_the_call_witness : ∃ s' l, serve sample_circle sample_lane [] = (s', Some (MkReceipt "0xaa" 16 100 false), l) ∧
  (length (writes l) = 1)%nat.
Proof.
  set (run := serve sample_circle sample_lane []). exists run.1.1, run.2.
  assert (H : run = (run.1.1, Some (MkReceipt "0xaa" 16 100 false), run.2)) by (vm_compute; reflexivity). split; [exact H|].
  destruct (circle_executes_the_call (λ (pub secret seed : string), Some "box") (λ b, b) sample_FromHex sample_circle 3 3 sample_wallet "0xpool" "call" _ _ _ _ H)
    as [_ [[_ E]|(pub & addr & seed & ct & key & r & _ & _ & E & _)]]; [discriminate E|]. rewrite E. reflexivity.
Defined.
