(* ===== verification/Signer.v ===== *)
(** The operator's signer ([cmd/snapfall/treasury.go]) and the two chain lanes
    of the daemon ([cmd/snapfall/main.go]: [lane], [wireBrain]).

    A signer is the raw-key client of [ChainClient] or the wallet of [Circle];
    [env] is the environment.  The text of errors and log lines is left out. *)
From Stdlib Require Import Ascii String.
From S2P Require Import Prelude GoStr GoTime GoJson Intent Store Approval Ask ChainClient Circle.
From S2P Require Funding.
#[local] Open Scope Z_scope.
#[local] Open Scope snap_scope.
#[local] Set Default Proof Using "Type".

Section Signers.
Context (FromHex : string → string) {Key : Type} (address_of : Key → string) (sign : Key → Z → Tx → option string) (parse_key : string → option Key).
Context {PubKey : Type} (parse_public_key : string → option PubKey) (EncryptOAEP : PubKey → string → string → option string).
Context (base64 : string → string) (IsHexAddress : string → bool) (HexToAddress : string → string).

Inductive signer :=
| RawKey (c : Client (Key := Key))
| CircleWallet (w : Wallet (PubKey := PubKey)).
Definition signer_submit (hashPolls polls : nat) (s : signer) (to calldata : string) : cprog (option Receipt) :=
  match s with
  | RawKey c => Submit FromHex address_of sign polls c to calldata
  | CircleWallet w => Wallet_Submit EncryptOAEP base64 FromHex hashPolls polls w to calldata
  end.
Definition signer_address (s : signer) : string :=
  match s with RawKey c => Address address_of c | CircleWallet w => WalletAddress w end.

(** ** The choice *)
Definition openTreasury (env : string → option string) (rpcURL : string) (chainID : Z) :
    cprog (option (signer * Client (Key := Key) * string)) :=
  match set_in env EnvWalletID with
  | None =>
    c <-? NewFromEnv parse_key env "TREASURY_PRIVATE_KEY" chainID ;;
    Done (Some (RawKey c, c, "raw key"))
  | Some _ =>
    reader <-? NewReadOnly rpcURL chainID ;;
    w <-? CircleFromEnv env chainID ;;
    w <~~ Open parse_public_key IsHexAddress HexToAddress w ;;
    Done (Some (CircleWallet w, reader, "circle developer-controlled wallet"))
  end.
Definition treasuryAddressMismatch (env : string → option string) (signer : string) : string * bool :=
  let v := TrimSpace (default "" (env "SNAPFALL_TREASURY_ADDRESS")) in
  if bool_decide (v = "") then ("", false)
  else (v, negb (IsHexAddress v) || negb (bool_decide (HexToAddress v = signer))).

(** ** Lanes *)
Record lane := MkLane { ln_c : signer; ln_to : string }.
Definition outcome_of (r : Receipt) : Funding.ChainOutcome :=
  Funding.MkChainOutcome true (rt_TxHash r) (rt_Block r) (rt_GasUsed r) (rt_Reverted r).
Definition lane_Submit (hashPolls polls : nat) (l : lane) (calldata : string) : cprog (option Funding.ChainOutcome) :=
  r <~~ signer_submit hashPolls polls (ln_c l) (ln_to l) calldata ;; Done (Some (outcome_of r)).
(** The lane as funding holds it, against a world that answers. *)
Definition as_submitter {S} (answer : question → S → S * reply) (hashPolls polls : nat) (l : lane) : Funding.Submitter S := λ calldata s,
  let '(s', o, _) := serve answer (lane_Submit hashPolls polls l calldata) s in
  (s', match o with Some out => Ok out | None => Err tt end).
(** What [wireBrain] wires of a deployment; a signer that is missing leaves its
    lane out. *)
Record ChainLanes := MkLanes {
  cl_advance : option lane; cl_settle : option lane; cl_reader : option (Client (Key := Key)); cl_operator : string }.
Definition wire_lanes (env : string → option string) (rpcURL : string) (chainID : Z) (fpAddr jvAddr : string) : cprog ChainLanes :=
  bindQ (openTreasury env rpcURL chainID) (λ treasury,
  let customer := NewFromEnv parse_key env "SNAPFALL_CUSTOMER_PRIVATE_KEY" chainID in
  let reader := match treasury with Some (_, r, _) => Some r | None => None end in
  Done (MkLanes
    (match treasury with Some (t, _, _) => Some (MkLane t fpAddr) | None => None end)
    (match customer with Some c => Some (MkLane (RawKey c) jvAddr) | None => None end)
    (match reader with Some r => Some r | None => customer end)
    (match treasury with Some (t, _, _) => signer_address t | None => zeroAddress end))).
End Signers.
Arguments RawKey {Key PubKey}. Arguments CircleWallet {Key PubKey}. Arguments MkLane {Key PubKey}. Arguments ln_c {Key PubKey}. Arguments ln_to {Key PubKey}.

Section Lanes.
Context (FromHex : string → string) {Key : Type} (address_of : Key → string) (sign : Key → Z → Tx → option string) (parse_key : string → option Key).
Context {PubKey : Type} (parse_public_key : string → option PubKey) (EncryptOAEP : PubKey → string → string → option string).
Context (base64 : string → string) (IsHexAddress : string → bool) (HexToAddress : string → string).
Context {S : Type} (answer : question → S → S * reply).
Abbreviation signer := (signer (Key := Key) (PubKey := PubKey)).
Abbreviation lane_Submit := (lane_Submit FromHex address_of sign EncryptOAEP base64).
Abbreviation as_submitter := (as_submitter FromHex address_of sign EncryptOAEP base64 answer).
Abbreviation openTreasury := (openTreasury parse_key parse_public_key IsHexAddress HexToAddress).

(** The one request that makes [sg] perform a call. *)
Definition performs (sg : signer) (to calldata : string) (q : question) : Prop :=
  match sg with
  | RawKey c => ∃ key raw tx, q = q_send raw ∧ cl_key c = Some key ∧ sign key (cl_chainID c) tx = Some raw ∧ tx_To tx = to ∧ tx_Data tx = calldata
  | CircleWallet w => ∃ pub addr seed ct key, w_opened w = Some (pub, addr) ∧ EncryptOAEP pub (w_entitySecret w) seed = Some ct ∧
      q = QCircle "POST" execution_path (Some (execution_body w key to calldata (base64 ct)))
  end.
(** The outcome is the receipt the node gave of it. *)
Definition by_receipt (out : Funding.ChainOutcome) (l : list (question * reply)) : Prop :=
  ∃ ans v st, (q_receipt (Funding.co_TxHash out), ans) ∈ l ∧ rpc_result ans = Some (Some v) ∧ dec_str "status" v = Some st ∧
    (Funding.co_Reverted out = true ↔ quantity FromHex st = 0).
Lemma rpc_no_post {A} method params (g : string → cprog (option A)) : (∀ h, asks_only (λ q, is_post q = false) (g h)) →
  asks_only (λ q, is_post q = false) (h <~~ rpc method params ;; g h).
Proof. intros Hg. by apply asks_try. Qed.
Lemma submit_no_post polls c to calldata fixedGas : asks_only (λ q, is_post q = false) (submit FromHex address_of sign polls c to calldata fixedGas).
Proof.
  unfold submit. apply asks_let. intros key _. apply asks_try; [by apply rpc_no_post|]. intros _. apply rpc_no_post. intros nh. apply rpc_no_post. intros gp.
  apply asks_try; [unfold estimate; destruct (negb _); [done|]; by apply rpc_no_post|]. intros gas. apply asks_let. intros raw _. apply rpc_no_post. intros h.
  induction polls as [|polls IH]; (split; [done|]; intros r; destruct (rpc_result r) as [[v|]|]; try done). split; [done|]. by intros [].
Qed.
Lemma writes_sends l : Forall (λ p, is_post p.1 = false) l → writes l = sends l.
Proof.
  unfold writes, sends. induction 1 as [|p l Hp _ IH]; [done|]. rewrite !filter_cons, IH.
  assert (Hw : is_write p.1 = is_send p.1) by (unfold is_write; by rewrite Hp, orb_false_r).
  destruct (is_send p.1) eqn:E; [by rewrite !decide_True by congruence|by rewrite !decide_False by congruence].
Qed.
Lemma lane_run hashPolls polls ln calldata s s' o l : serve answer (lane_Submit hashPolls polls ln calldata) s = (s', o, l) →
  (writes l = [] ∧ o = None) ∨
  ∃ q r, writes l = [(q, r)] ∧ performs (ln_c ln) (ln_to ln) calldata q ∧
    ∀ out, o = Some out → Funding.co_Submitted out = true ∧ by_receipt out l.
Proof.
  intros H. apply serve_bind in H as (o1 & s1 & l1 & l2 & H1 & H & ->).
  assert (Hl2 : l2 = [] ∧ ∀ out, o = Some out → ∃ rc, o1 = Some rc ∧ out = outcome_of rc).
  { destruct o1 as [rc|]; injection H as _ <- <-; (split; [done|]); [|done]. intros out [= <-]. by exists rc. }
  destruct Hl2 as [-> Ho]. clear H. rewrite app_nil_r. destruct ln as [[c|w] to]; cbn [ln_c ln_to signer_submit] in *.
  - pose proof (serve_asks _ _ _ (submit_no_post polls c to calldata 0) _ _ _ _ H1) as Hnp. rewrite (writes_sends _ Hnp).
    apply submission_is_one_signed_call in H1 as [[-> Hs]|(key & raw & tx & l0 & r & lw & -> & Hs & (Hk & Hsg & Hto & Hd & _) & Hrc)].
    + left. split; [done|]. destruct o as [out|]; [|done]. by destruct (Ho out eq_refl) as (? & [=] & _).
    + right. exists (q_send raw), r. split; [done|]. split; [by exists key, raw, tx|]. intros out Hout. destruct (Ho out Hout) as (rc & -> & ->).
      destruct (Hrc rc eq_refl) as (h & ans & v & st & _ & <- & Hin & Hr & Hst & Hiff). split; [done|]. exists ans, v, st.
      split; [apply elem_of_app; right; by right|done].
  - apply circle_executes_the_call in H1 as [_ [[Hw ->]|(pub & addr & seed & ct & key & r & Hop & Hct & Hw & Hrc)]].
    + left. split; [done|]. destruct o as [out|]; [|done]. by destruct (Ho out eq_refl) as (? & [=] & _).
    + right. eexists _, r. split; [done|]. split; [by exists pub, addr, seed, ct, key|]. intros out Hout. destruct (Ho out Hout) as (rc & -> & ->).
      destruct (Hrc rc eq_refl) as (id & h & _ & _ & <- & Hr). split; [done|exact Hr].
Qed.
(** C23: an advance that is recorded as submitted happened.  Over either
    signer, executing an approved advance makes at most one request that can
    move money, the pool's requestAdvance of the grant's own vault job under
    the lane's own signer; and when the outcome says that it was submitted, it
    carries the hash of a receipt the node itself gave, and is reverted if and
    only if that receipt's status is zero. *)
Theorem advance_is_one_signed_call selector hashPolls polls ln g f f' out :
  Funding.advanceLane (Funding.agent f) = Some (as_submitter hashPolls polls ln) →
  Funding.ExecuteAdvance selector g f = (f', Ok out) →
  (out = Funding.unsubmitted ∧ Funding.remote f' = Funding.remote f) ∨
  ∃ id l q r, Funding.JobID32 (i_ChainRef (g_intent g)) = Some id ∧
    serve answer (lane_Submit hashPolls polls ln (Funding.CalldataRequestAdvance selector id)) (Funding.remote f) = (Funding.remote f', Some out, l) ∧
    writes l = [(q, r)] ∧ performs (ln_c ln) (ln_to ln) (Funding.CalldataRequestAdvance selector id) q ∧
    Funding.co_Submitted out = true ∧ by_receipt out l.
Proof.
  intros Hlane. unfold Funding.ExecuteAdvance, bindM, Funding.Fund_Execute. destruct (Empty g); [done|]. case_bool_decide; [done|].
  unfold getM. cbn [Funding.agent Funding.remote Funding.with_agent Funding.advanceLane]. rewrite Hlane.
  case_bool_decide; [intros [= <- <-]; by left|]. destruct (Funding.JobID32 _) as [id|] eqn:Eid; [|done].
  unfold Funding.submitM, Signer.as_submitter.
  change (Funding.remote (Funding.with_agent ?a f)) with (Funding.remote f).
  destruct (serve answer (lane_Submit hashPolls polls ln (Funding.CalldataRequestAdvance selector id)) (Funding.remote f)) as [[s' o] l] eqn:Es. destruct o as [o|]; cbn; [|done].
  intros [= <- <-]. right. exists id, l. destruct (lane_run _ _ _ _ _ _ _ _ Es) as [[_ [=]]|(q & r & Hw & Hp & Ho)]. exists q, r.
  destruct (Ho o eq_refl) as [Hs Hb]. by split_and!.
Qed.
(** The daemon signs with what it was told to.  Opening the treasury
    changes nothing anywhere.  With a Circle wallet configured the signer is
    that wallet and never the raw key, whatever else the environment holds:
    Circle itself has described it as live, developer-controlled, no contract
    account and on the deployment's network, and the reader has no key; without
    one, nothing is asked and the signer is the raw key of the environment. *)
Lemma treasury_is_the_configured_signer env rpcURL chainID s s' sg reader kind l :
  serve answer (openTreasury env rpcURL chainID) s = (s', Some (sg, reader, kind), l) →
  writes l = [] ∧
  match set_in env EnvWalletID with
  | Some v => ∃ w pub blockchain got r, sg = CircleWallet w ∧ w_walletID w = TrimSpace v ∧ w_chainID w = chainID ∧ cl_key reader = None ∧
      w_opened w = Some (pub, HexToAddress (wi_Address got)) ∧ BlockchainFor chainID = Some blockchain ∧ CheckLane IsHexAddress got blockchain = true ∧
      (QCircle "GET" ("/v1/w3s/wallets/" +:+ TrimSpace v) None, r) ∈ l ∧
      to_option (call_result r) ≫= data_of (λ d, w ← dec_obj "wallet" d; wallet_of_json w) = Some got ∧ wi_ID got = TrimSpace v
  | None => l = [] ∧ ∃ c, sg = RawKey c ∧ reader = c ∧ NewFromEnv parse_key env "TREASURY_PRIVATE_KEY" chainID = Some c
  end.
Proof.
  unfold Signer.openTreasury. destruct (set_in env EnvWalletID) as [v|] eqn:Ev; intros H.
  2: { apply serve_let in H as [(_ & _ & [=] & _)|(c & Hc & H)]. injection H as _ <- <- _ <-. split; [done|]. split; [done|]. by exists c. }
  apply serve_let in H as [(_ & _ & [=] & _)|(rd & Hrd & H)].
  apply serve_let in H as [(_ & _ & [=] & _)|(w0 & Hw0 & H)].
  apply serve_try in H as [[_ [=]]|(w & s1 & l1 & l2 & H1 & H & ->)]. injection H as _ <- <- _ <-. rewrite app_nil_r.
  split; [eapply reads_run; [|exact H1]; apply reads_open|].
  unfold CircleFromEnv in Hw0. rewrite Ev in Hw0. destruct (set_in env EnvAPIKey) as [ak|]; [|done]. cbn [mbind option_bind] in Hw0.
  destruct (set_in env EnvEntitySecret) as [es|]; [|done]. cbn [mbind option_bind] in Hw0.
  destruct (newWallet_spec _ _ _ _ _ Hw0) as ([bc Hbc] & _ & _ & Hid & Hch). rewrite Hch in Hbc.
  apply open_run in H1 as (pub & got & r & -> & Hc & Hin & Hgot & Hgid). rewrite Hid in *. rewrite Hch, Hbc in Hc. cbn [default] in Hc.
  exists (MkWallet (w_entitySecret w0) (TrimSpace v) (w_chainID w0) (Some (pub, HexToAddress (wi_Address got)))), pub, bc, got, r.
  unfold NewReadOnly in Hrd. destruct (bool_decide _); [done|]. injection Hrd as <-. by split_and!.
Qed.
End Lanes.

(** ** A daemon told to sign through Circle *)
Abbreviation sample_box := (λ (pub secret seed : string), Some "box").
Definition sample_circle_lane : lane (Key := unit) (PubKey := string) := MkLane (CircleWallet sample_wallet) "0xpool".
Definition sample_advance_lane : Funding.Submitter (list WalletInfo) :=
  as_submitter sample_FromHex (λ _, "0xme") sample_sign sample_box (λ b, b) sample_circle 3 3 sample_circle_lane.
Definition sample_vault : string := "0x" +:+ zeros 64.
Definition sample_grant : Grant := MkGrant (MkIntent "" "" "" "" "" "" "" "" 0 "" "" "" zeroTime sample_vault "" "" "" 0 "" "") "req" zeroTime.
Definition sample_advance_fund : Funding.Fund (list WalletInfo) :=
  Funding.MkFund (Funding.SetChain (Some sample_advance_lane) None Funding.New_agent) [].
Definition sample_selector (sig : string) : string := "abcd".
Lemma advance_is_one_signed_call_witness : ∃ f', Funding.ExecuteAdvance sample_selector sample_grant sample_advance_fund =
    (f', Ok (Funding.MkChainOutcome true "0xaa" 16 100 false)) ∧
  ∃ l, (length (writes l) = 1)%nat ∧ by_receipt sample_FromHex (Funding.MkChainOutcome true "0xaa" 16 100 false) l.
Proof.
  set (run := Funding.ExecuteAdvance sample_selector sample_grant sample_advance_fund). exists run.1.
  assert (H : run.2 = Ok (Funding.MkChainOutcome true "0xaa" 16 100 false)) by (vm_compute; reflexivity).
  assert (Hrun : run = (run.1, Ok (Funding.MkChainOutcome true "0xaa" 16 100 false))) by (rewrite <-H; apply surjective_pairing).
  split; [exact Hrun|].
  destruct (advance_is_one_signed_call sample_FromHex (λ _, "0xme") sample_sign sample_box (λ b, b) sample_circle sample_selector 3 3
    sample_circle_lane sample_grant sample_advance_fund _ _ eq_refl Hrun) as [[E _]|(id & l & q & r & _ & _ & Hw & _ & _ & Hb)]; [discriminate E|].
  exists l. rewrite Hw. split; [reflexivity|exact Hb].
Defined.
Definition sample_circle_env (name : string) : option string :=
  if bool_decide (name = EnvAPIKey) then Some "TEST_API_KEY:a:b"
  else if bool_decide (name = EnvEntitySecret) then Some (zeros 64)
  else if bool_decide (name = EnvWalletID) then Some (" " +:+ sample_uuid)
  else if bool_decide (name = "TREASURY_PRIVATE_KEY") then Some (zeros 64) else None.
Abbreviation sample_open :=
  (openTreasury (Key := unit) (λ _, Some ()) (λ pem, Some pem) (λ _, true) (λ a, a) sample_circle_env "http://rpc" 5042002).
Lemma treasury_is_the_configured_signer_witness : ∃ s' sg reader kind l,
  serve sample_circle sample_open [sample_made "ARC-TESTNET" "snapfall-treasury"] = (s', Some (sg, reader, kind), l) ∧
  (∃ w, sg = CircleWallet w ∧ w_walletID w = sample_uuid).
Proof.
  set (run := serve sample_circle sample_open [sample_made "ARC-TESTNET" "snapfall-treasury"]).
  exists run.1.1, (CircleWallet (MkWallet (zero_bytes 32) sample_uuid 5042002 (Some ("pem", "0xowner")))), (MkClient 5042002 None),
    "circle developer-controlled wallet", run.2.
  assert (H : run = (run.1.1, Some (CircleWallet (MkWallet (zero_bytes 32) sample_uuid 5042002 (Some ("pem", "0xowner"))), MkClient 5042002 None,
    "circle developer-controlled wallet"), run.2)) by (vm_compute; reflexivity).
  split; [exact H|].
  pose proof (treasury_is_the_configured_signer (λ _, Some ()) (λ pem, Some pem) (λ _, true) (λ a, a) sample_circle
    sample_circle_env "http://rpc" 5042002 _ _ _ _ _ _ H) as [_ Hm].
  change (set_in sample_circle_env EnvWalletID) with (Some (" " +:+ sample_uuid)) in Hm. cbv beta iota in Hm.
  destruct Hm as (w & pub & bc & got & r & Hsg & Hid & _). exists w. split; [exact Hsg|]. rewrite Hid. reflexivity.
Defined.
