(* ===== verification/Setup.v ===== *)
(** The entity-secret setup ([cmd/circle-setup/main.go]: [setupSecret] and its
    file handling).

    [setupSecret] is a program over what it asks: one file operation, the
    registrar ([internal/circlewallet], in [Circle]), or the random source.  A
    path is its text; [SMode] is what [Lstat] or [Stat] say of one.  The text
    of errors and what is printed is left out; a [verdict] is what the run
    tells the operator of the secret. *)
From Stdlib Require Import Ascii String.
From S2P Require Import Prelude GoStr GoTime GoJson Amount Store Decode Ask ChainClient Circle Git.
#[local] Open Scope Z_scope.
#[local] Open Scope snap_scope.
#[local] Set Default Proof Using "Type".

Inductive squestion :=
| QLstat (path : string)
| QMkdirAll (dir : string)
| QStat (path : string)
| QReadFile (path : string)
| QCreate (path : string)
| QWrite (path data : string)
| QSync (path : string)
| QClose (path : string)
| QRemove (path : string)
| QEntropy (n : nat)
| QPing
| QRegister (secret : string).
Inductive sreply :=
| SOk
| SFailed
| SMode (dir regular : bool) (perm : Z)
| SData (data : string)
| SRegistered (r : result (option HTTPError) string).
Abbreviation sprog := (prog squestion sreply).

(** What the operator is told. *)
Inductive verdict :=
| Refused         (* an error before anything was registered *)
| NotRegistered   (* Circle refused it: the secret on disk is not registered *)
| Unknown         (* registration state unknown: keep the file *)
| Unsaved         (* registered, but the recovery file could not be saved *)
| Saved.          (* registered, recovery file written *)

Definition did (q : squestion) : sprog (option unit) := Ask q (λ r, Done (match r with SOk => Some tt | _ => None end)).
Definition exists_at (path : string) : sprog bool := Ask (QLstat path) (λ r, Done (match r with SMode _ _ _ => true | _ => false end)).
Definition sameEnvironment (keyEnv netEnv : string) : bool := negb (bool_decide (keyEnv = "")) && bool_decide (keyEnv = netEnv).
(** [fi.Mode().Perm()&0o077 != 0]. *)
Definition others_may (perm : Z) : bool := negb (Z.land perm 63 =? 0).
Definition privateDir (dir : string) : sprog (option unit) :=
  _ <~~ did (QMkdirAll dir) ;;
  Ask (QStat dir) (λ r, Done (match r with
    | SMode true _ perm => if others_may perm then None else Some tt
    | _ => None end)).
Definition writePrivate (path data : string) : sprog (option unit) :=
  _ <~~ did (QCreate path) ;;
  bindQ (did (QWrite path data)) (λ w,
  bindQ (match w with Some _ => did (QSync path) | None => Done None end) (λ err,
  bindQ (did (QClose path)) (λ cerr,
  match err, cerr with
  | Some _, Some _ => Done (Some tt)
  | _, _ => Ask (QRemove path) (λ _, Done None)
  end))).
Definition readPrivate (path : string) : sprog (option string) :=
  Ask (QLstat path) (λ r, match r with
    | SMode _ true perm =>
      if others_may perm then Done None
      else Ask (QReadFile path) (λ r, Done (match r with SData d => Some d | _ => None end))
    | _ => Done None end).
Definition newline_ended (s : string) : string := s +:+ String (chrZ 10) "".
(** The secret: the one already there, or a new one, written before it is
    registered. *)
Definition obtain_secret (registerExisting : bool) (secretPath : string) : sprog (option string) :=
  if registerExisting then raw <~~ readPrivate secretPath ;; Done (ParseEntitySecret raw)
  else
    secret <~~ Ask (QEntropy 32) (λ r, Done (match r with SData d => Some d | _ => None end)) ;;
    _ <~~ writePrivate secretPath (newline_ended (hex_EncodeToString secret)) ;;
    Done (Some secret).
(** [errors.As] to [*HTTPError] with a status of the four hundreds. *)
Definition circle_refused (e : option HTTPError) : bool :=
  match e with Some e => (400 <=? he_Status e) && (he_Status e <? 500) | None => false end.
(** After [RegisterEntitySecret] has succeeded: an error of the write or of
    the sync is assigned to a variable of the inner scope. *)
Definition save_recovery (recoveryPath recovery : string) : sprog verdict :=
  bindQ (did (QWrite recoveryPath recovery)) (λ w,
  bindQ (match w with Some _ => did (QSync recoveryPath) | None => Done None end) (λ _,
  bindQ (did (QClose recoveryPath)) (λ cerr,
  Done (match cerr with Some _ => Saved | None => Unsaved end)))).
Definition registered (recoveryPath : string) (r : sreply) : sprog verdict :=
  match r with
  | SRegistered (Ok recovery) => save_recovery recoveryPath recovery
  | SRegistered (Err e) =>
    Ask (QClose recoveryPath) (λ _, Ask (QRemove recoveryPath) (λ _, Done (if circle_refused e then NotRegistered else Unknown)))
  | _ => Ask (QClose recoveryPath) (λ _, Ask (QRemove recoveryPath) (λ _, Done Unknown))
  end.
Definition or_refused {A} (p : sprog (option A)) (k : A → sprog verdict) : sprog verdict :=
  bindQ p (λ o, match o with Some a => k a | None => Done Refused end).
(** [filepath.Join] of two. *)
Definition Join (dir name : string) : string := Clean (if bool_decide (dir = "") then name else dir +:+ "/" +:+ name).
Definition setupSecret (keyEnv netEnv dir : string) (registerExisting : bool) : sprog verdict :=
  let secretPath := Join dir "entity-secret.hex" in
  let recoveryPath := Join dir "recovery-file.dat" in
  if negb (sameEnvironment keyEnv netEnv) then Done Refused
  else
    bindQ (exists_at recoveryPath) (λ there,
    if (there : bool) then Done Refused
    else
      bindQ (exists_at secretPath) (λ secretExists,
      if negb (Bool.eqb secretExists registerExisting) then Done Refused
      else
        or_refused (did QPing) (λ _,
        or_refused (privateDir dir) (λ _,
        or_refused (obtain_secret registerExisting secretPath) (λ secret,
        or_refused (did (QCreate recoveryPath)) (λ _,
        Ask (QRegister secret) (registered recoveryPath))))))).

(** ** What is on disk when a secret is registered *)
Definition is_register (q : squestion) : bool := match q with QRegister _ => true | _ => false end.
Abbreviation quiet := (asks_only (λ q, is_register q = false)).
Lemma quiet_run {A S} (answer : squestion → S → S * sreply) (p : sprog A) s s' a l : quiet p → serve answer p s = (s', a, l) →
  Forall (λ x, is_register x.1 = false) l.
Proof. intros Hp Hs. by eapply (serve_asks (λ q, is_register q = false)). Qed.
Lemma quiet_did q : is_register q = false → quiet (did q).
Proof. by split. Qed.
Lemma quiet_private dir : quiet (privateDir dir).
Proof. apply asks_try; [by apply quiet_did|]. by split. Qed.
Lemma quiet_write path data : quiet (writePrivate path data).
Proof.
  apply asks_try; [by apply quiet_did|]. intros _. apply asks_bind; [by apply quiet_did|]. intros w.
  apply asks_bind; [destruct w; [by apply quiet_did|done]|]. intros err. apply asks_bind; [by apply quiet_did|]. by intros [[]|]; destruct err.
Qed.
Lemma quiet_obtain re path : quiet (obtain_secret re path).
Proof.
  destruct re; cbn [obtain_secret].
  - apply asks_try; [|done]. split; [done|]. intros [| |d [] perm| |]; try done. destruct (others_may perm); [done|]. by split.
  - apply asks_try; [by split|]. intros secret. apply asks_try; [apply quiet_write|done].
Qed.
Lemma quiet_save path recovery : quiet (save_recovery path recovery).
Proof.
  apply asks_bind; [by apply quiet_did|]. intros w. apply asks_bind; [destruct w; [by apply quiet_did|done]|]. intros _.
  apply asks_bind; [by apply quiet_did|done].
Qed.

Section Runs.
Context {S : Type} (answer : squestion → S → S * sreply).
Lemma did_run q s s' o l : serve answer (did q) s = (s', o, l) → ∃ r, l = [(q, r)] ∧ (o = Some tt ↔ r = SOk).
Proof. cbn. destruct (answer q s) as [s1 r]. intros [= <- <- <-]. exists r. split; [done|]. by destruct r. Qed.
(** The secret is in the file: read from it, or written to a new one in full,
    flushed and closed, and the file was not taken away. *)
Definition on_disk (registerExisting : bool) (path secret : string) (l : list (squestion * sreply)) : Prop :=
  (∀ r, (QRemove path, r) ∉ l) ∧
  if registerExisting then ∃ raw, (QReadFile path, SData raw) ∈ l ∧ ParseEntitySecret raw = Some secret
  else ∃ l0, l = l0 ++ [(QCreate path, SOk); (QWrite path (newline_ended (hex_EncodeToString secret)), SOk); (QSync path, SOk); (QClose path, SOk)].
Lemma write_run path data s s' l : serve answer (writePrivate path data) s = (s', Some tt, l) →
  l = [(QCreate path, SOk); (QWrite path data, SOk); (QSync path, SOk); (QClose path, SOk)].
Proof.
  unfold writePrivate. intros H. apply serve_try in H as [[_ [=]]|([] & s1 & l1 & l2 & H1 & H & ->)]. apply did_run in H1 as (r1 & -> & [E1 _]). rewrite E1 by done.
  apply serve_bind in H as (w & s2 & l3 & l4 & H2 & H & ->). apply did_run in H2 as (r2 & -> & E2).
  apply serve_bind in H as (err & s3 & l5 & l6 & H3 & H & ->). apply serve_bind in H as (cerr & s4 & l7 & l8 & H4 & H & ->).
  apply did_run in H4 as (r4 & -> & E4). destruct err as [[]|]; [|cbn in H; by destruct (answer (QRemove path) s4)].
  destruct cerr as [[]|]; [|cbn in H; by destruct (answer (QRemove path) s4)]. injection H as _ <-.
  destruct w as [[]|]; [|by injection H3]. apply did_run in H3 as (r3 & -> & E3).
  destruct E2 as [E2 _], E3 as [E3 _], E4 as [E4 _]. by rewrite E2, E3, E4.
Qed.
Lemma obtain_run re path s s' secret l : serve answer (obtain_secret re path) s = (s', Some secret, l) → on_disk re path secret l.
Proof.
  destruct re; cbn [obtain_secret]; intros H.
  - apply serve_try in H as [[_ [=]]|(raw & s1 & l1 & l2 & H1 & H & ->)]. injection H as _ Hp <-. rewrite app_nil_r. cbn in H1.
    destruct (answer (QLstat path) s) as [s2 r]. destruct r as [| |d [] perm| |]; try done. destruct (others_may perm); [done|]. cbn in H1.
    destruct (answer (QReadFile path) s2) as [s3 r]. injection H1 as _ Hr <-. destruct r as [| | |x|]; try done. injection Hr as ->. split.
    + intros r. rewrite !not_elem_of_cons. by split_and!; [..|apply not_elem_of_nil].
    + exists raw. split; [right; by left|done].
  - apply serve_try in H as [[_ [=]]|(x & s1 & l1 & l2 & H1 & H & ->)]. cbn in H1. destruct (answer (QEntropy 32) s) as [s2 r]. injection H1 as _ _ <-.
    apply serve_try in H as [[_ [=]]|([] & s3 & l3 & l4 & H3 & H & ->)]. injection H as _ -> <-. apply write_run in H3 as ->. rewrite app_nil_r. split.
    + intros r'. rewrite !elem_of_app, !elem_of_cons. intros [[H|H]|[H|[H|[H|[H|H]]]]]; try (by simplify_eq); by apply not_elem_of_nil in H.
    + by exists [(QEntropy 32, r)].
Qed.
Lemma refused_run {A} (p : sprog (option A)) k s s' v l : serve answer (or_refused p k) s = (s', v, l) →
  (serve answer p s = (s', None, l) ∧ v = Refused) ∨
  ∃ a s1 l1 l2, serve answer p s = (s1, Some a, l1) ∧ serve answer (k a) s1 = (s', v, l2) ∧ l = l1 ++ l2.
Proof.
  intros H. apply serve_bind in H as ([a|] & s1 & l1 & l2 & H1 & H & ->); [right; by exists a, s1, l1, l2|]. injection H as <- <- <-. left. by rewrite app_nil_r.
Qed.
End Runs.

(** ** A written secret is read back *)
Lemma hex_encoded s : sall hex_char (hex_EncodeToString s) = true.
Proof.
  induction s as [|c r IH]; [done|]. cbn [hex_EncodeToString sall]. rewrite IH, andb_true_r. pose proof (byteZ_range c).
  assert (Hd : ∀ d, 0 ≤ d < 16 → hex_char (hexdigit d) = true).
  { intros d Hd. assert (Hc : d ∈ seqZ 0 16) by (apply elem_of_seqZ; lia). clear Hd.
    assert (Hall : forallb (λ d, hex_char (hexdigit d)) (seqZ 0 16) = true) by reflexivity. rewrite forallb_forall in Hall. apply Hall. by apply list_elem_of_In. }
  apply andb_true_iff. split; apply Hd; [split; [apply Z.div_pos | apply Z.div_lt_upper_bound]; lia|apply Z.mod_pos_bound; lia].
Qed.
Lemma trim_newline s : sall hex_char s = true → TrimSpace (newline_ended s) = s.
Proof.
  intros Hs. assert (Hc : chunks (newline_ended s) = chunks s ++ [Raw1 (chrZ 10)] ∧ Forall (λ k, space_chunk k = false) (chunks s)).
  { unfold newline_ended. induction s as [|c r IH]; [by split|]. cbn [sall] in Hs. apply andb_true_iff in Hs as [Hc Hr].
    destruct (hex_char_plain c Hc) as (_ & _ & _ & Ha & Hsp), (IH Hr) as [E Hf]. rewrite sapp_cons. cbn [chunks]. rewrite Ha, E. by repeat constructor. }
  destruct Hc as [Hc Hf]. unfold TrimSpace. rewrite Hc.
  assert (Hd : drop_spaces (chunks s ++ [Raw1 (chrZ 10)]) = if bool_decide (chunks s = []) then [] else chunks s ++ [Raw1 (chrZ 10)]).
  { destruct Hf as [|k ks Hk _]; [reflexivity|]. cbn. by rewrite Hk. }
  rewrite Hd. case_bool_decide as He; [apply (f_equal (concat_map bytes1)) in He; rewrite chunks_bytes in He; by subst|].
  rewrite rev_app_distr. cbn [rev app drop_spaces]. change (space_chunk (Raw1 (chrZ 10))) with true. cbv iota.
  rewrite drop_spaces_none by by apply Forall_rev. by rewrite rev_involutive, chunks_bytes.
Qed.
(** What a new secret's file holds is that secret for a rerun. *)
Lemma secret_roundtrip secret : String.length secret = 32%nat →
  ParseEntitySecret (newline_ended (hex_EncodeToString secret)) = Some secret.
Proof.
  intros Hl. unfold ParseEntitySecret. rewrite trim_newline by apply hex_encoded.
  assert (Hp : strip_prefix "0x" (hex_EncodeToString secret) = None).
  { pose proof (hex_encoded secret) as Hh. destruct (hex_EncodeToString secret) as [|a [|b r]]; cbn; try done; repeat case_bool_decide; try done.
    subst b. cbn [sall] in Hh. rewrite !andb_true_iff in Hh. by destruct Hh as (_ & [=] & _). }
  rewrite Hp. cbn [default]. rewrite hex_decode_encode. cbn [mbind option_bind]. by rewrite bool_decide_true.
Qed.

Section Registered.
Context {S : Type} (answer : squestion → S → S * sreply).
Lemma save_run path recovery s s' v l : serve answer (save_recovery path recovery) s = (s', v, l) → v = Saved ∨ v = Unsaved.
Proof.
  intros H. apply serve_bind in H as (w & s2 & l3 & l4 & _ & H & _). apply serve_bind in H as (x & s3 & l5 & l6 & _ & H & _).
  apply serve_bind in H as (c & s4 & l7 & l8 & _ & H & _). injection H as _ <- _. destruct c; auto.
Qed.
(** What the operator may be told once Circle was asked. *)
Definition told_of (r : sreply) (v : verdict) : Prop :=
  match r with
  | SRegistered (Ok _) => v = Saved ∨ v = Unsaved
  | SRegistered (Err e) => v = if circle_refused e then NotRegistered else Unknown
  | _ => v = Unknown
  end.
Lemma registered_run path r s s' v l : serve answer (registered path r) s = (s', v, l) →
  Forall (λ x, is_register x.1 = false) l ∧ (∀ p r0, (QRemove p, r0) ∈ l → p = path) ∧ told_of r v.
Proof.
  assert (Hclose : ∀ (x : verdict) s s' v l, serve answer (Ask (QClose path) (λ _, Ask (QRemove path) (λ _, Done x))) s = (s', v, l) →
    Forall (λ x, is_register x.1 = false) l ∧ (∀ p r0, (QRemove p, r0) ∈ l → p = path) ∧ v = x).
  { intros x t t' v' l'. cbn. destruct (answer _ t) as [t1 ra]. destruct (answer _ t1) as [t2 rb]. intros [= <- <- <-].
    split; [by repeat constructor|]. split; [|done]. intros p r0. rewrite !elem_of_cons. by intros [[=]|[[= -> _]|H0%not_elem_of_nil]]. }
  destruct r as [| | | |[recovery|e]]; try apply Hclose. intros Hs. split; [eapply quiet_run; [apply quiet_save|exact Hs]|].
  split; [|by eapply save_run].
  assert (Ha : asks_only (λ q, ∀ p, q ≠ QRemove p) (save_recovery path recovery)).
  { apply asks_bind; [by split|]. intros w. apply asks_bind; [destruct w; [by split|done]|]. intros _. apply asks_bind; [by split|done]. }
  apply (serve_asks _ _ _ Ha) in Hs. rewrite Forall_forall in Hs. intros p r0 Hin. by destruct (Hs _ Hin p).
Qed.
End Registered.

(** ** What the operator may be told wrongly *)
(** A recovery file whose write failed is reported as written: the error is
    assigned to a variable that shadows the one returned. *)
Lemma lost_recovery_is_reported_saved path recovery :
  ask (λ q, match q with QWrite _ _ | QSync _ => SFailed | _ => SOk end) (save_recovery path recovery) = Saved.
Proof. reflexivity. Qed.
(** A failure of Circle's that names a status in its body is reported as a
    refusal, although the secret may have been registered. *)
Lemma server_error_is_reported_refused status code : 500 ≤ status → 400 ≤ code < 500 → ∃ e,
  call_result (RHttp status (Some (JObj [("status", JInt code)]))) = Err e ∧ circle_refused e = true.
Proof.
  intros Hs Hc. eexists. unfold call_result. rewrite (proj2 (Z.ltb_ge status 200)), (proj2 (Z.ltb_lt 299 status)) by lia. split; [reflexivity|].
  change (circle_refused _) with ((400 <=? code) && (code <? 500)). apply andb_true_iff. split; [apply Z.leb_le|apply Z.ltb_lt]; lia.
Qed.

(** ** A first setup *)
Definition sample_files (q : squestion) (n : nat) : nat * sreply :=
  (S n, match q with
        | QLstat _ => SFailed
        | QStat _ => SMode true false 448
        | QEntropy n => SData (zero_bytes n)
        | QRegister _ => SRegistered (Ok "recovery")
        | _ => SOk
        end).
