(* ===== verification/Daemon.v ===== *)
(** The daemon's process ([cmd/snapfall/main.go]): the lanes it wires at boot,
    the money half of the boot, the reclaimer, and the alarm on a job's two
    budgets.

    [env] is the environment, [poll] the sidecar's status route with a state of
    its own; a chain read is a program of [ChainClient].  Each [time.Now] is an
    argument.  Log lines are left out, but for the two that page the owner: a
    tick and a check return them. *)
From Stdlib Require Import Ascii String.
From S2P Require Import Prelude GoStr GoTime GoJson Policy Store H3 Approval Wiring Reconcile Ask ChainClient.
From S2P Require Budget Freeze Funding Advancing.
#[local] Open Scope Z_scope.
#[local] Open Scope snap_scope.
#[local] Set Default Proof Using "Type".

(** ** The chain reads *)
Section Reads.
Context (selector FromHex : string → string).
(** [SetQuoteOracle]'s function: the chain's own figure for a bound job. *)
Definition quoteOracle (jv vaultJobID : string) : cprog (option string) :=
  id <-? Funding.JobID32 vaultJobID ;;
  ret <~~ CallView FromHex jv (CalldataJobEconomics selector id) ;;
  e <-? DecodeJobEconomics ret ;;
  let payment := e.1.2 in
  Done (if (payment =? 0) || (max_int64 <? payment) then None else Some (FormatUSDC payment)).
(** [SetRateOracle]'s. *)
Definition rateOracle (o : Oracle) : cprog (option Z) :=
  bps <~~ AdvanceRateBps selector FromHex o ;;
  Done (if (bps =? 0) || (10000 <? bps) then None else Some bps).

(** ** [chainBudget]: the alarm on a job's two budgets *)
Definition chain_figure (jobVault vaultJobID : string) : cprog (option Z) :=
  id <-? Funding.JobID32 vaultJobID ;;
  ret <~~ CallView FromHex jobVault (CalldataJobEconomics selector id) ;;
  e <-? DecodeJobEconomics ret ;;
  let maxBudget := e.2 in
  Done (if (maxBudget =? 0) || (max_int64 <? maxBudget) then None else Some maxBudget).
Record Alarm := MkAlarm { al_noted : gset string; al_store : Store; al_ledger : option Budget.Ledger }.
(** The comparison, once the figure is known: the alarm, and the divergence the
    owner is warned of. *)
Definition compare_budgets (clk : time) (jobID vaultJobID : string) (chainMicros : Z) (a : Alarm) :
    Alarm * option (string * Z) :=
  let noted := {[ vaultJobID ]} ∪ al_noted a in
  let daemonMicros := JobBudgetMicros DemoPolicy in
  if chainMicros =? daemonMicros then (MkAlarm noted (al_store a) (al_ledger a), None)
  else match al_ledger a with
  | None => (MkAlarm noted (al_store a) None, Some (vaultJobID, chainMicros))
  | Some l =>
    let '(s, l, _) := Budget.NoteChainDivergence clk jobID vaultJobID chainMicros daemonMicros (al_store a) l in
    (MkAlarm noted s (Some l), Some (vaultJobID, chainMicros))
  end.
(** [reader] is the vault's address, where a deployment is wired. *)
Definition check (reader : option string) (clk : time) (jobID vaultJobID : string) (a : Alarm) :
    cprog (Alarm * option (string * Z)) :=
  match reader with
  | None => Done (a, None)
  | Some jobVault =>
    if bool_decide (jobID = "") || bool_decide (vaultJobID = "") || bool_decide (vaultJobID ∈ al_noted a) then Done (a, None)
    else bindQ (chain_figure jobVault vaultJobID) (λ figure, Done (
      match figure with None => (a, None) | Some z => compare_budgets clk jobID vaultJobID z a end))
  end.
(** A sequence of checks: at boot over the milestones, later at each binding. *)
Fixpoint checks (reader : option string) (calls : list (time * string * string)) (a : Alarm) :
    cprog (Alarm * list (string * Z)) :=
  match calls with
  | [] => Done (a, [])
  | (clk, job, vault) :: calls =>
    bindQ (check reader clk job vault a) (λ r, bindQ (checks reader calls r.1) (λ rs, Done (rs.1, option_list r.2 ++ rs.2)))
  end.
End Reads.

(** ** The payment lane *)
Definition sidecarTokenMinBytes : nat := 32.
Section Payer.
Context (urlParse : string → option (string * string)) (Hostname : string → string).
Context (EqualFold : string → string → bool) (ParseIP_loopback : string → bool).
Context {S : Type} (wire : HttpRequest → S → S * HttpOutcome).
(** The token and the secret, where the environment has both in a usable form. *)
Definition sidecar_secrets (env : string → option string) : option (string * string) :=
  let token := TrimSpace (default "" (env "SIDECAR_AUTH_TOKEN")) in
  let secret := TrimSpace (default "" (env "H2_APPROVAL_SECRET")) in
  if bool_decide (token = "") || Nat.ltb (String.length token) sidecarTokenMinBytes || bool_decide (secret = "") then None
  else Some (token, secret).
(** [fund] as it is left, and the client the reclaimer polls. *)
Definition wirePayer (env : string → option string) (chainID : Z) (f : Funding.Fund S) : Funding.Fund S * option H3.Client :=
  match sidecar_secrets env with
  | None => (f, None)
  | Some (token, secret) =>
    let cl := New urlParse Hostname EqualFold ParseIP_loopback (TrimSpace (default "" (env "SIDECAR_BASE_URL"))) token in
    match Health wire urlParse cl (Funding.remote f) with
    | (s, Err _) => (Funding.with_remote s f, None)
    | (s, Ok _) =>
      (Funding.with_remote s (Funding.with_agent
         (Funding.SetPayer (Some (Funding.client_payer wire urlParse cl)) secret (wrap64 chainID) (Funding.agent f)) f), Some cl)
    end
  end.
End Payer.

(** ** The reclaimer *)
Definition reconcileDeadline : duration := 24 * 3600 * Second.
Section Reclaimer.
Context (keccak256 : string → string) (quote_q : string → string).
Context {Q : Type} (poll : string → M Q GoErr StatusResult).

(** The escalation of the holds that outlived the deadline: [states] is what
    the poll before it saw. *)
Fixpoint page (clk : time) (states : gmap string string) (holds : list Budget.Hold) (noted : gset string)
    (s : Store) (l : Budget.Ledger) : Store * Budget.Ledger * gset string * list (string * string) :=
  match holds with
  | [] => (s, l, noted, [])
  | h :: holds =>
    let id := Budget.h_RequestID h in
    if bool_decide (id ∈ noted) then page clk states holds noted s l else
    let state := default "" (states !! id) in
    let state := if bool_decide (state = "") then "UNKNOWN" else state in
    match Budget.NoteReconcileStalled clk h state s l with
    | (s, l, Some _) => page clk states holds noted s l
    | (s, l, None) =>
      let '(s, l, noted, pages) := page clk states holds ({[ id ]} ∪ noted) s l in (s, l, noted, (id, state) :: pages)
    end
  end.

Record Reclaimer := MkReclaimer { rm_world : World Daemon; rm_remote : Q; rm_noted : gset string }.
Inductive tick := SweepTick (now clk : time) | ReconcileTick (clk now : time).
(** What [reconcileUnresolved] leaves, and the states it reports. *)
Definition reconciled_at (wired : bool) (clk : time) (r : Reclaimer) : Store * Budget.Ledger * Q * gmap string string :=
  reconcileUnresolved keccak256 quote_q poll wired clk (st (rm_world r)) (dm_ledger (ext (rm_world r))) (rm_remote r).
Definition on_tick (wired : bool) (t : tick) (r : Reclaimer) : Reclaimer * list (string * string) :=
  match t with
  | SweepTick now clk => (MkReclaimer (sweep_tick now clk (rm_world r)).1 (rm_remote r) (rm_noted r), [])
  | ReconcileTick clk now =>
    let '(s, l, q, states) := reconciled_at wired clk r in
    let '(s, l, noted, pages) := page clk states (Budget.StalledSince reconcileDeadline now l) (rm_noted r) s l in
    let w := rm_world r in
    (MkReclaimer (with_ext (with_ledger l (ext w)) (with_st s w)) q noted, pages)
  end.
(** A process: its ticks, and whatever the rest of the daemon and the sidecar
    do between them.  The pages of the process are kept. *)
Inductive reclaims (wired : bool) : Reclaimer → list (string * string) → Reclaimer → Prop :=
| rc_start r : rm_noted r = ∅ → reclaims wired r [] r
| rc_tick r pages r' t : reclaims wired r pages r' →
    reclaims wired r (pages ++ (on_tick wired t r').2) (on_tick wired t r').1
| rc_else r pages r' w q : reclaims wired r pages r' →
    reclaims wired r pages (MkReclaimer w q (rm_noted r')).

(** ** The money half of [wireBrain] *)
Inductive BootErr := BootApproval (e : ApErr) | BootAdvances (e : Z * StoreErr) | BootLedger (e : Budget.BudgetErr) | BootSweep (e : Budget.BudgetErr).
(** Over a lifecycle and a ledger that hold nothing yet.  [range] is the order
    the requests are visited in, [landed] the advance flow's oracle. *)
Definition boot_money (range : gmap string Request → list Request) (landed : option (string → option bool)) (wired : bool)
    (now_adv now clk clk_rec : time) (w : World Daemon) (q : Q) : World Daemon * Q * result BootErr (gmap string string) :=
  match Recover w with
  | (w, Err e) => (w, q, Err (BootApproval e))
  | (w, Ok _) =>
    match Advancing.EscalateInterrupted range landed now_adv w with
    | (w, Err e) => (w, q, Err (BootAdvances e))
    | (w, Ok _) =>
      match ledgerM Budget.Recover w with
      | (w, Some e) => (w, q, Err (BootLedger e))
      | (w, None) =>
        match sweep_tick now clk w with
        | (w, (_, Some e)) => (w, q, Err (BootSweep e))
        | (w, (_, None)) =>
          let '(s, l, q, states) := reconcileUnresolved keccak256 quote_q poll wired clk_rec (st w) (dm_ledger (ext w)) q in
          (with_ext (with_ledger l (ext w)) (with_st s w), q, Ok states)
        end
      end
    end
  end.
End Reclaimer.

(** ** The pages *)
Lemma page_spec clk states holds noted s l s' l' noted' pages :
  page clk states holds noted s l = (s', l', noted', pages) →
  Budget.entries l' = Budget.entries l ∧ noted' = list_to_set pages.*1 ∪ noted ∧ NoDup pages.*1 ∧
  (∀ p, p ∈ pages → (p.1 ∉ noted) ∧ (∃ h, h ∈ holds ∧ Budget.h_RequestID h = p.1) ∧
     let st := default "" (states !! p.1) in p.2 = if bool_decide (st = "") then "UNKNOWN" else st) ∧
  ∀ h, h ∈ holds → Budget.h_RequestID h ∈ noted' ∨
    ∃ state s0 l0 s1 l1 e, Budget.NoteReconcileStalled clk h state s0 l0 = (s1, l1, Some e).
Proof.
  revert noted s l pages. induction holds as [|h holds IH]; intros noted s l pages; cbn [page].
  { intros [= <- <- <- <-]. split; [done|]. split; [set_solver|]. split; [constructor|].
    split; [by intros p ?%elem_of_nil|by intros h ?%elem_of_nil]. }
  case_bool_decide as Hin.
  { intros Hp. apply IH in Hp as (He & Hn & Hd & Hs & Ha). split_and!; [done..| |].
    - intros p Hp. destruct (Hs p Hp) as (H1 & (g & Hg & E) & H2). split; [done|]. split; [|done]. exists g. split; [by right|done].
    - intros g [-> | Hg]%elem_of_cons; [|by apply Ha]. left. rewrite Hn. set_solver. }
  destruct (Budget.NoteReconcileStalled _ _ _ _ _) as [[s1 l1] [e|]] eqn:En.
  { intros Hp. pose proof (Budget.Note_cases _ _ _ _ _ _ _ _ En) as (He1 & _).
    apply IH in Hp as (He & Hn & Hd & Hs & Ha). split_and!; [congruence|done..| |].
    - intros p Hp. destruct (Hs p Hp) as (H1 & (g & Hg & E) & H2). split; [done|]. split; [|done]. exists g. split; [by right|done].
    - intros g [-> | Hg]%elem_of_cons; [|by apply Ha]. right. by eexists _, s, l, s1, l1, e. }
  destruct (page clk states holds _ s1 l1) as [[[s2 l2] n2] ps] eqn:Ep. intros [= <- <- <- <-].
  pose proof (Budget.Note_cases _ _ _ _ _ _ _ _ En) as (He1 & _).
  apply IH in Ep as (He & Hn & Hd & Hs & Ha). split; [congruence|]. cbn [fmap list_fmap fst list_to_set].
  split; [rewrite Hn; set_solver|]. split.
  { apply NoDup_cons. split; [|done]. intros (p & Hp1 & Hp)%list_elem_of_fmap. destruct (Hs p Hp) as [Hni _]. set_solver. }
  split.
  - intros p [-> | Hp]%elem_of_cons; cbn [fst snd]; [split; [done|]; split; [|done]; exists h; by split; [left|]|].
    destruct (Hs p Hp) as (H1 & (g & Hg & E) & H2). split; [set_solver|]. split; [|done]. exists g. split; [by right|done].
  - intros g [-> | Hg]%elem_of_cons; [|by apply Ha]. left. rewrite Hn. set_solver.
Qed.

Section Pages.
Context (keccak256 : string → string) (quote_q : string → string).
Context {Q : Type} (poll : string → M Q GoErr StatusResult).
Abbreviation on_tick := (on_tick keccak256 quote_q poll).
Abbreviation reclaims := (reclaims keccak256 quote_q poll).
Lemma on_tick_pages wired t r : let '(r', pages) := on_tick wired t r in
  NoDup pages.*1 ∧ rm_noted r' = list_to_set pages.*1 ∪ rm_noted r ∧ ∀ p, p ∈ pages → p.1 ∉ rm_noted r.
Proof.
  destruct t as [now clk|clk now]; cbn [on_tick].
  - split; [constructor|]. split; [cbn; set_solver|]. by intros p ?%elem_of_nil.
  - unfold Daemon.on_tick. destruct (reconciled_at _ _ _ _ _ _) as [[[s l] q] states].
    destruct (page clk states _ _ s l) as [[[s' l'] noted] pages] eqn:Ep.
    apply page_spec in Ep as (_ & Hn & Hd & Hs & _). split; [done|]. split; [done|]. intros p Hp. by apply Hs.
Qed.
Lemma reclaims_pages wired r0 pages r : reclaims wired r0 pages r → NoDup pages.*1 ∧ rm_noted r = list_to_set pages.*1.
Proof.
  induction 1 as [r0 H0|r0 pages r t _ [IH1 IH2]|r0 pages r w q _ IH]; [| |done].
  - rewrite H0. split; [constructor|done].
  - pose proof (on_tick_pages wired t r) as Ht. destruct (on_tick wired t r) as [r' new]. destruct Ht as (Hd & Hn & Hni). cbn [fst snd].
    rewrite fmap_app. split; [|rewrite Hn, IH2, list_to_set_app_L; set_solver].
    apply NoDup_app. split; [done|]. split; [|done]. intros id Hid (p & -> & Hp)%list_elem_of_fmap. apply (Hni p Hp). rewrite IH2.
    by apply elem_of_list_to_set.
Qed.
End Pages.

(** ** The alarm *)
Section Alarms.
Context (selector FromHex : string → string) {S : Type} (answer : question → S → S * reply).
Definition economics_call (jv id : string) : question :=
  QRpc "eth_call" [call_json None jv (CalldataJobEconomics selector id); JStr "latest"].
Definition is_view (p : question * reply) : Prop := ∃ params, p.1 = QRpc "eth_call" params.
(** The figure the node gave for a vault job. *)
Definition figure_told (reader : option string) (v : string) (z : Z) (l : list (question * reply)) : Prop :=
  ∃ jv id out e, reader = Some jv ∧ Funding.JobID32 v = Some id ∧ told l (economics_call jv id) out ∧
    DecodeJobEconomics (FromHex out) = Some e ∧ e.2 = z.
Lemma figure_told_app reader v z l1 l2 : figure_told reader v z l1 ∨ figure_told reader v z l2 → figure_told reader v z (l1 ++ l2).
Proof.
  intros [(jv & id & out & e & Hr & Hid & (r & Hin & Hr') & He)|(jv & id & out & e & Hr & Hid & (r & Hin & Hr') & He)];
    exists jv, id, out, e; (split; [done|]; split; [done|]; split; [exists r; split; [apply elem_of_app; auto|done]|done]).
Qed.
Lemma call_view_run to calldata s s' o l : serve answer (CallView FromHex to calldata) s = (s', o, l) →
  Forall is_view l ∧
  ∀ ret, o = Some ret → ∃ out, told l (QRpc "eth_call" [call_json None to calldata; JStr "latest"]) out ∧ ret = FromHex out.
Proof.
  change (CallView FromHex to calldata) with (Ask (QRpc "eth_call" [call_json None to calldata; JStr "latest"])
    (λ r, bindQ (Done (rpc_text r)) (λ o, match o with Some out => Done (Some (FromHex out)) | None => Done None end))).
  cbn. destruct (answer (QRpc "eth_call" [call_json None to calldata; JStr "latest"]) s) as [s1 r] eqn:Ea.
  destruct (rpc_text r) as [out|] eqn:Er; cbn; intros [= <- <- <-]; (split; [constructor; [by eexists|done]|]); [|done].
  intros ret [= <-]. exists out. split; [exists r; split; [by left|done]|done].
Qed.
Lemma chain_figure_run jv v s s' o l : serve answer (chain_figure selector FromHex jv v) s = (s', o, l) →
  Forall is_view l ∧
  ∀ z, o = Some z → z ≠ 0 ∧ z ≤ max_int64 ∧ figure_told (Some jv) v z l.
Proof.
  unfold chain_figure. intros [(_ & -> & -> & ->)|(id & Hid & H)]%serve_let; [done|].
  apply serve_try in H as [[H ->]|(ret & s1 & l1 & l2 & H1 & H2 & ->)].
  { split; [by apply call_view_run in H as [? _]|done]. }
  apply call_view_run in H1 as [Hf Hret]. destruct (Hret ret eq_refl) as (out & Ht & ->).
  apply serve_let in H2 as [(_ & -> & -> & ->)|(e & He & H2)]; [by rewrite app_nil_r|].
  cbn in H2. injection H2 as <- <- <-. rewrite app_nil_r. split; [done|]. intros z.
  destruct ((e.2 =? 0) || (max_int64 <? e.2)) eqn:Eb; [done|]. intros [= <-].
  apply orb_false_iff in Eb as [E1%Z.eqb_neq E2%Z.ltb_ge]. split; [done|]. split; [done|]. by exists jv, id, out, e.
Qed.
Definition divergence_row (v : string) (z : Z) (r : EventRow) : Prop :=
  ev_kind r = Budget.KindChainDivergence ∧ ∃ job, ev_payload r = json_Marshal (JObj
    [("job_id", JStr job); ("vault_job_id", JStr v); ("chain_budget_micros", JInt z); ("daemon_budget_micros", JInt (JobBudgetMicros DemoPolicy))]).
(** The log grew by divergence records of these warnings. *)
Definition grew (a a' : Alarm) (warns : list (string * Z)) : Prop :=
  ∃ rows, events (db (al_store a')) = events (db (al_store a)) ++ rows ∧ (al_ledger a = None → rows = []) ∧
    ∀ r, r ∈ rows → ∃ p, p ∈ warns ∧ divergence_row p.1 p.2 r.
Lemma grew_same a a' : al_store a' = al_store a → grew a a' [].
Proof. intros E. exists []. rewrite E, app_nil_r. split; [done|]. split; [done|]. by intros r ?%elem_of_nil. Qed.
Lemma check_run reader clk job v a s s' a' w l :
  serve answer (check selector FromHex reader clk job v a) s = (s', (a', w), l) →
  Forall is_view l ∧ (al_ledger a = None ↔ al_ledger a' = None) ∧ grew a a' (option_list w) ∧
  match w with
  | None => al_noted a' = al_noted a ∨ al_noted a' = {[ v ]} ∪ al_noted a
  | Some (v', z) => v' = v ∧ v ∉ al_noted a ∧ al_noted a' = {[ v ]} ∪ al_noted a ∧
      z ≠ JobBudgetMicros DemoPolicy ∧ z ≠ 0 ∧ z ≤ max_int64 ∧ figure_told reader v z l
  end.
Proof.
  unfold check. destruct reader as [jv|]; [|intros [= <- <- <- <-]; split_and!; try done; [by apply grew_same|by left]].
  destruct (_ || _) eqn:Eb; [intros [= <- <- <- <-]; split_and!; try done; [by apply grew_same|by left]|].
  apply orb_false_iff in Eb as [_ Hni]. apply bool_decide_eq_false_1 in Hni.
  intros (o & s1 & l1 & l2 & H1 & H2 & ->)%serve_bind. apply chain_figure_run in H1 as [Hf Ho].
  cbn in H2. injection H2 as _ H2 <-. rewrite app_nil_r. split; [done|].
  destruct o as [z|]; [|injection H2 as <- <-; split_and!; try done; [by apply grew_same|by left]].
  destruct (Ho z eq_refl) as (H0 & Hmax & Ht). unfold compare_budgets in H2.
  destruct (z =? JobBudgetMicros DemoPolicy) eqn:Ez; [injection H2 as <- <-; split_and!; try done; [by apply grew_same|by right]|].
  apply Z.eqb_neq in Ez.
  destruct (al_ledger a) as [lg|] eqn:El.
  - unfold Budget.NoteChainDivergence in H2. destruct (bool_decide (job = "")).
    { injection H2 as <- <-. cbn. split_and!; try done. exists []. by rewrite app_nil_r; split; [|split; [|intros r ?%elem_of_nil]]. }
    destruct (Append clk _ (al_store a)) as [st1 q] eqn:Ea. apply Append_cases in Ea.
    assert (H3 : a' = MkAlarm ({[v]} ∪ al_noted a) st1 (Some lg) ∧ w = Some (v, z)) by (destruct q; by injection H2 as <- <-).
    destruct H3 as [-> ->]. cbn. split; [done|]. split; [|by split_and!].
    destruct Ea as [[_ Hd]|[_ Hd]]; [|exists []; cbn; rewrite Hd, app_nil_r; split; [done|]; split; [done|]; by intros r ?%elem_of_nil].
    eexists [_]. cbn [al_store]. rewrite Hd. split; [reflexivity|]. split; [by rewrite El|]. intros r ->%list_elem_of_singleton. exists (v, z).
    split; [by left|]. split; [done|]. by exists job.
  - injection H2 as <- <-. cbn. split_and!; try done.
    exists []. rewrite app_nil_r. split; [done|]. split; [done|]. by intros r ?%elem_of_nil.
Qed.

(** The alarm on a job's two budgets is raised once, and on the chain's own
    word.  In any sequence of checks, against any node, no vault job is warned
    of twice nor when an earlier check of the process settled it; each warning
    carries a figure that the node itself gave for that vault job, not zero, within
    [int64] and different from the policy's budget; what is added to the log is
    divergence records of these warnings alone; and the checks ask only for
    views, so they move no money. *)
Lemma divergence_is_raised_once reader calls a s s' a' warns l :
  serve answer (checks selector FromHex reader calls a) s = (s', (a', warns), l) →
  Forall is_view l ∧ al_noted a ⊆ al_noted a' ∧ NoDup warns.*1 ∧ grew a a' warns ∧
  ∀ v z, (v, z) ∈ warns → v ∉ al_noted a ∧ v ∈ al_noted a' ∧ (∃ clk job, (clk, job, v) ∈ calls) ∧
    z ≠ JobBudgetMicros DemoPolicy ∧ z ≠ 0 ∧ z ≤ max_int64 ∧ figure_told reader v z l.
Proof.
  revert a s warns l. induction calls as [|[[clk job] v] calls IH]; intros a s warns l H.
  { cbn in H. injection H as <- <- <- <-. split_and!; try done; [by constructor|by apply grew_same|by intros v z ?%elem_of_nil]. }
  cbn [checks] in H. apply serve_bind in H as ([a1 w] & s1 & l1 & l2 & H1 & H2 & ->). cbn [fst snd] in H2.
  apply serve_bind in H2 as ([a2 ws] & s2 & l3 & l4 & H2 & H3 & ->). injection H3 as <- <- <- <-. rewrite app_nil_r.
  apply check_run in H1 as (Hf1 & Hl & (r1 & E1 & N1 & R1) & Hw). apply IH in H2 as (Hf2 & Hsub & Hnd & (r2 & E2 & N2 & R2) & Hws). clear IH.
  split; [by apply Forall_app|].
  assert (Hsub1 : al_noted a ⊆ al_noted a1).
  { destruct w as [[v' z]|]; [destruct Hw as (_ & _ & -> & _)|destruct Hw as [-> | ->]]; set_solver. }
  split; [set_solver|]. split.
  { rewrite fmap_app. destruct w as [[v' z]|]; [|done]. cbn. apply NoDup_cons. split; [|done].
    destruct Hw as (-> & _ & Hn & _). intros ([v' z'] & E & Hin)%list_elem_of_fmap. cbn in E. subst v'.
    destruct (Hws v z' Hin) as [Hni _]. set_solver. }
  split.
  { exists (r1 ++ r2). split; [by rewrite E2, E1, app_assoc|]. split; [intros Hx; by rewrite (N1 Hx), (N2 (proj1 Hl Hx))|].
    intros r [Hr|Hr]%elem_of_app; [destruct (R1 r Hr) as (p & Hp & Hd)|destruct (R2 r Hr) as (p & Hp & Hd)];
      exists p; (split; [apply elem_of_app; auto|done]). }
  intros v' z [Hin|Hin]%elem_of_app.
  - destruct w as [[v0 z0]|]; [|by apply elem_of_nil in Hin]. apply list_elem_of_singleton in Hin. injection Hin as -> ->.
    destruct Hw as (-> & Hni & Hn & Hz1 & Hz2 & Hz3 & Ht). split; [done|]. split; [set_solver|]. split; [exists clk, job; by left|].
    split_and!; [done..|]. apply figure_told_app. by left.
  - destruct (Hws v' z Hin) as (Hni & Hin' & (clk' & job' & Hc) & Hz1 & Hz2 & Hz3 & Ht). split; [set_solver|]. split; [done|].
    split; [exists clk', job'; by right|]. split_and!; [done..|]. apply figure_told_app. by right.
Qed.
End Alarms.

(** ** The boot *)
Lemma Sweep_slots now clk hook s l s' l' k ids :
  Budget.wf_ledger l → Budget.claim_ids (Budget.claim_rows (db s)) = Some ids →
  Budget.Sweep now clk hook s l = (s', l', (k, None)) →
  ∀ id, let e := Budget.slot (Budget.mark_claimed ids (Budget.entries l)) id in
    Budget.slot (Budget.entries l') id =
      if Budget.sweepable now e && Budget.unhooked hook id then Budget.set_released e else e.
Proof.
  intros Hw Hi H id e. unfold Budget.Sweep in H. destruct (Budget.refreshClaims s l) as [[s1 l1] [x|]] eqn:Er; [done|].
  apply Budget.refreshClaims_cases in Er as [_ [[_ ?]|(ids' & Hi' & _ & ->)]]; [done|]. rewrite Hi in Hi'. injection Hi' as <-.
  apply (Budget.sweep_release_spec now) in H as (rel & _ & _ & Hall & Hslot); [|exact (Budget.wf_mark ids l Hw)|apply Budget.dead_ids_NoDup
    |apply Forall_forall; intros x; apply Budget.dead_ids_spec].
  rewrite Hslot, (Hall eq_refl). change (Budget.slot (Budget.entries (Budget.set_entries ?m l)) id) with (Budget.slot m id). fold e.
  assert (Hiff : id ∈ filter (λ id, Budget.unhooked hook id = true) (Budget.dead_ids now (Budget.set_entries (Budget.mark_claimed ids (Budget.entries l)) l)) ↔
    Budget.sweepable now e && Budget.unhooked hook id = true).
  { rewrite list_elem_of_filter, Budget.dead_ids_spec, andb_true_iff. cbn [Budget.entries Budget.set_entries]. fold e. tauto. }
  destruct (Budget.sweepable now e && Budget.unhooked hook id); case_bool_decide as Hd; try done; [destruct Hd; by apply Hiff|].
  by apply Hiff in Hd.
Qed.

(** What the boot keeps all along: the log's fold, the filing, and the log's
    claims. *)
Definition steady (rows : list EventRow) (s : Store) (l : Budget.Ledger) : Prop :=
  Budget.sound s l ∧ filed l ∧ Budget.claim_rows (db s) = rows.
Lemma claim_rows_other s s' clk ev : db s' = appended (db s) clk ev → e_Kind ev ≠ Budget.kindPaymentExecuting →
  Budget.claim_rows (db s') = Budget.claim_rows (db s).
Proof. intros -> Hk. by rewrite Budget.claim_rows_append, bool_decide_false, app_nil_r. Qed.
Lemma steady_Sweep rows now clk hook s l s' l' r :
  steady rows s l → Budget.Sweep now clk hook s l = (s', l', r) → steady rows s' l'.
Proof.
  apply Budget.Sweep_invariant; clear.
  - intros s l s' l' r ([Hc Hw] & Hf & Hr) H. pose proof (Budget.refreshClaims_consistent _ _ _ _ _ Hc H) as Hc'.
    apply Budget.refreshClaims_cases in H as (Hd & [(-> & _)|(ids & _ & _ & ->)]).
    + split; [by split|]. split; [done|congruence].
    + split; [split; [done|by apply Budget.wf_mark]|]. split; [by apply (filed_mark ids l)|congruence].
  - intros id s l s' l' r ([Hc Hw] & Hf & Hr) H.
    split; [split; [by eapply Budget.Release_consistent|by eapply Budget.Release_wf]|]. split; [by eapply filed_Release|].
    apply Budget.Release_cases in H as [(_ & Hd & _)|(_ & _ & _ & _ & Hd & _)]; [congruence|].
    rewrite <-Hr. by eapply claim_rows_other.
Qed.
Lemma escalate_requests landed now reqs : ∀ k (w w' : World Daemon) n,
  Advancing.escalate_all landed now reqs k w = (w', Ok n) → requests w' = requests w.
Proof.
  induction reqs as [|req reqs IH]; intros k w w' n; cbn; [by intros [= <- _]|]. unfold bindM, mapErrM.
  destruct (Advancing.escalate_one landed now req w) as [w1 [m|e]] eqn:E1; [|done].
  apply Advancing.escalate_one_turn in E1 as [Hr _]. intros E. apply IH in E. congruence.
Qed.
Lemma Recover_same (w w' : World Daemon) r : Recover w = (w', r) → db (st w') = db (st w) ∧ ext w' = ext w.
Proof.
  unfold Recover, bindM, storeM. destruct (QueryEvents recover_kinds (st w)) as [s1 q] eqn:Eq.
  apply QueryEvents_cases in Eq as [Hd [-> | ->]]; [|by intros [= <- <-]].
  cbn. destruct (recover_rows _ _). by intros [= <- <-].
Qed.
Lemma advance_note_steady rows now kind entity fields (w w' : World Daemon) e l :
  kind ∉ Budget.ledger_kinds → kind ≠ Budget.kindPaymentExecuting →
  Advancing.append_advance now kind entity fields w = (w', e) → ext w' = ext w ∧ (steady rows (st w) l → steady rows (st w') l).
Proof.
  intros Hk Hk'. unfold Advancing.append_advance. destruct (Append _ _ _) as [s r] eqn:E. intros [= <- <-]. split; [done|].
  intros (Hs & Hf & Hr). cbn. apply Append_cases in E as [[_ Hd]|[_ Hd]].
  - split; [eapply sound_append; [exact Hs|exact Hd|by left]|]. split; [done|]. rewrite <-Hr. by eapply claim_rows_other.
  - split; [apply (sound_same_log _ _ _ Hs); by rewrite Hd|]. by rewrite Hd.
Qed.
Lemma escalate_steady rows landed now reqs l : ∀ k (w w' : World Daemon) r,
  Advancing.escalate_all landed now reqs k w = (w', r) → ext w' = ext w ∧ (steady rows (st w) l → steady rows (st w') l).
Proof.
  assert (Hnote : ∀ kind entity fields (w w' : World Daemon) e, kind = "advance.interrupted" ∨ kind = "advance.executed" →
    Advancing.append_advance now kind entity fields w = (w', e) → ext w' = ext w ∧ (steady rows (st w) l → steady rows (st w') l)).
  { intros kind entity fields w w' e [-> | ->]; apply advance_note_steady; by apply (bool_decide_eq_true_1 _). }
  assert (Hone : ∀ req (w w' : World Daemon) r, Advancing.escalate_one landed now req w = (w', r) →
    ext w' = ext w ∧ (steady rows (st w) l → steady rows (st w') l)).
  { intros req w w' r. unfold Advancing.escalate_one, retM. case_bool_decide; [by intros [= <- <-]|].
    destruct (r_Executed req).
    - unfold Advancing.resolveExecutedClaim. destruct (QueryEvents _ _) as [s q] eqn:Eq.
      apply QueryEvents_cases in Eq as [Hd Hq].
      assert (Hw : ext (with_st s w) = ext w ∧ (steady rows (st w) l → steady rows (st (with_st s w)) l)).
      { split; [done|]. intros (Hs & Hf & Hr). cbn. split; [apply (sound_same_log _ _ _ Hs); by rewrite Hd|]. by rewrite Hd. }
      destruct q as [rs|]; [|by intros [= <- <-]]. destruct (existsb _ _); [by intros [= <- <-]|].
      match goal with |- (if ?b then _ else _) = _ → _ => destruct b end;
        (destruct (Advancing.append_advance _ _ _ _ _) as [w1 e] eqn:Ea; intros [= <- _];
         apply Hnote in Ea as [He Hs]; [|by auto]; split; [by rewrite He|tauto]).
    - destruct (Advancing.settled_state _); [by intros [= <- <-]|].
      destruct (Advancing.append_advance _ _ _ _ _) as [w1 e] eqn:Ea. intros [= <- _]. by apply Hnote in Ea; [|left]. }
  induction reqs as [|req reqs IH]; intros k w w' r; cbn; [by intros [= <- <-]|].
  unfold bindM, mapErrM. destruct (Advancing.escalate_one landed now req w) as [w1 [m|e]] eqn:E1.
  - intros E2. apply Hone in E1 as [He1 Hs1]. apply IH in E2 as [He2 Hs2]. split; [congruence|tauto].
  - intros [= <- _]. by apply Hone in E1.
Qed.
Section Boot.
Context (keccak256 : string → string) (quote_q : string → string).
Context {Q : Type} (poll : string → M Q GoErr StatusResult).
Lemma reconcile_hold_rows clk h s l q :
  Budget.claim_rows (db (reconcile_hold keccak256 quote_q poll clk h s l q).1.1.1) = Budget.claim_rows (db s).
Proof.
  assert (Hrel : ∀ id re code pre s' l' r, Budget.Release clk id re code pre s l = (s', l', r) →
    Budget.claim_rows (db s') = Budget.claim_rows (db s)).
  { intros id re code pre s' l' r H. apply Budget.Release_cases in H as [(_ & -> & _)|(_ & _ & _ & _ & Hd & _)]; [done|].
    by eapply claim_rows_other. }
  unfold reconcile_hold. destruct (poll _ q) as [q1 [res|[he|]]]; [| |done].
  - destruct (Committed _).
    + destruct (ParseAtomicMicros _) as [paid|]; [|done].
      destruct (Budget.Commit _ _ _ _ _ _ _ _) as [[s1 l1] r] eqn:E. cbn.
      apply Budget.Commit_cases in E as [[_ ->]|(_ & _ & _ & _ & _ & _ & Hd & _)]; [done|]. by eapply claim_rows_other.
    + destruct (H3.Unresolved _); [done|]. destruct (_ || _).
      * destruct (Budget.Release _ _ _ _ _ _ _) as [[s1 l1] r] eqn:E. by eapply Hrel.
      * destruct (Budget.NoteReconcileStalled _ _ _ _ _) as [[s1 l1] r] eqn:E. cbn.
        apply Budget.Note_cases in E as (_ & _ & [-> | Hd]); [done|]. by eapply claim_rows_other.
  - case_bool_decide; [|done]. destruct (Budget.Release _ _ _ _ _ _ _) as [[s1 l1] r] eqn:E. by eapply Hrel.
Qed.
Lemma reconcileUnresolved_rows wired clk s l q s' l' q' m : reconcileUnresolved keccak256 quote_q poll wired clk s l q = (s', l', q', m) →
  Budget.claim_rows (db s') = Budget.claim_rows (db s).
Proof.
  unfold reconcileUnresolved. destruct wired; [|by intros [= <- <- <- <-]].
  generalize (∅ : gmap string string). generalize (Budget.Unresolved l). intros holds. revert s l q.
  induction holds as [|h holds IH]; intros s l q o; cbn [reconcile_holds]; [by intros [= <- <- <- <-]|].
  pose proof (reconcile_hold_rows clk h s l q) as Hr. destruct (reconcile_hold _ _ _ _ _ _ _ _) as [[[s1 l1] q1] o1].
  intros H. apply IH in H. cbn in Hr. congruence.
Qed.

(** C5: a boot accounts for every hold and pays nothing.  Let [l] be the ledger
    of the process that stopped.  When the money half of the boot succeeds, the
    log's execution claims are as they were; a hold still open is, if it is
    claimed, among the states the boot reports, and if not, either its approval
    may still be executed or the restored lifecycle knows its claim; and every
    hold the boot closed was open in [l] and either unclaimed with its approval
    expired, and is released, or claimed and closed on the sidecar's proof. *)
Theorem boot_accounts_for_every_hold range landed wired now_adv now clk clk_rec w q w' q' states l :
  dm_ledger (ext w) = Budget.New → Budget.sound (st w) l → filed l →
  boot_money keccak256 quote_q poll range landed wired now_adv now clk clk_rec w q = (w', q', Ok states) →
  Budget.claim_rows (db (st w')) = Budget.claim_rows (db (st w)) ∧
  ∃ ids lifecycle, Budget.claim_ids (Budget.claim_rows (db (st w))) = Some ids ∧ Recover w = (lifecycle, Ok tt) ∧
  ∀ id, let e := Budget.slot (Budget.mark_claimed ids (Budget.entries l)) id in
    let e' := Budget.slot (Budget.entries (dm_ledger (ext w'))) id in
    (e' = e ∧ (Budget.is_open e = true →
       if Budget.claimed e then is_Some (states !! id)
       else Budget.sweepable now e = false ∨ executionClaimed lifecycle id = true)) ∨
    (Budget.is_open e = true ∧ Budget.claimed e = false ∧ Budget.sweepable now e = true ∧ e' = Budget.set_released e) ∨
    (Budget.is_open e = true ∧ Budget.claimed e = true ∧ wired = true ∧
       ∃ q0 q1 res, poll (Budget.h_PaymentID (Budget.hold e)) q0 = (q1, res) ∧ proves res e e').
Proof.
  intros Hnew Hsound Hfiled. unfold boot_money. destruct (Recover w) as [w1 [[]|]] eqn:Erec; [|done].
  destruct (Recover_same _ _ _ Erec) as [Hd1 He1].
  destruct (Advancing.EscalateInterrupted range landed now_adv w1) as [w2 [n|]] eqn:Eesc; [|done].
  unfold Advancing.EscalateInterrupted, bindM, getM in Eesc.
  pose proof (escalate_steady (Budget.claim_rows (db (st w))) landed now_adv _ l _ _ _ _ Eesc) as [He2 Hst2].
  assert (Hst1 : steady (Budget.claim_rows (db (st w))) (st w1) l).
  { split; [|split; [done|by rewrite Hd1]]. apply (sound_same_log _ _ _ Hsound). by rewrite Hd1. }
  specialize (Hst2 Hst1). unfold ledgerM at 1. rewrite He2, He1, Hnew.
  destruct (Budget.Recover (st w2) Budget.New) as [[s3 l3] [x|]] eqn:E3; [done|].
  destruct Hst2 as (Hs2 & _ & Hrows2). destruct (Budget.Recover_sound _ _ _ _ Hs2 E3) as (Hs3 & Hd3 & _ & ids & Hids & Hent3).
  rewrite Hrows2 in Hids.
  assert (Hst3 : steady (Budget.claim_rows (db (st w))) s3 l3).
  { split; [done|]. split; [by eapply filed_mark|]. by rewrite Hd3. }
  set (w3 := with_ext _ _). unfold sweep_tick, ledgerM. change (st w3) with s3. change (dm_ledger (ext w3)) with l3.
  assert (Hexec : ∀ id, executionClaimed w3 id = executionClaimed w1 id).
  { intros id. unfold executionClaimed, Snapshot. change (requests w3) with (requests w2).
    by rewrite (escalate_requests _ _ _ _ _ _ _ Eesc). }
  destruct (Budget.Sweep now clk _ s3 l3) as [[s4 l4] [k [x|]]] eqn:E4; [done|].
  pose proof (steady_Sweep _ _ _ _ _ _ _ _ _ Hst3 E4) as (Hs4 & Hf4 & Hr4).
  assert (Hslots := Sweep_slots _ _ _ _ _ _ _ _ ids (proj2 (proj1 Hst3)) ltac:(by rewrite (proj2 (proj2 Hst3))) E4).
  set (w4 := with_ext _ _). change (st w4) with s4. change (dm_ledger (ext w4)) with l4.
  destruct (reconcileUnresolved _ _ _ _ _ s4 l4 q) as [[[s5 l5] q5] states'] eqn:E5. intros [= <- <- <-]. cbn [st ext dm_ledger with_ext with_st with_ledger].
  split; [by rewrite (reconcileUnresolved_rows _ _ _ _ _ _ _ _ _ E5)|]. exists ids, w1. split; [done|]. split; [done|].
  intros id. set (e := Budget.slot (Budget.mark_claimed ids (Budget.entries l)) id).
  pose proof (reconcileUnresolved_spec _ _ _ _ _ _ _ _ _ _ _ _ Hf4 E5 id) as Hrc. cbv zeta in Hrc.
  specialize (Hslots id). cbv zeta in Hslots. rewrite Hent3, Budget.mark_claimed_idemp in Hslots. fold e in Hslots. unfold Budget.unhooked in Hslots. rewrite Hexec in Hslots.
  destruct (Budget.sweepable now e && negb (executionClaimed w1 id)) eqn:Esw.
  - apply andb_true_iff in Esw as [Esw _]. right. left. pose proof Esw as Esw'.
    unfold Budget.sweepable in Esw'. rewrite !andb_true_iff in Esw'. destruct Esw' as [[[Ho Hc] _] _]. apply negb_true_iff in Hc.
    split_and!; [done..|]. rewrite Hslots in Hrc. destruct Hrc as [[He' _]|(_ & Ho' & _)]; [exact He'|].
    unfold Budget.is_open in Ho'. cbn in Ho'. by rewrite andb_false_r in Ho'.
  - rewrite Hslots in Hrc. destruct Hrc as [[He' Hm]|(Hwired & Ho & Hc & _ & _ & Hp)]; [left|by right; right].
    split; [exact He'|]. intros Ho. destruct (Budget.claimed e) eqn:Ec; [apply Hm; by rewrite Ho|].
    apply andb_false_iff in Esw as [Esw|Esw]; [by left|right]. by apply negb_false_iff in Esw.
Qed.
End Boot.

(** ** The payment lane *)
Section Lane.
Context (urlParse : string → option (string * string)) (Hostname : string → string).
Context (EqualFold : string → string → bool) (ParseIP_loopback : string → bool).
Context {S : Type} (wire : HttpRequest → S → S * HttpOutcome).
Lemma Health_run c s s' r : Health wire urlParse c s = (s', r) →
  (s' = s ∨ s' = (wire (MkHttpRequest "GET" (c_baseURL c +:+ "/health") None None) s).1) ∧ (r = Ok tt → c_cfgErr c = None).
Proof.
  unfold Health, bindM, do, decode, failM, retM. destruct (c_cfgErr c); [intros [= <- <-]; split; [by left|done]|].
  destruct (urlParse _); [|intros [= <- <-]; split; [by left|done]]. cbn [andb].
  match goal with |- context [wire ?x s] => change x with (MkHttpRequest "GET" (c_baseURL c +:+ "/health") None None) end.
  destruct (wire _ s) as [s1 [|n|n b]] eqn:E; cbn [fst]; [intros [= <- <-]; split; [by right|done]..|].
  destruct (n =? 200); [|intros [= <- <-]; split; [by right|done]].
  destruct (b ≫= _) as [[|]|]; intros [= <- <-]; (split; [by right|done]).
Qed.
(** The payment lane is wired only with credentials the sidecar could accept,
    to a client that was not refused its address; and until then the sidecar
    has seen neither of the secrets: at most the one health probe, without
    a token.  Without a lane the agent is as it was. *)
Lemma payer_wired_only_if_usable env chainID f f' o :
  wirePayer urlParse Hostname EqualFold ParseIP_loopback wire env chainID f = (f', o) →
  (∃ base, Funding.remote f' = Funding.remote f ∨
     Funding.remote f' = (wire (MkHttpRequest "GET" (base +:+ "/health") None None) (Funding.remote f)).1) ∧
  match o with
  | None => Funding.agent f' = Funding.agent f
  | Some cl => ∃ secret, sidecar_secrets env = Some (c_token cl, secret) ∧ secret ≠ "" ∧
      (sidecarTokenMinBytes ≤ String.length (c_token cl))%nat ∧ c_cfgErr cl = None ∧
      Funding.agent f' = Funding.SetPayer (Some (Funding.client_payer wire urlParse cl)) secret (wrap64 chainID) (Funding.agent f)
  end.
Proof.
  unfold wirePayer. destruct (sidecar_secrets env) as [[token secret]|] eqn:Es; [|intros [= <- <-]; split; [by exists ""; left|done]].
  set (cl := New _ _ _ _ _ _). destruct (Health wire urlParse cl (Funding.remote f)) as [s r] eqn:Eh.
  apply Health_run in Eh as [Hw Hok]. destruct r as [[]|e]; intros [= <- <-]; (split; [by exists (c_baseURL cl)|]); [|done].
  exists secret. split; [done|]. unfold sidecar_secrets in Es. destruct (_ || _ || _) eqn:Eb in Es; [done|]. injection Es as <- <-.
  rewrite !orb_false_iff in Eb. destruct Eb as [[_ Hlen] Hsec]. apply bool_decide_eq_false_1 in Hsec. apply Nat.ltb_ge in Hlen.
  split_and!; [done|exact Hlen|by apply Hok|done].
Qed.
End Lane.

(** ** A process that restarts *)
Definition sample_reclaimer : Reclaimer (Q := nat) :=
  let '(s, l) := Budget.lsteps reconcileHistory (MkStore emptyDB []) Budget.New in
  MkReclaimer (MkWorld s ∅ None (MkDaemon l DemoPolicy "pol_7") [] []) O ∅.
Definition a_day_later : time := 1000 * Second + reconcileDeadline.
Definition sample_tick : tick := ReconcileTick a_day_later a_day_later.
Abbreviation sample_on_tick := (on_tick id id samplePoll true).
Definition sample_paged : list (string * string) := [("b", "RECONCILING")].

(** A node on which the job's budget is five, where the policy's is six. *)
Definition bound_vault : string := "0x" +:+ zeros 64.
Definition sample_economics (q : question) (n : nat) : nat * reply :=
  (S n, sample_result (JStr (zero_bytes 64 +:+ big_endian 32 5000000))).
Definition sample_calls : list (time * string * string) := [(0, "job_1", bound_vault); (1 * Second, "job_1", bound_vault)].
Definition sample_checks := serve sample_economics (checks (λ _, "abcd") (λ s, s) (Some "0xvault") sample_calls
  (MkAlarm ∅ (MkStore emptyDB []) (Some Budget.New))) O.
Lemma divergence_is_raised_once_witness :
  sample_checks.1.2.2 = [(bound_vault, 5000000)] ∧ length (events (db (al_store sample_checks.1.2.1))) = 1%nat ∧
  figure_told (λ _, "abcd") (λ s, s) (Some "0xvault") bound_vault 5000000 sample_checks.2.
Proof.
  split; [vm_compute; reflexivity|]. split; [vm_compute; reflexivity|].
  assert (H : sample_checks = (sample_checks.1.1, (sample_checks.1.2.1, [(bound_vault, 5000000)]), sample_checks.2)) by (vm_compute; reflexivity).
  destruct (divergence_is_raised_once (λ _, "abcd") (λ s, s) sample_economics (Some "0xvault") sample_calls _ _ _ _ _ _ H)
    as (_ & _ & _ & _ & Hw).
  apply (Hw bound_vault 5000000). by left.
Defined.

(** Three holds were left behind: one delivered, one in flight, one never
    tried. *)
Definition boot_history : list Budget.lop :=
  Budget.LReserve (1000 * Second) (Budget.sampleHold "c" 9) :: reconcileHistory.
Definition before_boot : Store * Budget.Ledger := Budget.lsteps (take 5 boot_history) (MkStore emptyDB []) Budget.New.
Definition booted : World Daemon * nat * result BootErr (gmap string string) :=
  boot_money id id samplePoll (λ m, snd <$> map_to_list m) None true 0 (3000 * Second) (3000 * Second) (4000 * Second)
    (MkWorld before_boot.1 ∅ None (MkDaemon Budget.New DemoPolicy "pol_7") [] []) O.
Lemma boot_history_ok : Forall Budget.lop_ok (take 5 boot_history).
Proof. apply Forall_cons. split; [by apply Budget.sample_loggable|]. apply (Forall_take _ 4), reconcileHistory_ok. Qed.
Lemma boot_accounts_for_every_hold_witness :
  let slot id := Budget.slot (Budget.entries (dm_ledger (ext booted.1.1))) id in
  Budget.closedBy (slot "a") = Budget.KindCommitted ∧ Budget.is_open (slot "b") = true ∧ Budget.closedBy (slot "c") = Budget.KindReleased ∧
  Budget.claim_rows (db (st booted.1.1)) = Budget.claim_rows (db before_boot.1).
Proof.
  cbv zeta. split; [vm_compute; reflexivity|]. split; [vm_compute; reflexivity|]. split; [vm_compute; reflexivity|].
  assert (Hr : ∃ states, booted.2 = Ok states).
  { destruct booted.2 as [m|e] eqn:E; [by exists m|]. exfalso. revert E. vm_compute. discriminate. }
  destruct Hr as [states Hr].
  assert (Hb : booted = (booted.1.1, booted.1.2, Ok states)) by (rewrite <-Hr; destruct booted as [[? ?] ?]; reflexivity).
  destruct (boot_accounts_for_every_hold id id samplePoll (λ m, snd <$> map_to_list m) None true 0 (3000 * Second) (3000 * Second) (4000 * Second)
    (MkWorld before_boot.1 ∅ None (MkDaemon Budget.New DemoPolicy "pol_7") [] []) O _ _ _ before_boot.2 eq_refl
    (Budget.sound_lsteps _ _ _ boot_history_ok Budget.sound_New)
    (filed_lsteps _ (MkStore emptyDB []) Budget.New boot_history_ok Budget.sound_New
       (λ i (Hx : Budget.reserved Budget.zeroEntry = true), False_ind _ (diff_false_true Hx))) Hb) as [Hc _].
  exact Hc.
Defined.
