(* ===== verification/Hiring.v ===== *)
(** Hiring a standing worker ([cmd/snapfall/main.go]: [buildMonitorHire],
    [buildMonitorActivations]): the wiring of the owner's
    workforce page to the hub's milestones. *)
From Stdlib Require Import Ascii String.
From S2P Require Import Prelude GoStr GoTime GoJson Store Proc Envelope Worker Brain Accept Milestone Owner.
From S2P Require Gallery.
#[local] Open Scope Z_scope.
#[local] Open Scope snap_scope.
#[local] Set Default Proof Using "Type".

(** Every result a process can end with, whatever happens around it. *)
Section Results.
Context {B T R : Type}.
Fixpoint results {A} (Q : A → Prop) (p : proc B T R A) : Prop :=
  match p with
  | Ret a => Q a
  | Act f k => ∀ x, results Q (k x)
  | Call t k => ∀ r, results Q (k r)
  | Spawn f k => results Q k
  end.
Lemma results_bind {A C} (P : A → Prop) (Q : C → Prop) (p : proc B T R A) (g : A → proc B T R C) :
  results P p → (∀ a, P a → results Q (g a)) → results Q (bindP p g).
Proof. intros Hp Hg. induction p; cbn in *; auto. Qed.
Lemma results_any {A} (p : proc B T R A) : results (λ _, True) p.
Proof. induction p; cbn; auto. Qed.
Lemma results_then {A C} (Q : C → Prop) (p : proc B T R A) (g : A → proc B T R C) :
  (∀ a, results Q (g a)) → results Q (bindP p g).
Proof. intros Hg. eapply results_bind; [apply results_any|auto]. Qed.
(** What a finished run of it returned. *)
Lemma results_run {A} code (Q : A → Prop) fuel now (p : proc B T R A) : ∀ s s' a l,
  results Q p → run code fuel now p s = Some (s', a, l) → (∀ t, results (λ _, True) (code t)) → Q a.
Proof.
  revert p. induction fuel as [|n IH]; intros p s s' a l Hq Hr Hc; destruct p as [a0|X f k|t k|f k]; cbn in *; try done;
    try (injection Hr as _ <- _; done).
  - destruct (f now s) as [s1 x]. eapply IH; [apply Hq|exact Hr|done].
  - eapply IH; [|exact Hr|done]. by apply results_then.
  - destruct (f now s) as [s1 ot]. destruct (run code n now k s1) as [[[s2 a2] ts]|] eqn:E; [|done]. cbn in Hr.
    injection Hr as _ <- _. by eapply IH.
Qed.
End Results.

Section Hiring.
Context {X : Type} (cfg : Wiring X) (sha256hex : string → string).
Abbreviation proc := (proc (Brain X) Task (option BErr)).
(** [br.Job]. *)
Definition Job (jobID : string) : proc (option jobState) :=
  o <~ act (lookup_job jobID) ;; Ret (snd <$> o).
Definition hire_milestone (repository quote : string) : Milestone :=
  MkMilestone ("hire:" +:+ repository) 1 repository quote.
Definition waiting_stage (st : string) : bool :=
  bool_decide (st = StageScoped) || bool_decide (st = StageConfirmed) || bool_decide (st = StageAssigned).
(** The activation of a milestone that is open but not under way. *)
Definition activate (jobID by_ stage : string) : proc (option BErr) :=
  if bool_decide (stage = StageScoped) then Confirm cfg jobID by_
  else if bool_decide (stage = StageConfirmed) || bool_decide (stage = StageAssigned) then ResumeMilestone cfg jobID
  else ok.
Definition buildMonitorHire (req : HireWorkerRequest) : proc (result BErr HireWorkerResult) :=
  if negb (bool_decide (hw_ManifestID req = BuildMonitorKind)) then fails BNoWorker else
  letR (EnsureMilestone cfg sha256hex (hire_milestone (TrimSpace (hw_Repository req)) (hw_QuoteUSDC req))) (λ cycle,
    o <~ Job (mc_JobID cycle) ;;
    match o with
    | None => fails BUnknownJob
    | Some job =>
      let stage := js_Stage job in
      trying (activate (mc_JobID cycle) (hw_By req) stage)
      (if waiting_stage stage then
        o <~ Job (mc_JobID cycle) ;;
        match o with
        | None => fails BUnknownJob
        | Some job => Ret (Ok (MkHired (mc_JobID cycle) (mc_VaultJobID cycle) (js_Stage job)))
        end
       else Ret (Ok (MkHired (mc_JobID cycle) (mc_VaultJobID cycle) stage)))
    end).
Definition activation_of (m : MilestoneStatus) : option WorkerActivation :=
  match strip_prefix "hire:" (st_Instruction m) with
  | None => None
  | Some _ => Some (MkActivation BuildMonitorKind (st_Repository m) (st_Quote m) (st_JobID m) (st_VaultJobID m) (st_Stage m))
  end.
Definition buildMonitorActivations : proc (result BErr (list WorkerActivation)) :=
  letR (Milestones (X := X)) (λ ms, Ret (Ok (omap activation_of ms))).

(** A hire names its job.  Whatever the hub is doing, the job a hire answers
    with is the one cycle of its repository: hiring again, with any spelling of
    the blanks around it, is never a second job; and another kind of worker is
    refused. *)
Lemma identity_of m : match milestoneIdentity sha256hex m with
  | Ok (c, _, _, _) => c = cycle_of sha256hex (TrimSpace (ms_Instruction m)) (ms_Number m) | Err _ => True end.
Proof. unfold milestoneIdentity. by destruct (_ || _). Qed.
Lemma ensure_results m : results (λ r, match r with
  | Ok c => c = cycle_of sha256hex (TrimSpace (ms_Instruction m)) (ms_Number m) | Err _ => True end) (EnsureMilestone cfg sha256hex m).
Proof.
  unfold EnsureMilestone. pose proof (identity_of m) as Hid. destruct (milestoneIdentity sha256hex m) as [[[[c i] rp] q]|e] eqn:Em; [|done].
  eapply results_bind with (P := λ r, match r with Ok c' => c' = c | Err _ => True end).
  - unfold OpenMilestone. rewrite Em. apply results_then. intros [e|]; [done|]. apply results_then. intros [jm|e]; [|done].
    destruct (_ || _); [done|]. apply results_then. intros [p|]; [|done]. apply results_then. intros [e|]; [|done]. by apply results_then.
  - intros [c'|e] Hc; [by subst|]. destruct e; try done. apply results_then. intros [jm|e]; [|done]. by destruct (same_cycle _ _ _ _ _ _).
Qed.
Lemma hire_answers_its_own_job req : results (λ r, match r with
  | Ok h => hw_ManifestID req = BuildMonitorKind ∧
      let c := cycle_of sha256hex (TrimSpace ("hire:" +:+ TrimSpace (hw_Repository req))) 1 in hr_JobID h = mc_JobID c ∧ hr_VaultJobID h = mc_VaultJobID c
  | Err _ => True end) (buildMonitorHire req).
Proof.
  unfold buildMonitorHire. case_bool_decide as Hk; cbn [negb]; [|done].
  eapply results_bind; [apply ensure_results|]. intros [c|e] Hc; [|done]. cbn [ms_Instruction ms_Number hire_milestone] in Hc. subst c.
  apply results_then. intros [job|]; [|done]. apply results_then. intros [e|]; [done|].
  destruct (waiting_stage _); [|done]. apply results_then. by intros [j|].
Qed.
(** The page lists hires of the one kind that can be hired, each with the
    identity its milestone file has. *)
Lemma activations_are_hires : results (λ r, match r with
  | Ok l => ∀ a, a ∈ l → wa_ManifestID a = BuildMonitorKind | Err _ => True end) buildMonitorActivations.
Proof.
  apply results_then. intros [ms|e]; [|done]. intros a (m & _ & Ha)%list_elem_of_omap. unfold activation_of in Ha.
  destruct (strip_prefix _ _); [|done]. by injection Ha as <-.
Qed.
End Hiring.

(** ** The catalog *)
(** What the owner's page offers ([run]), and the kinds a worker is registered
    for ([wireBrain]). *)
Definition read_only_labels : list string := ["Read-only repo"; "No payments"; "No shell"].
Definition WorkerCatalog : list WorkerManifest :=
  [MkWorkerManifest BuildMonitorKind "Build Monitor" "Engineering operations"
     "Watches committed repository milestones and reports completion evidence to Brain."
     read_only_labels ".snapfall/milestone.json";
   MkWorkerManifest Gallery.ReleaseScribeKind "Release Scribe" "Documentation"
     "Reads committed git history over a revision range and derives release notes for Brain." read_only_labels "";
   MkWorkerManifest Gallery.ComplianceScoutKind "Compliance Scout" "Security & compliance"
     "Scans committed manifests/configs for least-privilege policy alignment and reports findings to Brain."
     read_only_labels "";
   MkWorkerManifest Gallery.IncidentWatchKind "Incident Watch" "Reliability"
     "Watches the H2 event stream for recorded incidents (freeze, reverted advance, failed payment) and probes endpoint liveness."
     ["Read-only stream"; "No payments"; "No shell"] ""].
Definition registered_kinds : list string :=
  ["due-diligence"; BuildMonitorKind; Gallery.ReleaseScribeKind; Gallery.ComplianceScoutKind; Gallery.IncidentWatchKind].
(** Every offer has a registered worker and promises that it cannot pay. *)
Lemma catalog_is_registered : Forall (λ m, wm_ID m ∈ registered_kinds ∧ "No payments" ∈ wm_Permissions m) WorkerCatalog.
Proof. apply (bool_decide_eq_true_1 _). vm_compute. reflexivity. Qed.
(** But only the first of the four can be hired: the hire of any other offer
    is refused before anything is looked at. *)
Lemma only_the_build_monitor_is_hired {X} (cfg : Wiring X) sha256hex m req :
  m ∈ tail WorkerCatalog → hw_ManifestID req = wm_ID m → buildMonitorHire cfg sha256hex req = fails BNoWorker.
Proof.
  intros Hm Hid. unfold buildMonitorHire. rewrite bool_decide_false; [done|]. rewrite Hid. cbn [tail WorkerCatalog] in Hm.
  by repeat (apply elem_of_cons in Hm as [-> | Hm]; [by apply (bool_decide_eq_false_1 _)|]); apply elem_of_nil in Hm.
Qed.
