(* ===== verification/Deployment.v ===== *)
(** Deployment records ([internal/chaincfg]) and explorer links
    ([internal/explorer]).

    A file is the list of the JSON documents it holds, or nothing where it
    cannot be read; [base] is the directory it is in, [is_file] what [os.Stat]
    says of a path, [urlParse] and [urlString] the standard library's URLs.  A
    JSON member is taken by its exact name.  The text of errors is left out. *)
From Stdlib Require Import Ascii String.
From S2P Require Import Prelude GoStr GoTime GoJson Store Decode.
From S2P Require Git Setup H3.
#[local] Open Scope Z_scope.
#[local] Open Scope snap_scope.
#[local] Set Default Proof Using "Type".

(** ** The record *)
Record Network := MkNetwork {
  nw_Name : string; nw_ChainID : Z; nw_CAIP2 : string; nw_RPCURL : string; nw_RPCURLEnv : string; nw_ExplorerURL : string;
  nw_ConfirmationDepth : Z; nw_StartBlock : Z; nw_StartBlockEnv : string }.
Record Contract := MkContract { ct_AddressEnv : string; ct_Address : string; ct_ABI : string; ct_ABIPath : string; ct_Decimals : Z }.
Record Contracts := MkContracts { cs_JobVault : Contract; cs_FloatPool : Contract; cs_AuditAnchor : Contract; cs_USDC : Contract }.
Record Deployment := MkDeployment {
  dp_SchemaVersion : Z; dp_Network : Network; dp_Contracts : Contracts;
  dp_FundedWallets : gmap string string; dp_WalletAddresses : gmap string string }.

(** ** Strict decoding *)
(** [DisallowUnknownFields]. *)
Definition known (names : list string) (v : jval) : option unit :=
  fs ← jfields v; if forallb (λ f : string * jval, bool_decide (f.1 ∈ names)) fs then Some tt else None.
Definition dec_int64 (k : string) (v : jval) : option Z := z ← dec_int k v; if bool_decide (int64_range z) then Some z else None.
Definition dec_uint64 (k : string) (v : jval) : option Z :=
  z ← dec_int k v; if (0 <=? z) && (z <? two64) then Some z else None.
Definition network_of_json (v : jval) : option Network :=
  _ ← known ["name"; "chainId"; "caip2"; "rpcUrl"; "rpcUrlEnv"; "explorerUrl"; "confirmationDepth"; "startBlock"; "startBlockEnv"] v;
  a ← dec_str "name" v; b ← dec_uint64 "chainId" v; c ← dec_str "caip2" v; d ← dec_str "rpcUrl" v; e ← dec_str "rpcUrlEnv" v;
  f ← dec_str "explorerUrl" v; g ← dec_uint64 "confirmationDepth" v; h ← dec_uint64 "startBlock" v; i ← dec_str "startBlockEnv" v;
  Some (MkNetwork a b c d e f g h i).
Definition contract_of_json (v : jval) : option Contract :=
  _ ← known ["addressEnv"; "address"; "abi"; "decimals"] v;
  a ← dec_str "addressEnv" v; b ← dec_str "address" v; c ← dec_str "abi" v; d ← dec_int64 "decimals" v; Some (MkContract a b c "" d).
Definition contracts_of_json (v : jval) : option Contracts :=
  _ ← known ["jobVault"; "floatPool"; "auditAnchor"; "usdc"] v;
  a ← dec_obj "jobVault" v ≫= contract_of_json; b ← dec_obj "floatPool" v ≫= contract_of_json;
  c ← dec_obj "auditAnchor" v ≫= contract_of_json; d ← dec_obj "usdc" v ≫= contract_of_json; Some (MkContracts a b c d).
Definition wallets_of_json (v : jval) : option (gmap string string) :=
  fs ← jfields v; l ← mapM (λ f : string * jval, t ← text_of_element f.2; Some (f.1, t)) fs; Some (list_to_map l).
Definition deployment_of_json (v : jval) : option Deployment :=
  _ ← known ["schemaVersion"; "network"; "contracts"; "fundedWallets"] v;
  a ← dec_int64 "schemaVersion" v; b ← dec_obj "network" v ≫= network_of_json; c ← dec_obj "contracts" v ≫= contracts_of_json;
  d ← dec_obj "fundedWallets" v ≫= wallets_of_json; Some (MkDeployment a b c d ∅).
(** [parse]: one document and nothing behind it. *)
Definition parse (file : option (list jval)) : option Deployment :=
  match file with Some [v] => deployment_of_json v | _ => None end.

Section Deployments.
Context (unicodeLower : string → string) (is_file : string → bool).

(** ** [explorer] *)
Record URL := MkURL { url_Scheme : string; url_Host : string; url_User : bool; url_RawQuery : string; url_Fragment : string; url_Path : string }.
Context (urlParse : string → option URL) (urlString : URL → string).
Definition explorer_New (raw : string) : option string :=
  u ← urlParse (TrimSpace raw);
  if negb (bool_decide (url_Scheme u = "https")) && negb (bool_decide (url_Scheme u = "http")) then None
  else if bool_decide (url_Host u = "") then None
  else if url_User u then None
  else if negb (bool_decide (url_RawQuery u = "")) || negb (bool_decide (url_Fragment u = "")) then None
  else Some (H3.TrimRight_slash (urlString
         (MkURL (url_Scheme u) (url_Host u) false "" "" (H3.TrimRight_slash (url_Path u))))).
Definition normalizeHex (value : string) (byteLength : nat) : option string :=
  let value := ToLower unicodeLower (TrimSpace value) in
  match strip_prefix "0x" value with
  | Some r => if bool_decide (String.length value = (2 + byteLength * 2)%nat) && bool_decide (is_Some (hex_DecodeString r))
              then Some value else None
  | None => None
  end.
Definition TransactionURL (baseURL hash : string) : option string :=
  value ← normalizeHex hash 32; Some (baseURL +:+ "/tx/" +:+ value).
Definition AddressURL (baseURL address : string) : option string :=
  value ← normalizeHex address 20; Some (baseURL +:+ "/address/" +:+ value).

(** ** [chaincfg] *)
Section Env.
Context (env : string → option string).
(** A variable that is set to more than blanks. *)
Definition set_var (name : string) : option string :=
  v ← env name; if bool_decide (TrimSpace v = "") then None else Some v.
Definition resolveNetwork (schema : Z) (n : Network) : option Network :=
  if negb (schema =? 1) then None
  else if bool_decide (nw_Name n = "") || (nw_ChainID n =? 0) then None
  else if negb (bool_decide (nw_CAIP2 n = "eip155:" +:+ FormatUint (nw_ChainID n))) then None
  else
    let rpc := if bool_decide (nw_RPCURLEnv n = "") then nw_RPCURL n
               else match set_var (nw_RPCURLEnv n) with Some v => TrimSpace v | None => nw_RPCURL n end in
    if negb (Git.HasPrefix rpc "http://") && negb (Git.HasPrefix rpc "https://") then None
    else
      _ ← explorer_New (nw_ExplorerURL n);
      block ← (if bool_decide (nw_StartBlockEnv n = "") then Some (nw_StartBlock n)
               else match set_var (nw_StartBlockEnv n) with
                    | Some v => b ← parse_uint (TrimSpace v); if b <? two64 then Some b else None
                    | None => Some (nw_StartBlock n)
                    end);
      Some (MkNetwork (nw_Name n) (nw_ChainID n) (nw_CAIP2 n) rpc (nw_RPCURLEnv n) (nw_ExplorerURL n) (nw_ConfirmationDepth n) block (nw_StartBlockEnv n)).
(** The address an operator named: the variable's over the committed one. *)
Definition named_address (c : Contract) : option string :=
  match set_var (ct_AddressEnv c) with
  | Some v => Some v
  | None => if bool_decide (TrimSpace (ct_Address c) = "") then None else Some (ct_Address c)
  end.
Definition resolveContract (base : string) (c : Contract) : option Contract :=
  if bool_decide (ct_AddressEnv c = "") then None else
  value ← named_address c;
  address ← to_option (normalizeAddress unicodeLower value);
  if bool_decide (ct_ABI c = "") then Some (MkContract (ct_AddressEnv c) address (ct_ABI c) (ct_ABIPath c) (ct_Decimals c))
  else
    let path := Setup.Join base (ct_ABI c) in
    if is_file path then Some (MkContract (ct_AddressEnv c) address (ct_ABI c) path (ct_Decimals c)) else None.
Definition wallet_address (envName : string) : option string :=
  v ← set_var envName; to_option (normalizeAddress unicodeLower v).
Definition resolve (base : string) (d : Deployment) : option Deployment :=
  n ← resolveNetwork (dp_SchemaVersion d) (dp_Network d);
  let cs := dp_Contracts d in
  jv ← resolveContract base (cs_JobVault cs); fp ← resolveContract base (cs_FloatPool cs);
  aa ← resolveContract base (cs_AuditAnchor cs); us ← resolveContract base (cs_USDC cs);
  if negb (ct_Decimals us =? 6) then None
  else
    let wallets := omap wallet_address (dp_FundedWallets d) in
    if negb (bool_decide (dom wallets = dom (dp_FundedWallets d))) then None
    else if bool_decide (wallets = ∅) then None
    else Some (MkDeployment (dp_SchemaVersion d) n (MkContracts jv fp aa us) (dp_FundedWallets d) wallets).
Definition Load (base : string) (file : option (list jval)) : option Deployment := d ← parse file; resolve base d.
Definition LoadNetwork (base : string) (file : option (list jval)) : option (Network * Contract) :=
  d ← parse file;
  n ← resolveNetwork (dp_SchemaVersion d) (dp_Network d);
  us ← resolveContract base (cs_USDC (dp_Contracts d));
  if negb (ct_Decimals us =? 6) then None else Some (n, us).
End Env.
Definition IndexerAddresses (d : Deployment) : list string :=
  [ct_Address (cs_JobVault (dp_Contracts d)); ct_Address (cs_FloatPool (dp_Contracts d)); ct_Address (cs_AuditAnchor (dp_Contracts d))].

(** ** What is loaded *)
Definition is_address (a : string) : Prop := ∃ r, a = "0x" +:+ r ∧ String.length r = 40%nat ∧ sall lower_hex r = true.
Lemma normalizeAddress_shape v a : normalizeAddress unicodeLower v = Ok a → is_address a.
Proof.
  unfold normalizeAddress. set (w := ToLower unicodeLower (TrimSpace v)). destruct (strip_prefix "0x" w) as [r|] eqn:Ep; [|done].
  destruct (_ && _) eqn:Eb; [|done]. intros [= <-]. apply andb_true_iff in Eb as [Hl Hh]. apply bool_decide_eq_true_1 in Hl.
  apply strip_prefix_inv in Ep. exists r. split; [done|]. rewrite Ep in Hl. cbn in Hl. split; [lia|done].
Qed.
Lemma resolveContract_named env base c c' : resolveContract env base c = Some c' →
  ct_AddressEnv c' = ct_AddressEnv c ∧ ct_AddressEnv c ≠ "" ∧ ct_Decimals c' = ct_Decimals c ∧ is_address (ct_Address c') ∧
  (∃ v, match set_var env (ct_AddressEnv c) with Some w => v = w | None => v = ct_Address c end ∧
     normalizeAddress unicodeLower v = Ok (ct_Address c')) ∧
  (ct_ABI c ≠ "" → is_file (ct_ABIPath c') = true).
Proof.
  unfold resolveContract. case_bool_decide as He; [done|]. destruct (named_address env c) as [v|] eqn:Ev; [|done]. cbn [mbind option_bind].
  assert (Hv : match set_var env (ct_AddressEnv c) with Some w => v = w | None => v = ct_Address c end).
  { revert Ev. unfold named_address. destruct (set_var env _) as [w|]; [by intros [= <-]|]. by case_bool_decide; intros [= <-]. }
  destruct (normalizeAddress unicodeLower v) as [a|] eqn:Ea; [|done]. cbn [to_option mbind option_bind]. pose proof (normalizeAddress_shape _ _ Ea).
  case_bool_decide as Hb; [intros [= <-]; cbn; split_and!; try done; by exists v|].
  destruct (is_file _) eqn:Ef; [|done]. intros [= <-]. cbn. split_and!; try done. by exists v.
Qed.
(** The network of a record that resolves. *)
Lemma resolveNetwork_named env schema n n' : resolveNetwork env schema n = Some n' →
  schema = 1 ∧ nw_Name n' = nw_Name n ∧ nw_Name n ≠ "" ∧ nw_ChainID n' = nw_ChainID n ∧ nw_ChainID n ≠ 0 ∧
  nw_CAIP2 n' = "eip155:" +:+ FormatUint (nw_ChainID n') ∧
  (Git.HasPrefix (nw_RPCURL n') "http://" = true ∨ Git.HasPrefix (nw_RPCURL n') "https://" = true) ∧
  is_Some (explorer_New (nw_ExplorerURL n')) ∧
  nw_RPCURL n' = (match (if bool_decide (nw_RPCURLEnv n = "") then None else set_var env (nw_RPCURLEnv n)) with
                  | Some v => TrimSpace v | None => nw_RPCURL n end) ∧
  match (if bool_decide (nw_StartBlockEnv n = "") then None else set_var env (nw_StartBlockEnv n)) with
  | Some v => parse_uint (TrimSpace v) = Some (nw_StartBlock n') ∧ nw_StartBlock n' < two64
  | None => nw_StartBlock n' = nw_StartBlock n
  end.
Proof.
  unfold resolveNetwork. destruct (schema =? 1) eqn:Es; [|done]. apply Z.eqb_eq in Es. cbn [negb].
  destruct (_ || _) eqn:En; [done|]. apply orb_false_iff in En as [Hn Hc]. apply bool_decide_eq_false_1 in Hn. apply Z.eqb_neq in Hc.
  destruct (bool_decide (nw_CAIP2 n = _)) eqn:Eca; [|done]. apply bool_decide_eq_true_1 in Eca. cbn [negb]. cbv zeta.
  set (rpc := if bool_decide (nw_RPCURLEnv n = "") then _ else _).
  assert (Hrpc : rpc = (match (if bool_decide (nw_RPCURLEnv n = "") then None else set_var env (nw_RPCURLEnv n)) with
                  | Some v => TrimSpace v | None => nw_RPCURL n end)) by (subst rpc; by case_bool_decide).
  destruct (negb _ && negb _) eqn:Ep; [done|].
  destruct (explorer_New (nw_ExplorerURL n)) as [ex|] eqn:Eex; [|done]. cbn [mbind option_bind].
  destruct (if bool_decide (nw_StartBlockEnv n = "") then Some (nw_StartBlock n) else _) as [block|] eqn:Eb; [|done]. cbn [mbind option_bind]. intros [= <-].
  cbn [nw_Name nw_ChainID nw_CAIP2 nw_RPCURL nw_RPCURLEnv nw_ExplorerURL nw_StartBlock nw_StartBlockEnv].
  split_and!; try done.
  - apply andb_false_iff in Ep as [Ep|Ep]; apply negb_false_iff in Ep; auto.
  - case_bool_decide; [by injection Eb as <-|]. destruct (set_var env (nw_StartBlockEnv n)) as [v|]; [|by injection Eb as <-].
    destruct (parse_uint (TrimSpace v)) as [b|]; [|done]. cbn in Eb. destruct (b <? two64) eqn:Elt; [|done]. injection Eb as <-.
    split; [done|]. by apply Z.ltb_lt.
Qed.

Definition resolved_contract (env : string → option string) (c c' : Contract) : Prop :=
  ct_AddressEnv c' = ct_AddressEnv c ∧ ct_AddressEnv c ≠ "" ∧ ct_Decimals c' = ct_Decimals c ∧ is_address (ct_Address c') ∧
  (∃ v, match set_var env (ct_AddressEnv c) with Some w => v = w | None => v = ct_Address c end ∧
     normalizeAddress unicodeLower v = Ok (ct_Address c')) ∧
  (ct_ABI c ≠ "" → is_file (ct_ABIPath c') = true).
(** A deployment is loaded only as it was named.  Loading succeeds only on
    a file of one document with no unknown member; what it yields has the
    chain id its CAIP-2 name spells, an http endpoint and a usable explorer,
    six decimals, at least one wallet, and for every contract and wallet an
    address of twenty lower-case hex bytes; and each of them is the one that
    was named: a set variable's over the committed one for the endpoint, the
    start block and the contracts, the variable's alone for a wallet. *)
Lemma deployment_is_as_named env base file d :
  Load env base file = Some d →
  ∃ v d0, file = Some [v] ∧ deployment_of_json v = Some d0 ∧
  dp_SchemaVersion d = 1 ∧
  (let n := dp_Network d0 in let n' := dp_Network d in
   nw_ChainID n' = nw_ChainID n ∧ nw_ChainID n' ≠ 0 ∧ nw_CAIP2 n' = "eip155:" +:+ FormatUint (nw_ChainID n') ∧
   (Git.HasPrefix (nw_RPCURL n') "http://" = true ∨ Git.HasPrefix (nw_RPCURL n') "https://" = true) ∧
   is_Some (explorer_New (nw_ExplorerURL n')) ∧
   nw_RPCURL n' = (match (if bool_decide (nw_RPCURLEnv n = "") then None else set_var env (nw_RPCURLEnv n)) with
                   | Some v => TrimSpace v | None => nw_RPCURL n end) ∧
   match (if bool_decide (nw_StartBlockEnv n = "") then None else set_var env (nw_StartBlockEnv n)) with
   | Some v => parse_uint (TrimSpace v) = Some (nw_StartBlock n') ∧ nw_StartBlock n' < two64
   | None => nw_StartBlock n' = nw_StartBlock n
   end) ∧
  (let c := dp_Contracts d0 in let c' := dp_Contracts d in
   resolved_contract env (cs_JobVault c) (cs_JobVault c') ∧ resolved_contract env (cs_FloatPool c) (cs_FloatPool c') ∧
   resolved_contract env (cs_AuditAnchor c) (cs_AuditAnchor c') ∧ resolved_contract env (cs_USDC c) (cs_USDC c') ∧
   ct_Decimals (cs_USDC c') = 6) ∧
  dp_FundedWallets d = dp_FundedWallets d0 ∧ dp_FundedWallets d ≠ ∅ ∧
  ∀ role name, dp_FundedWallets d !! role = Some name →
    ∃ value a, set_var env name = Some value ∧ normalizeAddress unicodeLower value = Ok a ∧ is_address a ∧ dp_WalletAddresses d !! role = Some a.
Proof.
  unfold Load. destruct (parse file) as [d0|] eqn:Ep; [|done]. cbn [mbind option_bind].
  assert (Hf : ∃ v, file = Some [v] ∧ deployment_of_json v = Some d0) by (destruct file as [[|v [|]]|]; try done; by exists v).
  destruct Hf as (v & Hf & Hv). unfold resolve.
  destruct (resolveNetwork env _ _) as [n|] eqn:En; [|done]. cbn [mbind option_bind].
  destruct (resolveContract env base (cs_JobVault _)) as [jv|] eqn:E1; [|done]. cbn [mbind option_bind].
  destruct (resolveContract env base (cs_FloatPool _)) as [fp|] eqn:E2; [|done]. cbn [mbind option_bind].
  destruct (resolveContract env base (cs_AuditAnchor _)) as [aa|] eqn:E3; [|done]. cbn [mbind option_bind].
  destruct (resolveContract env base (cs_USDC _)) as [us|] eqn:E4; [|done]. cbn [mbind option_bind].
  destruct (ct_Decimals us =? 6) eqn:E6; [|done]. apply Z.eqb_eq in E6. cbn [negb]. cbv zeta.
  destruct (bool_decide (dom _ = _)) eqn:Ed; [|done]. apply bool_decide_eq_true_1 in Ed. cbn [negb].
  case_bool_decide as Hw; [done|]. intros [= <-]. cbn.
  apply resolveNetwork_named in En as (Hs & _ & _ & Hc1 & Hc2 & Hca & Hu & Hx & Hrpc & Hb).
  apply resolveContract_named in E1, E2, E3, E4. exists v, d0. split; [done|]. split; [done|]. split; [done|].
  split; [split_and!; try done; congruence|]. split; [by split_and!|]. split; [done|]. split.
  - intros He. apply Hw. rewrite He. apply map_eq. intros i. by rewrite lookup_omap, lookup_empty.
  - intros role name Hr. assert (Hin : role ∈ dom (omap (wallet_address env) (dp_FundedWallets d0))) by (rewrite Ed; by apply elem_of_dom_2 in Hr).
    apply elem_of_dom in Hin as [a Ha]. pose proof Ha as Ha'. rewrite lookup_omap, Hr in Ha'. cbn in Ha'. unfold wallet_address in Ha'.
    destruct (set_var env name) as [value|] eqn:Ev; [|done]. cbn in Ha'. destruct (normalizeAddress unicodeLower value) as [a'|] eqn:Ea; [|done].
    injection Ha' as ->. exists value, a. split; [done|]. split; [done|]. split; [by eapply normalizeAddress_shape|done].
Qed.

(** The wallet setup reads the same network and the same USDC contract from the
    same file, and needs nothing else of it. *)
Lemma LoadNetwork_agrees env base file d : Load env base file = Some d →
  LoadNetwork env base file = Some (dp_Network d, cs_USDC (dp_Contracts d)).
Proof.
  unfold Load, LoadNetwork. destruct (parse file) as [d0|]; [|done]. cbn [mbind option_bind]. unfold resolve.
  destruct (resolveNetwork env _ _) as [n|]; [|done]. cbn [mbind option_bind].
  destruct (resolveContract env base (cs_JobVault _)); [|done]. cbn [mbind option_bind].
  destruct (resolveContract env base (cs_FloatPool _)); [|done]. cbn [mbind option_bind].
  destruct (resolveContract env base (cs_AuditAnchor _)); [|done]. cbn [mbind option_bind].
  destruct (resolveContract env base (cs_USDC _)) as [us|]; [|done]. cbn [mbind option_bind].
  destruct (negb _); [done|]. cbv zeta. destruct (negb _); [done|]. case_bool_decide; [done|]. by intros [= <-].
Qed.

(** What an explorer link can hold: the base, then lower-case hex. *)
Lemma normalizeHex_shape v n a : normalizeHex v n = Some a →
  ∃ r, a = "0x" +:+ r ∧ String.length r = (n * 2)%nat ∧ is_Some (hex_DecodeString r).
Proof.
  unfold normalizeHex. set (w := ToLower unicodeLower (TrimSpace v)). destruct (strip_prefix "0x" w) as [r|] eqn:Ep; [|done].
  destruct (_ && _) eqn:Eb; [|done]. intros [= <-]. apply andb_true_iff in Eb as [Hl Hh].
  apply bool_decide_eq_true_1 in Hl, Hh. apply strip_prefix_inv in Ep. exists r. split; [done|]. rewrite Ep in Hl. cbn in Hl. split; [lia|done].
Qed.
End Deployments.

(** ** A record *)
Definition sample_urlParse (s : string) : option URL :=
  match strip_prefix "https://" s with Some host => Some (MkURL "https" host false "" "" "") | None => None end.
Definition sample_urlString (u : URL) : string := url_Scheme u +:+ "://" +:+ url_Host u +:+ url_Path u.
Definition sample_contract (extra : list (string * jval)) (name : string) : jval := JObj (("addressEnv", JStr name) :: extra).
Definition sample_usdc_address : string := "0x3600000000000000000000000000000000000000".
Definition sample_record : jval := JObj
  [("schemaVersion", JInt 1);
   ("network", JObj [("name", JStr "arc-testnet"); ("chainId", JInt 5042002); ("caip2", JStr "eip155:5042002");
      ("rpcUrl", JStr "https://rpc.testnet.arc.network"); ("rpcUrlEnv", JStr "ARC_TESTNET_RPC");
      ("explorerUrl", JStr "https://testnet.arcscan.app"); ("confirmationDepth", JInt 0); ("startBlock", JInt 53268443);
      ("startBlockEnv", JStr "SNAPFALL_DEPLOYMENT_BLOCK")]);
   ("contracts", JObj [("jobVault", sample_contract [("address", JStr sample_usdc_address)] "SNAPFALL_JOB_VAULT_ADDRESS");
      ("floatPool", sample_contract [] "SNAPFALL_FLOAT_POOL_ADDRESS"); ("auditAnchor", sample_contract [] "SNAPFALL_AUDIT_ANCHOR_ADDRESS");
      ("usdc", sample_contract [("address", JStr sample_usdc_address); ("decimals", JInt 6)] "ARC_USDC_ADDRESS")]);
   ("fundedWallets", JObj [("operatorTreasury", JStr "SNAPFALL_TREASURY_ADDRESS")])].
Definition sample_chain_env (name : string) : option string :=
  if bool_decide (name ∈ ["SNAPFALL_FLOAT_POOL_ADDRESS"; "SNAPFALL_AUDIT_ANCHOR_ADDRESS"; "SNAPFALL_TREASURY_ADDRESS"])
  then Some " 0xDE9F58A997CF7A3258D09A797EB5546877DC86E5 "
  else if bool_decide (name = "SNAPFALL_DEPLOYMENT_BLOCK") then Some "99" else None.
Abbreviation sample_load := (Load id (λ _, true) sample_urlParse sample_urlString sample_chain_env "deployments").
Lemma deployment_is_as_named_witness : ∃ d, sample_load (Some [sample_record]) = Some d ∧
  ct_Address (cs_FloatPool (dp_Contracts d)) = "0xde9f58a997cf7a3258d09a797eb5546877dc86e5" ∧ nw_StartBlock (dp_Network d) = 99 ∧
  is_address (ct_Address (cs_JobVault (dp_Contracts d))).
Proof.
  destruct (sample_load (Some [sample_record])) as [d|] eqn:E; [|exfalso; revert E; vm_compute; discriminate].
  exists d. split; [reflexivity|].
  assert (Hd : ct_Address (cs_FloatPool (dp_Contracts d)) = "0xde9f58a997cf7a3258d09a797eb5546877dc86e5" ∧ nw_StartBlock (dp_Network d) = 99).
  { revert E. vm_compute. intros [= <-]. split; reflexivity. }
  destruct Hd as [Hf Hb]. split; [exact Hf|]. split; [exact Hb|].
  destruct (deployment_is_as_named id (λ _, true) sample_urlParse sample_urlString sample_chain_env "deployments" _ d E)
    as (v & d0 & _ & _ & _ & _ & ((_ & _ & _ & Ha & _) & _) & _). exact Ha.
Defined.
(** A mistyped member is refused. *)
Example a_typo_is_fatal : sample_load (Some [JObj [("schemaVersion", JInt 1); ("netwrok", JNull)]]) = None.
Proof. reflexivity. Qed.
