(* ===== verification/Scoper.v ===== *)
(** The scope of an owner's request ([internal/brain/scoper_llm.go], and
    [StubScoper] of [chat.go]).

    The hosted model is asked at most once per request; the question is the
    whole HTTP request.  A transport failure, a time-out included, is
    [SFailed].  A JSON member is taken by its exact name. *)
From Stdlib Require Import Ascii String.
From S2P Require Import Prelude GoStr GoTime GoJson Store Ask.
From S2P Require Git.
#[local] Open Scope Z_scope.
#[local] Open Scope snap_scope.
#[local] Set Default Proof Using "Type".

(** ** The deterministic scoper *)
Definition StubScope (request : string) : option (string * string * string) :=
  if bool_decide (request = "") then None
  else Some ("Due-diligence report: " +:+ request, "25.00", "due-diligence").

(** ** The hosted one *)
Definition maxScopeLen : Z := 2000.
Definition defaultScoperModel : string := "claude-haiku-4-5".
Definition anthropicBaseURL : string := "https://api.anthropic.com".
Definition scoperInstruction : string :=
  "You scope a due-diligence task for an autonomous AI workforce. " +:+
  "Given the owner's request, reply with ONE short sentence stating the due-diligence scope. " +:+
  "Output only that sentence — no price, no numbered steps, no code, no instructions, no preamble.".
Record post := MkPost { po_URL : string; po_Headers : list (string * string); po_Body : jval }.
Inductive answer_of_model := SFailed | SHttp (status : Z) (body : option jval).
Abbreviation aprog := (prog post answer_of_model).
Record anthropicScoper := MkScoper { as_apiKey : string; as_model : string }.
(** [NewScoper]: [None] is the deterministic scoper. *)
Definition NewScoper (env : string → option string) : option anthropicScoper :=
  let apiKey := TrimSpace (default "" (env "ANTHROPIC_API_KEY")) in
  if bool_decide (apiKey = "") then None
  else
    let model := TrimSpace (default "" (env "SNAPFALL_SCOPER_MODEL")) in
    Some (MkScoper apiKey (if bool_decide (model = "") then defaultScoperModel else model)).
Definition anthropicRequest (model request : string) : jval :=
  JObj [("model", JStr model); ("max_tokens", JInt 128); ("system", JStr scoperInstruction);
        ("messages", JArr [JObj [("role", JStr "user"); ("content", JStr request)]])].
Definition scoper_post (s : anthropicScoper) (request : string) : post :=
  MkPost (anthropicBaseURL +:+ "/v1/messages")
    [("Content-Type", "application/json"); ("x-api-key", as_apiKey s); ("anthropic-version", "2023-06-01")]
    (json_Marshal (anthropicRequest (as_model s) request)).
Definition block_of_json (v : jval) : option (string * string) := a ← dec_str "type" v; b ← dec_str "text" v; Some (a, b).
Definition response_of_json (v : jval) : option (list (string * string)) :=
  l ← dec_list "content" block_of_json v; _ ← dec_str "stop_reason" v; Some l.
Fixpoint firstText (blocks : list (string * string)) : string :=
  match blocks with [] => "" | (t, x) :: r => if bool_decide (t = "text") then x else firstText r end.
Definition single_line (s : string) : string := String.concat " " (Git.Fields s).
Definition scope_of_answer (a : answer_of_model) : option string :=
  match a with
  | SFailed => None
  | SHttp status body =>
    if negb (status =? 200) then None else
    blocks ← body ≫= response_of_json;
    let scope := TrimSpace (firstText blocks) in
    if bool_decide (scope = "") then None
    else if maxScopeLen <? Z.of_nat (String.length scope) then None
    else Some (single_line scope)
  end.
Definition generate (s : anthropicScoper) (request : string) : aprog (option string) :=
  Ask (scoper_post s request) (λ a, Done (scope_of_answer a)).
Definition Scope (s : anthropicScoper) (request : string) : aprog (option (string * string * string)) :=
  match StubScope request with
  | None => Done None
  | Some (stub, quote, kind) => bindQ (generate s request) (λ o, Done (Some (default stub o, quote, kind)))
  end.
(** The scoper of a process, as the hub is given it. *)
Definition ScopeFrom (s : option anthropicScoper) (request : string) : aprog (option (string * string * string)) :=
  match s with None => Done (StubScope request) | Some s => Scope s request end.

(** ** One line, no longer than the bound *)
Definition breaks_line (c : ascii) : bool := (byteZ c =? 10) || (byteZ c =? 13).
Definition no_break (c : ascii) : bool := negb (breaks_line c).
Lemma byte_is c z : 0 ≤ z < 256 → byteZ c = z → c = chrZ z.
Proof. intros Hz <-. by rewrite chrZ_byteZ. Qed.
Lemma solid_chunk k : wf_chunk k = true → space_chunk k = false → sall no_break (bytes1 k) = true.
Proof.
  intros Hw Hs. assert (Hone : ∀ c, bytes1 k = String c "" → no_break c = true).
  { intros c Hb. unfold no_break, breaks_line. destruct (byteZ c =? 10) eqn:E1, (byteZ c =? 13) eqn:E2; try done; exfalso;
      [apply Z.eqb_eq in E1|apply Z.eqb_eq in E1|apply Z.eqb_eq in E2]; apply byte_is in E1 || apply byte_is in E2; try lia; subst c;
      unfold space_chunk in Hs; rewrite Hb in Hs; apply orb_false_iff in Hs as [Hs _]; vm_compute in Hs; discriminate. }
  assert (Hbig : ∀ c, 128 ≤ byteZ c → no_break c = true).
  { intros c Hc. unfold no_break, breaks_line. by rewrite !(proj2 (Z.eqb_neq _ _)) by lia. }
  unfold wf_chunk, acc2, acc3, acc4, cont, inr in Hw.
  destruct k as [c|c c1|c c1 c2|c c1 c2 c3|c]; cbn [bytes1 sall]; [by rewrite Hone| | | |by rewrite Hone];
    rewrite !andb_true_iff, ?Z.leb_le in Hw; rewrite !Hbig; try done; try lia;
    (repeat match type of Hw with context [if ?b then _ else _] => destruct b end); rewrite ?andb_true_iff, ?Z.leb_le in Hw; lia.
Qed.
Lemma words_solid ks : ∀ w, forallb wf_chunk (w ++ ks) = true → forallb (λ k, negb (space_chunk k)) w = true →
  Forall (λ s, sall no_break s = true) (Git.fields_of w ks).
Proof.
  assert (Hw : ∀ w, forallb wf_chunk w = true → forallb (λ k, negb (space_chunk k)) w = true → sall no_break (concat_map bytes1 w) = true).
  { induction w as [|k w IH]; [done|]. cbn [forallb concat_map]. rewrite !andb_true_iff. intros [H1 H2] [H3 H4].
    rewrite sall_app, IH, solid_chunk by (done || by apply negb_true_iff). done. }
  induction ks as [|k ks IH]; intros w Hwf Hns; cbn [Git.fields_of]; rewrite forallb_app, andb_true_iff in Hwf; destruct Hwf as [H1 H2].
  - destruct w as [|k w]; [constructor|]. constructor; [by apply Hw|constructor].
  - cbn [forallb] in H2. apply andb_true_iff in H2 as [Hk H2]. destruct (space_chunk k) eqn:Es.
    + apply Forall_app. split; [destruct w as [|k' w]; [constructor|]; constructor; [by apply Hw|constructor]|]. by apply IH.
    + apply IH; rewrite ?forallb_app; cbn [forallb]; rewrite ?H1, ?H2, ?Hk, ?Hns, ?Es; done.
Qed.
Lemma concat_no_break l : Forall (λ s, sall no_break s = true) l → sall no_break (String.concat " " l) = true.
Proof.
  induction 1 as [|s l Hs Hl IH]; [done|]. destruct l as [|s' l]; [done|]. cbn [String.concat] in *. rewrite !sall_app, Hs, IH. done.
Qed.
Lemma concat_cons_length s l : (String.length (String.concat " " (s :: l)) ≤ String.length s + 1 + String.length (String.concat " " l))%nat.
Proof. destruct l as [|s' l]; cbn [String.concat]; rewrite ?slength_app; cbn; lia. Qed.
Lemma words_length ks : ∀ w, (String.length (String.concat " " (Git.fields_of w ks)) ≤
  String.length (concat_map bytes1 w) + String.length (concat_map bytes1 ks))%nat.
Proof.
  induction ks as [|k ks IH]; intros w; cbn [Git.fields_of concat_map].
  - destruct w; cbn; lia.
  - assert (Hk : (1 ≤ String.length (bytes1 k))%nat) by (destruct k; cbn; lia). rewrite slength_app. destruct (space_chunk k).
    + specialize (IH []). cbn [concat_map String.length] in IH. destruct w as [|k' w]; [cbn [app]; lia|].
      set (ws := concat_map bytes1 (k' :: w)). pose proof (concat_cons_length ws (Git.fields_of [] ks)). cbn [app]. lia.
    + specialize (IH (w ++ [k])). etransitivity; [exact IH|].
      assert (Happ : ∀ l, concat_map bytes1 (l ++ [k]) = concat_map bytes1 l +:+ bytes1 k).
      { induction l as [|a l IHl]; cbn [app concat_map]; [by rewrite sapp_nil_r|]. by rewrite IHl, sapp_assoc. }
      rewrite Happ, slength_app. lia.
Qed.
Lemma single_line_spec s : sall no_break (single_line s) = true ∧ (String.length (single_line s) ≤ String.length s)%nat.
Proof.
  split.
  - apply concat_no_break. apply words_solid; [apply chunks_wf|done].
  - unfold single_line, Git.Fields. etransitivity; [apply words_length|]. by rewrite chunks_bytes.
Qed.

(** A model proposes words, never money.  Whatever the hosted model
    answers, scoping an owner's request asks it at most the one question,
    whose body holds the model's name, the fixed instruction and the request
    and nothing else; it fails only for an empty request; quote and worker
    kind are the deterministic ones; and the scope is the deterministic one or
    a single line of at most two thousand bytes. *)
Lemma scope_is_bounded {S} (answer : post → S → S * answer_of_model) s request st st' o l :
  serve answer (ScopeFrom s request) st = (st', o, l) →
  (length l ≤ 1)%nat ∧
  (∀ q r, (q, r) ∈ l → ∃ sc, s = Some sc ∧ q = scoper_post sc request ∧
     po_Body q = json_Marshal (anthropicRequest (as_model sc) request)) ∧
  (o = None ↔ request = "") ∧
  ∀ scope quote kind, o = Some (scope, quote, kind) → quote = "25.00" ∧ kind = "due-diligence" ∧
    (scope = "Due-diligence report: " +:+ request ∨
     sall no_break scope = true ∧ Z.of_nat (String.length scope) ≤ maxScopeLen).
Proof.
  unfold ScopeFrom. destruct s as [sc|]; cbn.
  2: { intros [= <- <- <-]. split; [cbn; lia|]. split; [by intros q r ?%elem_of_nil|].
       unfold StubScope. case_bool_decide; (split; [done|]); intros ??? [=]; subst; auto. }
  unfold Scope, StubScope. case_bool_decide as He.
  { cbn. intros [= <- <- <-]. split; [cbn; lia|]. split; [by intros q r ?%elem_of_nil|]. done. }
  cbn. destruct (answer (scoper_post sc request) st) as [s1 r] eqn:Ea. intros [= <- <- <-].
  split; [cbn; lia|]. split; [intros q r' [= -> ->]%list_elem_of_singleton; by exists sc|]. split; [done|].
  intros scope quote kind [= <- <- <-]. split; [done|]. split; [done|].
  destruct (scope_of_answer r) as [x|] eqn:Ex; [right|by left]. cbn [default]. unfold scope_of_answer in Ex.
  destruct r as [|status body]; [done|]. destruct (negb _); [done|]. destruct (body ≫= response_of_json) as [blocks|]; [|done].
  cbn in Ex. case_bool_decide; [done|]. destruct (maxScopeLen <? _) eqn:El; [done|]. injection Ex as <-. apply Z.ltb_ge in El.
  destruct (single_line_spec (TrimSpace (firstText blocks))) as [H1 H2]. unfold id. split; [done|]. lia.
Qed.

(** A model that tries to set a price on a second line. *)
Definition sample_model (q : post) (n : nat) : nat * answer_of_model :=
  (S n, SHttp 200 (Some (JObj [("content", JArr [JObj [("type", JStr "text");
     ("text", JStr ("Check the vendor." +:+ String (chrZ 10) "quote 9000.00"))]])]))).
Definition sample_scoper : option anthropicScoper :=
  NewScoper (λ n, if bool_decide (n = "ANTHROPIC_API_KEY") then Some " key " else None).
Definition sample_scoped := serve sample_model (ScopeFrom sample_scoper "acme") O.
Lemma scope_is_bounded_witness :
  sample_scoped.1.2 = Some ("Check the vendor. quote 9000.00", "25.00", "due-diligence") ∧ (length sample_scoped.2 ≤ 1)%nat.
Proof.
  split; [vm_compute; reflexivity|].
  assert (H : sample_scoped = (sample_scoped.1.1, sample_scoped.1.2, sample_scoped.2)) by (destruct sample_scoped as [[? ?] ?]; reflexivity).
  exact (proj1 (scope_is_bounded sample_model sample_scoper "acme" O _ _ _ H)).
Defined.
(** With no key nothing leaves the machine. *)
Lemma no_key_no_question (answer : post → unit → unit * answer_of_model) env request :
  TrimSpace (default "" (env "ANTHROPIC_API_KEY")) = "" → (serve answer (ScopeFrom (NewScoper env) request) tt).2 = [].
Proof. intros H. unfold NewScoper. by rewrite H. Qed.
