(* ===== verification/Settings.v ===== *)
(** The daemon's settings ([internal/config]) and the correlation of its log
    lines ([internal/logging]).

    [yaml] is the file's document as the strict YAML decoder delivers it, over
    the six known keys; the file is absent, unreadable or does not decode. *)
From Stdlib Require Import Ascii String.
From S2P Require Import Prelude GoStr.
#[local] Open Scope Z_scope.
#[local] Open Scope snap_scope.
#[local] Set Default Proof Using "Type".

(** ** [config] *)
Record Config := MkConfig {
  cf_OrgID : string; cf_DBPath : string; cf_ManifestDir : string; cf_MemoryDir : string; cf_LogLevel : string; cf_HeartbeatMS : Z }.
Definition Defaults : Config := MkConfig "org_demo" "snapfall.db" "manifests" "memory/jobs" "info" 1000.
Inductive file := Absent | Unreadable | Undecodable | Decoded (over : Config).
(** A text that is there, over the one below. *)
Definition over (v base : string) : string := if bool_decide (v = "") then base else v.
Definition overlay (base o : Config) : Config :=
  MkConfig (over (cf_OrgID o) (cf_OrgID base)) (over (cf_DBPath o) (cf_DBPath base)) (over (cf_ManifestDir o) (cf_ManifestDir base))
    (over (cf_MemoryDir o) (cf_MemoryDir base)) (over (cf_LogLevel o) (cf_LogLevel base))
    (if cf_HeartbeatMS o =? 0 then cf_HeartbeatMS base else cf_HeartbeatMS o).
(** [strconv.Atoi] of a positive number; anything else leaves the setting. *)
Definition env_heartbeat (v : string) (base : Z) : Z :=
  match parse_int v with
  | Some n => if bool_decide (int64_range n) && (0 <? n) then n else base
  | None => base
  end.
Definition overlayEnv (env : string → string) (c : Config) : Config :=
  MkConfig (over (env "SNAPFALL_ORG_ID") (cf_OrgID c)) (over (env "SNAPFALL_DB_PATH") (cf_DBPath c))
    (over (env "SNAPFALL_MANIFEST_DIR") (cf_ManifestDir c)) (over (env "SNAPFALL_MEMORY_DIR") (cf_MemoryDir c))
    (over (env "SNAPFALL_LOG_LEVEL") (cf_LogLevel c)) (env_heartbeat (env "SNAPFALL_HEARTBEAT_MS") (cf_HeartbeatMS c)).
Definition levels : list string := ["debug"; "info"; "warn"; "error"].
Definition validate (c : Config) : bool :=
  bool_decide (cf_LogLevel c ∈ levels) && (0 <? cf_HeartbeatMS c) && negb (bool_decide (cf_OrgID c = "")).
(** [path]: one was given; [explicit]: by the operator. *)
Definition Load (path explicit : bool) (f : file) (env : string → string) : option Config :=
  base ← (if path then match f with
          | Decoded o => Some (overlay Defaults o)
          | Absent => if explicit then None else Some Defaults
          | Unreadable | Undecodable => None
          end else Some Defaults);
  let c := overlayEnv env base in if validate c then Some c else None.

(** A loaded configuration can be run with, and no layer can blank a setting. *)
Lemma over_nonempty v base : base ≠ "" → over v base ≠ "".
Proof. unfold over. by case_bool_decide. Qed.
Lemma loaded_is_valid path explicit f env c : Load path explicit f env = Some c →
  cf_LogLevel c ∈ levels ∧ 0 < cf_HeartbeatMS c ∧ cf_OrgID c ≠ "" ∧ cf_DBPath c ≠ "" ∧ cf_ManifestDir c ≠ "".
Proof.
  unfold Load. set (b := if path then _ else _). destruct b as [base|] eqn:Eb; [|done]. cbn [mbind option_bind].
  assert (Hb : cf_DBPath base ≠ "" ∧ cf_ManifestDir base ≠ "").
  { subst b. destruct path; [|by injection Eb as <-]. destruct f; try done; [destruct explicit; [done|by injection Eb as <-]|].
    injection Eb as <-. by split; apply over_nonempty. }
  destruct (validate _) eqn:Ev; [|done]. intros [= <-]. unfold validate in Ev. rewrite !andb_true_iff in Ev. destruct Ev as [[H1 H2] H3].
  apply bool_decide_eq_true_1 in H1. apply Z.ltb_lt in H2. apply negb_true_iff, bool_decide_eq_false_1 in H3.
  destruct Hb. split_and!; try done; by apply over_nonempty.
Qed.
(** Precedence: a variable that is set wins over the file, the file over the
    default. *)
Lemma precedence path explicit o env c : Load path explicit (Decoded o) env = Some c →
  cf_DBPath c = over (env "SNAPFALL_DB_PATH") (if path then over (cf_DBPath o) "snapfall.db" else "snapfall.db") ∧
  cf_OrgID c = over (env "SNAPFALL_ORG_ID") (if path then over (cf_OrgID o) "org_demo" else "org_demo").
Proof. unfold Load. destruct path; cbn [mbind option_bind]; (destruct (validate _); [|done]); by intros [= <-]. Qed.

(** ** [logging] *)
Record Correlation := MkCorrelation { co_Org : string; co_Job : string; co_Task : string; co_Intent : string; co_Advance : string }.
Definition noCorrelation : Correlation := MkCorrelation "" "" "" "" "".
Definition merge (c o : Correlation) : Correlation :=
  MkCorrelation (over (co_Org o) (co_Org c)) (over (co_Job o) (co_Job c)) (over (co_Task o) (co_Task c))
    (over (co_Intent o) (co_Intent c)) (over (co_Advance o) (co_Advance c)).
(** The identifiers in scope of a context, the attributes of a line. *)
Definition With (ctx : option Correlation) (c : Correlation) : option Correlation :=
  Some (match ctx with Some cur => merge cur c | None => c end).
Definition WithJob (ctx : option Correlation) (jobID : string) : option Correlation := With ctx (MkCorrelation "" jobID "" "" "").
Definition attributes (ctx : option Correlation) : list (string * string) :=
  let c := default noCorrelation ctx in
  filter (λ kv, kv.2 ≠ "") [("org_id", co_Org c); ("job_id", co_Job c); ("task_id", co_Task c); ("intent_id", co_Intent c); ("advance_id", co_Advance c)].
(** Merging is overlaying: associative, with the empty correlation as its unit,
    so the nesting of scopes does not matter. *)
Lemma over_assoc a b c : over c (over b a) = over (over c b) a.
Proof. unfold over. repeat case_bool_decide; done. Qed.
Lemma merge_assoc a b c : merge (merge a b) c = merge a (merge b c).
Proof. unfold merge. cbn. by rewrite !over_assoc. Qed.
Lemma merge_unit c : merge noCorrelation c = c ∧ merge c noCorrelation = c.
Proof. destruct c. unfold merge, over. cbn. split; f_equal; case_bool_decide; congruence. Qed.
(** Scoping to a job keeps the organization in scope. *)
Lemma WithJob_keeps_org ctx c jobID : ctx = Some c → co_Org <$> WithJob ctx jobID = Some (co_Org c).
Proof. by intros ->. Qed.
