(* ===== verification/Telegram.v ===== *)
(** The mirror of pending approvals in the owner's chat ([internal/telegram],
    [configureTelegramApprovals] of [cmd/snapfall/main.go]).

    The notifier is a queue and the worker that empties it; [QSend] is one
    call of the bot's interface, [SentReply] what came back of it.  [urlParse]
    and [urlString] are the standard library's URLs. *)
From Stdlib Require Import Ascii String.
From S2P Require Import Prelude GoStr GoTime GoJson Intent Policy Store Approval Ask Deployment.
From S2P Require Git H3.
#[local] Open Scope Z_scope.
#[local] Open Scope snap_scope.
#[local] Set Default Proof Using "Type".

(** ** [Config] *)
Record Config := MkConfig { tg_BotToken : string; tg_ChatID : string; tg_DashboardURL : string }.
Definition Enabled (c : Config) : bool := negb (bool_decide (tg_BotToken c = "")) && negb (bool_decide (tg_ChatID c = "")).
Section Telegram.
Context (urlParse : string → option URL) (urlString : URL → string) (Hostname : string → string).
Definition LoadConfig (env : string → option string) : option Config :=
  let value key := TrimSpace (default "" (env key)) in
  let token := value "SNAPFALL_TELEGRAM_BOT_TOKEN" in
  let chat := value "SNAPFALL_TELEGRAM_CHAT_ID" in
  let dash := value "SNAPFALL_DASHBOARD_URL" in
  let dash := if bool_decide (dash = "") then "http://127.0.0.1:3000" else dash in
  if bool_decide (token = "") && bool_decide (chat = "") then Some (MkConfig token chat dash)
  else if bool_decide (token = "") || bool_decide (chat = "") then None
  else
    u ← urlParse dash;
    if bool_decide (Hostname (url_Host u) = "") then None
    else if negb (bool_decide (url_Scheme u = "http")) && negb (bool_decide (url_Scheme u = "https")) then None
    else if url_User u then None
    else if negb (bool_decide (url_RawQuery u = "")) || negb (bool_decide (url_Fragment u = "")) then None
    else Some (MkConfig token chat dash).

(** ** The message *)
(** [Values.Encode] sorts by key. *)
Definition decision_query (requestID decision : string) : string :=
  (if bool_decide (decision = "") then "" else "decision=" +:+ H3.QueryEscape decision +:+ "&") +:+ "requestId=" +:+ H3.QueryEscape requestID.
Definition decisionURL (base requestID decision : string) : string :=
  match urlParse base with
  | None => ""
  | Some u => urlString (MkURL (url_Scheme u) (url_Host u) (url_User u) (decision_query requestID decision) ""
                (H3.TrimRight_slash (url_Path u) +:+ "/approvals"))
  end.
Definition horizontal_ellipsis : string := String (chrZ 226) (String (chrZ 128) (String (chrZ 166) "")).
Definition middle_dot : string := String (chrZ 194) (String (chrZ 183) "").
(** [oneLine]: [limit] counts runes. *)
Definition oneLine (value : string) (limit : nat) : string :=
  let value := String.concat " " (Git.Fields value) in
  let runes := chunks value in
  if Nat.leb (length runes) limit then value
  else concat_map clean_chunk (take (limit - 1) runes) +:+ horizontal_ellipsis.
Definition line_end : string := String (chrZ 10) "".
Definition approvalText (req : Request) : string :=
  let i := r_Intent req in
  "Approval needed" +:+ line_end +:+ line_end +:+ FormatUSDC (i_AmountMicros i) +:+ " USDC " +:+ middle_dot +:+ " " +:+ oneLine (i_Resource i) 512 +:+ line_end +:+
  "Merchant: " +:+ oneLine (i_Merchant i) 256 +:+ line_end +:+ "Purpose: " +:+ oneLine (i_Purpose i) 512 +:+ line_end +:+
  "Job: " +:+ oneLine (r_JobID req) 128 +:+ line_end +:+ "Expires: " +:+ RFC3339 (r_ExpiresAt req) +:+ line_end +:+
  "Intent hash: " +:+ r_IntentHash req +:+ line_end +:+ line_end +:+
  "Telegram opens the intent-bound dashboard record; the decision is recorded through H2.".
Definition button (text url : string) : jval := JObj [("text", JStr text); ("url", JStr url)].
Definition send_json (c : Config) (req : Request) : jval :=
  let link := decisionURL (tg_DashboardURL c) (r_ID req) in
  JObj [("chat_id", JStr (tg_ChatID c)); ("text", JStr (approvalText req)); ("disable_web_page_preview", JBool true);
        ("reply_markup", JObj [("inline_keyboard", JArr
           [JArr [button "Approve" (link "approve"); button "Reject" (link "reject"); button "Request cheaper" (link "request_alternative")];
            JArr [button "Review full request" (link "")]])])].
Record QSend := MkSend { qs_URL : string; qs_Body : jval }.
Inductive SentReply := SendFailed | SentHttp (status : Z) (body : option jval).
Definition send_request (c : Config) (req : Request) : QSend :=
  MkSend ("https://api.telegram.org/bot" +:+ H3.PathEscape (tg_BotToken c) +:+ "/sendMessage") (json_Marshal (send_json c req)).
Definition accepted (r : SentReply) : bool :=
  match r with
  | SendFailed => false
  | SentHttp status body => (200 <=? status) && (status <? 300) && bool_decide (body ≫= dec_bool "ok" = Some true)
  end.
(** [Send]: whether it succeeded. *)
Definition Send (c : Config) (req : Request) : prog QSend SentReply bool :=
  if negb (Enabled c) then Done false else Ask (send_request c req) (λ r, Done (accepted r)).

(** ** The queue *)
Record Notifier := MkNotifier { nf_cfg : Config; nf_queue : list Request }.
Definition New (c : Config) : Notifier := MkNotifier c [].
Definition Enqueue (req : Request) (n : Notifier) : Notifier := MkNotifier (nf_cfg n) (nf_queue n ++ [req]).
Definition dequeue (n : Notifier) : Notifier * option Request :=
  match nf_queue n with [] => (n, None) | req :: r => (MkNotifier (nf_cfg n) r, Some req) end.
(** One turn of [Run]; a failed send is only logged. *)
Definition turn (n : Notifier) : prog QSend SentReply Notifier :=
  match dequeue n with
  | (n, Some req) => bindQ (Send (nf_cfg n) req) (λ _, Done n)
  | (n, None) => Done n
  end.
(** [configureTelegramApprovals]: the pending ones of a recovered lifecycle are
    queued, and from then on what the lifecycle notifies. *)
Definition configured {W} (c : Config) (w : World W) : option Notifier :=
  if Enabled c then Some (foldl (λ n req, Enqueue req n) (New c) (PendingRequests w)) else None.
(** The worker among the rest of the daemon: [Some req] is a call of the
    lifecycle's hook, [None] a turn of the worker. *)
Fixpoint mirrored {S} (answer : QSend → S → S * SentReply) (acts : list (option Request)) (n : Notifier) (s : S) :
    S * Notifier * list (QSend * SentReply) :=
  match acts with
  | [] => (s, n, [])
  | Some req :: r => mirrored answer r (Enqueue req n) s
  | None :: r =>
    let '(s, n, l) := serve answer (turn n) s in
    let '(s, n, l') := mirrored answer r n s in (s, n, l ++ l')
  end.

(** Every pending approval is mirrored once, in the order they came, whatever
    the other side answers; what is not sent yet is still queued; and a mirror
    is one message with the request's own hash in it, nothing is read back. *)
Lemma mirrored_in_order {S} (answer : QSend → S → S * SentReply) acts : ∀ n s s' n' l, Enabled (nf_cfg n) = true →
  mirrored answer acts n s = (s', n', l) → nf_cfg n' = nf_cfg n ∧
  ∃ sent, l.*1 = send_request (nf_cfg n) <$> sent ∧ sent ++ nf_queue n' = nf_queue n ++ omap id acts.
Proof.
  induction acts as [|[req|] acts IH]; intros n s s' n' l He; cbn [mirrored].
  - intros [= <- <- <-]. split; [done|]. exists []. by rewrite app_nil_r.
  - intros H. apply IH in H as (Hc & sent & Hl & Hq); [|done]. split; [done|]. exists sent. split; [done|].
    rewrite Hq. cbn [Enqueue nf_queue omap list_omap]. cbn. by rewrite <-app_assoc.
  - unfold turn, dequeue. destruct (nf_queue n) as [|req q] eqn:Eq.
    + cbn. destruct (mirrored answer acts n s) as [[s1 n1] l1] eqn:Em. intros [= <- <- <-].
      apply IH in Em as (Hc & sent & Hl & Hq'); [|done]. split; [done|]. exists sent. rewrite Eq in Hq'. done.
    + unfold Send. cbn [nf_cfg]. rewrite He. cbn. destruct (answer (send_request (nf_cfg n) req) s) as [s1 r]. cbn.
      destruct (mirrored answer acts _ s1) as [[s2 n2] l2] eqn:Em. intros [= <- <- <-].
      apply IH in Em as (Hc & sent & Hl & Hq'); [|done]. split; [done|]. exists (req :: sent). cbn in *. rewrite Hl, Hq'. done.
Qed.
Lemma configured_queue {W} c (w : World W) n : configured c w = Some n → nf_cfg n = c ∧ nf_queue n = PendingRequests w ∧ Enabled c = true.
Proof.
  unfold configured. destruct (Enabled c) eqn:E; [|done]. intros [= <-].
  assert (H : ∀ l n0, nf_cfg (foldl (λ n req, Enqueue req n) n0 l) = nf_cfg n0 ∧
    nf_queue (foldl (λ n req, Enqueue req n) n0 l) = nf_queue n0 ++ l).
  { induction l as [|r l IH]; intros n0; cbn; [by rewrite app_nil_r|]. destruct (IH (Enqueue r n0)) as [-> ->].
    cbn. by rewrite <-app_assoc. }
  destruct (H (PendingRequests w) (New c)) as [-> ->]. done.
Qed.
(** A configuration that is half given is refused, an absent one is off. *)
Lemma LoadConfig_both env c : LoadConfig env = Some c → tg_BotToken c = "" ↔ tg_ChatID c = "".
Proof.
  unfold LoadConfig. cbv zeta. destruct (bool_decide _ && bool_decide _) eqn:E.
  - apply andb_true_iff in E as [E1 E2]. apply bool_decide_eq_true_1 in E1, E2. intros [= <-]. cbn. by rewrite E1, E2.
  - destruct (_ || _) eqn:E'; [done|]. apply orb_false_iff in E' as [E1 E2]. apply bool_decide_eq_false_1 in E1, E2.
    destruct (urlParse _); [|done]. cbn. repeat (match goal with |- (if ?b then _ else _) = _ → _ => destruct b; [done|] end).
    intros [= <-]. cbn. split; done.
Qed.
End Telegram.
