(* ===== verification/Demoseed.v ===== *)
(** The arithmetic of the demo's seed ([internal/demoseed]), next to the
    contract rules it anticipates ([contracts/src/FloatPool.sol],
    [contracts/src/JobVault.sol]).

    A [*big.Int] is a [Z], [None] where the code allows nil; [keccak256] is
    go-ethereum's.  The text of [BuildPlan]'s errors is left out, that of
    [ControlBlocker] is kept.  Of the contracts the capital rules are
    modelled: what [createJob] and [requestAdvance] check of payments, caps and
    outstanding principal, in the order of the contracts. *)
From Stdlib Require Import Ascii String.
From S2P Require Import Prelude GoStr GoTime GoJson Amount.
#[local] Open Scope Z_scope.
#[local] Open Scope snap_scope.
#[local] Set Default Proof Using "Type".

(** ** The caps *)
Definition OrgExposureCapBps : Z := 1000.
Definition UtilizationCapBps : Z := 8000.
Definition BpsDenominator : Z := 10000.
(** [int64(rateBps)] of a [uint64]; [Div] is Euclidean. *)
Definition AdvanceFor (priceMicros rateBps : Z) : Z := priceMicros * wrap64 rateBps / BpsDenominator.
Definition capFloor (afterMicros capBps : Z) : Z :=
  let num := afterMicros * BpsDenominator in
  let quo := Z.quot num capBps in
  if Z.rem num capBps =? 0 then quo else quo + 1.
Record Exposure := MkExposure { ex_Org : option Z; ex_Total : option Z }.
Definition orZero (v : option Z) : Z := default 0 v.
Definition RequiredPoolTVL (principal : Z) (ex : Exposure) : Z :=
  let orgFloor := capFloor (orZero (ex_Org ex) + principal) OrgExposureCapBps in
  let utilFloor := capFloor (orZero (ex_Total ex) + principal) UtilizationCapBps in
  if orgFloor <? utilFloor then utilFloor else orgFloor.

(** ** The plan *)
Record Plan := MkPlan {
  pl_Price : Z; pl_RateBps : Z; pl_Advance : Z; pl_RequiredTVL : Z; pl_Exposure : Exposure; pl_BindingCap : string;
  pl_TargetTVL : Z; pl_CurrentTVL : Z; pl_Deposit : Z }.
Definition SeedAlreadySufficient (p : Plan) : bool := pl_Deposit p =? 0.
Definition negative (v : option Z) : bool := match v with Some v => v <? 0 | None => false end.
Definition BuildPlan (price : option Z) (rateBps : Z) (current desired : option Z) (ex : Exposure) : option Plan :=
  price ← price;
  if price <=? 0 then None
  else if rateBps =? 0 then None
  else
    current ← current;
    if current <? 0 then None
    else if negative (ex_Org ex) || negative (ex_Total ex) then None
    else if orZero (ex_Total ex) <? orZero (ex_Org ex) then None
    else
      let advance := AdvanceFor price rateBps in
      if advance =? 0 then None
      else
        let required := RequiredPoolTVL advance ex in
        let binding :=
          if capFloor (orZero (ex_Org ex) + advance) OrgExposureCapBps <? capFloor (orZero (ex_Total ex) + advance) UtilizationCapBps
          then "utilization" else "org exposure" in
        let target := match desired with Some d => if required <? d then d else required | None => required end in
        let deposit := if target - current <? 0 then 0 else target - current in
        Some (MkPlan price rateBps advance required (MkExposure (Some (orZero (ex_Org ex))) (Some (orZero (ex_Total ex)))) binding target current deposit).

(** ** Amounts as text *)
(** Trailing zeros go, two decimals stay; on the reversed bytes. *)
Fixpoint trim_zeros (l : list ascii) : list ascii :=
  match l with
  | c :: (_ :: d :: _) as rest => if bool_decide (c = "0"%char) && negb (bool_decide (d = "."%char)) then trim_zeros rest else l
  | _ => l
  end.
Definition FormatUSDC (micros : option Z) : string :=
  match micros with
  | None => "0.00"
  | Some m =>
    let s := usdc_text (Z.abs m) in
    let t := string_of_list_ascii (rev (trim_zeros (rev (list_ascii_of_string s)))) in
    if m <? 0 then "-" +:+ t else t
  end.
Definition ParseUSDC (v : string) : option Z :=
  if bool_decide (v = "") then None
  else
    let '(whole, frac) := cut_at "." v in
    let frac := default "" frac in
    if Nat.ltb 6 (String.length frac) then None
    else
      let frac := frac +:+ zeros (6 - String.length frac) in
      let whole := if bool_decide (whole = "") then "0" else whole in
      out ← parse_int (whole +:+ frac);
      if out <? 0 then None else Some out.

(** ** The absolute controls *)
Record Controls := MkControls {
  ct_Present : bool; ct_PoolPaused : bool; ct_VaultPaused : bool; ct_MaxTotalExposure : option Z; ct_MaxAdvance : option Z;
  ct_TotalWrittenOff : option Z; ct_MaxJobPayment : option Z }.
Definition LossBudgetLeft (c : Controls) (ex : Exposure) : Z :=
  let left := orZero (ct_MaxTotalExposure c) - orZero (ex_Total ex) - orZero (ct_TotalWrittenOff c) in
  if left <? 0 then 0 else left.
Definition ControlBlocker (c : Controls) (p : Plan) : string :=
  if negb (ct_Present c) then ""
  else if ct_VaultPaused c then "JobVault is paused, so createJob and fund revert EnforcedPause"
  else if orZero (ct_MaxJobPayment c) =? 0 then "JobVault.maxJobPayment is unset, so createJob reverts CapNotSet"
  else if orZero (ct_MaxJobPayment c) <? pl_Price p then
    "the job price " +:+ FormatUSDC (Some (pl_Price p)) +:+ " USDC is above JobVault.maxJobPayment "
    +:+ FormatUSDC (ct_MaxJobPayment c) +:+ ", so createJob reverts JobTooLarge"
  else if ct_PoolPaused c then "FloatPool is paused, so the snap reverts EnforcedPause"
  else if (orZero (ct_MaxTotalExposure c) =? 0) || (orZero (ct_MaxAdvance c) =? 0) then
    "FloatPool caps are unset, so the snap reverts CapNotSet"
  else if orZero (ct_MaxAdvance c) <? pl_Advance p then
    "the advance " +:+ FormatUSDC (Some (pl_Advance p)) +:+ " USDC is above FloatPool.maxAdvance "
    +:+ FormatUSDC (ct_MaxAdvance c) +:+ ", so the snap reverts AdvanceTooLarge"
  else
    let left := LossBudgetLeft c (pl_Exposure p) in
    if left <? pl_Advance p then
      "the advance " +:+ FormatUSDC (Some (pl_Advance p)) +:+ " USDC exceeds what maxTotalExposure "
      +:+ FormatUSDC (ct_MaxTotalExposure c) +:+ " still allows (" +:+ FormatUSDC (Some left) +:+ ": "
      +:+ FormatUSDC (Some (orZero (ex_Total (pl_Exposure p)))) +:+ " open, "
      +:+ FormatUSDC (Some (orZero (ct_TotalWrittenOff c))) +:+ " already written off), so the snap reverts ExposureCapExceeded"
    else "".
Definition JobID (keccak256 : string → string) (runID : string) : string := keccak256 ("snapfall/demo-job/" +:+ runID).

(** ** The contracts' own rules *)
Definition two256 : Z := 2 ^ 256.
(** Checked arithmetic: a result outside [uint256] reverts.  [requestAdvance]
    checks the widest product of each line, which bounds the others. *)
Definition fits256 (z : Z) : bool := (0 <=? z) && (z <? two256).
Inductive refusal :=
| EnforcedPause | NotWired | CapNotSet | JobNotFunded | NotTreasury | DuplicateAdvance | ZeroAmount | AdvanceTooLarge
| InsufficientLiquidity | ExposureCapExceeded | CapExceeded | JobTooLarge | Panic.
Record Pool := MkPool {
  fp_paused : bool; fp_wired : bool; fp_maxTotalExposure : Z; fp_maxAdvance : Z; fp_totalAssets : Z; fp_totalOutstanding : Z;
  fp_totalWrittenOff : Z; fp_orgOutstanding : gmap string Z; fp_rate : gmap string Z; fp_advances : gset string }.
(** What the vault says of a job: is it funded, its operator, its payment. *)
Record VaultJob := MkVaultJob { vj_Funded : bool; vj_Operator : string; vj_Payment : Z }.
Definition owed (p : Pool) (org : string) : Z := default 0 (fp_orgOutstanding p !! org).
(** Issued: the counters move, then the caps are checked on the new position. *)
Definition requestAdvance (p : Pool) (vault : string → VaultJob) (sender jobId : string) : result refusal (Z * Pool) :=
  if fp_paused p then Err EnforcedPause
  else if negb (fp_wired p) then Err NotWired
  else if (fp_maxTotalExposure p =? 0) || (fp_maxAdvance p =? 0) then Err CapNotSet
  else
    let j := vault jobId in
    if negb (vj_Funded j) then Err JobNotFunded
    else if negb (bool_decide (sender = vj_Operator j)) then Err NotTreasury
    else if bool_decide (jobId ∈ fp_advances p) then Err DuplicateAdvance
    else
      let org := vj_Operator j in
      let gross := vj_Payment j * default 0 (fp_rate p !! org) in
      if negb (fits256 gross) then Err Panic
      else
        let principal := gross / 10000 in
        if principal =? 0 then Err ZeroAmount
        else if fp_maxAdvance p <? principal then Err AdvanceTooLarge
        else if negb (fits256 (fp_totalAssets p - fp_totalOutstanding p)) then Err Panic
        else if fp_totalAssets p - fp_totalOutstanding p <? principal then Err InsufficientLiquidity
        else
          let p' := MkPool (fp_paused p) (fp_wired p) (fp_maxTotalExposure p) (fp_maxAdvance p) (fp_totalAssets p)
            (fp_totalOutstanding p + principal) (fp_totalWrittenOff p) (<[org := owed p org + principal]> (fp_orgOutstanding p))
            (fp_rate p) ({[ jobId ]} ∪ fp_advances p) in
          if negb (fits256 (owed p' org)) || negb (fits256 (fp_totalOutstanding p' + fp_totalWrittenOff p)) then Err Panic
          else if fp_maxTotalExposure p <? fp_totalOutstanding p' + fp_totalWrittenOff p then Err ExposureCapExceeded
          else if negb (fits256 (owed p' org * 10000)) || negb (fits256 (UtilizationCapBps * fp_totalAssets p))
                  || negb (fits256 (fp_totalOutstanding p' * 10000)) then Err Panic
          else if OrgExposureCapBps * fp_totalAssets p <? owed p' org * 10000 then Err CapExceeded
          else if UtilizationCapBps * fp_totalAssets p <? fp_totalOutstanding p' * 10000 then Err CapExceeded
          else Ok (principal, p').
(** What [createJob] asks of the payment. *)
Definition createJob_admits (paused : bool) (maxJobPayment payment : Z) : result refusal unit :=
  if paused then Err EnforcedPause
  else if payment =? 0 then Err ZeroAmount
  else if maxJobPayment =? 0 then Err CapNotSet
  else if maxJobPayment <? payment then Err JobTooLarge
  else Ok tt.

(** ** The floor is exact *)
Lemma capFloor_ceiling after cap tvl : 0 ≤ after → 0 < cap → capFloor after cap ≤ tvl ↔ after * 10000 ≤ cap * tvl.
Proof.
  intros Ha Hc. unfold capFloor, BpsDenominator. rewrite Z.quot_div_nonneg, Z.rem_mod_nonneg by lia.
  pose proof (Z.div_mod (after * 10000) cap ltac:(lia)). pose proof (Z.mod_pos_bound (after * 10000) cap Hc).
  set (q := after * 10000 / cap) in *. set (r := (after * 10000) `mod` cap) in *.
  destruct (r =? 0) eqn:E; bool_to_prop; split; intros; nia.
Qed.
(** Deep enough means inside both caps, and then there is also the cash. *)
Lemma RequiredPoolTVL_exact principal ex tvl : 0 ≤ orZero (ex_Org ex) + principal → 0 ≤ orZero (ex_Total ex) + principal →
  RequiredPoolTVL principal ex ≤ tvl ↔
  (orZero (ex_Org ex) + principal) * 10000 ≤ OrgExposureCapBps * tvl ∧ (orZero (ex_Total ex) + principal) * 10000 ≤ UtilizationCapBps * tvl.
Proof.
  intros Ho Ht. rewrite <-!capFloor_ceiling by (unfold OrgExposureCapBps, UtilizationCapBps; lia). unfold RequiredPoolTVL.
  destruct (_ <? _) eqn:E; bool_to_prop; lia.
Qed.
Lemma floor_covers_liquidity principal ex tvl : 0 ≤ orZero (ex_Org ex) + principal → 0 ≤ orZero (ex_Total ex) + principal →
  RequiredPoolTVL principal ex ≤ tvl → principal ≤ tvl - orZero (ex_Total ex).
Proof. intros Ho Ht H. apply RequiredPoolTVL_exact in H as [_ H]; [|done..]. unfold UtilizationCapBps in H. nia. Qed.

(** ** What a plan promises *)
Lemma BuildPlan_inv price rate current desired ex p : BuildPlan (Some price) rate (Some current) desired ex = Some p →
  0 < price ∧ rate ≠ 0 ∧ 0 ≤ current ∧ 0 ≤ orZero (ex_Org ex) ≤ orZero (ex_Total ex) ∧
  pl_Price p = price ∧ pl_RateBps p = rate ∧ pl_Advance p = AdvanceFor price rate ∧ pl_Advance p ≠ 0 ∧
  pl_RequiredTVL p = RequiredPoolTVL (pl_Advance p) ex ∧
  orZero (ex_Org (pl_Exposure p)) = orZero (ex_Org ex) ∧ orZero (ex_Total (pl_Exposure p)) = orZero (ex_Total ex) ∧
  pl_TargetTVL p = Z.max (pl_RequiredTVL p) (default (pl_RequiredTVL p) desired) ∧
  pl_Deposit p = Z.max 0 (pl_TargetTVL p - current).
Proof.
  unfold BuildPlan. cbn [mbind option_bind]. destruct (price <=? 0) eqn:E1; [done|]. destruct (rate =? 0) eqn:E2; [done|].
  destruct (current <? 0) eqn:E3; [done|]. destruct (negative _ || negative _) eqn:E4; [done|].
  destruct (orZero (ex_Total ex) <? orZero (ex_Org ex)) eqn:E5; [done|]. cbv zeta. destruct (AdvanceFor price rate =? 0) eqn:E6; [done|].
  intros [= <-]. cbn [pl_Price pl_RateBps pl_Advance pl_RequiredTVL pl_Exposure pl_TargetTVL pl_Deposit ex_Org ex_Total orZero default].
  apply orb_false_iff in E4 as [Eo Et]. apply Z.leb_gt in E1. apply Z.eqb_neq in E2, E6. apply Z.ltb_ge in E3, E5.
  assert (0 ≤ orZero (ex_Org ex)) by (destruct (ex_Org ex); cbn in *; [by apply Z.ltb_ge in Eo|lia]).
  split_and!; try done.
  - destruct desired as [d|]; cbn; [destruct (_ <? d) eqn:E|]; bool_to_prop; lia.
  - set (t := match desired with Some d => if _ <? d then d else _ | None => _ end). destruct (t - current <? 0) eqn:E; bool_to_prop; lia.
Qed.
Lemma AdvanceFor_nonneg price rate : 0 ≤ price → 0 ≤ rate < 65536 → AdvanceFor price rate = price * rate / 10000 ∧ 0 ≤ AdvanceFor price rate.
Proof.
  intros Hp Hr. unfold AdvanceFor, BpsDenominator. rewrite wrap64_id by (unfold int64_range, min_int64, max_int64; lia).
  split; [done|]. apply Z.div_pos; nia.
Qed.
Lemma some_text_nonempty c s t : String c s +:+ t ≠ "".
Proof. done. Qed.
Lemma ControlBlocker_empty c p : ct_Present c = true → ControlBlocker c p = "" ↔
  ct_VaultPaused c = false ∧ orZero (ct_MaxJobPayment c) ≠ 0 ∧ pl_Price p ≤ orZero (ct_MaxJobPayment c) ∧
  ct_PoolPaused c = false ∧ orZero (ct_MaxTotalExposure c) ≠ 0 ∧ orZero (ct_MaxAdvance c) ≠ 0 ∧
  pl_Advance p ≤ orZero (ct_MaxAdvance c) ∧ pl_Advance p ≤ LossBudgetLeft c (pl_Exposure p).
Proof.
  intros Hp. unfold ControlBlocker. rewrite Hp. cbn [negb]. cbv zeta.
  destruct (ct_VaultPaused c); [by split; [|intros []]|]. destruct (orZero (ct_MaxJobPayment c) =? 0) eqn:E1; bool_to_prop; [by split; [|intros (_ & ? & _)]|].
  destruct (_ <? pl_Price p) eqn:E2; bool_to_prop; [split; [done|lia]|]. destruct (ct_PoolPaused c); [by split; [|intros (_ & _ & _ & [=] & _)]|].
  destruct (_ || _) eqn:E3; [apply orb_true_iff in E3; split; [done|]; destruct E3; bool_to_prop; lia|apply orb_false_iff in E3 as [? ?]; bool_to_prop].
  destruct (_ <? pl_Advance p) eqn:E4; bool_to_prop; [split; [done|lia]|].
  destruct (LossBudgetLeft _ _ <? _) eqn:E5; bool_to_prop; [split; [done|lia]|]. by split.
Qed.

(** ** The plan and the contracts *)
Definition in_range (z : Z) : Prop := 0 ≤ z < 2 ^ 128.
Definition pool_in_range (p : Pool) : Prop :=
  in_range (fp_maxTotalExposure p) ∧ in_range (fp_maxAdvance p) ∧ in_range (fp_totalAssets p) ∧ in_range (fp_totalOutstanding p) ∧
  in_range (fp_totalWrittenOff p) ∧ ∀ org, in_range (owed p org).
(** The controls and the exposure were read of this pool and this vault. *)
Definition reads_of (c : Controls) (ex : Exposure) (pool : Pool) (vaultPaused : bool) (maxJobPayment : Z) (org : string) : Prop :=
  c = MkControls true (fp_paused pool) vaultPaused (Some (fp_maxTotalExposure pool)) (Some (fp_maxAdvance pool))
        (Some (fp_totalWrittenOff pool)) (Some maxJobPayment) ∧
  ex = MkExposure (Some (owed pool org)) (Some (fp_totalOutstanding pool)).
(** What [requestAdvance] asks of a funded job of the caller that has had no
    advance, in range. *)
Definition lends (pool : Pool) (org : string) (principal : Z) : Prop :=
  fp_paused pool = false ∧ fp_maxTotalExposure pool ≠ 0 ∧ fp_maxAdvance pool ≠ 0 ∧ principal ≠ 0 ∧ principal ≤ fp_maxAdvance pool ∧
  principal ≤ fp_totalAssets pool - fp_totalOutstanding pool ∧
  fp_totalOutstanding pool + principal + fp_totalWrittenOff pool ≤ fp_maxTotalExposure pool ∧
  (owed pool org + principal) * 10000 ≤ OrgExposureCapBps * fp_totalAssets pool ∧
  (fp_totalOutstanding pool + principal) * 10000 ≤ UtilizationCapBps * fp_totalAssets pool.
Lemma fits256_in_range z : 0 ≤ z < 2 ^ 200 → fits256 z = true.
Proof. intros H. unfold fits256, two256. apply andb_true_iff. split; [apply Z.leb_le|apply Z.ltb_lt]; lia. Qed.
Lemma requestAdvance_lends pool vault org job price rate : pool_in_range pool → fp_wired pool = true →
  vault job = MkVaultJob true org price → in_range price → fp_rate pool !! org = Some rate → 0 ≤ rate < 65536 → job ∉ fp_advances pool →
  (∃ pool', requestAdvance pool vault org job = Ok (price * rate / 10000, pool')) ↔ lends pool org (price * rate / 10000).
Proof.
  intros (Hme & Hma & Hta & Hto & Htw & How) Hw Hv Hp Hr Hrate Hadv. unfold requestAdvance, lends. rewrite Hw, Hv. cbn [vj_Funded vj_Operator vj_Payment negb].
  rewrite Hr, (bool_decide_true (org = org)), (bool_decide_false (job ∈ _)) by done. cbn [default from_option id negb]. specialize (How org). unfold in_range in *.
  assert (Hg : 0 ≤ price * rate < 2 ^ 144) by nia. rewrite (fits256_in_range (price * rate)) by lia. cbn [negb].
  set (x := price * rate / 10000). assert (Hx : 0 ≤ x < 2 ^ 144) by (subst x; Z.div_mod_to_equations; lia). clearbody x. clear Hg.
  unfold OrgExposureCapBps, UtilizationCapBps.
  set (p' := MkPool _ _ _ _ _ _ _ _ _ _). assert (Ho' : owed p' org = owed pool org + x) by (unfold owed at 1; subst p'; cbn; by rewrite lookup_insert_eq).
  rewrite !Ho'. cbn [fp_totalOutstanding p'].
  rewrite (fits256_in_range (owed pool org + x)), (fits256_in_range (fp_totalOutstanding pool + x + fp_totalWrittenOff pool)),
    (fits256_in_range ((owed pool org + x) * 10000)), (fits256_in_range (8000 * fp_totalAssets pool)), (fits256_in_range ((fp_totalOutstanding pool + x) * 10000)) by lia.
  cbn [negb orb]. destruct (fp_paused pool); [split; [by intros [? [=]]|by intros [[=] _]]|].
  destruct (_ || _) eqn:E1; [apply orb_true_iff in E1; split; [by intros [? [=]]|destruct E1; bool_to_prop; lia]|apply orb_false_iff in E1 as [? ?]; bool_to_prop].
  destruct (x =? 0) eqn:E2; bool_to_prop; [split; [by intros [? [=]]|lia]|].
  destruct (_ <? x) eqn:E3; bool_to_prop; [split; [by intros [? [=]]|lia]|].
  destruct (fits256 (fp_totalAssets pool - _)) eqn:E4; cbn [negb].
  2: { split; [by intros [? [=]]|]. intros (_ & _ & _ & _ & _ & ? & _). rewrite fits256_in_range in E4; [done|lia]. }
  destruct (_ <? x) eqn:E5; bool_to_prop; [split; [by intros [? [=]]|lia]|].
  destruct (_ <? _ + _) eqn:E6; bool_to_prop; [split; [by intros [? [=]]|lia]|].
  destruct (_ <? (owed _ _ + _) * _) eqn:E7; bool_to_prop; [split; [by intros [? [=]]|lia]|].
  destruct (_ <? (_ + _) * _) eqn:E8; bool_to_prop; [split; [by intros [? [=]]|lia]|].
  split; [intros _; by split_and!|intros _; by exists p'].
Qed.
Lemma createJob_admits_spec paused maxJob price : 0 < price → createJob_admits paused maxJob price = Ok tt ↔ paused = false ∧ maxJob ≠ 0 ∧ price ≤ maxJob.
Proof.
  intros Hp. unfold createJob_admits. destruct paused; [by split; [|intros []]|]. destruct (price =? 0) eqn:E; bool_to_prop; [lia|].
  destruct (maxJob =? 0) eqn:E1; bool_to_prop; [by split; [|intros (_ & ? & _)]|]. destruct (maxJob <? price) eqn:E2; bool_to_prop; [split; [done|lia]|]. by split.
Qed.
Lemma snap_lands_iff pool vault vaultPaused maxJob org job price rate c ex p :
  pool_in_range pool → fp_wired pool = true → in_range price → 0 < price → 0 ≤ maxJob →
  vault job = MkVaultJob true org price → fp_rate pool !! org = Some rate → 0 ≤ rate < 65536 → job ∉ fp_advances pool →
  reads_of c ex pool vaultPaused maxJob org → pl_Price p = price → pl_Advance p = AdvanceFor price rate → pl_Advance p ≠ 0 →
  orZero (ex_Total (pl_Exposure p)) = orZero (ex_Total ex) →
  (RequiredPoolTVL (pl_Advance p) ex ≤ fp_totalAssets pool ∧ ControlBlocker c p = "") ↔
  (createJob_admits vaultPaused maxJob price = Ok tt ∧ ∃ pool', requestAdvance pool vault org job = Ok (pl_Advance p, pool')).
Proof.
  intros Hin Hw Hpr Hp Hmj Hv Hr Hrate Hadv [-> ->] Epr Ead Hnz Et. cbn [ex_Org ex_Total orZero default from_option id] in *.
  destruct (AdvanceFor_nonneg price rate ltac:(lia) Hrate) as [Hadf Hge]. rewrite <-Ead in Hge.
  rewrite ControlBlocker_empty, createJob_admits_spec by done.
  pose proof (requestAdvance_lends pool vault org job price rate Hin Hw Hv Hpr Hr Hrate Hadv) as Hl. rewrite <-Hadf, <-Ead in Hl. rewrite Hl. clear Hl.
  destruct Hin as (Hme & Hma & Hta & Hto & Htw & How). specialize (How org). unfold in_range in *.
  rewrite RequiredPoolTVL_exact by (cbn; lia). unfold lends, LossBudgetLeft. rewrite Et, Epr.
  cbn [ct_VaultPaused ct_MaxJobPayment ct_PoolPaused ct_MaxTotalExposure ct_MaxAdvance ct_TotalWrittenOff ex_Org ex_Total orZero default from_option id].
  unfold UtilizationCapBps, OrgExposureCapBps.
  destruct (fp_maxTotalExposure pool - fp_totalOutstanding pool - fp_totalWrittenOff pool <? 0) eqn:El; bool_to_prop; split; intros Hh; destruct_and! Hh; split_and!; try done; lia.
Qed.
(** C19: the plan is exactly what the contracts ask.  For a plan made of a
    pool's own rate and exposure, the pool is as deep as the plan requires and
    no control blocks the run if and only if the vault would take the job and
    the pool would make its advance, for precisely the principal of the plan;
    and the deposit of the plan makes the pool that deep. *)
Theorem ready_iff_snap_lands pool vault vaultPaused maxJob org job price rate current desired c ex p :
  pool_in_range pool → fp_wired pool = true → in_range price → 0 ≤ maxJob →
  vault job = MkVaultJob true org price → fp_rate pool !! org = Some rate → 0 ≤ rate < 65536 → job ∉ fp_advances pool →
  reads_of c ex pool vaultPaused maxJob org → BuildPlan (Some price) rate (Some current) desired ex = Some p →
  ((pl_RequiredTVL p ≤ fp_totalAssets pool ∧ ControlBlocker c p = "") ↔
   (createJob_admits vaultPaused maxJob price = Ok tt ∧ ∃ pool', requestAdvance pool vault org job = Ok (pl_Advance p, pool'))) ∧
  pl_RequiredTVL p ≤ current + pl_Deposit p.
Proof.
  intros Hin Hw Hpr Hmj Hv Hr Hrate Hadv Hread Hb. apply BuildPlan_inv in Hb as (Hp & _ & Hc & _ & Epr & _ & Ead & Hnz & Ereq & Eo & Et & Etg & Edep).
  split; [|lia]. rewrite Ereq. by apply (snap_lands_iff pool vault vaultPaused maxJob org job price rate c ex p).
Qed.

(** ** Amounts round trip *)
Definition trimmed (s : string) : string := string_of_list_ascii (rev (trim_zeros (rev (list_ascii_of_string s)))).
Lemma list_ascii_app a b : list_ascii_of_string (a +:+ b) = list_ascii_of_string a ++ list_ascii_of_string b.
Proof. induction a as [|c a IH]; [done|]. rewrite sapp_cons. cbn. by rewrite IH. Qed.
Lemma string_of_list_app l m : string_of_list_ascii (l ++ m) = string_of_list_ascii l +:+ string_of_list_ascii m.
Proof. induction l as [|c l IH]; [done|]. cbn. by rewrite IH. Qed.
(** Six digits after the dot lose only zeros, and fit again. *)
Lemma trimmed_fraction w f : String.length f = 6%nat → sall isDigit f = true →
  ∃ g, trimmed (w +:+ "." +:+ f) = w +:+ "." +:+ g ∧ f = g +:+ zeros (6 - String.length g) ∧ (2 ≤ String.length g ≤ 6)%nat.
Proof.
  intros Hl Hd. destruct f as [|a [|b [|c [|d [|e [|g [|? ?]]]]]]]; try done. clear Hl. cbn [sall] in Hd.
  assert (Hdot : ∀ x, isDigit x = true → bool_decide (x = "."%char) = false) by (intros x Hx; apply bool_decide_false; by intros ->).
  apply andb_true_iff in Hd as [Ha Hd]. apply andb_true_iff in Hd as [Hb Hd]. apply andb_true_iff in Hd as [Hc Hd]. apply andb_true_iff in Hd as [Hdd _].
  apply Hdot in Ha, Hb, Hc, Hdd. unfold trimmed. rewrite !list_ascii_app, !rev_app_distr. cbn [list_ascii_of_string rev app].
  set (k := rev (list_ascii_of_string w)).
  assert (Hk : ∀ l, string_of_list_ascii (rev (l ++ "."%char :: k)) = w +:+ "." +:+ string_of_list_ascii (rev l)).
  { intros l. rewrite rev_app_distr, string_of_list_app. cbn [rev]. rewrite string_of_list_app. subst k. rewrite rev_involutive, string_of_list_ascii_of_string.
    by rewrite sapp_assoc. }
  cbn [trim_zeros tail]. rewrite Ha, Hb, Hc, Hdd. cbn [negb]. 
  destruct (bool_decide (g = "0"%char)) eqn:E1; [apply bool_decide_eq_true_1 in E1|exists (String a (String b (String c (String d (String e (String g "")))))); split; [exact (Hk [g; e; d; c; b; a])|split; [done|cbn; lia]]].
  destruct (bool_decide (e = "0"%char)) eqn:E2; [apply bool_decide_eq_true_1 in E2|exists (String a (String b (String c (String d (String e ""))))); split; [exact (Hk [e; d; c; b; a])|split; [by subst|cbn; lia]]].
  destruct (bool_decide (d = "0"%char)) eqn:E3; [apply bool_decide_eq_true_1 in E3|exists (String a (String b (String c (String d "")))); split; [exact (Hk [d; c; b; a])|split; [by subst|cbn; lia]]].
  destruct (bool_decide (c = "0"%char)) eqn:E4; [apply bool_decide_eq_true_1 in E4|exists (String a (String b (String c ""))); split; [exact (Hk [c; b; a])|split; [by subst|cbn; lia]]].
  exists (String a (String b "")). rewrite (bool_decide_true ("."%char = "."%char)) by done. cbn [negb]. rewrite andb_false_r.
  split; [exact (Hk [b; a])|split; [by subst|cbn; lia]].
Qed.
Lemma digits_value_app a b : ∀ x v, digits_value x a = Some v → digits_value x (a +:+ b) = digits_value v b.
Proof. induction a as [|c a IH]; intros x v; cbn; [by intros [= ->]|]. destruct (isDigit c); [|done]. apply IH. Qed.
Lemma digits_value_shift f : ∀ x v, digits_value 0 f = Some v → digits_value x f = Some (x * 10 ^ Z.of_nat (String.length f) + v).
Proof.
  assert (H : ∀ f x y v, digits_value y f = Some v → digits_value (x + y) f = Some (x * 10 ^ Z.of_nat (String.length f) + v)).
  { clear. induction f as [|c f IH]; intros x y v; cbn [digits_value String.length]; [intros [= ->]; cbn; f_equal; lia|].
    destruct (isDigit c); [|done]. intros Hv. apply (IH (10 * x)) in Hv. rewrite Nat2Z.inj_succ, Z.pow_succ_r by lia.
    replace (10 * (x + y) + digitZ c) with (10 * x + (10 * y + digitZ c)) by lia. rewrite Hv. f_equal. lia. }
  intros x v Hv. rewrite <-(H f x 0 v Hv). f_equal. lia.
Qed.
(** Printing an amount and reading it back gives the amount. *)
Lemma amounts_round_trip z : 0 ≤ z → ParseUSDC (FormatUSDC (Some z)) = Some z.
Proof.
  intros Hz. unfold FormatUSDC. rewrite Z.abs_eq by done. rewrite (proj2 (Z.ltb_ge z 0)) by done.
  destruct (usdc_text_parts z Hz) as (_ & Hw & Hf & Hl & Hpw & Hpf). change (ParseUSDC (trimmed (usdc_text z)) = Some z). unfold usdc_text.
  destruct (trimmed_fraction (FormatUint (z / 1000000)) _ Hl Hf) as (g & -> & Hg & Hlen). unfold ParseUSDC. set (w := FormatUint (z / 1000000)) in *.
  assert (Hne : w ≠ "") by apply FormatUint_nonempty.
  rewrite bool_decide_false by (destruct w; done). rewrite (cut_at_dot _ _ Hw). cbn [default from_option id].
  rewrite (proj2 (Nat.ltb_ge 6 _)) by lia. rewrite <-Hg, bool_decide_false by done.
  rewrite parse_int_digits by (rewrite sall_app; by rewrite Hw, Hf).
  assert (Hv : parse_uint (w +:+ FormatPad 6 (z `mod` 1000000)) = Some z); [|rewrite Hv; cbn [mbind option_bind]; by rewrite (proj2 (Z.ltb_ge z 0))].
  unfold parse_uint in *. destruct w as [|c w]; [done|]. destruct (String c w +:+ _) eqn:E; [by rewrite sapp_cons in E|]. rewrite <-E.
  rewrite (digits_value_app _ _ _ _ Hpw). destruct (FormatPad 6 _) as [|c' f'] eqn:Ef; [done|]. rewrite (digits_value_shift _ _ _ Hpf), Hl.
  f_equal. change (10 ^ Z.of_nat 6) with 1000000. pose proof (Z.div_mod z 1000000 ltac:(lia)). lia.
Qed.
(** A sign is admitted where the whole part is read with the fraction, and no
    other reading of a sign moves the amount. *)
Example a_plus_is_read : ParseUSDC "+1.5" = Some 1500000 ∧ ParseUSDC "-1.5" = None ∧ ParseUSDC "1.-5" = None ∧ ParseUSDC "1.2.3" = None ∧ ParseUSDC ".5" = Some 500000.
Proof. by vm_compute. Qed.
Example amounts_are_trimmed : FormatUSDC (Some 12500000) = "12.50" ∧ FormatUSDC (Some 40000) = "0.04" ∧ FormatUSDC (Some 1) = "0.000001" ∧ FormatUSDC (Some (-5000000)) = "-5.00".
Proof. by vm_compute. Qed.

(** ** A pool *)
Definition sample_pool : Pool :=
  MkPool false true 400000000 25000000 150000000 2500000 0 {[ "org" := 2500000 ]} {[ "org" := 5000 ]} ∅.
Definition sample_vault (job : string) : VaultJob := MkVaultJob true "org" 25000000.
Definition sample_exposure : Exposure := MkExposure (Some 2500000) (Some 2500000).
Definition sample_controls : Controls := MkControls true false false (Some 400000000) (Some 25000000) (Some 0) (Some 100000000).
Definition sample_plan : Plan := default (MkPlan 0 0 0 0 sample_exposure "" 0 0 0) (BuildPlan (Some 25000000) 5000 (Some 150000000) (Some 150000000) sample_exposure).
Lemma sample_pool_in_range : pool_in_range sample_pool.
Proof.
  unfold pool_in_range, in_range. cbn. split_and!; try lia; intros org; unfold owed; cbn;
    (destruct (decide (org = "org")) as [->|]; [rewrite lookup_singleton_eq|rewrite lookup_singleton_ne by done]; cbn; lia).
Qed.
Lemma ready_iff_snap_lands_witness : pl_RequiredTVL sample_plan = 150000000 ∧
  ∃ pool', requestAdvance sample_pool sample_vault "org" "job" = Ok (12500000, pool').
Proof.
  assert (Hp : BuildPlan (Some 25000000) 5000 (Some 150000000) (Some 150000000) sample_exposure = Some sample_plan) by reflexivity.
  split; [reflexivity|].
  destruct (ready_iff_snap_lands sample_pool sample_vault false 100000000 "org" "job" 25000000 5000 150000000 (Some 150000000) sample_controls
    sample_exposure sample_plan sample_pool_in_range eq_refl ltac:(unfold in_range; lia) ltac:(lia) eq_refl eq_refl ltac:(lia) ltac:(apply not_elem_of_empty)
    ltac:(split; reflexivity) Hp) as [[H _] _].
  destruct H as [_ H]; [|exact H]. split; [vm_compute; discriminate|reflexivity].
Defined.
