(* ===== verification/Seed.v ===== *)
(** Preparing a demo run ([cmd/seed-demo]).

    [seed_run] is the program [run]: it asks the node, and the random source
    for the run's name.  [env] is the environment, [dep] the deployment that was
    loaded, [stamp] and [seededAt] the times it prints, [deadline] the job's.
    [HexToAddress] is go-ethereum's, [bytes20] the bytes of an address.  A run
    ends with nothing (an error), with a plan (a dry run), or with the state it
    writes to disk.  Printing and the file are left out, and the text of errors
    but for the one place that reads it. *)
From Stdlib Require Import Ascii String.
From S2P Require Import Prelude GoStr GoTime GoJson Store Decode Ask ChainClient Demoseed.
From S2P Require Deployment Circle Git Worker Funding.
#[local] Open Scope Z_scope.
#[local] Open Scope snap_scope.
#[local] Set Default Proof Using "Type".

Record position := MkPosition { ps_rateBps : Z; ps_totalAssets : Z; ps_orgOutstanding : Z; ps_totalOutstanding : Z }.
Definition exposure (p : position) : Exposure := MkExposure (Some (ps_orgOutstanding p)) (Some (ps_totalOutstanding p)).
Record RunState := MkRunState {
  rs_RunID : string; rs_JobID : string; rs_CustomerAddr : string; rs_OperatorAddr : string; rs_PriceUSDC : string; rs_BudgetUSDC : string;
  rs_AdvanceUSDC : string; rs_RateBps : Z; rs_PoolTVLUSDC : string; rs_RequiredTVL : string; rs_ExplorerJobURL : string; rs_SeededAt : string }.
Inductive SeedResult := DryRun (p : Plan) | Ready (p : Plan) (st : RunState).
(** [strings.TrimSuffix(s, "/")]. *)
Fixpoint trim_slash (s : string) : string :=
  match s with "" => "" | String c r => if bool_decide (s = "/") then "" else String c (trim_slash r) end.
(** [strings.EqualFold] of two addresses, which are ASCII. *)
Definition same_address (a b : string) : bool := bool_decide (lower_ascii a = lower_ascii b).

Section Seed.
Context (FromHex : string → string) (selector : string → string) (keccak256 : string → string).
Context {Key : Type} (address_of : Key → string) (sign : Key → Z → Tx → option string) (parse_key : string → option Key).
Context (HexToAddress : string → string) (IsHexAddress : string → bool) (bytes20 : string → string).

(** ** Reads pinned to one block *)
Definition readUintAt (to : string) (calldata : option string) (at_ : string) : cprog (option Z) :=
  calldata <-? calldata ;; ret <~~ CallViewAt FromHex to calldata at_ ;; Done (DecodeUint256 ret).
Definition readPosition (fp org at_ : string) : cprog (option position) :=
  rate <~~ readUintAt fp (CalldataAdvanceRate selector (bytes20 org)) at_ ;;
  guardQ (rate <? two64) (
  assets <~~ readUintAt fp (Some (CalldataTotalAssets selector)) at_ ;;
  orgOut <~~ readUintAt fp (CalldataOrgOutstanding selector (bytes20 org)) at_ ;;
  totalOut <~~ readUintAt fp (Some (CalldataTotalOutstanding selector)) at_ ;;
  Done (Some (MkPosition rate assets orgOut totalOut))).
(** The text of an RPC error, and whether it names a revert. *)
Definition rpc_error_text (method : string) (status : Z) (v : jval) : option string :=
  fs ← jfields v; e ← jget "error" fs; _ ← jfields e;
  code ← dec_int "code" e; message ← dec_str "message" e;
  Some (method +:+ ": RPC error " +:+ FormatInt code +:+ ": " +:+ message
        +:+ revertSuffix FromHex selector (jfields e ≫= jget "data") +:+ " (HTTP " +:+ FormatInt status +:+ ")").
Definition reverted (r : reply) : bool :=
  match r with
  | RHttp status (Some v) =>
    match rpc_error_text "eth_call" status v with Some t => Worker.Contains t "execution reverted" | None => false end
  | _ => false
  end.
(** [Some None]: a pool older than the controls. *)
Definition read_pool_paused (fp at_ : string) : cprog (option (option Z)) :=
  if bool_decide (TrimSpace at_ = "") then Done None
  else Ask (QRpc "eth_call" [call_json None fp (CalldataPaused selector); JStr at_]) (λ r,
    Done (match rpc_text r with
          | Some out => match DecodeUint256 (FromHex out) with Some v => Some (Some v) | None => None end
          | None => if reverted r then Some None else None
          end)).
Definition no_controls : Controls := MkControls false false false None None None None.
Definition readControls (fp jv at_ : string) : cprog (option Controls) :=
  poolPaused <~~ read_pool_paused fp at_ ;;
  match poolPaused with
  | None => Done (Some no_controls)
  | Some poolPaused =>
    maxTotalExposure <~~ readUintAt fp (Some (CalldataMaxTotalExposure selector)) at_ ;;
    maxAdvance <~~ readUintAt fp (Some (CalldataMaxAdvance selector)) at_ ;;
    totalWrittenOff <~~ readUintAt fp (Some (CalldataTotalWrittenOff selector)) at_ ;;
    maxJobPayment <~~ readUintAt jv (Some (CalldataMaxJobPayment selector)) at_ ;;
    vaultPaused <~~ readUintAt jv (Some (CalldataPaused selector)) at_ ;;
    Done (Some (MkControls true (negb (poolPaused =? 0)) (negb (vaultPaused =? 0)) (Some maxTotalExposure) (Some maxAdvance)
                  (Some totalWrittenOff) (Some maxJobPayment)))
  end.

(** ** The chain is read again before the run is called ready *)
Definition with_exposure (p : Plan) (ex : Exposure) : Plan :=
  MkPlan (pl_Price p) (pl_RateBps p) (pl_Advance p) (pl_RequiredTVL p) ex (pl_BindingCap p) (pl_TargetTVL p) (pl_CurrentTVL p) (pl_Deposit p).
Definition funded : Z := 1.
Definition verify (jv fp org jobID : string) (plan : Plan) : cprog (option Z) :=
  at_ <~~ BlockNumber FromHex ;;
  ret <~~ CallViewAt FromHex jv (CalldataJobStatus selector jobID) at_ ;;
  status <-? DecodeJobStatus ret ;;
  guardQ (status =? funded) (
  ret <~~ CallViewAt FromHex fp (CalldataOpenAdvanceOf selector jobID) at_ ;;
  adv <-? DecodeOpenAdvance ret ;;
  guardQ (negb adv.2) (
  shares <~~ readUintAt fp (CalldataSharesOf selector (bytes20 org)) at_ ;;
  guardQ (shares =? 0) (
  snap <~~ readPosition fp org at_ ;;
  guardQ (RequiredPoolTVL (pl_Advance plan) (exposure snap) <=? ps_totalAssets snap) (
  controls <~~ readControls fp jv at_ ;;
  guardQ (bool_decide (ControlBlocker controls (with_exposure plan (exposure snap)) = "")) (
  Done (Some (ps_totalAssets snap))))))).

(** ** The run *)
Record Flags := MkFlags {
  fl_operatorKeyEnv : string; fl_customerKeyEnv : string; fl_lpKeyEnv : string; fl_price : string; fl_budget : string;
  fl_poolSeed : string; fl_runID : string; fl_org : string; fl_dryRun : bool }.
(** [show]: an error, or a transaction that was mined and failed, ends the run. *)
Definition shown (p : cprog (option Receipt)) : cprog (option Receipt) :=
  r <~~ p ;; Done (if rt_Reverted r then None else Some r).
Definition arcTestnetChainID : Z := 5042002.
Definition newRunID (stamp : string) : cprog (option string) :=
  nonce <~~ Circle.random 4 ;; Done (Some (stamp +:+ "-" +:+ hex_EncodeToString nonce)).
(** The client that reads, and the organization the advance is priced for. *)
Definition operator_of (fl : Flags) (env : string → option string) (rpcURL : string) (chainID : Z) : option (Client (Key := Key) * string) :=
  if negb (bool_decide (fl_org fl = "")) && negb (IsHexAddress (fl_org fl)) then None
  else if fl_dryRun fl && negb (bool_decide (fl_org fl = "")) then
    c ← NewReadOnly rpcURL chainID; Some (c, HexToAddress (fl_org fl))
  else
    c ← NewFromEnv parse_key env (fl_operatorKeyEnv fl) chainID;
    let org := Address address_of c in
    if negb (bool_decide (fl_org fl = "")) && negb (same_address (fl_org fl) org) then None else Some (c, org).
Section Run.
Context (polls : nat) (fl : Flags) (env : string → option string) (dep : option Deployment.Deployment)
  (stamp seededAt : string) (deadline : Z).
Definition submits (c : Client (Key := Key)) (to : string) (calldata : option string) : cprog (option Receipt) :=
  calldata <-? calldata ;; shown (Submit FromHex address_of sign polls c to calldata).
(** The pool is topped up by the deficit, with the LP's key. *)
Definition top_up (fp usdc : string) (lp : option (Client (Key := Key))) (plan : Plan) : cprog (option unit) :=
  if SeedAlreadySufficient plan then Done (Some tt)
  else
    lp <-? lp ;;
    _ <~~ submits lp usdc (CalldataApprove selector (bytes20 fp) (pl_Deposit plan)) ;;
    _ <~~ submits lp fp (CalldataDeposit selector (pl_Deposit plan) (bytes20 (Address address_of lp))) ;;
    Done (Some tt).
Definition create_and_fund (jv usdc org customerAddr jobID runID : string) (operator customer : Client (Key := Key)) (plan : Plan) (budget : Z) :
    cprog (option unit) :=
  _ <~~ submits operator jv (CalldataCreateJob selector jobID (bytes20 (HexToAddress customerAddr)) (bytes20 org) (pl_Price plan) budget
                               (JobID keccak256 ("terms/" +:+ runID)) deadline) ;;
  _ <~~ submits customer usdc (CalldataApprove selector (bytes20 jv) (pl_Price plan)) ;;
  _ <~~ submits customer jv (Some (CalldataFund selector jobID)) ;;
  Done (Some tt).
Definition run_state (d : Deployment.Deployment) (runID jobID customerAddr org : string) (plan : Plan) (budget observed : Z) : RunState :=
  let fp := FormatUSDC in
  MkRunState runID (data_hex jobID) customerAddr org (fp (Some (pl_Price plan))) (fp (Some budget)) (fp (Some (pl_Advance plan)))
    (pl_RateBps plan) (fp (Some observed)) (fp (Some (pl_RequiredTVL plan)))
    (trim_slash (Deployment.nw_ExplorerURL (Deployment.dp_Network d)) +:+ "/address/"
     +:+ Deployment.ct_Address (Deployment.cs_JobVault (Deployment.dp_Contracts d))) seededAt.
(** What follows the plan: three keys, three parties. *)
Definition seed (d : Deployment.Deployment) (customerAddr fp jv usdc org at_ runID : string) (operator : Client (Key := Key))
    (plan : Plan) (budget : Z) : cprog (option SeedResult) :=
  let chainID := Deployment.nw_ChainID (Deployment.dp_Network d) in
  customer <-? NewFromEnv parse_key env (fl_customerKeyEnv fl) chainID ;;
  guardQ (same_address (Address address_of customer) customerAddr) (
  let lp := NewFromEnv parse_key env (fl_lpKeyEnv fl) chainID in
  guardQ (match lp with Some lp => negb (same_address (Address address_of lp) org) | None => true end) (
  shares <~~ readUintAt fp (CalldataSharesOf selector (bytes20 org)) at_ ;;
  guardQ (shares =? 0) (
  _ <~~ top_up fp usdc lp plan ;;
  let jobID := JobID keccak256 runID in
  _ <~~ create_and_fund jv usdc org customerAddr jobID runID operator customer plan budget ;;
  observed <~~ verify jv fp org jobID plan ;;
  Done (Some (Ready plan (run_state d runID jobID customerAddr org plan budget observed)))))).
Definition seed_run : cprog (option SeedResult) :=
  price <-? ParseUSDC (fl_price fl) ;;
  budget <-? ParseUSDC (fl_budget fl) ;;
  desired <-? ParseUSDC (fl_poolSeed fl) ;;
  d <-? dep ;;
  let n := Deployment.dp_Network d in
  guardQ (Deployment.nw_ChainID n =? arcTestnetChainID) (
  let customerAddr := default "" (Deployment.dp_WalletAddresses d !! "externalCustomer") in
  guardQ (negb (bool_decide (customerAddr = ""))) (
  let cs := Deployment.dp_Contracts d in
  let fp := HexToAddress (Deployment.ct_Address (Deployment.cs_FloatPool cs)) in
  let jv := HexToAddress (Deployment.ct_Address (Deployment.cs_JobVault cs)) in
  let usdc := HexToAddress (Deployment.ct_Address (Deployment.cs_USDC cs)) in
  who <-? operator_of fl env (Deployment.nw_RPCURL n) (Deployment.nw_ChainID n) ;;
  at_ <~~ BlockNumber FromHex ;;
  snap <~~ readPosition fp who.2 at_ ;;
  plan <-? BuildPlan (Some price) (ps_rateBps snap) (Some (ps_totalAssets snap)) (Some desired) (exposure snap) ;;
  controls <~~ readControls fp jv at_ ;;
  guardQ (bool_decide (ControlBlocker controls plan = "")) (
  runID <~~ (if bool_decide (fl_runID fl = "") then newRunID stamp else Done (Some (fl_runID fl))) ;;
  if fl_dryRun fl then Done (Some (DryRun plan)) else seed d customerAddr fp jv usdc who.2 at_ runID who.1 plan budget))).
End Run.
End Seed.

Section Verified.
Context (FromHex : string → string) (selector : string → string) (keccak256 : string → string).
Context {Key : Type} (address_of : Key → string) (sign : Key → Z → Tx → option string) (parse_key : string → option Key).
Context (HexToAddress : string → string) (IsHexAddress : string → bool) (bytes20 : string → string).
Context {S : Type} (answer : question → S → S * reply).
Abbreviation readUintAt := (readUintAt FromHex).
Abbreviation verify := (verify FromHex selector bytes20).

(** The contracts at a block, as far as the run reads them. *)
Record ChainAt := MkChainAt {
  ca_pool : Pool; ca_vault : string → VaultJob; ca_vaultPaused : bool; ca_maxJobPayment : Z; ca_shares : string → Z }.
(** Every answer to this view at this block, of any state of the node, decodes
    to nothing but [x]. *)
Definition views {A} (to calldata tag : string) (dec : string → option A) (x : A) : Prop :=
  ∀ s h v, rpc_text (answer (QRpc "eth_call" [call_json None to calldata; JStr tag]) s).2 = Some h → dec (FromHex h) = Some v → v = x.
Definition word_of (b : bool) : Z := if b then 1 else 0.
(** A node that tells the truth about the pool at [fp] and the vault at [jv],
    or nothing; the pool has its controls, so that [paused] does not revert.
    The last law is the contracts': the advance of a job that is still funded
    is open. *)
Class Truthful (fp jv : string) (chain : string → ChainAt) : Prop := {
  tr_rate tag org cd : CalldataAdvanceRate selector (bytes20 org) = Some cd →
    views fp cd tag DecodeUint256 (default 0 (fp_rate (ca_pool (chain tag)) !! org));
  tr_assets tag : views fp (CalldataTotalAssets selector) tag DecodeUint256 (fp_totalAssets (ca_pool (chain tag)));
  tr_owed tag org cd : CalldataOrgOutstanding selector (bytes20 org) = Some cd →
    views fp cd tag DecodeUint256 (owed (ca_pool (chain tag)) org);
  tr_total tag : views fp (CalldataTotalOutstanding selector) tag DecodeUint256 (fp_totalOutstanding (ca_pool (chain tag)));
  tr_shares tag org cd : CalldataSharesOf selector (bytes20 org) = Some cd → views fp cd tag DecodeUint256 (ca_shares (chain tag) org);
  tr_paused tag : views fp (CalldataPaused selector) tag DecodeUint256 (word_of (fp_paused (ca_pool (chain tag))));
  tr_controls tag s : reverted FromHex selector (answer (QRpc "eth_call" [call_json None fp (CalldataPaused selector); JStr tag]) s).2 = false;
  tr_exposure tag : views fp (CalldataMaxTotalExposure selector) tag DecodeUint256 (fp_maxTotalExposure (ca_pool (chain tag)));
  tr_maxAdvance tag : views fp (CalldataMaxAdvance selector) tag DecodeUint256 (fp_maxAdvance (ca_pool (chain tag)));
  tr_writtenOff tag : views fp (CalldataTotalWrittenOff selector) tag DecodeUint256 (fp_totalWrittenOff (ca_pool (chain tag)));
  tr_maxJob tag : views jv (CalldataMaxJobPayment selector) tag DecodeUint256 (ca_maxJobPayment (chain tag));
  tr_vaultPaused tag : views jv (CalldataPaused selector) tag DecodeUint256 (word_of (ca_vaultPaused (chain tag)));
  tr_status tag job s h : rpc_text (answer (QRpc "eth_call" [call_json None jv (CalldataJobStatus selector job); JStr tag]) s).2 = Some h →
    DecodeJobStatus (FromHex h) = Some funded → vj_Funded (ca_vault (chain tag) job) = true;
  tr_open tag job s h p f : rpc_text (answer (QRpc "eth_call" [call_json None fp (CalldataOpenAdvanceOf selector job); JStr tag]) s).2 = Some h →
    DecodeOpenAdvance (FromHex h) = Some (p, f, false) → vj_Funded (ca_vault (chain tag) job) = true → job ∉ fp_advances (ca_pool (chain tag)) }.

Lemma call_view to calldata tag s s' b l : serve answer (CallViewAt FromHex to calldata tag) s = (s', Some b, l) →
  ∃ h, rpc_text (answer (QRpc "eth_call" [call_json None to calldata; JStr tag]) s).2 = Some h ∧ b = FromHex h.
Proof.
  intros H. apply serve_guard_some in H as [_ H]. apply serve_try_some in H as (h & s1 & l1 & l2 & H1 & H2 & _).
  apply serve_done in H2 as (_ & H2 & _). injection H2 as ->. exists h. split; [|done].
  apply serve_rpc in H1 as (r & Ha & _ & Hr). cbn. by rewrite Ha.
Qed.
Lemma read_uint to calldata tag s s' v l : serve answer (readUintAt to calldata tag) s = (s', Some v, l) →
  ∃ cd h s0, calldata = Some cd ∧ rpc_text (answer (QRpc "eth_call" [call_json None to cd; JStr tag]) s0).2 = Some h ∧ DecodeUint256 (FromHex h) = Some v.
Proof.
  intros H. apply serve_let_some in H as (cd & -> & H). apply serve_try_some in H as (b & s1 & l1 & l2 & H1 & H2 & _).
  apply call_view in H1 as (h & Hh & ->). apply serve_done in H2 as (_ & H2 & _). by exists cd, h, s.
Qed.
Lemma read_view to cd tag x s s' v l : views to cd tag DecodeUint256 x → serve answer (readUintAt to (Some cd) tag) s = (s', Some v, l) → v = x.
Proof. intros Hx (cd' & h & s0 & [= <-] & Hh & Hd)%read_uint. by eapply Hx. Qed.
Lemma read_packed to cd tag x s s' v l : (∀ d, cd = Some d → views to d tag DecodeUint256 x) →
  serve answer (readUintAt to cd tag) s = (s', Some v, l) → v = x.
Proof. intros Hx (cd' & h & s0 & -> & Hh & Hd)%read_uint. by eapply Hx. Qed.

Context (fp jv : string) (chain : string → ChainAt) {HT : Truthful fp jv chain}.
Lemma readPosition_true org tag s s' p l : serve answer (readPosition FromHex selector bytes20 fp org tag) s = (s', Some p, l) →
  let pool := ca_pool (chain tag) in
  p = MkPosition (default 0 (fp_rate pool !! org)) (fp_totalAssets pool) (owed pool org) (fp_totalOutstanding pool).
Proof using HT.
  intros H. apply serve_try_some in H as (rate & s1 & l1 & m1 & H1 & H & _). apply read_packed with (x := default 0 (fp_rate (ca_pool (chain tag)) !! org)) in H1 as ->; [|intros; by apply tr_rate].
  apply serve_guard_some in H as [_ H]. apply serve_try_some in H as (a & s2 & l2 & m2 & H2 & H & _). pose proof (read_view _ _ _ _ _ _ _ _ (tr_assets tag) H2) as ->.
  apply serve_try_some in H as (o & s3 & l3 & m3 & H3 & H & _). apply read_packed with (x := owed (ca_pool (chain tag)) org) in H3 as ->; [|intros; by apply tr_owed].
  apply serve_try_some in H as (t & s4 & l4 & m4 & H4 & H & _). pose proof (read_view _ _ _ _ _ _ _ _ (tr_total tag) H4) as ->.
  apply serve_done in H as (_ & H & _). by injection H as ->.
Qed.
Lemma word_of_flag b : negb (word_of b =? 0) = b.
Proof. by destruct b. Qed.
Definition controls_of (c : ChainAt) : Controls :=
  let pool := ca_pool c in
  MkControls true (fp_paused pool) (ca_vaultPaused c) (Some (fp_maxTotalExposure pool)) (Some (fp_maxAdvance pool)) (Some (fp_totalWrittenOff pool))
    (Some (ca_maxJobPayment c)).
Definition exposure_of (c : ChainAt) (org : string) : Exposure :=
  MkExposure (Some (owed (ca_pool c) org)) (Some (fp_totalOutstanding (ca_pool c))).
Lemma readControls_true tag s s' c l : serve answer (readControls FromHex selector fp jv tag) s = (s', Some c, l) →
  c = controls_of (chain tag).
Proof using HT.
  intros H. apply serve_try_some in H as (pp & s0 & l0 & m0 & H0 & H & _).
  assert (Hpp : pp = Some (word_of (fp_paused (ca_pool (chain tag))))).
  { unfold read_pool_paused in H0. case_bool_decide; [done|]. cbn in H0. pose proof (tr_controls tag s) as Hno.
    pose proof (tr_paused tag s) as Ht. destruct (answer _ s) as [s9 r9]. cbn in Hno, Ht. injection H0 as _ Hr _.
    destruct (rpc_text r9) as [h|]; [|by rewrite Hno in Hr]. destruct (DecodeUint256 (FromHex h)) as [v|] eqn:Ev; [|done].
    injection Hr as <-. f_equal. by eapply Ht. }
  subst pp. apply serve_try_some in H as (v1 & s1 & l1 & m1 & H1 & H & _). pose proof (read_view _ _ _ _ _ _ _ _ (tr_exposure tag) H1) as ->.
  apply serve_try_some in H as (v2 & s2 & l2 & m2 & H2 & H & _). pose proof (read_view _ _ _ _ _ _ _ _ (tr_maxAdvance tag) H2) as ->.
  apply serve_try_some in H as (v3 & s3 & l3 & m3 & H3 & H & _). pose proof (read_view _ _ _ _ _ _ _ _ (tr_writtenOff tag) H3) as ->.
  apply serve_try_some in H as (v4 & s4 & l4 & m4 & H4 & H & _). pose proof (read_view _ _ _ _ _ _ _ _ (tr_maxJob tag) H4) as ->.
  apply serve_try_some in H as (v5 & s5 & l5 & m5 & H5 & H & _). pose proof (read_view _ _ _ _ _ _ _ _ (tr_vaultPaused tag) H5) as ->.
  apply serve_done in H as (_ & H & _). injection H as ->. by rewrite !word_of_flag.
Qed.
(** What a verification finds, at the one block it names. *)
Definition found_ready (c : ChainAt) (org job : string) (plan : Plan) : Prop :=
  ca_shares c org = 0 ∧ vj_Funded (ca_vault c job) = true ∧ (job ∉ fp_advances (ca_pool c)) ∧
  RequiredPoolTVL (pl_Advance plan) (exposure_of c org) ≤ fp_totalAssets (ca_pool c) ∧
  ControlBlocker (controls_of c) (with_exposure plan (exposure_of c org)) = "".
Lemma verify_true org job plan s s' tvl l : serve answer (verify jv fp org job plan) s = (s', Some tvl, l) →
  ∃ h tag, told l (QRpc "eth_blockNumber" []) h ∧ tag = RpcSource.hex_format (quantity FromHex h) ∧
  tvl = fp_totalAssets (ca_pool (chain tag)) ∧ found_ready (chain tag) org job plan.
Proof using HT.
  intros H. apply serve_try_some in H as (tag & s1 & l1 & m1 & Hb & H & ->).
  apply serve_try_some in Hb as (h & s0 & l0 & m0 & Hb & Hd & ->). apply serve_rpc in Hb as (r & _ & -> & Hr).
  apply serve_done in Hd as (_ & Hd & ->). cbn zeta in Hd. destruct (_ =? 0); [done|]. injection Hd as ->.
  exists h, (RpcSource.hex_format (quantity FromHex h)). set (tag := RpcSource.hex_format _) in *. split; [exists r; split; [by left|done]|]. split; [done|].
  apply serve_try_some in H as (ret & s2 & l2 & m2 & Hs & H & _). apply call_view in Hs as (hs & Hhs & ->).
  apply serve_let_some in H as (st & Hst & H). apply serve_guard_some in H as [->%Z.eqb_eq H].
  pose proof (tr_status tag job _ _ Hhs Hst) as Hf.
  apply serve_try_some in H as (ret & s3 & l3 & m3 & Ho & H & _). apply call_view in Ho as (ho & Hho & ->).
  apply serve_let_some in H as ([[p f] o] & Hop & H). apply serve_guard_some in H as [Hno H]. destruct o; [done|].
  pose proof (tr_open tag job _ _ _ _ Hho Hop Hf) as Hadv.
  apply serve_try_some in H as (sh & s4 & l4 & m4 & Hsh & H & _). apply read_packed with (x := ca_shares (chain tag) org) in Hsh as ->; [|intros; by apply tr_shares].
  apply serve_guard_some in H as [Hz%Z.eqb_eq H].
  apply serve_try_some in H as (snap & s5 & l5 & m5 & Hp & H & _). apply readPosition_true in Hp as ->.
  apply serve_guard_some in H as [Hfloor%Z.leb_le H].
  apply serve_try_some in H as (c & s6 & l6 & m6 & Hc & H & _). apply readControls_true in Hc as ->.
  apply serve_guard_some in H as [Hcb%bool_decide_eq_true_1 H]. apply serve_done in H as (_ & H & _). injection H as ->. by split_and!.
Qed.
End Verified.

(** ** Ready means ready *)
Section Readiness.
Context (FromHex : string → string) (selector : string → string) (keccak256 : string → string).
Context {Key : Type} (address_of : Key → string) (sign : Key → Z → Tx → option string) (parse_key : string → option Key).
Context (HexToAddress : string → string) (IsHexAddress : string → bool) (bytes20 : string → string).
Context {S : Type} (answer : question → S → S * reply).
Context (polls : nat) (fl : Flags) (env : string → option string) (d : Deployment.Deployment) (stamp seededAt : string) (deadline : Z).
Abbreviation seed_run := (seed_run FromHex selector keccak256 address_of sign parse_key HexToAddress IsHexAddress bytes20
  polls fl env (Some d) stamp seededAt deadline).
Definition pool_address : string := HexToAddress (Deployment.ct_Address (Deployment.cs_FloatPool (Deployment.dp_Contracts d))).
Definition vault_address : string := HexToAddress (Deployment.ct_Address (Deployment.cs_JobVault (Deployment.dp_Contracts d))).
Context (chain : string → ChainAt) {HT : Truthful FromHex selector bytes20 answer pool_address vault_address chain}.

(** A run that ends ready went through a plan and a verification. *)
Lemma seed_run_ready s s' p st l : serve answer seed_run s = (s', Some (Ready p st), l) →
  fl_dryRun fl = false ∧
  ∃ price desired planned runID op observed s1 s2 l1 l2 l3,
    ParseUSDC (fl_price fl) = Some price ∧ NewFromEnv parse_key env (fl_operatorKeyEnv fl) arcTestnetChainID = Some op ∧
    BuildPlan (Some price) (ps_rateBps planned) (Some (ps_totalAssets planned)) (Some desired) (exposure planned) = Some p ∧
    serve answer (verify FromHex selector bytes20 vault_address pool_address (Address address_of op) (JobID keccak256 runID) p) s1 = (s2, Some observed, l2) ∧
    l = l1 ++ l2 ++ l3 ∧ rs_JobID st = data_hex (JobID keccak256 runID) ∧ rs_OperatorAddr st = Address address_of op ∧
    rs_PoolTVLUSDC st = FormatUSDC (Some observed).
Proof using Type.
  intros H. apply serve_let_some in H as (price & Hprice & H). apply serve_let_some in H as (budget & _ & H). apply serve_let_some in H as (desired & _ & H).
  apply serve_let_some in H as (d' & [= <-] & H). apply serve_guard_some in H as [Hid%Z.eqb_eq H]. apply serve_guard_some in H as [_ H].
  apply serve_let_some in H as ([op org] & Hop & H). cbn [fst snd] in H.
  apply serve_try_some in H as (tag & sa & la & ma & _ & H & ->). apply serve_try_some in H as (snap & sb & lb & mb & _ & H & ->).
  apply serve_let_some in H as (plan & Hplan & H). apply serve_try_some in H as (c & sc & lc & mc & _ & H & ->).
  apply serve_guard_some in H as [_ H]. apply serve_try_some in H as (runID & sd & ld & md & _ & H & ->).
  destruct (fl_dryRun fl) eqn:Edry; [apply serve_done in H as (_ & [=] & _)|]. split; [done|].
  apply serve_let_some in H as (customer & _ & H). apply serve_guard_some in H as [_ H]. apply serve_guard_some in H as [_ H].
  apply serve_try_some in H as (sh & se & le & me & _ & H & ->). apply serve_guard_some in H as [_ H].
  apply serve_try_some in H as ([] & sf & lf & mf & _ & H & ->). apply serve_try_some in H as ([] & sg & lg & mg & _ & H & ->).
  apply serve_try_some in H as (observed & sh' & lh & mh & Hv & H & ->). apply serve_done in H as (_ & [= -> ->] & ->).
  assert (Horg : NewFromEnv parse_key env (fl_operatorKeyEnv fl) arcTestnetChainID = Some op ∧ org = Address address_of op).
  { revert Hop. unfold operator_of. rewrite Edry, <-Hid. destruct (_ && _); [done|]. cbn [andb].
    destruct (NewFromEnv _ _ _ _) as [c'|]; [|done]. cbn. destruct (_ && _); [done|]. by intros [= -> <-]. }
  destruct Horg as [Hnew ->].
  exists price, desired, snap, runID, op, observed, sg, sh', (la ++ lb ++ lc ++ ld ++ le ++ lf ++ lg), lh, [].
  split_and!; try done. by rewrite <-!app_assoc.
Qed.
End Readiness.

(** ** A dry run sends nothing *)
Section Dry.
Context (FromHex : string → string) (selector : string → string) (keccak256 : string → string).
Context {Key : Type} (address_of : Key → string) (sign : Key → Z → Tx → option string) (parse_key : string → option Key).
Context (HexToAddress : string → string) (IsHexAddress : string → bool) (bytes20 : string → string).
Definition quiet (q : question) : Prop := is_send q = false.
Lemma quiet_rpc {A} method params (g : string → cprog (option A)) : is_send (QRpc method params) = false → (∀ h, asks_only quiet (g h)) →
  asks_only quiet (h <~~ rpc method params ;; g h).
Proof. intros Hq Hg. by apply asks_try. Qed.
Lemma quiet_view to calldata tag : asks_only quiet (CallViewAt FromHex to calldata tag).
Proof. apply asks_guard. intros _. by apply quiet_rpc. Qed.
Lemma quiet_read to calldata tag : asks_only quiet (readUintAt FromHex to calldata tag).
Proof. apply asks_let. intros cd _. by apply asks_try; [apply quiet_view|]. Qed.
Lemma quiet_position fp org tag : asks_only quiet (readPosition FromHex selector bytes20 fp org tag).
Proof.
  apply asks_try; [apply quiet_read|]. intros rate. apply asks_guard. intros _.
  do 3 (apply asks_try; [apply quiet_read|]; intros ?). done.
Qed.
Lemma quiet_controls fp jv tag : asks_only quiet (readControls FromHex selector fp jv tag).
Proof.
  apply asks_try; [unfold read_pool_paused; by case_bool_decide|]. intros [p|]; [|done].
  do 5 (apply asks_try; [apply quiet_read|]; intros ?). done.
Qed.
Lemma quiet_block : asks_only quiet (BlockNumber FromHex).
Proof. by apply quiet_rpc. Qed.
(** Whatever the node answers, a dry run asks it for views only. *)
Lemma dry_run_sends_nothing polls fl env dep stamp seededAt deadline : fl_dryRun fl = true →
  asks_only quiet (seed_run FromHex selector keccak256 address_of sign parse_key HexToAddress IsHexAddress bytes20 polls fl env dep stamp seededAt deadline).
Proof.
  intros Hd. do 3 (apply asks_let; intros ? _). apply asks_let. intros d _. do 2 (apply asks_guard; intros _). apply asks_let. intros who _.
  apply asks_try; [apply quiet_block|]. intros tag. apply asks_try; [apply quiet_position|]. intros snap. apply asks_let. intros plan _.
  apply asks_try; [apply quiet_controls|]. intros c. apply asks_guard. intros _. apply asks_try; [destruct (bool_decide _); [apply asks_try; [split; [done|by intros]|by intros]|done]|]. intros runID. by rewrite Hd.
Qed.
End Dry.

(** ** What the verification does not look at *)
(** The rate is read again and not compared: when it has risen since the plan,
    the run is still called ready, and the advance is refused. *)
Definition risen_pool : Pool := MkPool false true 400000000 25000000 125000000 0 0 ∅ {[ "org" := 5500 ]} ∅.
Definition risen_chain : ChainAt := MkChainAt risen_pool (λ _, MkVaultJob true "org" 25000000) false 100000000 (λ _, 0).
Lemma a_risen_rate_is_called_ready : ∃ plan,
  BuildPlan (Some 25000000) 5000 (Some 125000000) None (MkExposure (Some 0) (Some 0)) = Some plan ∧
  found_ready risen_chain "org" "job" plan ∧
  requestAdvance (ca_pool risen_chain) (ca_vault risen_chain) "org" "job" = Err CapExceeded.
Proof.
  eexists. split; [reflexivity|]. split; [|reflexivity]. unfold found_ready. split_and!; try reflexivity. apply not_elem_of_empty.
Qed.

(** ** A run *)
Definition sample_bytes20 (org : string) : string := if bool_decide (org = "0xme") then "mmmmmmmmmmmmmmmmmmmm" else "oooooooooooooooooooo".
Definition sample_state : ChainAt :=
  MkChainAt (MkPool false true 400000000 25000000 150000000 0 0 ∅ {[ "0xme" := 5000 ]} ∅) (λ job, MkVaultJob (bool_decide (job = "job")) "0xme" 25000000)
    false 100000000 (λ _, 0).
Definition sel (sig : string) : string := sig.
Definition sample_views : list (string * string * Z) :=
  let own (f : string → option string) := default "" (f (sample_bytes20 "0xme")) in
  [("0xpool", own (CalldataAdvanceRate sel), 5000); ("0xpool", CalldataTotalAssets sel, 150000000);
   ("0xpool", own (CalldataOrgOutstanding sel), 0); ("0xpool", CalldataTotalOutstanding sel, 0); ("0xpool", own (CalldataSharesOf sel), 0);
   ("0xpool", CalldataPaused sel, 0); ("0xpool", CalldataMaxTotalExposure sel, 400000000); ("0xpool", CalldataMaxAdvance sel, 25000000);
   ("0xpool", CalldataTotalWrittenOff sel, 0); ("0xvault", CalldataMaxJobPayment sel, 100000000); ("0xvault", CalldataPaused sel, 0);
   ("0xvault", CalldataJobStatus sel "job", 1)].
Fixpoint view_reply (l : list (string * string * Z)) (to d : string) : reply :=
  match l with
  | (a, cd, v) :: r => if bool_decide (to = a) && bool_decide (d = data_hex cd) then sample_result (JStr (data_hex (default "" (uintWord v)))) else view_reply r to d
  | [] => if bool_decide (to = "0xpool") && bool_decide (d = data_hex (CalldataOpenAdvanceOf sel "job"))
          then sample_result (JStr (data_hex (zero_bytes 96))) else RFailed
  end.
Definition sample_seed_node (q : question) (s : unit) : unit * reply :=
  (tt, match q with
  | QRpc m ps =>
    if bool_decide (m = "eth_call") then
      match ps with [JObj [(_, JStr d); (_, JStr to)]; _] => view_reply sample_views to d | _ => RFailed end
    else if bool_decide (m = "eth_chainId") then sample_result (JStr "0x4cef52")
    else if bool_decide (m = "eth_getTransactionReceipt") then
      sample_result (JObj [("status", JStr "0x1"); ("blockNumber", JStr "0x10"); ("gasUsed", JStr "0x64")])
    else sample_result (JStr "0x10")
  | _ => RFailed
  end).
Lemma view_reply_inv l to d h : rpc_text (view_reply l to d) = Some h →
  (∃ cd v, (to, cd, v) ∈ l ∧ d = data_hex cd ∧ h = data_hex (default "" (uintWord v))) ∨
  (to = "0xpool" ∧ d = data_hex (CalldataOpenAdvanceOf sel "job") ∧ h = data_hex (zero_bytes 96)).
Proof.
  induction l as [|[[a cd] v] r IH]; cbn [view_reply].
  - destruct (_ && _) eqn:E; [|done]. apply andb_true_iff in E as [->%bool_decide_eq_true_1 ->%bool_decide_eq_true_1]. intros [= <-]. by right.
  - destruct (_ && _) eqn:E.
    + apply andb_true_iff in E as [->%bool_decide_eq_true_1 ->%bool_decide_eq_true_1]. intros [= <-]. left. exists cd, v. split; [by left|done].
    + intros [(cd' & v' & ? & ?)|?]%IH; [left; exists cd', v'; split; [by right|done]|by right].
Qed.
Ltac closed_view := intros s h v Hh; vm_compute in Hh; first [discriminate Hh | injection Hh as <-; vm_compute; by intros [= <-]].
Ltac org_view := let E := fresh in let Hcd := fresh in unfold sample_bytes20; case_bool_decide as E; intros Hcd; vm_compute in Hcd; injection Hcd as <-; subst; closed_view.
Lemma sample_seed_truthful : Truthful sample_FromHex sel sample_bytes20 sample_seed_node "0xpool" "0xvault" (λ _, sample_state).
Proof.
  split.
  - intros tag org cd. org_view.
  - intros tag. closed_view.
  - intros tag org cd. org_view.
  - intros tag. closed_view.
  - intros tag org cd. org_view.
  - intros tag. closed_view.
  - intros tag []. vm_compute. reflexivity.
  - intros tag. closed_view.
  - intros tag. closed_view.
  - intros tag. closed_view.
  - intros tag. closed_view.
  - intros tag. closed_view.
  - intros tag job s h Hh _. change (rpc_text (view_reply sample_views "0xvault" (data_hex (CalldataJobStatus sel job))) = Some h) in Hh.
    apply view_reply_inv in Hh as [(cd & v & Hin & Hd & _)|([=] & _)]. apply sapp_inj_l, (inj hex_EncodeToString) in Hd.
    unfold sample_views in Hin.
    repeat (apply elem_of_cons in Hin as [Hin|Hin];
      [pose proof (f_equal (λ x, x.1.1) Hin) as Hto; pose proof (f_equal (λ x, x.1.2) Hin) as Hcd; cbn [fst snd] in Hto, Hcd;
       first [discriminate Hto | rewrite Hcd in Hd; vm_compute in Hd; discriminate Hd | rewrite Hcd in Hd; vm_compute in Hd]|]); [|by apply not_elem_of_nil in Hin].
    by injection Hd as ->.
  - intros tag job s h p f _ _ _. apply not_elem_of_empty.
Qed.
Definition sample_key (c : ascii) : string := string_of_list_ascii (replicate 64 c).
Definition sample_env (name : string) : option string :=
  if bool_decide (name = "TREASURY_PRIVATE_KEY") then Some (sample_key "a")
  else if bool_decide (name = "SNAPFALL_CUSTOMER_PRIVATE_KEY") then Some (sample_key "b") else None.
Definition sample_address (key : string) : string := if bool_decide (key = sample_key "a") then "0xme" else "0xcustomer".
Definition sample_contract (address : string) : Deployment.Contract := Deployment.MkContract "" address "" "" 6.
Definition sample_deployment : Deployment.Deployment :=
  Deployment.MkDeployment 1 (Deployment.MkNetwork "arc-testnet" 5042002 "eip155:5042002" "https://rpc" "" "https://scan/" 0 0 "")
    (Deployment.MkContracts (sample_contract "0xvault") (sample_contract "0xpool") (sample_contract "0xaudit") (sample_contract "0xusdc"))
    ∅ {[ "externalCustomer" := "0xcustomer" ]}.
Definition sample_flags : Flags :=
  MkFlags "TREASURY_PRIVATE_KEY" "SNAPFALL_CUSTOMER_PRIVATE_KEY" "SNAPFALL_LP_PRIVATE_KEY" "25" "6" "150" "run1" "" false.
Definition sample_seed : cprog (option SeedResult) :=
  seed_run sample_FromHex sel (λ _, "job") sample_address (λ _ _ _, Some "raw") Some (λ a, a) (λ _, true) sample_bytes20
    3 sample_flags sample_env (Some sample_deployment) "stamp" "now" 1800000000.
Definition sample_seed_out : option SeedResult := (serve sample_seed_node sample_seed tt).1.2.
Definition sample_ready : option (Plan * RunState) := match sample_seed_out with Some (Ready p st) => Some (p, st) | _ => None end.
