(* ===== verification/Cctp.v ===== *)
(** Moving USDC off Arc ([internal/cctp]): Circle's cross-chain transfer.

    The attestation service is asked as [QCircle "GET"] of a whole URL; a
    deadline is the number of polls that fit before it.  An address is its text,
    [bytes20] its bytes; [FromHex] and [abi_Pack] are go-ethereum's, and
    [float64] is the value of the float a JSON number is read to, as a fraction.
    A JSON member is taken by its exact name.  The text of errors is left out:
    [None] is an error. *)
From Stdlib Require Import Ascii String.
From S2P Require Import Prelude GoStr GoTime GoJson Store Decode Ask ChainClient.
From S2P Require H3.
#[local] Open Scope Z_scope.
#[local] Open Scope snap_scope.
#[local] Set Default Proof Using "Type".

Definition FastFinality : Z := 1000.
Definition StandardFinality : Z := 2000.
Definition ArcDomain : Z := 26.
Record CctpNetwork := MkCctpNetwork {
  cn_IrisBase : string; cn_TokenMessenger : string; cn_MessageTransmitter : string; cn_Domains : gmap Z string }.
Definition ForArc (chainID : Z) : option CctpNetwork :=
  if chainID =? 5042002 then
    Some (MkCctpNetwork "https://iris-api-sandbox.circle.com" "0x8FE6B999Dc680CcFDD5Bf7EB0974218be2542DAA" "0xE737e5cEBEEBa77EFE34D4aa090756590b1CE275"
            (list_to_map [(0, "Ethereum Sepolia"); (3, "Arbitrum Sepolia"); (6, "Base Sepolia")]))
  else if chainID =? 5042 then
    Some (MkCctpNetwork "https://iris-api.circle.com" "0x28b5a0e9C621a5BadaA536219b3a228C8168cf5d" "0x81D40F21F12A8F0E3252Bccb954D722d4c464B64"
            (list_to_map [(0, "Ethereum"); (6, "Base")]))
  else None.
(** [ceil(amount * bps / 10000)]; [Quo] truncates. *)
Definition MaxFee (amount bps : Z) : Z := Z.quot (amount * bps + 9999) 10000.
Definition AddressWord (a20 : string) : string := zero_bytes 12 +:+ a20.

Inductive abi_arg :=
| AUint256 (z : Z) | AUint32 (z : Z) | ABytes32 (b : string) | AAddress (a20 : string) | ABytes (b : string).
Definition Uint32 (z : Z) : Z := z `mod` 2 ^ 32.

(** ** JSON numbers *)
Definition digit19 (c : ascii) : bool := isDigit c && negb (bool_decide (c = "0"%char)).
Fixpoint skip_digits (s : string) : string := match s with String c r => if isDigit c then skip_digits r else s | "" => "" end.
(** Digits, at least one, then what [k] accepts. *)
Definition some_digits (k : string → bool) (s : string) : bool :=
  match s with String c r => isDigit c && k (skip_digits r) | "" => false end.
Definition exponent (s : string) : bool :=
  match s with
  | "" => true
  | String e r =>
    (bool_decide (e = "e"%char) || bool_decide (e = "E"%char)) &&
    some_digits (λ t, bool_decide (t = "")) (match r with String c r' => if bool_decide (c = "+"%char) || bool_decide (c = "-"%char) then r' else r | "" => "" end)
  end.
Definition fraction (s : string) : bool :=
  match s with String c r => if bool_decide (c = "."%char) then some_digits exponent r else exponent s | "" => true end.
(** [encoding/json]'s [isValidNumber]. *)
Definition isValidNumber (s : string) : bool :=
  let s := match s with String c r => if bool_decide (c = "-"%char) then r else s | "" => "" end in
  match s with
  | String c r => if bool_decide (c = "0"%char) then fraction r else digit19 c && fraction (skip_digits r)
  | "" => false
  end.
(** A [json.Number] member: a number, or the text of one. *)
Definition dec_number (k : string) (v : jval) : option string :=
  fs ← jfields v;
  match jget k fs with
  | None | Some JNull => Some ""
  | Some (JInt z) => Some (FormatInt z)
  | Some (JStr s) => if isValidNumber s then Some s else None
  | Some _ => None
  end.
Definition Number_Int64 (s : string) : option Z := z ← parse_int s; if bool_decide (int64_range z) then Some z else None.

Section Cctp.
Context (FromHex : string → string) (bytes20 : string → string) (selector : string → string).
Context (abi_Pack : list abi_arg → option string) (float64 : jval → option (Z * positive)).

(** ** Call data *)
Definition CalldataDepositForBurn (amount destDomain : Z) (recipient burnToken : string) (maxFee finality : Z) : option string :=
  packed ← abi_Pack [AUint256 amount; AUint32 destDomain; ABytes32 (AddressWord (bytes20 recipient)); AAddress (bytes20 burnToken);
                     ABytes32 (zero_bytes 32); AUint256 maxFee; AUint32 finality];
  Some (selector "depositForBurn(uint256,uint32,bytes32,address,bytes32,uint256,uint32)" +:+ packed).
Definition CalldataReceiveMessage (message attestation : string) : option string :=
  packed ← abi_Pack [ABytes message; ABytes attestation];
  Some (selector "receiveMessage(bytes,bytes)" +:+ packed).

(** ** The attestation service *)
(** [get]: not found is an answer, with nothing to decode. *)
Inductive iris_answer (A : Type) := NotFound | Found (a : A).
Arguments NotFound {A}. Arguments Found {A} a.
Definition iris_result {A} (dec : jval → option A) (r : reply) : option (iris_answer A) :=
  match r with
  | RHttp status body =>
    if status =? 404 then Some NotFound
    else if negb (Z.quot status 100 =? 2) then None
    else a ← body ≫= dec; Some (Found a)
  | _ => None
  end.
Definition q_iris (base path : string) : question := QCircle "GET" (H3.TrimRight_slash base +:+ path) None.
Definition iris_get {A} (base path : string) (dec : jval → option A) : cprog (option (iris_answer A)) :=
  Ask (q_iris base path) (λ r, Done (iris_result dec r)).

Definition dec_uint32 (k : string) (v : jval) : option Z := z ← dec_int k v; if (0 <=? z) && (z <? 2 ^ 32) then Some z else None.
Definition dec_float (k : string) (v : jval) : option (Z * positive) :=
  fs ← jfields v; match jget k fs with None | Some JNull => Some (0, 1%positive) | Some x => float64 x end.
Definition fee_row (v : jval) : option (Z * (Z * positive)) :=
  t ← dec_uint32 "finalityThreshold" v; f ← dec_float "minimumFee" v; Some (t, f).
Definition fee_rows (v : jval) : option (list (Z * (Z * positive))) :=
  match v with JArr l => mapM fee_row l | JNull => Some [] | _ => None end.
(** Truncated, and one more unless that was exact. *)
Definition whole_bps (fee : Z * positive) : option Z :=
  let '(n, d) := fee in
  if (n <? 0) || (10000 * Zpos d <=? n) then None
  else let bps := n / Zpos d in Some (if bps * Zpos d <? n then bps + 1 else bps).
Fixpoint fee_of (rows : list (Z * (Z * positive))) (finality : Z) : option Z :=
  match rows with
  | [] => None
  | (t, fee) :: rest => if t =? finality then whole_bps fee else fee_of rest finality
  end.
Definition FeeBps (base : string) (src dst finality : Z) : cprog (option Z) :=
  r <~~ iris_get base ("/v2/burn/USDC/fees/" +:+ FormatUint src +:+ "/" +:+ FormatUint dst) fee_rows ;;
  Done (match r with Found rows => fee_of rows finality | NotFound => None end).

Record Attestation := MkAttestation {
  at_Message : string; at_Attestation : string; at_Recipient : string; at_DestDomain : Z; at_Amount : Z }.
Record IrisBody := MkIrisBody { ib_MintRecipient : string; ib_Amount : string }.
Record IrisMessage := MkIrisMessage {
  im_Status : string; im_Message : string; im_Attestation : option string; im_Decoded : option (string * option IrisBody) }.
Definition body_of_json (v : jval) : option IrisBody :=
  m ← dec_str "mintRecipient" v; a ← dec_str "amount" v; Some (MkIrisBody m a).
Definition decoded_of_json (v : jval) : option (string * option IrisBody) :=
  d ← dec_number "destinationDomain" v; b ← dec_ptr "decodedMessageBody" body_of_json v; Some (d, b).
Definition message_of_json (v : jval) : option IrisMessage :=
  s ← dec_str "status" v; m ← dec_str "message" v; a ← dec_ptr "attestation" text_of_json v; d ← dec_ptr "decodedMessage" decoded_of_json v;
  Some (MkIrisMessage s m a d).
Definition messages_of_json : jval → option (list IrisMessage) := dec_list "messages" message_of_json.
(** [^0x[0-9a-fA-F]+$]. *)
Definition hexRe (s : string) : bool :=
  match strip_prefix "0x" s with Some r => negb (bool_decide (r = "")) && sall (λ c, bool_decide (is_Some (hex_value c))) r | None => false end.
Definition attested (m : IrisMessage) : option string :=
  a ← im_Attestation m;
  if bool_decide (im_Status m = "complete") && hexRe a && hexRe (im_Message m) then Some a else None.
(** Bytes from [n] on. *)
Definition drop_bytes (n : nat) (b : string) : string := String.substring n (String.length b - n) b.
(** An attested message is checked against what was asked for, or refused. *)
Definition checked (m : IrisMessage) (a : string) (destDomain : Z) (recipient : string) : option Attestation :=
  d ← im_Decoded m; b ← d.2;
  dom ← Number_Int64 d.1;
  if negb (Uint32 dom =? destDomain) then None
  else
    let mr := FromHex (ib_MintRecipient b) in
    if negb (bool_decide (String.length mr = 32%nat)) || negb (bool_decide (drop_bytes 12 mr = bytes20 recipient)) then None
    else amount ← parse_int (ib_Amount b);
         Some (MkAttestation (FromHex (im_Message m)) (FromHex a) recipient destDomain amount).
Definition messages_path (srcDomain : Z) (txHash : string) : string :=
  "/v2/messages/" +:+ FormatUint srcDomain +:+ "?transactionHash=" +:+ txHash.
Definition first_attested (r : iris_answer (list IrisMessage)) : option (IrisMessage * string) :=
  match r with Found (m :: _) => a ← attested m; Some (m, a) | _ => None end.
Fixpoint Await (polls : nat) (base : string) (srcDomain : Z) (txHash : string) (destDomain : Z) (recipient : string) : cprog (option Attestation) :=
  Ask (q_iris base (messages_path srcDomain txHash)) (λ r,
    match iris_result messages_of_json r with
    | None => Done None
    | Some x =>
      match first_attested x with
      | Some (m, a) => Done (checked m a destDomain recipient)
      | None =>
        match polls with
        | O => Done None
        | S polls => Ask QWait (λ w, match w with RWoken => Await polls base srcDomain txHash destDomain recipient | _ => Done None end)
        end
      end
    end).
End Cctp.
Arguments NotFound {A}. Arguments Found {A} a.

(** ** The cap on the fee *)
(** The fee at [bps] is never above the cap, and the cap is the least such
    amount. *)
Lemma MaxFee_ceiling amount bps fee : 0 ≤ amount → 0 ≤ bps → MaxFee amount bps ≤ fee ↔ amount * bps ≤ fee * 10000.
Proof.
  intros Ha Hb. unfold MaxFee. rewrite Z.quot_div_nonneg by nia. split; intros H.
  - pose proof (Z.div_mod (amount * bps + 9999) 10000 ltac:(lia)). pose proof (Z.mod_pos_bound (amount * bps + 9999) 10000 ltac:(lia)). nia.
  - apply Z.lt_succ_r, Z.div_lt_upper_bound; lia.
Qed.
(** A quoted fee is rounded up to whole basis points, below all of it. *)
Lemma whole_bps_ceiling n d bps : whole_bps (n, d) = Some bps →
  0 ≤ bps ≤ 10000 ∧ n ≤ bps * Zpos d ∧ bps * Zpos d < n + Zpos d.
Proof.
  unfold whole_bps. destruct (_ || _) eqn:E; [done|]. apply orb_false_iff in E as [E1%Z.ltb_ge E2%Z.leb_gt]. intros [= <-].
  pose proof (Z.div_mod n (Zpos d) ltac:(lia)). pose proof (Z.mod_pos_bound n (Zpos d) ltac:(lia)).
  assert (0 ≤ n / Zpos d) by (apply Z.div_pos; lia). assert (n / Zpos d < 10000) by (apply Z.div_lt_upper_bound; lia).
  destruct (_ <? n) eqn:E; bool_to_prop; nia.
Qed.
(** The cap on a burn covers the fee that was quoted for it, exactly. *)
Lemma cap_covers_quote amount n d bps : 0 ≤ amount → whole_bps (n, d) = Some bps → amount * n ≤ MaxFee amount bps * 10000 * Zpos d.
Proof.
  intros Ha Hb. apply whole_bps_ceiling in Hb as (Hr & Hle & _). pose proof (MaxFee_ceiling amount bps (MaxFee amount bps) Ha ltac:(lia)) as [H _].
  specialize (H (Z.le_refl _)). nia.
Qed.

(** ** What an attestation is of *)
Section Attested.
Context (FromHex : string → string) (bytes20 : string → string).
(** Circle has said of [txHash] that a transfer to this recipient on this
    domain is complete, and under which signature. *)
Definition attests (base : string) (srcDomain : Z) (txHash : string) (destDomain : Z) (recipient : string) (att : Attestation)
    (l : list (question * reply)) : Prop :=
  ∃ r m ms a d b dom, (q_iris base (messages_path srcDomain txHash), r) ∈ l ∧
    iris_result messages_of_json r = Some (Found (m :: ms)) ∧ im_Status m = "complete" ∧ im_Attestation m = Some a ∧
    hexRe a = true ∧ hexRe (im_Message m) = true ∧ im_Decoded m = Some (d, Some b) ∧ Number_Int64 d = Some dom ∧ Uint32 dom = destDomain ∧
    String.length (FromHex (ib_MintRecipient b)) = 32%nat ∧ drop_bytes 12 (FromHex (ib_MintRecipient b)) = bytes20 recipient ∧
    parse_int (ib_Amount b) = Some (at_Amount att) ∧
    at_Message att = FromHex (im_Message m) ∧ at_Attestation att = FromHex a ∧ at_Recipient att = recipient ∧ at_DestDomain att = destDomain.
Lemma checked_inv m a destDomain recipient att : checked FromHex bytes20 m a destDomain recipient = Some att →
  ∃ d b dom, im_Decoded m = Some (d, Some b) ∧ Number_Int64 d = Some dom ∧ Uint32 dom = destDomain ∧
    String.length (FromHex (ib_MintRecipient b)) = 32%nat ∧ drop_bytes 12 (FromHex (ib_MintRecipient b)) = bytes20 recipient ∧
    parse_int (ib_Amount b) = Some (at_Amount att) ∧
    at_Message att = FromHex (im_Message m) ∧ at_Attestation att = FromHex a ∧ at_Recipient att = recipient ∧ at_DestDomain att = destDomain.
Proof.
  unfold checked. destruct (im_Decoded m) as [[d [b|]]|]; [|done..]. cbn [mbind option_bind fst snd].
  destruct (Number_Int64 d) as [dom|] eqn:Ed; [|done]. cbn [mbind option_bind]. destruct (Uint32 dom =? destDomain) eqn:Eu; [|done]. apply Z.eqb_eq in Eu.
  cbn [negb]. destruct (_ || _) eqn:Em; [done|]. apply orb_false_iff in Em as [E1%negb_false_iff%bool_decide_eq_true_1 E2%negb_false_iff%bool_decide_eq_true_1].
  destruct (parse_int (ib_Amount b)) as [z|] eqn:Ez; [|done]. intros [= <-]. by exists d, b, dom.
Qed.
Lemma first_attested_inv x m a : first_attested x = Some (m, a) →
  ∃ ms, x = Found (m :: ms) ∧ im_Status m = "complete" ∧ im_Attestation m = Some a ∧ hexRe a = true ∧ hexRe (im_Message m) = true.
Proof.
  destruct x as [|[|m' ms]]; [done..|]. cbn. unfold attested. destruct (im_Attestation m') as [a'|] eqn:Ea; [|done]. cbn.
  destruct (bool_decide _ && _ && _) eqn:E; [|done]. intros [= <- <-]. apply andb_true_iff in E as [[E1%bool_decide_eq_true_1 E2]%andb_true_iff E3].
  by exists ms.
Qed.
Lemma attests_app base src tx dst rcp att l1 l2 : attests base src tx dst rcp att l2 → attests base src tx dst rcp att (l1 ++ l2).
Proof.
  intros (r & m & ms & a & d & b & dom & Hin & H). exists r, m, ms, a, d, b, dom. split; [apply elem_of_app; by right|done].
Qed.
Context {S : Type} (answer : question → S → S * reply).
(** Nothing but such an attestation is ever returned. *)
Lemma Await_attests polls base src tx dst rcp : ∀ s s' att l,
  serve answer (Await FromHex bytes20 polls base src tx dst rcp) s = (s', Some att, l) → attests base src tx dst rcp att l.
Proof.
  assert (Hend : ∀ r x m a s s' att l, iris_result messages_of_json r = Some x → first_attested x = Some (m, a) →
    serve answer (Done (checked FromHex bytes20 m a dst rcp)) s = (s', Some att, l) →
    attests base src tx dst rcp att ((q_iris base (messages_path src tx), r) :: l)).
  { intros r x m a s s' att l Hr Hf H. apply serve_done in H as (_ & Hc & ->). symmetry in Hc. apply checked_inv in Hc as (d & b & dom & Hc).
    apply first_attested_inv in Hf as (ms & -> & Hf). destruct_and! Hf. destruct_and! Hc. exists r, m, ms, a, d, b, dom. split_and!; try done. by left. }
  induction polls as [|polls IH]; intros s s' att l; cbn [Await serve]; destruct (answer _ s) as [s1 r];
    destruct (iris_result messages_of_json r) as [x|] eqn:Er; try (by intros [= _ _]); destruct (first_attested x) as [[m a]|] eqn:Ef.
  - destruct (serve answer (Done _) s1) as [[s2 o] l2] eqn:E. intros [= <- -> <-]. by eapply Hend.
  - by intros [= _ _].
  - destruct (serve answer (Done _) s1) as [[s2 o] l2] eqn:E. intros [= <- -> <-]. by eapply Hend.
  - cbn [serve]. destruct (answer QWait s1) as [s2 w]. destruct w; try (by intros [= _ _]).
    destruct (serve answer (Await _ _ _ _ _ _ _ _) s2) as [[s3 o3] l3] eqn:E. intros [= <- -> <-]. apply IH in E.
    by apply (attests_app _ _ _ _ _ _ [_; _]).
Qed.
End Attested.
(** The domain of a message is compared on thirty-two bits. *)
Lemma a_far_domain_passes : ∃ att, checked (λ _, zero_bytes 32) (λ _, zero_bytes 20)
  (MkIrisMessage "complete" "0x01" (Some "0x02") (Some ("4294967302", Some (MkIrisBody "0x" "1")))) "0x02" 6 "0xto" = Some att.
Proof. eexists. vm_compute. reflexivity. Qed.
