(* ===== verification/Chainops.v ===== *)
(** The operator's chain commands ([cmd/chainops]).

    [run] is the program of one command line.  The signer is the raw key or the
    Circle wallet of [Signer]; the node of a mint's destination is asked under
    its own URL ([elsewhere]).  What is printed is left out, but for what the
    command found; [None] is an error, or a missing argument. *)
From Stdlib Require Import Ascii String.
From S2P Require Import Prelude GoStr GoTime GoJson Amount Intent Store Decode Ask ChainClient Circle Signer Cctp.
From S2P Require Deployment Funding.
#[local] Open Scope Z_scope.
#[local] Open Scope snap_scope.
#[local] Set Default Proof Using "Type".

Inductive Report :=
| Mined (rs : list Receipt)
| Minted (rs : list Receipt) (att : Attestation) (mint : option Receipt)
| Status (st : Z) (name : string)
| Advance (principal fee : Z) (open : bool).
Record destination := MkDestination { de_rpc : string; de_chainID : Z; de_keyEnv : string }.
(** [usdcMicros]: [SetString] admits a sign in both parts. *)
Definition usdcMicros (v : string) : option Z :=
  let '(w, frac) := cut_at "." (TrimSpace v) in
  whole ← parse_int w;
  if whole <? 0 then None
  else
    let out := whole * 1000000 in
    match frac with
    | None => Some out
    | Some frac =>
      if bool_decide (frac = "") || Nat.ltb 6 (String.length frac) then None
      else f ← parse_int (frac +:+ zeros (6 - String.length frac)); Some (out + f)
    end.
(** No hash: the bytes themselves, as a word. *)
Definition keccakHash (s : string) : string := default (zero_bytes 32) (word s).
Definition status_names : list string := ["Created"; "Funded"; "InProgress"; "Delivered"; "Accepted"; "Refunded"; "Cancelled"].
Definition status_name (st : Z) : string := default "?" (status_names !! Z.to_nat st).
(** The same questions, to another node. *)
Fixpoint elsewhere {A} (url : string) (p : cprog A) : cprog A :=
  match p with
  | Done a => Done a
  | Ask q k => Ask (match q with QRpc m ps => QRpc (url +:+ "#" +:+ m) ps | _ => q end) (λ r, elsewhere url (k r))
  end.

Section Chainops.
Context (FromHex : string → string) (selector : string → string).
Context {Key : Type} (address_of : Key → string) (sign : Key → Z → Tx → option string) (parse_key : string → option Key).
Context {PubKey : Type} (parse_public_key : string → option PubKey) (EncryptOAEP : PubKey → string → string → option string).
Context (base64 : string → string) (IsHexAddress : string → bool) (HexToAddress : string → string) (bytes20 : string → string).
Context (abi_Pack : list abi_arg → option string) (float64 : jval → option (Z * positive)).
Abbreviation signer := (signer (Key := Key) (PubKey := PubKey)).
Abbreviation Client := (Client (Key := Key)).
Record Ops := MkOps {
  op_s : signer; op_raw : option Client; op_chainID : Z; op_fp : string; op_jv : string; op_usdc : string; op_env : string → option string;
  op_dest : destination; op_hashPolls : nat; op_polls : nat; op_irisPolls : nat }.
Section Commands.
Context (o : Ops).
Definition submits (to : string) (calldata : option string) : cprog (option Receipt) :=
  calldata <-? calldata ;; signer_submit FromHex address_of sign EncryptOAEP base64 (op_hashPolls o) (op_polls o) (op_s o) to calldata.
(** [show]: a revert is reported and does not stop the command. *)
Definition one (p : cprog (option Receipt)) : cprog (option Report) := r <~~ p ;; Done (Some (Mined [r])).
Definition two (p q : cprog (option Receipt)) : cprog (option Report) := r <~~ p ;; r' <~~ q ;; Done (Some (Mined [r; r'])).

(** ** Payouts *)
Definition payoutTarget (domainArg toArg : string) : option (Z * string) :=
  net ← ForArc (op_chainID o);
  d ← parse_uint domainArg;
  if two64 / 2 ^ 32 <=? d then None
  else
    _ ← cn_Domains net !! d;
    if negb (IsHexAddress toArg) || bool_decide (HexToAddress toArg = zeroAddress) then None else Some (d, HexToAddress toArg).
Definition mint (rs : list Receipt) (domain : Z) (burnTx to : string) : cprog (option Report) :=
  net <-? ForArc (op_chainID o) ;;
  att <~~ Await FromHex bytes20 (op_irisPolls o) (cn_IrisBase net) ArcDomain burnTx domain to ;;
  data <-? CalldataReceiveMessage selector abi_Pack (at_Message att) (at_Attestation att) ;;
  let d := op_dest o in
  if bool_decide (de_rpc d = "") || (de_chainID d =? 0) || bool_decide (de_keyEnv d = "") then Done (Some (Minted rs att None))
  else
    relayer <-? NewFromEnv parse_key (op_env o) (de_keyEnv d) (de_chainID d) ;;
    r <~~ elsewhere (de_rpc d) (Submit FromHex address_of sign (op_polls o) relayer (cn_MessageTransmitter net) data) ;;
    Done (Some (Minted rs att (Some r))).
(** The fee is read, and the cap covers it. *)
Definition burn_call (net : CctpNetwork) (domain amount : Z) (to : string) (bps : Z) : option string :=
  CalldataDepositForBurn bytes20 selector abi_Pack amount domain to (op_usdc o) (MaxFee amount bps) StandardFinality.
Definition burn (net : CctpNetwork) (domain amount : Z) (to burn : string) : cprog (option Report) :=
  r <~~ submits (op_usdc o) (CalldataApprove selector (bytes20 (cn_TokenMessenger net)) amount) ;;
  guardQ (negb (rt_Reverted r)) (
  r' <~~ submits (cn_TokenMessenger net) (Some burn) ;;
  guardQ (negb (rt_Reverted r')) (
  mint [r; r'] domain (rt_TxHash r') to)).
Definition payout (domainArg toArg amountArg : string) : cprog (option Report) :=
  target <-? payoutTarget domainArg toArg ;;
  amount <-? usdcMicros amountArg ;;
  guardQ (negb (amount =? 0)) (
  net <-? ForArc (op_chainID o) ;;
  bps <~~ FeeBps float64 (cn_IrisBase net) ArcDomain target.1 StandardFinality ;;
  call <-? burn_call net target.1 amount target.2 bps ;;
  burn net target.1 amount target.2 call).
Definition payout_mint (domainArg burnTx toArg : string) : cprog (option Report) :=
  target <-? payoutTarget domainArg toArg ;;
  guardQ (bool_decide (String.length (FromHex burnTx) = 32%nat)) (mint [] target.1 burnTx target.2).

(** ** The job's lifecycle *)
Definition own_address : string := signer_address address_of (op_s o).
Definition seed_pool (amountArg : string) : cprog (option Report) :=
  amt <-? usdcMicros amountArg ;;
  two (submits (op_usdc o) (CalldataApprove selector (bytes20 (op_fp o)) amt)) (submits (op_fp o) (CalldataDeposit selector amt (bytes20 own_address))).
Definition transfer (toArg amountArg : string) : cprog (option Report) :=
  amt <-? usdcMicros amountArg ;; one (submits (op_usdc o) (CalldataTransfer selector (bytes20 (HexToAddress toArg)) amt)).
Definition create_job (idArg customerArg payArg budgetArg : string) : cprog (option Report) :=
  id <-? Funding.JobID32 idArg ;; pay <-? usdcMicros payArg ;; budget <-? usdcMicros budgetArg ;;
  one (submits (op_jv o) (CalldataCreateJob selector id (bytes20 (HexToAddress customerArg)) (bytes20 own_address) pay budget
                            (keccakHash "snapfall-demo-terms") 1800000000)).
Definition fund_job (idArg payArg : string) : cprog (option Report) :=
  id <-? Funding.JobID32 idArg ;; pay <-? usdcMicros payArg ;;
  two (submits (op_usdc o) (CalldataApprove selector (bytes20 (op_jv o)) pay)) (submits (op_jv o) (Some (CalldataFund selector id))).
Definition start_work (idArg : string) : cprog (option Report) :=
  id <-? Funding.JobID32 idArg ;; one (submits (op_jv o) (Some (CalldataStartWork selector id))).
Definition record_expense (idArg amountArg receiptArg : string) : cprog (option Report) :=
  id <-? Funding.JobID32 idArg ;; amt <-? usdcMicros amountArg ;; receipt <-? Funding.JobID32 receiptArg ;;
  one (submits (op_jv o) (CalldataRecordExpense selector id amt receipt)).
Definition submit_delivery (idArg hashArg : string) : cprog (option Report) :=
  id <-? Funding.JobID32 idArg ;; h <-? Funding.JobID32 hashArg ;; one (submits (op_jv o) (Some (CalldataSubmitDelivery selector id h))).
Definition advance (idArg : string) : cprog (option Report) :=
  id <-? Funding.JobID32 idArg ;;
  r <~~ submits (op_fp o) (Some (Funding.CalldataRequestAdvance selector id)) ;;
  Done (if rt_Reverted r then None else Some (Mined [r])).
Definition force_advance (idArg : string) : cprog (option Report) :=
  id <-? Funding.JobID32 idArg ;; raw <-? op_raw o ;;
  one (SubmitWithGas FromHex address_of sign (op_polls o) raw (op_fp o) (Funding.CalldataRequestAdvance selector id) 300000).
Definition job_status (idArg : string) : cprog (option Report) :=
  id <-? Funding.JobID32 idArg ;; ret <~~ CallView FromHex (op_jv o) (CalldataJobStatus selector id) ;;
  st <-? DecodeJobStatus ret ;; Done (Some (Status st (status_name st))).
Definition advance_of (idArg : string) : cprog (option Report) :=
  id <-? Funding.JobID32 idArg ;; ret <~~ CallView FromHex (op_fp o) (CalldataOpenAdvanceOf selector id) ;;
  r <-? DecodeOpenAdvance ret ;; Done (Some (Advance r.1.1 r.1.2 r.2)).
Definition command (args : list string) : cprog (option Report) :=
  let arg (i : nat) (k : string → cprog (option Report)) : cprog (option Report) := a <-? args !! i ;; k a in
  cmd <-? args !! 0%nat ;;
  if bool_decide (cmd = "payout") then arg 1%nat (λ a, arg 2%nat (λ b, arg 3%nat (payout a b)))
  else if bool_decide (cmd = "payout-mint") then arg 1%nat (λ a, arg 3%nat (λ c, arg 2%nat (λ b, payout_mint a b c)))
  else if bool_decide (cmd = "seed-pool") then arg 1%nat seed_pool
  else if bool_decide (cmd = "transfer") then arg 2%nat (λ b, arg 1%nat (λ a, transfer a b))
  else if bool_decide (cmd = "create-job") then arg 1%nat (λ a, arg 3%nat (λ c, arg 4%nat (λ d, arg 2%nat (λ b, create_job a b c d))))
  else if bool_decide (cmd = "fund-job") then arg 1%nat (λ a, arg 2%nat (fund_job a))
  else if bool_decide (cmd = "start-work") then arg 1%nat start_work
  else if bool_decide (cmd = "record-expense") then arg 1%nat (λ a, arg 2%nat (λ b, arg 3%nat (record_expense a b)))
  else if bool_decide (cmd = "submit-delivery") then arg 1%nat (λ a, arg 2%nat (submit_delivery a))
  else if bool_decide (cmd = "advance") then arg 1%nat advance
  else if bool_decide (cmd = "force-advance") then arg 1%nat force_advance
  else if bool_decide (cmd = "job-status") then arg 1%nat job_status
  else if bool_decide (cmd = "advance-of") then arg 1%nat advance_of
  else Done None.
End Commands.
(** The signer a command line chose, and the raw key behind it. *)
Definition choose_signer (signerKind keyEnv : string) (env : string → option string) (rpcURL : string) (chainID : Z) :
    cprog (option (signer * option Client)) :=
  if bool_decide (signerKind = "key") then
    raw <-? NewFromEnv parse_key env keyEnv chainID ;; Done (Some (RawKey raw, Some raw))
  else if bool_decide (signerKind = "circle") then
    reader <-? NewReadOnly (Key := Key) rpcURL chainID ;;
    w <-? CircleFromEnv env chainID ;;
    w <~~ Open parse_public_key IsHexAddress HexToAddress w ;;
    Done (Some (CircleWallet w, None))
  else Done None.
Definition run (dep : option Deployment.Deployment) (keyEnv signerKind : string) (dest : destination) (env : string → option string)
    (hashPolls polls irisPolls : nat) (args : list string) : cprog (option Report) :=
  guardQ (negb (bool_decide (args = []))) (
  d <-? dep ;;
  let n := Deployment.dp_Network d in
  let cs := Deployment.dp_Contracts d in
  s <~~ choose_signer signerKind keyEnv env (Deployment.nw_RPCURL n) (Deployment.nw_ChainID n) ;;
  command (MkOps s.1 s.2 (Deployment.nw_ChainID n) (HexToAddress (Deployment.ct_Address (Deployment.cs_FloatPool cs)))
             (HexToAddress (Deployment.ct_Address (Deployment.cs_JobVault cs))) (HexToAddress (Deployment.ct_Address (Deployment.cs_USDC cs)))
             env dest hashPolls polls irisPolls) args).
End Chainops.

(** ** What a payout does *)
Section Payouts.
Context (FromHex : string → string) (selector : string → string).
Context {Key : Type} (address_of : Key → string) (sign : Key → Z → Tx → option string) (parse_key : string → option Key).
Context {PubKey : Type} (parse_public_key : string → option PubKey) (EncryptOAEP : PubKey → string → string → option string).
Context (base64 : string → string) (IsHexAddress : string → bool) (HexToAddress : string → string) (bytes20 : string → string).
Context (abi_Pack : list abi_arg → option string) (float64 : jval → option (Z * positive)).
Context {S : Type} (answer : question → S → S * reply).
Abbreviation Ops := (Ops (Key := Key) (PubKey := PubKey)).
Abbreviation submits := (submits FromHex address_of sign EncryptOAEP base64).
Abbreviation performs := (performs sign EncryptOAEP base64).
Abbreviation payout := (payout FromHex selector address_of sign parse_key EncryptOAEP base64 IsHexAddress HexToAddress bytes20 abi_Pack float64).
Abbreviation mint := (mint (PubKey := PubKey) FromHex selector address_of sign parse_key bytes20 abi_Pack).
Abbreviation burn := (burn FromHex selector address_of sign parse_key EncryptOAEP base64 bytes20 abi_Pack).

Lemma submits_run o to cd s s' out l : serve answer (submits o to cd) s = (s', out, l) →
  (writes l = [] ∧ out = None) ∨
  ∃ c q r, cd = Some c ∧ writes l = [(q, r)] ∧ performs (op_s o) to c q ∧ ∀ rc, out = Some rc → by_receipt FromHex (outcome_of rc) l.
Proof.
  intros H. apply serve_let in H as [(_ & _ & -> & ->)|(c & -> & H)]; [by left|].
  assert (Hl : serve answer (lane_Submit FromHex address_of sign EncryptOAEP base64 (op_hashPolls o) (op_polls o) (MkLane (op_s o) to) c) s
    = (s', outcome_of <$> out, l)).
  { unfold lane_Submit. cbn [ln_c ln_to]. revert H. generalize (signer_submit FromHex address_of sign EncryptOAEP base64 (op_hashPolls o) (op_polls o) (op_s o) to c) as p.
    intros p. revert s l. induction p as [a|q k IH]; intros s l; cbn; [intros [= <- <- <-]; by destruct a|].
    destruct (answer q s) as [s1 r]. destruct (serve answer (k r) s1) as [[s2 a2] l2] eqn:E. intros [= <- <- <-].
    apply IH in E. unfold tryQ in E. by rewrite E. }
  apply lane_run in Hl as [[Hw Ho]|(q & r & Hw & Hp & Ho)]; [left; split; [done|by destruct out]|].
  right. exists c, q, r. split_and!; try done. intros rc ->. by apply (Ho (outcome_of rc) eq_refl).
Qed.
Lemma get_no_write base path : is_write (q_iris base path) = false.
Proof. done. Qed.
Lemma await_no_write polls base src tx dst rcp : reads (Await FromHex bytes20 polls base src tx dst rcp).
Proof.
  induction polls as [|polls IH]; (split; [apply get_no_write|]); intros r; destruct (iris_result messages_of_json r) as [x|]; try done;
    destruct (first_attested x) as [[m a]|]; try done. split; [done|]. by intros [].
Qed.
Lemma elsewhere_no_send url m ps : is_send (QRpc (url +:+ "#" +:+ m) ps) = false.
Proof.
  unfold is_send. apply bool_decide_false. intros He. apply (f_equal (sall (λ c, negb (bool_decide (c = "#"%char))))) in He.
  rewrite sall_app in He. cbn in He. by rewrite andb_false_r in He.
Qed.
Lemma elsewhere_no_write {A} url (p : cprog A) : asks_only (λ q, is_post q = false) p → reads (elsewhere url p).
Proof.
  induction p as [a|q k IH]; [done|]. intros [Hq Hk]. split; [|intros r; by apply IH]. unfold is_write.
  destruct q as [m ps|m p b|n|]; [rewrite elsewhere_no_send; done|cbn in *; by rewrite Hq|done..].
Qed.
Lemma mint_no_write o rs domain tx to : reads (mint o rs domain tx to).
Proof.
  apply asks_let. intros net _. apply asks_try; [apply await_no_write|]. intros att. apply asks_let. intros data _. cbv zeta.
  destruct (_ || _); [done|]. apply asks_let. intros relayer _. apply asks_try; [|done]. apply elsewhere_no_write, submit_no_post.
Qed.

(** Where an attestation is had, it is of the burn. *)
Lemma mint_attests o rs domain tx to s s' rep l : serve answer (mint o rs domain tx to) s = (s', Some rep, l) →
  ∃ net att m, ForArc (op_chainID o) = Some net ∧ rep = Minted rs att m ∧ attests FromHex bytes20 (cn_IrisBase net) ArcDomain tx domain to att l.
Proof.
  intros H. apply serve_let_some in H as (net & Hn & H). apply serve_try_some in H as (att & s1 & l1 & l2 & Ha & H & ->).
  apply Await_attests in Ha. apply serve_let_some in H as (data & _ & H). cbv zeta in H.
  assert (Hm : ∃ m, rep = Minted rs att m).
  { destruct (_ || _) in H; [apply serve_done in H as (_ & [= ->] & _); by exists None|]. apply serve_let_some in H as (relayer & _ & H).
    apply serve_try_some in H as (r & s2 & l3 & l4 & _ & H & ->). apply serve_done in H as (_ & [= ->] & _). by exists (Some r). }
  destruct Hm as [m ->]. exists net, att, m. split_and!; try done. destruct Ha as (r & m' & ms & a & d & b & dom & Hin & Ha).
  exists r, m', ms, a, d, b, dom. split; [apply elem_of_app; by left|done].
Qed.
(** The burn of a payout, once its call is made. *)
Definition burnt (o : Ops) (net : CctpNetwork) (domain amount : Z) (to call : string) (rep : option Report) (l : list (question * reply)) : Prop :=
  (writes l = [] ∧ rep = None) ∨
  ∃ a q1 r1 w2, CalldataApprove selector (bytes20 (cn_TokenMessenger net)) amount = Some a ∧ performs (op_s o) (op_usdc o) a q1 ∧ writes l = (q1, r1) :: w2 ∧
    (w2 = [] ∨ ∃ q2 r2 rc, w2 = [(q2, r2)] ∧ performs (op_s o) (cn_TokenMessenger net) call q2 ∧ rt_Reverted rc = false ∧ by_receipt FromHex (outcome_of rc) l) ∧
    ∀ report, rep = Some report → length w2 = 1%nat ∧ ∃ approve burn_ att m, report = Minted [approve; burn_] att m ∧
      rt_Reverted approve = false ∧ rt_Reverted burn_ = false ∧ by_receipt FromHex (outcome_of burn_) l ∧
      attests FromHex bytes20 (cn_IrisBase net) ArcDomain (rt_TxHash burn_) domain to att l.
Lemma by_receipt_app out l l1 l2 : by_receipt FromHex out l → by_receipt FromHex out (l1 ++ l ++ l2).
Proof. intros (ans & v & st & Hin & H). exists ans, v, st. split; [rewrite !elem_of_app; auto|done]. Qed.
Lemma burn_run o net domain amount to call s s' rep l : ForArc (op_chainID o) = Some net →
  serve answer (burn o net domain amount to call) s = (s', rep, l) → burnt o net domain amount to call rep l.
Proof.
  intros Hnet. intros [[H ->]|(r & s1 & l1 & m1 & H1 & H & ->)]%serve_try.
  { apply submits_run in H as [[H _]|(a & q & r & Ha & Hw & Hp & _)]; [by left|]. right. exists a, q, r, []. split_and!; try done. by left. }
  apply submits_run in H1 as [[_ [=]]|(a & q1 & r1 & Ha & Hw & Hp & Hby)]. specialize (Hby r eq_refl).
  right. exists a, q1, r1. destruct (rt_Reverted r) eqn:Er; cbn [negb guardQ] in H.
  { injection H as <- <- <-. exists []. rewrite app_nil_r. split_and!; try done. by left. }
  assert (Hby' : ∀ l2, by_receipt FromHex (outcome_of r) (l1 ++ l2)) by (intros; by apply (by_receipt_app _ l1 [])).
  apply serve_try in H as [[H ->]|(r' & s2 & l2 & m2 & H2 & H & ->)].
  { apply submits_run in H as [[Hw2 _]|(c & q2 & r2 & [= <-] & Hw2 & Hp2 & _)]; rewrite writes_app, Hw, Hw2.
    - exists []. split_and!; try done. by left.
    - exists [(q2, r2)]. split_and!; try done. right. by exists q2, r2, r. }
  apply submits_run in H2 as [[_ [=]]|(c & q2 & r2 & [= <-] & Hw2 & Hp2 & Hby2)]. specialize (Hby2 r' eq_refl).
  assert (Hm2 : writes m2 = []).
  { destruct (rt_Reverted r'); cbn [negb guardQ] in H; [by injection H as _ _ <-|]. eapply reads_run; [apply mint_no_write|exact H]. }
  exists [(q2, r2)]. rewrite !writes_app, Hw, Hw2, Hm2. split_and!; try done.
  { right. by exists q2, r2, r. }
  intros report ->. split; [done|]. apply serve_guard_some in H as [Er'%negb_true_iff H]. apply mint_attests in H as (net' & att & m & Hn & -> & Hatt).
  rewrite Hnet in Hn. injection Hn as <-. exists r, r', att, m. split_and!; try done; [by apply by_receipt_app|]. by do 2 apply attests_app.
Qed.
End Payouts.

(** ** Amounts *)
(** A sign inside the fraction is read, and a word has none: the transfer of a
    negative amount is a transfer of the positive one. *)
Lemma negative_amount_is_sent selector to : usdcMicros "0.-5" = Some (-50000) ∧
  CalldataTransfer selector to (-50000) = CalldataTransfer selector to 50000.
Proof. split; reflexivity. Qed.
Lemma usdcMicros_exact z : 0 ≤ z → usdcMicros (usdc_text z) = Some z.
Proof.
  intros Hz. destruct (usdc_text_parts z Hz) as (Ht & Hw & Hf & Hlen & Hpw & Hpf). unfold usdcMicros. rewrite Ht. unfold usdc_text. rewrite (cut_at_dot _ _ Hw).
  rewrite (parse_int_digits _ Hw), Hpw. cbn [mbind option_bind]. assert (0 ≤ z / 1000000) by (apply Z.div_pos; lia).
  rewrite (proj2 (Z.ltb_ge _ 0)) by lia. rewrite Hlen. rewrite bool_decide_false by (intros He; by rewrite He in Hlen).
  cbn [orb Nat.ltb Nat.leb Nat.sub zeros]. rewrite sapp_nil_r, (parse_int_digits _ Hf), Hpf. cbn. f_equal. pose proof (Z.div_mod z 1000000 ltac:(lia)). lia.
Qed.

(** ** A payout *)
Definition sample_float (v : jval) : option (Z * positive) := match v with JInt z => Some (z, 1%positive) | _ => None end.
Definition sample_iris (path : string) : reply :=
  if bool_decide (path = "https://iris-api-sandbox.circle.com/v2/burn/USDC/fees/26/6") then
    RHttp 200 (Some (JArr [JObj [("finalityThreshold", JInt 2000); ("minimumFee", JInt 1)]]))
  else RHttp 200 (Some (JObj [("messages", JArr [JObj
    [("status", JStr "complete"); ("message", JStr "0x01"); ("attestation", JStr "0x02");
     ("decodedMessage", JObj [("destinationDomain", JStr "6");
        ("decodedMessageBody", JObj [("mintRecipient", JStr ("0x" +:+ zeros 64)); ("amount", JStr "1500000")])])]])])).
Definition sample_payout_node (q : question) (s : unit) : unit * reply :=
  (tt, match q with
  | QCircle _ path _ => sample_iris path
  | QRpc m _ =>
    if bool_decide (m = "eth_chainId") then sample_result (JStr "0x4cef52")
    else if bool_decide (m = "eth_getTransactionReceipt") then
      sample_result (JObj [("status", JStr "0x1"); ("blockNumber", JStr "0x10"); ("gasUsed", JStr "0x64")])
    else sample_result (JStr "0x10")
  | _ => RFailed
  end).
Definition sample_ops : Ops (Key := unit) (PubKey := unit) :=
  MkOps (RawKey (MkClient 5042002 (Some ()))) (Some (MkClient 5042002 (Some ()))) 5042002 "0xpool" "0xvault" "0xusdc" (λ _, None) (MkDestination "" 0 "") 3 3 3.
Abbreviation sample_payout :=
  (payout sample_FromHex id (λ _, "0xme") (λ _ _ tx, Some (tx_To tx)) (λ _, None) (λ _ _ _, None) id (λ _, true) id (λ _, zero_bytes 20)
     (λ _, Some "packed") sample_float sample_ops "6" "0xto" "1.5").
