(* ===== verification/Testnetops.v ===== *)
(** The health of the test network's wallets ([internal/testnetops],
    [cmd/testnet-ops]).

    [EnsureWallets] is written against the two interfaces of the code,
    [BalanceSource] and [Funder]; [RPCClient] and [CastFunder] are what the
    command gives it.  A [*big.Int] is a [Z], [None] where nil is allowed.
    [TRpc] is an RPC call, [TCast] a run of Foundry's [cast] with its whole
    argument list.  [json_document] is the JSON document a text holds.  The text
    of errors is left out: [None] is an error. *)
From Stdlib Require Import Ascii String.
From S2P Require Import Prelude GoStr GoTime GoJson Amount Store Ask.
From S2P Require RpcSource Deployment Git.
#[local] Open Scope Z_scope.
#[local] Open Scope snap_scope.
#[local] Set Default Proof Using "Type".

(** ** Native amounts: eighteen decimals *)
Definition nativeUSDCScale : Z := 10 ^ 18.
Definition ParseUSDC (value : string) : option Z :=
  let value := TrimSpace value in
  if bool_decide (value = "") || Git.HasPrefix value "-" || Git.HasPrefix value "+" then None
  else
    match split_on "." value with
    | [] | _ :: _ :: _ :: _ => None
    | w :: rest =>
      if bool_decide (w = "") then None
      else
        whole ← parse_int w;
        let frac := match rest with [f] => f | _ => "" end in
        if Nat.ltb 18 (String.length frac) then None
        else if negb (sall isDigit frac) then None
        else
          let frac := frac +:+ zeros (18 - String.length frac) in
          Some (whole * nativeUSDCScale + default 0 (digits_value 0 frac))
    end.
(** [strings.TrimRight(s, "0")]. *)
Fixpoint trim_right_zeros (s : string) : string :=
  match s with
  | "" => ""
  | String c r => let r' := trim_right_zeros r in if bool_decide (c = "0"%char) && bool_decide (r' = "") then "" else String c r'
  end.
Definition FormatUSDC (amount : option Z) : string :=
  match amount with
  | None => "0"
  | Some a =>
    let sign := if a <? 0 then "-" else "" in
    let whole := Z.quot (Z.abs a) nativeUSDCScale in
    let frac := Z.rem (Z.abs a) nativeUSDCScale in
    if frac =? 0 then sign +:+ FormatUint whole
    else sign +:+ FormatUint whole +:+ "." +:+ trim_right_zeros (FormatPad 18 frac)
  end.

(** ** The interfaces *)
Record GasBudget := MkGasBudget { gb_GasLimit : option Z; gb_MaxFeePerGas : option Z; gb_MaxCost : option Z }.
Definition validateGasBudget (b : GasBudget) : bool :=
  match gb_GasLimit b, gb_MaxFeePerGas b, gb_MaxCost b with
  | Some g, Some f, Some c => (0 <? g) && (0 <=? f) && (0 <=? c) && (g * f =? c)
  | _, _, _ => false
  end.
Definition maxCost (b : GasBudget) : Z := default 0 (gb_MaxCost b).
Record HWallet := MkHWallet { hw_Role : string; hw_Address : string; hw_Minimum : option Z }.
Record Funding := MkFunding { fu_Address : string; fu_Amount : Z; fu_TxHash : string }.
Record WalletStatus := MkWalletStatus {
  ws_Role : string; ws_Address : string; ws_Before : Z; ws_After : Z; ws_Minimum : Z; ws_Funding : option Funding }.
Record HReport := MkHReport { hr_Healthy : bool; hr_Wallets : list WalletStatus }.

Section Health.
Context {Q R : Type}.
Record BalanceSource := MkSource { bs_ChainID : prog Q R (option Z); bs_Balance : string → prog Q R (option Z) }.
Record Funder := MkFunder {
  fn_Address : prog Q R (option string); fn_EstimateGasBudget : string → Z → prog Q R (option GasBudget);
  fn_Send : string → Z → GasBudget → prog Q R (option string) }.
Context (unicodeLower : string → string) (source : BalanceSource).
Definition normalized (address : string) : string := ToLower unicodeLower (TrimSpace address).

(** ** Checks *)
Definition short (s : WalletStatus) : bool := ws_Before s <? ws_Minimum s.
Definition deficit (s : WalletStatus) : Z := ws_Minimum s - ws_Before s.
Fixpoint check_wallets (wallets : list HWallet) (seen : gmap string string) : prog Q R (option (list WalletStatus * gmap string string)) :=
  match wallets with
  | [] => Done (Some ([], seen))
  | w :: rest =>
    guardQ (negb (bool_decide (TrimSpace (hw_Role w) = "") || bool_decide (TrimSpace (hw_Address w) = ""))) (
    guardQ (bool_decide (seen !! normalized (hw_Address w) = None)) (
    minimum <-? hw_Minimum w ;;
    guardQ (0 <=? minimum) (
    balance <~~ bs_Balance source (hw_Address w) ;;
    r <~~ check_wallets rest (<[normalized (hw_Address w) := hw_Role w]> seen) ;;
    Done (Some (MkWalletStatus (hw_Role w) (hw_Address w) balance balance minimum None :: r.1, r.2)))))
  end.
Definition healthy (l : list WalletStatus) : bool := forallb (λ s, negb (short s)) l.
Definition totalDeficit (l : list WalletStatus) : Z := sumZ (deficit <$> filter (λ s, short s = true) l).

(** ** Funding *)
Context (funder : Funder).
(** The gas of every top-up, estimated before the first. *)
Fixpoint estimate_all (l : list WalletStatus) : prog Q R (option Z) :=
  match l with
  | [] => Done (Some 0)
  | s :: rest =>
    if negb (short s) then estimate_all rest
    else
      budget <~~ fn_EstimateGasBudget funder (ws_Address s) (deficit s) ;;
      guardQ (validateGasBudget budget) (
      total <~~ estimate_all rest ;; Done (Some (maxCost budget + total)))
  end.
Definition top_up (funderAddress : string) (reserve : Z) (s : WalletStatus) : prog Q R (option WalletStatus) :=
  if negb (short s) then Done (Some s)
  else
    budget <~~ fn_EstimateGasBudget funder (ws_Address s) (deficit s) ;;
    guardQ (validateGasBudget budget) (
    current <~~ bs_Balance source funderAddress ;;
    guardQ (deficit s + maxCost budget + reserve <=? current) (
    txHash <~~ fn_Send funder (ws_Address s) (deficit s) budget ;;
    after <~~ bs_Balance source (ws_Address s) ;;
    guardQ (ws_Minimum s <=? after) (
    Done (Some (MkWalletStatus (ws_Role s) (ws_Address s) (ws_Before s) after (ws_Minimum s)
      (Some (MkFunding (ws_Address s) (deficit s) (TrimSpace txHash)))))))).
Fixpoint top_up_all (funderAddress : string) (reserve : Z) (l : list WalletStatus) : prog Q R (option (list WalletStatus)) :=
  match l with
  | [] => Done (Some [])
  | s :: rest => s' <~~ top_up funderAddress reserve s ;; rest' <~~ top_up_all funderAddress reserve rest ;; Done (Some (s' :: rest'))
  end.
Definition fund_wallets (reserve : Z) (statuses : list WalletStatus) (seen : gmap string string) : prog Q R (option HReport) :=
  funderAddress <~~ fn_Address funder ;;
  guardQ (bool_decide (seen !! normalized funderAddress = None)) (
  funderBalance <~~ bs_Balance source funderAddress ;;
  totalGasCost <~~ estimate_all statuses ;;
  guardQ (totalDeficit statuses + totalGasCost + reserve <=? funderBalance) (
  statuses' <~~ top_up_all funderAddress reserve statuses ;;
  funderAfter <~~ bs_Balance source funderAddress ;;
  guardQ (reserve <=? funderAfter) (Done (Some (MkHReport true statuses'))))).
End Health.
Arguments BalanceSource : clear implicits. Arguments Funder : clear implicits.
Definition EnsureWallets {Q R} (unicodeLower : string → string) (source : BalanceSource Q R) (expectedChainID : Z) (wallets : list HWallet)
    (funder : option (Funder Q R)) (funderReserve : option Z) : prog Q R (option HReport) :=
  chainID <~~ bs_ChainID source ;;
  guardQ (chainID =? expectedChainID) (
  reserve <-? funderReserve ;;
  guardQ (0 <=? reserve) (
  r <~~ check_wallets unicodeLower source wallets ∅ ;;
  if healthy r.1 then Done (Some (MkHReport true r.1))
  else match funder with
  | None => Done (Some (MkHReport false r.1))
  | Some funder => fund_wallets unicodeLower source funder reserve r.1 r.2
  end)).

(** ** The RPC client *)
Inductive tquestion := TRpc (method : string) (params : list jval) | TCast (args : list string).
Inductive treply := TFailed | THttp (status : Z) (body : option jval) | TOut (stdout : string).
Abbreviation tprog := (prog tquestion treply).
Definition rpc_reply (v : jval) : option jval :=
  fs ← jfields v;
  failed ← dec_ptr "error" (λ e, _ ← dec_int "code" e; _ ← dec_str "message" e; Some tt) v;
  match failed with
  | Some _ => None
  | None => match jget "result" fs with None | Some JNull => None | Some x => Some x end
  end.
Definition rpc_call {A} (method : string) (params : list jval) (out : jval → option A) : tprog (option A) :=
  Ask (TRpc method params) (λ r, Done
    (match r with
     | THttp status body => if status =? 200 then (b ← body; v ← rpc_reply b; out v) else None
     | _ => None
     end)).
Definition parseHexBig (value : string) : option Z :=
  let value := TrimSpace value in
  if Nat.ltb (String.length value) 3 then None
  else
    r ← strip_prefix "0x" value;
    if Git.HasPrefix r "-" || Git.HasPrefix r "+" then None else RpcSource.hex_number 0 r.
Definition RPC_ChainID : tprog (option Z) :=
  encoded <~~ rpc_call "eth_chainId" [] text_of_json ;;
  value <-? parseHexBig encoded ;; Done (if value <? two64 then Some value else None).
Definition RPC_Balance (address : string) : tprog (option Z) :=
  encoded <~~ rpc_call "eth_getBalance" [JStr address; JStr "latest"] text_of_json ;; Done (parseHexBig encoded).
Definition blockTimestamp (block : string) : tprog (option time) :=
  timestamp <~~ rpc_call "eth_getBlockByNumber" [JStr block; JBool false] (dec_str "timestamp") ;;
  seconds <-? parseHexBig timestamp ;; Done (if bool_decide (int64_range seconds) then Some (time_Unix seconds) else None).
Definition BlockTimestamp (block : Z) : tprog (option time) := blockTimestamp (RpcSource.hex_format block).
Definition LatestBlockTimestamp : tprog (option time) := blockTimestamp "latest".
Definition NewRPCClient (url : string) : option (BalanceSource tquestion treply) :=
  let url := TrimSpace url in
  if negb (Git.HasPrefix url "http://") && negb (Git.HasPrefix url "https://") then None else Some (MkSource RPC_ChainID RPC_Balance).

(** ** The keystore's signer *)
Section Cast.
Context (unicodeLower : string → string) (json_document : string → option jval) (account rpcURL : string).
Definition cast (args : list string) : tprog (option string) := Ask (TCast args) (λ r, Done (match r with TOut out => Some out | _ => None end)).
Definition Cast_Address : tprog (option string) :=
  out <~~ cast ["wallet"; "address"; "--account"; account] ;;
  let address := TrimSpace out in
  Done (if Nat.eqb (String.length address) 42 && Git.HasPrefix address "0x" then Some (ToLower unicodeLower address) else None).
Definition addTwentyPercent (value : Z) : Z := Z.quot (value * 12 + 9) 10.
Definition castDecimal (args : list string) : tprog (option Z) :=
  out <~~ cast args ;;
  parsed <-? parse_int (TrimSpace out) ;; Done (if parsed <? 0 then None else Some parsed).
Definition Cast_EstimateGasBudget (address : string) (amount : Z) : tprog (option GasBudget) :=
  from <~~ Cast_Address ;;
  gasUnits <~~ castDecimal ["estimate"; address; "--value"; FormatInt amount; "--rpc-url"; rpcURL; "--from"; from] ;;
  gasPrice <~~ castDecimal ["gas-price"; "--rpc-url"; rpcURL] ;;
  let gasLimit := addTwentyPercent gasUnits in
  let maxFeePerGas := addTwentyPercent gasPrice in
  Done (Some (MkGasBudget (Some gasLimit) (Some maxFeePerGas) (Some (gasLimit * maxFeePerGas)))).
Definition hash_of_receipt (v : jval) : option string :=
  h ← dec_str "transactionHash" v;
  let hash := ToLower unicodeLower (TrimSpace h) in
  if negb (Nat.eqb (String.length hash) 66) then None
  else r ← strip_prefix "0x" hash; _ ← RpcSource.hex_number 0 (match r with String c r' => if bool_decide (c = "-"%char) || bool_decide (c = "+"%char) then r' else r | "" => r end); Some hash.
Definition parseCastTransactionHash (raw : string) : option string := json_document raw ≫= hash_of_receipt.
Definition send_args (address : string) (amount : Z) (b : GasBudget) : list string :=
  ["send"; address; "--value"; FormatInt amount; "--gas-limit"; FormatInt (default 0 (gb_GasLimit b));
   "--gas-price"; FormatInt (default 0 (gb_MaxFeePerGas b)); "--rpc-url"; rpcURL; "--account"; account; "--json"].
Definition Cast_Send (address : string) (amount : Z) (b : GasBudget) : tprog (option string) :=
  guardQ (validateGasBudget b) (out <~~ cast (send_args address amount b) ;; Done (parseCastTransactionHash out)).
End Cast.
Definition NewCastFunder (unicodeLower : string → string) (json_document : string → option jval) (account rpcURL : string) : option (Funder tquestion treply) :=
  let account := TrimSpace account in
  if bool_decide (account = "") then None
  else Some (MkFunder (Cast_Address unicodeLower account) (Cast_EstimateGasBudget unicodeLower account rpcURL)
               (Cast_Send unicodeLower json_document account rpcURL)).

(** ** The command *)
Definition arcTestnetChainID : Z := 5042002.
Definition walletMinimums (customer treasury : string) : option (gmap string Z) :=
  c ← ParseUSDC customer; t ← ParseUSDC treasury; Some (<["externalCustomer" := c]> {[ "operatorTreasury" := t ]}).
(** The wallets of a deployment, by role. *)
Definition role_wallets (minimums : gmap string Z) (addresses : gmap string string) : option (list HWallet) :=
  mapM (λ role, m ← minimums !! role; Some (MkHWallet role (default "" (addresses !! role)) (Some m))) (isort String.ltb (elements (dom addresses))).
Definition run (unicodeLower : string → string) (json_document : string → option jval) (dep : option Deployment.Deployment)
    (fund : bool) (funderAccount customerMinimum treasuryMinimum funderReserve : string) : tprog (option HReport) :=
  d <-? dep ;;
  guardQ (Deployment.nw_ChainID (Deployment.dp_Network d) =? arcTestnetChainID) (
  minimums <-? walletMinimums customerMinimum treasuryMinimum ;;
  reserve <-? ParseUSDC funderReserve ;;
  wallets <-? role_wallets minimums (Deployment.dp_WalletAddresses d) ;;
  let url := Deployment.nw_RPCURL (Deployment.dp_Network d) in
  source <-? NewRPCClient url ;;
  funder <-? (if fund then Some <$> NewCastFunder unicodeLower json_document funderAccount url else Some None) ;;
  report <~~ EnsureWallets unicodeLower source arcTestnetChainID wallets funder (Some reserve) ;;
  Done (if hr_Healthy report then Some report else None)).

(** ** Redeployments *)
(** [None] is a refusal.  [Sub] saturates. *)
Definition CheckRedeployCadence (startBlock : Z) (lastBroadcastAt : time) (cadence : duration) : tprog (option unit) :=
  guardQ (negb (startBlock =? 0) && (0 <? cadence)) (
  deployedAt <~~ BlockTimestamp startBlock ;;
  chainNow <~~ LatestBlockTimestamp ;;
  let reference := if deployedAt <? lastBroadcastAt then lastBroadcastAt else deployedAt in
  let age := time_Sub chainNow reference in
  Done (if (age <? 0) || (age <? cadence) then None else Some tt)).

(** ** Amounts *)
Lemma addTwentyPercent_headroom v : 0 ≤ v → 12 * v ≤ 10 * addTwentyPercent v < 12 * v + 10.
Proof. intros Hv. unfold addTwentyPercent. rewrite Z.quot_div_nonneg by lia. Z.div_mod_to_equations; lia. Qed.
Lemma validateGasBudget_inv b : validateGasBudget b = true → ∃ g f, b = MkGasBudget (Some g) (Some f) (Some (g * f)) ∧ 0 < g ∧ 0 ≤ f ∧ maxCost b = g * f.
Proof.
  destruct b as [[g|] [f|] [c|]]; cbn; try done. intros [[[Hg%Z.ltb_lt Hf%Z.leb_le]%andb_true_iff Hc%Z.leb_le]%andb_true_iff He%Z.eqb_eq]%andb_true_iff.
  subst c. by exists g, f.
Qed.

Lemma trim_right_zeros_app f : ∃ k, f = trim_right_zeros f +:+ zeros k ∧ (String.length (trim_right_zeros f) + k = String.length f)%nat.
Proof.
  induction f as [|c f (k & Hf & Hk)]; [by exists O|]. cbn [trim_right_zeros]. destruct (bool_decide (c = "0"%char) && _) eqn:E.
  - apply andb_true_iff in E as [->%bool_decide_eq_true_1 E%bool_decide_eq_true_1]. rewrite E in *. exists (S k). cbn in *. split; [by rewrite Hf at 1|lia].
  - exists k. cbn. split; [by rewrite Hf at 1|lia].
Qed.
Lemma sall_app_l p a b : sall p (a +:+ b) = true → sall p a = true.
Proof. rewrite sall_app. by intros [? _]%andb_true_iff. Qed.
(** Printing a native amount and reading it back gives the amount. *)
Lemma native_amounts_round_trip z : 0 ≤ z → ParseUSDC (FormatUSDC (Some z)) = Some z.
Proof.
  intros Hz. unfold FormatUSDC. rewrite (proj2 (Z.ltb_ge z 0)), Z.abs_eq by done. rewrite Z.quot_div_nonneg, Z.rem_mod_nonneg by (unfold nativeUSDCScale; lia).
  change ("" +:+ ?x) with x. set (w := FormatUint (z / nativeUSDCScale)). set (r := z `mod` nativeUSDCScale).
  assert (Hq : 0 ≤ z / nativeUSDCScale) by (apply Z.div_pos; unfold nativeUSDCScale; lia).
  assert (Hr : 0 ≤ r < nativeUSDCScale) by (apply Z.mod_pos_bound; unfold nativeUSDCScale; lia).
  assert (Hw : sall isDigit w = true) by by apply FormatUint_digits. assert (Hpw : parse_uint w = Some (z / nativeUSDCScale)) by by apply parse_uint_FormatUint.
  assert (Hdm : z = nativeUSDCScale * (z / nativeUSDCScale) + r) by (apply Z.div_mod; unfold nativeUSDCScale; lia).
  assert (Hne : w ≠ "") by apply FormatUint_nonempty.
  assert (Hpre : ∀ t, Git.HasPrefix (w +:+ t) "-" = false ∧ Git.HasPrefix (w +:+ t) "+" = false ∧ bool_decide (w +:+ t = "") = false).
  { intros t. destruct w as [|c w']; [done|]. cbn in Hw. apply andb_true_iff in Hw as [Hc _]. rewrite sapp_cons. unfold Git.HasPrefix. cbn [strip_prefix].
    split_and!; [rewrite (bool_decide_false ("-"%char = c)); [done|by intros <-]|rewrite (bool_decide_false ("+"%char = c)); [done|by intros <-]|done]. }
  assert (Hplain : ∀ f, sall isDigit f = true → sall plain f = true) by (intros f; apply sall_mono; intros c Hc; unfold plain; by rewrite Hc).
  unfold ParseUSDC. destruct (r =? 0) eqn:E0.
  - apply Z.eqb_eq in E0. rewrite TrimSpace_plain by auto. destruct (Hpre "") as (H1 & H2 & H3). rewrite sapp_nil_r in H1, H2, H3. rewrite H1, H2, H3. cbn [orb].
    rewrite (split_on_digits _ Hw), bool_decide_false, (parse_int_digits _ Hw), Hpw by done. change (Some (z / nativeUSDCScale * nativeUSDCScale + 0) = Some z). f_equal. lia.
  - destruct (trim_right_zeros_app (FormatPad 18 r)) as (k & Hf & Hk). set (g := trim_right_zeros _) in *.
    assert (Hl : String.length (FormatPad 18 r) = 18%nat) by (apply FormatPad_length; unfold nativeUSDCScale in Hr; lia).
    assert (Hg : sall isDigit g = true) by (apply (sall_app_l _ _ (zeros k)); rewrite <-Hf; apply FormatPad_digits; lia).
    rewrite TrimSpace_plain by (rewrite !sall_app; cbn; by rewrite !Hplain). destruct (Hpre ("." +:+ g)) as (H1 & H2 & H3). rewrite H1, H2, H3. cbn [orb].
    rewrite (split_on_dot _ _ Hw Hg), bool_decide_false, (parse_int_digits _ Hw), Hpw by done. cbn [mbind option_bind].
    rewrite (proj2 (Nat.ltb_ge 18 _)) by lia. rewrite Hg. cbn [negb]. replace (18 - String.length g)%nat with k by lia.
    rewrite <-Hf, digits_value_FormatPad by lia. cbn. f_equal. lia.
Qed.

(** ** Top-ups *)
(** The interface of the two: reading never pays, and a transfer with a valid
    budget is one question, [pay]. *)
Class Pays {Q R} (is_pay : Q → bool) (pay : string → Z → GasBudget → Q) (source : BalanceSource Q R) (funder : Funder Q R) : Prop := {
  pays_chain : asks_only (λ q, is_pay q = false) (bs_ChainID source);
  pays_balance a : asks_only (λ q, is_pay q = false) (bs_Balance source a);
  pays_address : asks_only (λ q, is_pay q = false) (fn_Address funder);
  pays_estimate a z : asks_only (λ q, is_pay q = false) (fn_EstimateGasBudget funder a z);
  pays_send a z b : validateGasBudget b = true → ∃ k, fn_Send funder a z b = Ask (pay a z b) k ∧ ∀ r, ∃ x, k r = Done x;
  pays_pay a z b : is_pay (pay a z b) = true }.
(** A chain whose funder [f] nobody else draws on: its balance [bal] only falls
    by a transfer, at most by the amount and the budget's cost, and is what the
    source says of it. *)
Class FundedBy {Q R S} (is_pay : Q → bool) (pay : string → Z → GasBudget → Q) (source : BalanceSource Q R) (funder : Funder Q R)
    (answer : Q → S → S * R) (bal : S → Z) (f : string) : Prop := {
  fb_read q s : is_pay q = false → bal s ≤ bal (answer q s).1;
  fb_paid a z b s : 0 ≤ z → validateGasBudget b = true → bal s - (z + maxCost b) ≤ bal (answer (pay a z b) s).1;
  fb_balance s s' v l : serve answer (bs_Balance source f) s = (s', Some v, l) → v ≤ bal s';
  fb_address s s' a l : serve answer (fn_Address funder) s = (s', Some a, l) → a = f }.

Section TopUps.
Context {Q R S : Type} (is_pay : Q → bool) (pay : string → Z → GasBudget → Q) (unicodeLower : string → string).
Context (source : BalanceSource Q R) (funder : Funder Q R) (answer : Q → S → S * R) (bal : S → Z) (f : string).
Context {HP : Pays is_pay pay source funder} {HF : FundedBy is_pay pay source funder answer bal f}.
Definition paid (l : list (Q * R)) : list Q := filter (λ q, is_pay q = true) l.*1.
Lemma paid_app l1 l2 : paid (l1 ++ l2) = paid l1 ++ paid l2.
Proof. unfold paid. by rewrite fmap_app, filter_app. Qed.
Lemma read_run {A} (p : prog Q R A) : asks_only (λ q, is_pay q = false) p → ∀ s s' a l, serve answer p s = (s', a, l) →
  bal s ≤ bal s' ∧ paid l = [].
Proof using HF.
  induction p as [a|q k IH]; intros Hp s s' a' l; cbn; [by intros [= <- <- <-]|]. destruct Hp as [Hq Hk].
  pose proof (fb_read q s Hq) as Hle. destruct (answer q s) as [s1 r]. destruct (serve answer (k r) s1) as [[s2 a2] l2] eqn:E. intros [= <- <- <-].
  apply IH in E as [Hle2 Hl]; [|done]. cbn in Hle. split; [lia|]. unfold paid in *. rewrite fmap_cons, filter_cons, decide_False; [done|]. cbn. by rewrite Hq.
Qed.
Lemma paid_pay a z b r l : paid ((pay a z b, r) :: l) = pay a z b :: paid l.
Proof using HP. unfold paid. rewrite fmap_cons, filter_cons. cbn [fst]. by rewrite decide_True by apply pays_pay. Qed.
(** One wallet: nothing, or its exact deficit under a valid budget, and never
    below the reserve. *)
Definition topped (reserve : Z) (st : WalletStatus) (o : option WalletStatus) (l : list (Q * R)) : Prop :=
  (short st = false ∧ o = Some st ∧ paid l = []) ∨
  (short st = true ∧
   ((o = None ∧ paid l = []) ∨
    ∃ b, validateGasBudget b = true ∧ paid l = [pay (ws_Address st) (deficit st) b] ∧
      ∀ st', o = Some st' → ws_Minimum st' ≤ ws_After st')).
Lemma top_up_run reserve st s s' o l : serve answer (top_up source funder f reserve st) s = (s', o, l) →
  (reserve ≤ bal s → reserve ≤ bal s') ∧ topped reserve st o l.
Proof using HP HF.
  unfold top_up, topped. destruct (short st) eqn:Es; cbn [negb]; [|intros [= <- <- <-]; split; [done|by left]].
  intros [[H ->]|(b & s1 & l1 & m1 & H1 & H & ->)]%serve_try.
  { apply read_run in H as [Hle Hl]; [|apply pays_estimate]. split; [lia|]. right. split; [done|by left]. }
  apply read_run in H1 as [Hle1 Hl1]; [|apply pays_estimate]. destruct (validateGasBudget b) eqn:Eb; cbn [guardQ] in H.
  2: { injection H as <- <- <-. rewrite app_nil_r. split; [lia|]. right. split; [done|by left]. }
  apply serve_try in H as [[H ->]|(cur & s2 & l2 & m2 & H2 & H & ->)].
  { apply read_run in H as [Hle Hl]; [|apply pays_balance]. rewrite paid_app, Hl1, Hl. split; [lia|]. right. split; [done|by left]. }
  pose proof (fb_balance _ _ _ _ H2) as Hcur. apply read_run in H2 as [Hle2 Hl2]; [|apply pays_balance].
  destruct (_ <=? cur) eqn:Ec; cbn [guardQ] in H.
  2: { injection H as <- <- <-. rewrite app_nil_r, paid_app, Hl1, Hl2. split; [lia|]. right. split; [done|by left]. }
  apply Z.leb_le in Ec. destruct (pays_send (ws_Address st) (deficit st) b Eb) as (k & Hk & Hdone). rewrite Hk in H. unfold tryQ in H. cbn [bindQ serve] in H.
  assert (Hz : 0 ≤ deficit st) by (unfold short, deficit in *; apply Z.ltb_lt in Es; lia).
  pose proof (fb_paid (ws_Address st) (deficit st) b s2 Hz Eb) as Hpay. destruct (answer (pay _ _ _) s2) as [s3 r]. cbn [fst] in Hpay.
  destruct (Hdone r) as [x Hx]. rewrite Hx in H. cbn [bindQ] in H.
  assert (Hrest : ∀ p : prog Q R (option WalletStatus), asks_only (λ q, is_pay q = false) p → (∀ s st' s' l, serve answer p s = (s', Some st', l) → ws_Minimum st' ≤ ws_After st') →
    (let '(s, c, l) := serve answer p s3 in (s, c, (pay (ws_Address st) (deficit st) b, r) :: l)) = (s', o, m2) →
    reserve ≤ bal s' ∧ paid m2 = [pay (ws_Address st) (deficit st) b] ∧ ∀ st', o = Some st' → ws_Minimum st' ≤ ws_After st').
  { intros p Hp Hend. destruct (serve answer p s3) as [[s4 o4] l4] eqn:E. intros [= <- <- <-]. pose proof E as E2. apply read_run in E as [Hle4 Hl4]; [|done].
    split; [lia|]. split; [by rewrite paid_pay, Hl4|by intros st' ->; eapply Hend]. }
  apply Hrest in H as (Hres & Hl3 & Hst).
  - split; [done|]. right. split; [done|]. right. exists b. split; [done|]. split; [|done]. by rewrite !paid_app, Hl1, Hl2, Hl3.
  - destruct x as [h|]; [|done]. apply asks_try; [apply pays_balance|]. intros a. by apply asks_guard.
  - intros s5 st' s6 l6 E. destruct x as [h|]; [|done]. apply serve_try_some in E as (a & s7 & l7 & l8 & _ & E & ->).
    apply serve_guard_some in E as [Hmin%Z.leb_le E]. apply serve_done in E as (_ & [= ->] & _). done.
Qed.
(** The payments that were due, in order: an address and its deficit. *)
Definition due (l : list WalletStatus) : list (string * Z) := (λ st, (ws_Address st, deficit st)) <$> filter (λ st, short st = true) l.
Definition payment (p : string * Z * GasBudget) : Q := pay p.1.1 p.1.2 p.2.
Definition paid_up_to (l : list WalletStatus) (ps : list (string * Z * GasBudget)) (h : list (Q * R)) : Prop :=
  paid h = payment <$> ps ∧ Forall (λ p, validateGasBudget p.2 = true) ps ∧ ps.*1 `prefix_of` due l.
Lemma due_cons st l : due (st :: l) = (if short st then [(ws_Address st, deficit st)] else []) ++ due l.
Proof. unfold due. rewrite filter_cons. destruct (short st); [by rewrite decide_True|by rewrite decide_False]. Qed.
Lemma top_up_all_run reserve l : ∀ s s' o h, serve answer (top_up_all source funder f reserve l) s = (s', o, h) →
  (reserve ≤ bal s → reserve ≤ bal s') ∧ ∃ ps, paid_up_to l ps h ∧
  ∀ l', o = Some l' → ps.*1 = due l ∧ Forall (λ st, ws_Minimum st ≤ ws_After st ∨ (short st = false ∧ st ∈ l)) l' ∧ length l' = length l.
Proof using HP HF.
  induction l as [|st l IH]; intros s s' o h; cbn [top_up_all].
  { intros [= <- <- <-]. split; [done|]. exists []. split; [by split_and!|]. by intros l' [= <-]. }
  intros [[H ->]|(st' & s1 & h1 & h2 & H1 & H & ->)]%serve_try.
  { apply top_up_run in H as [Hr [(Hs & [=] & _)|(Hs & [[_ Hp]|(b & Hb & Hp & _)])]]; (split; [done|]).
    - exists []. split; [|done]. split_and!; [done..|]. apply prefix_nil.
    - exists [(ws_Address st, deficit st, b)]. split; [|done]. split_and!; [done|by repeat constructor|]. rewrite due_cons, Hs. cbn. apply prefix_cons, prefix_nil. }
  apply top_up_run in H1 as [Hr1 H1].
  assert (Hst : ∃ ps1, paid h1 = payment <$> ps1 ∧ Forall (λ p, validateGasBudget p.2 = true) ps1 ∧ due (st :: l) = ps1.*1 ++ due l ∧
    (ws_Minimum st' ≤ ws_After st' ∨ (short st' = false ∧ st' ∈ st :: l))).
  { rewrite due_cons. destruct H1 as [(Hs & [= ->] & Hp)|(Hs & [[[=] _]|(b & Hb & Hp & Hmin)])]; rewrite Hs.
    - exists []. split_and!; try done. right. split; [done|by left].
    - exists [(ws_Address st, deficit st, b)]. split_and!; try done; [by repeat constructor|]. left. by apply Hmin. }
  destruct Hst as (ps1 & Hp1 & Hb1 & Hdue & Hmin). clear H1.
  apply serve_try in H as [[H ->]|(l2 & s2 & h3 & h4 & H & Hd & ->)]; apply IH in H as (Hr2 & ps2 & (Hp2 & Hb2 & Hpre) & Hend).
  - split; [auto|]. exists (ps1 ++ ps2). split; [|done]. split_and!; [by rewrite paid_app, fmap_app, Hp1, Hp2|by apply Forall_app|].
    rewrite fmap_app, Hdue. by apply prefix_app.
  - apply serve_done in Hd as (-> & -> & ->). rewrite app_nil_r. split; [auto|]. destruct (Hend l2 eq_refl) as (He & Hf2 & Hlen).
    exists (ps1 ++ ps2). split; [split_and!; [by rewrite paid_app, fmap_app, Hp1, Hp2|by apply Forall_app|rewrite fmap_app, Hdue; by apply prefix_app]|].
    intros l' [= <-]. split_and!; [by rewrite fmap_app, Hdue, He| |cbn; by rewrite Hlen].
    constructor; [done|]. eapply Forall_impl; [exact Hf2|]. intros x [?|[? ?]]; [by left|]. right. split; [done|by right].
Qed.
(** What the checks found of the wallets they were given. *)
Definition checked_as (w : HWallet) (st : WalletStatus) : Prop :=
  ws_Role st = hw_Role w ∧ ws_Address st = hw_Address w ∧ hw_Minimum w = Some (ws_Minimum st) ∧ 0 ≤ ws_Minimum st ∧ ws_After st = ws_Before st.
Lemma quiet_check wallets : ∀ seen, asks_only (λ q, is_pay q = false) (check_wallets unicodeLower source wallets seen).
Proof using HP.
  induction wallets as [|w l IH]; intros seen; [done|]. cbn. do 2 (apply asks_guard; intros _). apply asks_let. intros m _. apply asks_guard. intros _.
  apply asks_try; [apply pays_balance|]. intros b. by apply asks_try.
Qed.
Lemma wallets_check_run wallets : ∀ seen s s' l seen' h, serve answer (check_wallets unicodeLower source wallets seen) s = (s', Some (l, seen'), h) →
  Forall2 checked_as wallets l ∧ NoDup (normalized unicodeLower <$> (hw_Address <$> wallets)) ∧
  (∀ a, is_Some (seen' !! a) ↔ is_Some (seen !! a) ∨ a ∈ normalized unicodeLower <$> (hw_Address <$> wallets)) ∧
  (∀ a, a ∈ normalized unicodeLower <$> (hw_Address <$> wallets) → seen !! a = None).
Proof using Type.
  induction wallets as [|w wl IH]; intros seen s s' l seen' h; cbn.
  { intros [= <- <- <- <-]. split_and!; [constructor|constructor| |by intros a ?%not_elem_of_nil]. intros a. split; [by left|]. by intros [?|?%not_elem_of_nil]. }
  intros [_ H]%serve_guard_some. apply serve_guard_some in H as [Hfresh%bool_decide_eq_true_1 H]. apply serve_let_some in H as (m & Hm & H).
  apply serve_guard_some in H as [H0%Z.leb_le H]. apply serve_try_some in H as (b & s1 & h1 & h2 & _ & H & _).
  apply serve_try_some in H as ([l1 seen1] & s2 & h3 & h4 & H & Hd & _). apply serve_done in Hd as (_ & [= -> ->] & _).
  apply IH in H as (Hf & Hnd & Hseen & Hnew). set (a0 := normalized unicodeLower (hw_Address w)) in *.
  assert (Hni : a0 ∉ normalized unicodeLower <$> (hw_Address <$> wl)) by (intros Hin; apply Hnew in Hin; by rewrite lookup_insert_eq in Hin).
  split_and!; [by constructor|by constructor| |].
  - intros a. rewrite Hseen, elem_of_cons, lookup_insert_is_Some. destruct (decide (a0 = a)) as [->|Hne]; naive_solver.
  - intros a [->|Hin]%elem_of_cons; [done|]. specialize (Hnew a Hin). by rewrite lookup_insert_ne in Hnew by (intros ->; by rewrite lookup_insert_eq in Hnew).
Qed.
Lemma estimate_all_quiet l : asks_only (λ q, is_pay q = false) (estimate_all funder l).
Proof using HP.
  induction l as [|st l IH]; [done|]. cbn. destruct (negb (short st)); [done|]. apply asks_try; [apply pays_estimate|]. intros b.
  apply asks_guard. intros _. by apply asks_try.
Qed.
(** Past the checks: what was paid, and what a report promises. *)
Lemma fund_run reserve sts seen s s' o l : serve answer (fund_wallets unicodeLower source funder reserve sts seen) s = (s', o, l) →
  (reserve ≤ bal s → reserve ≤ bal s') ∧
  (paid l = [] ∨ (seen !! normalized unicodeLower f = None ∧ ∃ ps, paid_up_to sts ps l)) ∧
  ∀ rep, o = Some rep → hr_Healthy rep = true ∧ length (hr_Wallets rep) = length sts ∧
    Forall (λ st, ws_Minimum st ≤ ws_After st ∨ (short st = false ∧ st ∈ sts)) (hr_Wallets rep).
Proof using HP HF.
  intros [[H ->]|(a & s1 & l1 & m1 & H1 & H & ->)]%serve_try.
  { apply read_run in H as [Hle Hl]; [|apply pays_address]. split; [lia|]. split; [by left|done]. }
  pose proof (fb_address _ _ _ _ H1) as ->. apply read_run in H1 as [Hle1 Hl1]; [|apply pays_address].
  case_bool_decide as Hseen; cbn [guardQ] in H; [|injection H as <- <- <-; rewrite app_nil_r; split; [lia|split; [by left|done]]].
  apply serve_try in H as [[H ->]|(v & s2 & l2 & m2 & H2 & H & ->)].
  { apply read_run in H as [Hle Hl]; [|apply pays_balance]. rewrite paid_app, Hl1, Hl. split; [lia|]. split; [by left|done]. }
  apply read_run in H2 as [Hle2 Hl2]; [|apply pays_balance].
  apply serve_try in H as [[H ->]|(g & s3 & l3 & m3 & H3 & H & ->)].
  { apply read_run in H as [Hle Hl]; [|apply estimate_all_quiet]. rewrite !paid_app, Hl1, Hl2, Hl. split; [lia|]. split; [by left|done]. }
  apply read_run in H3 as [Hle3 Hl3]; [|apply estimate_all_quiet].
  destruct (_ <=? v); cbn [guardQ] in H; [|injection H as <- <- <-; rewrite app_nil_r, !paid_app, Hl1, Hl2, Hl3; split; [lia|split; [by left|done]]].
  assert (Hp : ∀ ps h, paid_up_to sts ps h → paid_up_to sts ps (l1 ++ l2 ++ l3 ++ h)).
  { intros ps h (Hp & Hr). split; [|done]. by rewrite !paid_app, Hl1, Hl2, Hl3. }
  apply serve_try in H as [[H ->]|(sts' & s4 & l4 & m4 & H4 & H & ->)].
  { apply top_up_all_run in H as (Hr & ps & Hps & _). split; [intros; apply Hr; lia|]. split; [right; split; [done|exists ps; by apply Hp]|done]. }
  apply top_up_all_run in H4 as (Hr & ps & (Hps & Hb & Hpre) & Hend). destruct (Hend sts' eq_refl) as (_ & Hf & Hlen).
  apply serve_try in H as [[H ->]|(w & s5 & l5 & m5 & H5 & H & ->)].
  { apply read_run in H as [Hle Hl]; [|apply pays_balance]. split; [intros; specialize (Hr ltac:(lia)); lia|]. split; [|done]. right. split; [done|].
    exists ps. apply Hp. split; [by rewrite paid_app, Hl, app_nil_r|done]. }
  apply read_run in H5 as [Hle5 Hl5]; [|apply pays_balance].
  assert (Hm5 : bal s5 ≤ bal s' ∧ paid m5 = [] ∧ ∀ rep, o = Some rep → rep = MkHReport true sts').
  { destruct (reserve <=? w); injection H as <- <- <-; (split; [lia|]); (split; [done|]); [by intros rep [= <-]|done]. }
  destruct Hm5 as (Hle6 & Hm5 & Hrep). split; [intros; specialize (Hr ltac:(lia)); lia|]. split.
  - right. split; [done|]. exists ps. apply Hp. split; [by rewrite !paid_app, Hl5, Hm5, !app_nil_r|done].
  - intros rep Ho. by rewrite (Hrep rep Ho).
Qed.
End TopUps.

(** ** What the command uses *)
Definition is_cast_send (q : tquestion) : bool :=
  match q with TCast (cmd :: _) => bool_decide (cmd = "send") | _ => false end.
Section Wired.
Context (unicodeLower : string → string) (json_document : string → option jval) (account rpcURL : string).
Definition rpc_source : BalanceSource tquestion treply := MkSource RPC_ChainID RPC_Balance.
Definition cast_funder : Funder tquestion treply :=
  MkFunder (Cast_Address unicodeLower account) (Cast_EstimateGasBudget unicodeLower account rpcURL) (Cast_Send unicodeLower json_document account rpcURL).
Definition cast_pay (a : string) (z : Z) (b : GasBudget) : tquestion := TCast (send_args account rpcURL a z b).
#[export] Instance wired_pays : Pays is_cast_send cast_pay rpc_source cast_funder.
Proof.
  assert (Hdec : ∀ args, bool_decide (hd "" args = "send") = false → args ≠ [] → asks_only (λ q, is_cast_send q = false) (castDecimal args)).
  { intros [|x args] Hx Hne; [done|]. split; [exact Hx|]. intros r. destruct r as [| |out]; [done..|]. cbn. by destruct (parse_int _). }
  split.
  - split; [done|]. intros r. cbn. destruct r as [|st b|]; [done| |done]. destruct (st =? 200); [|done]. destruct (_ ≫= _) as [e|]; [|done]. cbn. by destruct (parseHexBig e).
  - intros a. split; [done|]. intros r. cbn. destruct r as [|st b|]; [done| |done]. destruct (st =? 200); [|done]. by destruct (_ ≫= _).
  - split; [done|]. intros r. by destruct r.
  - intros a z. apply asks_try; [split; [done|]; intros r; by destruct r|]. intros from. apply asks_try; [by apply Hdec|]. intros g.
    apply asks_try; [by apply Hdec|]. by intros p.
  - intros a z b Hb. cbn [fn_Send cast_funder]. unfold Cast_Send. rewrite Hb. eexists. split; [reflexivity|].
    intros r. destruct r; cbn; by eexists.
  - done.
Qed.
End Wired.

(** ** A top-up *)
Definition sample_wallet_address : string := "0x1111111111111111111111111111111111111111".
Definition sample_funder_address : string := "0x2222222222222222222222222222222222222222".
(** The funder's balance and the wallet's. *)
Definition sample_paid (v g p : string) (s : Z * Z) : Z * Z :=
  let z := default 0 (parse_int v) in
  (s.1 - (z + default 0 (parse_int g) * default 0 (parse_int p)), s.2 + z).
Definition sample_text (v : string) : treply := THttp 200 (Some (JObj [("result", JStr v)])).
Definition sample_balance (v : Z) : treply :=
  if v =? 1000000 then sample_text "0xf4240" else if v =? 400 then sample_text "0x190" else if v =? 1000 then sample_text "0x3e8"
  else if v =? 999400 - 25200 * 2 then sample_text "0xe7b08" else TFailed.
Definition sample_ops_node (q : tquestion) (s : Z * Z) : (Z * Z) * treply :=
  match q with
  | TRpc m ps =>
    (s, if bool_decide (m = "eth_chainId") then sample_text "0x4cef52"
        else match ps with
             | JStr a :: _ => if bool_decide (a = sample_funder_address) then sample_balance s.1
                              else if bool_decide (a = sample_wallet_address) then sample_balance s.2 else TFailed
             | _ => TFailed
             end)
  | TCast ("send" :: _ :: _ :: v :: _ :: g :: _ :: p :: _) => (sample_paid v g p s, TOut "receipt")
  | TCast ("wallet" :: _) => (s, TOut sample_funder_address)
  | TCast ("estimate" :: _) => (s, TOut "21000")
  | TCast ("gas-price" :: _) => (s, TOut "1")
  | TCast _ => (s, TFailed)
  end.
Definition sample_receipt (_ : string) : option jval := Some (JObj [("transactionHash", JStr ("0x" +:+ zeros 64))]).
Lemma sample_balance_told v h : sample_balance v = sample_text h → parseHexBig h = Some v.
Proof.
  unfold sample_balance. repeat (destruct (v =? _) eqn:E; [apply Z.eqb_eq in E as ->; intros [= <-]; reflexivity|clear E]). done.
Qed.
#[export] Instance sample_funded : FundedBy is_cast_send (cast_pay "demo" "http://rpc") rpc_source
  (cast_funder id sample_receipt "demo" "http://rpc") sample_ops_node fst sample_funder_address.
Proof.
  split.
  - intros q s Hq. assert (Hs : (sample_ops_node q s).1 = s); [|by rewrite Hs].
    destruct q as [m ps|[|cmd args]]; [done..|]. cbn in Hq. apply bool_decide_eq_false_1 in Hq. unfold sample_ops_node. by repeat case_match; subst.
  - intros a z b s Hz (g & p & -> & Hg & Hp & Hc)%validateGasBudget_inv. rewrite Hc.
    assert (Hpaid : (sample_ops_node (cast_pay "demo" "http://rpc" a z (MkGasBudget (Some g) (Some p) (Some (g * p)))) s).1
      = sample_paid (FormatInt z) (FormatInt g) (FormatInt p) s) by reflexivity.
    rewrite Hpaid. unfold sample_paid. rewrite !parse_int_FormatInt. cbn. lia.
  - intros s s' v l H. cbn [bs_Balance rpc_source] in H. unfold RPC_Balance in H. apply serve_try_some in H as (e & s1 & l1 & l2 & H1 & H & _).
    apply serve_done in H as (-> & H & _). unfold rpc_call in H1. cbn [serve sample_ops_node] in H1. rewrite bool_decide_false in H1 by done.
    rewrite bool_decide_true in H1 by done. injection H1 as <- H1 _. revert H1. unfold sample_balance.
    repeat (destruct (_ =? _) eqn:E in |- *; [apply Z.eqb_eq in E; rewrite E; intros [= <-]; vm_compute in H; injection H as ->; lia|clear E]). done.
  - intros s s' a l H. vm_compute in H. by injection H as _ <- _.
Qed.
Definition sample_health : tprog (option HReport) :=
  EnsureWallets id rpc_source 5042002 [MkHWallet "operatorTreasury" sample_wallet_address (Some 1000)] (Some (cast_funder id sample_receipt "demo" "http://rpc")) (Some 5000).
