(* ===== verification/Redeploy.v ===== *)
(** Redeploying the contracts of the test network ([internal/testnetops]:
    [redeploy.go], [cmd/redeploy-testnet]).

    [redeploy] is the program [run] of one process: it asks the node and [cast]
    as [Testnetops] does ([DNode]), the disk, and Foundry's [forge] for the
    broadcast ([DForgeStart] starts the process, [DForgeWait] waits for it).
    Opening a directory and syncing it is one question.  File modes and the text
    of errors are left out: [None] is an error.  [json_document] is the JSON
    document a text holds.  What several processes do to one disk, with crashes
    and power failures, is in [Broadcasts]. *)
From Stdlib Require Import Ascii String.
From S2P Require Import Prelude GoStr GoTime GoJson Amount Store H3 Ask.
From S2P Require Deployment Git Testnetops.
#[local] Open Scope Z_scope.
#[local] Open Scope snap_scope.
#[local] Set Default Proof Using "Type".

(** ** [time.Parse(time.RFC3339, s)] *)
(** The first [n] digits, those that are missing as zeros. *)
Fixpoint leading_digits (n : nat) (s : string) (acc : Z) : Z :=
  match n, s with
  | S n', String c r => if isDigit c then leading_digits n' r (10 * acc + digitZ c) else acc * 10 ^ Z.of_nat n
  | _, _ => acc * 10 ^ Z.of_nat n
  end.
Definition fraction (s : string) : Z :=
  match s with
  | String p (String d r) =>
    if (bool_decide (p = "."%char) || bool_decide (p = ","%char)) && isDigit d then leading_digits 9 (String d r) 0 else 0
  | _ => 0
  end.
(** Seconds east of UTC. *)
Definition zone (s : string) : option (Z * string) :=
  match s with
  | String "Z" r => Some (0, r)
  | String sg r =>
    '(hh, r) ← num2 r; r ← skip ":" r; '(mm, r) ← num2 r;
    if (bool_decide (sg = "+"%char) || bool_decide (sg = "-"%char)) && (hh <=? 24) && (mm <=? 60)
    then Some ((if bool_decide (sg = "-"%char) then -1 else 1) * (60 * (60 * hh + mm)), r) else None
  | "" => None
  end.
Definition parse_RFC3339 (s : string) : option time :=
  '(y1, r) ← num2 s; '(y2, r) ← num2 r; r ← skip "-" r;
  '(mo, r) ← num2 r; r ← skip "-" r;
  '(dd, r) ← num2 r; r ← skip "T" r;
  '(hh, r) ← num12 r; r ← skip ":" r;
  '(mi, r) ← num2 r; r ← skip ":" r;
  '(ss, r) ← num2 r;
  '(off, rest) ← zone (skip_fraction r);
  if bool_decide (rest = "") && (1 <=? mo) && (mo <=? 12) && (1 <=? dd) &&
     (dd <=? daysIn mo (100 * y1 + y2)) && (hh <? 24) && (mi <? 60) && (ss <? 60)
  then Some (Date_UTC (Date (100 * y1 + y2) mo dd) + (3600 * hh + 60 * mi + ss - off) * Second + fraction r)
  else None.

(** ** The outside *)
Inductive dquestion :=
| DNode (q : Testnetops.tquestion)
| DOpenNew (path : string)
| DWrite (path text : string)
| DSync (path : string)
| DClose (path : string)
| DChmod (path : string)
| DRemove (path : string)
| DSyncDir (dir : string)
| DRead (path : string)
| DCreateTemp (dir pattern : string)
| DRename (from to : string)
| DForgeStart (args : list string)
| DForgeWait.
Inductive dreply :=
| DFailed
| DDone
| DAbsent
| DText (text : string)
| DPath (path : string)
| DTold (r : Testnetops.treply).
Abbreviation dprog := (prog dquestion dreply).
Definition told (r : dreply) : Testnetops.treply := match r with DTold r => r | _ => Testnetops.TFailed end.
Fixpoint node {A} (p : Testnetops.tprog A) : dprog A :=
  match p with Done a => Done a | Ask q k => Ask (DNode q) (λ r, node (k (told r))) end.
Definition does (q : dquestion) : dprog (option unit) := Ask q (λ r, Done (match r with DDone => Some tt | _ => None end)).

(** ** Paths *)
Fixpoint upto_slash (s : string) : string :=
  match s with
  | "" => ""
  | String c r => match upto_slash r with "" => if bool_decide (c = "/"%char) then String c "" else "" | r' => String c r' end
  end.
(** [filepath.Dir]. *)
Definition Dir (path : string) : string := Git.Clean (upto_slash path).
Definition ends_in_slash (s : string) : bool := bool_decide (upto_slash s = s) && negb (bool_decide (s = "")).
(** The name [os.CreateTemp] makes in a directory, of a pattern with one star
    and the digits [n]. *)
Definition temp_name (dir pattern n : string) : string :=
  let '(prefix, suffix) := cut_at "*" pattern in
  (if ends_in_slash dir then dir else dir +:+ "/") +:+ prefix +:+ n +:+ default "" suffix.

(** ** The guard's files *)
Section Redeploy.
Context (unicodeLower : string → string) (json_document : string → option jval).
Definition member_text (k v : string) : string := json_encode k +:+ ":" +:+ v.
Definition reservation_text (chainID : Z) : string :=
  "{" +:+ member_text "chainId" (FormatUint chainID) +:+ "," +:+ member_text "state" (json_encode "pending") +:+ "}".
Definition marker_text (chainID : Z) (broadcastAt : time) : string :=
  "{" +:+ member_text "chainId" (FormatUint chainID) +:+ "," +:+ member_text "broadcastAt" (json_encode (RFC3339 broadcastAt)) +:+ "}".
(** What that text says, for a reader of JSON. *)
Definition marker_json (chainID : Z) (broadcastAt : time) : jval :=
  JObj [("chainId", JInt chainID); ("broadcastAt", JStr (RFC3339 broadcastAt))].
Definition syncDirectory (dir : string) : dprog (option unit) := does (DSyncDir dir).
Definition AcquireRedeployReservation (path : string) (chainID : Z) : dprog (option string) :=
  _ <~~ does (DOpenNew path) ;;
  bindQ
    (_ <~~ does (DWrite path (reservation_text chainID)) ;; _ <~~ does (DSync path) ;; _ <~~ does (DClose path) ;;
     syncDirectory (Dir path))
    (λ o, match o with
     | Some _ => Done (Some path)
     | None => Ask (DClose path) (λ _, Ask (DRemove path) (λ _, Done None))
     end).
Definition Release (path : string) : dprog (option unit) :=
  guardQ (negb (bool_decide (TrimSpace path = ""))) (_ <~~ does (DRemove path) ;; syncDirectory (Dir path)).
Definition marker_time (expectedChainID : Z) (raw : string) : option time :=
  marker ← json_document raw;
  chainID ← Deployment.dec_uint64 "chainId" marker; broadcastAt ← dec_str "broadcastAt" marker;
  if chainID =? expectedChainID then parse_RFC3339 broadcastAt else None.
Definition ReadRedeployMarker (path : string) (expectedChainID : Z) : dprog (option time) :=
  Ask (DRead path) (λ r, Done
    (match r with DAbsent => Some zeroTime | DText raw => marker_time expectedChainID raw | _ => None end)).
Definition WriteRedeployMarker (path : string) (chainID : Z) (broadcastAt : time) : dprog (option unit) :=
  let dir := Dir path in
  Ask (DCreateTemp dir ".redeploy-guard-*") (λ r,
    match r with
    | DPath tempPath =>
      bindQ
        (bindQ
          (_ <~~ does (DChmod tempPath) ;; _ <~~ does (DWrite tempPath (marker_text chainID broadcastAt)) ;; does (DSync tempPath))
          (λ o, match o with
           | None => Ask (DClose tempPath) (λ _, Done None)
           | Some _ => _ <~~ does (DClose tempPath) ;; _ <~~ does (DRename tempPath path) ;; syncDirectory dir
           end))
        (λ o, Ask (DRemove tempPath) (λ _, Done o))
    | _ => Done None
    end).

(** ** The command *)
(** Whether forge was started, and whether it ended well. *)
Definition runForgeCommand (args : list string) : dprog (bool * option unit) :=
  Ask (DForgeStart args) (λ r,
    match r with DDone => bindQ (does DForgeWait) (λ o, Done (true, o)) | _ => Done (false, None) end).
Definition cadence : duration := 48 * Hour.
Definition forge_args (contractsRoot url account sender : string) : list string :=
  ["script"; "script/Deploy.s.sol:Deploy"; "--root"; contractsRoot; "--rpc-url"; url; "--account"; account; "--sender"; sender;
   "--broadcast"].
(** Between the reservation and the broadcast: who will sign it. *)
Definition cleared (guardPath url account : string) (startBlock : Z) : dprog (option string) :=
  lastBroadcastAt <~~ ReadRedeployMarker guardPath Testnetops.arcTestnetChainID ;;
  _ <~~ node (Testnetops.CheckRedeployCadence startBlock lastBroadcastAt cadence) ;;
  signer <-? Testnetops.NewCastFunder unicodeLower json_document account url ;;
  node (Testnetops.fn_Address signer).
(** After the broadcast. *)
Definition recorded (guardPath reservation : string) : dprog (option unit) :=
  broadcastAt <~~ node Testnetops.LatestBlockTimestamp ;;
  _ <~~ WriteRedeployMarker guardPath Testnetops.arcTestnetChainID broadcastAt ;;
  Release reservation.
(** With the reservation held: whether it is released at the end
    ([releaseBeforeBroadcast]), and the result. *)
Definition reserved (guardPath reservation contractsRoot url account : string) (startBlock : Z) : dprog (bool * option unit) :=
  bindQ (cleared guardPath url account startBlock) (λ o,
    match o with
    | None => Done (true, None)
    | Some sender =>
      bindQ (runForgeCommand (forge_args contractsRoot url account sender)) (λ '(started, res),
        if negb started then Done (true, None)
        else bindQ (_ <-? res ;; recorded guardPath reservation) (λ o, Done (false, o)))
    end).
Definition guard_path (deploymentPath : string) : string := deploymentPath +:+ ".redeploy-guard.json".
Definition pending_path (deploymentPath : string) : string := guard_path deploymentPath +:+ ".pending".
Definition redeploy (dep : option Deployment.Deployment) (deploymentPath contractsRoot account : string) : dprog (option unit) :=
  let account := TrimSpace account in
  guardQ (negb (bool_decide (account = ""))) (
  deployment <-? dep ;;
  let network := Deployment.dp_Network deployment in
  guardQ (Deployment.nw_ChainID network =? Testnetops.arcTestnetChainID) (
  source <-? Testnetops.NewRPCClient (Deployment.nw_RPCURL network) ;;
  chainID <~~ node (Testnetops.bs_ChainID source) ;;
  guardQ (chainID =? Testnetops.arcTestnetChainID) (
  let guardPath := guard_path deploymentPath in
  reservation <~~ AcquireRedeployReservation (guardPath +:+ ".pending") Testnetops.arcTestnetChainID ;;
  bindQ (reserved guardPath reservation contractsRoot (Deployment.nw_RPCURL network) account (Deployment.nw_StartBlock network))
    (λ '(release, res), if release then bindQ (Release reservation) (λ _, Done None) else Done res)))).
End Redeploy.

(** ** A marker is read as it was written *)
Lemma num2_cons a b r : num2 (String a (String b r)) = if isDigit a && isDigit b then Some (10 * digitZ a + digitZ b, r) else None.
Proof. reflexivity. Qed.
Lemma skip_miss c d r : c ≠ d → skip c (String d r) = None.
Proof. intros Hn. unfold skip. by rewrite bool_decide_false. Qed.
Lemma num2_none_head c s : isDigit c = false → num2 (String c s) = None.
Proof. intros Hc. unfold num2. destruct s as [|b r]; [done|]. by rewrite Hc. Qed.
Lemma long_year y r : 10000 ≤ y → ∃ a b c d e r', FormatPad 4 y +:+ r = String a (String b (String c (String d (String e r')))) ∧ isDigit e = true.
Proof.
  intros Hy. pose proof (FormatPad_digits 4 y ltac:(lia)) as Hd.
  pose proof (digits_value_bounds _ 0 y ltac:(lia) (digits_value_FormatPad 4 y ltac:(lia))) as [_ Hb].
  destruct (FormatPad 4 y) as [|a [|b [|c [|d [|e s]]]]]; cbn in Hb; try lia.
  cbn in Hd. rewrite !andb_true_iff in Hd. exists a, b, c, d, e, (s +:+ r). split; [done|]. tauto.
Qed.
Lemma parsed_year t m : parse_RFC3339 (RFC3339 t) = Some m → 0 ≤ d_year (UTC_Date t) ≤ 9999.
Proof.
  unfold RFC3339, fmt_sec. cbv zeta. unfold fmt_year. destruct (d_year (UTC_Date t) <? 0) eqn:E.
  { rewrite !sapp_cons. unfold parse_RFC3339. by rewrite num2_none_head. }
  apply Z.ltb_ge in E. intros H. split; [done|]. apply Z.lt_succ_r, Z.nle_gt. intros Hy.
  match type of H with context [FormatPad 4 _ +:+ ?r] => destruct (long_year _ r Hy) as (a & b & c & d & e & r' & He & Hd) end.
  rewrite He in H. unfold parse_RFC3339 in H. rewrite num2_cons in H. destruct (isDigit a && isDigit b); [|done]. cbn [mbind option_bind] in H.
  rewrite num2_cons in H. destruct (isDigit c && isDigit d); [|done]. cbn [mbind option_bind] in H.
  rewrite skip_miss in H; [done|]. by intros <-.
Qed.
Lemma parse_RFC3339_reads t m : t `mod` Second = 0 → parse_RFC3339 (RFC3339 t) = Some m → m = t.
Proof.
  intros Hwhole Hp. pose proof (parsed_year t m Hp) as Hy. revert Hp. unfold RFC3339, fmt_sec. cbv zeta. unfold fmt_year.
  rewrite (proj2 (Z.ltb_ge _ _) (proj1 Hy)). pose proof (civil_from_days_bounds (t / day_ns)) as [Hm Hd].
  assert (Hdate : Date_UTC (UTC_Date t) = t - t `mod` day_ns) by apply Date_UTC_of_date.
  fold (UTC_Date t) in Hm, Hd. set (d := UTC_Date t) in *. destruct (sec_fields_bounds t) as (Hs & _). set (s := (t `mod` day_ns) / Second) in *.
  assert (Hh : 0 ≤ s / 3600 < 24) by (Z.div_mod_to_equations; lia).
  assert (Hi : 0 ≤ (s / 60) `mod` 60 < 60) by (apply Z.mod_pos_bound; lia). assert (Hsec : 0 ≤ s `mod` 60 < 60) by (apply Z.mod_pos_bound; lia).
  unfold parse_RFC3339.
  match goal with |- context [num2 (FormatPad 4 (d_year d) +:+ ?r)] => destruct (num2_pad4 (d_year d) r Hy) as (y1 & y2 & r1 & E1 & E2 & Hsum) end.
  rewrite E1. cbn [mbind option_bind]. rewrite E2. cbn [mbind option_bind]. rewrite !sapp_cons, !sapp_nil_l.
  unfold num12. repeat (rewrite skip_hit || (rewrite num2_pad2 by lia) || cbn [mbind option_bind]).
  change (fraction "Z") with 0. cbn [skip_fraction zone mbind option_bind]. rewrite Hsum. destruct (_ && _); [|done]. intros Ht. apply (inj Some) in Ht. rewrite <-Ht.
  replace (Date (d_year d) (d_month d) (d_day d)) with d by by destruct d. rewrite Hdate.
  unfold s, day_ns, Second in *. clear -Hwhole. Z.div_mod_to_equations. lia.
Qed.
Section Marker.
Context (json_document : string → option jval).
(** What is documented of [json.Unmarshal]: it reads back what [json.Marshal]
    wrote. *)
Class ReadsMarkers (chainID : Z) : Prop := reads_markers t : json_document (marker_text chainID t) = Some (marker_json chainID t).
Lemma marker_round_trip chainID k t `{!ReadsMarkers chainID} :
  marker_time json_document chainID (marker_text chainID (time_Unix k)) = Some t → t = time_Unix k.
Proof.
  unfold marker_time. rewrite reads_markers. cbn [mbind option_bind]. destruct (Deployment.dec_uint64 _ _) as [c|]; [|done].
  cbn [mbind option_bind]. destruct (dec_str _ _) as [a|] eqn:Ea; [|done]. injection Ea as <-. cbn [mbind option_bind]. destruct (c =? chainID); [|done].
  apply parse_RFC3339_reads. unfold time_Unix. apply Z.mod_mul. unfold Second. lia.
Qed.
End Marker.
