(* ===== verification/Broadcasts.v ===== *)
(** Redeployments on one disk: processes of [Redeploy] side by side, any of
    which may die between two of its operations, and power failures.

    [answers] is what the world may do with one question; every operation may
    fail, and the node tells the latest block's time as it is.  Nothing else
    touches the guard's files.  The disk has what is visible ([live]), what would survive a power
    failure ([durable]) and the files whose content would not ([dirty]).
    [sstep] is interleaving.  The proof goes through the protocol of one process
    ([allowed], [advance]): its phase is what it knows of the guard. *)
From Stdlib Require Import Ascii String Sorting.Sorted.
From stdpp Require Import relations.
From S2P Require Import Prelude GoStr GoTime GoJson Amount Store H3 Ask Redeploy.
From S2P Require Deployment Git Testnetops RpcSource.
#[local] Open Scope Z_scope.
#[local] Open Scope snap_scope.
#[local] Set Default Proof Using "Type".

(** ** The world *)
Record world := MkWorld {
  live : gmap string string; durable : gmap string string; dirty : gset string;
  now : time;              (* of the chain's latest block *)
  starts : list time }.    (* when forge was started, the latest first *)
Definition latest : Testnetops.tquestion := Testnetops.TRpc "eth_getBlockByNumber" [JStr "latest"; JBool false].
(** The time a reply to [latest] tells. *)
Definition told_time (r : dreply) : option time := ask (λ _, told r) Testnetops.LatestBlockTimestamp.
Definition with_live (w : world) (l : gmap string string) (d : gset string) : world := MkWorld l (durable w) d (now w) (starts w).
(** Some directory entries reached the disk. *)
Definition persisted (w w' : world) : Prop :=
  ∃ d, w' = MkWorld (live w) d (dirty w) (now w) (starts w) ∧ ∀ p, d !! p = durable w !! p ∨ d !! p = live w !! p.
(** After a power failure a path has its old or its new entry, with any content
    where that was not synced. *)
Definition lost_power (w w' : world) : Prop :=
  durable w' = live w' ∧ dirty w' = ∅ ∧ now w' = now w ∧ starts w' = starts w ∧
  ∀ p, live w' !! p = live w !! p ∨ live w' !! p = durable w !! p ∨
    (p ∈ dirty w ∧ is_Some (live w' !! p) ∧ (is_Some (live w !! p) ∨ is_Some (durable w !! p))).
(** A failed operation changes nothing, but for a write. *)
Definition succeeds (r : dreply) (w w' : world) (P : Prop) : Prop := (r = DDone ∧ P) ∨ (r ≠ DDone ∧ w' = w).
Definition answers (q : dquestion) (w : world) (r : dreply) (w' : world) : Prop :=
  match q with
  | DNode q => w' = w ∧ (q = latest → ∀ d, told_time r = Some d → d = now w)
  | DOpenNew p => succeeds r w w' (live w !! p = None ∧ w' = with_live w (<[p := ""]> (live w)) ({[p]} ∪ dirty w))
  | DWrite p t => ∃ t', (r = DDone → t' = t) ∧
      w' = if bool_decide (is_Some (live w !! p)) then with_live w (<[p := t']> (live w)) ({[p]} ∪ dirty w) else w
  | DSync p => succeeds r w w' (w' = with_live w (live w) (dirty w ∖ {[p]}))
  | DClose _ | DChmod _ | DForgeWait => w' = w
  | DRemove p => succeeds r w w' (is_Some (live w !! p) ∧ w' = with_live w (delete p (live w)) (dirty w))
  | DSyncDir d => persisted w w' ∧ (r = DDone → ∀ p, Dir p = d → durable w' !! p = live w !! p)
  | DRead p => w' = w ∧ match r with DText t => live w !! p = Some t | DAbsent => live w !! p = None | _ => True end
  | DCreateTemp d pattern =>
      (∃ n, r = DPath (temp_name d pattern n) ∧ n ≠ "" ∧ sall isDigit n = true ∧ live w !! temp_name d pattern n = None ∧
         w' = with_live w (<[temp_name d pattern n := ""]> (live w)) ({[temp_name d pattern n]} ∪ dirty w)) ∨
      ((∀ p, r ≠ DPath p) ∧ w' = w)
  | DRename a b => succeeds r w w' (∃ t, live w !! a = Some t ∧
      w' = with_live w (<[b := t]> (delete a (live w))) (if bool_decide (a ∈ dirty w) then {[b]} ∪ dirty w else dirty w ∖ {[b]}))
  | DForgeStart _ => succeeds r w w' (w' = MkWorld (live w) (durable w) (dirty w) (now w) (now w :: starts w))
  end.

(** ** The protocol of one process *)
Section Protocol.
Context (json_document : string → option jval) (deploymentPath : string).
Inductive phase :=
| Idle
| Held                                  (* the reservation is created *)
| Durable                               (* ... and would survive a power failure *)
| Known (last : time)                   (* the marker was read *)
| Clear                                 (* the cadence has elapsed *)
| Started                               (* forge was started *)
| Dated (at_ : time)
| Temp (at_ : time) (tmp : string) (written synced : bool)
| Renamed (tmp : string)
| Recorded (tmp : string)               (* the marker would survive a power failure *)
| Gone.                                 (* the reservation is removed *)
Abbreviation guard := (guard_path deploymentPath).
Abbreviation pending := (pending_path deploymentPath).
Abbreviation arc := Testnetops.arcTestnetChainID.
Definition holding (ph : phase) : bool := match ph with Idle | Gone => false | _ => true end.
Definition allowed (ph : phase) (q : dquestion) : Prop :=
  match q with
  | DNode _ | DClose _ | DChmod _ | DForgeWait => True
  | DSyncDir d => match ph with Held => d = Dir pending | Renamed _ => d = Dir guard | _ => True end
  | DRead p => p = guard
  | DOpenNew p => ph = Idle ∧ p = pending
  | DWrite p t => match ph with Held => p = pending | Temp d tmp _ _ => p = tmp ∧ t = marker_text arc d | _ => False end
  | DSync p => match ph with Held => p = pending | Temp _ tmp _ _ => p = tmp | _ => False end
  | DRemove p =>
    match ph with
    | Held | Durable | Known _ | Clear => p = pending
    | Temp _ tmp _ _ | Renamed tmp => p = tmp
    | Recorded tmp => p = tmp ∨ p = pending
    | _ => False
    end
  | DCreateTemp d pattern => (∃ t, ph = Dated t) ∧ d = Dir guard ∧ pattern = ".redeploy-guard-*"
  | DRename a b => match ph with Temp _ tmp true true => a = tmp ∧ b = guard | _ => False end
  | DForgeStart _ => ph = Clear
  end.
Definition is_latest (q : dquestion) : bool :=
  match q with DNode (Testnetops.TRpc m [JStr b; JBool false]) => bool_decide (m = "eth_getBlockByNumber") && bool_decide (b = "latest") | _ => false end.
Definition advance (ph : phase) (q : dquestion) (r : dreply) : phase :=
  match ph, q, r with
  | Idle, DOpenNew _, DDone => Held
  | Held, DSyncDir _, DDone => Durable
  | Durable, DRead _, DText raw => match marker_time json_document arc raw with Some m => Known m | None => Durable end
  | Durable, DRead _, DAbsent => Known zeroTime
  | Known m, DNode _, _ =>
    if is_latest q then match told_time r with Some d => if cadence <=? d - m then Clear else ph | None => ph end else ph
  | (Held | Durable | Known _ | Clear), DRemove _, DDone => Gone
  | Clear, DForgeStart _, DDone => Started
  | Started, DNode _, _ => if is_latest q then match told_time r with Some d => Dated d | None => ph end else ph
  | Dated d, DCreateTemp _ _, DPath tmp => Temp d tmp false false
  | Temp d tmp _ _, DWrite _ _, DDone => Temp d tmp true false
  | Temp d tmp _ _, DWrite _ _, _ => Temp d tmp false false
  | Temp d tmp wr _, DSync _, DDone => Temp d tmp wr true
  | Temp _ tmp _ _, DRename _ _, DDone => Renamed tmp
  | Temp _ _ _ _, DRemove _, DDone => Started
  | Renamed tmp, DSyncDir _, DDone => Recorded tmp
  | Recorded tmp, DRemove p, DDone => if bool_decide (p = tmp) then ph else Gone
  | _, _, _ => ph
  end.
Fixpoint conforms {A} (ph : phase) (p : dprog A) (Φ : phase → A → Prop) : Prop :=
  match p with
  | Done a => Φ ph a
  | Ask q k => allowed ph q ∧ ∀ r, conforms (advance ph q r) (k r) Φ
  end.

Lemma conforms_mono {A} ph (p : dprog A) (Φ Ψ : phase → A → Prop) : (∀ ph a, Φ ph a → Ψ ph a) → conforms ph p Φ → conforms ph p Ψ.
Proof. intros HΦ. revert ph. induction p as [a|q k IH]; intros ph; [apply HΦ|]. intros [Hq Hk]. split; [done|]. intros r. by apply IH. Qed.
Lemma conforms_bind {A C} ph (p : dprog A) (g : A → dprog C) Φ : conforms ph p (λ ph a, conforms ph (g a) Φ) → conforms ph (bindQ p g) Φ.
Proof. revert ph. induction p as [a|q k IH]; intros ph; [done|]. intros [Hq Hk]. split; [done|]. intros r. by apply IH. Qed.
Lemma conforms_try {A C} ph (p : dprog (option A)) (g : A → dprog (option C)) Φ :
  conforms ph p (λ ph o, match o with Some a => conforms ph (g a) Φ | None => Φ ph None end) → conforms ph (tryQ p g) Φ.
Proof. intros H. apply conforms_bind. eapply conforms_mono; [|exact H]. by intros ph' [a|]. Qed.
Lemma conforms_does ph q Φ : allowed ph q → (∀ r, Φ (advance ph q r) (match r with DDone => Some tt | _ => None end)) → conforms ph (does q) Φ.
Proof. by split. Qed.
(** A process that is told nothing new by the node. *)
Lemma conforms_node {A} ph (p : Testnetops.tprog A) Φ :
  (∀ q r, advance ph (DNode q) r = ph) → (∀ a, Φ ph a) → conforms ph (node p) Φ.
Proof. intros Hs HΦ. induction p as [a|q k IH]; [apply HΦ|]. split; [done|]. intros r. rewrite Hs. apply IH. Qed.
Lemma is_latest_inv q : is_latest q = true → q = DNode latest.
Proof.
  destruct q as [[m [|[] [|[|[]| | | | |] [|]]]|]| | | | | | | | | | | |]; try done.
  cbn. by intros [->%bool_decide_eq_true_1 ->%bool_decide_eq_true_1]%andb_true_iff.
Qed.

(** ** What a phase knows *)
Definition tells (disk : gmap string string) (s : time) : Prop :=
  ∃ text, disk !! guard = Some text ∧ ∀ t, marker_time json_document arc text = Some t → s ≤ t.
(** Every broadcast so far is in the marker. *)
Definition covered (w : world) : Prop := ∀ s, s ∈ starts w → tells (live w) s ∧ tells (durable w) s ∧ (guard ∉ dirty w).
Definition locked (w : world) : Prop := is_Some (live w !! pending) ∧ is_Some (durable w !! pending).
Definition clock_time (d : time) : Prop := ∃ k, d = time_Unix k.
Definition own_file (tmp : string) : Prop := tmp ≠ guard ∧ tmp ≠ pending.
Definition facts (ph : phase) (w : world) : Prop :=
  match ph with
  | Idle | Gone => True
  | Held => covered w ∧ is_Some (live w !! pending)
  | Durable => covered w ∧ locked w
  | Known m => covered w ∧ locked w ∧ ∀ s, s ∈ starts w → s ≤ m
  | Clear => covered w ∧ locked w ∧ ∀ s, s ∈ starts w → s + cadence ≤ now w
  | Started => locked w
  | Dated d => locked w ∧ clock_time d ∧ ∀ s, s ∈ starts w → s ≤ d
  | Temp d tmp wr sy => locked w ∧ clock_time d ∧ (∀ s, s ∈ starts w → s ≤ d) ∧ own_file tmp ∧
      (∃ text, live w !! tmp = Some text ∧ (wr = true → text = marker_text arc d)) ∧ (sy = true → (tmp ∉ dirty w))
  | Renamed tmp => locked w ∧ own_file tmp ∧ (guard ∉ dirty w) ∧ ∀ s, s ∈ starts w → tells (live w) s
  | Recorded tmp => covered w ∧ is_Some (live w !! pending) ∧ own_file tmp
  end.
Definition spaced (l : list time) : Prop := StronglySorted (λ later earlier, earlier + cadence ≤ later) l.
Definition sound (w : world) : Prop :=
  spaced (starts w) ∧ (∀ s, s ∈ starts w → s ≤ now w) ∧ (covered w ∨ locked w).
Lemma locked_live w : locked w → is_Some (live w !! pending).
Proof. by intros [? _]. Qed.
(** *** The facts survive what others do *)
Lemma persisted_covered w w' : persisted w w' → covered w → covered w'.
Proof.
  intros (d & -> & Hp) Hc s Hs. destruct (Hc s Hs) as ((t1 & H1 & Hr1) & (t2 & H2 & Hr2) & Hn). split_and!; [by exists t1| |done].
  destruct (Hp guard) as [He|He]; [exists t2|exists t1]; cbn; by rewrite He.
Qed.
Lemma persisted_locked w w' : persisted w w' → locked w → locked w'.
Proof. intros (d & -> & Hp) [Hl Hd]. split; [done|]. cbn. by destruct (Hp pending) as [-> | ->]. Qed.
Lemma persisted_facts w w' ph : persisted w w' → facts ph w → facts ph w'.
Proof.
  intros HP. pose proof (persisted_covered w w' HP) as Hc. pose proof (persisted_locked w w' HP) as Hl. destruct HP as (d & -> & _).
  destruct ph; cbn [facts]; try done; intros Hf; destruct_and? Hf; split_and?; auto.
Qed.
Lemma persisted_sound w w' : persisted w w' → sound w → sound w'.
Proof.
  intros HP (Hs & Hn & Hg). pose proof (persisted_covered w w' HP) as Hc. pose proof (persisted_locked w w' HP) as Hl. destruct HP as (d & -> & _).
  split_and!; [done..|]. destruct Hg; [left|right]; auto.
Qed.
Lemma later_facts w t ph : now w ≤ t → facts ph w → facts ph (MkWorld (live w) (durable w) (dirty w) t (starts w)).
Proof. intros Ht. destruct ph; cbn; try done. intros (Hc & Hl & Hs). split_and!; [done..|]. intros s Hin%Hs. lia. Qed.
Lemma power_sound w w' : lost_power w w' → sound w → sound w'.
Proof.
  intros (Hd & Hdirty & Hnow & Hstarts & Hp) (Hs & Hn & Hg). unfold sound. rewrite Hstarts, Hnow. split_and!; [done..|]. destruct Hg as [Hc|[Hl Hl']].
  - left. intros s. rewrite Hstarts. intros Hin. destruct (Hc s Hin) as ((t1 & H1 & Hr1) & (t2 & H2 & Hr2) & Hng).
    assert (Ht : tells (live w') s) by (destruct (Hp guard) as [He|[He|(? & _)]]; [exists t1|exists t2|done]; by rewrite He).
    split_and!; [done|by rewrite Hd|rewrite Hdirty; set_solver].
  - right. assert (Hx : is_Some (live w' !! pending)) by (destruct (Hp pending) as [He|[He|(_ & ? & _)]]; [by rewrite He..|done]).
    split; [done|by rewrite Hd].
Qed.
(** A process that holds nothing disturbs no other. *)
Lemma frame ph q w r w' other : holding ph = false → holding other = true → allowed ph q → answers q w r w' →
  facts other w → facts other w' ∧ holding (advance ph q r) = false.
Proof.
  intros Hph Ho Ha Hw Hf. assert (Hlock : is_Some (live w !! pending)) by (destruct other; try done; cbn [facts] in Hf; destruct_and? Hf; by (done || apply locked_live)).
  destruct q; cbn [allowed answers] in Ha, Hw; try (by destruct ph); try (by subst; split; [|destruct ph]);
    try (by destruct Hw as [-> _]; split; [|destruct ph]).
  - destruct Ha as [-> ->]. cbn in Hw. destruct Hw as [(_ & Hn & _)|[Hr ->]]; [destruct Hlock; congruence|]. split; [done|]. by destruct r.
  - split; [|by destruct ph]. by eapply persisted_facts; [apply Hw|].
  - by destruct Ha as [[t ->] _].
Qed.

(** *** A process and its own next operation *)
Definition kept (ph : phase) (w w' : world) : Prop := sound w' ∧ facts ph w'.
Lemma guard_not_pending : guard ≠ pending.
Proof. unfold pending_path. intros H. apply (f_equal String.length) in H. rewrite slength_app in H. cbn in H. lia. Qed.
Lemma told_clock_time r d : told_time r = Some d → clock_time d.
Proof.
  unfold told_time, Testnetops.LatestBlockTimestamp, Testnetops.blockTimestamp. rewrite ask_try. destruct (ask _ (Testnetops.rpc_call _ _ _)) as [h|]; [|done].
  cbn [mbind option_bind]. rewrite ask_let. destruct (Testnetops.parseHexBig h) as [z|]; [|done]. cbn. destruct (bool_decide _); [|done]. intros [= <-]. by exists z.
Qed.
Lemma node_step ph q w r : allowed ph (DNode q) → (q = latest → ∀ d, told_time r = Some d → d = now w) → sound w → facts ph w →
  kept (advance ph (DNode q) r) w w.
Proof.
  intros _ Hnow Hs Hf. split; [done|]. pose proof Hs as (_ & Hpast & _).
  destruct ph as [| | |last| | | | | | |]; try exact Hf; cbn [advance]; (destruct (is_latest (DNode q)) eqn:El; [|exact Hf]); apply is_latest_inv in El as [= ->].
  - destruct (told_time r) as [d|] eqn:Ed; [|exact Hf]. destruct (cadence <=? d - last) eqn:Ec; [|exact Hf].
    apply Z.leb_le in Ec. destruct Hf as (Hc & Hl & Hm). split_and!; [done..|]. intros s Hin%Hm. rewrite (Hnow eq_refl d eq_refl) in Ec. lia.
  - destruct (told_time r) as [d|] eqn:Ed; [|exact Hf]. split_and!; [exact Hf|by eapply told_clock_time|]. intros s Hin. rewrite (Hnow eq_refl d eq_refl). auto.
Qed.
Lemma open_step p w r w' : p = pending → answers (DOpenNew p) w r w' → sound w → kept (advance Idle (DOpenNew p) r) w w'.
Proof.
  intros -> [(-> & Hn & ->)|[Hr ->]] (Hs & Hp & Hg); [|split; [done|by destruct r]].
  assert (Hc : covered w) by (destruct Hg as [Hc|[[? ?] _]]; [done|congruence]). pose proof guard_not_pending.
  assert (Hc' : covered (with_live w (<[pending := ""]> (live w)) ({[pending]} ∪ dirty w))).
  { intros s Hin. destruct (Hc s Hin) as ((t & Ht & Hr) & Hd & Hng). split_and!; [|done|cbn; set_solver].
    exists t. split; [|done]. cbn. by rewrite lookup_insert_ne. }
  split; [|split; [done|cbn; by rewrite lookup_insert_eq]]. split_and!; [done..|by left].
Qed.
(** A change of files other than the guard's. *)
Lemma other_files_covered w l d : live w !! guard = l !! guard → (guard ∈ d → guard ∈ dirty w) → covered w → covered (with_live w l d).
Proof.
  intros Hl Hd Hc s Hin. destruct (Hc s Hin) as ((t & Ht & Hr) & Hdur & Hng). split_and!; [|done|cbn; auto]. exists t. split; [|done]. cbn. by rewrite <-Hl.
Qed.
Lemma other_files_sound w l d : live w !! guard = l !! guard → (guard ∈ d → guard ∈ dirty w) →
  (is_Some (live w !! pending) → is_Some (l !! pending)) → sound w → sound (with_live w l d).
Proof.
  intros Hl Hd Hp (Hs & Hpast & Hg). split_and!; [done..|]. destruct Hg as [Hc|[H1 H2]]; [left; by apply other_files_covered|right; split; [by apply Hp|done]].
Qed.
Lemma write_step ph p t w r w' : allowed ph (DWrite p t) → answers (DWrite p t) w r w' → sound w → facts ph w → kept (advance ph (DWrite p t) r) w w'.
Proof.
  pose proof guard_not_pending as Hgp. cbn [allowed answers]. intros Ha (t' & Ht & Hw) Hs Hf. destruct ph as [| | | | | | |d tmp wr sy| | |]; try done.
  - subst p. cbn [advance]. destruct Hf as [Hc Hl]. rewrite bool_decide_true in Hw by done. subst w'. split.
    + apply other_files_sound; [by rewrite lookup_insert_ne|cbn; set_solver|by rewrite lookup_insert_eq|done].
    + split; [|cbn; by rewrite lookup_insert_eq]. apply other_files_covered; [by rewrite lookup_insert_ne|cbn; set_solver|done].
  - destruct Ha as [-> ->]. destruct Hf as ([Hl1 Hl2] & Hd & Hst & [Hg Hp] & (text & Htmp & _) & Hsy). rewrite bool_decide_true in Hw by done. subst w'.
    assert (Hfin : sound (with_live w (<[tmp := t']> (live w)) ({[tmp]} ∪ dirty w)) ∧
      ∀ b : bool, (b = true → r = DDone) → facts (Temp d tmp b false) (with_live w (<[tmp := t']> (live w)) ({[tmp]} ∪ dirty w))).
    { split; [apply other_files_sound; [by rewrite lookup_insert_ne|cbn; set_solver|by rewrite lookup_insert_ne|done]|].
      intros b Hb. split_and!; try done; [split; cbn [live durable with_live]; [by rewrite lookup_insert_ne|done]|]. cbn [live with_live]. exists t'. split; [by rewrite lookup_insert_eq|]. auto. }
    destruct Hfin as [? Hfin]. destruct r; (split; [done|by apply Hfin]).
Qed.
Lemma sync_step ph p w r w' : allowed ph (DSync p) → answers (DSync p) w r w' → sound w → facts ph w → kept (advance ph (DSync p) r) w w'.
Proof.
  cbn [allowed answers]. intros Ha Hw Hs Hf. destruct Hw as [[-> ->]|[Hr ->]]; [|split; [done|]; destruct ph; try done; by destruct r].
  split; [apply other_files_sound; [done|set_solver|done..]|].
  destruct ph as [| | | | | | |d tmp wr sy| | |]; try done; cbn [advance].
  - destruct Hf as [Hc Hl]. split; [|done]. apply other_files_covered; [done|set_solver|done].
  - destruct Hf as (Hl & Hd & Hst & Hown & Htmp & Hsy). subst p. split_and!; try done. cbn. set_solver.
Qed.
Lemma remove_step ph p w r w' : allowed ph (DRemove p) → answers (DRemove p) w r w' → sound w → facts ph w → kept (advance ph (DRemove p) r) w w'.
Proof.
  pose proof guard_not_pending as Hgp. cbn [allowed answers]. intros Ha Hw Hs Hf. destruct Hw as [(-> & Hex & ->)|[Hr ->]]; [|split; [done|]; destruct ph; try done; by destruct r].
  assert (Hpend : covered w → p = pending → sound (with_live w (delete p (live w)) (dirty w))).
  { intros Hc ->. destruct Hs as (Hs & Hpast & _). split_and!; [done..|]. left. apply other_files_covered; [by rewrite lookup_delete_ne|done..]. }
  assert (Hother : p ≠ guard → p ≠ pending → sound (with_live w (delete p (live w)) (dirty w))).
  { intros. apply other_files_sound; [by rewrite lookup_delete_ne|done|by rewrite lookup_delete_ne|done]. }
  destruct ph as [| | | | | | |d tmp wr sy|tmp|tmp|]; try done; cbn [advance].
  1-4: by split; [apply Hpend; [by apply Hf|done]|].
  - subst p. destruct Hf as ([H1 H2] & _ & _ & [Hg Hp] & _). split; [by apply Hother|]. split; cbn; [by rewrite lookup_delete_ne|done].
  - subst p. destruct Hf as ([H1 H2] & [Hg Hp] & Hng & Ht). split; [by apply Hother|]. split_and!; try done; [split; cbn [live durable with_live]; [by rewrite lookup_delete_ne|done]|]. cbn.
    intros s Hin. destruct (Ht s Hin) as (t & He & Hr). exists t. by rewrite lookup_delete_ne.
  - destruct Hf as (Hc & H1 & [Hg Hp]). destruct (bool_decide (p = tmp)) eqn:Ep.
    + apply bool_decide_eq_true_1 in Ep as ->. split; [by apply Hother|].
      split_and!; [apply other_files_covered; [by rewrite lookup_delete_ne|done..]|cbn; by rewrite lookup_delete_ne|done..].
    + apply bool_decide_eq_false_1 in Ep. destruct Ha as [?| ->]; [done|]. by split; [apply Hpend|].
Qed.
Lemma syncdir_step ph d w r w' : allowed ph (DSyncDir d) → answers (DSyncDir d) w r w' → sound w → facts ph w → kept (advance ph (DSyncDir d) r) w w'.
Proof.
  cbn [allowed answers]. intros Ha [HP Hd] Hs Hf. pose proof (persisted_sound _ _ HP Hs) as Hs'. pose proof (persisted_facts _ _ ph HP Hf) as Hf'.
  split; [done|]. destruct HP as (d' & -> & _). cbn [durable live] in Hd. destruct ph; try done; destruct r; try done; specialize (Hd eq_refl); cbn [advance]; subst d.
  - destruct Hf' as [Hc Hl]. split; [done|]. split; [done|]. cbn. by rewrite (Hd pending eq_refl).
  - destruct Hf' as ([H1 _] & Hown & Hng & Ht). split_and!; try done. intros s Hin. split_and!; [by apply Ht| |done].
    destruct (Ht s Hin) as (t & He & Hr). exists t. split; [|done]. cbn. by rewrite (Hd guard eq_refl).
Qed.
Lemma read_step ph p w r w' : allowed ph (DRead p) → answers (DRead p) w r w' → sound w → facts ph w → kept (advance ph (DRead p) r) w w'.
Proof.
  cbn [allowed answers]. intros -> [-> Hr] Hs Hf. split; [done|]. destruct ph; try done. destruct Hf as [Hc Hl]. destruct r as [| | |text| |]; try done; cbn [advance].
  - split_and!; [done..|]. intros s Hin. destruct (Hc s Hin) as ((t & He & _) & _). congruence.
  - destruct (marker_time json_document arc text) as [m|] eqn:Em; [|by split]. split_and!; [done..|].
    intros s Hin. destruct (Hc s Hin) as ((t & He & Ht) & _). assert (t = text) as -> by congruence. by apply Ht.
Qed.
Lemma digits_end n s c : sall isDigit n = true → n ≠ "" → isDigit c = false → ∀ a b, a +:+ n ≠ b +:+ s +:+ String c "".
Proof.
  intros Hn Hne Hc a b H. assert (Hlast : ∃ m e, n = m +:+ String e "" ∧ isDigit e = true).
  { clear -Hn Hne. induction n as [|x n IH]; [done|]. cbn in Hn. apply andb_true_iff in Hn as [Hx Hn]. destruct n as [|y n]; [by exists "", x|].
    destruct IH as (m & e & -> & He); [done..|]. by exists (String x m), e. }
  destruct Hlast as (m & e & -> & He). rewrite <-!sapp_assoc in H.
  assert (Hlen : ∀ u v : string, u +:+ String e "" = v +:+ String c "" → e = c).
  { clear. induction u as [|x u IH]; intros [|y v]; cbn; [congruence|..].
    - intros [= _ H]. by destruct v.
    - intros [= _ H]. by destruct u.
    - intros [= _ H]. eauto. }
  apply Hlen in H. congruence.
Qed.
Lemma temp_own d n : sall isDigit n = true → n ≠ "" → own_file (temp_name d ".redeploy-guard-*" n).
Proof.
  intros Hn Hne. unfold temp_name. change (cut_at "*" ".redeploy-guard-*") with (".redeploy-guard-", Some ""). cbv beta iota. cbn [default]. rewrite sapp_nil_r.
  set (dir := if ends_in_slash d then d else d +:+ "/"). rewrite <-sapp_assoc.
  split; intros H; [exact (digits_end n ".redeploy-guard.jso" "n" Hn Hne eq_refl _ deploymentPath H)|exact (digits_end n ".pendin" "g" Hn Hne eq_refl _ guard H)].
Qed.
Lemma createtemp_step ph d pattern w r w' : allowed ph (DCreateTemp d pattern) → answers (DCreateTemp d pattern) w r w' → sound w → facts ph w →
  kept (advance ph (DCreateTemp d pattern) r) w w'.
Proof.
  cbn [allowed answers]. intros ([t ->] & -> & ->) [(n & -> & Hne & Hn & Hfresh & ->)|[Hr ->]] Hs Hf; [|split; [done|]; destruct r; try done; by destruct (Hr path)].
  pose proof (temp_own (Dir guard) n Hn Hne) as [Hg Hp]. generalize dependent (temp_name (Dir guard) ".redeploy-guard-*" n). intros tmp Hfresh Hg Hp. destruct Hf as ([H1 H2] & Hk & Hst). split.
  - apply other_files_sound; [by rewrite lookup_insert_ne|set_solver|by rewrite lookup_insert_ne|done].
  - cbn [advance]. split_and!; try done; [split; cbn [live durable with_live]; [by rewrite lookup_insert_ne|done]|]. cbn [live with_live]. exists "". by rewrite lookup_insert_eq.
Qed.
Lemma forge_step ph args w r w' : allowed ph (DForgeStart args) → answers (DForgeStart args) w r w' → sound w → facts ph w →
  kept (advance ph (DForgeStart args) r) w w'.
Proof.
  cbn [allowed answers]. intros -> [[-> ->]|[Hr ->]] Hs Hf; [|split; [done|]; by destruct r]. destruct Hf as (Hc & Hl & Hst). destruct Hs as (Hs & Hpast & _).
  cbn [advance]. split; [|done]. split_and!; cbn; [|intros s [->|Hin]%elem_of_cons; [done|auto]|by right].
  constructor; [done|]. apply List.Forall_forall. intros s Hin%list_elem_of_In. auto.
Qed.
(** The marker a process installs was read from the chain after its broadcast. *)
Context {HR : ReadsMarkers json_document arc}.
Lemma rename_step ph a b w r w' : allowed ph (DRename a b) → answers (DRename a b) w r w' → sound w → facts ph w → kept (advance ph (DRename a b) r) w w'.
Proof using HR.
  cbn [allowed answers]. intros Ha Hw Hs Hf. pose proof guard_not_pending as Hgp. destruct ph as [| | | | | | |d tmp [] []| | |]; try done. destruct Ha as [-> ->].
  destruct Hw as [(-> & t & Ht & ->)|[Hr ->]]; [|split; [done|]; by destruct r].
  destruct Hf as ([H1 H2] & [k ->] & Hst & [Hg Hp] & (text & Htmp & Htext) & Hsy). assert (t = marker_text arc (time_Unix k)) as -> by (rewrite Ht in Htmp; injection Htmp as ->; auto).
  rewrite bool_decide_false by auto. destruct Hs as (Hs & Hpast & _).
  assert (Hlock : locked (with_live w (<[guard := marker_text arc (time_Unix k)]> (delete tmp (live w))) (dirty w ∖ {[guard]}))).
  { split; cbn [live durable with_live]; [|done]. rewrite lookup_insert_ne by done. by rewrite lookup_delete_ne. }
  cbn [advance]. split; [split_and!; [done..|by right]|]. split_and!; try done; [cbn [dirty with_live]; set_solver|]. cbn [starts live with_live]. intros s Hin. eexists. rewrite lookup_insert_eq. split; [done|].
  intros t Hm. apply marker_round_trip in Hm as ->; [|done]. auto.
Qed.
(** Every operation the protocol allows keeps what is known. *)
Lemma own_step ph q w r w' : allowed ph q → answers q w r w' → sound w → facts ph w → kept (advance ph q r) w w'.
Proof using HR.
  intros Ha Hw Hs Hf. destruct q.
  - destruct Hw as [-> Hw]. by eapply node_step.
  - destruct Ha as [-> ->]. by eapply open_step.
  - by eapply write_step.
  - by eapply sync_step.
  - cbn in Hw. subst w'. split; [done|]. by destruct ph.
  - cbn in Hw. subst w'. split; [done|]. by destruct ph.
  - by eapply remove_step.
  - by eapply syncdir_step.
  - by eapply read_step.
  - by eapply createtemp_step.
  - by eapply rename_step.
  - by eapply forge_step.
  - cbn in Hw. subst w'. split; [done|]. by destruct ph.
Qed.

(** ** The command follows the protocol *)
Lemma acquire_conforms Φ : (∀ ph, Φ ph None) → Φ Durable (Some pending) → conforms Idle (AcquireRedeployReservation pending arc) Φ.
Proof.
  intros Hn Hd. unfold AcquireRedeployReservation. apply conforms_try, conforms_does; [done|].
  assert (Hfail : conforms Held (Ask (DClose pending) (λ _, Ask (DRemove pending) (λ _, Done (None : option string)))) Φ) by (split; [done|]; intros r; split; [by destruct r|]; intros r'; apply Hn).
  intros r. destruct r; try apply Hn. cbn [advance]. apply conforms_bind. do 3 (apply conforms_try, conforms_does; [done|]; intros [| | | | |]; try exact Hfail; cbn [advance]).
  apply conforms_does; [done|]. intros [| | | | |]; try exact Hfail. exact Hd.
Qed.
Definition early (ph : phase) : bool := match ph with Held | Durable | Known _ | Clear => true | _ => false end.
Lemma release_conforms ph Φ : early ph = true ∨ (∃ tmp, ph = Recorded tmp) → (∀ ph o, Φ ph o) → conforms ph (Release pending) Φ.
Proof.
  intros Hph HΦ. unfold Release. destruct (negb _); [|apply HΦ]. apply conforms_try, conforms_does.
  - destruct Hph as [Hph|[tmp ->]]; [by destruct ph|by right].
  - intros r. destruct r; try apply HΦ. apply conforms_does; [|done]. destruct Hph as [Hph|[tmp ->]]; [by destruct ph|]. cbn [advance]. by destruct (bool_decide _).
Qed.
(** A program that asks the node once. *)
Definition asks_once {A} (q : Testnetops.tquestion) (p : Testnetops.tprog A) : Prop := ∃ k, p = Ask q k ∧ ∀ x, k x = Done (ask (λ _, x) p).
Lemma conforms_once {A} ph q (p : Testnetops.tprog A) Φ : asks_once q p → (∀ r, Φ (advance ph (DNode q) r) (ask (λ _, told r) p)) → conforms ph (node p) Φ.
Proof. intros (k & -> & Hk) H. split; [done|]. intros r. rewrite Hk. apply H. Qed.
Lemma block_once block : asks_once (Testnetops.TRpc "eth_getBlockByNumber" [JStr block; JBool false]) (Testnetops.blockTimestamp block).
Proof.
  eexists. split; [reflexivity|]. intros x. unfold Testnetops.blockTimestamp. rewrite ask_try. cbn. destruct (match x with Testnetops.THttp _ _ => _ | _ => _ end) as [h|]; [|done].
  cbn. by destruct (Testnetops.parseHexBig h).
Qed.
Lemma latest_conforms ph (Φ : phase → option time → Prop) : (∀ r, Φ (advance ph (DNode latest) r) (told_time r)) → conforms ph (node Testnetops.LatestBlockTimestamp) Φ.
Proof. apply conforms_once, block_once. Qed.
Lemma conforms_try_node {A C} ph (p : Testnetops.tprog (option A)) (g : A → Testnetops.tprog (option C)) Φ :
  conforms ph (node p) (λ ph o, match o with Some a => conforms ph (node (g a)) Φ | None => Φ ph None end) → conforms ph (node (tryQ p g)) Φ.
Proof.
  unfold tryQ. revert ph. induction p as [a|q k IH]; intros ph; cbn [node bindQ conforms]; [by destruct a|].
  intros [Hq Hk]. split; [done|]. intros r. by apply IH.
Qed.
Lemma cadence_conforms start m Φ : (∀ ph, early ph = true → Φ ph None) → Φ Clear (Some tt) →
  conforms (Known m) (node (Testnetops.CheckRedeployCadence start m cadence)) Φ.
Proof.
  intros Hn Hc. unfold Testnetops.CheckRedeployCadence, guardQ. destruct (_ && _); [|by apply Hn]. apply conforms_try_node, (conforms_once _ _ _ _ (block_once _)).
  intros r. assert (Hk : advance (Known m) (DNode (Testnetops.TRpc "eth_getBlockByNumber" [JStr (RpcSource.hex_format start); JBool false])) r = Known m).
  { cbn [advance]. by destruct (is_latest _) eqn:El; [apply is_latest_inv in El as [=]|]. }
  rewrite Hk. destruct (ask _ _) as [deployedAt|]; [|by apply Hn]. apply conforms_try_node, latest_conforms. clear r Hk. intros r.
  change (advance (Known m) (DNode latest) r) with (match told_time r with Some d => if cadence <=? d - m then Clear else Known m | None => Known m end).
  destruct (told_time r) as [d|]; [|by apply Hn]. cbn [node conforms].
  set (age := time_Sub d _). destruct ((age <? 0) || (age <? cadence)) eqn:E; [by destruct (_ <=? _); apply Hn|].
  apply orb_false_iff in E as [_ E%Z.ltb_ge]. rewrite (proj2 (Z.leb_le cadence (d - m))); [done|].
  assert (Hage : cadence ≤ d - (if deployedAt <? m then m else deployedAt)).
  { revert E. unfold age, time_Sub. generalize (if deployedAt <? m then m else deployedAt). intros x. unfold min_int64, max_int64, cadence, Hour, Minute, Second. lia. }
  destruct (deployedAt <? m) eqn:Em; [lia|]. apply Z.ltb_ge in Em. lia.
Qed.
Lemma cleared_conforms unicodeLower url account start Φ : (∀ ph, early ph = true → Φ ph None) → (∀ o, Φ Clear o) →
  conforms Durable (cleared unicodeLower json_document guard url account start) Φ.
Proof.
  intros Hn Hc. unfold cleared. apply conforms_try. split; [done|]. intros r.
  assert (Hknown : ∀ m, conforms (Known m) (_ <~~ node (Testnetops.CheckRedeployCadence start m cadence) ;;
    signer <-? Testnetops.NewCastFunder unicodeLower json_document account url ;; node (Testnetops.fn_Address signer)) Φ).
  { intros m. apply conforms_try, cadence_conforms; [done|]. destruct (Testnetops.NewCastFunder _ _ _ _) as [f|]; [|apply Hc]. by apply (conforms_node Clear). }
  destruct r as [| | |text| |]; try (by apply Hn); cbn [advance]; [apply Hknown|]. destruct (marker_time json_document arc text) as [m|]; [apply Hknown|by apply Hn].
Qed.
Lemma write_conforms d Φ : (∀ ph, Φ ph None) → (∀ tmp, Φ (Recorded tmp) (Some tt)) → conforms (Dated d) (WriteRedeployMarker guard arc d) Φ.
Proof.
  intros Hn Hc. unfold WriteRedeployMarker. split; [by split; [exists d|]|]. intros [| | | |tmp|]; try apply Hn. cbn [advance].
  pose (Ψ := λ (ph : phase) (o : option unit), conforms ph (Ask (DRemove tmp) (λ _, Done o)) Φ).
  assert (Hstop : ∀ ph, (∃ wr sy, ph = Temp d tmp wr sy) ∨ ph = Renamed tmp → Ψ ph None).
  { intros ph Hph. split; [by destruct Hph as [(? & ? & ->)| ->]|]. intros r. apply Hn. }
  assert (Hclose : ∀ wr sy, conforms (Temp d tmp wr sy) (Ask (DClose tmp) (λ _, Done None)) Ψ).
  { intros wr sy. split; [done|]. intros r. apply Hstop. left. by exists wr, sy. }
  apply conforms_bind. fold Ψ. apply conforms_bind, conforms_try, conforms_does; [done|].
  intros [| | | | |]; cbn [advance]; try apply Hclose. apply conforms_try, conforms_does; [done|].
  intros [| | | | |]; cbn [advance]; try apply Hclose. apply conforms_does; [done|].
  intros [| | | | |]; cbn [advance]; try apply Hclose. apply conforms_try, conforms_does; [done|].
  intros [| | | | |]; cbn [advance]; try (apply Hstop; left; by eexists _, _). apply conforms_try, conforms_does; [done|].
  intros [| | | | |]; cbn [advance]; try (apply Hstop; left; by eexists _, _). apply conforms_does; [done|].
  intros [| | | | |]; cbn [advance]; try (apply Hstop; by right). split; [by left|]. intros r.
  destruct r; try apply Hc. cbn [advance]. rewrite bool_decide_true by done. apply Hc.
Qed.
Lemma recorded_conforms Φ : (∀ ph o, Φ ph o) → conforms Started (recorded guard pending) Φ.
Proof.
  intros HΦ. unfold recorded. apply conforms_try, latest_conforms. intros r.
  change (advance Started (DNode latest) r) with (match told_time r with Some d => Dated d | None => Started end).
  destruct (told_time r) as [d|]; [|apply HΦ]. apply conforms_try, write_conforms; [intros; apply HΦ|]. intros tmp. apply release_conforms; [by right; exists tmp|done].
Qed.
Lemma reserved_conforms unicodeLower contractsRoot url account start Φ :
  (∀ ph o, early ph = true → Φ ph (true, o)) → (∀ ph o, Φ ph (false, o)) →
  conforms Durable (reserved unicodeLower json_document guard pending contractsRoot url account start) Φ.
Proof.
  intros He Hd. unfold reserved. apply conforms_bind, cleared_conforms; [intros ph Hph; by apply He|].
  intros [sender|]; [|by apply He]. apply conforms_bind. split; [done|]. intros [| | | | |]; try (by apply He). cbn [advance].
  apply conforms_bind, conforms_does; [done|]. intros r. replace (advance Started DForgeWait r) with Started by done. cbn [conforms negb].
  apply conforms_bind, conforms_bind. destruct r; try apply Hd. apply recorded_conforms. intros; apply Hd.
Qed.
Lemma redeploy_conforms unicodeLower dep contractsRoot account Φ : (∀ ph o, Φ ph o) →
  conforms Idle (redeploy unicodeLower json_document dep deploymentPath contractsRoot account) Φ.
Proof.
  intros HΦ. unfold redeploy, guardQ. destruct (negb _); [|apply HΦ]. destruct dep as [d|]; [|apply HΦ]. apply conforms_try. cbn [conforms].
  destruct (_ =? _); [|apply HΦ]. apply conforms_try. destruct (Testnetops.NewRPCClient _) as [s|]; [|apply HΦ]. cbn [conforms].
  apply conforms_try. apply conforms_node; [done|]. intros [id|]; [|apply HΦ]. destruct (_ =? _); [|apply HΦ].
  apply conforms_try, acquire_conforms; [intros; apply HΦ|]. apply conforms_bind, reserved_conforms; [|intros; apply HΦ].
  intros ph o Hph. apply conforms_bind, release_conforms; [by left|]. intros. apply HΦ.
Qed.
End Protocol.

(** ** All processes *)
Section System.
Context (unicodeLower : string → string) (json_document : string → option jval) (deploymentPath : string).
Abbreviation pool := (list (dprog (option unit))).
Inductive sstep : world * pool → world * pool → Prop :=
| SAsks w w' l1 q k l2 r : answers q w r w' → sstep (w, l1 ++ Ask q k :: l2) (w', l1 ++ k r :: l2)
| SArrives w l dep contractsRoot account :
    sstep (w, l) (w, redeploy unicodeLower json_document dep deploymentPath contractsRoot account :: l)
| SDies w l1 p l2 : sstep (w, l1 ++ p :: l2) (w, l1 ++ l2)
| STime w l t : now w ≤ t → sstep (w, l) (MkWorld (live w) (durable w) (dirty w) t (starts w), l)
| SFlush w w' l : persisted w w' → sstep (w, l) (w', l)
| SPower w w' l : lost_power w w' → sstep (w, l) (w', []).

Context {HR : ReadsMarkers json_document Testnetops.arcTestnetChainID}.
Abbreviation conform ph := (λ p, conforms json_document deploymentPath ph p (λ _ _, True)).
Definition holders (phs : list phase) : nat := length (filter (λ ph, holding ph = true) phs).
(** Every process follows the protocol from its phase, and at most one holds the
    reservation. *)
Definition in_order (st : world * pool) : Prop :=
  sound json_document deploymentPath st.1 ∧ ∃ phs : list phase,
    Forall2 (λ ph p, conform ph p) phs st.2 ∧ Forall (λ ph, facts json_document deploymentPath ph st.1) phs ∧ (holders phs ≤ 1)%nat.
Lemma holders_app a b : holders (a ++ b) = (holders a + holders b)%nat.
Proof. unfold holders. by rewrite filter_app, length_app. Qed.
Lemma holders_cons x l : holders (x :: l) = ((if holding x then 1 else 0) + holders l)%nat.
Proof. unfold holders. rewrite filter_cons. destruct (holding x); [by rewrite decide_True|by rewrite decide_False]. Qed.
Lemma holders_in x l : x ∈ l → holding x = true → (1 ≤ holders l)%nat.
Proof.
  intros Hx Hh. unfold holders. assert (Hin : x ∈ filter (λ ph, holding ph = true) l) by by apply list_elem_of_filter.
  destruct (filter _ l); [by apply not_elem_of_nil in Hin|cbn; lia].
Qed.
Lemma holders_zero l : (∀ y, y ∈ l → holding y = false) → holders l = 0%nat.
Proof. induction l as [|y l IH]; intros H; [done|]. rewrite holders_cons, (H y), IH; [done| |by left]. intros z Hz. apply H. by right. Qed.
(** The other processes of a step. *)
Lemma others_step ph q w r w' rest : (holders (ph :: rest) ≤ 1)%nat → allowed deploymentPath ph q → answers q w r w' →
  Forall (λ x, facts json_document deploymentPath x w) rest →
  Forall (λ x, facts json_document deploymentPath x w') rest ∧ (holders (advance json_document ph q r :: rest) ≤ 1)%nat.
Proof.
  intros Hone Ha Hw Hf. rewrite holders_cons in Hone. destruct (holding ph) eqn:Eph.
  - assert (Hz : holders rest = 0%nat) by lia. split; [|rewrite holders_cons, Hz; destruct (holding (advance _ _ _ _)); lia].
    apply Forall_forall. intros y Hy. destruct (holding y) eqn:Ey; [|by destruct y]. pose proof (holders_in y rest Hy Ey). lia.
  - rewrite Forall_forall in Hf. split.
    + apply Forall_forall. intros y Hy. destruct (holding y) eqn:Ey; [|by destruct y]. eapply frame; eauto.
    + rewrite holders_cons. destruct (decide (Exists (λ y, holding y = true) rest)) as [(y & Hy & Ey)%Exists_exists|Hno].
      * destruct (frame json_document deploymentPath ph q w r w' y Eph Ey Ha Hw (Hf y Hy)) as [_ ->]. lia.
      * rewrite holders_zero; [destruct (holding (advance _ _ _ _)); lia|]. intros y Hy. destruct (holding y) eqn:Ey; [|done]. destruct Hno. apply Exists_exists. by exists y.
Qed.
Lemma holders_middle a x b : holders (a ++ x :: b) = holders (x :: a ++ b).
Proof. rewrite !holders_app, !holders_cons, holders_app. lia. Qed.
Lemma asks_in_order w w' l1 q k l2 r : answers q w r w' → in_order (w, l1 ++ Ask q k :: l2) → in_order (w', l1 ++ k r :: l2).
Proof using HR.
  intros Hw (Hs & phs & Hc & Hf & Hone). cbn [fst snd] in *. apply Forall2_app_inv_r in Hc as (a & rest & Ha & Hrest & ->).
  apply Forall2_cons_inv_r in Hrest as (ph & b & [Hok Hk] & Hb & ->).
  rewrite Forall_app, Forall_cons in Hf. destruct Hf as (Hfa & Hf & Hfb). destruct (own_step json_document deploymentPath ph q w r w' Hok Hw Hs Hf) as [Hs' Hf'].
  rewrite holders_middle in Hone. destruct (others_step ph q w r w' (a ++ b) Hone Hok Hw) as [Ho Hone']; [by apply Forall_app|]. apply Forall_app in Ho as [Hoa Hob].
  split; [done|]. exists (a ++ advance json_document ph q r :: b). split_and!.
  - apply Forall2_app; [done|]. by constructor.
  - rewrite Forall_app, Forall_cons. done.
  - by rewrite holders_middle.
Qed.
Lemma step_in_order st st' : sstep st st' → in_order st → in_order st'.
Proof using HR.
  destruct 1 as [w w' l1 q k l2 r Hw|w l dep root account|w l1 p l2|w l t Ht|w w' l HP|w w' l HP].
  - by apply asks_in_order.
  - intros (Hs & phs & Hc & Hf & Hone). split; [done|]. exists (Idle :: phs). split_and!; [|by constructor|by rewrite holders_cons].
    constructor; [|done]. by apply redeploy_conforms.
  - intros (Hs & phs & Hc & Hf & Hone). split; [done|]. cbn [fst snd] in *. apply Forall2_app_inv_r in Hc as (a & rest & Ha & Hrest & ->).
    apply Forall2_cons_inv_r in Hrest as (ph & b & _ & Hb & ->). exists (a ++ b). rewrite holders_middle, holders_cons in Hone.
    rewrite Forall_app, Forall_cons in Hf. split_and!; [by apply Forall2_app|apply Forall_app; tauto|lia].
  - intros (Hs & phs & Hc & Hf & Hone). split.
    + destruct Hs as (Hsp & Hpast & Hg). split_and!; [done| |done]. cbn. intros s Hin%Hpast. cbn in Hin. lia.
    + exists phs. split_and!; [done| |done]. eapply Forall_impl; [exact Hf|]. intros ph. by apply later_facts.
  - intros (Hs & phs & Hc & Hf & Hone). split; [by eapply persisted_sound|]. exists phs. split_and!; [done| |done].
    eapply Forall_impl; [exact Hf|]. intros ph. by apply persisted_facts.
  - intros (Hs & phs & Hc & Hf & Hone). split; [by eapply power_sound|]. exists []. split_and!; [constructor|constructor|cbn; lia].
Qed.
Lemma steps_in_order st st' : rtc sstep st st' → in_order st → in_order st'.
Proof using HR. induction 1; eauto using step_in_order. Qed.
(** C20: A broadcast is not repeated too soon.  However many redeployments are
    started on a machine for one deployment file, however their operations
    interleave, wherever any of them fails or dies, before or after the forge
    process it started, and whatever a power failure leaves of the files not
    synced, any two starts of the broadcast are at least the cadence, forty-eight
    hours of the chain's time, apart. *)
Theorem broadcasts_keep_the_cadence w w' l' : rtc sstep (w, []) (w', l') → starts w = [] → spaced (starts w').
Proof using HR.
  intros Hrun Hw. assert (Hin : in_order (w', l')); [|by destruct Hin as [(Hs & _) _]].
  eapply steps_in_order; [exact Hrun|]. split; [|by exists []; split_and!; [constructor|constructor|cbn; lia]].
  unfold sound, covered. cbn [fst]. rewrite Hw. split_and!; [constructor|by intros s ?%not_elem_of_nil|left; by intros s ?%not_elem_of_nil].
Qed.
End System.

(** ** Two redeployments, two days apart *)
(** The characters of a time. *)
Definition stamp_char (c : ascii) : bool :=
  isDigit c || bool_decide (c = "-"%char) || bool_decide (c = ":"%char) || bool_decide (c = "T"%char) || bool_decide (c = "Z"%char).
Lemma stamp_char_spec c : stamp_char c = true → acc1 c = true ∧ esc1 c = String c "" ∧ bool_decide (c = dquote) = false.
Proof. destruct c as [[] [] [] [] [] [] [] []]; vm_compute; intros; split_and!; congruence. Qed.
Lemma RFC3339_stamp t : sall stamp_char (RFC3339 t) = true.
Proof.
  assert (Hp : ∀ w n, 0 ≤ n → sall stamp_char (FormatPad w n) = true).
  { intros w n Hn. eapply sall_mono; [|by apply FormatPad_digits]. intros c Hc. unfold stamp_char. by rewrite Hc. }
  unfold RFC3339, fmt_sec, fmt_year. cbv zeta. destruct (civil_fields_nonneg (t / day_ns)). destruct (sec_fields_bounds t) as (?&?&?&?).
  unfold UTC_Date. set (d := civil_from_days _) in *. set (s := _ / Second) in *.
  destruct (d_year d <? 0) eqn:E; bool_to_prop; rewrite !sall_app, !Hp by lia; done.
Qed.
Lemma stamp_encode s : sall stamp_char s = true → json_encode s = String dquote (s +:+ String dquote "").
Proof.
  intros Hs. unfold json_encode, quoted. do 2 f_equal. induction s as [|c s IH]; [done|]. cbn in Hs. apply andb_true_iff in Hs as [Hc Hs].
  destruct (stamp_char_spec c Hc) as (Ha & He & _). cbn [chunks]. rewrite Ha. cbn [concat_map emit_go]. by rewrite He, IH.
Qed.
Definition sample_head : string :=
  "{" +:+ member_text "chainId" (FormatUint Testnetops.arcTestnetChainID) +:+ "," +:+ json_encode "broadcastAt" +:+ ":" +:+ String dquote "".
Definition sample_document (text : string) : option jval :=
  r ← strip_prefix sample_head text;
  Some (JObj [("chainId", JInt Testnetops.arcTestnetChainID); ("broadcastAt", JStr (cut_at dquote r).1)]).
#[export] Instance sample_reads : ReadsMarkers sample_document Testnetops.arcTestnetChainID.
Proof.
  intros t. unfold sample_document. replace (marker_text _ t) with (sample_head +:+ (RFC3339 t +:+ String dquote "}")).
  - rewrite strip_prefix_app. cbn [mbind option_bind]. unfold marker_json. do 4 f_equal.
    rewrite Git.cut_at_lacks; [done|]. unfold Git.lacks. eapply sall_mono; [|apply RFC3339_stamp]. intros c Hc.
    destruct (stamp_char_spec c Hc) as (_ & _ & Hd). by rewrite Hd.
  - unfold marker_text, sample_head, member_text. rewrite (stamp_encode _ (RFC3339_stamp t)). by repeat (rewrite sapp_assoc || rewrite sapp_cons || rewrite sapp_nil_l).
Qed.
Definition sample_day1 : time := 1800000000 * Second.
Definition sample_day3 : time := sample_day1 + cadence.
Definition sample_block (hex : string) : Testnetops.treply :=
  Testnetops.THttp 200 (Some (JObj [("result", JObj [("timestamp", JStr hex)])])).
Definition sample_latest (t : time) : Testnetops.treply :=
  if t =? sample_day1 then sample_block "0x6b49d200" else if t =? sample_day3 then sample_block "0x6b4c7500" else Testnetops.TFailed.
Definition sample_node (t : time) (q : Testnetops.tquestion) : Testnetops.treply :=
  match q with
  | Testnetops.TRpc m ps =>
    if bool_decide (m = "eth_chainId") then Testnetops.THttp 200 (Some (JObj [("result", JStr "0x4cef52")]))
    else match ps with JStr b :: _ => if bool_decide (b = "latest") then sample_latest t else sample_block "0x3e8" | _ => Testnetops.TFailed end
  | Testnetops.TCast _ => Testnetops.TOut Testnetops.sample_wallet_address
  end.
(** A machine on which nothing fails. *)
Definition sample_act (q : dquestion) (w : world) : world * dreply :=
  match q with
  | DNode q => (w, DTold (sample_node (now w) q))
  | DOpenNew p => match live w !! p with None => (with_live w (<[p := ""]> (live w)) ({[p]} ∪ dirty w), DDone) | Some _ => (w, DFailed) end
  | DWrite p t => (if bool_decide (is_Some (live w !! p)) then with_live w (<[p := t]> (live w)) ({[p]} ∪ dirty w) else w, DDone)
  | DSync p => (with_live w (live w) (dirty w ∖ {[p]}), DDone)
  | DClose _ | DChmod _ | DForgeWait => (w, DDone)
  | DRemove p => match live w !! p with Some _ => (with_live w (delete p (live w)) (dirty w), DDone) | None => (w, DFailed) end
  | DSyncDir _ => (MkWorld (live w) (live w) (dirty w) (now w) (starts w), DDone)
  | DRead p => (w, match live w !! p with Some t => DText t | None => DAbsent end)
  | DCreateTemp d pattern =>
    let p := temp_name d pattern "1" in
    match live w !! p with None => (with_live w (<[p := ""]> (live w)) ({[p]} ∪ dirty w), DPath p) | Some _ => (w, DFailed) end
  | DRename a b =>
    match live w !! a with
    | Some t => (with_live w (<[b := t]> (delete a (live w))) (if bool_decide (a ∈ dirty w) then {[b]} ∪ dirty w else dirty w ∖ {[b]}), DDone)
    | None => (w, DFailed)
    end
  | DForgeStart _ => (MkWorld (live w) (durable w) (dirty w) (now w) (now w :: starts w), DDone)
  end.
Lemma sample_act_answers q w : answers q w (sample_act q w).2 (sample_act q w).1.
Proof.
  destruct q as [q| | | | | | | | | | | |]; cbn [answers sample_act].
  - split; [done|]. intros ->. cbn [fst snd told_time]. unfold sample_node, latest. cbn -[told_time sample_latest]. unfold sample_latest.
    destruct (now w =? sample_day1) eqn:E1; [apply Z.eqb_eq in E1 as ->; intros d; vm_compute; congruence|].
    destruct (now w =? sample_day3) eqn:E3; [apply Z.eqb_eq in E3 as ->; intros d; vm_compute; congruence|]. done.
  - destruct (live w !! path) eqn:E; [by right|by left].
  - by exists text.
  - by left.
  - done.
  - done.
  - destruct (live w !! path) eqn:E; [by left; split_and!|by right].
  - split; [|done]. exists (live w). split; [done|]. by right.
  - split; [done|]. by destruct (live w !! path) eqn:E.
  - destruct (live w !! temp_name dir pattern "1") eqn:E; [right; by split|left]. by exists "1".
  - destruct (live w !! from) as [t|] eqn:E; [left|by right]. split; [done|]. by exists t.
  - by left.
  - done.
Qed.
(** A process that runs alone to its end. *)
Lemma runs_alone unicodeLower json_document path (p : dprog (option unit)) : ∀ w w' a tr l, serve sample_act p w = (w', a, tr) →
  rtc (sstep unicodeLower json_document path) (w, p :: l) (w', Done a :: l).
Proof.
  induction p as [a|q k IH]; intros w w' a' tr l; cbn [serve]; [by intros [= -> -> _]|].
  pose proof (sample_act_answers q w) as Hw. destruct (sample_act q w) as [w1 r]. destruct (serve sample_act (k r) w1) as [[w2 a2] tr2] eqn:E.
  intros [= -> -> _]. eapply rtc_l; [|by eapply IH]. by apply (SAsks _ _ _ w w1 [] q k l r).
Qed.
Definition sample_record : Deployment.Deployment :=
  let c := Deployment.MkContract "" "" "" "" 6 in
  Deployment.MkDeployment 1 (Deployment.MkNetwork "arc-testnet" 5042002 "eip155:5042002" "https://rpc" "" "" 0 7 "")
    (Deployment.MkContracts c c c c) ∅ ∅.
Definition sample_process : dprog (option unit) := redeploy id sample_document (Some sample_record) "deployments/arc.json" "contracts" "deployer".
Definition sample_machine : world := MkWorld ∅ ∅ ∅ sample_day1 [].
Definition after_first : world := (serve sample_act sample_process sample_machine).1.1.
Definition after_refused : world := (serve sample_act sample_process after_first).1.1.
Definition two_days_on : world :=
  MkWorld (live after_refused) (durable after_refused) (dirty after_refused) sample_day3 (starts after_refused).
Definition after_third : world := (serve sample_act sample_process two_days_on).1.1.
Lemma broadcasts_keep_the_cadence_witness : ∃ l,
  rtc (sstep id sample_document "deployments/arc.json") (sample_machine, []) (after_third, l) ∧
  starts after_third = [sample_day3; sample_day1] ∧ spaced (starts after_third).
Proof.
  assert (Hrun : ∀ w l, rtc (sstep id sample_document "deployments/arc.json") (w, l)
    ((serve sample_act sample_process w).1.1, Done (serve sample_act sample_process w).1.2 :: l)).
  { intros w l. eapply rtc_l; [apply (SArrives _ _ _ w l (Some sample_record) "contracts" "deployer")|].
    apply (runs_alone _ _ _ _ _ _ _ (serve sample_act sample_process w).2). fold sample_process. by destruct (serve sample_act sample_process w) as [[? ?] ?]. }
  assert (Hall : ∃ l, rtc (sstep id sample_document "deployments/arc.json") (sample_machine, []) (after_third, l)).
  { eexists. etrans; [apply Hrun|]. fold after_first. etrans; [apply Hrun|]. fold after_refused.
    eapply rtc_l; [apply (STime _ _ _ after_refused _ sample_day3); vm_compute; congruence|]. fold two_days_on. apply Hrun. }
  destruct Hall as [l Hall]. exists l. split; [exact Hall|]. split; [vm_compute; reflexivity|]. exact (broadcasts_keep_the_cadence id sample_document "deployments/arc.json" _ _ _ Hall eq_refl).
Defined.
