(* ===== verification/Discovery.v ===== *)
(** Matching a need against a catalog ([internal/discovery]) and the finder
    the daemon wires from it ([cmd/snapfall]).

    A [float64] is IEEE 754 binary64, as the Standard Library specifies it,
    with every operation rounded on its own; [Log] is [math.Log].  [letter_or_digit] is [unicode.IsLetter] or [IsDigit] of
    one decoded rune, [range] the order a map is walked in, which differs from
    walk to walk; [urlParse], [Hostname], [EqualFold] and [ParseIP_loopback] are
    the library's. *)
From Stdlib Require Import Ascii String.
From Stdlib Require Import Floats.SpecFloat.
From S2P Require Import Prelude GoStr GoTime GoJson.
From S2P Require H3.
#[local] Open Scope Z_scope.
#[local] Open Scope snap_scope.
#[local] Set Default Proof Using "Type".

(** ** [float64] *)
Abbreviation float64 := spec_float.
Definition fadd : float64 → float64 → float64 := SFadd 53 1024.
Definition fmul : float64 → float64 → float64 := SFmul 53 1024.
Definition fdiv : float64 → float64 → float64 := SFdiv 53 1024.
Definition fsqrt : float64 → float64 := SFsqrt 53 1024.
Definition of_int (z : Z) : float64 := binary_normalize 53 1024 z 0 false.
Definition fzero : float64 := S754_zero false.
(** 0.15, rounded to nearest. *)
Definition DefaultMinScore : float64 := S754_finite false 5404319552844595 (-55).

Definition DemoNeedProfile : string := "company profile and background of the vendor".
Definition DemoNeedMarket : string := "vendor risk market data: competitive landscape and industry benchmark summary".
Record Service := MkService { sv_Merchant : string; sv_Resource : string; sv_Description : string; sv_AmountMicros : Z }.

(** ** The catalog *)
Definition SellerBaseURLEnv : string := "SNAPFALL_SELLER_BASE_URL".
Definition DefaultSellerBaseURL : string := "http://127.0.0.1:4021".
Record URL := MkURL {
  ur_Scheme : string; ur_Opaque : string; ur_User : bool; ur_Host : string; ur_Path : string; ur_RawQuery : string; ur_Fragment : string }.
Section Catalog.
Context (urlParse : string → option URL) (Hostname : string → string).
Context (EqualFold : string → string → bool) (ParseIP_loopback : string → bool).
Definition isLoopbackOrigin (raw : string) : bool :=
  match urlParse raw with
  | None => false
  | Some u =>
    if negb (bool_decide (ur_Scheme u = "http")) && negb (bool_decide (ur_Scheme u = "https")) then false
    else if negb (bool_decide (ur_Opaque u = "")) || ur_User u || negb (bool_decide (ur_Path u = ""))
            || negb (bool_decide (ur_RawQuery u = "")) || negb (bool_decide (ur_Fragment u = "")) then false
    else EqualFold (Hostname (ur_Host u)) "localhost" || ParseIP_loopback (Hostname (ur_Host u))
  end.
Definition SellerBaseURL (env : string → option string) : string :=
  let base := H3.TrimRight_slash (TrimSpace (default "" (env SellerBaseURLEnv))) in
  if bool_decide (base = "") || negb (isLoopbackOrigin base) then DefaultSellerBaseURL else base.
Definition V2StandIn (env : string → option string) : list Service :=
  let base := SellerBaseURL env in
  [MkService "api.research-data.example" (base +:+ "/v1/company-profile") "Competitor company profile" 40000;
   MkService "api.research-data.example" (base +:+ "/v1/premium-dataset") "Premium market dataset (full competitive landscape)" 4000000;
   MkService "api.benchmarks.example" (base +:+ "/v1/benchmark-summary") "Coding-assistant benchmark summary" 60000].
End Catalog.

(** ** The matcher *)
Record Match := MkMatch { ma_Service : Service; ma_Score : float64 }.
(** [strings.FieldsFunc] of what is neither a letter nor a digit. *)
Fixpoint fields (word : chunk → bool) (ks : list chunk) (cur : string) : list string :=
  match ks with
  | [] => if bool_decide (cur = "") then [] else [cur]
  | k :: r =>
    if word k then fields word r (cur +:+ bytes1 k)
    else if bool_decide (cur = "") then fields word r "" else cur :: fields word r ""
  end.
Section Matcher.
Context (unicodeLower : string → string) (letter_or_digit : chunk → bool) (Log : float64 → float64).
Definition tokenize (s : string) : list string := fields letter_or_digit (chunks (ToLower unicodeLower s)) "".
Definition termFreq (tokens : list string) : gmap string Z :=
  foldl (λ tf t, <[t := default 0 (tf !! t) + 1]> tf) ∅ tokens.
(** In how many descriptions a term is. *)
Definition doc_freq (docs : list (gmap string Z)) (t : string) : Z := Z.of_nat (length (filter (λ d : gmap string Z, is_Some (d !! t)) docs)).
Definition idf_of (docs : list (gmap string Z)) (t : string) : float64 :=
  Log (fadd (of_int 1) (fdiv (of_int (Z.of_nat (length docs))) (of_int (Z.max (doc_freq docs t) 1)))).
(** [needs] and [words] are the entries of the two maps in the order their
    loops meet them. *)
Definition cosine (needs words : list (string * Z)) (doc : gmap string Z) (idf : string → float64) : float64 :=
  let '(dot, needNorm) := foldl (λ acc e,
    let w := fmul (of_int e.2) (idf e.1) in
    let dot := match doc !! e.1 with Some dc => fadd acc.1 (fmul (fmul w (of_int dc)) (idf e.1)) | None => acc.1 end in
    (dot, fadd acc.2 (fmul w w))) (fzero, fzero) needs in
  let docNorm := foldl (λ acc e, let w := fmul (of_int e.2) (idf e.1) in fadd acc (fmul w w)) fzero words in
  if SFeqb dot fzero || SFeqb needNorm fzero || SFeqb docNorm fzero then fzero
  else fdiv dot (fmul (fsqrt needNorm) (fsqrt docNorm)).
(** Score first, then cheaper first, then the resource. *)
Definition better (a b : Match) : bool :=
  if negb (SFeqb (ma_Score a) (ma_Score b)) then SFltb (ma_Score b) (ma_Score a)
  else if negb (sv_AmountMicros (ma_Service a) =? sv_AmountMicros (ma_Service b))
  then sv_AmountMicros (ma_Service a) <? sv_AmountMicros (ma_Service b)
  else String.ltb (sv_Resource (ma_Service a)) (sv_Resource (ma_Service b)).
(** [range i] walks the maps of the [i]-th candidate. *)
Fixpoint candidates (range : nat → gmap string Z → list (string * Z)) (minScore : float64) (maxAmountMicros : Z) (needTF : gmap string Z)
    (idf : string → float64) (i : nat) (l : list (Service * gmap string Z)) : list Match :=
  match l with
  | [] => []
  | (s, doc) :: r =>
    let rest := candidates range minScore maxAmountMicros needTF idf (S i) r in
    if (0 <? maxAmountMicros) && (maxAmountMicros <? sv_AmountMicros s) then rest
    else
      let score := cosine (range i needTF) (range i doc) doc idf in
      if SFltb score minScore then rest else MkMatch s score :: rest
  end.
Definition Find (range : nat → gmap string Z → list (string * Z)) (minScore : float64) (services : option (list Service)) (need : string)
    (maxAmountMicros : Z) : option (list Match) :=
  services ← services;
  let needTF := termFreq (tokenize need) in
  if bool_decide (needTF = ∅) then Some []
  else
    let docs := (λ s, termFreq (tokenize (sv_Description s))) <$> services in
    Some (isort better (candidates range minScore maxAmountMicros needTF (idf_of docs) 0 (zip services docs))).
(** What the daemon hands to the worker of it. *)
Record Found := MkFound { fo_Merchant : string; fo_Resource : string; fo_Description : string; fo_AmountMicros : Z; fo_Score : float64 }.
Definition found_of (m : Match) : Found :=
  let s := ma_Service m in MkFound (sv_Merchant s) (sv_Resource s) (sv_Description s) (sv_AmountMicros s) (ma_Score m).
Definition discoveryFinder_Find (range : nat → gmap string Z → list (string * Z)) (services : option (list Service)) (need : string)
    (maxAmountMicros : Z) : option (list Found) :=
  match Find range DefaultMinScore services need maxAmountMicros with Some ms => Some (map found_of ms) | None => None end.
End Matcher.

(** ** What is found *)
Section Finds.
Context (unicodeLower : string → string) (letter_or_digit : chunk → bool) (Log : float64 → float64).
Abbreviation Find := (Find unicodeLower letter_or_digit Log).
Abbreviation termFreq := termFreq.
Abbreviation tokenize := (tokenize unicodeLower letter_or_digit).
Lemma candidates_spec range minScore cap needTF idf l : ∀ i m, m ∈ candidates range minScore cap needTF idf i l →
  (∃ doc, (ma_Service m, doc) ∈ l) ∧ (0 < cap → sv_AmountMicros (ma_Service m) ≤ cap) ∧ SFltb (ma_Score m) minScore = false.
Proof.
  induction l as [|[s doc] l IH]; intros i m; cbn [candidates]; [by intros ?%not_elem_of_nil|].
  assert (Hr : m ∈ candidates range minScore cap needTF idf (S i) l →
    (∃ doc', (ma_Service m, doc') ∈ (s, doc) :: l) ∧ (0 < cap → sv_AmountMicros (ma_Service m) ≤ cap) ∧ SFltb (ma_Score m) minScore = false).
  { intros Hm. apply IH in Hm as ([doc' Hd] & Hc & Hs). split; [exists doc'; by right|done]. }
  destruct (_ && _) eqn:Ec; [exact Hr|]. set (score := cosine _ _ _ _). destruct (SFltb score minScore) eqn:Es; [exact Hr|].
  intros [->|Hm]%elem_of_cons; [|by apply Hr]. cbn. split; [exists doc; by left|]. split; [|done].
  intros Hcap. apply andb_false_iff in Ec as [Ec|Ec]; bool_to_prop; lia.
Qed.
Lemma SFcompare_antisym x y : SFcompare y x = CompOpp <$> SFcompare x y.
Proof.
  destruct x as [sx|[]| |[] mx ex], y as [sy|[]| |[] my ey]; cbn; try done;
    rewrite (Z.compare_antisym ex ey); destruct (ex ?= ey); cbn; try done;
    change (Pos.compare_cont Eq ?a ?b) with (Pos.compare a b); rewrite (Pos.compare_antisym mx my); by destruct (Pos.compare mx my).
Qed.
Lemma better_asym a b : better a b = true → better b a = false.
Proof.
  unfold better, SFeqb, SFltb. rewrite (SFcompare_antisym (ma_Score a) (ma_Score b)).
  destruct (SFcompare (ma_Score a) (ma_Score b)) as [[]|]; cbn; try done.
  rewrite (Z.eqb_sym (sv_AmountMicros (ma_Service b))). destruct (_ =? _) eqn:E; cbn; [|intros H; bool_to_prop; apply Z.ltb_ge; lia].
  unfold String.ltb. rewrite (String.compare_antisym (sv_Resource (ma_Service a))). by destruct (String.compare _ _).
Qed.
(** Everything found is of the catalog, not above the cap, and not below the
    threshold; and the better match comes first. *)
Lemma Find_sound range minScore services need cap ms : Find range minScore (Some services) need cap = Some ms →
  Sorted (λ a b, better b a = false) ms ∧
  ∀ m, m ∈ ms → ma_Service m ∈ services ∧ (0 < cap → sv_AmountMicros (ma_Service m) ≤ cap) ∧ SFltb (ma_Score m) minScore = false.
Proof.
  unfold Discovery.Find. cbn [mbind option_bind]. case_bool_decide as Hn; [intros [= <-]; split; [constructor|by intros m ?%not_elem_of_nil]|].
  set (docs := _ <$> services). intros H. apply (inj Some) in H as <-. split; [apply isort_sorted, better_asym|]. intros m Hm.
  apply elem_of_isort, candidates_spec in Hm as ([doc Hd] & Hc & Hs). split; [|done]. by apply elem_of_zip_l in Hd.
Qed.
(** The cap is a filter: the scores are those of the whole catalog. *)
Lemma cap_only_filters range minScore cap needTF idf l : ∀ i,
  candidates range minScore cap needTF idf i l =
  filter (λ m, (0 <? cap) && (cap <? sv_AmountMicros (ma_Service m)) = false) (candidates range minScore 0 needTF idf i l).
Proof.
  induction l as [|[s doc] l IH]; intros i; [done|]. cbn [candidates]. cbn [andb Z.ltb Z.compare]. set (score := cosine _ _ _ _).
  destruct (_ && _) eqn:Ec; destruct (SFltb score minScore); rewrite ?filter_cons; cbn [ma_Service]; rewrite ?Ec, <-IH; [done| |done|].
  - by rewrite decide_False.
  - by rewrite decide_True.
Qed.
End Finds.

(** ** The order of a map changes a score *)
(** Sums of floats depend on their order, and the loops walk maps: the same
    need and the same catalog give two different scores. *)
Definition walk_up (m : gmap string Z) : list (string * Z) := isort (λ a b, String.ltb a.1 b.1) (map_to_list m).
Definition sample_doc : gmap string Z := list_to_map [("a", 1); ("b", 1); ("c", 1)].
(** [math.Log] of 2 and of 4: two terms of every description of a catalog of
    three, and one of a single description. *)
Definition sample_idf (t : string) : float64 :=
  if bool_decide (t = "c") then S754_finite false 6243314768165359 (-52) else S754_finite false 6243314768165359 (-53).
Lemma score_depends_on_the_walk : ∃ doc : gmap string Z,
  cosine (walk_up doc) (walk_up doc) doc sample_idf ≠ cosine (rev (walk_up doc)) (walk_up doc) doc sample_idf.
Proof. exists sample_doc. vm_compute. discriminate. Qed.
