(* ===== verification/Scenario.v ===== *)
(** A concrete daemon, funding agent and sidecar, and the theorems of
    [Approval], [Sidecar], [Funding], [Purchasing] and [Advancing] applied to them.

    The digests are constants with the shape of a Keccak-256 and of an
    HMAC-SHA-256 in hex; [urlParse] knows one loopback origin. *)
From Stdlib Require Import Ascii String.
From S2P Require Import Prelude GoStr GoTime GoJson Intent Policy Store H3 Sidecar Approval Funding Wiring Reconcile.
From S2P Require Budget Freeze Purchasing Advancing.
#[local] Open Scope Z_scope.
#[local] Open Scope snap_scope.

Lemma pair3' {A B C} (p : A * B * C) : p = (p.1.1, p.1.2, p.2).
Proof. by destruct p as [[a b] c]. Qed.

(** ** The daemon *)
Abbreviation hooks := (daemon_hooks sample_keccak).
Abbreviation laws := (daemon_laws sample_keccak).
Definition boundary : time := 1000 * Second.
Definition purchase : Intent := sample_purchase boundary.
Definition approved : World Daemon :=
  (Submit (H := hooks) sample_keccak (10 * Second) purchase fresh_daemon).1.
Definition frozen_entry : Freeze.Entry := Freeze.MkEntry "job" "job_1" "owner" "" 0 0.
Definition frozen_daemon : World Daemon :=
  with_fz (Some (Freeze.MkRegistry {[ Freeze.key "job" "job_1" := frozen_entry ]} 0 ∅ 0)) fresh_daemon.

Lemma Submit_frozen_unchanged_witness :
  Submit (H := hooks) sample_keccak 5 purchase frozen_daemon = (frozen_daemon, Err (ErrFrozen frozen_entry)).
Proof. apply (Submit_frozen_unchanged (H := hooks)). vm_compute. reflexivity. Defined.

Definition replayed : World Daemon * result ApErr SubmitResult :=
  Submit (H := hooks) sample_keccak (20 * Second) purchase approved.
Lemma nonce_replay_refused_witness :
  (∃ e, replayed.2 = Err e) ∧ db (st replayed.1) = db (st approved).
Proof.
  destruct (nonce_replay_refused (H := hooks) sample_keccak (20 * Second) purchase approved
    replayed.1 replayed.2) as (He & _ & _ & _ & _ & Hd).
  - apply (bool_decide_eq_true_1 _). vm_compute. reflexivity.
  - left. exact (surjective_pairing replayed).
  - exact (conj He Hd).
Defined.

(** Executing after the expiry is refused, and the executor does not run. *)
Definition executor (g : Grant) (w : World Daemon) (n : nat) : World Daemon * nat * option string :=
  (w, S n, None).
Definition too_late : World Daemon * nat * result ApErr unit :=
  Execute (H := hooks) sample_keccak (1001 * Second) purchase sample_id executor approved O.
Lemma Execute_refused_inert_witness :
  (∃ e, too_late.2 = Err e) ∧ too_late.1.2 = O ∧ st too_late.1.1 = st approved.
Proof.
  destruct (Execute_refused_inert (H := hooks) sample_keccak (1001 * Second) purchase sample_id executor approved O
    too_late.1.1 too_late.1.2 too_late.2) as (He & Hx & Hs & _).
  - intros req Hr. assert (Hq : r_ExpiresAt req = boundary).
    { change (requests approved !! sample_id) with
        (Some (new_request sample_keccak (10 * Second) true purchase)) in Hr. by injection Hr as <-. }
    intros (_ & _ & _ & Hlt & _). rewrite Hq in Hlt. vm_compute in Hlt. discriminate Hlt.
  - exact (pair3' too_late).
  - exact (conj He (conj Hx Hs)).
Defined.

(** A whole run: submit, admit, claim, finish. *)
Definition admitted : World Daemon * result ApErr Exec :=
  execute_admit (H := hooks) sample_keccak (20 * Second) purchase sample_id approved.
Definition the_exec : Exec :=
  match admitted.2 with Ok x => x | Err _ => MkExec "" "" "" zeroGrant None Gated end.
Definition claimed_daemon : World Daemon := (execute_claim (20 * Second) the_exec admitted.1).1.
Lemma approved_submission_ok : submission_ok (H := hooks) sample_keccak purchase fresh_daemon.
Proof. split; [by vm_compute|]. intros r Hr. exfalso. change (None = Some r) in Hr. discriminate Hr. Qed.
Lemma run_to_claimed :
  rtc (astep (H := hooks) sample_keccak) fresh_daemon claimed_daemon.
Proof.
  assert (Hin : the_exec ∈ inflight admitted.1).
  { assert (Hi : inflight admitted.1 = [the_exec]) by (vm_compute; reflexivity).
    rewrite Hi. by left. }
  assert (Hp : x_Phase the_exec = Gated) by (vm_compute; reflexivity).
  apply (rtc_l _ _ approved); [exact (a_Submit _ _ _ _ approved_submission_ok)|].
  apply (rtc_l _ _ admitted.1); [exact (a_Admit _ (20 * Second) purchase sample_id approved)|].
  apply rtc_once. exact (a_Claim _ (20 * Second) the_exec admitted.1 Hin Hp).
Qed.
Lemma fresh_start : start fresh_daemon.
Proof. repeat split. Qed.
Lemma execution_exactly_once_witness :
  exec_count sample_id (db (st claimed_daemon)) = 1%nat ∧
  ∀ now in_ e, (execute_admit (H := hooks) sample_keccak now in_ sample_id claimed_daemon).2 ≠ Ok e.
Proof.
  assert (Hc : exec_count sample_id (db (st claimed_daemon)) = 1%nat) by (vm_compute; reflexivity).
  split; [exact Hc|].
  destruct (execution_exactly_once (H0 := laws) sample_keccak sample_keccak_ascii fresh_daemon claimed_daemon
    sample_id fresh_start run_to_claimed) as (_ & _ & _ & Hno).
  exact (Hno Hc).
Defined.

Definition rebooted : World Daemon :=
  MkWorld (MkStore (db (st claimed_daemon)) []) ∅ None (ext fresh_daemon) [] [].
Definition recovered : World Daemon * result ApErr unit := Recover rebooted.
Lemma Recover_restores_requests_witness :
  match requests recovered.1 !! sample_id with
  | Some rec => r_State rec = StateApproved ∧ r_Executed rec = true
  | None => False
  end.
Proof.
  destruct (Recover_restores_requests (H0 := laws) sample_keccak sample_keccak_ascii fresh_daemon claimed_daemon
    rebooted recovered.1 recovered.2 fresh_start run_to_claimed eq_refl eq_refl (surjective_pairing recovered))
    as [He|[_ Hr]]; [vm_compute in He; discriminate He|].
  specialize (Hr sample_id).
  assert (Hl : is_Some (requests claimed_daemon !! sample_id)) by (vm_compute; by eexists).
  destruct Hl as [live Hl]. rewrite Hl in Hr.
  destruct (requests recovered.1 !! sample_id) as [rec|] eqn:Er; [|exact Hr].
  destruct Hr as [(_ & _ & _ & _ & _ & Hex & _) Hst]. vm_compute in Er. injection Er as <-.
  split; reflexivity.
Defined.

(** An approval whose record is lost. *)
Definition big_purchase : Intent :=
  MkIntent "pi_2" "org" "job_1" "" "dd-worker" KindPayment DemoMerchantProfile "GET /v1/x" 200000
    "profile" "0xdef" "pol_7" boundary "" "" "0xusdc" "eip155:5042002"
    200000 "0xPayee" "https://api.example/v1/x".
Definition pending_daemon : World Daemon :=
  let w := (Submit (H := hooks) sample_keccak (10 * Second) big_purchase fresh_daemon).1 in
  with_st (MkStore (db (st w)) [true]) w.
Lemma Decide_failed_append_stands_witness :
  let r := Decide (20 * Second) sample_id DecideApprove "owner" "ok" pending_daemon in
  r.2 = Err (ErrAudit ErrBegin) ∧
  ∃ req, requests r.1 !! sample_id = Some req ∧ r_State req = StateApproved.
Proof.
  cbv zeta.
  pose proof (Decide_failed_append_stands (20 * Second) sample_id "owner" "ok" pending_daemon
    (new_request sample_keccak (10 * Second) false big_purchase) [] ltac:(vm_compute; reflexivity)
    ltac:(vm_compute; reflexivity) ltac:(vm_compute; reflexivity) ltac:(vm_compute; reflexivity)
    ltac:(done) ltac:(vm_compute; reflexivity)) as Hd.
  destruct (Decide _ _ _ _ _ pending_daemon) as [w1 r]. destruct Hd as (Hr & _ & _ & (req & Hq & Hs & _) & _).
  split; [exact Hr|]. exists req. exact (conj Hq Hs).
Defined.

(** ** The payment lane *)
Definition sample_hmac (k m : string) : string :=
  "2222222222222222222222222222222222222222222222222222222222222222".
Definition sample_base : string := "http://127.0.0.1:4021".
Definition sample_token : string := "0123456789abcdef".
Definition sample_secret : string := "secret".
Definition sample_urlParse (s : string) : option (string * string) := Some ("http", "127.0.0.1:4021").
Definition sample_client : Client :=
  New sample_urlParse (λ _, "127.0.0.1") String.eqb (λ h, bool_decide (h = "127.0.0.1")) sample_base sample_token.
Definition sample_wire : HttpRequest → Sidecar → Sidecar * HttpOutcome :=
  exchange sample_keccak sample_hmac lower_ascii sample_token sample_secret sample_base.
Definition sample_lane : Payer Sidecar := client_payer sample_wire sample_urlParse sample_client.
Definition challenge : Challenge := MkChallenge "eip155:5042002" "0xPayee" "0xusdc" (Some 40000).
Definition paying (o : SubmitOut) : Env := MkEnv false (λ _, false) (ProbeOk challenge) o NotLost.
Definition delivering : Env := paying (SubmitDelivered "0xus" "0xPayee" "0xtx" "40000").
Definition sidecar_with (es : list Env) : Sidecar := MkSidecar ∅ [] es.
Definition fund_with (es : list Env) : Fund Sidecar :=
  MkFund (SetPayer (Some sample_lane) sample_secret 5042002 New_agent) (sidecar_with es).
Definition the_grant : Grant := MkGrant purchase sample_id (20 * Second).
Definition pay_once (es : list Env) : Fund Sidecar * (PaymentOutcome * option FErr) :=
  ExecutePayment sample_keccak sample_hmac String.eqb the_grant (fund_with es).

Lemma sample_digests : digests_hex sample_keccak sample_hmac.
Proof. split; [intros s; reflexivity|intros k m; split; reflexivity]. Qed.
Lemma fresh_sidecar es : sinv sample_keccak (sidecar_with es).
Proof.
  split; cbn; [by intros n p Hp; rewrite lookup_empty in Hp|intros n a Hin; by apply elem_of_nil in Hin|].
  apply NoDup_nil_2.
Qed.

Lemma one_movement_per_grant_witness :
  let ops := [OPayment the_grant; OExecute the_grant; OPayment the_grant] in
  let f := foldl (λ f o, fstep sample_keccak sample_hmac String.eqb (λ _, "") o f) (fund_with [delivering]) ops in
  NoDup (in_RequestID <$> executed (agent f)).
Proof.
  cbv zeta.
  exact (proj1 (one_movement_per_grant sample_keccak sample_hmac String.eqb (λ _, "")
    [OPayment the_grant; OExecute the_grant; OPayment the_grant] (fund_with [delivering]) eq_refl eq_refl)).
Defined.

Definition minted : WireIntent * ApprovalToken := (wire_of the_grant, token_of sample_keccak sample_hmac the_grant sample_secret).
Lemma minted_body_authorised_witness :
  computeIntentHash sample_keccak (received minted.1) = WireHash sample_keccak purchase.
Proof.
  destruct (minted_body_authorised sample_keccak sample_hmac the_grant sample_secret minted.1 minted.2
    sample_digests ltac:(vm_compute; reflexivity) ltac:(vm_compute; reflexivity)) as (tok' & _ & _ & Hh & _).
  exact Hh.
Defined.
Lemma minted_body_validates_witness : validatePayable minted.1 minted.2 = None.
Proof.
  apply (minted_body_validates sample_keccak sample_hmac the_grant sample_secret);
    [apply sample_digests|vm_compute; reflexivity|vm_compute; split; discriminate|vm_compute; reflexivity].
Defined.

Lemma pair3 {A B C} (p : A * (B * C)) : p = (p.1, (p.2.1, p.2.2)).
Proof. by destruct p as [a [b c]]. Qed.
Definition paid_once : Fund Sidecar * (PaymentOutcome * option FErr) := pay_once [delivering].

(** ** The sidecar *)
Abbreviation sample_sstep := (sstep sample_keccak sample_hmac lower_ascii sample_token sample_secret sample_base).
Definition pay_request : HttpRequest :=
  MkHttpRequest "POST" (sample_base +:+ "/v1/pay") (Some (json_Marshal (pay_body minted.1 minted.2)))
    (Some ("Bearer " +:+ sample_token)).
Definition twice_asked : Sidecar :=
  (sample_wire pay_request (sample_wire pay_request (sidecar_with [delivering; delivering])).1).1.

Definition asked : Sidecar * result GoErr StatusResult :=
  Status sample_wire sample_urlParse sample_client
    (PaymentID sample_keccak (WireHash sample_keccak purchase) "0xabc") (sidecar_with [delivering]).
Definition asked_error : Error :=
  match asked.2 with Err (H3Err e) => e | _ => MkError 0 "" false end.
Lemma not_found_means_unsigned_witness :
  he_Code asked_error = CodePaymentNotFound ∧
  ∀ n p, records asked.1 !! n = Some p →
    pr_paymentId p ≠ PaymentID sample_keccak (WireHash sample_keccak purchase) "0xabc".
Proof.
  assert (Hc : he_Code asked_error = CodePaymentNotFound) by (vm_compute; reflexivity).
  split; [exact Hc|].
  exact (proj1 (not_found_means_unsigned sample_keccak sample_hmac lower_ascii sample_token sample_secret
    sample_base sample_urlParse sample_client (WireHash sample_keccak purchase) "0xabc"
    (sidecar_with [delivering]) asked.1 asked_error (fresh_sidecar _) eq_refl eq_refl eq_refl
    ltac:(vm_compute; reflexivity) ltac:(vm_compute; reflexivity) Hc)).
Defined.

(** ** A signed payment whose hold the reconciler gives back *)
(** The ledger after the claim has been read back from the log. *)
Definition marked_daemon : World Daemon := (sweep_tick (25 * Second) (25 * Second) claimed_daemon).1.
Definition thrown : Fund Sidecar * (PaymentOutcome * option FErr) := pay_once [paying (SubmitThrew true)].
Definition reconciled_daemon : Store * Budget.Ledger * Sidecar * gmap string string :=
  reconcileUnresolved sample_keccak id (Status sample_wire sample_urlParse sample_client) true (30 * Second)
    (st marked_daemon) (dm_ledger (ext marked_daemon)) (remote thrown.1).

(** FAILED does not mean unsigned.  A seller that takes the signed header
    and answers 200 with a document that has no receipt makes the sidecar end
    the record FAILED, by an exception it does not take for a post-signature
    one.  The daemon keeps the hold when the call fails; its next
    reconciliation reads FAILED and releases the hold, although the key was
    used for that very payment. *)
Lemma failed_record_releases_signed_payment :
  thrown.2.2 = Some (FH3 Plain) ∧
  Budget.is_open (Budget.slot (Budget.entries (dm_ledger (ext marked_daemon))) sample_id) = true ∧
  Budget.closedBy (Budget.slot (Budget.entries reconciled_daemon.1.1.2) sample_id) = Budget.KindReleased ∧
  signed reconciled_daemon.1.2 = [("0xabc", AuthNonce sample_keccak (WireHash sample_keccak purchase))].
Proof. repeat split; vm_compute; reflexivity. Qed.

(** ** A purchase *)
Abbreviation purchaser := (Purchasing.MkPurchaser true true "org" (990 * Second)).
Definition no_message (e : Error) : string := "".
Abbreviation run_purchase w f :=
  (Purchasing.execute sample_keccak sample_hmac String.eqb no_message "failed" purchaser (20 * Second) false
     purchase sample_id AutoApprove w f).
Definition bought : World Daemon * Fund Sidecar * result Purchasing.PurErr Purchasing.PurchaseOutcome :=
  run_purchase approved (fund_with [delivering]).
Lemma approved_keyed req : requests approved !! sample_id = Some req → r_ID req = sample_id.
Proof.
  change (requests approved !! sample_id) with (Some (new_request sample_keccak (10 * Second) true purchase)).
  by intros [= <-].
Qed.

(** With no lane: the same purchase stops and gives its hold back. *)
Definition unwired : Fund Sidecar := MkFund New_agent (sidecar_with []).
Definition stopped : World Daemon * Fund Sidecar * result Purchasing.PurErr Purchasing.PurchaseOutcome :=
  run_purchase approved unwired.
Lemma honest_stop_gives_back_witness :
  Budget.closedBy (Budget.slot (Budget.entries (dm_ledger (ext stopped.1.1))) sample_id) = Budget.KindReleased.
Proof.
  destruct (Purchasing.honest_stop_gives_back sample_keccak sample_hmac String.eqb no_message "failed" purchaser
    (20 * Second) purchase sample_id AutoApprove approved unwired
    (new_request sample_keccak (10 * Second) true purchase) (or_intror eq_refl) eq_refl
    ltac:(vm_compute; reflexivity) eq_refl ltac:(done)) as (w' & f' & Hr & He & _).
  - repeat split; vm_compute; reflexivity.
  - cbn. set_solver.
  - vm_compute; reflexivity.
  - vm_compute; reflexivity.
  - unfold stopped. rewrite Hr. cbn [fst]. rewrite He, Budget.slot_insert. reflexivity.
Defined.

(** The owner declines while the purchase waits. *)
Definition pending_request : Request := new_request sample_keccak (10 * Second) false big_purchase.
Definition undecided : World Daemon :=
  (Submit (H := hooks) sample_keccak (10 * Second) big_purchase fresh_daemon).1.
Definition owner_says_no (w : World Daemon) (f : Fund Sidecar) : World Daemon * Fund Sidecar * bool :=
  ((Decide (15 * Second) sample_id DecideReject "owner" "too dear" w).1, f, false).
Definition declined : World Daemon := (owner_says_no undecided unwired).1.1.
Definition rejected_request : Request :=
  set_state StateRejected "owner" "too dear" (15 * Second) pending_request.
Lemma owner_decline_gives_back_witness :
  let r := Purchasing.awaitAndExecute sample_keccak sample_hmac String.eqb no_message "failed" purchaser
     (20 * Second) false owner_says_no big_purchase pending_request undecided unwired in
  Budget.closedBy (Budget.slot (Budget.entries (dm_ledger (ext r.1.1))) sample_id) = Budget.KindReleased ∧
  match r.2 with Ok o => Purchasing.o_Reason o = Purchasing.Verbatim "too dear" | Err _ => False end.
Proof.
  cbv zeta.
  destruct (Purchasing.owner_decline_gives_back sample_keccak sample_hmac String.eqb no_message "failed" purchaser
    (20 * Second) false owner_says_no big_purchase pending_request undecided unwired declined unwired
    rejected_request) as (w' & o & Hr & He & _ & _ & _ & Hreason).
  - reflexivity.
  - reflexivity.
  - vm_compute; discriminate.
  - vm_compute; reflexivity.
  - apply (bool_decide_eq_true_1 _). vm_compute. reflexivity.
  - vm_compute; reflexivity.
  - vm_compute; reflexivity.
  - rewrite Hr. cbn [fst snd]. split; [|apply Hreason; discriminate].
    change (r_ID pending_request) with sample_id in He. rewrite He, Budget.slot_insert. reflexivity.
Defined.

(** A seller that quotes 40000. *)
Definition quoting_urlParse (s : string) : option (string * string) :=
  if blank s then None else Some ("https", "api.example").
Definition quote_document : jval :=
  JObj [("resource", JStr "https://api.example/v1/x"); ("network", JStr "eip155:5042002");
        ("accept", JObj [("scheme", JStr "exact"); ("network", JStr "eip155:5042002"); ("amount", JStr "40000");
                         ("asset", JStr "0xusdc"); ("payTo", JStr "0xPayee"); ("maxTimeoutSeconds", JInt 60)]);
        ("price", JStr "40000")].
Definition quoting_wire (rq : HttpRequest) (n : nat) : nat * HttpOutcome :=
  (S n, Response 200 (Some (json_Marshal quote_document))).
Definition quoting_fund : Fund nat :=
  MkFund (SetPayer (Some (client_payer quoting_wire quoting_urlParse sample_client)) sample_secret 5042002 New_agent) O.
Definition unpriced : Intent :=
  Purchasing.new_intent purchaser (10 * Second) "0x00112233445566778899aabbccddeeff"
    (Purchasing.MkPurchaseIntent "job_1" "dd-worker" DemoMerchantProfile "GET https://api.example/v1/x" 50000 50000
       "profile" "").
Definition quoted : Fund nat * Purchasing.Quoted :=
  Purchasing.quoteIntoIntent quoting_urlParse purchaser unpriced quoting_fund.
Definition quoted_intent : Intent := match quoted.2 with Purchasing.Bound i => i | _ => zeroIntent end.
Lemma quote_binds_payable_witness :
  payable quoted_intent ∧ i_AmountMicros quoted_intent = 40000 ∧
  i_ResourceURL quoted_intent = "https://api.example/v1/x".
Proof.
  destruct (Purchasing.quote_binds_payable quoting_wire quoting_urlParse sample_client purchaser unpriced
    quoting_fund quoted.1 quoted_intent) as (q & m & _ & _ & _ & Hp & _).
  - intros s Hb. unfold absolute_http, quoting_urlParse. by rewrite Hb.
  - reflexivity.
  - reflexivity.
  - reflexivity.
  - assert (Hq : quoted.2 = Purchasing.Bound quoted_intent) by (vm_compute; reflexivity).
    rewrite <-Hq. exact (surjective_pairing quoted).
  - split; [exact Hp|]. split; vm_compute; reflexivity.
Defined.

(** ** An advance *)
Definition advance_flow : Advancing.Flow := Advancing.MkFlow "org" (990 * Second).
Definition advance_nonce : string := "0x00000000000000000000000000000000000000000000000000000000000000aa".
(** The proposal; then the owner's approval, which the flow was waiting for. *)
Definition proposed : World Daemon * result Advancing.AdvErr Request :=
  Advancing.Propose (H := hooks) sample_keccak advance_flow None (Some advance_nonce) (10 * Second)
    "job_1" "0xjob" "25.00" fresh_daemon.
Definition proposal : Request :=
  match proposed.2 with Ok r => r | Err _ => new_request sample_keccak 0 false purchase end.
Definition owner_agreed : World Daemon :=
  (Decide (20 * Second) (r_ID proposal) DecideApprove "owner" "ok" proposed.1).1.
Definition owner_says_yes (w : World Daemon) (f : Fund Sidecar) : World Daemon * Fund Sidecar * Advancing.Wake :=
  (owner_agreed, f, Advancing.Decided).
Definition advanced : World Daemon * Fund Sidecar :=
  Advancing.await (H := hooks) sample_keccak (λ _, "") "failed" (20 * Second) false owner_says_yes
    proposal proposed.1 unwired.
Lemma await_moves_only_approved_witness :
  length (executed (agent advanced.2)) = 1%nat ∧
  ∃ snap, requests owner_agreed !! r_ID proposal = Some snap ∧
    executable (H := hooks) sample_keccak (20 * Second) (r_Intent snap) snap owner_agreed.
Proof.
  assert (Hl : length (executed (agent advanced.2)) = 1%nat) by (vm_compute; reflexivity).
  split; [exact Hl|].
  destruct (Advancing.await_moves_only_approved (H := hooks) sample_keccak (λ _, "") "failed" (20 * Second) false
    owner_says_yes proposal proposed.1 unwired owner_agreed unwired Advancing.Decided advanced.1 advanced.2
    eq_refl (surjective_pairing advanced)) as [Ha|(_ & _ & snap & _ & _ & Hs & Hx & _)].
  - rewrite Ha in Hl. vm_compute in Hl. discriminate Hl.
  - exists snap. exact (conj Hs Hx).
Defined.

(** The daemon stops before the owner has answered. *)
Definition by_id (m : gmap string Request) : list Request := snd <$> map_to_list m.
Definition scanned : World Daemon * result (Z * StoreErr) Z :=
  Advancing.EscalateInterrupted by_id None (30 * Second) proposed.1.
Lemma restart_accounts_for_every_advance_witness :
  scanned.2 = Ok 1 ∧ ∃ row, row ∈ events (db (st scanned.1)) ∧ Advancing.tells proposal row.
Proof.
  assert (Hs : scanned.2 = Ok 1) by (vm_compute; reflexivity). split; [exact Hs|].
  destruct (Advancing.restart_accounts_for_every_advance by_id None (30 * Second) proposed.1 scanned.1 1)
    as (_ & rows & Hd & _ & _ & Hreqs).
  - intros id req Hi. unfold by_id. apply list_elem_of_fmap. exists (id, req). split; [done|].
    by apply elem_of_map_to_list.
  - rewrite <-Hs. exact (surjective_pairing scanned).
  - destruct (Hreqs (r_ID proposal) proposal) as [Hopen _]; [vm_compute; reflexivity..|].
    destruct Hopen as (row & Hi & Ht); [vm_compute; reflexivity..|].
    exists row. split; [|exact Ht]. rewrite Hd. apply elem_of_app. by right.
Defined.
